(* ===== verification/_CoqProject ===== *)
-Q . S2P
Prelude.v
TimeLock.v
TimeLockFacts.v
Bytes.v
Keccak.v
KeccakFacts.v
Ticket.v
FsnTypes.v
Rlp.v
RlpFacts.v
RlpSplit.v
Codec.v
CallParams.v
StateDB.v
StateRecords.v
StateFacts.v
StateRevert.v
StateInterface.v
StateGaps.v
StateWorld.v
Ledger.v
RecordFacts.v
RecordStore.v
StateTransition.v
CallFacts.v
SwapFacts.v
SwapLedger.v
MultiSwap.v
MultiSwapFacts.v
MultiSwapCalls.v
MultiSwapLedger.v
TransitionDb.v
GasFacts.v
TrieEncoding.v
TrieTree.v
TrieNode.v
TrieStore.v
Trie.v
TrieHash.v
TrieFacts.v
TrieHashFacts.v
TrieMap.v
TrieSession.v
Hex.v
Header.v
Snapshot.v
Receipt.v
Transaction.v
Block.v
Datong.v
DatongFacts.v
DatongOrder.v
DatongSeal.v
TicketLedger.v
DatongLedger.v
DatongTickets.v
EvmWord.v
EvmAnalysis.v
ChainConfig.v
EvmMachine.v
EvmGas.v
EvmCall.v
EvmPrecompiled.v
EvmOps.v
Evm.v
EvmArith.v
EvmLaws.v
EvmSafe.v
EvmExec.v
EvmPrice.v
EvmCallOk.v
EvmCallOps.v
EvmTable.v
EvmTotal.v
EvmPrecompiledOk.v
EvmState.v
EvmSpec.v
