(* ===== verification/Prelude.v ===== *)
(** * A verification of the Fusion (efsn) ledger and state

    The program is the Go node of the Fusion network, a fork of go-ethereum
    whose ledger holds many assets, time locks (amounts that are available
    during intervals of time), notations (short account numbers), swaps and
    tickets (stakes that take part in the making of blocks). The development
    models the parts that decide what a block does to the state, from the bytes
    of a transaction to the root hash of the state, as executable functions, and
    proves them correct.

    ** The parts and their files

    - Prelude: machine integers ([u64]), the results of Go code ([outcome]: a
      value, a panic, or no result within the fuel), the tactics and the hint
      databases. Go's [uint64] is a [Z] that the operations wrap; a [*big.Int]
      is an [option Z] where nil matters; addresses and hashes are numbers,
      bytes are lists of numbers.
    - TimeLock, TimeLockFacts (common/timelock.go): [TimeLock_Add], [TimeLock_Sub],
      [TimeLock_Cmp], [ClearExpired], [ToDisplay], [IsValid]. The meaning of a
      time lock is the amount that it makes available at each time; the
      theorems give each operation as an operation on these functions.
    - Bytes (common/types.go, common/convert.go, common/bytes.go), Keccak,
      KeccakFacts (crypto/sha3, crypto/crypto.go): the conversions and the hash,
      with the sponge and the unrolled permutation shown equal to the standard,
      which is written down on its own ([Reference]), round constants included.
    - Ticket (common/ticket.go): the tickets grouped by owner, refined to a
      multiset of tickets.
    - FsnTypes, CallParams (common/types.go, common/utils.go, params,
      core/tx_pool.go): assets, swaps and the parameters of the Fusion calls with
      their checks. Codec: their RLP types.
    - Rlp, RlpFacts, RlpSplit (rlp): the encoding buffer, the stream decoder and
      the splitting functions, with the round trip and the uniqueness of the
      encoding.
    - StateDB, StateFacts, StateRevert, StateInterface, StateWorld
      (core/state, core/vm/interface.go): accounts, state objects, the journal,
      snapshots, commit. [M] is the monad of the methods of StateDB. [iface] is
      the interface through which the EVM works on the state, but for [Suicide];
      [prog] are the programs over it, and every one of them can be reverted.
    - StateGaps: what the state database does not give back, the effect of
      reverting [Suicide] and of reading on [Empty].
    - StateRecords, RecordFacts, RecordStore (core/state/statedb.go): notations,
      assets, swaps, multi-swaps and tickets as records of the state, refined to
      finite maps.
    - Ledger: what accounts hold, of every asset and at every time; [moves] says
      how a call changes it.
    - StateTransition, CallFacts, SwapFacts, SwapLedger, MultiSwap,
      MultiSwapFacts, MultiSwapCalls, MultiSwapLedger (handleFsnCall of
      core/state_transition.go): the Fusion calls and what they do to the ledger.
    - TransitionDb, GasFacts (the rest of core/state_transition.go,
      core/gaspool.go): buying, using and refunding gas.
    - TrieEncoding, TrieTree, TrieNode, TrieStore, Trie, TrieHash, TrieFacts,
      TrieHashFacts, TrieMap, TrieSession (trie): the Merkle Patricia trie with
      its store of nodes. [tree] is the abstract trie, [expands] relates the
      nodes in memory and in the store to it, and [map_root] is the root hash
      as a function of the finite map that the trie stands for.
    - Hex (common/bytes.go, common/types.go), Header, Block (core/types/block.go,
      derive_sha.go), Receipt (log.go, receipt.go, bloom9.go), Transaction
      (transaction.go, transaction_signing.go): what a block consists of, with
      its encodings, hashes, roots and filters, and the signers.
    - Snapshot, Datong, DatongFacts, DatongOrder, DatongSeal, DatongTickets
      (consensus/datong): the consensus engine. [verifyHeader], [Prepare],
      [Finalize] and [Seal] are its methods; the order of the owners of tickets
      is a function of the tickets and the parent.
    - TicketLedger, DatongLedger: tickets as a part of what accounts hold, when
      they are bought and at the end of a block.
    - ChainConfig (params): the forks and the prices of gas.
    - EvmWord (common/math), EvmAnalysis, EvmMachine, EvmGas, EvmCall, EvmOps,
      EvmPrecompiled, Evm (core/vm, core/evm.go): the EVM. [VM] is the frame of a
      contract, [I] the monad of the instructions, [G] that of the prices, [V]
      that of the calls; [step] is one round of the loop of [Run], and [evmCall]
      and [evmCreate] are the entry points. The state is behind the class
      [StateOps].
    - EvmLaws, EvmSafe, EvmExec, EvmPrice, EvmCallOk, EvmCallOps, EvmTable,
      EvmTotal, EvmPrecompiledOk: the EVM is safe on every state that keeps the
      contract [StateLaws]. EvmState: the state database keeps it. EvmArith,
      EvmSpec: what the instructions compute, and the guarantees of a call.

    ** What the theorems show

    - Arithmetic of time locks: addition and subtraction are exact, at every time;
      so is comparison, for items that start after time 0.
    - Conservation: the swap and multi-swap calls leave the supply of every
      asset as it is, with the books of open swaps determined by the state; the
      time lock and send calls change it as they should; applying a message
      charges the sender, runs the body and pays the miner, state by state, for
      exactly the gas that it uses. Taking a swap of a notation that its owner
      still has, which moves the notation, is modelled and not in the theorems.
    - Reverting: a snapshot brings back the accounts, as [view] sees them, the
      refund counter, the logs and the preimages. It does not bring back tickets,
      which are not in the journal, nor take away the entries of zero that reading
      a balance makes, which [Empty] counts; so [≡] on states leaves these out.
    - Refinement: ticket groups to multisets, records to maps, tries to maps,
      the hash to its standard, the encoders to their specification.
    - Round trips: RLP, trie nodes, trie keys, swaps that are made and recalled.
    - The root hash of a trie depends on its contents alone and binds them.
    - Consensus: a block that an honest miner makes is accepted; the order of
      the miners and their difficulties agree on every node; finalizing a block
      settles the tickets and pays the miner a bounded reward; nodes that know
      the digest of a block agree on its tickets, unless just these collide.
    - Blocks: a header binds its transactions, receipts and uncles, and its filter
      is exact; the sender of a signed transaction is recovered.
    - EVM: a call never runs out of fuel, accounts for its gas and, when it fails,
      leaves a state that is [≡] to the one before; without CREATE it does not
      panic, unless two codes in play collide. A static call changes nothing that
      [view] sees; jumps go to instructions alone; the arithmetic is that of
      256-bit words; the price of memory is exact up to the size at which it wraps.
    - Errors: the branches on which the code panics or leaves a state that it
      should not are theorems too.

    ** Bounds and fuel

    Loops that are not structural take fuel that is computed from their input;
    each theorem about them shows that the fuel is enough, since its conclusion
    is a [Done] result. The fuel of the RLP decoder is the length of the input,
    that of the trie ([fuel_for]) the length of the key and the depth it can
    reach. The loop of the EVM has the gas of the contract as its fuel, since
    every instruction that does not halt costs some, and interpreters nest at
    most [maxNesting] deep, 1026, since [Call] refuses to go deeper than
    [CallCreateDepth]; EvmTotal shows that neither runs out. The theorems on
    calls take at most [maxGas], 2^62 units of gas: with more, the precompiled
    exponentiation can be made to panic ([modexp_panics]). Hypotheses bound sizes
    by what the machine has: lengths below 2^64, times that are [uint64].

    ** What is not modelled, and why

    The state transition takes the EVM as a parameter; the guarantees of the EVM
    are shown on the same state database, but the two are not composed into one
    theorem. SELFDESTRUCT is modelled and left out of the theorems on calls by
    their environment ([evm_env]), since its effect on the state database cannot
    be undone ([suicide_revert_effect]). CREATE is modelled and shown to end, to
    account for its gas and to be undone; that it does not panic is left open, since
    the jump destinations are kept by the hash of the code, and the code that may
    be created is not known beforehand. The instructions of
    Constantinople are modelled, and their arithmetic is shown, but the theorems
    on calls are for the rules before it. Tracing, the abort flag and the pool
    of integers are left out. The recovery of public keys, the curve bn256 and
    RIPEMD-160 are parameters, and so are the compression of struct data and the
    clock of the machine. The printers and parsers of JSON are output only. The
    transaction pool, block import, the miner, synchronisation and the network
    protocols are
    concurrent code over goroutines, sockets and timers that changes the state
    only through the parts above. Ethash, Clique, Swarm, Whisper, the wallets,
    the console and the dashboard do not take part in the Fusion ledger. *)

From stdpp Require Import base list sorting gmap strings.
From Stdlib Require Import ZArith Lia Permutation.

#[global] Open Scope Z_scope.

(** ** Machine integers

    A Go [uint64] is a [Z] kept in range by [u64]; the operations of the
    models write the wrap-around out. *)

Definition two64 : Z := 18446744073709551616.
Definition max_u64 : Z := 18446744073709551615.
Definition u64 (z : Z) : Z := z mod two64.
Definition is_u64 (z : Z) : Prop := 0 <= z < two64.

Lemma u64_id z : is_u64 z → u64 z = z.
Proof. apply Z.mod_small. Qed.

Lemma u64_range z : is_u64 (u64 z).
Proof. apply Z.mod_pos_bound. reflexivity. Qed.

(** [big.Int.Cmp] and [big.Int.Sign] of math/big. *)
Definition bigCmp (a b : Z) : Z := if a <? b then -1 else if a =? b then 0 else 1.
Definition bigSign (a : Z) : Z := Z.sgn a.

Lemma bigCmp_lt a b : bigCmp a b < 0 ↔ a < b.
Proof. unfold bigCmp. destruct (Z.ltb_spec a b), (Z.eqb_spec a b); lia. Qed.

Lemma bigCmp_eq a b : bigCmp a b = 0 ↔ a = b.
Proof. unfold bigCmp. destruct (Z.ltb_spec a b), (Z.eqb_spec a b); lia. Qed.

Lemma bigCmp_gt a b : 0 < bigCmp a b ↔ b < a.
Proof. unfold bigCmp. destruct (Z.ltb_spec a b), (Z.eqb_spec a b); lia. Qed.

(** [BitLen], [Uint64] (the low 64 bits of the absolute value) and [Int64] of
    math/big; [i64] wraps to an [int64]. *)
Definition BitLen (z : Z) : Z := if z =? 0 then 0 else Z.log2 (Z.abs z) + 1.
Definition bigUint64 (z : Z) : Z := u64 (Z.abs z).
Definition i64 (z : Z) : Z := (z + 2 ^ 63) mod 2 ^ 64 - 2 ^ 63.
Definition bigInt64 (z : Z) : Z :=
  let v := i64 (Z.abs z) in if z <? 0 then i64 (- v) else v.

Lemma bigUint64_id z : is_u64 z → bigUint64 z = z.
Proof. unfold bigUint64, is_u64. intros. rewrite Z.abs_eq by lia. by apply u64_id. Qed.

Lemma BitLen_le z n : 0 < n → 0 <= z → BitLen z <= n ↔ z < 2 ^ n.
Proof.
  intros Hn Hz. unfold BitLen. rewrite Z.abs_eq by done. destruct (Z.eqb_spec z 0) as [->|].
  - split; [intros _; by apply Z.pow_pos_nonneg; lia|lia].
  - rewrite (Z.log2_lt_pow2 z n) by lia. lia.
Qed.

Lemma i64_id z : - 2 ^ 63 <= z < 2 ^ 63 → i64 z = z.
Proof. intros Hz. unfold i64. rewrite Z.mod_small; lia. Qed.

Lemma bigInt64_id z : 0 <= z < 2 ^ 63 → bigInt64 z = z.
Proof. intros Hz. unfold bigInt64. rewrite Z.abs_eq, (i64_id z) by lia. destruct (Z.ltb_spec z 0); lia. Qed.

(** ** Results

    [outcome] is what a Go call does: it returns a value or it panics.
    [OutOfFuel] is no behaviour of the code: it marks a loop whose fuel was
    chosen too small, and the totality theorems rule it out. A Go function
    that returns an [error] beside its value returns an [A + error] or an
    [option error] inside the outcome. *)

Inductive outcome (A : Type) : Type :=
| Done (a : A)
| Panic (why : string)
| OutOfFuel.
Arguments Done {A} _.
Arguments Panic {A} _.
Arguments OutOfFuel {A}.

Definition obind {A B} (m : outcome A) (k : A → outcome B) : outcome B :=
  match m with
  | Done a => k a
  | Panic w => Panic w
  | OutOfFuel => OutOfFuel
  end.

Declare Scope go_scope.
Delimit Scope go_scope with go.
Notation "'let?' x ':=' m 'in' k" := (obind m (fun x => k))
  (at level 10, x pattern, m at level 100, k at level 200) : go_scope.
#[global] Open Scope go_scope.

(** ** sort.Search

    The binary search of package sort, with the invariant f(i-1) false and f(j)
    true; the interval halves, so its length is enough fuel. *)
Fixpoint Search_loop (fuel : nat) (f : nat → bool) (i j : nat) : nat :=
  match fuel with
  | O => i
  | S fuel =>
      if (i <? j)%nat then
        let h := ((i + j) / 2)%nat in
        if f h then Search_loop fuel f i h else Search_loop fuel f (S h) j
      else i
  end.
Definition Search (n : nat) (f : nat → bool) : nat := Search_loop n f 0 n.

Lemma Search_loop_spec fuel f i j k :
  (i <= k <= j)%nat → (j - i <= fuel)%nat →
  (∀ h, (i <= h < k)%nat → f h = false) → (∀ h, (k <= h < j)%nat → f h = true) →
  Search_loop fuel f i j = k.
Proof.
  revert i j. induction fuel as [|fuel IH]; intros i j Hk Hf Hlo Hhi; cbn [Search_loop]; [lia|].
  destruct (Nat.ltb_spec i j); [|lia].
  pose proof (Nat.div_mod (i + j) 2 ltac:(lia)). pose proof (Nat.mod_upper_bound (i + j) 2 ltac:(lia)).
  destruct (f ((i + j) / 2)%nat) eqn:E.
  - assert (k <= (i + j) / 2)%nat.
    { destruct (Nat.le_gt_cases k ((i + j) / 2)); [done|]. rewrite Hlo in E; [done|lia]. }
    apply IH; [lia|lia|done|]. intros h Hh. apply Hhi. lia.
  - assert ((i + j) / 2 < k)%nat.
    { destruct (Nat.lt_ge_cases ((i + j) / 2) k); [done|]. rewrite Hhi in E; [done|lia]. }
    apply IH; [lia|lia| |done]. intros h Hh. apply Hlo. lia.
Qed.

(** On a monotone predicate [Search] finds the first index that satisfies it. *)
Lemma Search_spec n f k :
  (k <= n)%nat → (∀ h, (h < k)%nat → f h = false) → (∀ h, (k <= h < n)%nat → f h = true) →
  Search n f = k.
Proof. intros. apply Search_loop_spec; try lia; intros; eauto with lia. Qed.

(** ** Automation *)

Create HintDb efsn.
Create Rewrite HintDb efsn_rw.

(** Splits on the first integer comparison the goal or a hypothesis branches
    on, and turns it into a (in)equality that [lia] reads. *)
Ltac zcase1 :=
  match goal with
  | |- context [?a <? ?b] => destruct (Z.ltb_spec a b)
  | |- context [?a <=? ?b] => destruct (Z.leb_spec a b)
  | |- context [?a =? ?b] => destruct (Z.eqb_spec a b)
  | H : context [?a <? ?b] |- _ => destruct (Z.ltb_spec a b)
  | H : context [?a <=? ?b] |- _ => destruct (Z.leb_spec a b)
  | H : context [?a =? ?b] |- _ => destruct (Z.eqb_spec a b)
  end.
Ltac zcase := repeat (zcase1; simpl in *; try lia).

(** ** Lists *)

Section sums.
Context {A : Type}.
Implicit Types (f g : A → Z) (l : list A).

Fixpoint sumZ f l : Z :=
  match l with
  | [] => 0
  | x :: l' => f x + sumZ f l'
  end.

Lemma sumZ_app f l1 l2 : sumZ f (l1 ++ l2) = sumZ f l1 + sumZ f l2.
Proof. induction l1; simpl; lia. Qed.

Lemma sumZ_perm f l1 l2 : l1 ≡ₚ l2 → sumZ f l1 = sumZ f l2.
Proof. induction 1; simpl; lia. Qed.

Lemma sumZ_ext f g l : (∀ x, x ∈ l → f x = g x) → sumZ f l = sumZ g l.
Proof.
  induction l as [|a l IH]; simpl; intros H; [done|].
  rewrite (H a) by set_solver. rewrite IH; [done|]. set_solver.
Qed.

Lemma sumZ_nonneg f l : (∀ x, x ∈ l → 0 <= f x) → 0 <= sumZ f l.
Proof.
  induction l as [|a l IH]; simpl; intros H; [lia|].
  pose proof (H a ltac:(set_solver)). assert (0 <= sumZ f l); [|lia].
  apply IH. set_solver.
Qed.

Lemma sumZ_zero f l : (∀ x, x ∈ l → f x = 0) → sumZ f l = 0.
Proof.
  induction l as [|a l IH]; simpl; intros H; [lia|].
  rewrite (H a) by set_solver. rewrite IH; [lia|]. set_solver.
Qed.
End sums.

#[export] Instance sumZ_Proper {A} (f : A → Z) : Proper ((≡ₚ) ==> eq) (sumZ f).
Proof. intros l1 l2. apply sumZ_perm. Qed.

#[export] Hint Rewrite @sumZ_app : efsn_rw.
#[export] Hint Resolve u64_range : efsn.
