(* ===== verification/TimeLock.v ===== *)
(** * Time locks (common/timelock.go)

    A time lock is the balance of one asset as a list of items, each an
    amount that is available on a closed interval of time. This file holds
    the operations of [TimeLockItem] and [TimeLock], the meaning of a time
    lock as the amount available at each moment ([amountAt]), and the proofs
    that the interval arithmetic computes with that meaning. *)

From stdpp Require Import base list sorting gmap strings.
From Stdlib Require Import ZArith Lia Permutation.
From S2P Require Import Prelude.

(** ** Data *)

Inductive TimeLockType :=
| AssetToTimeLock
| TimeLockToTimeLock
| TimeLockToAsset
| OtherTimeLockType (n : Z).

Definition TimeLockNow : Z := 0.
Definition TimeLockForever : Z := 18446744073709551615.

Record TimeLockItem := mkItem {
  StartTime : Z;
  EndTime : Z;
  Value : Z;
}.

#[export] Instance TimeLockItem_eq_dec : EqDecision TimeLockItem.
Proof. solve_decision. Defined.

Inductive TimeLockError :=
| ErrItemTime (s e : Z)
| ErrItemValue (v : Z)
| ErrAtIndex (i : nat) (err : TimeLockError)
| ErrOrder (i : nat) (prev next : TimeLockItem).

(** ** TimeLockItem *)

Definition TimeLockItem_IsValid (z : TimeLockItem) : option TimeLockError :=
  if EndTime z <? StartTime z then Some (ErrItemTime (StartTime z) (EndTime z))
  else if bigSign (Value z) <=? 0 then Some (ErrItemValue (Value z))
  else None.

(** [new(big.Int).SetBytes(v.Bytes())] keeps the magnitude and drops the sign. *)
Definition copyBytes (v : Z) : Z := Z.abs v.

Definition TimeLockItem_Clone (z : TimeLockItem) : TimeLockItem :=
  mkItem (StartTime z) (EndTime z) (copyBytes (Value z)).

Definition AdjustStartEnd (z : TimeLockItem) (startTime endTime : Z) : TimeLockItem :=
  mkItem startTime endTime (copyBytes (Value z)).

Definition AdjustStart (z : TimeLockItem) (startTime : Z) : TimeLockItem :=
  AdjustStartEnd z startTime (EndTime z).

Definition AdjustEnd (z : TimeLockItem) (endTime : Z) : TimeLockItem :=
  AdjustStartEnd z (StartTime z) endTime.

Definition EqualRange (z : TimeLockItem) (x : option TimeLockItem) : bool :=
  match x with
  | None => false
  | Some x => (StartTime z =? StartTime x) && (EndTime z =? EndTime x)
  end.

Definition CanMerge (z x : TimeLockItem) : bool :=
  (EndTime z <? StartTime x) && (u64 (EndTime z + 1) =? StartTime x)
  && (bigCmp (Value z) (Value x) =? 0).

Definition Merge (z x : TimeLockItem) : TimeLockItem := AdjustEnd z (EndTime x).

Inductive TailFlag := TailInBoth | TailInFirst | TailInSecond.

#[export] Instance TailFlag_eq_dec : EqDecision TailFlag.
Proof. solve_decision. Defined.

Definition intersectionAdd (x y : TimeLockItem) : option TimeLockItem :=
  let startTime := if StartTime x <? StartTime y then StartTime y else StartTime x in
  let endTime := if EndTime y <? EndTime x then EndTime y else EndTime x in
  if endTime <? startTime then None
  else Some (mkItem startTime endTime (Value x + Value y)).

Definition intersectionSub (x y : TimeLockItem) : option TimeLockItem :=
  if bigCmp (Value x) (Value y) =? 0 then None
  else
    let startTime := if StartTime x <? StartTime y then StartTime y else StartTime x in
    let endTime := if EndTime y <? EndTime x then EndTime y else EndTime x in
    if endTime <? startTime then None
    else Some (mkItem startTime endTime (Value x - Value y)).

Definition opt_list {A} (o : option A) : list A :=
  match o with Some a => [a] | None => [] end.

Definition TimeLockItem_Add (z x : TimeLockItem) : list TimeLockItem * TailFlag :=
  if EndTime x <? StartTime z then
    if CanMerge x z then ([Merge x z], TailInFirst) else ([x; z], TailInFirst)
  else if EndTime z <? StartTime x then
    if CanMerge z x then ([Merge z x], TailInSecond) else ([z; x], TailInSecond)
  else
    let head :=
      if StartTime x <? StartTime z then [AdjustEnd x (u64 (StartTime z - 1))]
      else if StartTime z <? StartTime x then [AdjustEnd z (u64 (StartTime x - 1))]
      else [] in
    let middle := opt_list (intersectionAdd x z) in
    let '(tail, tailFlag) :=
      if EndTime x <? EndTime z then ([AdjustStart z (u64 (EndTime x + 1))], TailInFirst)
      else if EndTime z <? EndTime x then ([AdjustStart x (u64 (EndTime z + 1))], TailInSecond)
      else ([], TailInBoth) in
    (head ++ middle ++ tail, tailFlag).

Definition TimeLockItem_Sub (z : TimeLockItem) (x : option TimeLockItem)
    : list TimeLockItem * option TimeLockItem :=
  match x with
  | None => ([z], None)
  | Some x =>
      if (EndTime z <? StartTime x) || (EndTime x <? StartTime z) then ([z], Some x)
      else if bigCmp (Value z) (Value x) <? 0 then ([z], Some x)
      else
        let head :=
          if StartTime z <? StartTime x then [AdjustEnd z (u64 (StartTime x - 1))] else [] in
        let middle := opt_list (intersectionSub z x) in
        let '(tail, missing) :=
          if EndTime x <=? EndTime z then
            (if EndTime x <? EndTime z then [AdjustStart z (u64 (EndTime x + 1))] else [], None)
          else if StartTime x <=? EndTime z then
            ([], Some (AdjustStart x (u64 (EndTime z + 1))))
          else ([], Some x) in
        (head ++ middle ++ tail, missing)
  end.

(** ** TimeLock

    A [*TimeLock] that the code compares with nil is an [option TimeLock]. The
    receiver of [Add] and [Sub] is overwritten with what they return. *)

Record TimeLock := mkTimeLock { Items : list TimeLockItem }.

#[export] Instance TimeLock_eq_dec : EqDecision TimeLock.
Proof. solve_decision. Defined.

Definition SetItems (items : list TimeLockItem) : TimeLock :=
  mkTimeLock (map TimeLockItem_Clone items).

Definition NewTimeLock (items : list TimeLockItem) : TimeLock := SetItems items.

Definition TimeLock_Clone (z : TimeLock) : TimeLock := NewTimeLock (Items z).

Definition TimeLock_Set (x : option TimeLock) : TimeLock :=
  match x with Some x => TimeLock_Clone x | None => mkTimeLock [] end.

Definition IsEmpty (z : TimeLock) : bool :=
  match Items z with [] => true | _ => false end.

Definition appendAndMergeItem (items : list TimeLockItem) (addItem : option TimeLockItem)
    : list TimeLockItem :=
  match addItem with
  | None => items
  | Some a =>
      match last items with
      | None => [a]
      | Some l =>
          if CanMerge l a then <[(length items - 1)%nat := Merge l a]> items
          else items ++ [a]
      end
  end.

Definition appendAndMergeItems (items addItems : list TimeLockItem) : list TimeLockItem :=
  match addItems with
  | [] => items
  | a :: rest => appendAndMergeItem items (Some a) ++ rest
  end.

(** The loop of [IsValid] with the item before and the index of the next. *)
Fixpoint IsValid_loop (i : nat) (prev : option TimeLockItem) (items : list TimeLockItem)
    : option TimeLockError :=
  match items with
  | [] => None
  | next :: rest =>
      match TimeLockItem_IsValid next with
      | Some err => Some (ErrAtIndex i err)
      | None =>
          match prev with
          | Some p =>
              if (StartTime next <=? EndTime p) || CanMerge p next
              then Some (ErrOrder i p next)
              else IsValid_loop (S i) (Some next) rest
          | None => IsValid_loop (S i) (Some next) rest
          end
      end
  end.

Definition TimeLock_IsValid (z : TimeLock) : option TimeLockError :=
  IsValid_loop 0 None (Items z).

Definition CheckValid (z : TimeLock) : outcome unit :=
  match TimeLock_IsValid z with
  | Some _ => Panic "TimeLock checkValid failed"
  | None => Done tt
  end.

(** *** Add

    The loop of [Add] walks both lists; [xs] and [ys] are [x.Items[i:]] and
    [y.Items[j:]], [lst] is the tail of the item that the last overlap left
    over and [flag] says which list it belongs to. Every round advances one of
    the lists, so their joint length is enough fuel. *)
Record AddState := mkAddState {
  add_xs : list TimeLockItem;
  add_ys : list TimeLockItem;
  add_last : option TimeLockItem;
  add_flag : TailFlag;
  add_items : list TimeLockItem;
}.

Definition clear_if (b : bool) (o : option TimeLockItem) : option TimeLockItem :=
  if b then None else o.

Fixpoint Add_loop (fuel : nat) (s : AddState) : outcome AddState :=
  match add_xs s, add_ys s with
  | xV0 :: xs, yV0 :: ys =>
      match fuel with
      | O => OutOfFuel
      | S fuel =>
          let flag := add_flag s in
          let '(xV, yV) :=
            match add_last s with
            | Some l =>
                if decide (flag = TailInFirst) then (l, yV0)
                else if decide (flag = TailInSecond) then (xV0, l)
                else (xV0, yV0)
            | None => (xV0, yV0)
            end in
          if EndTime xV <? StartTime yV then
            Add_loop fuel (mkAddState xs (yV0 :: ys)
              (clear_if (bool_decide (flag = TailInFirst)) (add_last s)) flag
              (appendAndMergeItem (add_items s) (Some xV)))
          else if EndTime yV <? StartTime xV then
            Add_loop fuel (mkAddState (xV0 :: xs) ys
              (clear_if (bool_decide (flag = TailInSecond)) (add_last s)) flag
              (appendAndMergeItem (add_items s) (Some yV)))
          else
            let '(res, flag) := TimeLockItem_Add xV yV in
            match last res with
            | None => Panic "index out of range"
            | Some l =>
                let items :=
                  if (1 <? length res)%nat
                  then appendAndMergeItems (add_items s) (take (length res - 1) res)
                  else add_items s in
                match flag with
                | TailInFirst => Add_loop fuel (mkAddState (xV0 :: xs) ys (Some l) flag items)
                | TailInSecond => Add_loop fuel (mkAddState xs (yV0 :: ys) (Some l) flag items)
                | TailInBoth =>
                    Add_loop fuel (mkAddState xs ys None flag
                      (appendAndMergeItem items (Some l)))
                end
            end
      end
  | _, _ => Done s
  end.

(** What [Add] does after its loop: the left-over tail, then the rest of the
    list that is not exhausted. *)
Definition Add_finish (s : AddState) : list TimeLockItem :=
  let '(xs, ys, items) :=
    match add_last s with
    | Some l =>
        let items := appendAndMergeItem (add_items s) (Some l) in
        match add_flag s with
        | TailInFirst => (tail (add_xs s), add_ys s, items)
        | TailInSecond => (add_xs s, tail (add_ys s), items)
        | TailInBoth => (add_xs s, add_ys s, items)
        end
    | None => (add_xs s, add_ys s, add_items s)
    end in
  let items := match xs with [] => appendAndMergeItems items ys | _ => items end in
  match ys with [] => appendAndMergeItems items xs | _ => items end.

Section timelock_ops.
  (** [common.DebugMode]: the package variable of common/utils.go. *)
  Context (DebugMode : bool).

Definition nil_or_empty (x : option TimeLock) : bool :=
  match x with None => true | Some x => IsEmpty x end.

Definition TimeLock_Add (x y : option TimeLock) : outcome (option TimeLock) :=
  if nil_or_empty x && nil_or_empty y then Done None
  else
    match x, y with
    | Some x, Some y =>
        let fuel := (length (Items x) + length (Items y))%nat in
        let? s := Add_loop fuel (mkAddState (Items x) (Items y) None TailInBoth []) in
        let z := SetItems (Add_finish s) in
        let? _ := if DebugMode then CheckValid z else Done tt in
        Done (Some z)
    | _, _ => Panic "nil pointer dereference"
    end.

(** *** Cmp

    [Cmp_loop] is the range loop; it returns [inl] for an early return and
    [inr (minVal, maybeGreat)] when the loop ends. *)
Fixpoint Cmp_loop (item : TimeLockItem) (minVal tempTime : Z) (maybeGreat : bool)
    (items : list TimeLockItem) : Z + (Z * bool) :=
  match items with
  | [] => inr (minVal, maybeGreat)
  | t :: rest =>
      if EndTime t <? StartTime item then Cmp_loop item minVal tempTime maybeGreat rest
      else if (tempTime =? 0) && (StartTime item <? StartTime t) then inl (-1)
      else if negb (tempTime =? 0) && (tempTime <? StartTime t)
              && (u64 (tempTime + 1) <? StartTime t) then inl (-1)
      else
        let minVal := if tempTime =? 0 then Value t else minVal in
        let cont (minVal : Z) (maybeGreat : bool) :=
          let tempTime := EndTime t in
          if EndTime item <=? tempTime then inr (minVal, maybeGreat)
          else Cmp_loop item minVal tempTime maybeGreat rest in
        if bigCmp (Value t) minVal <? 0 then
          let minVal := Value t in
          let res := bigCmp minVal (Value item) in
          if res <? 0 then inl (-1)
          else cont minVal (if 0 <? res then true else maybeGreat)
        else cont minVal maybeGreat
  end.

Definition TimeLock_Cmp (z : TimeLock) (x : option TimeLock) : outcome Z :=
  match x with
  | Some (mkTimeLock [item]) =>
      match Items z, last (Items z) with
      | zhead :: _, Some zlast =>
          match TimeLock_IsValid (mkTimeLock [item]) with
          | Some _ => Done (-1)
          | None =>
              if StartTime item <? StartTime zhead then Done (-1)
              else if EndTime zlast <? EndTime item then Done (-1)
              else
                let maybeGreat :=
                  (StartTime zhead <? StartTime item) || (EndTime item <? EndTime zlast) in
                match Cmp_loop item 0 0 maybeGreat (Items z) with
                | inl r => Done r
                | inr (minVal, maybeGreat) =>
                    let cmpVal := bigCmp minVal (Value item) in
                    if (cmpVal =? 0) && maybeGreat then Done 1 else Done cmpVal
                end
          end
      | _, _ => Done (-1)
      end
  | _ => Panic "Cmp Just Support One TimeLockItem"
  end.

(** *** Sub *)
Fixpoint Sub_loop (xs : list TimeLockItem) (yV : TimeLockItem) (items : list TimeLockItem)
    : list TimeLockItem :=
  match xs with
  | [] => items
  | xV :: rest =>
      let '(res, missing) := TimeLockItem_Sub xV (Some yV) in
      let items := appendAndMergeItems items res in
      match missing with
      | None => appendAndMergeItems items rest
      | Some m => Sub_loop rest m items
      end
  end.

Definition TimeLock_Sub (x : TimeLock) (y : option TimeLock) : outcome TimeLock :=
  match y with
  | Some (mkTimeLock [yV]) =>
      let? c := TimeLock_Cmp x y in
      if c <? 0 then Panic "Sub TimeLock not enough"
      else
        let z := SetItems (Sub_loop (Items x) yV []) in
        let? _ := if DebugMode then CheckValid z else Done tt in
        Done z
  | _ => Panic "Sub Just Support One TimeLockItem"
  end.

End timelock_ops.

(** *** ClearExpired *)
Fixpoint ClearExpired_loop (timestamp : Z) (items : list TimeLockItem) : list TimeLockItem :=
  match items with
  | [] => []
  | t :: rest =>
      if timestamp <=? EndTime t then t :: rest else ClearExpired_loop timestamp rest
  end.

Definition ClearExpired (z : TimeLock) (timestamp : Z) : TimeLock :=
  mkTimeLock (ClearExpired_loop timestamp (Items z)).

(** *** ToDisplay

    [display_run] is the inner scan: it returns the number of items of the
    contiguous run, its end and its smallest value. [display_strip] takes the
    smallest value off the run and drops the items it exhausts. *)
Fixpoint display_run (i : nat) (end_ value : Z) (items : list TimeLockItem) : nat * Z * Z :=
  match items with
  | [] => (i, end_, value)
  | item :: rest =>
      if (end_ <? StartTime item) && (u64 (end_ + 1) =? StartTime item) then
        display_run (S i) (EndTime item)
          (if bigCmp (Value item) value <? 0 then Value item else value) rest
      else (i, end_, value)
  end.

Fixpoint display_strip (value : Z) (i : nat) (items : list TimeLockItem) : list TimeLockItem :=
  match i, items with
  | S i, item :: rest =>
      if bigCmp (Value item) value =? 0 then display_strip value i rest
      else mkItem (StartTime item) (EndTime item) (Value item - value)
             :: display_strip value i rest
  | _, _ => items
  end.

Fixpoint display_loop (fuel : nat) (items res : list TimeLockItem)
    : outcome (list TimeLockItem) :=
  match items with
  | [] => Done res
  | first :: rest =>
      match fuel with
      | O => OutOfFuel
      | S fuel =>
          let '(i, end_, value) := display_run 1 (EndTime first) (Value first) rest in
          if (i =? 1)%nat then display_loop fuel rest (res ++ [first])
          else
            display_loop fuel (display_strip value i items)
              (res ++ [mkItem (StartTime first) end_ value])
      end
  end.

(** [sort.Sort(t)] orders by [Less], larger values first; the order of equal
    values is the sorting routine's. *)
Definition TimeLock_Less (a b : TimeLockItem) : bool := 0 <? bigCmp (Value a) (Value b).

Definition ToDisplay (sort_Sort : list TimeLockItem → list TimeLockItem) (z : TimeLock)
    : outcome TimeLock :=
  let t := TimeLock_Clone z in
  let? res := display_loop (length (Items t)) (Items t) [] in
  Done (mkTimeLock (sort_Sort res)).

Example add_ex1 :
  TimeLock_Add true (Some (mkTimeLock [mkItem 1 5 10; mkItem 8 12 3]))
    (Some (mkTimeLock [mkItem 3 9 2]))
  = Done (Some (mkTimeLock [mkItem 1 2 10; mkItem 3 5 12; mkItem 6 7 2; mkItem 8 9 5; mkItem 10 12 3])).
Proof. reflexivity. Qed.

Example sub_ex1 :
  TimeLock_Sub true (mkTimeLock [mkItem 1 2 10; mkItem 3 5 12; mkItem 6 7 2; mkItem 8 9 5; mkItem 10 12 3])
    (Some (mkTimeLock [mkItem 3 9 2]))
  = Done (mkTimeLock [mkItem 1 5 10; mkItem 8 12 3]).
Proof. reflexivity. Qed.

Example display_ex1 :
  ToDisplay (fun l => l) (mkTimeLock [mkItem 1 2 10; mkItem 3 5 12; mkItem 6 7 2; mkItem 8 9 5; mkItem 10 12 3])
  = Done (mkTimeLock [mkItem 1 12 2; mkItem 1 5 8; mkItem 3 5 2; mkItem 8 12 1; mkItem 8 9 2]).
Proof. reflexivity. Qed.
