(* ===== verification/TimeLockFacts.v ===== *)
(** * The meaning of a time lock and the correctness of its arithmetic

    [amountAt z t] is the amount of the asset that the time lock [z] makes
    available at time [t]. [wf] is the invariant that [IsValid] checks: items
    in order, disjoint, of positive value, and no two neighbours that could be
    merged. The arithmetic of common/timelock.go is proved to preserve [wf] and
    to compute pointwise on [amountAt], and a well-formed time lock is proved
    to be the only one with its meaning. *)

From stdpp Require Import base list sorting gmap strings.
From Stdlib Require Import ZArith Lia Permutation.
From S2P Require Import Prelude TimeLock.

(** ** Meaning *)

Definition ival (s e v t : Z) : Z := if (s <=? t) && (t <=? e) then v else 0.
Definition itemAt (i : TimeLockItem) (t : Z) : Z := ival (StartTime i) (EndTime i) (Value i) t.
Definition itemsAt (l : list TimeLockItem) (t : Z) : Z := sumZ (fun i => itemAt i t) l.
Definition amountAt (z : TimeLock) (t : Z) : Z := itemsAt (Items z) t.

(** ** Well-formedness *)

Definition item_ok (i : TimeLockItem) : Prop :=
  0 <= StartTime i <= EndTime i ∧ EndTime i < two64 ∧ 0 < Value i.

Definition sep (p n : TimeLockItem) : Prop :=
  EndTime p < StartTime n ∧ ¬ (EndTime p + 1 = StartTime n ∧ Value p = Value n).

Definition osep (p : option TimeLockItem) (n : TimeLockItem) : Prop :=
  match p with Some p => sep p n | None => True end.

Fixpoint wf_from (prev : option TimeLockItem) (l : list TimeLockItem) : Prop :=
  match l with
  | [] => True
  | i :: l' => item_ok i ∧ osep prev i ∧ wf_from (Some i) l'
  end.

Abbreviation wf := (wf_from None).
Definition wfTL (z : TimeLock) : Prop := wf (Items z).

(** The list [l], if it has a last item, ends before [s]; if it has a first
    item, starts after [e]. *)
Definition ends_before (l : list TimeLockItem) (s : Z) : Prop :=
  ∀ p, last l = Some p → EndTime p < s.
Definition starts_after (e : Z) (l : list TimeLockItem) : Prop :=
  ∀ h, head l = Some h → e < StartTime h.
Definition precedes (l l' : list TimeLockItem) : Prop :=
  ∀ h, head l' = Some h → ends_before l (StartTime h).

Create HintDb tlock.
Ltac unfold_items := unfold item_ok, sep, osep, itemAt, ival, two64 in *.

Lemma ival_split s m e v t : s <= m <= e + 1 → ival s e v t = ival s (m - 1) v t + ival m e v t.
Proof. intros. unfold ival. zcase. Qed.

Lemma ival_add s e v w t : ival s e (v + w) t = ival s e v t + ival s e w t.
Proof. unfold ival. zcase. Qed.

Lemma ival_out s e v t : t < s ∨ e < t → ival s e v t = 0.
Proof. unfold ival. zcase. Qed.

Lemma ival_in s e v t : s <= t <= e → ival s e v t = v.
Proof. unfold ival. zcase. Qed.

(** Decides where [t] lies with respect to every interval of the goal. *)
Ltac ival_cases t :=
  repeat match goal with
  | |- context [ival ?s ?e ?v t] =>
      first [ rewrite (ival_out s e v t) by lia
            | rewrite (ival_in s e v t) by lia
            | destruct (Z.lt_ge_cases t s); [|destruct (Z.lt_ge_cases e t)]; try (exfalso; lia) ]
  end.

Lemma itemsAt_app l1 l2 t : itemsAt (l1 ++ l2) t = itemsAt l1 t + itemsAt l2 t.
Proof. apply sumZ_app. Qed.

Lemma itemsAt_cons i l t : itemsAt (i :: l) t = itemAt i t + itemsAt l t.
Proof. done. Qed.

Lemma itemsAt_nil t : itemsAt [] t = 0.
Proof. done. Qed.

Create Rewrite HintDb tl.
#[export] Hint Rewrite itemsAt_app itemsAt_cons itemsAt_nil : tl.

Lemma CanMerge_spec p n :
  item_ok p → item_ok n →
  CanMerge p n = true ↔ EndTime p + 1 = StartTime n ∧ Value p = Value n.
Proof.
  unfold_items. intros Hp Hn. unfold CanMerge.
  rewrite !andb_true_iff, Z.ltb_lt, !Z.eqb_eq, bigCmp_eq.
  assert (EndTime p < StartTime n → u64 (EndTime p + 1) = EndTime p + 1).
  { intros. apply u64_id. unfold is_u64, two64. lia. }
  naive_solver lia.
Qed.

Lemma CanMerge_false p n :
  item_ok p → item_ok n → EndTime p < StartTime n → CanMerge p n = false ↔ sep p n.
Proof.
  intros Hp Hn Hlt. pose proof (CanMerge_spec p n Hp Hn). unfold sep.
  destruct (CanMerge p n); naive_solver.
Qed.

(** ** Lists of items *)

Lemma wf_app p l1 l2 :
  wf_from p (l1 ++ l2) ↔
  wf_from p l1 ∧ wf_from (match last l1 with Some x => Some x | None => p end) l2.
Proof.
  revert p. induction l1 as [|i l1 IH]; intros p; simpl; [tauto|].
  rewrite IH. destruct l1; simpl; [tauto|].
  replace (last (t :: l1)) with (Some (default i (last (t :: l1)))); [simpl; tauto|].
  destruct (last (t :: l1)) eqn:E; [done|]. by apply last_None in E.
Qed.

Lemma wf_snoc l i : wf (l ++ [i]) ↔ wf l ∧ item_ok i ∧ osep (last l) i.
Proof. rewrite wf_app. simpl. destruct (last l); tauto. Qed.

Lemma wf_weaken p l : wf_from p l → wf l.
Proof. destruct l; simpl; tauto. Qed.

Lemma wf_cons_inv p i l : wf_from p (i :: l) → item_ok i ∧ wf l ∧ starts_after (EndTime i) l.
Proof.
  simpl. intros (Hi & _ & Hl). split_and!; [done|by eapply wf_weaken|].
  intros h Hh. destruct l as [|h' l]; simplify_eq/=. unfold sep in *. naive_solver.
Qed.

Lemma wf_item p l i : wf_from p l → i ∈ l → item_ok i.
Proof.
  revert p. induction l as [|j l IH]; intros p Hwf Hin; [by apply not_elem_of_nil in Hin|].
  destruct Hwf as (? & _ & ?). apply elem_of_cons in Hin as [->|]; eauto.
Qed.

Lemma wf_starts_after p l i :
  wf_from (Some p) l → i ∈ l → EndTime p < StartTime i.
Proof.
  revert p. induction l as [|j l IH]; intros p Hwf Hin; [by apply not_elem_of_nil in Hin|].
  simpl in Hwf. unfold_items. apply elem_of_cons in Hin as [->|Hin]; [naive_solver|].
  destruct Hwf as (?&?&Hl). specialize (IH _ Hl Hin). lia.
Qed.

Lemma itemAt_nonneg i t : item_ok i → 0 <= itemAt i t.
Proof. unfold_items. intros. zcase. Qed.

Lemma itemsAt_nonneg l t : wf l → 0 <= itemsAt l t.
Proof. intros. apply sumZ_nonneg. intros x ?. apply itemAt_nonneg. by eapply wf_item. Qed.

Lemma map_Clone_id p l : wf_from p l → map TimeLockItem_Clone l = l.
Proof.
  revert p. induction l as [|i l IH]; intros p; simpl; [done|]. intros (Hi & _ & Hl).
  f_equal; [|by eapply IH]. destruct i. unfold item_ok, TimeLockItem_Clone, copyBytes in *.
  simpl in *. by rewrite Z.abs_eq by lia.
Qed.

Lemma SetItems_wf l : wf l → SetItems l = mkTimeLock l.
Proof. intros. unfold SetItems. f_equal. by eapply map_Clone_id. Qed.

(** [IsValid] decides well-formedness of lists of [uint64] times. *)
Definition in_range (i : TimeLockItem) : Prop := is_u64 (StartTime i) ∧ is_u64 (EndTime i).

Lemma TimeLockItem_IsValid_spec i :
  in_range i → TimeLockItem_IsValid i = None ↔ item_ok i.
Proof.
  unfold in_range, is_u64, TimeLockItem_IsValid, item_ok, bigSign. intros.
  destruct (Z.ltb_spec (EndTime i) (StartTime i)); [naive_solver lia|].
  destruct (Z.leb_spec (Z.sgn (Value i)) 0); naive_solver lia.
Qed.

Lemma IsValid_loop_spec n p l :
  Forall in_range l → (∀ q, p = Some q → item_ok q) →
  IsValid_loop n p l = None ↔ wf_from p l.
Proof.
  intros Hr. revert n p. induction Hr as [|i l Hi Hl IH]; intros n p Hp; simpl; [tauto|].
  pose proof (TimeLockItem_IsValid_spec i Hi) as Hv.
  destruct (TimeLockItem_IsValid i); [naive_solver|].
  assert (Hok : item_ok i) by naive_solver.
  assert (Hrec : IsValid_loop (S n) (Some i) l = None ↔ wf_from (Some i) l) by (apply IH; naive_solver).
  destruct p as [p|]; simpl; [|tauto]. specialize (Hp p eq_refl).
  destruct (Z.leb_spec (StartTime i) (EndTime p)); simpl; [unfold sep; naive_solver lia|].
  pose proof (CanMerge_false p i Hp Hok ltac:(done)). destruct (CanMerge p i); naive_solver.
Qed.

Lemma TimeLock_IsValid_wf z :
  Forall in_range (Items z) → TimeLock_IsValid z = None ↔ wfTL z.
Proof. intros. apply IsValid_loop_spec; [done|naive_solver]. Qed.

Lemma wf_in_range p l : wf_from p l → Forall in_range l.
Proof.
  intros H. apply Forall_forall. intros i Hi. pose proof (wf_item _ _ _ H Hi).
  unfold item_ok, in_range, is_u64 in *. lia.
Qed.

Lemma CheckValid_wf z : wfTL z → CheckValid z = Done tt.
Proof.
  intros H. unfold CheckValid.
  by rewrite (proj2 (TimeLock_IsValid_wf z (wf_in_range _ _ H)) H).
Qed.

(** ** Appending with a merge *)

Lemma appendAndMergeItem_snoc l p a :
  appendAndMergeItem (l ++ [p]) (Some a) =
  if CanMerge p a then l ++ [Merge p a] else l ++ [p; a].
Proof.
  unfold appendAndMergeItem. rewrite last_snoc. destruct (CanMerge p a).
  - replace (length (l ++ [p]) - 1)%nat with (length l + 0)%nat
      by (rewrite length_app; simpl; lia).
    by rewrite insert_app_r.
  - by rewrite <- app_assoc.
Qed.

(** [grows l l' a]: [l'] is the accumulator [l] with the item [a] added. *)
Definition grows (l l' : list TimeLockItem) (add : list TimeLockItem) : Prop :=
  wf l' ∧ (∀ t, itemsAt l' t = itemsAt l t + itemsAt add t) ∧
  (∀ a, last add = Some a → ∃ p, last l' = Some p ∧ EndTime p = EndTime a ∧ Value p = Value a).

Lemma Merge_itemAt p a t :
  item_ok p → item_ok a → EndTime p + 1 = StartTime a → Value p = Value a →
  itemAt (Merge p a) t = itemAt p t + itemAt a t.
Proof.
  intros Hp Ha He Hv. unfold itemAt, Merge, AdjustEnd, AdjustStartEnd, copyBytes; simpl.
  rewrite Z.abs_eq by (unfold item_ok in *; lia).
  rewrite (ival_split _ (StartTime a)), <- Hv by (unfold item_ok in *; lia).
  by replace (StartTime a - 1) with (EndTime p) by lia.
Qed.

Lemma appendAndMergeItem_grows l a :
  wf l → item_ok a → ends_before l (StartTime a) → grows l (appendAndMergeItem l (Some a)) [a].
Proof.
  intros Hl Ha Hb. destruct l as [|p l _] using rev_ind.
  { split_and!; simpl; [done|done|naive_solver]. }
  rewrite appendAndMergeItem_snoc. apply wf_snoc in Hl as (Hl & Hp & Hsep).
  specialize (Hb p (last_snoc _ _)).
  destruct (CanMerge p a) eqn:Hm.
  - apply (CanMerge_spec p a Hp Ha) in Hm as [He Hv].
    assert (Hmok : item_ok (Merge p a)).
    { unfold item_ok, Merge, AdjustEnd, AdjustStartEnd, copyBytes in *; simpl. lia. }
    split_and!.
    + apply wf_snoc. split_and!; [done|done|]. destruct (last l); [|done].
      unfold osep, sep, Merge, AdjustEnd, AdjustStartEnd, copyBytes in *; simpl.
      unfold item_ok in Hp. rewrite Z.abs_eq by lia. done.
    + intros t. autorewrite with tl. rewrite Merge_itemAt by done. lia.
    + intros ? [= ->]. eexists. rewrite last_snoc. split_and!; [done|done|].
      unfold Merge, AdjustEnd, AdjustStartEnd, copyBytes; simpl. unfold item_ok in *. lia.
  - apply (CanMerge_false p a Hp Ha Hb) in Hm.
    change (l ++ [p; a]) with (l ++ ([p] ++ [a])). rewrite app_assoc. split_and!.
    + apply wf_snoc. split_and!; [by apply wf_snoc|done|]. by rewrite last_snoc.
    + intros t. autorewrite with tl. lia.
    + intros ? [= ->]. eexists. by rewrite last_snoc.
Qed.

Lemma appendAndMergeItems_grows l add :
  wf l → wf add → precedes l add → grows l (appendAndMergeItems l add) add.
Proof.
  intros Hl Hadd Hb. destruct add as [|a rest].
  { split_and!; simpl; [done| |done]. intros. autorewrite with tl. lia. }
  pose proof Hadd as Hadd'. simpl in Hadd'. destruct Hadd' as (Ha & _ & Hrest).
  destruct (appendAndMergeItem_grows l a Hl Ha (Hb a eq_refl)) as (Hw & Hat & Hlast).
  destruct (Hlast a eq_refl) as (p & Hp & He & Hv).
  unfold appendAndMergeItems. split_and!.
  - apply wf_app. split; [done|]. rewrite Hp. destruct rest as [|b rest]; [done|].
    simpl in *. unfold sep in *. by rewrite He, Hv.
  - intros t. autorewrite with tl. rewrite Hat. autorewrite with tl. lia.
  - intros b Hlb. destruct rest as [|c rest].
    + simplify_eq/=. rewrite app_nil_r. naive_solver.
    + exists b. rewrite last_app. change (last (a :: c :: rest)) with (last (c :: rest)) in Hlb.
      by rewrite Hlb.
Qed.

Lemma grows_wf l l' add : grows l l' add → wf l'.
Proof. by intros []. Qed.

Lemma grows_ends_before l l' add a s :
  grows l l' add → last add = Some a → EndTime a < s → ends_before l' s.
Proof. intros (_ & _ & H) Ha Hs p Hp. destruct (H a Ha) as (q & ? & ? & _). simplify_eq. lia. Qed.

Lemma ends_before_mono l s s' : ends_before l s → s <= s' → ends_before l s'.
Proof. intros H ? p Hp. specialize (H p Hp). lia. Qed.

Lemma precedes_nil_l l : precedes [] l.
Proof. by intros h Hh p. Qed.

Lemma precedes_cons l i r : ends_before l (StartTime i) → precedes l (i :: r).
Proof. intros H h [= ->]. done. Qed.

Lemma precedes_after l e r : ends_before l (e + 1) → starts_after e r → precedes l r.
Proof. intros H Hs h Hh. specialize (Hs h Hh). eapply ends_before_mono; [done|lia]. Qed.

#[export] Hint Resolve grows_wf wf_weaken precedes_nil_l precedes_cons : tlock.

(** ** Adding two items *)

Definition overlap (a b : TimeLockItem) : Prop :=
  StartTime b <= EndTime a ∧ StartTime a <= EndTime b.

(** [suffix_of l a]: [l] is the part of [a] from some later moment on. *)
Definition suffix_of (l a : TimeLockItem) : Prop :=
  item_ok l ∧ EndTime l = EndTime a ∧ Value l = Value a.

(** The pieces of an overlap: [pre] is final, [l] is the piece that ends last. *)
Record add_pieces (a b : TimeLockItem) (pre : list TimeLockItem) (l : TimeLockItem)
    (flag : TailFlag) : Prop := {
  ap_wf : wf pre;
  ap_at : ∀ t, itemsAt pre t + itemAt l t = itemAt a t + itemAt b t;
  ap_start : ∀ h, head (pre ++ [l]) = Some h → StartTime h = Z.min (StartTime a) (StartTime b);
  ap_flag :
    match flag with
    | TailInBoth => EndTime a = EndTime b ∧ item_ok l ∧ EndTime l = EndTime a ∧ osep (last pre) l
    | TailInFirst =>
        suffix_of l a ∧ StartTime l = EndTime b + 1 ∧
        ∃ p, last pre = Some p ∧ EndTime p = EndTime b
    | TailInSecond =>
        suffix_of l b ∧ StartTime l = EndTime a + 1 ∧
        ∃ p, last pre = Some p ∧ EndTime p = EndTime a
    end;
}.

Ltac u64_simpl :=
  repeat match goal with
  | |- context [u64 ?z] => rewrite (u64_id z) by (unfold is_u64, two64; lia)
  | H : context [u64 ?z] |- _ => rewrite (u64_id z) in H by (unfold is_u64, two64; lia)
  end.

Lemma intersectionAdd_overlap a b :
  overlap a b → item_ok a → item_ok b →
  intersectionAdd a b =
  Some (mkItem (Z.max (StartTime a) (StartTime b)) (Z.min (EndTime a) (EndTime b)) (Value a + Value b)).
Proof.
  unfold overlap, item_ok, intersectionAdd. intros.
  destruct (Z.ltb_spec (StartTime a) (StartTime b)), (Z.ltb_spec (EndTime b) (EndTime a));
    destruct (Z.ltb_spec (if EndTime b <? EndTime a then EndTime b else EndTime a)
                (if StartTime a <? StartTime b then StartTime b else StartTime a));
    zcase; do 2 f_equal; lia.
Qed.

Lemma TimeLockItem_Add_overlap a b :
  overlap a b → item_ok a → item_ok b →
  ∃ pre l flag, TimeLockItem_Add a b = (pre ++ [l], flag) ∧ add_pieces a b pre l flag.
Proof.
  intros Ho Ha Hb. unfold TimeLockItem_Add.
  rewrite intersectionAdd_overlap by (unfold overlap in *; tauto || done).
  unfold overlap, item_ok, two64 in *.
  destruct a as [sa ea va], b as [sb eb vb]; simpl in *.
  destruct (Z.ltb_spec eb sa); [lia|]. destruct (Z.ltb_spec ea sb); [lia|].
  unfold AdjustEnd, AdjustStart, AdjustStartEnd, copyBytes; simpl.
  rewrite !Z.abs_eq by lia.
  destruct (Z.ltb_spec sb sa), (Z.ltb_spec eb ea).
  all: repeat match goal with |- context [?x <? ?y] => destruct (Z.ltb_spec x y) end;
    try lia; u64_simpl.
  all: rewrite ?(Z.max_l sb sa), ?(Z.max_r sb sa), ?(Z.min_l eb ea), ?(Z.min_r eb ea) by lia.
  all: match goal with
    |- ∃ _ _ _, (?l, _) = _ ∧ _ =>
      let l' := eval cbn in l in
      match l' with
      | [?x; ?y; ?z] => exists [x; y], z
      | [?x; ?y] => exists [x], y
      | [?x] => exists [], x
      end; eexists; split; [reflexivity|]
    end.
  all: split; [| | |].
  all: simpl; unfold suffix_of, item_ok, sep, two64; simpl; try done.
  all: try (split_and!; first [lia|done|eexists; split; [done|simpl; lia]]).
  all: try (intros ? [= <-]; simpl; lia).
  all: intros t; autorewrite with tl; unfold itemAt; simpl; ival_cases t; lia.
Qed.

(** ** TimeLock.Add *)

(** The lists that are still to be added: the left-over tail stands for the
    item it is a part of. *)
Definition rest_x (s : AddState) : list TimeLockItem :=
  match add_last s, add_flag s with
  | Some l, TailInFirst => l :: tail (add_xs s)
  | _, _ => add_xs s
  end.
Definition rest_y (s : AddState) : list TimeLockItem :=
  match add_last s, add_flag s with
  | Some l, TailInSecond => l :: tail (add_ys s)
  | _, _ => add_ys s
  end.

(** [core total items X Y]: [items] is a well-formed accumulator that ends
    before both [X] and [Y] start, and the three lists mean [total]. *)
Record core (total : Z → Z) (items X Y : list TimeLockItem) : Prop := {
  core_items : wf items;
  core_x : wf X;
  core_y : wf Y;
  core_px : precedes items X;
  core_py : precedes items Y;
  core_at : ∀ t, itemsAt items t + itemsAt X t + itemsAt Y t = total t;
}.

Definition last_ok (s : AddState) : Prop :=
  is_Some (add_last s) →
  match add_flag s with
  | TailInFirst => add_xs s ≠ []
  | TailInSecond => add_ys s ≠ []
  | TailInBoth => False
  end.

Definition Add_inv (total : Z → Z) (s : AddState) : Prop :=
  core total (add_items s) (rest_x s) (rest_y s) ∧ last_ok s.

Lemma core_symm total items X Y : core total items X Y → core total items Y X.
Proof. intros []. split; try done. intros t. rewrite <- (core_at0 t). lia. Qed.

Lemma wf_suffix l a r : suffix_of l a → wf (a :: r) → wf (l :: r).
Proof.
  intros (Hl & He & Hv) (Ha & _ & Hr). split_and!; [done|done|].
  destruct r as [|b r]; [done|]. simpl in *. unfold sep in *. by rewrite He, Hv.
Qed.


Lemma starts_after_mono e e' l : starts_after e l → e' <= e → starts_after e' l.
Proof. intros H ? h Hh. specialize (H h Hh). lia. Qed.

(** The first item of [X] ends before [Y] starts: it moves to the accumulator. *)
Lemma core_before total items x X Y :
  core total items (x :: X) Y → starts_after (EndTime x) Y →
  core total (appendAndMergeItem items (Some x)) X Y.
Proof.
  intros [Hi Hx Hy Hpx Hpy Hat] Hs.
  destruct (wf_cons_inv _ _ _ Hx) as (Hxok & HX & HsX).
  pose proof (appendAndMergeItem_grows items x Hi Hxok (Hpx x eq_refl)) as Hg.
  assert (Hend : ends_before (appendAndMergeItem items (Some x)) (EndTime x + 1))
    by (eapply grows_ends_before; [done|done|lia]).
  split; eauto using grows_wf, precedes_after.
  intros t. rewrite <- (Hat t). destruct Hg as (_ & -> & _). autorewrite with tl. lia.
Qed.

Section overlap_steps.
Context (total : Z → Z) (items X Y pre : list TimeLockItem) (x y l : TimeLockItem).
Hypothesis Hcore : core total items (x :: X) (y :: Y).

Lemma pieces_precede flag :
  add_pieces x y pre l flag → precedes items (pre ++ [l]).
Proof.
  intros [_ _ Hst _] h Hh. rewrite (Hst h Hh). destruct Hcore.
  destruct (Z.min_spec (StartTime x) (StartTime y)) as [[_ ->]|[_ ->]]; auto.
Qed.

Lemma pieces_grow flag :
  add_pieces x y pre l flag → grows items (appendAndMergeItems items pre) pre.
Proof.
  intros Hp. apply appendAndMergeItems_grows; [by destruct Hcore|by destruct Hp|].
  intros h Hh. apply (pieces_precede flag Hp). destruct pre; [done|]. done.
Qed.

Lemma core_overlap_first :
  add_pieces x y pre l TailInFirst →
  core total (appendAndMergeItems items pre) (l :: X) Y.
Proof.
  intros Hp. pose proof (pieces_grow _ Hp) as Hg.
  destruct Hp as [_ Hat _ (Hsuf & Hst & p & Hlast & Hpe)], Hcore as [_ Hx Hy _ _ Htot].
  destruct (wf_cons_inv _ _ _ Hy) as (_ & HY & HsY).
  assert (Hend : ends_before (appendAndMergeItems items pre) (EndTime y + 1))
    by (eapply grows_ends_before; [done|done|lia]).
  split; eauto using grows_wf, wf_suffix, precedes_after.
  - apply precedes_cons. by rewrite Hst.
  - intros t. rewrite <- (Htot t). specialize (Hat t). destruct Hg as (_ & -> & _).
    autorewrite with tl. lia.
Qed.

Lemma core_overlap_both :
  add_pieces x y pre l TailInBoth →
  core total (appendAndMergeItem (appendAndMergeItems items pre) (Some l)) X Y.
Proof.
  intros Hp. pose proof (pieces_grow _ Hp) as Hg. pose proof (pieces_precede _ Hp) as Hpre.
  destruct Hp as [_ Hat _ (Hee & Hlok & Hle & Hsep)], Hcore as [Hi Hx Hy _ _ Htot].
  destruct (wf_cons_inv _ _ _ Hx) as (_ & HX & HsX), (wf_cons_inv _ _ _ Hy) as (_ & HY & HsY).
  assert (Hb : ends_before (appendAndMergeItems items pre) (StartTime l)).
  { destruct pre as [|q pre' _] using rev_ind; [by apply Hpre|].
    eapply grows_ends_before; [done|apply last_snoc|].
    rewrite last_snoc in Hsep. unfold osep, sep in Hsep. lia. }
  pose proof (appendAndMergeItem_grows _ l (grows_wf _ _ _ Hg) Hlok Hb) as Hg2.
  assert (Hend : ends_before (appendAndMergeItem (appendAndMergeItems items pre) (Some l)) (EndTime x + 1))
    by (eapply grows_ends_before; [done|done|lia]).
  split; eauto using grows_wf, precedes_after, starts_after_mono.
  - eapply precedes_after; [done|]. eapply starts_after_mono; [done|lia].
  - intros t. rewrite <- (Htot t). specialize (Hat t).
    destruct Hg2 as (_ & -> & _), Hg as (_ & -> & _). autorewrite with tl. lia.
Qed.
End overlap_steps.

Lemma add_pieces_symm a b pre l :
  add_pieces a b pre l TailInSecond → add_pieces b a pre l TailInFirst.
Proof.
  intros [Hw Hat Hst Hf]. split; try done.
  - intros t. rewrite Hat. lia.
  - intros h Hh. rewrite (Hst h Hh). lia.
Qed.

Lemma core_overlap_second total items X Y pre x y l :
  core total items (x :: X) (y :: Y) → add_pieces x y pre l TailInSecond →
  core total (appendAndMergeItems items pre) X (l :: Y).
Proof.
  intros Hc Hp. apply core_symm.
  eapply core_overlap_first; [by apply core_symm|by apply add_pieces_symm].
Qed.

Lemma rest_heads s xV0 xs yV0 ys :
  add_xs s = xV0 :: xs → add_ys s = yV0 :: ys →
  let '(xV, yV) :=
    match add_last s with
    | Some l =>
        if decide (add_flag s = TailInFirst) then (l, yV0)
        else if decide (add_flag s = TailInSecond) then (xV0, l)
        else (xV0, yV0)
    | None => (xV0, yV0)
    end in
  rest_x s = xV :: xs ∧ rest_y s = yV :: ys.
Proof.
  unfold rest_x, rest_y. intros -> ->.
  destruct (add_last s), (add_flag s); repeat case_decide; done.
Qed.

Lemma if_appendAndMergeItems items pre (l : TimeLockItem) :
  (if (1 <? length (pre ++ [l]))%nat
   then appendAndMergeItems items (take (length (pre ++ [l]) - 1) (pre ++ [l]))
   else items) = appendAndMergeItems items pre.
Proof.
  rewrite length_app; simpl.
  replace (length pre + 1 - 1)%nat with (length pre) by lia.
  rewrite take_app_length. destruct pre; [done|]. simpl.
  by replace (length pre + 1)%nat with (S (length pre)) by lia.
Qed.

Lemma rest_advance_x s xV0 xs yV0 ys items :
  add_xs s = xV0 :: xs → add_ys s = yV0 :: ys → last_ok s →
  let s2 := mkAddState xs (yV0 :: ys)
    (clear_if (bool_decide (add_flag s = TailInFirst)) (add_last s)) (add_flag s) items in
  rest_x s2 = xs ∧ rest_y s2 = rest_y s ∧ last_ok s2.
Proof.
  unfold rest_x, rest_y, last_ok. intros -> -> Hl. simpl.
  destruct (add_last s), (add_flag s); simpl in *; split_and!; try done;
    try (intros []; done); exfalso; naive_solver.
Qed.

Lemma rest_advance_y s xV0 xs yV0 ys items :
  add_xs s = xV0 :: xs → add_ys s = yV0 :: ys → last_ok s →
  let s2 := mkAddState (xV0 :: xs) ys
    (clear_if (bool_decide (add_flag s = TailInSecond)) (add_last s)) (add_flag s) items in
  rest_x s2 = rest_x s ∧ rest_y s2 = ys ∧ last_ok s2.
Proof.
  unfold rest_x, rest_y, last_ok. intros -> -> Hl. simpl.
  destruct (add_last s), (add_flag s); simpl in *; split_and!; try done;
    try (intros []; done); exfalso; naive_solver.
Qed.

(** The loop ends, without a panic, in a state that keeps the invariant. *)
Lemma Add_loop_inv total fuel s :
  (length (add_xs s) + length (add_ys s) <= fuel)%nat → Add_inv total s →
  ∃ s', Add_loop fuel s = Done s' ∧ Add_inv total s' ∧ (add_xs s' = [] ∨ add_ys s' = []).
Proof.
  revert s. induction fuel as [|fuel IH]; intros s Hfuel [Hcore Hlast].
  { exists s. destruct (add_xs s) eqn:Ex, (add_ys s) eqn:Ey; simpl in *; try lia.
    rewrite Ex. split_and!; [done|by split|by left]. }
  destruct (add_xs s) as [|xV0 xs] eqn:Ex.
  { exists s. simpl. rewrite Ex. split_and!; [done|by split|by left]. }
  destruct (add_ys s) as [|yV0 ys] eqn:Ey.
  { exists s. simpl. rewrite Ex, Ey. split_and!; [done|by split|by right]. }
  cbn [Add_loop]. rewrite Ex, Ey. simpl in Hfuel. pose proof (rest_heads s _ _ _ _ Ex Ey) as Hheads.
  destruct (match add_last s with Some _ => _ | None => _ end) as [xV yV].
  destruct Hheads as [Hrx Hry]. rewrite Hrx, Hry in Hcore.
  assert (Hx : item_ok xV) by (destruct Hcore as [_ [? _] _ _ _ _]; done).
  assert (Hy : item_ok yV) by (destruct Hcore as [_ _ [? _] _ _ _]; done).
  destruct (Z.ltb_spec (EndTime xV) (StartTime yV)).
  { apply IH; [simpl; lia|].
    destruct (rest_advance_x s _ _ _ _ (appendAndMergeItem (add_items s) (Some xV)) Ex Ey Hlast)
      as (Erx & Ery & Hl2). split; [|done]. rewrite Erx, Ery, Hry. simpl.
    eapply core_before; [done|]. by intros h [= <-]. }
  destruct (Z.ltb_spec (EndTime yV) (StartTime xV)).
  { apply IH; [simpl; lia|].
    destruct (rest_advance_y s _ _ _ _ (appendAndMergeItem (add_items s) (Some yV)) Ex Ey Hlast)
      as (Erx & Ery & Hl2). split; [|done]. rewrite Erx, Ery, Hrx. simpl.
    apply core_symm. eapply core_before; [by apply core_symm|]. by intros h [= <-]. }
  destruct (TimeLockItem_Add_overlap xV yV) as (pre & l & flag & -> & Hp); [by split|done|done|].
  rewrite last_snoc, if_appendAndMergeItems.
  destruct flag; apply IH; try (simpl; lia); (split; [|by intros []]).
  - by eapply core_overlap_both.
  - by eapply core_overlap_first.
  - by eapply core_overlap_second.
Qed.

(** The end of [Add], once one of the lists is exhausted. *)
Lemma core_finish total items X Y :
  core total items X Y → X = [] ∨ Y = [] →
  let fin :=
    let items := match X with [] => appendAndMergeItems items Y | _ => items end in
    match Y with [] => appendAndMergeItems items X | _ => items end in
  wf fin ∧ ∀ t, itemsAt fin t = total t.
Proof.
  intros [Hi HX HY HpX HpY Hat] Hend.
  destruct (appendAndMergeItems_grows _ _ Hi HX HpX) as (HwX & HgX & _).
  destruct (appendAndMergeItems_grows _ _ Hi HY HpY) as (HwY & HgY & _).
  destruct X, Y; simpl in *; try (by destruct Hend); (split; [done|]); intros u;
    specialize (Hat u); specialize (HgX u); specialize (HgY u);
    autorewrite with tl in *; lia.
Qed.

Lemma Add_finish_spec total s :
  Add_inv total s → add_xs s = [] ∨ add_ys s = [] →
  wf (Add_finish s) ∧ ∀ t, itemsAt (Add_finish s) t = total t.
Proof.
  intros [Hcore Hlast] Hend. unfold Add_finish. unfold rest_x, rest_y, last_ok in *.
  destruct (add_last s) as [l|] eqn:El; [specialize (Hlast (mk_is_Some _ _ eq_refl))|].
  - destruct (add_flag s) eqn:Ef; [done| |]; destruct Hend as [He|He]; try done; rewrite He in *.
    + apply (core_finish total (appendAndMergeItem (add_items s) (Some l)) (tail (add_xs s)) []);
        [|by right]. eapply core_before; [done|]. by intros h.
    + apply (core_finish total (appendAndMergeItem (add_items s) (Some l)) [] (tail (add_ys s)));
        [|by left]. apply core_symm. eapply core_before; [by apply core_symm|]. by intros h.
  - by apply (core_finish total (add_items s) (add_xs s) (add_ys s)).
Qed.

Lemma nil_or_empty_false z : nil_or_empty (Some z) = false ↔ Items z ≠ [].
Proof. unfold nil_or_empty, IsEmpty. destruct (Items z); naive_solver. Qed.

Lemma TimeLock_Add_ok dbg x y :
  wfTL x → wfTL y → Items x ≠ [] ∨ Items y ≠ [] →
  ∃ z, TimeLock_Add dbg (Some x) (Some y) = Done (Some z) ∧ wfTL z ∧
       ∀ t, amountAt z t = amountAt x t + amountAt y t.
Proof.
  intros Hx Hy Hne. unfold TimeLock_Add.
  assert (nil_or_empty (Some x) && nil_or_empty (Some y) = false) as ->.
  { apply andb_false_iff. rewrite !nil_or_empty_false. done. }
  destruct (Add_loop_inv (fun t => amountAt x t + amountAt y t)
      (length (Items x) + length (Items y)) (mkAddState (Items x) (Items y) None TailInBoth []))
    as (s & -> & Hinv & Hend); [simpl; lia| |].
  { split; [|by intros []]. split; simpl; auto with tlock. }
  destruct (Add_finish_spec _ _ Hinv Hend) as [Hwf Hat]. simpl.
  rewrite SetItems_wf by done. exists (mkTimeLock (Add_finish s)).
  split_and!; [|exact Hwf|exact Hat].
  destruct dbg; [|done]. simpl. by rewrite CheckValid_wf.
Qed.

(** ** A well-formed time lock is determined by its meaning *)

Lemma wf_at_before p i l t : wf_from p (i :: l) → t < StartTime i → itemsAt (i :: l) t = 0.
Proof.
  intros Hwf Ht. apply sumZ_zero. intros j Hj.
  assert (StartTime i <= StartTime j).
  { apply elem_of_cons in Hj as [->|Hj]; [lia|]. destruct Hwf as (Hi & _ & Hl).
    pose proof (wf_starts_after _ _ _ Hl Hj). unfold item_ok in *. lia. }
  apply ival_out. lia.
Qed.

Lemma wf_rest_before i l t : wf_from (Some i) l → t <= EndTime i → itemsAt l t = 0.
Proof.
  intros Hwf Ht. apply sumZ_zero. intros j Hj.
  pose proof (wf_starts_after _ _ _ Hwf Hj). apply ival_out. lia.
Qed.

Lemma wf_at_head p i l t :
  wf_from p (i :: l) → StartTime i <= t <= EndTime i → itemsAt (i :: l) t = Value i.
Proof.
  intros (Hi & _ & Hl) Ht. autorewrite with tl. rewrite (wf_rest_before i) by (done || lia).
  unfold itemAt. rewrite ival_in by done. lia.
Qed.

Lemma wf_at_first p i l :
  wf_from p (i :: l) → itemsAt (i :: l) (StartTime i) = Value i ∧ 0 < Value i.
Proof.
  intros Hwf. split; [eapply wf_at_head; [done|]|]; destruct Hwf as (Hi & _); unfold item_ok in Hi; lia.
Qed.

(** If two lists start together with the same value, the one that stops first
    would have to go on with the same value, which [sep] excludes. *)
Lemma wf_same_end i a j b :
  wf (i :: a) → wf (j :: b) → (∀ t, itemsAt (i :: a) t = itemsAt (j :: b) t) →
  StartTime i = StartTime j → Value i = Value j → EndTime j <= EndTime i.
Proof.
  intros Ha Hb Hat Hs Hv. destruct (Z.le_gt_cases (EndTime j) (EndTime i)) as [|Hlt]; [done|].
  exfalso. pose proof (Hat (EndTime i + 1)) as He.
  pose proof Ha as (Hi & _ & Ha'). pose proof Hb as (Hj & _). unfold item_ok in *.
  rewrite (wf_at_head _ j b) in He by (done || lia).
  autorewrite with tl in He. unfold itemAt in He. rewrite ival_out in He by lia.
  destruct a as [|k a]; autorewrite with tl in He; [lia|].
  destruct (Z.eq_dec (StartTime k) (EndTime i + 1)) as [Hk|Hk].
  - destruct (wf_at_first _ _ _ Ha') as [Hkv _]. rewrite Hk in Hkv.
    autorewrite with tl in Hkv. destruct Ha' as (_ & [_ Hn] & _). apply Hn. lia.
  - assert (EndTime i < StartTime k) by (destruct Ha' as (_ & [] & _); done).
    pose proof (wf_at_before _ _ _ (EndTime i + 1) Ha') as H0.
    autorewrite with tl in H0. lia.
Qed.

Lemma wf_unique a b : wf a → wf b → (∀ t, itemsAt a t = itemsAt b t) → a = b.
Proof.
  revert b. induction a as [|i a IH]; intros [|j b] Ha Hb Hat; [done| | |].
  - pose proof (wf_at_first _ _ _ Hb) as [H ?]. rewrite <- Hat in H. autorewrite with tl in H. lia.
  - pose proof (wf_at_first _ _ _ Ha) as [H ?]. rewrite Hat in H. autorewrite with tl in H. lia.
  - pose proof (wf_at_first _ _ _ Ha) as [Hi ?]. pose proof (wf_at_first _ _ _ Hb) as [Hj ?].
    assert (Hs : StartTime i = StartTime j).
    { destruct (Z.lt_trichotomy (StartTime i) (StartTime j)) as [Hlt|[|Hlt]]; [|done|].
      - rewrite Hat, (wf_at_before _ _ _ _ Hb) in Hi by done. lia.
      - rewrite <- Hat, (wf_at_before _ _ _ _ Ha) in Hj by done. lia. }
    assert (Hv : Value i = Value j) by (rewrite <- Hi, <- Hj, Hs; apply Hat).
    assert (He : EndTime i = EndTime j).
    { pose proof (wf_same_end _ _ _ _ Ha Hb Hat Hs Hv).
      pose proof (wf_same_end _ _ _ _ Hb Ha (fun t => eq_sym (Hat t)) (eq_sym Hs) (eq_sym Hv)). lia. }
    assert (i = j) as -> by (destruct i, j; simpl in *; congruence).
    f_equal. destruct Ha as (_ & _ & Ha), Hb as (_ & _ & Hb).
    apply IH; eauto using wf_weaken. intros t. specialize (Hat t). autorewrite with tl in Hat. lia.
Qed.

Lemma wfTL_unique a b : wfTL a → wfTL b → (∀ t, amountAt a t = amountAt b t) → a = b.
Proof. destruct a, b. intros. f_equal. by apply wf_unique. Qed.

(** ** Cmp: is there enough over the whole interval? *)

Definition coversItems (l : list TimeLockItem) (item : TimeLockItem) : Prop :=
  ∀ t, StartTime item <= t <= EndTime item → Value item <= itemsAt l t.
Definition coversTL (z : TimeLock) (item : TimeLockItem) : Prop := coversItems (Items z) item.

(** [is_min f lo hi m]: [m] is the least value of [f] on [lo..hi]. *)
Definition is_min (f : Z → Z) (lo hi m : Z) : Prop :=
  (∃ t, lo <= t <= hi ∧ f t = m) ∧ ∀ t, lo <= t <= hi → m <= f t.

(** The loop once some item [p] of the interval was seen: it has the minimum so
    far and looks at the rest of the interval. *)
Lemma Cmp_loop_tail item minVal mg p l q :
  item_ok item → wf_from (Some p) l → item_ok p → EndTime p ≠ 0 →
  StartTime item <= EndTime p < EndTime item →
  last (p :: l) = Some q → EndTime item <= EndTime q →
  match Cmp_loop item minVal (EndTime p) mg l with
  | inl r => r = -1 ∧ ∃ t, EndTime p < t <= EndTime item ∧ itemsAt l t < Value item
  | inr (m, _) =>
      m <= minVal ∧ (m = minVal ∨ ∃ t, EndTime p < t <= EndTime item ∧ itemsAt l t = m) ∧
      ∀ t, EndTime p < t <= EndTime item → m <= itemsAt l t
  end.
Proof.
  intros Hitem. revert minVal mg p. induction l as [|t0 l IH]; intros minVal mg p Hwf Hp Hp0 Hrange Hlast Hq.
  { simpl in Hlast. simplify_eq. lia. }
  cbn [Cmp_loop]. pose proof Hwf as (Ht0 & Hsep & Hl). unfold osep, sep in Hsep.
  pose proof Ht0 as Ht0'. unfold item_ok, two64 in Ht0', Hp, Hitem.
  destruct (Z.ltb_spec (EndTime t0) (StartTime item)); [lia|].
  destruct (Z.eqb_spec (EndTime p) 0); [done|]. cbn [andb negb].
  u64_simpl.
  destruct (Z.ltb_spec (EndTime p) (StartTime t0)); [|lia]. cbn [andb].
  destruct (Z.ltb_spec (EndTime p + 1) (StartTime t0)).
  { split; [done|]. exists (EndTime p + 1). split; [lia|].
    rewrite (wf_at_before _ _ _ _ Hwf) by lia. lia. }
  assert (Hhead : ∀ t, EndTime p < t <= EndTime t0 → itemsAt (t0 :: l) t = Value t0)
    by (intros; eapply wf_at_head; [done|lia]).
  assert (Hrest : ∀ t, EndTime t0 < t → itemsAt (t0 :: l) t = itemsAt l t).
  { intros t Ht. autorewrite with tl. unfold itemAt. rewrite ival_out by lia. lia. }
  assert (Hcont : ∀ m2 mg2,
    m2 <= minVal → m2 <= Value t0 → (m2 = minVal ∨ m2 = Value t0) →
    match (if EndTime item <=? EndTime t0 then inr (m2, mg2)
           else Cmp_loop item m2 (EndTime t0) mg2 l) with
    | inl r => r = -1 ∧ ∃ t, EndTime p < t <= EndTime item ∧ itemsAt (t0 :: l) t < Value item
    | inr (m, _) =>
        m <= minVal ∧ (m = minVal ∨ ∃ t, EndTime p < t <= EndTime item ∧ itemsAt (t0 :: l) t = m) ∧
        ∀ t, EndTime p < t <= EndTime item → m <= itemsAt (t0 :: l) t
    end).
  { intros m2 mg2 Hm1 Hm2 Hm3.
    assert (Hex : m2 = minVal ∨ ∃ t, EndTime p < t <= EndTime item ∧ itemsAt (t0 :: l) t = m2).
    { destruct Hm3 as [|Hm3]; [by left|right]. exists (EndTime p + 1).
      split; [lia|]. rewrite Hhead by lia. done. }
    destruct (Z.leb_spec (EndTime item) (EndTime t0)).
    { split_and!; [done|done|]. intros t Ht. rewrite Hhead by lia. done. }
    specialize (IH m2 mg2 t0 Hl Ht0 ltac:(lia) ltac:(lia)).
    destruct (Cmp_loop item m2 (EndTime t0) mg2 l) as [r|[m mg3]].
    - destruct IH as [-> (t & Ht & Hlt)]; [by destruct l|done|].
      split; [done|]. exists t. split; [lia|]. rewrite Hrest by lia. done.
    - destruct IH as (Hm & Hmin & Hall); [by destruct l|done|].
      split_and!; [lia| |].
      + destruct Hmin as [->|(t & Ht & He)]; [done|right]. exists t. split; [lia|].
        rewrite Hrest by lia. done.
      + intros t Ht. destruct (Z.le_gt_cases t (EndTime t0)).
        * rewrite Hhead by lia. lia.
        * rewrite Hrest by lia. apply Hall. lia. }
  destruct (Z.ltb_spec (bigCmp (Value t0) minVal) 0) as [Hc|Hc].
  - rewrite bigCmp_lt in Hc. destruct (Z.ltb_spec (bigCmp (Value t0) (Value item)) 0) as [Hd|Hd].
    + rewrite bigCmp_lt in Hd. split; [done|]. exists (EndTime p + 1). rewrite Hhead by lia. lia.
    + apply Hcont; [lia|lia|by right].
  - assert (minVal <= Value t0) by (pose proof (bigCmp_lt (Value t0) minVal); lia).
    apply Hcont; [lia|lia|by left].
Qed.

(** The loop before any item of the interval was seen ([tempTime = 0]). The
    code cannot tell "no item yet" from "an item that ends at time 0"; it then
    answers [-1], which only the last clause has to exclude. *)
Lemma Cmp_loop_head item mg prev l q :
  item_ok item → wf_from prev l → last l = Some q → EndTime item <= EndTime q →
  match Cmp_loop item 0 0 mg l with
  | inl r =>
      r = -1 ∧ (0 < StartTime item ∨ (∀ i, i ∈ l → 0 < EndTime i) →
                ∃ t, StartTime item <= t <= EndTime item ∧ itemsAt l t < Value item)
  | inr (m, _) => is_min (itemsAt l) (StartTime item) (EndTime item) m
  end.
Proof.
  intros Hitem. revert prev. induction l as [|t0 l IH]; intros prev Hwf Hlast Hq; [done|].
  cbn [Cmp_loop]. pose proof Hwf as (Ht0 & _ & Hl).
  pose proof Ht0 as Ht0'. unfold item_ok, two64 in Ht0', Hitem.
  assert (Hrest : ∀ t, EndTime t0 < t → itemsAt (t0 :: l) t = itemsAt l t).
  { intros t Ht. autorewrite with tl. unfold itemAt. rewrite ival_out by lia. lia. }
  destruct (Z.ltb_spec (EndTime t0) (StartTime item)).
  { specialize (IH (Some t0) Hl). destruct (Cmp_loop item 0 0 mg l) as [r|[m mg']].
    - destruct IH as [-> IH]; [destruct l; simplify_eq/=; [lia|done]|done|]. split; [done|].
      intros H0. destruct IH as (t & ? & ?); [destruct H0; [by left|right; set_solver]|].
      exists t. rewrite Hrest by lia. done.
    - destruct IH as [(t & Ht & He) Hall]; [destruct l; simplify_eq/=; [lia|done]|done|]. split.
      + exists t. rewrite Hrest by lia. done.
      + intros t' Ht'. rewrite Hrest by lia. by apply Hall. }
  cbn [Z.eqb andb negb].
  destruct (Z.ltb_spec (StartTime item) (StartTime t0)).
  { split; [done|]. intros _. exists (StartTime item). rewrite (wf_at_before _ _ _ _ Hwf) by lia. lia. }
  assert ((bigCmp (Value t0) (Value t0) <? 0) = false) as ->
    by (unfold bigCmp; rewrite Z.ltb_irrefl, Z.eqb_refl; done).
  assert (Hhead : ∀ t, StartTime item <= t <= EndTime t0 → itemsAt (t0 :: l) t = Value t0)
    by (intros; eapply wf_at_head; [done|lia]).
  destruct (Z.leb_spec (EndTime item) (EndTime t0)).
  { split; [exists (StartTime item); rewrite Hhead by lia; split; [lia|done]|].
    intros t Ht. rewrite Hhead by lia. done. }
  destruct (Z.eq_dec (EndTime t0) 0) as [Hz|Hz].
  - rewrite Hz. destruct l as [|t1 l]; [simplify_eq/=; lia|].
    destruct Hl as (Ht1 & [Hs1 _] & _). unfold item_ok in Ht1.
    cbn [Cmp_loop]. destruct (Z.ltb_spec (EndTime t1) (StartTime item)); [lia|].
    cbn [Z.eqb andb]. destruct (Z.ltb_spec (StartTime item) (StartTime t1)); [|lia].
    split; [done|]. intros [|Hpos]; [lia|]. specialize (Hpos t0 ltac:(set_solver)). lia.
  - pose proof (Cmp_loop_tail item (Value t0) mg t0 l q ltac:(done) Hl Ht0 Hz ltac:(lia) Hlast Hq) as HT.
    destruct (Cmp_loop item (Value t0) (EndTime t0) mg l) as [r|[m mg']].
    + destruct HT as [-> (t & Ht & Hlt)]. split; [done|]. intros _. exists t.
      split; [lia|]. rewrite Hrest by lia. done.
    + destruct HT as (Hm & Hex & Hall). split.
      * destruct Hex as [->|(t & Ht & He)].
        -- exists (StartTime item). split; [lia|]. apply Hhead. lia.
        -- exists t. split; [lia|]. rewrite Hrest by lia. done.
      * intros t Ht. destruct (Z.le_gt_cases t (EndTime t0)).
        -- rewrite Hhead by lia. lia.
        -- rewrite Hrest by lia. apply Hall. lia.
Qed.

Definition single (item : TimeLockItem) : TimeLock := mkTimeLock [item].

Lemma NewTimeLock_single item : 0 <= Value item → NewTimeLock [item] = single item.
Proof.
  intros. unfold NewTimeLock, SetItems, single. simpl. destruct item.
  unfold TimeLockItem_Clone, copyBytes; simpl in *. by rewrite Z.abs_eq.
Qed.

Lemma wf_single item : item_ok item → wf [item].
Proof. simpl. tauto. Qed.

Lemma wf_last_end p l q i : wf_from p l → last l = Some q → i ∈ l → EndTime i <= EndTime q.
Proof.
  revert p i. induction l as [|j l IH]; intros p i Hwf Hlast Hin; [done|].
  destruct l as [|k l].
  { simplify_eq/=. apply list_elem_of_singleton in Hin as ->. lia. }
  pose proof Hwf as (_ & _ & Hl). apply elem_of_cons in Hin as [->|Hin]; [|by eapply IH].
  specialize (IH _ k Hl Hlast ltac:(set_solver)).
  pose proof (wf_starts_after _ _ k Hl ltac:(set_solver)).
  pose proof (wf_item _ _ k Hl ltac:(set_solver)) as Hk. unfold item_ok in Hk. lia.
Qed.

Lemma wf_at_after p l q t : wf_from p l → last l = Some q → EndTime q < t → itemsAt l t = 0.
Proof.
  intros Hwf Hlast Ht. apply sumZ_zero. intros i Hi. apply ival_out.
  pose proof (wf_last_end _ _ _ _ Hwf Hlast Hi). lia.
Qed.

Lemma TimeLock_Cmp_ok z item :
  wfTL z → item_ok item →
  ∃ c, TimeLock_Cmp z (Some (single item)) = Done c ∧
    (0 <= c → coversTL z item) ∧
    (c < 0 → 0 < StartTime item ∨ (∀ i, i ∈ Items z → 0 < EndTime i) → ¬ coversTL z item).
Proof.
  intros Hz Hi. unfold TimeLock_Cmp, single, coversTL, coversItems. destruct z as [l]; simpl.
  unfold wfTL in Hz; simpl in Hz. pose proof Hi as Hi'. unfold item_ok in Hi'.
  destruct l as [|h l].
  { eexists. split_and!; [done|lia|]. intros _ _ Hc. specialize (Hc (StartTime item)).
    autorewrite with tl in Hc. lia. }
  destruct (last (h :: l)) as [q|] eqn:Hlast; [|by apply last_None in Hlast].
  rewrite (proj2 (TimeLock_IsValid_wf (mkTimeLock [item]) (wf_in_range _ _ (wf_single _ Hi))) (wf_single _ Hi)).
  destruct (Z.ltb_spec (StartTime item) (StartTime h)).
  { eexists. split_and!; [done|lia|]. intros _ _ Hc. specialize (Hc (StartTime item)).
    rewrite (wf_at_before _ _ _ _ Hz) in Hc by lia. lia. }
  destruct (Z.ltb_spec (EndTime q) (EndTime item)).
  { eexists. split_and!; [done|lia|]. intros _ _ Hc. specialize (Hc (EndTime item)).
    rewrite (wf_at_after _ _ q _ Hz Hlast) in Hc by lia. lia. }
  pose proof (Cmp_loop_head item ((StartTime h <? StartTime item) || (EndTime item <? EndTime q))
    None (h :: l) q Hi Hz Hlast ltac:(lia)) as Hloop.
  destruct (Cmp_loop item 0 0 _ (h :: l)) as [r|[m mg]].
  - destruct Hloop as [-> Hloop]. eexists. split_and!; [done|lia|]. intros _ Hpos Hc.
    destruct (Hloop Hpos) as (t & Ht & Hlt). specialize (Hc t Ht). lia.
  - destruct Hloop as [(t & Ht & He) Hall].
    pose proof (bigCmp_lt m (Value item)) as Hlt. pose proof (bigCmp_eq m (Value item)).
    assert (∃ c, (if (bigCmp m (Value item) =? 0) && mg then Done 1 else Done (bigCmp m (Value item)))
        = Done c ∧ (c < 0 ↔ m < Value item)) as (c & -> & Hc).
    { destruct (Z.eqb_spec (bigCmp m (Value item)) 0), mg; simpl; eexists; split; try done; lia. }
    exists c. split_and!; [done| |].
    + intros Hcc t' Ht'. specialize (Hall t' Ht'). lia.
    + intros Hcc _ Hcov. specialize (Hcov t Ht). lia.
Qed.

(** ** Sub *)

(** What is left of [x] without [y], and the part of [y] that [x] cannot serve. *)
Record sub_pieces (x y : TimeLockItem) (pieces : list TimeLockItem)
    (missing : option TimeLockItem) : Prop := {
  sp_wf : wf pieces;
  sp_start : ∀ h, head pieces = Some h → StartTime x <= StartTime h;
  sp_end : ∀ p, last pieces = Some p → EndTime p <= EndTime x;
  sp_at : ∀ t, itemsAt pieces t + itemAt y t =
               itemAt x t + match missing with Some m => itemAt m t | None => 0 end;
  sp_missing :
    match missing with
    | None => EndTime y <= EndTime x
    | Some m => item_ok m ∧ StartTime m = EndTime x + 1 ∧ EndTime m = EndTime y ∧ Value m = Value y
    end;
}.

Lemma TimeLockItem_Sub_inside x y :
  item_ok x → item_ok y → StartTime x <= StartTime y <= EndTime x → Value y <= Value x →
  ∃ pieces missing, TimeLockItem_Sub x (Some y) = (pieces, missing) ∧ sub_pieces x y pieces missing.
Proof.
  intros Hx Hy Hin Hv. unfold TimeLockItem_Sub, intersectionSub.
  unfold item_ok, two64 in *. destruct x as [sx ex vx], y as [sy ey vy]; simpl in *.
  destruct (Z.ltb_spec ex sy); [lia|]. destruct (Z.ltb_spec ey sx); [lia|]. simpl.
  destruct (Z.ltb_spec (bigCmp vx vy) 0) as [Hc|_]; [rewrite bigCmp_lt in Hc; lia|].
  unfold AdjustEnd, AdjustStart, AdjustStartEnd, copyBytes; simpl. rewrite !Z.abs_eq by lia.
  pose proof (bigCmp_eq vx vy) as Heq.
  destruct (Z.eqb_spec (bigCmp vx vy) 0) as [He|He].
  all: assert (vx = vy ∨ vx ≠ vy) by lia.
  all: repeat match goal with
       | |- context [?a <? ?b] => destruct (Z.ltb_spec a b); try lia
       | |- context [?a <=? ?b] => destruct (Z.leb_spec a b); try lia
       end; u64_simpl.
  all: eexists _, _; split; [reflexivity|]; split.
  all: simpl; unfold item_ok, osep, sep, two64; simpl; try done.
  all: try (split_and!; first [lia|done]).
  all: try (intros ? [= <-]; simpl; lia).
  all: intros t; autorewrite with tl; unfold itemAt; simpl; ival_cases t; lia.
Qed.

Lemma Sub_loop_spec xs y items :
  wf items → wf xs → precedes items xs → item_ok y → coversItems xs y →
  wf (Sub_loop xs y items) ∧
  ∀ t, itemsAt (Sub_loop xs y items) t + itemAt y t = itemsAt items t + itemsAt xs t.
Proof.
  revert y items. induction xs as [|x xs IH]; intros y items Hi Hxs Hpre Hy Hcov.
  { specialize (Hcov (StartTime y)). autorewrite with tl in Hcov. unfold item_ok in Hy. lia. }
  destruct (wf_cons_inv _ _ _ Hxs) as (Hx & HX & Hafter). pose proof Hx as Hx'. pose proof Hy as Hy'.
  unfold item_ok in Hx', Hy'.
  assert (Hskip : ∀ t, EndTime x < t → itemsAt (x :: xs) t = itemsAt xs t).
  { intros t Ht. autorewrite with tl. unfold itemAt. rewrite ival_out by lia. lia. }
  cbn [Sub_loop].
  destruct (Z.lt_ge_cases (EndTime x) (StartTime y)) as [Hlt|Hge].
  { unfold TimeLockItem_Sub. destruct (Z.ltb_spec (EndTime x) (StartTime y)); [|lia]. simpl.
    rewrite app_nil_r.
    pose proof (appendAndMergeItem_grows items x Hi Hx (Hpre x eq_refl)) as Hg.
    destruct (IH y (appendAndMergeItem items (Some x))) as [Hw Hat]; eauto using grows_wf.
    - eapply precedes_after; [|done]. eapply grows_ends_before; [done|done|lia].
    - intros t Ht. rewrite <- Hskip by lia. by apply Hcov.
    - split; [done|]. intros t. rewrite Hat. destruct Hg as (_ & -> & _). autorewrite with tl. lia. }
  assert (StartTime x <= StartTime y).
  { destruct (Z.le_gt_cases (StartTime x) (StartTime y)); [done|].
    specialize (Hcov (StartTime y)). rewrite (wf_at_before _ _ _ _ Hxs) in Hcov by lia. lia. }
  assert (Value y <= Value x).
  { rewrite <- (wf_at_head _ x xs (StartTime y) Hxs) by lia. apply Hcov. lia. }
  destruct (TimeLockItem_Sub_inside x y) as (pieces & missing & -> & [Hpw Hps Hpe Hpat Hpm]);
    [done|done|lia|done|].
  assert (Hg : grows items (appendAndMergeItems items pieces) pieces).
  { apply appendAndMergeItems_grows; [done|done|]. intros h Hh.
    eapply ends_before_mono; [by apply Hpre|]. by apply Hps. }
  assert (Hend : ends_before (appendAndMergeItems items pieces) (EndTime x + 1)).
  { destruct pieces as [|b bs _] using rev_ind.
    - simpl. eapply ends_before_mono; [by apply Hpre|]. lia.
    - eapply grows_ends_before; [done|apply last_snoc|]. specialize (Hpe b (last_snoc _ _)). lia. }
  assert (Hprec : precedes (appendAndMergeItems items pieces) xs) by (by eapply precedes_after).
  destruct missing as [m|].
  - destruct Hpm as (Hm & Hms & Hme & Hmv).
    destruct (IH m (appendAndMergeItems items pieces)) as [Hw Hat]; eauto using grows_wf.
    { intros t Ht. rewrite <- Hskip, Hmv by lia. apply Hcov. lia. }
    split; [done|]. intros t. specialize (Hat t). specialize (Hpat t). simpl in Hpat.
    destruct Hg as (_ & Hg & _). specialize (Hg t). autorewrite with tl. lia.
  - destruct (appendAndMergeItems_grows _ xs (grows_wf _ _ _ Hg) HX Hprec) as (Hw & Hat & _).
    split; [done|]. intros t. specialize (Hpat t). destruct Hg as (_ & Hg & _).
    rewrite Hat, Hg. autorewrite with tl. lia.
Qed.

Lemma TimeLock_Sub_ok dbg x item c :
  wfTL x → item_ok item → TimeLock_Cmp x (Some (single item)) = Done c → 0 <= c →
  ∃ z, TimeLock_Sub dbg x (Some (single item)) = Done z ∧ wfTL z ∧
       ∀ t, amountAt z t = amountAt x t - itemAt item t.
Proof.
  intros Hx Hi Hcmp Hc. destruct (TimeLock_Cmp_ok x item Hx Hi) as (c' & Hcmp' & Hcov & _).
  assert (c' = c) as -> by congruence. unfold TimeLock_Sub, single in *. rewrite Hcmp. simpl.
  destruct (Z.ltb_spec c 0); [lia|].
  destruct (Sub_loop_spec (Items x) item []) as [Hw Hat];
    [done|done|apply precedes_nil_l|done|by apply Hcov|].
  rewrite SetItems_wf by done. exists (mkTimeLock (Sub_loop (Items x) item [])).
  split_and!; [|done|].
  - destruct dbg; [|done]. simpl. by rewrite CheckValid_wf.
  - intros t. specialize (Hat t). unfold amountAt; simpl. autorewrite with tl in Hat. lia.
Qed.

(** [Sub] of an item that is covered. *)
Lemma TimeLock_Sub_covered dbg x item :
  wfTL x → item_ok item → 0 < StartTime item → coversTL x item →
  ∃ z, TimeLock_Sub dbg x (Some (single item)) = Done z ∧ wfTL z ∧
       ∀ t, amountAt z t = amountAt x t - itemAt item t.
Proof.
  intros Hx Hi Hs Hcov. destruct (TimeLock_Cmp_ok x item Hx Hi) as (c & Hc & _ & Hneg).
  apply (TimeLock_Sub_ok dbg x item c); [done|done|done|].
  destruct (Z.le_gt_cases 0 c); [done|]. by destruct Hneg; [|left|].
Qed.

(** [Sub] that returns had enough to subtract from. *)
Lemma TimeLock_Sub_wf dbg x y z :
  wfTL x → wfTL y → TimeLock_Sub dbg x (Some y) = Done z → wfTL z.
Proof.
  intros Hx Hy Hz. destruct y as [[|item [|? ?]]]; try done.
  assert (Hi : item_ok item) by (by apply (wf_cons_inv None item [])).
  destruct (TimeLock_Cmp_ok x item Hx Hi) as (c & Hc & _).
  destruct (Z.lt_ge_cases c 0) as [Hlt|Hge].
  - unfold TimeLock_Sub in Hz. unfold single in Hc. rewrite Hc in Hz. simpl in Hz.
    by destruct (Z.ltb_spec c 0); [|lia].
  - destruct (TimeLock_Sub_ok dbg x item c Hx Hi Hc Hge) as (w & Hw & Hww & _).
    unfold single in Hw. congruence.
Qed.

(** ** ClearExpired *)

Lemma ClearExpired_loop_spec ts p l :
  wf_from p l →
  wf (ClearExpired_loop ts l) ∧ (∀ i, i ∈ ClearExpired_loop ts l → ts <= EndTime i) ∧
  ∀ t, ts <= t → itemsAt (ClearExpired_loop ts l) t = itemsAt l t.
Proof.
  revert p. induction l as [|i l IH]; intros p Hwf; simpl.
  { split_and!; [done|set_solver|done]. }
  destruct (Z.leb_spec ts (EndTime i)).
  - split_and!; [by eapply wf_weaken| |done].
    intros j Hj. destruct Hwf as (Hi & _ & Hl). apply elem_of_cons in Hj as [->|Hj]; [done|].
    pose proof (wf_starts_after _ _ _ Hl Hj). pose proof (wf_item _ _ _ Hl Hj) as Hok.
    unfold item_ok in Hok. lia.
  - destruct Hwf as (Hi & _ & Hl). destruct (IH _ Hl) as (Hw & Hexp & Hat). split_and!; [done|done|].
    intros t Ht. autorewrite with tl. unfold itemAt. rewrite ival_out by lia. rewrite Hat; lia.
Qed.

(** ** ToDisplay

    The display decomposes a run of neighbouring items into layers; the layers
    that cover a moment add up to the amount available at that moment. *)

(** A contiguous run: every item starts where the one before it ended. *)
Fixpoint run (e : Z) (l : list TimeLockItem) : Prop :=
  match l with
  | [] => True
  | i :: l' => StartTime i = e + 1 ∧ e < EndTime i ∧ run (EndTime i) l'
  end.

Definition run_end (e : Z) (l : list TimeLockItem) : Z :=
  match last l with Some q => EndTime q | None => e end.

Lemma run_end_cons e i l : run_end e (i :: l) = run_end (EndTime i) l.
Proof.
  unfold run_end. destruct l as [|j l]; [done|]. change (last (i :: j :: l)) with (last (j :: l)).
  destruct (last (j :: l)) eqn:El; [done|]. by apply last_None in El.
Qed.

Lemma run_end_ge e l : run e l → e <= run_end e l.
Proof.
  revert e. induction l as [|i l IH]; intros e; [unfold run_end; simpl; lia|].
  intros (_ & ? & Hr). rewrite run_end_cons. specialize (IH _ Hr). lia.
Qed.

(** Items in order, disjoint and of positive value; neighbours may be equal. *)
Fixpoint chain (e : option Z) (l : list TimeLockItem) : Prop :=
  match l with
  | [] => True
  | i :: l' =>
      item_ok i ∧ match e with Some e => e < StartTime i | None => True end ∧
      chain (Some (EndTime i)) l'
  end.

Lemma wf_chain p l :
  wf_from p l → chain (match p with Some p => Some (EndTime p) | None => None end) l.
Proof.
  revert p. induction l as [|i l IH]; intros p; simpl; [done|]. intros (Hi & Hs & Hl).
  split_and!; [done| |by apply (IH (Some i))]. destruct p; [|done]. by destruct Hs.
Qed.

Lemma display_run_spec n e v l :
  chain (Some e) l → 0 <= e < two64 → 0 < v →
  ∃ k m, display_run n e v l = ((n + k)%nat, run_end e (take k l), m) ∧
    (k <= length l)%nat ∧ run e (take k l) ∧ 0 < m <= v ∧
    (∀ i, i ∈ take k l → m <= Value i) ∧ (m = v ∨ ∃ i, i ∈ take k l ∧ Value i = m).
Proof.
  revert n e v. induction l as [|i l IH]; intros n e v Hc He Hv; simpl.
  { exists O, v. simpl. split_and!; first [lia|done|by rewrite Nat.add_0_r|set_solver|by left]. }
  destruct Hc as (Hi & Hs & Hc). pose proof Hi as Hi'. unfold item_ok, two64 in Hi', He.
  destruct (Z.ltb_spec e (StartTime i)); [|lia]. u64_simpl. simpl.
  destruct (Z.eqb_spec (e + 1) (StartTime i)) as [Hst|Hst].
  - set (v' := if bigCmp (Value i) v <? 0 then Value i else v).
    assert (Hv' : 0 < v' ∧ v' <= v ∧ v' <= Value i ∧ (v' = v ∨ v' = Value i)).
    { unfold v'. pose proof (bigCmp_lt (Value i) v).
      destruct (Z.ltb_spec (bigCmp (Value i) v) 0); lia. }
    clearbody v'.
    destruct (IH (S n) (EndTime i) v') as (k & m & -> & Hk & Hrun & Hm & Hall & Hex);
      [done|unfold two64; lia|lia|].
    exists (S k), m. simpl. split_and!; try lia; try done.
    + rewrite run_end_cons. by replace (n + S k)%nat with (S (n + k)) by lia.
    + intros j Hj. apply elem_of_cons in Hj as [->|Hj]; [lia|by apply Hall].
    + destruct Hex as [->|(j & Hj & <-)]; [|right; exists j; set_solver].
      destruct Hv' as (_ & _ & _ & [-> | ->]); [by left|right; exists i; set_solver].
  - exists O, v. simpl. split_and!; first [lia|done|by rewrite Nat.add_0_r|set_solver|by left].
Qed.

Lemma chain_item e l i : chain e l → i ∈ l → item_ok i.
Proof.
  revert e. induction l as [|j l IH]; intros e Hc Hi; [by apply not_elem_of_nil in Hi|].
  destruct Hc as (? & _ & ?). apply elem_of_cons in Hi as [->|]; eauto.
Qed.

Lemma chain_weaken e e' l : chain (Some e) l → e' <= e → chain (Some e') l.
Proof. destruct l; simpl; [done|]. intros (? & ? & ?) ?. split_and!; [done|lia|done]. Qed.

Lemma chain_drop_first e l : chain (Some e) l → chain None l.
Proof. destruct l; simpl; tauto. Qed.

(** Over a run the layer of the smallest value and what it leaves add up to
    the run, and what it leaves is shorter. *)
Lemma display_strip_spec m k l e :
  chain (Some e) l → run e (take k l) → 0 < m →
  (∀ i, i ∈ take k l → m <= Value i) → (k <= length l)%nat →
  chain (Some e) (display_strip m k l) ∧
  (length (display_strip m k l) <= length l)%nat ∧
  (∀ t, itemsAt (display_strip m k l) t + ival (e + 1) (run_end e (take k l)) m t = itemsAt l t) ∧
  ((∃ i, i ∈ take k l ∧ Value i = m) → (length (display_strip m k l) < length l)%nat).
Proof.
  revert k e. induction l as [|i l IH]; intros k e Hc Hrun Hm Hall Hk.
  { destruct k; simpl in *; [|lia]. split_and!; try done; [|set_solver].
    intros t. rewrite ival_out by (unfold run_end; simpl; lia). lia. }
  destruct k as [|k].
  { refine (conj Hc (conj _ (conj _ _))); simpl; [lia| |set_solver].
    intros t. rewrite ival_out by (unfold run_end; simpl; lia). lia. }
  destruct Hc as (Hi & Hs & Hc). destruct Hrun as (Hst & He & Hrun).
  destruct (IH k (EndTime i)) as (Hc' & Hlen & Hat & Hex); try done.
  { intros j Hj. apply Hall. simpl. set_solver. } { simpl in Hk. lia. }
  pose proof (Hall i ltac:(simpl; set_solver)) as Hmi. pose proof Hi as Hi'. unfold item_ok in Hi'.
  assert (Hend : ∀ t, ival (e + 1) (run_end e (take (S k) (i :: l))) m t =
      ival (StartTime i) (EndTime i) m t + ival (EndTime i + 1) (run_end (EndTime i) (take k l)) m t).
  { intros t. cbn [take]. rewrite run_end_cons. pose proof (run_end_ge _ _ Hrun).
    rewrite (ival_split _ (EndTime i + 1)) by lia. by rewrite Hst, Z.add_simpl_r. }
  cbn [display_strip]. pose proof (bigCmp_eq (Value i) m) as Hcmp.
  destruct (Z.eqb_spec (bigCmp (Value i) m) 0) as [Hz|Hz].
  - assert (Value i = m) by tauto. split_and!.
    + eapply chain_weaken; [done|lia].
    + simpl. lia.
    + intros t. rewrite Hend. specialize (Hat t). autorewrite with tl. unfold itemAt. subst m. lia.
    + intros _. simpl. lia.
  - assert (Value i ≠ m) by tauto. split_and!.
    + split_and!; [unfold item_ok; simpl; lia|simpl; lia|done].
    + simpl. lia.
    + intros t. rewrite Hend. specialize (Hat t). autorewrite with tl.
      unfold itemAt at 1 2. simpl.
      assert (ival (StartTime i) (EndTime i) (Value i) t =
              ival (StartTime i) (EndTime i) (Value i - m) t + ival (StartTime i) (EndTime i) m t)
        by (rewrite <- ival_add; f_equal; lia). lia.
    + intros (j & Hj & Hjm). simpl in Hj. apply elem_of_cons in Hj as [->|Hj]; [done|].
      assert (length (display_strip m k l) < length l)%nat by (apply Hex; eauto). simpl. lia.
Qed.

Lemma display_loop_spec fuel l res e :
  chain e l → (length l <= fuel)%nat →
  ∃ out, display_loop fuel l res = Done out ∧ ∀ t, itemsAt out t = itemsAt res t + itemsAt l t.
Proof.
  revert l res e. induction fuel as [|fuel IH]; intros l res e Hc Hlen.
  { destruct l; simpl in *; [|lia]. eexists; split; [done|]. intros. autorewrite with tl. lia. }
  destruct l as [|i l]; cbn [display_loop].
  { eexists; split; [done|]. intros. autorewrite with tl. lia. }
  pose proof Hc as (Hi & _ & Hcl). pose proof Hi as Hi'. unfold item_ok in Hi'. simpl in Hlen.
  destruct (display_run_spec 1 (EndTime i) (Value i) l Hcl) as (k & m & -> & Hk & Hrun & Hm & Hall & Hex);
    [lia|tauto|].
  destruct (Nat.eqb_spec (1 + k) 1).
  { destruct (IH l (res ++ [i]) _ Hcl) as (out & -> & Hat); [lia|].
    eexists; split; [done|]. intros t. rewrite Hat. autorewrite with tl. lia. }
  assert (Hfull : chain (Some (StartTime i - 1)) (i :: l)) by (split_and!; [done|lia|done]).
  destruct (display_strip_spec m (S k) (i :: l) (StartTime i - 1)) as (Hc' & _ & Hat & Hlt);
    [done| |lia| |simpl; lia|].
  { simpl. split_and!; [lia|lia|done]. }
  { intros j Hj. simpl in Hj. apply elem_of_cons in Hj as [->|Hj]; [lia|by apply Hall]. }
  assert (Hlt' : (length (display_strip m (S k) (i :: l)) < length (i :: l))%nat).
  { apply Hlt. simpl. destruct Hex as [->|(j & Hj & <-)]; [exists i|exists j]; set_solver. }
  destruct (IH (display_strip m (S k) (i :: l))
    (res ++ [mkItem (StartTime i) (run_end (EndTime i) (take k l)) m]) _ Hc') as (out & Hout & Hat');
    [change (length (i :: l)) with (S (length l)) in Hlt'; lia|].
  eexists; split; [exact Hout|]. intros t. rewrite Hat', <- Hat. autorewrite with tl.
  unfold itemAt at 1; simpl. replace (StartTime i - 1 + 1) with (StartTime i) by lia.
  rewrite run_end_cons. lia.
Qed.

(** ** Consequences used by the ledger *)

Definition emptyTL : TimeLock := mkTimeLock [].

Lemma wf_emptyTL : wfTL emptyTL.
Proof. done. Qed.

Lemma ClearExpired_ok ts z :
  wfTL z →
  wfTL (ClearExpired z ts) ∧ (∀ i, i ∈ Items (ClearExpired z ts) → ts <= EndTime i) ∧
  ∀ t, ts <= t → amountAt (ClearExpired z ts) t = amountAt z t.
Proof. intros Hz. apply (ClearExpired_loop_spec ts None (Items z) Hz). Qed.

Lemma ToDisplay_ok sort z :
  wfTL z → (∀ l, sort l ≡ₚ l) →
  ∃ out, ToDisplay sort z = Done out ∧ ∀ t, amountAt out t = amountAt z t.
Proof.
  intros Hz Hsort. unfold ToDisplay, TimeLock_Clone, NewTimeLock, SetItems. simpl.
  rewrite (map_Clone_id None) by done.
  destruct (display_loop_spec (length (Items z)) (Items z) [] None (wf_chain None _ Hz))
    as (out & -> & Hat); [done|]. simpl.
  exists (mkTimeLock (sort out)). split; [done|]. intros t. unfold amountAt, itemsAt; simpl.
  rewrite (Hsort out). exact (Hat t).
Qed.

(** Neighbours to [TimeLock_Add_ok] for the equations of the algebra. *)
Lemma Add_eq dbg x y z :
  wfTL x → wfTL y → wfTL z → Items x ≠ [] ∨ Items y ≠ [] →
  (∀ t, amountAt z t = amountAt x t + amountAt y t) →
  TimeLock_Add dbg (Some x) (Some y) = Done (Some z).
Proof.
  intros Hx Hy Hz Hne Hat. destruct (TimeLock_Add_ok dbg x y Hx Hy Hne) as (z' & -> & Hz' & Hat').
  do 2 f_equal. apply wfTL_unique; [done|done|]. intros t. by rewrite Hat, Hat'.
Qed.

Lemma amountAt_single i t : amountAt (single i) t = itemAt i t.
Proof. unfold amountAt, single; simpl. autorewrite with tl. lia. Qed.

(** ** Properties *)

(** C30: adding two valid time locks, one of them not empty, returns (it neither
    panics nor runs out of the loop's fuel, in debug mode too) a valid time lock
    that makes available at every moment what the two made available together. *)
Theorem timelock_add_pointwise (dbg : bool) (x y : TimeLock) :
  wfTL x → wfTL y → Items x ≠ [] ∨ Items y ≠ [] →
  ∃ z, TimeLock_Add dbg (Some x) (Some y) = Done (Some z) ∧ wfTL z ∧
       ∀ t, amountAt z t = amountAt x t + amountAt y t.
Proof. apply TimeLock_Add_ok. Qed.

(** C31: when [Cmp] says that a time lock is enough, [Sub] returns a valid time
    lock that is less by the item's value inside the item's interval and the
    same outside; in particular it does not panic. *)
Theorem timelock_sub_pointwise (dbg : bool) (x : TimeLock) (item : TimeLockItem) (c : Z) :
  wfTL x → item_ok item → TimeLock_Cmp x (Some (single item)) = Done c → 0 <= c →
  ∃ z, TimeLock_Sub dbg x (Some (single item)) = Done z ∧ wfTL z ∧
       ∀ t, amountAt z t = amountAt x t - itemAt item t.
Proof. apply TimeLock_Sub_ok. Qed.

(** C32: [Cmp] against one valid item answers a non-negative number exactly when
    the time lock makes at least the item's value available at every moment of
    the item's interval. The interval starts after time 0: for one that starts
    at 0 see [timelock_cmp_time_zero]. *)
Theorem timelock_cmp_decides_coverage (z : TimeLock) (item : TimeLockItem) :
  wfTL z → item_ok item → 0 < StartTime item →
  ∃ c, TimeLock_Cmp z (Some (single item)) = Done c ∧ (0 <= c ↔ coversTL z item).
Proof.
  intros Hz Hi Hs. destruct (TimeLock_Cmp_ok z item Hz Hi) as (c & Hc & Hpos & Hneg).
  exists c. split; [done|]. split; [done|]. intros Hcov.
  destruct (Z.le_gt_cases 0 c) as [|Hlt]; [done|]. destruct Hneg; auto.
Qed.

(** [Add] is commutative and associative on valid non-empty time locks, as
    an equation between the lists it builds. *)
Theorem timelock_add_comm_assoc (dbg : bool) (x y w : TimeLock) :
  wfTL x → wfTL y → wfTL w → Items x ≠ [] → Items y ≠ [] → Items w ≠ [] →
  TimeLock_Add dbg (Some x) (Some y) = TimeLock_Add dbg (Some y) (Some x) ∧
  (let? xy := TimeLock_Add dbg (Some x) (Some y) in TimeLock_Add dbg xy (Some w)) =
  (let? yw := TimeLock_Add dbg (Some y) (Some w) in TimeLock_Add dbg (Some x) yw).
Proof.
  intros Hx Hy Hw Nx Ny Nw.
  destruct (TimeLock_Add_ok dbg x y Hx Hy) as (xy & -> & Hxy & Axy); [auto|].
  destruct (TimeLock_Add_ok dbg y w Hy Hw) as (yw & -> & Hyw & Ayw); [auto|]. simpl.
  destruct (TimeLock_Add_ok dbg xy w Hxy Hw) as (z & -> & Hz & Az); [auto|].
  split; symmetry; apply Add_eq; auto; intros t; rewrite ?Az, ?Axy, ?Ayw; lia.
Qed.

(** Taking out an item that was just put in gives the time lock back. *)
Theorem timelock_add_sub_roundtrip (dbg : bool) (x : TimeLock) (item : TimeLockItem) :
  wfTL x → item_ok item → 0 < StartTime item →
  (let? z := TimeLock_Add dbg (Some x) (Some (single item)) in
   match z with Some z => TimeLock_Sub dbg z (Some (single item)) | None => Panic "nil" end)
  = Done x.
Proof.
  intros Hx Hi Hs.
  destruct (TimeLock_Add_ok dbg x (single item) Hx (wf_single _ Hi)) as (z & -> & Hz & Az); [by right|].
  cbn [obind]. destruct (TimeLock_Cmp_ok z item Hz Hi) as (c & Hc & _ & Hneg).
  assert (Hcov : coversTL z item).
  { intros t Ht. change (Value item <= amountAt z t). rewrite Az, amountAt_single.
    pose proof (itemsAt_nonneg (Items x) t Hx). unfold amountAt, itemAt. rewrite ival_in by done. lia. }
  assert (Hc0 : 0 <= c) by (destruct (Z.le_gt_cases 0 c); [done|]; destruct Hneg; auto).
  destruct (TimeLock_Sub_ok dbg z item c Hz Hi Hc Hc0) as (z' & -> & Hz' & Az').
  f_equal. apply wfTL_unique; [done|done|]. intros t. rewrite Az', Az, amountAt_single. lia.
Qed.

(** [IsValid] accepts a time lock of [uint64] times exactly when its items
    are in order, disjoint, of positive value, and no two neighbours could be
    merged. *)
Theorem timelock_isvalid_decides_wf (z : TimeLock) :
  Forall in_range (Items z) → TimeLock_IsValid z = None ↔ wfTL z.
Proof. apply TimeLock_IsValid_wf. Qed.

(** Clearing expired items keeps a time lock valid, leaves no item that
    ended before the timestamp, and changes nothing from the timestamp on. *)
Theorem timelock_clear_expired (z : TimeLock) (ts : Z) :
  wfTL z →
  wfTL (ClearExpired z ts) ∧ (∀ i, i ∈ Items (ClearExpired z ts) → ts <= EndTime i) ∧
  ∀ t, ts <= t → amountAt (ClearExpired z ts) t = amountAt z t.
Proof. apply ClearExpired_ok. Qed.

(** [ToDisplay] terminates and its overlapping layers add up, at every
    moment, to the amount of the time lock, whatever permutation the sort makes. *)
Theorem timelock_display_layers (sort_Sort : list TimeLockItem → list TimeLockItem) (z : TimeLock) :
  wfTL z → (∀ l, sort_Sort l ≡ₚ l) →
  ∃ out, ToDisplay sort_Sort z = Done out ∧ ∀ t, amountAt out t = amountAt z t.
Proof. apply ToDisplay_ok. Qed.

(** [Cmp] uses [tempTime == 0] for "no item seen yet"; an item that ends at time
    0 is taken for none, and a time lock that covers the interval is refused. *)
Lemma timelock_cmp_time_zero :
  let z := mkTimeLock [mkItem 0 0 5; mkItem 1 10 7] in
  let item := mkItem 0 10 5 in
  wfTL z ∧ coversTL z item ∧ TimeLock_Cmp z (Some (single item)) = Done (-1).
Proof.
  split_and!; [| |reflexivity].
  - unfold wfTL; simpl; unfold item_ok, sep, two64; simpl. lia.
  - intros t Ht. simpl in Ht. unfold itemsAt, itemAt; simpl. ival_cases t; lia.
Qed.

(** ** Witnesses *)

Definition ex_x : TimeLock := mkTimeLock [mkItem 1 5 10; mkItem 8 12 3].
Definition ex_y : TimeLock := mkTimeLock [mkItem 3 9 2].

Definition value_desc (a b : TimeLockItem) : Prop := Value b <= Value a.
#[local] Instance value_desc_dec : RelDecision value_desc.
Proof. intros a b. unfold value_desc. apply _. Defined.

Ltac wf_concrete := unfold wfTL, single, item_ok; simpl; unfold item_ok, sep, two64; simpl; lia.

Lemma timelock_add_pointwise_witness :
  ∃ z, TimeLock_Add true (Some ex_x) (Some ex_y) = Done (Some z) ∧ wfTL z ∧
       ∀ t, amountAt z t = amountAt ex_x t + amountAt ex_y t.
Proof. apply (timelock_add_pointwise true ex_x ex_y); [wf_concrete|wf_concrete|left; discriminate]. Defined.

Lemma timelock_sub_pointwise_witness :
  ∃ z, TimeLock_Sub true ex_x (Some (single (mkItem 2 4 10))) = Done z ∧ wfTL z ∧
       ∀ t, amountAt z t = amountAt ex_x t - itemAt (mkItem 2 4 10) t.
Proof.
  apply (timelock_sub_pointwise true ex_x (mkItem 2 4 10) 1); [wf_concrete|wf_concrete|reflexivity|lia].
Defined.

Lemma timelock_cmp_decides_coverage_witness :
  ∃ c, TimeLock_Cmp ex_x (Some (single (mkItem 2 4 10))) = Done c ∧
       (0 <= c ↔ coversTL ex_x (mkItem 2 4 10)).
Proof.
  apply (timelock_cmp_decides_coverage ex_x (mkItem 2 4 10)); [wf_concrete|wf_concrete|simpl; lia].
Defined.

Lemma timelock_add_comm_assoc_witness :
  TimeLock_Add false (Some ex_x) (Some ex_y) = TimeLock_Add false (Some ex_y) (Some ex_x) ∧
  (let? xy := TimeLock_Add false (Some ex_x) (Some ex_y) in
   TimeLock_Add false xy (Some (single (mkItem 4 20 1)))) =
  (let? yw := TimeLock_Add false (Some ex_y) (Some (single (mkItem 4 20 1))) in
   TimeLock_Add false (Some ex_x) yw).
Proof.
  apply (timelock_add_comm_assoc false ex_x ex_y (single (mkItem 4 20 1)));
    first [wf_concrete|discriminate].
Defined.

Lemma timelock_add_sub_roundtrip_witness :
  (let? z := TimeLock_Add true (Some ex_x) (Some (single (mkItem 3 9 2))) in
   match z with Some z => TimeLock_Sub true z (Some (single (mkItem 3 9 2))) | None => Panic "nil" end)
  = Done ex_x.
Proof.
  apply (timelock_add_sub_roundtrip true ex_x (mkItem 3 9 2)); [wf_concrete|wf_concrete|simpl; lia].
Defined.

Lemma timelock_isvalid_decides_wf_witness : TimeLock_IsValid ex_x = None ↔ wfTL ex_x.
Proof.
  apply (timelock_isvalid_decides_wf ex_x).
  repeat constructor; unfold is_u64, two64; simpl; lia.
Defined.

Lemma timelock_clear_expired_witness :
  wfTL (ClearExpired ex_x 6) ∧ (∀ i, i ∈ Items (ClearExpired ex_x 6) → 6 <= EndTime i) ∧
  ∀ t, 6 <= t → amountAt (ClearExpired ex_x 6) t = amountAt ex_x t.
Proof. apply (timelock_clear_expired ex_x 6). wf_concrete. Defined.

Lemma timelock_display_layers_witness :
  ∃ out, ToDisplay (merge_sort value_desc) ex_x = Done out ∧
         ∀ t, amountAt out t = amountAt ex_x t.
Proof.
  apply (timelock_display_layers (merge_sort value_desc) ex_x);
    [wf_concrete|apply merge_sort_Permutation].
Defined.
