(* ===== verification/Bytes.v ===== *)
(** * Byte strings, hashes and addresses (common/bytes.go, common/convert.go,
      common/types.go)

    A byte is a [Z] between 0 and 255 and a byte string a list of them. A
    [common.Hash] (32 bytes) and a [common.Address] (20 bytes) are the number
    that the bytes spell in big-endian order, which is how the code orders and
    prints them; [Hash_Bytes] and [BytesToHash] are the conversions. *)

From stdpp Require Import base list gmap strings.
From Stdlib Require Import ZArith Lia.
From S2P Require Import Prelude.

Definition is_byte (b : Z) : Prop := 0 <= b < 256.
Abbreviation bytes := (list Z).
Abbreviation are_bytes := (Forall is_byte).

(** [big.Int.SetBytes]: big-endian. *)
Fixpoint be_acc (acc : Z) (bs : bytes) : Z :=
  match bs with
  | [] => acc
  | b :: bs' => be_acc (acc * 256 + b) bs'
  end.
Definition SetBytes (bs : bytes) : Z := be_acc 0 bs.

(** The [n] bytes of a number, the most significant first. *)
Fixpoint be_bytes (n : nat) (z : Z) : bytes :=
  match n with
  | O => []
  | S n' => be_bytes n' (z / 256) ++ [z mod 256]
  end.

(** [big.Int.Bytes] of a non-negative number: no leading zero byte. *)
Definition byte_len (z : Z) : nat := Z.to_nat ((Z.log2 z + 8) / 8).
Definition Int_Bytes (z : Z) : bytes := if z =? 0 then [] else be_bytes (byte_len z) z.

(** ** Facts *)

Lemma be_acc_app acc l1 l2 : be_acc acc (l1 ++ l2) = be_acc (be_acc acc l1) l2.
Proof. revert acc. induction l1; simpl; auto. Qed.

Lemma be_acc_shift acc l : be_acc acc l = acc * 256 ^ Z.of_nat (length l) + be_acc 0 l.
Proof.
  revert acc. induction l as [|b l IH]; intros acc; cbn [be_acc length]; [rewrite Z.pow_0_r; lia|].
  rewrite (IH (acc * 256 + b)), (IH (0 * 256 + b)), Nat2Z.inj_succ, Z.pow_succ_r by lia. lia.
Qed.

Lemma SetBytes_app l1 l2 :
  SetBytes (l1 ++ l2) = SetBytes l1 * 256 ^ Z.of_nat (length l2) + SetBytes l2.
Proof. unfold SetBytes. rewrite be_acc_app. apply be_acc_shift. Qed.

Lemma SetBytes_zeros k b : SetBytes (replicate k 0 ++ b) = SetBytes b.
Proof.
  rewrite SetBytes_app. assert (SetBytes (replicate k 0) = 0) as ->; [|lia].
  induction k as [|k IH]; [done|]. exact IH.
Qed.

Lemma SetBytes_snoc l b : SetBytes (l ++ [b]) = SetBytes l * 256 + b.
Proof. rewrite SetBytes_app. simpl. change (256 ^ 1) with 256. unfold SetBytes; simpl. lia. Qed.

Lemma length_be_bytes n z : length (be_bytes n z) = n.
Proof. revert z. induction n; intros; simpl; [done|]. rewrite length_app, IHn. simpl. lia. Qed.

Lemma be_bytes_are_bytes n z : are_bytes (be_bytes n z).
Proof.
  revert z. induction n; intros; simpl; [done|]. apply Forall_app. split; [done|].
  apply Forall_singleton. apply Z.mod_pos_bound. lia.
Qed.

Lemma SetBytes_be_bytes n z : SetBytes (be_bytes n z) = z mod 256 ^ Z.of_nat n.
Proof.
  revert z. induction n as [|n IH]; intros z; [simpl; by rewrite Z.mod_1_r|].
  cbn [be_bytes]. rewrite SetBytes_snoc, IH, Nat2Z.inj_succ, Z.pow_succ_r by lia.
  rewrite Z.rem_mul_r by lia. lia.
Qed.

Lemma SetBytes_range l : are_bytes l → 0 <= SetBytes l < 256 ^ Z.of_nat (length l).
Proof.
  induction l as [|b l IH] using rev_ind; intros H; [by simpl|].
  apply Forall_app in H as [Hl Hb]. rewrite Forall_singleton in Hb. unfold is_byte in Hb.
  specialize (IH Hl). rewrite SetBytes_snoc, length_app. simpl.
  rewrite Nat2Z.inj_add, Z.pow_add_r by lia. change (256 ^ Z.of_nat 1) with 256. lia.
Qed.

Lemma be_bytes_SetBytes l : are_bytes l → be_bytes (length l) (SetBytes l) = l.
Proof.
  induction l as [|b l IH] using rev_ind; intros H; [done|].
  apply Forall_app in H as [Hl Hb]. rewrite Forall_singleton in Hb. unfold is_byte in Hb.
  rewrite length_app. simpl. rewrite Nat.add_1_r. cbn [be_bytes].
  rewrite SetBytes_snoc. f_equal; [|f_equal].
  - assert ((SetBytes l * 256 + b) / 256 = SetBytes l) as ->; [|by apply IH].
    symmetry. apply (Z.div_unique _ _ _ b); lia.
  - symmetry. apply (Z.mod_unique _ _ (SetBytes l)); lia.
Qed.

Lemma Int_Bytes_SetBytes z : 0 <= z → SetBytes (Int_Bytes z) = z.
Proof.
  intros Hz. unfold Int_Bytes. destruct (Z.eqb_spec z 0) as [->|Hnz]; [done|].
  rewrite SetBytes_be_bytes. apply Z.mod_small. split; [done|].
  assert (0 <= Z.log2 z) by apply Z.log2_nonneg. unfold byte_len.
  rewrite Z2Nat.id by (apply Z.div_pos; lia).
  change 256 with (2 ^ 8). rewrite <- Z.pow_mul_r by (try apply Z.div_pos; lia).
  eapply Z.lt_le_trans; [apply Z.log2_spec; lia|].
  apply Z.pow_le_mono_r; [lia|].
  pose proof (Z.div_mod (Z.log2 z + 8) 8). pose proof (Z.mod_pos_bound (Z.log2 z + 8) 8). lia.
Qed.

Lemma Int_Bytes_are_bytes z : are_bytes (Int_Bytes z).
Proof. unfold Int_Bytes. destruct (z =? 0); [done|]. apply be_bytes_are_bytes. Qed.

Lemma Int_Bytes_inj a b : 0 <= a → 0 <= b → Int_Bytes a = Int_Bytes b → a = b.
Proof. intros Ha Hb H. by rewrite <- (Int_Bytes_SetBytes a), <- (Int_Bytes_SetBytes b), H. Qed.

(** ** Hashes and addresses *)

Abbreviation Hash := Z (only parsing).
Abbreviation Address := Z (only parsing).
Definition HashLength : nat := 32.
Definition AddressLength : nat := 20.
Definition is_hash (h : Hash) : Prop := 0 <= h < 256 ^ 32.
Definition is_address (a : Address) : Prop := 0 <= a < 256 ^ 20.

(** The last [n] bytes: what [SetBytes] keeps of a longer string. *)
Definition crop (n : nat) (b : bytes) : bytes := drop (length b - n) b.

Definition BytesToHash (b : bytes) : Hash := SetBytes (crop HashLength b).
Definition BytesToAddress (b : bytes) : Address := SetBytes (crop AddressLength b).
Definition Hash_Bytes (h : Hash) : bytes := be_bytes HashLength h.
Definition Address_Bytes (a : Address) : bytes := be_bytes AddressLength a.
Definition BigToHash (b : Z) : Hash := BytesToHash (Int_Bytes b).
Definition Address_Hash (a : Address) : Hash := BytesToHash (Address_Bytes a).

Definition FSNCallAddress : Address := 0xffffffffffffffffffffffffffffffffffffffff.
Definition TicketLogAddress : Address := 0xfffffffffffffffffffffffffffffffffffffffe.
Definition NotationKeyAddress : Address := 0xfffffffffffffffffffffffffffffffffffffffd.
Definition AssetKeyAddress : Address := 0xfffffffffffffffffffffffffffffffffffffffc.
Definition TicketKeyAddress : Address := 0xfffffffffffffffffffffffffffffffffffffffb.
Definition SwapKeyAddress : Address := 0xfffffffffffffffffffffffffffffffffffffffa.
Definition MultiSwapKeyAddress : Address := 0xfffffffffffffffffffffffffffffffffffffff9.
Definition SystemAssetID : Hash :=
  0xffffffffffffffffffffffffffffffffffffffffffffffffffffffffffffffff.
Definition OwnerUSANAssetID : Hash :=
  0xfffffffffffffffffffffffffffffffffffffffffffffffffffffffffffffffe.

Definition IsSpecialKeyAddress (addr : Address) : bool :=
  (addr =? TicketKeyAddress) || (addr =? NotationKeyAddress) || (addr =? AssetKeyAddress)
  || (addr =? SwapKeyAddress) || (addr =? MultiSwapKeyAddress).

Lemma Hash_Bytes_length h : length (Hash_Bytes h) = 32%nat.
Proof. apply length_be_bytes. Qed.

Lemma BytesToHash_Bytes h : is_hash h → BytesToHash (Hash_Bytes h) = h.
Proof.
  intros Hh. unfold BytesToHash, crop, Hash_Bytes, HashLength.
  rewrite length_be_bytes, Nat.sub_diag, drop_0, SetBytes_be_bytes. by apply Z.mod_small.
Qed.

Lemma BytesToHash_short b :
  (length b <= 32)%nat → BytesToHash b = SetBytes b.
Proof.
  intros. unfold BytesToHash, crop, HashLength.
  by replace (length b - 32)%nat with O by lia.
Qed.

(** ** common/convert.go: an [int] as the four bytes of its [int32] *)

Definition int32 (z : Z) : Z := (z + 2 ^ 31) mod 2 ^ 32 - 2 ^ 31.
Definition is_int32 (z : Z) : Prop := - 2 ^ 31 <= z < 2 ^ 31.

Definition IntToBytes (n : Z) : bytes := be_bytes 4 (int32 n).

(** [binary.Read] wants four bytes; with fewer it leaves the variable at 0. *)
Definition BytesToInt (b : bytes) : Z :=
  if (length b <? 4)%nat then 0 else int32 (SetBytes (take 4 b)).

Definition Uint64ToBytes (n : Z) : bytes := be_bytes 8 n.
Definition BytesToUint64 (b : bytes) : Z :=
  if (length b <? 8)%nat then 0 else SetBytes (take 8 b).
Definition Uint32ToBytes (n : Z) : bytes := be_bytes 4 n.
Definition BytesToUint32 (b : bytes) : Z :=
  if (length b <? 4)%nat then 0 else SetBytes (take 4 b).

Lemma int32_id z : is_int32 z → int32 z = z.
Proof. unfold is_int32, int32. intros. rewrite Z.mod_small; lia. Qed.

Lemma int32_mod z : int32 (z mod 2 ^ 32) = int32 z.
Proof. unfold int32. rewrite Z.add_mod_idemp_l by lia. done. Qed.

Lemma IntToBytes_length n : length (IntToBytes n) = 4%nat.
Proof. apply length_be_bytes. Qed.

Lemma BytesToInt_IntToBytes n rest : is_int32 n → BytesToInt (IntToBytes n ++ rest) = n.
Proof.
  intros Hn. unfold BytesToInt. rewrite length_app, IntToBytes_length.
  destruct (Nat.ltb_spec (4 + length rest) 4); [lia|].
  rewrite take_app_le, take_ge by (rewrite IntToBytes_length; lia).
  unfold IntToBytes. rewrite SetBytes_be_bytes.
  change (256 ^ Z.of_nat 4) with (2 ^ 32). rewrite int32_mod, (int32_id n) by done.
  by apply int32_id.
Qed.
