(* ===== verification/Keccak.v ===== *)
(** * Keccak-256 (crypto/sha3, crypto.Keccak256Hash)

    The sponge of sha3.go, the portable permutation of keccakf.go with its four
    unrolled in-place rounds, and the byte-order helpers of xor_generic.go. The
    reference at the end of the file is the textbook permutation and sponge;
    [KeccakFacts] proves that the code computes it. *)

From stdpp Require Import base list strings.
From Stdlib Require Import ZArith Lia.
From S2P Require Import Prelude Bytes.

(** ** The operators of Go on uint64 *)

Definition u64_shl (x n : Z) : Z := u64 (Z.shiftl x n).

Declare Scope u64_scope.
Delimit Scope u64_scope with u64.
Notation "x ^u y" := (Z.lxor x y) (at level 38, left associativity) : u64_scope.
Notation "x |u y" := (Z.lor x y) (at level 38, left associativity) : u64_scope.
Notation "x &^u y" := (Z.ldiff x y) (at level 34, left associativity) : u64_scope.
Notation "x <<u n" := (u64_shl x n) (at level 34, left associativity) : u64_scope.
Notation "x >>u n" := (Z.shiftr x n) (at level 34, left associativity) : u64_scope.
Open Scope u64_scope.

(** ** keccakf.go *)

(** The round constants. *)
Definition rc : list Z :=
  [0x0000000000000001; 0x0000000000008082; 0x800000000000808A;
   0x8000000080008000; 0x000000000000808B; 0x0000000080000001;
   0x8000000080008081; 0x8000000000008009; 0x000000000000008A;
   0x0000000000000088; 0x0000000080008009; 0x000000008000000A;
   0x000000008000808B; 0x800000000000008B; 0x8000000000008089;
   0x8000000000008003; 0x8000000000008002; 0x8000000000000080;
   0x000000000000800A; 0x800000008000000A; 0x8000000080008081;
   0x8000000000008080; 0x0000000080000001; 0x8000000080008008].

(** Round 1 of the unrolled loop. *)
Definition keccak_round1 (rc_i : Z) (a : list Z) : list Z :=
  match a with
  | [a0; a1; a2; a3; a4; a5; a6; a7; a8; a9; a10; a11; a12; a13; a14; a15; a16; a17; a18; a19;
     a20; a21; a22; a23; a24] =>
      let bc0 := a0 ^u a5 ^u a10 ^u a15 ^u a20 in
      let bc1 := a1 ^u a6 ^u a11 ^u a16 ^u a21 in
      let bc2 := a2 ^u a7 ^u a12 ^u a17 ^u a22 in
      let bc3 := a3 ^u a8 ^u a13 ^u a18 ^u a23 in
      let bc4 := a4 ^u a9 ^u a14 ^u a19 ^u a24 in
      let d0 := bc4 ^u (bc1 <<u 1 |u bc1 >>u 63) in
      let d1 := bc0 ^u (bc2 <<u 1 |u bc2 >>u 63) in
      let d2 := bc1 ^u (bc3 <<u 1 |u bc3 >>u 63) in
      let d3 := bc2 ^u (bc4 <<u 1 |u bc4 >>u 63) in
      let d4 := bc3 ^u (bc0 <<u 1 |u bc0 >>u 63) in
      let bc0 := a0 ^u d0 in
      let t := a6 ^u d1 in
      let bc1 := t <<u 44 |u t >>u (64 - 44) in
      let t := a12 ^u d2 in
      let bc2 := t <<u 43 |u t >>u (64 - 43) in
      let t := a18 ^u d3 in
      let bc3 := t <<u 21 |u t >>u (64 - 21) in
      let t := a24 ^u d4 in
      let bc4 := t <<u 14 |u t >>u (64 - 14) in
      let a0 := bc0 ^u (bc2 &^u bc1) ^u rc_i in
      let a6 := bc1 ^u (bc3 &^u bc2) in
      let a12 := bc2 ^u (bc4 &^u bc3) in
      let a18 := bc3 ^u (bc0 &^u bc4) in
      let a24 := bc4 ^u (bc1 &^u bc0) in
      let t := a10 ^u d0 in
      let bc2 := t <<u 3 |u t >>u (64 - 3) in
      let t := a16 ^u d1 in
      let bc3 := t <<u 45 |u t >>u (64 - 45) in
      let t := a22 ^u d2 in
      let bc4 := t <<u 61 |u t >>u (64 - 61) in
      let t := a3 ^u d3 in
      let bc0 := t <<u 28 |u t >>u (64 - 28) in
      let t := a9 ^u d4 in
      let bc1 := t <<u 20 |u t >>u (64 - 20) in
      let a10 := bc0 ^u (bc2 &^u bc1) in
      let a16 := bc1 ^u (bc3 &^u bc2) in
      let a22 := bc2 ^u (bc4 &^u bc3) in
      let a3 := bc3 ^u (bc0 &^u bc4) in
      let a9 := bc4 ^u (bc1 &^u bc0) in
      let t := a20 ^u d0 in
      let bc4 := t <<u 18 |u t >>u (64 - 18) in
      let t := a1 ^u d1 in
      let bc0 := t <<u 1 |u t >>u (64 - 1) in
      let t := a7 ^u d2 in
      let bc1 := t <<u 6 |u t >>u (64 - 6) in
      let t := a13 ^u d3 in
      let bc2 := t <<u 25 |u t >>u (64 - 25) in
      let t := a19 ^u d4 in
      let bc3 := t <<u 8 |u t >>u (64 - 8) in
      let a20 := bc0 ^u (bc2 &^u bc1) in
      let a1 := bc1 ^u (bc3 &^u bc2) in
      let a7 := bc2 ^u (bc4 &^u bc3) in
      let a13 := bc3 ^u (bc0 &^u bc4) in
      let a19 := bc4 ^u (bc1 &^u bc0) in
      let t := a5 ^u d0 in
      let bc1 := t <<u 36 |u t >>u (64 - 36) in
      let t := a11 ^u d1 in
      let bc2 := t <<u 10 |u t >>u (64 - 10) in
      let t := a17 ^u d2 in
      let bc3 := t <<u 15 |u t >>u (64 - 15) in
      let t := a23 ^u d3 in
      let bc4 := t <<u 56 |u t >>u (64 - 56) in
      let t := a4 ^u d4 in
      let bc0 := t <<u 27 |u t >>u (64 - 27) in
      let a5 := bc0 ^u (bc2 &^u bc1) in
      let a11 := bc1 ^u (bc3 &^u bc2) in
      let a17 := bc2 ^u (bc4 &^u bc3) in
      let a23 := bc3 ^u (bc0 &^u bc4) in
      let a4 := bc4 ^u (bc1 &^u bc0) in
      let t := a15 ^u d0 in
      let bc3 := t <<u 41 |u t >>u (64 - 41) in
      let t := a21 ^u d1 in
      let bc4 := t <<u 2 |u t >>u (64 - 2) in
      let t := a2 ^u d2 in
      let bc0 := t <<u 62 |u t >>u (64 - 62) in
      let t := a8 ^u d3 in
      let bc1 := t <<u 55 |u t >>u (64 - 55) in
      let t := a14 ^u d4 in
      let bc2 := t <<u 39 |u t >>u (64 - 39) in
      let a15 := bc0 ^u (bc2 &^u bc1) in
      let a21 := bc1 ^u (bc3 &^u bc2) in
      let a2 := bc2 ^u (bc4 &^u bc3) in
      let a8 := bc3 ^u (bc0 &^u bc4) in
      let a14 := bc4 ^u (bc1 &^u bc0) in
      [a0; a1; a2; a3; a4; a5; a6; a7; a8; a9; a10; a11; a12; a13; a14; a15; a16; a17; a18; a19;
       a20; a21; a22; a23; a24]
  | _ => a
  end.

(** Round 2 of the unrolled loop. *)
Definition keccak_round2 (rc_i : Z) (a : list Z) : list Z :=
  match a with
  | [a0; a1; a2; a3; a4; a5; a6; a7; a8; a9; a10; a11; a12; a13; a14; a15; a16; a17; a18; a19;
     a20; a21; a22; a23; a24] =>
      let bc0 := a0 ^u a5 ^u a10 ^u a15 ^u a20 in
      let bc1 := a1 ^u a6 ^u a11 ^u a16 ^u a21 in
      let bc2 := a2 ^u a7 ^u a12 ^u a17 ^u a22 in
      let bc3 := a3 ^u a8 ^u a13 ^u a18 ^u a23 in
      let bc4 := a4 ^u a9 ^u a14 ^u a19 ^u a24 in
      let d0 := bc4 ^u (bc1 <<u 1 |u bc1 >>u 63) in
      let d1 := bc0 ^u (bc2 <<u 1 |u bc2 >>u 63) in
      let d2 := bc1 ^u (bc3 <<u 1 |u bc3 >>u 63) in
      let d3 := bc2 ^u (bc4 <<u 1 |u bc4 >>u 63) in
      let d4 := bc3 ^u (bc0 <<u 1 |u bc0 >>u 63) in
      let bc0 := a0 ^u d0 in
      let t := a16 ^u d1 in
      let bc1 := t <<u 44 |u t >>u (64 - 44) in
      let t := a7 ^u d2 in
      let bc2 := t <<u 43 |u t >>u (64 - 43) in
      let t := a23 ^u d3 in
      let bc3 := t <<u 21 |u t >>u (64 - 21) in
      let t := a14 ^u d4 in
      let bc4 := t <<u 14 |u t >>u (64 - 14) in
      let a0 := bc0 ^u (bc2 &^u bc1) ^u rc_i in
      let a16 := bc1 ^u (bc3 &^u bc2) in
      let a7 := bc2 ^u (bc4 &^u bc3) in
      let a23 := bc3 ^u (bc0 &^u bc4) in
      let a14 := bc4 ^u (bc1 &^u bc0) in
      let t := a20 ^u d0 in
      let bc2 := t <<u 3 |u t >>u (64 - 3) in
      let t := a11 ^u d1 in
      let bc3 := t <<u 45 |u t >>u (64 - 45) in
      let t := a2 ^u d2 in
      let bc4 := t <<u 61 |u t >>u (64 - 61) in
      let t := a18 ^u d3 in
      let bc0 := t <<u 28 |u t >>u (64 - 28) in
      let t := a9 ^u d4 in
      let bc1 := t <<u 20 |u t >>u (64 - 20) in
      let a20 := bc0 ^u (bc2 &^u bc1) in
      let a11 := bc1 ^u (bc3 &^u bc2) in
      let a2 := bc2 ^u (bc4 &^u bc3) in
      let a18 := bc3 ^u (bc0 &^u bc4) in
      let a9 := bc4 ^u (bc1 &^u bc0) in
      let t := a15 ^u d0 in
      let bc4 := t <<u 18 |u t >>u (64 - 18) in
      let t := a6 ^u d1 in
      let bc0 := t <<u 1 |u t >>u (64 - 1) in
      let t := a22 ^u d2 in
      let bc1 := t <<u 6 |u t >>u (64 - 6) in
      let t := a13 ^u d3 in
      let bc2 := t <<u 25 |u t >>u (64 - 25) in
      let t := a4 ^u d4 in
      let bc3 := t <<u 8 |u t >>u (64 - 8) in
      let a15 := bc0 ^u (bc2 &^u bc1) in
      let a6 := bc1 ^u (bc3 &^u bc2) in
      let a22 := bc2 ^u (bc4 &^u bc3) in
      let a13 := bc3 ^u (bc0 &^u bc4) in
      let a4 := bc4 ^u (bc1 &^u bc0) in
      let t := a10 ^u d0 in
      let bc1 := t <<u 36 |u t >>u (64 - 36) in
      let t := a1 ^u d1 in
      let bc2 := t <<u 10 |u t >>u (64 - 10) in
      let t := a17 ^u d2 in
      let bc3 := t <<u 15 |u t >>u (64 - 15) in
      let t := a8 ^u d3 in
      let bc4 := t <<u 56 |u t >>u (64 - 56) in
      let t := a24 ^u d4 in
      let bc0 := t <<u 27 |u t >>u (64 - 27) in
      let a10 := bc0 ^u (bc2 &^u bc1) in
      let a1 := bc1 ^u (bc3 &^u bc2) in
      let a17 := bc2 ^u (bc4 &^u bc3) in
      let a8 := bc3 ^u (bc0 &^u bc4) in
      let a24 := bc4 ^u (bc1 &^u bc0) in
      let t := a5 ^u d0 in
      let bc3 := t <<u 41 |u t >>u (64 - 41) in
      let t := a21 ^u d1 in
      let bc4 := t <<u 2 |u t >>u (64 - 2) in
      let t := a12 ^u d2 in
      let bc0 := t <<u 62 |u t >>u (64 - 62) in
      let t := a3 ^u d3 in
      let bc1 := t <<u 55 |u t >>u (64 - 55) in
      let t := a19 ^u d4 in
      let bc2 := t <<u 39 |u t >>u (64 - 39) in
      let a5 := bc0 ^u (bc2 &^u bc1) in
      let a21 := bc1 ^u (bc3 &^u bc2) in
      let a12 := bc2 ^u (bc4 &^u bc3) in
      let a3 := bc3 ^u (bc0 &^u bc4) in
      let a19 := bc4 ^u (bc1 &^u bc0) in
      [a0; a1; a2; a3; a4; a5; a6; a7; a8; a9; a10; a11; a12; a13; a14; a15; a16; a17; a18; a19;
       a20; a21; a22; a23; a24]
  | _ => a
  end.

(** Round 3 of the unrolled loop. *)
Definition keccak_round3 (rc_i : Z) (a : list Z) : list Z :=
  match a with
  | [a0; a1; a2; a3; a4; a5; a6; a7; a8; a9; a10; a11; a12; a13; a14; a15; a16; a17; a18; a19;
     a20; a21; a22; a23; a24] =>
      let bc0 := a0 ^u a5 ^u a10 ^u a15 ^u a20 in
      let bc1 := a1 ^u a6 ^u a11 ^u a16 ^u a21 in
      let bc2 := a2 ^u a7 ^u a12 ^u a17 ^u a22 in
      let bc3 := a3 ^u a8 ^u a13 ^u a18 ^u a23 in
      let bc4 := a4 ^u a9 ^u a14 ^u a19 ^u a24 in
      let d0 := bc4 ^u (bc1 <<u 1 |u bc1 >>u 63) in
      let d1 := bc0 ^u (bc2 <<u 1 |u bc2 >>u 63) in
      let d2 := bc1 ^u (bc3 <<u 1 |u bc3 >>u 63) in
      let d3 := bc2 ^u (bc4 <<u 1 |u bc4 >>u 63) in
      let d4 := bc3 ^u (bc0 <<u 1 |u bc0 >>u 63) in
      let bc0 := a0 ^u d0 in
      let t := a11 ^u d1 in
      let bc1 := t <<u 44 |u t >>u (64 - 44) in
      let t := a22 ^u d2 in
      let bc2 := t <<u 43 |u t >>u (64 - 43) in
      let t := a8 ^u d3 in
      let bc3 := t <<u 21 |u t >>u (64 - 21) in
      let t := a19 ^u d4 in
      let bc4 := t <<u 14 |u t >>u (64 - 14) in
      let a0 := bc0 ^u (bc2 &^u bc1) ^u rc_i in
      let a11 := bc1 ^u (bc3 &^u bc2) in
      let a22 := bc2 ^u (bc4 &^u bc3) in
      let a8 := bc3 ^u (bc0 &^u bc4) in
      let a19 := bc4 ^u (bc1 &^u bc0) in
      let t := a15 ^u d0 in
      let bc2 := t <<u 3 |u t >>u (64 - 3) in
      let t := a1 ^u d1 in
      let bc3 := t <<u 45 |u t >>u (64 - 45) in
      let t := a12 ^u d2 in
      let bc4 := t <<u 61 |u t >>u (64 - 61) in
      let t := a23 ^u d3 in
      let bc0 := t <<u 28 |u t >>u (64 - 28) in
      let t := a9 ^u d4 in
      let bc1 := t <<u 20 |u t >>u (64 - 20) in
      let a15 := bc0 ^u (bc2 &^u bc1) in
      let a1 := bc1 ^u (bc3 &^u bc2) in
      let a12 := bc2 ^u (bc4 &^u bc3) in
      let a23 := bc3 ^u (bc0 &^u bc4) in
      let a9 := bc4 ^u (bc1 &^u bc0) in
      let t := a5 ^u d0 in
      let bc4 := t <<u 18 |u t >>u (64 - 18) in
      let t := a16 ^u d1 in
      let bc0 := t <<u 1 |u t >>u (64 - 1) in
      let t := a2 ^u d2 in
      let bc1 := t <<u 6 |u t >>u (64 - 6) in
      let t := a13 ^u d3 in
      let bc2 := t <<u 25 |u t >>u (64 - 25) in
      let t := a24 ^u d4 in
      let bc3 := t <<u 8 |u t >>u (64 - 8) in
      let a5 := bc0 ^u (bc2 &^u bc1) in
      let a16 := bc1 ^u (bc3 &^u bc2) in
      let a2 := bc2 ^u (bc4 &^u bc3) in
      let a13 := bc3 ^u (bc0 &^u bc4) in
      let a24 := bc4 ^u (bc1 &^u bc0) in
      let t := a20 ^u d0 in
      let bc1 := t <<u 36 |u t >>u (64 - 36) in
      let t := a6 ^u d1 in
      let bc2 := t <<u 10 |u t >>u (64 - 10) in
      let t := a17 ^u d2 in
      let bc3 := t <<u 15 |u t >>u (64 - 15) in
      let t := a3 ^u d3 in
      let bc4 := t <<u 56 |u t >>u (64 - 56) in
      let t := a14 ^u d4 in
      let bc0 := t <<u 27 |u t >>u (64 - 27) in
      let a20 := bc0 ^u (bc2 &^u bc1) in
      let a6 := bc1 ^u (bc3 &^u bc2) in
      let a17 := bc2 ^u (bc4 &^u bc3) in
      let a3 := bc3 ^u (bc0 &^u bc4) in
      let a14 := bc4 ^u (bc1 &^u bc0) in
      let t := a10 ^u d0 in
      let bc3 := t <<u 41 |u t >>u (64 - 41) in
      let t := a21 ^u d1 in
      let bc4 := t <<u 2 |u t >>u (64 - 2) in
      let t := a7 ^u d2 in
      let bc0 := t <<u 62 |u t >>u (64 - 62) in
      let t := a18 ^u d3 in
      let bc1 := t <<u 55 |u t >>u (64 - 55) in
      let t := a4 ^u d4 in
      let bc2 := t <<u 39 |u t >>u (64 - 39) in
      let a10 := bc0 ^u (bc2 &^u bc1) in
      let a21 := bc1 ^u (bc3 &^u bc2) in
      let a7 := bc2 ^u (bc4 &^u bc3) in
      let a18 := bc3 ^u (bc0 &^u bc4) in
      let a4 := bc4 ^u (bc1 &^u bc0) in
      [a0; a1; a2; a3; a4; a5; a6; a7; a8; a9; a10; a11; a12; a13; a14; a15; a16; a17; a18; a19;
       a20; a21; a22; a23; a24]
  | _ => a
  end.

(** Round 4 of the unrolled loop. *)
Definition keccak_round4 (rc_i : Z) (a : list Z) : list Z :=
  match a with
  | [a0; a1; a2; a3; a4; a5; a6; a7; a8; a9; a10; a11; a12; a13; a14; a15; a16; a17; a18; a19;
     a20; a21; a22; a23; a24] =>
      let bc0 := a0 ^u a5 ^u a10 ^u a15 ^u a20 in
      let bc1 := a1 ^u a6 ^u a11 ^u a16 ^u a21 in
      let bc2 := a2 ^u a7 ^u a12 ^u a17 ^u a22 in
      let bc3 := a3 ^u a8 ^u a13 ^u a18 ^u a23 in
      let bc4 := a4 ^u a9 ^u a14 ^u a19 ^u a24 in
      let d0 := bc4 ^u (bc1 <<u 1 |u bc1 >>u 63) in
      let d1 := bc0 ^u (bc2 <<u 1 |u bc2 >>u 63) in
      let d2 := bc1 ^u (bc3 <<u 1 |u bc3 >>u 63) in
      let d3 := bc2 ^u (bc4 <<u 1 |u bc4 >>u 63) in
      let d4 := bc3 ^u (bc0 <<u 1 |u bc0 >>u 63) in
      let bc0 := a0 ^u d0 in
      let t := a1 ^u d1 in
      let bc1 := t <<u 44 |u t >>u (64 - 44) in
      let t := a2 ^u d2 in
      let bc2 := t <<u 43 |u t >>u (64 - 43) in
      let t := a3 ^u d3 in
      let bc3 := t <<u 21 |u t >>u (64 - 21) in
      let t := a4 ^u d4 in
      let bc4 := t <<u 14 |u t >>u (64 - 14) in
      let a0 := bc0 ^u (bc2 &^u bc1) ^u rc_i in
      let a1 := bc1 ^u (bc3 &^u bc2) in
      let a2 := bc2 ^u (bc4 &^u bc3) in
      let a3 := bc3 ^u (bc0 &^u bc4) in
      let a4 := bc4 ^u (bc1 &^u bc0) in
      let t := a5 ^u d0 in
      let bc2 := t <<u 3 |u t >>u (64 - 3) in
      let t := a6 ^u d1 in
      let bc3 := t <<u 45 |u t >>u (64 - 45) in
      let t := a7 ^u d2 in
      let bc4 := t <<u 61 |u t >>u (64 - 61) in
      let t := a8 ^u d3 in
      let bc0 := t <<u 28 |u t >>u (64 - 28) in
      let t := a9 ^u d4 in
      let bc1 := t <<u 20 |u t >>u (64 - 20) in
      let a5 := bc0 ^u (bc2 &^u bc1) in
      let a6 := bc1 ^u (bc3 &^u bc2) in
      let a7 := bc2 ^u (bc4 &^u bc3) in
      let a8 := bc3 ^u (bc0 &^u bc4) in
      let a9 := bc4 ^u (bc1 &^u bc0) in
      let t := a10 ^u d0 in
      let bc4 := t <<u 18 |u t >>u (64 - 18) in
      let t := a11 ^u d1 in
      let bc0 := t <<u 1 |u t >>u (64 - 1) in
      let t := a12 ^u d2 in
      let bc1 := t <<u 6 |u t >>u (64 - 6) in
      let t := a13 ^u d3 in
      let bc2 := t <<u 25 |u t >>u (64 - 25) in
      let t := a14 ^u d4 in
      let bc3 := t <<u 8 |u t >>u (64 - 8) in
      let a10 := bc0 ^u (bc2 &^u bc1) in
      let a11 := bc1 ^u (bc3 &^u bc2) in
      let a12 := bc2 ^u (bc4 &^u bc3) in
      let a13 := bc3 ^u (bc0 &^u bc4) in
      let a14 := bc4 ^u (bc1 &^u bc0) in
      let t := a15 ^u d0 in
      let bc1 := t <<u 36 |u t >>u (64 - 36) in
      let t := a16 ^u d1 in
      let bc2 := t <<u 10 |u t >>u (64 - 10) in
      let t := a17 ^u d2 in
      let bc3 := t <<u 15 |u t >>u (64 - 15) in
      let t := a18 ^u d3 in
      let bc4 := t <<u 56 |u t >>u (64 - 56) in
      let t := a19 ^u d4 in
      let bc0 := t <<u 27 |u t >>u (64 - 27) in
      let a15 := bc0 ^u (bc2 &^u bc1) in
      let a16 := bc1 ^u (bc3 &^u bc2) in
      let a17 := bc2 ^u (bc4 &^u bc3) in
      let a18 := bc3 ^u (bc0 &^u bc4) in
      let a19 := bc4 ^u (bc1 &^u bc0) in
      let t := a20 ^u d0 in
      let bc3 := t <<u 41 |u t >>u (64 - 41) in
      let t := a21 ^u d1 in
      let bc4 := t <<u 2 |u t >>u (64 - 2) in
      let t := a22 ^u d2 in
      let bc0 := t <<u 62 |u t >>u (64 - 62) in
      let t := a23 ^u d3 in
      let bc1 := t <<u 55 |u t >>u (64 - 55) in
      let t := a24 ^u d4 in
      let bc2 := t <<u 39 |u t >>u (64 - 39) in
      let a20 := bc0 ^u (bc2 &^u bc1) in
      let a21 := bc1 ^u (bc3 &^u bc2) in
      let a22 := bc2 ^u (bc4 &^u bc3) in
      let a23 := bc3 ^u (bc0 &^u bc4) in
      let a24 := bc4 ^u (bc1 &^u bc0) in
      [a0; a1; a2; a3; a4; a5; a6; a7; a8; a9; a10; a11; a12; a13; a14; a15; a16; a17; a18; a19;
       a20; a21; a22; a23; a24]
  | _ => a
  end.
(** The loop over [i = 0, 4, ..., 20]. *)
Definition keccakF1600 (a : list Z) : list Z :=
  foldl (fun a i =>
    let r j := nth (i + j) rc 0 in
    keccak_round4 (r 3%nat) (keccak_round3 (r 2%nat)
      (keccak_round2 (r 1%nat) (keccak_round1 (r 0%nat) a)))) a [0; 4; 8; 12; 16; 20]%nat.

(** ** xor_generic.go *)

Definition LittleEndian_Uint64 (b : bytes) : Z := SetBytes (rev (take 8 b)).
Definition LittleEndian_PutUint64 (v : Z) : bytes := rev (be_bytes 8 v).

Fixpoint xorInGeneric_loop (n : nat) (a : list Z) (buf : bytes) : list Z :=
  match n, a with
  | S n, x :: a => x ^u LittleEndian_Uint64 buf :: xorInGeneric_loop n a (drop 8 buf)
  | _, _ => a
  end.
Definition xorInGeneric (a : list Z) (buf : bytes) : list Z :=
  xorInGeneric_loop (length buf / 8) a buf.

(** The bytes written to a buffer of [len] bytes, a multiple of eight. *)
Definition copyOutGeneric (a : list Z) (len : nat) : bytes :=
  concat (map LittleEndian_PutUint64 (take (len / 8) a)).

(** ** sha3.go *)

Inductive spongeDirection := spongeAbsorbing | spongeSqueezing.

(** [k_buf] holds the bytes [d.buf] points to. *)
Record state := mkState {
  k_a : list Z;
  k_buf : bytes;
  k_rate : nat;
  k_dsbyte : Z;
  k_outputLen : nat;
  k_state : spongeDirection;
}.

Definition NewKeccak256 : state := mkState (replicate 25 0) [] 136 1 32 spongeAbsorbing.

Definition permute (d : state) : state :=
  match k_state d with
  | spongeAbsorbing =>
      mkState (keccakF1600 (xorInGeneric (k_a d) (k_buf d))) [] (k_rate d) (k_dsbyte d)
        (k_outputLen d) (k_state d)
  | spongeSqueezing =>
      let a := keccakF1600 (k_a d) in
      mkState a (copyOutGeneric a (k_rate d)) (k_rate d) (k_dsbyte d) (k_outputLen d) (k_state d)
  end.

Definition padAndPermute (d : state) (dsbyte : Z) : state :=
  let buf := k_buf d ++ [dsbyte] in
  let zerosStart := length buf in
  let buf := buf ++ replicate (k_rate d - zerosStart) 0 in
  let buf := alter (fun b => b ^u 128) (k_rate d - 1)%nat buf in
  let d := permute (mkState (k_a d) buf (k_rate d) (k_dsbyte d) (k_outputLen d) (k_state d)) in
  mkState (k_a d) (copyOutGeneric (k_a d) (k_rate d)) (k_rate d) (k_dsbyte d) (k_outputLen d)
    spongeSqueezing.

(** One round of the loop of [Write] consumes a byte at least, so the length of
    the input is enough fuel. *)
Fixpoint Write_loop (fuel : nat) (d : state) (p : bytes) : outcome state :=
  match p with
  | [] => Done d
  | _ =>
      match fuel with
      | O => OutOfFuel
      | S fuel =>
          if (length (k_buf d) =? 0)%nat && (k_rate d <=? length p)%nat then
            Write_loop fuel
              (mkState (keccakF1600 (xorInGeneric (k_a d) (take (k_rate d) p))) (k_buf d)
                 (k_rate d) (k_dsbyte d) (k_outputLen d) (k_state d))
              (drop (k_rate d) p)
          else
            let todo := Nat.min (k_rate d - length (k_buf d)) (length p) in
            let d := mkState (k_a d) (k_buf d ++ take todo p) (k_rate d) (k_dsbyte d)
                       (k_outputLen d) (k_state d) in
            Write_loop fuel (if (length (k_buf d) =? k_rate d)%nat then permute d else d)
              (drop todo p)
      end
  end.

Definition Write (d : state) (p : bytes) : outcome state :=
  match k_state d with
  | spongeAbsorbing => Write_loop (length p) d p
  | spongeSqueezing => Panic "sha3: write to sponge after read"
  end.

(** [Read] of [n] bytes; every round copies a byte at least. *)
Fixpoint Read_loop (fuel n : nat) (d : state) : outcome (bytes * state) :=
  match n with
  | O => Done ([], d)
  | _ =>
      match fuel with
      | O => OutOfFuel
      | S fuel =>
          let k := Nat.min n (length (k_buf d)) in
          let d' := mkState (k_a d) (drop k (k_buf d)) (k_rate d) (k_dsbyte d) (k_outputLen d)
                      (k_state d) in
          let d' := if (length (k_buf d') =? 0)%nat then permute d' else d' in
          let? r := Read_loop fuel (n - k) d' in
          Done (take k (k_buf d) ++ r.1, r.2)
      end
  end.

Definition Read (d : state) (n : nat) : outcome (bytes * state) :=
  let d := match k_state d with
           | spongeAbsorbing => padAndPermute d (k_dsbyte d)
           | spongeSqueezing => d
           end in
  Read_loop n n d.

Definition Sum (d : state) (in_ : bytes) : outcome bytes :=
  let? r := Read d (k_outputLen d) in Done (in_ ++ r.1).

(** ** crypto.go *)

Fixpoint Writes (d : state) (data : list bytes) : outcome state :=
  match data with
  | [] => Done d
  | b :: data => let? d := Write d b in Writes d data
  end.

Definition Keccak256 (data : list bytes) : outcome bytes :=
  let? d := Writes NewKeccak256 data in Sum d [].

Definition Keccak256Hash (data : list bytes) : outcome Hash :=
  let? b := Keccak256 data in Done (BytesToHash b).

(** ** The reference

    The state is 25 lanes of 64 bits, the lane (x, y) at 5 y + x. *)
Module Reference.

Definition lane (a : list Z) (x y : nat) : Z := nth (5 * (y mod 5) + x mod 5)%nat a 0.
Definition tabulate (f : nat → nat → Z) : list Z :=
  map (fun i => f (i mod 5)%nat (i / 5)%nat) (seq 0 25).

Definition rotl (v : Z) (n : Z) : Z :=
  if n =? 0 then v else v <<u n |u v >>u (64 - n).

Definition theta_C (a : list Z) (x : nat) : Z :=
  foldr Z.lxor 0 (map (lane a x) (seq 0 5)).
Definition theta_D (a : list Z) (x : nat) : Z :=
  theta_C a ((x + 4) mod 5)%nat ^u rotl (theta_C a ((x + 1) mod 5)%nat) 1.
Definition theta (a : list Z) : list Z := tabulate (fun x y => lane a x y ^u theta_D a x).

Definition rho_offset (x y : nat) : Z :=
  nth (5 * y + x)%nat [ 0;  1; 62; 28; 27;
                   36; 44;  6; 55; 20;
                    3; 10; 43; 25; 39;
                   41; 45; 15; 21;  8;
                   18;  2; 61; 56; 14] 0.
Definition rho (a : list Z) : list Z := tabulate (fun x y => rotl (lane a x y) (rho_offset x y)).

Definition pi (a : list Z) : list Z := tabulate (fun x y => lane a (x + 3 * y) x).

Definition chi (a : list Z) : list Z :=
  tabulate (fun x y => lane a x y ^u (lane a (x + 2) y &^u lane a (x + 1) y)).

Definition iota (rc_i : Z) (a : list Z) : list Z :=
  match a with a0 :: a => a0 ^u rc_i :: a | [] => [] end.

Definition round (a : list Z) (rc_i : Z) : list Z := iota rc_i (chi (pi (rho (theta a)))).

(** The round constants by the shift register of the standard: bit [2^j - 1] of
    the constant of round [i] is the output of the register after [j + 7i] steps. *)
Fixpoint register (n : nat) (r : Z) : Z :=
  match n with
  | O => r
  | S n => register n (let r := 2 * r in if Z.testbit r 8 then Z.lxor r 0x171 else r)
  end.
Definition round_constant (i : nat) : Z :=
  foldr Z.lor 0 (map (fun j => if Z.odd (register (j + 7 * i) 1) then 2 ^ (2 ^ Z.of_nat j - 1) else 0) (seq 0 7)).
Definition round_constants : list Z := Eval vm_compute in map round_constant (seq 0 24).

Definition keccak_f (a : list Z) : list Z := foldl round a round_constants.

(** Multi-rate padding with the domain bit of the original Keccak. *)
Definition pad (rate len : nat) : bytes :=
  let k := (rate - len mod rate)%nat in
  if (k =? 1)%nat then [129] else 1 :: replicate (k - 2) 0 ++ [128].

(** Lanes are eight bytes, the lowest first. *)
Definition lane_of (b : bytes) : Z := foldr (fun x r => x + 256 * r) 0 b.
Definition bytes_of (v : Z) : bytes := map (fun i => v / 256 ^ Z.of_nat i mod 256) (seq 0 8).

(** A block goes into the first lanes. *)
Definition add_block (a : list Z) (block : bytes) : list Z :=
  tabulate (fun x y => lane a x y ^u lane_of (take 8 (drop (8 * (5 * y + x)) block))).

Fixpoint absorb (n rate : nat) (a : list Z) (m : bytes) : list Z :=
  match n with
  | O => a
  | S n => absorb n rate (keccak_f (add_block a (take rate m))) (drop rate m)
  end.

(** Absorb the padded message block by block, then output the first lanes. *)
Definition keccak256 (m : bytes) : bytes :=
  let p := m ++ pad 136 (length m) in
  take 32 (concat (map bytes_of
                     (absorb (length p / 136) 136 (replicate 25 0) p))).

End Reference.

(** The hash of the empty string, [emptyCodeHash] of the state package. *)
Example keccak256_empty :
  Keccak256Hash [[]] = Done 0xc5d2460186f7233c927e7db2dcc703c0e500b653ca82273b7bfad8045d85a470.
Proof. vm_compute. reflexivity. Qed.
