(* ===== verification/KeccakFacts.v ===== *)
(** * The Keccak code computes Keccak-256

    The unrolled permutation works in place: after each of its four rounds the
    lanes sit at other places of the array, and after four rounds they are back
    ([logical] reads them in order). The sponge buffers its input in pieces of
    any length; the hash depends on their concatenation only. *)

From stdpp Require Import base list strings.
From Stdlib Require Import ZArith Lia Permutation.
From S2P Require Import Prelude Bytes Keccak.
Import Reference.

(** ** The permutation *)

(** The place of the lane (x, y) after [k] of the four rounds. *)
Definition layout (k x y : nat) : nat :=
  match k with
  | 1 => 5 * ((x + 2 * y) mod 5) + x
  | 2 => 5 * ((3 * x + 4 * y) mod 5) + x
  | 3 => 5 * ((2 * x + 3 * y) mod 5) + x
  | _ => 5 * y + x
  end%nat.

Definition logical (k : nat) (a : list Z) : list Z :=
  tabulate (fun x y => nth (layout k x y) a 0).

Definition xors (l : list Z) : Z := foldr Z.lxor 0 l.

Lemma xors_perm l1 l2 : l1 ≡ₚ l2 → xors l1 = xors l2.
Proof.
  unfold xors. induction 1; simpl; [done|congruence| |congruence].
  by rewrite !Z.lxor_assoc, (Z.lxor_comm x y) || rewrite <- !Z.lxor_assoc, (Z.lxor_comm x y).
Qed.

Lemma xors5 a b c d e : xors [a; b; c; d; e] = (a ^u b ^u c ^u d ^u e)%u64.
Proof. unfold xors. simpl. by rewrite Z.lxor_0_r, !Z.lxor_assoc. Qed.

(** A column has the same lanes in every layout. *)
Lemma theta_C_logical k a x :
  (k <= 3)%nat → (x < 5)%nat → theta_C (logical k a) x = theta_C a x.
Proof.
  intros Hk Hx. unfold theta_C, logical. fold (xors (map (lane a x) (seq 0 5))).
  match goal with |- foldr Z.lxor 0 ?l = _ => change (xors l = xors (map (lane a x) (seq 0 5))) end.
  apply xors_perm.
  assert (k = 0 ∨ k = 1 ∨ k = 2 ∨ k = 3)%nat as [-> | [-> | [-> | ->]]] by lia;
    assert (x = 0 ∨ x = 1 ∨ x = 2 ∨ x = 3 ∨ x = 4)%nat as [-> | [-> | [-> | [-> | ->]]]] by lia;
    cbn -[nth]; solve_Permutation.
Qed.

Lemma lanes25 (a : list Z) : length a = 25%nat →
  ∃ a0 a1 a2 a3 a4 a5 a6 a7 a8 a9 a10 a11 a12 a13 a14 a15 a16 a17 a18 a19 a20 a21 a22 a23 a24,
  a = [a0; a1; a2; a3; a4; a5; a6; a7; a8; a9; a10; a11; a12; a13; a14; a15; a16; a17; a18; a19;
       a20; a21; a22; a23; a24].
Proof. intros H. do 25 (destruct a as [|? a]; [done|]). destruct a; [|done]. by repeat eexists. Qed.

(** Evaluates the reference and the code down to expressions over the lanes; the
    column sums of the reference are those the code computes. *)
Ltac eval_lanes t :=
  eval cbv [logical tabulate layout map seq nth lane Nat.add Nat.mul Nat.modulo Nat.div Nat.divmod
            Nat.sub fst snd round iota chi pi rho theta theta_D rotl rho_offset
            keccak_round1 keccak_round2 keccak_round3 keccak_round4
            Z.eqb Pos.eqb] in t.
Ltac column k l x :=
  let E := fresh "E" in
  assert (E := theta_C_logical k l x ltac:(lia) ltac:(lia));
  let L := eval cbv [theta_C lane map seq nth Nat.add Nat.mul Nat.modulo Nat.divmod Nat.sub fst snd]
    in (theta_C l x) in
  change (theta_C l x) with L in E;
  match type of E with _ = foldr Z.lxor 0 ?c => change (foldr Z.lxor 0 c) with (xors c) in E end;
  rewrite xors5 in E;
  let T := type of E in let T' := eval_lanes T in change T' in E;
  match goal with |- ?G => let G' := eval_lanes G in change G' end;
  rewrite E; clear E.
Ltac solve_round k :=
  match goal with
  | |- logical _ _ = round (logical _ ?l) _ =>
      column k l 0%nat; column k l 1%nat; column k l 2%nat; column k l 3%nat; column k l 4%nat
  end; reflexivity.

Lemma keccak_round1_logical rc_i a :
  length a = 25%nat → logical 1 (keccak_round1 rc_i a) = round (logical 0 a) rc_i.
Proof.
  intros H. destruct (lanes25 a H) as
    (a0&a1&a2&a3&a4&a5&a6&a7&a8&a9&a10&a11&a12&a13&a14&a15&a16&a17&a18&a19&a20&a21&a22&a23&a24&->).
  solve_round 0%nat.
Qed.

Lemma keccak_round2_logical rc_i a :
  length a = 25%nat → logical 2 (keccak_round2 rc_i a) = round (logical 1 a) rc_i.
Proof.
  intros H. destruct (lanes25 a H) as
    (a0&a1&a2&a3&a4&a5&a6&a7&a8&a9&a10&a11&a12&a13&a14&a15&a16&a17&a18&a19&a20&a21&a22&a23&a24&->).
  solve_round 1%nat.
Qed.

Lemma keccak_round3_logical rc_i a :
  length a = 25%nat → logical 3 (keccak_round3 rc_i a) = round (logical 2 a) rc_i.
Proof.
  intros H. destruct (lanes25 a H) as
    (a0&a1&a2&a3&a4&a5&a6&a7&a8&a9&a10&a11&a12&a13&a14&a15&a16&a17&a18&a19&a20&a21&a22&a23&a24&->).
  solve_round 2%nat.
Qed.

Lemma keccak_round4_logical rc_i a :
  length a = 25%nat → logical 0 (keccak_round4 rc_i a) = round (logical 3 a) rc_i.
Proof.
  intros H. destruct (lanes25 a H) as
    (a0&a1&a2&a3&a4&a5&a6&a7&a8&a9&a10&a11&a12&a13&a14&a15&a16&a17&a18&a19&a20&a21&a22&a23&a24&->).
  solve_round 3%nat.
Qed.

Lemma logical0 a : length a = 25%nat → logical 0 a = a.
Proof.
  intros H. destruct (lanes25 a H) as
    (a0&a1&a2&a3&a4&a5&a6&a7&a8&a9&a10&a11&a12&a13&a14&a15&a16&a17&a18&a19&a20&a21&a22&a23&a24&->).
  reflexivity.
Qed.

Lemma keccak_rounds_length rc_i a :
  length a = 25%nat →
  length (keccak_round1 rc_i a) = 25%nat ∧ length (keccak_round2 rc_i a) = 25%nat ∧
  length (keccak_round3 rc_i a) = 25%nat ∧ length (keccak_round4 rc_i a) = 25%nat.
Proof.
  intros H. destruct (lanes25 a H) as
    (a0&a1&a2&a3&a4&a5&a6&a7&a8&a9&a10&a11&a12&a13&a14&a15&a16&a17&a18&a19&a20&a21&a22&a23&a24&->).
  repeat split.
Qed.

(** Four rounds in place are four rounds of the reference. *)
Lemma keccak_rounds a r1 r2 r3 r4 :
  length a = 25%nat →
  keccak_round4 r4 (keccak_round3 r3 (keccak_round2 r2 (keccak_round1 r1 a))) =
    round (round (round (round a r1) r2) r3) r4 ∧
  length (keccak_round4 r4 (keccak_round3 r3 (keccak_round2 r2 (keccak_round1 r1 a)))) = 25%nat.
Proof.
  intros H.
  pose proof (proj1 (keccak_rounds_length r1 a H)) as H1.
  pose proof (proj1 (proj2 (keccak_rounds_length r2 _ H1))) as H2.
  pose proof (proj1 (proj2 (proj2 (keccak_rounds_length r3 _ H2)))) as H3.
  pose proof (proj2 (proj2 (proj2 (keccak_rounds_length r4 _ H3)))) as H4.
  split; [|done]. rewrite <- (logical0 _ H4), keccak_round4_logical, keccak_round3_logical,
    keccak_round2_logical, keccak_round1_logical by done. by rewrite logical0.
Qed.

Lemma keccakF1600_ref a :
  length a = 25%nat → keccakF1600 a = keccak_f a ∧ length (keccakF1600 a) = 25%nat.
Proof.
  intros H. unfold keccakF1600, keccak_f.
  assert (Hstep : ∀ idx a, length a = 25%nat →
    let step a i :=
      let r j := nth (i + j) rc 0 in
      keccak_round4 (r 3%nat) (keccak_round3 (r 2%nat)
        (keccak_round2 (r 1%nat) (keccak_round1 (r 0%nat) a))) in
    foldl step a idx = foldl round a (concat (map (fun i => map (fun j => nth (i + j) rc 0) [0; 1; 2; 3]%nat) idx))
    ∧ length (foldl step a idx) = 25%nat).
  { induction idx as [|i idx IH]; intros b Hb; [done|]. cbn [foldl map concat app].
    destruct (keccak_rounds b (nth (i + 0) rc 0) (nth (i + 1) rc 0) (nth (i + 2) rc 0)
      (nth (i + 3) rc 0) Hb) as [E Hl].
    rewrite E in *. by apply IH. }
  destruct (Hstep [0; 4; 8; 12; 16; 20]%nat a H) as [E Hl]. split; [|exact Hl].
  cbv zeta in E. rewrite E. reflexivity.
Qed.

(** ** The sponge *)

Lemma xorInGeneric_length a buf : length (xorInGeneric a buf) = length a.
Proof.
  unfold xorInGeneric. generalize (length buf / 8)%nat. intros n. revert a buf.
  induction n as [|n IH]; intros [|x a] buf; simpl; auto.
Qed.

(** The bytes of a lane, read and written. *)
Lemma lane_of_bytes b : LittleEndian_Uint64 b = lane_of (take 8 b).
Proof.
  unfold LittleEndian_Uint64, lane_of. induction (take 8 b) as [|x l IH]; [done|].
  cbn [rev foldr]. rewrite SetBytes_snoc, IH. lia.
Qed.
Lemma bytes_of_lane v : LittleEndian_PutUint64 v = bytes_of v.
Proof.
  unfold LittleEndian_PutUint64, bytes_of.
  assert (H : ∀ n k, rev (be_bytes n (v / 256 ^ Z.of_nat k)) = map (fun i => v / 256 ^ Z.of_nat i mod 256) (seq k n)).
  { induction n as [|n IH]; intros k; [done|]. cbn [be_bytes seq map]. rewrite rev_unit. f_equal.
    rewrite <- (IH (S k)), Nat2Z.inj_succ, Z.pow_succ_r, Z.div_div, (Z.mul_comm 256) by lia. done. }
  specialize (H 8%nat 0%nat). by rewrite Z.div_1_r in H.
Qed.

Lemma xorIn_nth n a buf i :
  (n <= length a)%nat →
  nth i (xorInGeneric_loop n a buf) 0 =
    nth i a 0 ^u (if (i <? n)%nat then LittleEndian_Uint64 (drop (8 * i) buf) else 0).
Proof.
  revert a buf i. induction n as [|n IH]; intros a buf i Hn.
  { destruct a; cbn [xorInGeneric_loop]; by rewrite Z.lxor_0_r. }
  destruct a as [|x a]; [simpl in Hn; lia|]. destruct i as [|i]; [done|]. cbn [xorInGeneric_loop nth].
  rewrite IH by (simpl in Hn; lia). change (S i <? S n)%nat with (i <? n)%nat.
  by replace (8 * S i)%nat with (8 + 8 * i)%nat by lia; rewrite drop_drop.
Qed.
Lemma xorIn_add a block :
  length a = 25%nat → length block = 136%nat → xorInGeneric a block = add_block a block.
Proof.
  intros Ha Hb. apply (nth_ext _ _ 0 0); [by rewrite xorInGeneric_length, Ha|]. rewrite xorInGeneric_length, Ha.
  intros i Hi. unfold xorInGeneric. rewrite Hb, xorIn_nth by (rewrite Ha; vm_compute; lia). unfold add_block, tabulate.
  set (f := fun i => _). rewrite (nth_indep (map f (seq 0 25)) 0 (f 0%nat)) by exact Hi.
  rewrite (map_nth f (seq 0 25) 0%nat i), seq_nth by done. unfold f. rewrite Nat.add_0_l.
  assert (Hm : (5 * (i / 5) + i mod 5)%nat = i) by (pose proof (Nat.div_mod_eq i 5); lia).
  unfold lane. rewrite (Nat.mod_small (i / 5)) by (apply Nat.Div0.div_lt_upper_bound; lia).
  rewrite Nat.Div0.mod_mod, Hm. f_equal. rewrite lane_of_bytes.
  destruct (Nat.ltb_spec i (136 / 8)) as [|Hge]; [done|]. change (136 / 8)%nat with 17%nat in Hge.
  by rewrite (drop_ge block) by lia.
Qed.

Lemma absorb_length n r a m : length a = 25%nat → length (absorb n r a m) = 25%nat.
Proof.
  revert a m. induction n as [|n IH]; intros a m H; [done|]. simpl. apply IH.
  assert (Hx : length (add_block a (take r m)) = 25%nat) by done.
  destruct (keccakF1600_ref _ Hx) as [<- ?]. done.
Qed.

Lemma absorb_app n1 n2 r a m1 m2 :
  length m1 = (n1 * r)%nat →
  absorb (n1 + n2) r a (m1 ++ m2) = absorb n2 r (absorb n1 r a m1) m2.
Proof.
  revert a m1. induction n1 as [|n1 IH]; intros a m1 H.
  { destruct m1; [done|]. simpl in H. lia. }
  cbn [Nat.add absorb]. rewrite take_app_le, drop_app_le by (simpl in H; lia).
  apply IH. rewrite length_drop. simpl in H. lia.
Qed.

(** The sponge after the message [m]: the full blocks are absorbed, the rest is
    buffered. *)
Record absorbed (d : state) (m : bytes) : Prop := {
  ab_state : k_state d = spongeAbsorbing;
  ab_rate : k_rate d = 136%nat;
  ab_ds : k_dsbyte d = 1;
  ab_out : k_outputLen d = 32%nat;
  ab_lanes : length (k_a d) = 25%nat;
  ab_split : ∃ n full, m = full ++ k_buf d ∧ length full = (n * 136)%nat ∧
    k_a d = absorb n 136 (replicate 25 0) full;
  ab_buf : (length (k_buf d) < 136)%nat;
}.

Lemma absorbed_new : absorbed NewKeccak256 [].
Proof. split; try done; [by exists 0%nat, []|simpl; lia]. Qed.

(** Absorbing one more block, from the buffer or directly from the input. *)
Lemma absorbed_block a block n full (buf : bytes) :
  length a = 25%nat → length block = 136%nat → length full = (n * 136)%nat →
  a = absorb n 136 (replicate 25 0) full →
  length (keccakF1600 (xorInGeneric a block)) = 25%nat ∧
  length (full ++ block) = (S n * 136)%nat ∧
  keccakF1600 (xorInGeneric a block) = absorb (S n) 136 (replicate 25 0) (full ++ block).
Proof.
  intros Ha Hb Hf ->.
  assert (Hx : length (xorInGeneric (absorb n 136 (replicate 25 0) full) block) = 25%nat)
    by (by rewrite xorInGeneric_length).
  destruct (keccakF1600_ref _ Hx) as [E Hl]. split_and!; [done|rewrite length_app; lia|].
  rewrite <- (Nat.add_1_r n), absorb_app by done. cbn [absorb]. rewrite E.
  rewrite take_ge by lia. by rewrite xorIn_add by (done || by apply absorb_length).
Qed.

Lemma Write_loop_cons fuel d p :
  (0 < length p)%nat →
  Write_loop (S fuel) d p =
  if (length (k_buf d) =? 0)%nat && (k_rate d <=? length p)%nat then
    Write_loop fuel
      (mkState (keccakF1600 (xorInGeneric (k_a d) (take (k_rate d) p))) (k_buf d)
         (k_rate d) (k_dsbyte d) (k_outputLen d) (k_state d)) (drop (k_rate d) p)
  else
    let todo := Nat.min (k_rate d - length (k_buf d)) (length p) in
    let d := mkState (k_a d) (k_buf d ++ take todo p) (k_rate d) (k_dsbyte d)
               (k_outputLen d) (k_state d) in
    Write_loop fuel (if (length (k_buf d) =? k_rate d)%nat then permute d else d) (drop todo p).
Proof. destruct p; [simpl; lia|]. reflexivity. Qed.

Lemma Write_loop_ok fuel d m p :
  absorbed d m → (length p <= fuel)%nat →
  ∃ d', Write_loop fuel d p = Done d' ∧ absorbed d' (m ++ p).
Proof.
  revert d m p. induction fuel as [|fuel IH]; intros d m p Hd Hf.
  { destruct p; [|simpl in Hf; lia]. exists d. by rewrite app_nil_r. }
  destruct p as [|x p0] eqn:Ep; [exists d; by rewrite app_nil_r|]. rewrite <- Ep in *.
  assert (Hp : (0 < length p)%nat) by (rewrite Ep; simpl; lia).
  assert (Hgoal : ∀ d1 k, (0 < k)%nat → absorbed d1 (m ++ take k p) →
    ∃ d', Write_loop fuel d1 (drop k p) = Done d' ∧ absorbed d' (m ++ p)).
  { intros d1 k Hk Hd1. destruct (IH d1 _ (drop k p) Hd1) as (d' & -> & Hd').
    - rewrite length_drop. lia.
    - exists d'. rewrite <- app_assoc, take_drop in Hd'. done. }
  rewrite (Write_loop_cons fuel d p) by lia.
  destruct Hd as [Hs Hr Hds Hout Ha (n & full & Hm & Hlen & Habs) Hb]. rewrite Hr in *.
  destruct ((length (k_buf d) =? 0)%nat && (136 <=? length p)%nat) eqn:Efast.
  - apply andb_true_iff in Efast as [E1%Nat.eqb_eq E2%Nat.leb_le]. apply nil_length_inv in E1.
    apply Hgoal; [lia|]. assert (Ht : length (take 136 p) = 136%nat) by (rewrite length_take; lia).
    destruct (absorbed_block _ _ _ _ (k_buf d) Ha Ht Hlen Habs) as (H1 & H2 & H3).
    split; try done. exists (S n), (full ++ take 136 p). cbn [k_buf k_a].
    rewrite Hm, E1, !app_nil_r. done.
  - cbn zeta. cbn [k_buf k_rate]. apply Hgoal; [lia|].
    set (todo := Nat.min (136 - length (k_buf d)) (length p)).
    assert (Ht : length (k_buf d ++ take todo p) = (length (k_buf d) + todo)%nat)
      by (rewrite length_app, length_take; lia).
    destruct (Nat.eqb_spec (length (k_buf d ++ take todo p)) 136) as [Efull|Enot].
    + destruct (absorbed_block _ _ _ _ (k_buf d) Ha Efull Hlen Habs) as (H1 & H2 & H3).
      unfold permute. cbn [k_state k_a k_buf]. rewrite Hs.
      split; cbn [k_buf k_state k_rate k_dsbyte k_outputLen k_a length]; try done; [|lia].
      exists (S n), (full ++ k_buf d ++ take todo p). cbn [k_buf k_a].
      rewrite Hm, app_nil_r, <- app_assoc. done.
    + split; try done; [|cbn [k_buf]; lia]. exists n, full. cbn [k_buf k_a].
      rewrite Hm, <- app_assoc. done.
Qed.

Lemma Writes_ok d m data :
  absorbed d m → ∃ d', Writes d data = Done d' ∧ absorbed d' (m ++ concat data).
Proof.
  revert d m. induction data as [|b data IH]; intros d m Hd; [exists d; by rewrite app_nil_r|].
  cbn [Writes concat]. unfold Write. rewrite (ab_state _ _ Hd).
  destruct (Write_loop_ok (length b) d m b Hd) as (d1 & -> & Hd1); [done|]. cbn [obind].
  destruct (IH d1 _ Hd1) as (d2 & -> & Hd2). exists d2. by rewrite app_assoc.
Qed.

(** What [padAndPermute] appends is the padding of the reference. *)
Lemma pad_ok (rest : bytes) len :
  (length rest < 136)%nat → (len mod 136 = length rest)%nat →
  alter (fun b => Z.lxor b 128) 135%nat
    ((rest ++ [1]) ++ replicate (136 - length (rest ++ [1])) 0) = rest ++ pad 136 len ∧
  length (rest ++ pad 136 len) = 136%nat.
Proof.
  intros Hr Hlen. unfold pad. rewrite Hlen, length_app. simpl length.
  destruct (Nat.eqb_spec (136 - length rest) 1) as [E|E].
  - replace (136 - (length rest + 1))%nat with 0%nat by lia. simpl replicate. rewrite app_nil_r.
    split; [|rewrite length_app; simpl; lia]. rewrite alter_app_r_alt by lia.
    by replace (135 - length rest)%nat with 0%nat by lia.
  - set (k := (136 - length rest - 2)%nat).
    replace (136 - (length rest + 1))%nat with (S k) by lia.
    rewrite <- app_assoc. cbn [app]. rewrite replicate_S_end.
    split; [|rewrite !length_app; cbn [length]; rewrite length_app, length_replicate; simpl; lia].
    rewrite alter_app_r_alt by lia. replace (135 - length rest)%nat with (S k) by lia.
    cbn [alter list_alter]. do 2 f_equal.
    rewrite alter_app_r_alt by (rewrite length_replicate; lia).
    by rewrite length_replicate, Nat.sub_diag.
Qed.

Lemma copyOut_take a :
  length a = 25%nat →
  length (copyOutGeneric a 136) = 136%nat ∧
  take 32 (copyOutGeneric a 136) = take 32 (concat (map bytes_of a)).
Proof.
  intros H. rewrite <- (map_ext _ _ bytes_of_lane a). unfold copyOutGeneric. change (136 / 8)%nat with 17%nat.
  assert (Hc : ∀ l, length (concat (map LittleEndian_PutUint64 l)) = (8 * length l)%nat).
  { induction l as [|x l IH]; [done|]. cbn [map concat length].
    rewrite length_app, IH. unfold LittleEndian_PutUint64. rewrite length_rev, length_be_bytes. lia. }
  split; [rewrite Hc, length_take; lia|].
  rewrite <- (take_drop 17 a) at 2. rewrite map_app, concat_app, take_app_le; [done|].
  rewrite Hc, length_take. lia.
Qed.

Lemma Read_loop_once n d :
  (0 < n < length (k_buf d))%nat → ∃ d', Read_loop n n d = Done (take n (k_buf d), d').
Proof.
  intros Hn. destruct n as [|n]; [lia|]. cbn [Read_loop]. rewrite Nat.min_l by lia.
  cbn [k_buf]. rewrite length_drop. destruct (Nat.eqb_spec (length (k_buf d) - S n) 0); [lia|].
  rewrite Nat.sub_diag. destruct n; cbn [Read_loop obind fst snd]; rewrite app_nil_r; by eexists.
Qed.

Lemma Sum_ok d m : absorbed d m → Sum d [] = Done (Reference.keccak256 m).
Proof.
  intros [Hs Hr Hds Hout Ha (n & full & Hm & Hlen & Habs) Hb]. unfold Sum, Read, padAndPermute, permute.
  cbn [k_state k_a k_buf k_rate k_dsbyte k_outputLen]. rewrite Hs, Hr, Hds, Hout.
  cbn [k_state k_a k_buf k_rate k_dsbyte k_outputLen].
  change (136 - 1)%nat with 135%nat.
  assert (Hmod : (length m mod 136 = length (k_buf d))%nat).
  { rewrite Hm, length_app, Hlen, Nat.add_comm, Nat.Div0.mod_add, Nat.mod_small by lia. done. }
  destruct (pad_ok (k_buf d) (length m) Hb Hmod) as [-> Hpl].
  destruct (absorbed_block _ _ _ _ (k_buf d) Ha Hpl Hlen Habs) as (H1 & H2 & ->).
  rewrite app_assoc, <- Hm in *. unfold Reference.keccak256. rewrite H2, Nat.div_mul by lia.
  set (a := absorb (S n) 136 (replicate 25 0) (m ++ pad 136 (length m))).
  assert (Hla : length a = 25%nat) by (by apply absorb_length).
  destruct (copyOut_take a Hla) as [Hcl Hct].
  destruct (Read_loop_once 32 (mkState a (copyOutGeneric a 136) 136 1 32 spongeSqueezing)) as [d' Hd'].
  { cbn [k_buf]. lia. }
  rewrite Hd'. cbn [obind fst k_buf]. by rewrite Hct.
Qed.

Lemma Keccak256_ok data : Keccak256 data = Done (Reference.keccak256 (concat data)).
Proof.
  unfold Keccak256. destruct (Writes_ok NewKeccak256 [] data absorbed_new) as (d & -> & Hd).
  cbn [obind]. by apply Sum_ok.
Qed.

Lemma keccak256_bytes m : length (Reference.keccak256 m) = 32%nat ∧ are_bytes (Reference.keccak256 m).
Proof.
  unfold Reference.keccak256. set (p := m ++ _).
  assert (Hl : length (absorb (length p / 136) 136 (replicate 25 0) p) = 25%nat) by by apply absorb_length.
  set (a := absorb _ _ _ _) in *. clearbody a. clear p m. split.
  - destruct (copyOut_take a Hl) as [Hc <-]. rewrite length_take, Hc. done.
  - apply Forall_take. clear Hl. induction a as [|x a IH]; cbn [map concat]; [constructor|].
    apply Forall_app_2; [|done]. rewrite <- bytes_of_lane. apply Forall_rev, be_bytes_are_bytes.
Qed.

(** The hash as a total function of the message. *)
Definition keccak (m : bytes) : Hash := BytesToHash (Reference.keccak256 m).

Lemma keccak_is_hash m : is_hash (keccak m).
Proof.
  destruct (keccak256_bytes m) as [Hl Hb]. unfold keccak. rewrite BytesToHash_short by lia.
  pose proof (SetBytes_range _ Hb) as Hr. by rewrite Hl in Hr.
Qed.

Lemma Keccak256Hash_ok data : Keccak256Hash data = Done (keccak (concat data)).
Proof. unfold Keccak256Hash. by rewrite Keccak256_ok. Qed.

(** ** Properties *)

(** C17: [Keccak256] never panics and computes Keccak-256: whatever pieces the
    message is written in, the result is the reference sponge (padding, block
    by block absorption with the five step round function, output of the first
    32 bytes) of their concatenation. *)
Theorem keccak256_correct data : Keccak256 data = Done (Reference.keccak256 (concat data)).
Proof. apply Keccak256_ok. Qed.

(** The in-place permutation with four unrolled rounds per iteration is the
    24-round permutation of the reference. *)
Theorem keccakF1600_correct a : length a = 25%nat → keccakF1600 a = keccak_f a.
Proof. intros H. by apply keccakF1600_ref. Qed.

Lemma keccakF1600_correct_witness :
  length (replicate 25 7) = 25%nat ∧ keccakF1600 (replicate 25 7) = keccak_f (replicate 25 7).
Proof. split; [reflexivity|]. apply keccakF1600_correct. reflexivity. Defined.
