(* ===== verification/Ticket.v ===== *)
(** * Tickets (common/ticket.go)

    The tickets of the chain, grouped by owner: [TicketsDataSlice] is a list of
    rows, one owner with the owner's tickets each. The file has the operations
    on the grouping and proves that they implement a multiset of tickets
    ([ToTicketSlice]) under the invariant [wf_tickets]: one row per owner, no
    empty row, no ticket ID twice. *)

From stdpp Require Import base list gmap strings.
From Stdlib Require Import ZArith Lia Permutation.
From S2P Require Import Prelude Bytes.

(** ** Data *)

Definition TicketPrice (blocknumber : Z) : Z := 5000 * 1000000000000000000.

Record TicketBody := mkBody {
  tk_ID : Hash;
  tk_Height : Z;
  tk_StartTime : Z;
  tk_ExpireTime : Z;
}.

Record Ticket := mkTicket { tk_Owner : Address; tk_Body : TicketBody }.

Record TicketDisplay := mkTicketDisplay {
  td_Owner : Address;
  td_Height : Z;
  td_StartTime : Z;
  td_ExpireTime : Z;
  td_Value : Z;
}.

Record TicketsData := mkTicketsData { Owner : Address; Tickets : list TicketBody }.

Abbreviation TicketsDataSlice := (list TicketsData).
Abbreviation TicketSlice := (list Ticket).

#[export] Instance TicketBody_eq_dec : EqDecision TicketBody.
Proof. solve_decision. Defined.
#[export] Instance Ticket_eq_dec : EqDecision Ticket.
Proof. solve_decision. Defined.
#[export] Instance TicketsData_eq_dec : EqDecision TicketsData.
Proof. solve_decision. Defined.

Inductive TicketError :=
| ErrTicketExist (id : Hash)
| ErrTicketNotFound (id : Hash)
| ErrNoTicketLeft.

(** ** Operations *)

Definition IsInGenesis (t : TicketBody) : bool := tk_Height t =? 0.
Definition BlockHeight (t : TicketBody) : Z := tk_Height t.
Definition Ticket_Value (t : TicketBody) : Z := TicketPrice (tk_Height t).

Definition Ticket_ToDisplay (t : Ticket) : TicketDisplay :=
  mkTicketDisplay (tk_Owner t) (tk_Height (tk_Body t)) (tk_StartTime (tk_Body t))
    (tk_ExpireTime (tk_Body t)) (Ticket_Value (tk_Body t)).

Definition TicketSlice_ToMap (s : TicketSlice) : gmap Hash TicketDisplay :=
  foldl (fun r t => <[tk_ID (tk_Body t) := Ticket_ToDisplay t]> r) ∅ s.

Definition TicketsData_ToTicketSlice (s : TicketsData) : TicketSlice :=
  map (mkTicket (Owner s)) (Tickets s).

Definition ToTicketSlice (s : TicketsDataSlice) : TicketSlice :=
  foldl (fun res v => res ++ TicketsData_ToTicketSlice v) [] s.

Definition TicketsDataSlice_ToMap (s : TicketsDataSlice) : gmap Hash TicketDisplay :=
  TicketSlice_ToMap (ToTicketSlice s).

Fixpoint NumberOfTicketsByAddress (s : TicketsDataSlice) (addr : Address) : Z :=
  match s with
  | [] => 0
  | v :: s' =>
      if Owner v =? addr then Z.of_nat (length (Tickets v)) else NumberOfTicketsByAddress s' addr
  end.

Definition NumberOfTickets (s : TicketsDataSlice) : Z :=
  foldl (fun n v => n + Z.of_nat (length (Tickets v))) 0 s.
Definition NumberOfOwners (s : TicketsDataSlice) : Z := Z.of_nat (length s).
Definition NumberOfTicketsAndOwners (s : TicketsDataSlice) : Z * Z :=
  (NumberOfTickets s, NumberOfOwners s).

(** The index of the first ticket of a row with the given ID. *)
Fixpoint ticket_index (id : Hash) (ts : list TicketBody) : option nat :=
  match ts with
  | [] => None
  | t :: ts' => if tk_ID t =? id then Some O else S <$> ticket_index id ts'
  end.

Fixpoint Get (s : TicketsDataSlice) (id : Hash) : Ticket + TicketError :=
  match s with
  | [] => inr (ErrTicketNotFound id)
  | v :: s' =>
      match ticket_index id (Tickets v) ≫= fun j => Tickets v !! j with
      | Some t => inl (mkTicket (Owner v) t)
      | None => Get s' id
      end
  end.

(** The first row of an owner. *)
Fixpoint owner_row (s : TicketsDataSlice) (owner : Address) : option nat :=
  match s with
  | [] => None
  | v :: s' => if Owner v =? owner then Some O else S <$> owner_row s' owner
  end.

(** [AddTicket] looks the owner's row up and appends; outside the genesis it
    refuses an ID that the row has already. The source tells a missing row by a
    nil slice; the slice of a row is never nil ([DeepCopy], the RLP decoder and
    [AddTicket] itself all build it with [make] or a literal). *)
Definition AddTicket (s : TicketsDataSlice) (ticket : Ticket)
    : TicketsDataSlice * option TicketError :=
  match owner_row s (tk_Owner ticket) ≫= fun i => pair i <$> s !! i with
  | None => (s ++ [mkTicketsData (tk_Owner ticket) [tk_Body ticket]], None)
  | Some (row, v) =>
      let tickets := Tickets v in
      if IsInGenesis (tk_Body ticket) then
        (<[row := mkTicketsData (Owner v) (tickets ++ [tk_Body ticket])]> s, None)
      else if existsb (fun t => tk_ID t =? tk_ID (tk_Body ticket)) tickets then
        (s, Some (ErrTicketExist (tk_ID (tk_Body ticket))))
      else (<[row := mkTicketsData (Owner v) (tickets ++ [tk_Body ticket])]> s, None)
  end.

Fixpoint RemoveTicket_loop (s : TicketsDataSlice) (id : Hash) : option TicketsDataSlice :=
  match s with
  | [] => None
  | v :: s' =>
      match ticket_index id (Tickets v) with
      | Some j =>
          if (length (Tickets v) =? 1)%nat then Some s'
          else Some (mkTicketsData (Owner v) (take j (Tickets v) ++ drop (S j) (Tickets v)) :: s')
      | None => cons v <$> RemoveTicket_loop s' id
      end
  end.

Definition RemoveTicket (s : TicketsDataSlice) (id : Hash)
    : TicketsDataSlice * option TicketError :=
  match RemoveTicket_loop s id with
  | Some s' => (s', None)
  | None => (s, Some (ErrTicketNotFound id))
  end.

Definition expiredTickets (s : TicketsDataSlice) (timestamp : Z) : list Hash :=
  concat (map (fun v =>
    map tk_ID (filter (fun t => tk_ExpireTime t <= timestamp) (Tickets v))) s).
Definition haveTicket (s : TicketsDataSlice) (timestamp : Z) : bool :=
  existsb (fun v => existsb (fun t => negb (tk_ExpireTime t <=? timestamp)) (Tickets v)) s.

Definition ClearExpiredTickets (s : TicketsDataSlice) (timestamp : Z)
    : TicketsDataSlice * option TicketError :=
  if negb (haveTicket s timestamp) then (s, Some ErrNoTicketLeft)
  else (foldl (fun s id => (RemoveTicket s id).1) s (expiredTickets s timestamp), None).

(** ** Invariant and meaning *)

Definition ticket_id (t : Ticket) : Hash := tk_ID (tk_Body t).

Record wf_tickets (s : TicketsDataSlice) : Prop := {
  wt_owners : NoDup (map Owner s);
  wt_rows : Forall (fun v => Tickets v ≠ []) s;
  wt_ids : NoDup (map ticket_id (ToTicketSlice s));
}.

Lemma ToTicketSlice_concat s :
  ToTicketSlice s = concat (map TicketsData_ToTicketSlice s).
Proof.
  unfold ToTicketSlice. assert (∀ acc, foldl (λ res v, res ++ TicketsData_ToTicketSlice v) acc s
    = acc ++ concat (map TicketsData_ToTicketSlice s)) as H; [|by rewrite H].
  induction s as [|v s IH]; intros acc; simpl; [by rewrite app_nil_r|]. by rewrite IH, app_assoc.
Qed.

Lemma ToTicketSlice_cons v s :
  ToTicketSlice (v :: s) = TicketsData_ToTicketSlice v ++ ToTicketSlice s.
Proof. by rewrite !ToTicketSlice_concat. Qed.

Lemma ToTicketSlice_app s1 s2 : ToTicketSlice (s1 ++ s2) = ToTicketSlice s1 ++ ToTicketSlice s2.
Proof. by rewrite !ToTicketSlice_concat, map_app, concat_app. Qed.

Lemma NumberOfTickets_length s : NumberOfTickets s = Z.of_nat (length (ToTicketSlice s)).
Proof.
  unfold NumberOfTickets. assert (∀ n, foldl (λ n v, n + Z.of_nat (length (Tickets v))) n s
    = n + Z.of_nat (length (ToTicketSlice s))) as H; [|by rewrite H].
  induction s as [|v s IH]; intros n; [simpl; lia|].
  rewrite ToTicketSlice_cons, length_app. simpl. rewrite IH.
  unfold TicketsData_ToTicketSlice. rewrite length_map. lia.
Qed.

Lemma ticket_index_Some id ts j :
  ticket_index id ts = Some j →
  ∃ t, ts !! j = Some t ∧ tk_ID t = id ∧ ts = take j ts ++ t :: drop (S j) ts.
Proof.
  revert j. induction ts as [|t ts IH]; intros j; simpl; [done|].
  destruct (Z.eqb_spec (tk_ID t) id); intros H; simplify_eq/=.
  - by exists t.
  - destruct (ticket_index id ts) as [k|] eqn:E; simplify_eq/=.
    destruct (IH k eq_refl) as (t' & ? & ? & Hts). exists t'. split_and!; try done.
    by rewrite Hts at 1.
Qed.

Lemma ticket_index_None id ts : ticket_index id ts = None ↔ id ∉ map tk_ID ts.
Proof.
  induction ts as [|t ts IH]; simpl; [set_solver|].
  destruct (Z.eqb_spec (tk_ID t) id).
  - split; [done|]. intros H. set_solver.
  - destruct (ticket_index id ts); simpl; [|set_solver].
    split; [done|]. intros H. exfalso. assert (id ∉ map tk_ID ts) by set_solver. naive_solver.
Qed.

Lemma row_ids v : map ticket_id (TicketsData_ToTicketSlice v) = map tk_ID (Tickets v).
Proof. unfold TicketsData_ToTicketSlice. by rewrite map_map. Qed.

(** ** Get *)

Lemma Get_Some s id t :
  Get s id = inl t → t ∈ ToTicketSlice s ∧ ticket_id t = id.
Proof.
  induction s as [|v s IH]; simpl; [done|]. rewrite ToTicketSlice_cons.
  destruct (ticket_index id (Tickets v)) as [j|] eqn:E; simpl.
  - destruct (ticket_index_Some _ _ _ E) as (b & Hb & Hid & Hts). rewrite Hb. intros [= <-].
    split; [|done]. apply elem_of_app. left. unfold TicketsData_ToTicketSlice.
    apply list_elem_of_fmap_2. by eapply list_elem_of_lookup_2.
  - intros H. destruct (IH H). set_solver.
Qed.

Lemma Get_None s id : (∃ e, Get s id = inr e) ↔ id ∉ map ticket_id (ToTicketSlice s).
Proof.
  induction s as [|v s IH]; simpl; [set_solver|].
  rewrite ToTicketSlice_cons, map_app, row_ids.
  pose proof (ticket_index_None id (Tickets v)) as HN.
  destruct (ticket_index id (Tickets v)) as [j|] eqn:E; simpl.
  - destruct (ticket_index_Some _ _ _ E) as (b & Hb & Hid & Hts). rewrite Hb.
    split; [naive_solver|]. intros H. exfalso.
    assert (id ∉ map tk_ID (Tickets v)) by set_solver. naive_solver.
  - rewrite IH, not_elem_of_app. naive_solver.
Qed.

(** ** AddTicket *)

Lemma owner_row_Some s o i :
  owner_row s o = Some i → ∃ v, s !! i = Some v ∧ Owner v = o.
Proof.
  revert i. induction s as [|v s IH]; intros i; simpl; [done|].
  destruct (Z.eqb_spec (Owner v) o); intros H; simplify_eq/=; [by eexists|].
  destruct (owner_row s o) as [k|]; simplify_eq/=. apply (IH k eq_refl).
Qed.

Lemma owner_row_None s o : owner_row s o = None → o ∉ map Owner s.
Proof.
  induction s as [|v s IH]; simpl; [set_solver|].
  destruct (Z.eqb_spec (Owner v) o); [done|]. destruct (owner_row s o); [done|]. set_solver.
Qed.

(** Replacing one row keeps the other rows. *)
Lemma row_split (s : TicketsDataSlice) i v :
  s !! i = Some v → s = take i s ++ v :: drop (S i) s.
Proof. intros. symmetry. by apply take_drop_middle. Qed.

Lemma ToTicketSlice_row (s : TicketsDataSlice) i v v' :
  s !! i = Some v →
  ToTicketSlice s ≡ₚ TicketsData_ToTicketSlice v ++ ToTicketSlice (take i s ++ drop (S i) s) ∧
  ToTicketSlice (<[i := v']> s) ≡ₚ
    TicketsData_ToTicketSlice v' ++ ToTicketSlice (take i s ++ drop (S i) s).
Proof.
  intros Hi. pose proof (lookup_lt_Some _ _ _ Hi). split.
  - rewrite (row_split s i v) at 1 by done.
    rewrite !ToTicketSlice_app, ToTicketSlice_cons, !app_assoc. by rewrite (Permutation_app_comm (ToTicketSlice (take i s))).
  - rewrite insert_take_drop by done.
    rewrite !ToTicketSlice_app, ToTicketSlice_cons, !app_assoc. by rewrite (Permutation_app_comm (ToTicketSlice (take i s))).
Qed.

Lemma AddTicket_perm s t s' :
  AddTicket s t = (s', None) → ToTicketSlice s' ≡ₚ t :: ToTicketSlice s.
Proof.
  unfold AddTicket. destruct (owner_row s (tk_Owner t)) as [i|] eqn:Er; simpl.
  - destruct (owner_row_Some _ _ _ Er) as (v & Hi & Ho). rewrite Hi. simpl.
    intros H. assert (s' = <[i:=mkTicketsData (Owner v) (Tickets v ++ [tk_Body t])]> s) as ->.
    { repeat case_match; congruence. }
    destruct (ToTicketSlice_row s i v (mkTicketsData (Owner v) (Tickets v ++ [tk_Body t])) Hi) as [-> ->].
    unfold TicketsData_ToTicketSlice at 1. simpl. rewrite map_app. simpl.
    rewrite <- app_assoc. cbn [app]. rewrite <- Permutation_middle.
    destruct t; simpl in *. by subst.
  - intros [= <-]. rewrite ToTicketSlice_app, ToTicketSlice_cons. simpl.
    rewrite Permutation_app_comm. by destruct t.
Qed.

Lemma AddTicket_fresh s t :
  ticket_id t ∉ map ticket_id (ToTicketSlice s) → ∃ s', AddTicket s t = (s', None).
Proof.
  intros Hid. unfold AddTicket. destruct (owner_row s (tk_Owner t)) as [i|] eqn:Er; simpl; [|eauto].
  destruct (owner_row_Some _ _ _ Er) as (v & Hi & Ho). rewrite Hi. simpl.
  destruct (IsInGenesis (tk_Body t)); [eauto|].
  destruct (existsb _ _) eqn:Ex; [|eauto]. exfalso. apply Hid.
  apply existsb_exists in Ex as (b & Hb & Heq). apply Z.eqb_eq in Heq.
  destruct (ToTicketSlice_row s i v v Hi) as [-> _]. rewrite map_app, row_ids.
  apply elem_of_app. left. unfold ticket_id. rewrite <- Heq.
  apply list_elem_of_fmap_2. by apply list_elem_of_In.
Qed.

Lemma AddTicket_owners s t s' :
  AddTicket s t = (s', None) →
  map Owner s' = map Owner s ∨ ((tk_Owner t ∉ map Owner s) ∧ map Owner s' = (map Owner s ++ [tk_Owner t])).
Proof.
  unfold AddTicket. destruct (owner_row s (tk_Owner t)) as [i|] eqn:Er; simpl.
  - destruct (owner_row_Some _ _ _ Er) as (v & Hi & Ho). rewrite Hi. simpl. intros H. left.
    assert (s' = <[i:=mkTicketsData (Owner v) (Tickets v ++ [tk_Body t])]> s) as ->.
    { repeat case_match; congruence. }
    change (Owner <$> <[i:=mkTicketsData (Owner v) (Tickets v ++ [tk_Body t])]> s = Owner <$> s).
    rewrite list_fmap_insert. simpl. apply list_insert_id. rewrite list_lookup_fmap, Hi. done.
  - intros [= <-]. right. split; [by apply owner_row_None|]. by rewrite map_app.
Qed.

Lemma AddTicket_rows s t s' :
  AddTicket s t = (s', None) →
  Forall (fun v => Tickets v ≠ []) s → Forall (fun v => Tickets v ≠ []) s'.
Proof.
  unfold AddTicket. destruct (owner_row s (tk_Owner t)) as [i|] eqn:Er; simpl.
  - destruct (owner_row_Some _ _ _ Er) as (v & Hi & Ho). rewrite Hi. simpl. intros H Hs.
    assert (s' = <[i:=mkTicketsData (Owner v) (Tickets v ++ [tk_Body t])]> s) as ->.
    { repeat case_match; congruence. }
    apply Forall_insert; [done|]. simpl. by destruct (Tickets v).
  - intros [= <-] Hs. apply Forall_app. split; [done|]. by repeat constructor.
Qed.

Lemma AddTicket_wf s t s' :
  wf_tickets s → ticket_id t ∉ map ticket_id (ToTicketSlice s) →
  AddTicket s t = (s', None) → wf_tickets s'.
Proof.
  intros [Ho Hr Hi] Hid Hadd. split.
  - destruct (AddTicket_owners _ _ _ Hadd) as [-> | [? ->]]; [done|].
    apply NoDup_app. split_and!; [done|set_solver|apply NoDup_singleton].
  - by eapply AddTicket_rows.
  - rewrite (AddTicket_perm _ _ _ Hadd). simpl. by constructor.
Qed.

(** ** RemoveTicket *)

Lemma RemoveTicket_loop_None s id :
  RemoveTicket_loop s id = None ↔ id ∉ map ticket_id (ToTicketSlice s).
Proof.
  induction s as [|v s IH]; simpl; [set_solver|].
  rewrite ToTicketSlice_cons, map_app, row_ids, not_elem_of_app, <- ticket_index_None.
  destruct (ticket_index id (Tickets v)) as [j|]; [case_match; naive_solver|].
  destruct (RemoveTicket_loop s id); naive_solver.
Qed.

(** Removing splits off one ticket with the ID and keeps the rest. *)
Lemma RemoveTicket_loop_Some s id s' :
  RemoveTicket_loop s id = Some s' →
  (∃ t, ticket_id t = id ∧ ToTicketSlice s ≡ₚ t :: ToTicketSlice s') ∧
  map Owner s' `sublist_of` map Owner s ∧
  (Forall (fun v => Tickets v ≠ []) s → Forall (fun v => Tickets v ≠ []) s').
Proof.
  revert s'. induction s as [|v s IH]; intros s'; simpl; [done|].
  destruct (ticket_index id (Tickets v)) as [j|] eqn:E.
  - destruct (ticket_index_Some _ _ _ E) as (b & Hb & Hid & Hts).
    assert (HA : TicketsData_ToTicketSlice v ≡ₚ mkTicket (Owner v) b ::
        map (mkTicket (Owner v)) (take j (Tickets v) ++ drop (S j) (Tickets v))).
    { unfold TicketsData_ToTicketSlice. rewrite Hts at 1. rewrite !map_app. simpl.
      by rewrite Permutation_middle. }
    destruct (Nat.eqb_spec (length (Tickets v)) 1) as [Hl|Hl]; intros [= <-].
    + assert (take j (Tickets v) ++ drop (S j) (Tickets v) = []) as Hnil.
      { apply nil_length_inv. rewrite Hts in Hl. rewrite length_app in *. simpl in *. lia. }
      rewrite Hnil in HA. split_and!.
      * exists (mkTicket (Owner v) b). split; [done|]. by rewrite ToTicketSlice_cons, HA.
      * by apply sublist_cons.
      * by inversion 1.
    + split_and!.
      * exists (mkTicket (Owner v) b). split; [done|]. by rewrite !ToTicketSlice_cons, HA.
      * done.
      * inversion 1 as [|?? Hv Hs]; subst. constructor; [|done]. simpl.
        intros Hnil. apply Hl. rewrite Hts. apply (f_equal length) in Hnil.
        rewrite length_app in *. simpl in *. lia.
  - destruct (RemoveTicket_loop s id) as [s2|] eqn:Es; simpl; intros; simplify_eq.
    destruct (IH s2 eq_refl) as ((t & Ht & Hp) & Hsub & Hrows). split_and!.
    + exists t. split; [done|]. rewrite !ToTicketSlice_cons, Hp. by rewrite Permutation_middle.
    + simpl. by apply sublist_skip.
    + inversion 1; subst. constructor; auto.
Qed.

Lemma RemoveTicket_ok s id :
  wf_tickets s → id ∈ map ticket_id (ToTicketSlice s) →
  ∃ s' t, RemoveTicket s id = (s', None) ∧ ticket_id t = id ∧
          ToTicketSlice s ≡ₚ t :: ToTicketSlice s' ∧ wf_tickets s'.
Proof.
  intros [Ho Hr Hi] Hin. unfold RemoveTicket.
  destruct (RemoveTicket_loop s id) as [s'|] eqn:E; [|by apply RemoveTicket_loop_None in E].
  destruct (RemoveTicket_loop_Some _ _ _ E) as ((t & Ht & Hp) & Hsub & Hrows).
  exists s', t. split_and!; try done. split; [|by apply Hrows|].
  - by apply (sublist_NoDup _ (map Owner s)).
  - rewrite Hp in Hi. simpl in Hi. by apply NoDup_cons in Hi as [_ ?].
Qed.

Lemma RemoveTicket_absent s id :
  id ∉ map ticket_id (ToTicketSlice s) → RemoveTicket s id = (s, Some (ErrTicketNotFound id)).
Proof. intros H. unfold RemoveTicket. by rewrite (proj2 (RemoveTicket_loop_None s id) H). Qed.

(** ** ClearExpiredTickets *)

Definition unexpired (timestamp : Z) (t : Ticket) : Prop := timestamp < tk_ExpireTime (tk_Body t).
#[export] Instance unexpired_dec ts t : Decision (unexpired ts t).
Proof. unfold unexpired. apply _. Defined.

Lemma filter_elem_ext {A} (P Q : A → Prop) `{!∀ x, Decision (P x), !∀ x, Decision (Q x)} (l : list A) :
  (∀ x, x ∈ l → P x ↔ Q x) → filter P l = filter Q l.
Proof.
  induction l as [|a l IH]; intros Hl; [done|]. rewrite !filter_cons.
  pose proof (Hl a ltac:(set_solver)). rewrite IH by set_solver.
  repeat case_decide; naive_solver.
Qed.

Lemma RemoveTicket_fold s ids :
  wf_tickets s →
  let s' := foldl (fun s id => (RemoveTicket s id).1) s ids in
  wf_tickets s' ∧ ToTicketSlice s' ≡ₚ filter (fun t => ticket_id t ∉ ids) (ToTicketSlice s).
Proof.
  revert s. induction ids as [|id ids IH]; intros s Hwf; simpl.
  { split; [done|]. clear. induction (ToTicketSlice s) as [|t l IH]; [done|].
    rewrite filter_cons_True by set_solver. by rewrite <- IH. }
  destruct (decide (id ∈ map ticket_id (ToTicketSlice s))) as [Hin|Hout].
  - destruct (RemoveTicket_ok s id Hwf Hin) as (s1 & t & -> & Ht & Hp & Hwf1). simpl.
    destruct (IH s1 Hwf1) as [Hw Hperm]. split; [done|]. rewrite Hperm, Hp, filter_cons.
    rewrite decide_False by set_solver.
    erewrite (filter_elem_ext (fun t => ticket_id t ∉ ids)); [done|].
    intros u Hu. simpl. destruct Hwf as [_ _ Hnd]. rewrite Hp in Hnd. simpl in Hnd.
    apply NoDup_cons in Hnd as [Hnd _]. rewrite Ht in Hnd.
    assert (ticket_id u ≠ id) by (intros <-; apply Hnd; by apply list_elem_of_fmap_2). set_solver.
  - rewrite RemoveTicket_absent by done. simpl. destruct (IH s Hwf) as [Hw Hperm].
    split; [done|]. rewrite Hperm. erewrite filter_elem_ext; [done|].
    intros u Hu. simpl. assert (ticket_id u ≠ id) by (intros <-; apply Hout; by apply list_elem_of_fmap_2).
    set_solver.
Qed.

Lemma expiredTickets_spec s ts t :
  wf_tickets s → t ∈ ToTicketSlice s →
  ticket_id t ∉ expiredTickets s ts ↔ unexpired ts t.
Proof.
  intros [_ _ Hnd] Ht. unfold unexpired.
  assert (Hex : ∀ id, id ∈ expiredTickets s ts ↔
     ∃ u, u ∈ ToTicketSlice s ∧ ticket_id u = id ∧ tk_ExpireTime (tk_Body u) <= ts).
  { intros id. clear. induction s as [|v s IH]; [simpl; set_solver|].
    unfold expiredTickets in *. simpl. rewrite ToTicketSlice_cons, elem_of_app, IH.
    unfold TicketsData_ToTicketSlice. setoid_rewrite elem_of_app.
    setoid_rewrite list_elem_of_fmap. setoid_rewrite list_elem_of_filter.
    split.
    - intros [(b & -> & Hb & Hin)|(u & Hu & Hid & Hb)]; [|naive_solver].
      exists (mkTicket (Owner v) b). split_and!; [left; naive_solver|done|done].
    - intros (u & [(b & -> & Hb)|Hu] & Hid & Hx); [|naive_solver]. left. exists b. naive_solver. }
  rewrite Hex. split.
  - intros H. destruct (Z.lt_ge_cases ts (tk_ExpireTime (tk_Body t))); [done|].
    exfalso. apply H. exists t. split_and!; [done|done|lia].
  - intros H (u & Hu & Hid & Hx).
    assert (u = t) as ->; [|lia]. apply list_elem_of_lookup in Hu as [i Hi], Ht as [j Hj].
    assert (i = j) as ->; [|congruence].
    eapply (NoDup_lookup _ i j (ticket_id t) Hnd); rewrite ?list_lookup_fmap.
    + change (ticket_id <$> ToTicketSlice s !! i = Some (ticket_id t)). rewrite Hi. simpl. by rewrite Hid.
    + change (ticket_id <$> ToTicketSlice s !! j = Some (ticket_id t)). by rewrite Hj.
Qed.

Lemma haveTicket_spec s ts :
  haveTicket s ts = true ↔ ∃ t, t ∈ ToTicketSlice s ∧ unexpired ts t.
Proof.
  unfold haveTicket, unexpired. induction s as [|v s IH]; [simpl; set_solver|].
  cbn [existsb]. rewrite orb_true_iff, IH, ToTicketSlice_cons, existsb_exists.
  unfold TicketsData_ToTicketSlice. setoid_rewrite elem_of_app. setoid_rewrite list_elem_of_fmap.
  setoid_rewrite <- list_elem_of_In. setoid_rewrite negb_true_iff. setoid_rewrite Z.leb_gt.
  split.
  - intros [(b & Hb & Hx)|(t & ? & ?)]; [|naive_solver].
    exists (mkTicket (Owner v) b). split; [left; naive_solver|done].
  - intros (t & [(b & -> & Hb)|Ht] & Hx); [left; exists b; done|right; naive_solver].
Qed.

Lemma ClearExpiredTickets_ok s ts :
  wf_tickets s → (∃ t, t ∈ ToTicketSlice s ∧ unexpired ts t) →
  ∃ s', ClearExpiredTickets s ts = (s', None) ∧ wf_tickets s' ∧
        ToTicketSlice s' ≡ₚ filter (unexpired ts) (ToTicketSlice s).
Proof.
  intros Hwf Hex. unfold ClearExpiredTickets. rewrite (proj2 (haveTicket_spec s ts) Hex). simpl.
  destruct (RemoveTicket_fold s (expiredTickets s ts) Hwf) as [Hw Hp].
  eexists. split_and!; [done|done|]. rewrite Hp. erewrite filter_elem_ext; [done|].
  intros t Ht. simpl. by apply expiredTickets_spec.
Qed.

Lemma Get_found s id :
  id ∈ map ticket_id (ToTicketSlice s) → ∃ t, Get s id = inl t ∧ t ∈ ToTicketSlice s ∧ ticket_id t = id.
Proof.
  intros Hin. destruct (Get s id) as [t|e] eqn:E.
  - destruct (Get_Some _ _ _ E). eauto.
  - exfalso. eapply Get_None; eauto.
Qed.

(** ** Properties *)

(** C29: the grouped tickets implement a multiset of tickets. On a valid store,
    [AddTicket] of a new ID succeeds and inserts exactly that ticket,
    [RemoveTicket] of a present ID succeeds and removes exactly one ticket, the
    one with that ID, and on an absent ID it reports the error and changes
    nothing; [Get] finds exactly the present IDs, and the store stays valid:
    one row per owner, no empty row, no ID twice. *)
Theorem tickets_refine_multiset s :
  wf_tickets s →
  (∀ t, ticket_id t ∉ map ticket_id (ToTicketSlice s) →
     ∃ s', AddTicket s t = (s', None) ∧ wf_tickets s' ∧
           ToTicketSlice s' ≡ₚ t :: ToTicketSlice s) ∧
  (∀ id, id ∈ map ticket_id (ToTicketSlice s) →
     ∃ s' t, RemoveTicket s id = (s', None) ∧ wf_tickets s' ∧ Get s id = inl t ∧
             ticket_id t = id ∧ ToTicketSlice s ≡ₚ t :: ToTicketSlice s') ∧
  (∀ id, id ∉ map ticket_id (ToTicketSlice s) →
     RemoveTicket s id = (s, Some (ErrTicketNotFound id)) ∧ ∃ e, Get s id = inr e) ∧
  NumberOfTickets s = Z.of_nat (length (ToTicketSlice s)).
Proof.
  intros Hwf. refine (conj _ (conj _ (conj _ (NumberOfTickets_length s)))).
  - intros t Hid. destruct (AddTicket_fresh s t Hid) as [s' Hadd]. exists s'.
    eauto using AddTicket_wf, AddTicket_perm.
  - intros id Hin. destruct (RemoveTicket_ok s id Hwf Hin) as (s' & t & ? & Ht & Hp & ?).
    destruct (Get_found s id Hin) as (u & Hg & Hu & Hid). exists s', t. split_and!; try done.
    destruct Hwf as [_ _ Hnd]. rewrite Hp in Hnd, Hu. simpl in Hnd.
    apply NoDup_cons in Hnd as [Hnd _]. apply elem_of_cons in Hu as [-> | Hu]; [done|].
    exfalso. apply Hnd. rewrite Ht, <- Hid. by apply list_elem_of_fmap_2.
  - intros id Hout. split; [by apply RemoveTicket_absent|by apply Get_None].
Qed.

Definition ticket_store_example : TicketsDataSlice :=
  [mkTicketsData 7 [mkBody 100 1 10 50; mkBody 101 2 20 60]; mkTicketsData 8 [mkBody 102 1 10 40]].

Lemma ticket_store_example_wf : wf_tickets ticket_store_example.
Proof. split; [apply (bool_decide_unpack _); vm_compute; done|by repeat constructor|apply (bool_decide_unpack _); vm_compute; done]. Qed.

Lemma tickets_refine_multiset_witness :
  wf_tickets ticket_store_example ∧
  ∃ s' t, RemoveTicket ticket_store_example 101 = (s', None) ∧ wf_tickets s' ∧
          Get ticket_store_example 101 = inl t ∧ ticket_id t = 101 ∧
          ToTicketSlice ticket_store_example ≡ₚ t :: ToTicketSlice s'.
Proof.
  split; [apply ticket_store_example_wf|].
  refine (proj1 (proj2 (tickets_refine_multiset _ ticket_store_example_wf)) 101 _).
  apply (bool_decide_unpack _); vm_compute; done.
Defined.

(** [ClearExpiredTickets] at a time keeps exactly the tickets that expire
    after it: when one is left the result is valid and holds the unexpired
    tickets and no other, and when none is left it reports the error and leaves
    the store as it was, so that the chain is never left without a ticket. *)
Theorem tickets_clear_expired s timestamp :
  wf_tickets s →
  if decide (Exists (unexpired timestamp) (ToTicketSlice s)) then
    ∃ s', ClearExpiredTickets s timestamp = (s', None) ∧ wf_tickets s' ∧
          ToTicketSlice s' ≡ₚ filter (unexpired timestamp) (ToTicketSlice s)
  else ClearExpiredTickets s timestamp = (s, Some ErrNoTicketLeft).
Proof.
  intros Hwf. case_decide as Hex.
  - apply ClearExpiredTickets_ok; [done|]. by apply Exists_exists in Hex.
  - unfold ClearExpiredTickets. destruct (haveTicket s timestamp) eqn:E; [|done].
    exfalso. apply Hex, Exists_exists. by apply haveTicket_spec.
Qed.

Lemma tickets_clear_expired_witness :
  wf_tickets ticket_store_example ∧
  ∃ s', ClearExpiredTickets ticket_store_example 50 = (s', None) ∧ wf_tickets s' ∧
        ToTicketSlice s' ≡ₚ filter (unexpired 50) (ToTicketSlice ticket_store_example).
Proof.
  split; [apply ticket_store_example_wf|].
  exact (tickets_clear_expired ticket_store_example 50 ticket_store_example_wf).
Defined.
