(* ===== verification/FsnTypes.v ===== *)
(** * Fusion call types (common/types.go)

    The function codes of a Fusion call, the parameters of each call with their
    [Check] functions, and the records the calls create: assets, swaps and
    multi-swaps. A [*big.Int] field is an [option Z], [None] for the nil
    pointer: a parameter that the decoder left unset is nil, and the [Check]
    functions test for it. *)

From stdpp Require Import base list gmap strings.
From Stdlib Require Import ZArith Lia.
From S2P Require Import Prelude Bytes.

(** An error value: the format string of [fmt.Errorf] (or [errors.New]) and the
    numbers printed into it. *)
Inductive error := Errorf (format : string) (args : list Z).
Definition New (format : string) : error := Errorf format [].

#[export] Instance error_eq_dec : EqDecision error.
Proof. solve_decision. Defined.

(** ** Function codes *)

Abbreviation FSNCallFunc := Z (only parsing).
Definition GenNotationFunc : FSNCallFunc := 0.
Definition GenAssetFunc : FSNCallFunc := 1.
Definition SendAssetFunc : FSNCallFunc := 2.
Definition TimeLockFunc : FSNCallFunc := 3.
Definition BuyTicketFunc : FSNCallFunc := 4.
Definition OldAssetValueChangeFunc : FSNCallFunc := 5.
Definition MakeSwapFunc : FSNCallFunc := 6.
Definition RecallSwapFunc : FSNCallFunc := 7.
Definition TakeSwapFunc : FSNCallFunc := 8.
Definition EmptyFunc : FSNCallFunc := 9.
Definition MakeSwapFuncExt : FSNCallFunc := 10.
Definition TakeSwapFuncExt : FSNCallFunc := 11.
Definition AssetValueChangeFunc : FSNCallFunc := 12.
Definition MakeMultiSwapFunc : FSNCallFunc := 13.
Definition RecallMultiSwapFunc : FSNCallFunc := 14.
Definition TakeMultiSwapFunc : FSNCallFunc := 15.

Definition IsFsnCall (to : option Address) : bool :=
  match to with Some a => a =? FSNCallAddress | None => false end.

Definition GetFsnCallFee (to : option Address) (funcType : FSNCallFunc) : Z :=
  if negb (IsFsnCall to) then 0
  else if funcType =? GenNotationFunc then 100000000000000000
  else if funcType =? GenAssetFunc then 10000000000000000
  else if (funcType =? MakeSwapFunc) || (funcType =? MakeSwapFuncExt)
          || (funcType =? MakeMultiSwapFunc) then 1000000000000000
  else if funcType =? TimeLockFunc then 1000000000000000
  else 0.

(** ** Call parameters *)

Record FSNCallParam := mkFSNCallParam { Func : FSNCallFunc; fp_Data : bytes }.

Record GenAssetParam := mkGenAssetParam {
  ga_Name : string;
  ga_Symbol : string;
  ga_Decimals : Z;
  ga_Total : option Z;
  ga_CanChange : bool;
  ga_Description : string;
}.

Record BuyTicketParam := mkBuyTicketParam { bt_Start : Z; bt_End : Z }.

Record SendAssetParam := mkSendAssetParam {
  sa_AssetID : Hash;
  sa_To : Address;
  sa_Value : option Z;
}.

Record AssetValueChangeExParam := mkAssetValueChangeExParam {
  vc_AssetID : Hash;
  vc_To : Address;
  vc_Value : option Z;
  vc_IsInc : bool;
  vc_TransacData : string;
}.

(** [tl_Type] is the [TimeLockType], a uint8: 0 asset to time lock, 1 time lock
    to time lock, 2 time lock to asset. *)
Record TimeLockParam := mkTimeLockParam {
  tl_Type : Z;
  tl_AssetID : Hash;
  tl_To : Address;
  tl_StartTime : Z;
  tl_EndTime : Z;
  tl_Value : option Z;
}.

Record MakeSwapParam := mkMakeSwapParam {
  ms_FromAssetID : Hash;
  ms_FromStartTime : Z;
  ms_FromEndTime : Z;
  ms_MinFromAmount : option Z;
  ms_ToAssetID : Hash;
  ms_ToStartTime : Z;
  ms_ToEndTime : Z;
  ms_MinToAmount : option Z;
  ms_SwapSize : option Z;
  ms_Targes : list Address;
  ms_Time : option Z;
  ms_Description : string;
}.

Record MakeMultiSwapParam := mkMakeMultiSwapParam {
  mm_FromAssetID : list Hash;
  mm_FromStartTime : list Z;
  mm_FromEndTime : list Z;
  mm_MinFromAmount : list (option Z);
  mm_ToAssetID : list Hash;
  mm_ToStartTime : list Z;
  mm_ToEndTime : list Z;
  mm_MinToAmount : list (option Z);
  mm_SwapSize : option Z;
  mm_Targes : list Address;
  mm_Time : option Z;
  mm_Description : string;
}.

Record RecallSwapParam := mkRecallSwapParam { rs_SwapID : Hash }.
Record RecallMultiSwapParam := mkRecallMultiSwapParam { rm_SwapID : Hash }.
Record TakeSwapParam := mkTakeSwapParam { ts_SwapID : Hash; ts_Size : option Z }.
Record TakeMultiSwapParam := mkTakeMultiSwapParam { tm_SwapID : Hash; tm_Size : option Z }.

(** ** Records of the state *)

Record Asset := mkAsset {
  as_ID : Hash;
  as_Owner : Address;
  as_Name : string;
  as_Symbol : string;
  as_Decimals : Z;
  as_Total : option Z;
  as_CanChange : bool;
  as_Description : string;
}.

Definition ToAsset (p : GenAssetParam) : Asset :=
  mkAsset 0 0 (ga_Name p) (ga_Symbol p) (ga_Decimals p) (ga_Total p) (ga_CanChange p)
    (ga_Description p).

Definition Asset_DeepCopy (u : Asset) : outcome Asset :=
  match as_Total u with
  | None => Panic "nil pointer dereference"
  | Some total =>
      Done (mkAsset (as_ID u) (as_Owner u) (as_Name u) (as_Symbol u) (as_Decimals u)
              (Some total) (as_CanChange u) EmptyString)
  end.

Definition SystemAsset : Asset :=
  mkAsset SystemAssetID 0 "Fusion" "FSN" 18 (Some (81920000 * 1000000000000000000)) false
    "https://fusion.org".

Record Swap := mkSwap {
  sw_ID : Hash;
  sw_Owner : Address;
  sw_FromAssetID : Hash;
  sw_FromStartTime : Z;
  sw_FromEndTime : Z;
  sw_MinFromAmount : option Z;
  sw_ToAssetID : Hash;
  sw_ToStartTime : Z;
  sw_ToEndTime : Z;
  sw_MinToAmount : option Z;
  sw_SwapSize : option Z;
  sw_Targes : list Address;
  sw_Time : option Z;
  sw_Description : string;
  sw_Notation : Z;
}.

Definition Swap_DeepCopy (s : Swap) : outcome Swap :=
  match sw_MinFromAmount s, sw_MinToAmount s, sw_SwapSize s, sw_Time s with
  | Some minFromAmount, Some minToAmount, Some swapSize, Some swapTime =>
      Done (mkSwap (sw_ID s) (sw_Owner s) (sw_FromAssetID s) (sw_FromStartTime s)
              (sw_FromEndTime s) (Some minFromAmount) (sw_ToAssetID s) (sw_ToStartTime s)
              (sw_ToEndTime s) (Some minToAmount) (Some swapSize) (sw_Targes s)
              (Some swapTime) (sw_Description s) 0)
  | _, _, _, _ => Panic "nil pointer dereference"
  end.

Record MultiSwap := mkMultiSwap {
  mu_ID : Hash;
  mu_Owner : Address;
  mu_FromAssetID : list Hash;
  mu_FromStartTime : list Z;
  mu_FromEndTime : list Z;
  mu_MinFromAmount : list (option Z);
  mu_ToAssetID : list Hash;
  mu_ToStartTime : list Z;
  mu_ToEndTime : list Z;
  mu_MinToAmount : list (option Z);
  mu_SwapSize : option Z;
  mu_Targes : list Address;
  mu_Time : option Z;
  mu_Description : string;
  mu_Notation : Z;
}.

Definition CheckSwapTargets (targets : list Address) (addr : Address) : option error :=
  match targets with
  | [] => None
  | _ =>
      if existsb (fun target => addr =? target) targets then None
      else Some (New "swap taker does not match the specified targets")
  end.

(** ** Check functions

    [None] is the nil error. [pos_big] is the test
    [v == nil || v.Cmp(Big0) <= 0] negated. *)

Definition pos_big (v : option Z) : bool :=
  match v with Some v => 0 <? bigCmp v 0 | None => false end.

Definition str_len (s : string) : Z := Z.of_nat (String.length s).

Definition GenAssetParam_Check (p : GenAssetParam) : option error :=
  if (str_len (ga_Name p) =? 0) || (str_len (ga_Symbol p) =? 0)
     || match ga_Total p with None => true | Some total => bigCmp total 0 <? 0 end
  then Some (New "GenAssetFunc name, symbol and total must be set")
  else if 18 <? ga_Decimals p
  then Some (New "GenAssetFunc decimals must be between 0 and 18")
  else if 1024 <? str_len (ga_Description p)
  then Some (New "GenAsset description length is greater than 1024 chars")
  else if 128 <? str_len (ga_Name p)
  then Some (New "GenAsset name length is greater than 128 chars")
  else if 64 <? str_len (ga_Symbol p)
  then Some (New "GenAsset symbol length is greater than 64 chars")
  else None.

Definition SendAssetParam_Check (p : SendAssetParam) : option error :=
  if negb (pos_big (sa_Value p)) then Some (New "Value must be set and greater than 0")
  else if sa_To p =? 0 then Some (New "receiver address must be set and not zero address")
  else if sa_AssetID p =? 0
  then Some (New "empty asset ID, 'asset' must be specified instead of AssetID.")
  else None.

Definition TimeLockParam_Check (p : TimeLockParam) (timestamp : Z) : option error :=
  if negb (pos_big (tl_Value p)) then Some (New "Value must be set and greater than 0")
  else if tl_EndTime p <? tl_StartTime p
  then Some (New "StartTime must be less than or equal to EndTime")
  else if tl_EndTime p <? timestamp
  then Some (New "EndTime must be greater than latest block time")
  else None.

Definition BuyTicketParam_Check (p : BuyTicketParam) (timestamp adjust : Z) : option error :=
  let start := bt_Start p in
  let end_ := bt_End p in
  if (end_ <=? start) || (end_ <? u64 (start + 30 * 24 * 3600))
  then Some (New "BuyTicket end must be lower than start + 1 month")
  else if negb (timestamp =? 0) then
    if u64 (timestamp + 3 * 3600) <? start
    then Some (New "BuyTicket start must be lower than latest block time + 3 hour")
    else if end_ <? u64 (timestamp + u64 (7 * 24 * 3600 + adjust))
    then Some (New "BuyTicket end must be greater than latest block time + 1 week")
    else None
  else None.

Definition AssetValueChangeExParam_Check (p : AssetValueChangeExParam) : option error :=
  if negb (pos_big (vc_Value p)) then Some (New "Value must be set and greater than 0")
  else if 256 <? str_len (vc_TransacData p)
  then Some (New "TransacData must not be greater than 256")
  else None.

Definition MakeSwapParam_Check (p : MakeSwapParam) (timestamp : Z) : option error :=
  match ms_MinFromAmount p, ms_MinToAmount p, ms_SwapSize p with
  | Some minFrom, Some minTo, Some size =>
      if (bigCmp minFrom 0 <=? 0) || (bigCmp minTo 0 <=? 0) || (bigCmp size 0 <=? 0)
      then Some (New "MinFromAmount,MinToAmount and SwapSize must be ge 1")
      else if 1024 <? str_len (ms_Description p)
      then Some (New "MakeSwap description length is greater than 1024 chars")
      else if bigCmp (minFrom * size) 0 <=? 0
      then Some (New "size * MinFromAmount too large")
      else if bigCmp (minTo * size) 0 <=? 0
      then Some (New "size * MinToAmount too large")
      else if ms_FromEndTime p <? ms_FromStartTime p
      then Some (New "MakeSwap FromStartTime > FromEndTime")
      else if ms_ToEndTime p <? ms_ToStartTime p
      then Some (New "MakeSwap ToStartTime > ToEndTime")
      else if ms_FromEndTime p <=? timestamp
      then Some (New "MakeSwap FromEndTime <= latest blockTime")
      else if ms_ToEndTime p <=? timestamp
      then Some (New "MakeSwap ToEndTime <= latest blockTime")
      else None
  | _, _, _ => Some (New "MinFromAmount,MinToAmount and SwapSize must be ge 1")
  end.

(** The size test that taking a swap or a multi-swap begins with. *)
Definition size_ok (Size SwapSize : option Z) : bool :=
  match Size, SwapSize with
  | Some size, Some swapSize => negb ((bigCmp size 0 <=? 0) || (0 <? bigCmp size swapSize))
  | _, _ => false
  end.

Definition TakeSwapParam_Check (p : TakeSwapParam) (swap : Swap) (timestamp : Z) : option error :=
  if negb (size_ok (ts_Size p) (sw_SwapSize swap))
  then Some (New "Size must be ge 1 and le Swapsize")
  else if sw_FromEndTime swap <=? timestamp
  then Some (New "swap expired: FromEndTime <= latest blockTime")
  else if sw_ToEndTime swap <=? timestamp
  then Some (New "swap expired: ToEndTime <= latest blockTime")
  else None.

Definition RecallSwapParam_Check (p : RecallSwapParam) (swap : Swap) : option error := None.
Definition RecallMultiSwapParam_Check (p : RecallMultiSwapParam) (swap : MultiSwap)
    : option error := None.

(** One of the two loops of [MakeMultiSwapParam.Check]; [dir] is the direction
    printed in its errors. The lists have the same length when it is called. *)
Fixpoint multi_amounts_check (dir : string) (size timestamp : Z)
    (amounts : list (option Z)) (starts ends : list Z) : option error :=
  match amounts, starts, ends with
  | amount :: amounts, start :: starts, end_ :: ends =>
      match amount with
      | None => Some (New ("Min" ++ dir ++ "Amounts must be ge 1"))
      | Some a =>
          if bigCmp a 0 <=? 0 then Some (New ("Min" ++ dir ++ "Amounts must be ge 1"))
          else if bigCmp (a * size) 0 <=? 0
          then Some (New ("size * Min" ++ dir ++ "Amount too large"))
          else if end_ <? start
          then Some (New ("MakeMultiSwap " ++ dir ++ "StartTime > " ++ dir ++ "EndTime"))
          else if end_ <=? timestamp
          then Some (New ("MakeMultiSwap " ++ dir ++ "EndTime <= latest blockTime"))
          else multi_amounts_check dir size timestamp amounts starts ends
      end
  | _, _, _ => None
  end.

Definition MakeMultiSwapParam_Check (p : MakeMultiSwapParam) (timestamp : Z) : option error :=
  let nFrom := length (mm_MinFromAmount p) in
  let nTo := length (mm_MinToAmount p) in
  if (nFrom =? 0)%nat then Some (New "MinFromAmount must be specifed")
  else if (nTo =? 0)%nat then Some (New "MinToAmount must be specifed")
  else
    match mm_SwapSize p with
    | None => Some (New "SwapSize must be ge 1")
    | Some size =>
        if bigCmp size 0 <=? 0 then Some (New "SwapSize must be ge 1")
        else if negb ((nFrom =? length (mm_FromEndTime p)) && (nFrom =? length (mm_FromAssetID p))
                      && (nFrom =? length (mm_FromStartTime p)))%nat
        then Some (New "MinFromAmount FromEndTime and FromStartTime array length must be same size")
        else if negb ((nTo =? length (mm_ToEndTime p)) && (nTo =? length (mm_ToAssetID p))
                      && (nTo =? length (mm_ToStartTime p)))%nat
        then Some (New "MinToAmount ToEndTime and ToStartTime array length must be same size")
        else
          match multi_amounts_check "From" size timestamp (mm_MinFromAmount p)
                  (mm_FromStartTime p) (mm_FromEndTime p) with
          | Some err => Some err
          | None =>
              match multi_amounts_check "To" size timestamp (mm_MinToAmount p)
                      (mm_ToStartTime p) (mm_ToEndTime p) with
              | Some err => Some err
              | None =>
                  if 1024 <? str_len (mm_Description p)
                  then Some (New "MakeSwap description length is greater than 1024 chars")
                  else None
              end
          end
    end.

Definition TakeMultiSwapParam_Check (p : TakeMultiSwapParam) (swap : MultiSwap) (timestamp : Z)
    : option error :=
  if negb (size_ok (tm_Size p) (mu_SwapSize swap))
  then Some (New "Size must be ge 1 and le Swapsize")
  else if existsb (fun e => e <=? timestamp) (mu_FromEndTime swap)
  then Some (New "swap expired: FromEndTime <= latest blockTime")
  else if existsb (fun e => e <=? timestamp) (mu_ToEndTime swap)
  then Some (New "swap expired: ToEndTime <= latest blockTime")
  else None.
