(* ===== verification/Rlp.v ===== *)
(** * Recursive length prefix encoding (rlp/encode.go, rlp/decode.go)

    The package picks a writer and a decoder for a Go type by reflection.
    [rtype] is the part of [reflect.Type] that the persisted structures and the
    call parameters of the chain use, [rval] a [reflect.Value] of such a type.

    The encoder is modelled with its two-part buffer [encbuf] (string data and
    a separate list of list headers, merged at the end by [toBytes]); [enc] is
    the textbook definition of RLP, and the file proves that the buffer
    implements it. The decoder works on the bytes left in the innermost list
    (the [Stream] stack keeps their number); a decoder returns the value it
    filled in, complete or not, and the rest of the bytes or an error. *)

From stdpp Require Import base list gmap strings.
From Stdlib Require Import ZArith Lia.
From S2P Require Import Prelude Bytes.

#[local] Set Warnings "-register-all".

Inductive rtype :=
| TUint (bits : Z)
| TBool
| TBigInt
| TString
| TByteArray (n : nat)
| TSlice (t : rtype)
| TStruct (ts : list rtype)
| TPtr (t : rtype).

Inductive rval :=
| VUint (i : Z)
| VBool (b : bool)
| VBigInt (i : option Z)
| VBytes (b : bytes)
| VList (l : list rval)
| VPtr (v : option rval).

(** [ErrTooLarge] stands for the three errors of a value that does not fit into
    the bytes left: [ErrElemTooLarge] inside a list, [ErrValueTooLarge] and
    [io.ErrUnexpectedEOF] at the top level. *)
Inductive rlp_error :=
| EOL | ErrCanonInt | ErrCanonSize | ErrExpectedString | ErrExpectedList
| ErrUintOverflow | ErrNotAtEOL | ErrTooLarge | ErrTooFew | ErrInvalidBool
| ErrTooLong | ErrTooShort | ErrMoreThanOneValue | ErrNegativeBigInt
| ErrNotSerializable | EOF.

#[export] Instance rlp_error_eq_dec : EqDecision rlp_error.
Proof. solve_decision. Defined.

(** ** Integers *)

(** [putint]: the least number of bytes, the most significant first. *)
Definition putint (i : Z) : bytes :=
  if i <? 2 ^ 8 then be_bytes 1 i
  else if i <? 2 ^ 16 then be_bytes 2 i
  else if i <? 2 ^ 24 then be_bytes 3 i
  else if i <? 2 ^ 32 then be_bytes 4 i
  else if i <? 2 ^ 40 then be_bytes 5 i
  else if i <? 2 ^ 48 then be_bytes 6 i
  else if i <? 2 ^ 56 then be_bytes 7 i
  else be_bytes 8 i.

Fixpoint intsize_loop (fuel : nat) (size i : Z) : Z :=
  match fuel with
  | O => size
  | S fuel => let i := Z.shiftr i 8 in if i =? 0 then size else intsize_loop fuel (size + 1) i
  end.
(** Eight shifts empty a uint64, so the loop ends with 8 at the latest. *)
Definition intsize (i : Z) : Z := intsize_loop 7 1 i.

Definition headsize (size : Z) : Z := if size <? 56 then 1 else 1 + intsize size.

Definition puthead (smalltag largetag size : Z) : bytes :=
  if size <? 56 then [smalltag + size]
  else let s := putint size in (largetag + Z.of_nat (length s)) :: s.

(** ** The encoding buffer *)

Record listhead := mkListhead { lh_offset : Z; lh_size : Z }.

Record encbuf := mkEncbuf {
  str : bytes;
  lheads : list listhead;
  lhsize : Z;
}.

Definition encbuf_reset : encbuf := mkEncbuf [] [] 0.
Definition encbuf_write (w : encbuf) (b : bytes) : encbuf :=
  mkEncbuf (str w ++ b) (lheads w) (lhsize w).
Definition encbuf_size (w : encbuf) : Z := Z.of_nat (length (str w)) + lhsize w.

Definition encodeStringHeader (w : encbuf) (size : Z) : encbuf :=
  if size <? 56 then encbuf_write w [128 + size]
  else let s := putint size in encbuf_write w ((183 + Z.of_nat (length s)) :: s).

Definition encodeString (w : encbuf) (b : bytes) : encbuf :=
  match b with
  | [x] => if x <=? 127 then encbuf_write w [x]
           else encbuf_write (encodeStringHeader w 1) [x]
  | _ => encbuf_write (encodeStringHeader w (Z.of_nat (length b))) b
  end.

(** [list] appends a header and returns its index; [listEnd] sets its size. *)
Definition encbuf_list (w : encbuf) : nat * encbuf :=
  (length (lheads w),
   mkEncbuf (str w) (lheads w ++ [mkListhead (Z.of_nat (length (str w))) (lhsize w)]) (lhsize w)).

Definition encbuf_listEnd (w : encbuf) (idx : nat) : encbuf :=
  match lheads w !! idx with
  | None => w
  | Some lh =>
      let size := encbuf_size w - lh_offset lh - lh_size lh in
      mkEncbuf (str w) (<[idx := mkListhead (lh_offset lh) size]> (lheads w))
        (if size <? 56 then lhsize w + 1 else lhsize w + (1 + intsize size))
  end.

Definition listhead_encode (h : listhead) : bytes := puthead 192 247 (lh_size h).

(** [rest] is [w.str[strpos:]]. *)
Fixpoint toBytes_loop (strpos : Z) (rest : bytes) (heads : list listhead) : bytes :=
  match heads with
  | [] => rest
  | h :: hs =>
      let n := Z.to_nat (lh_offset h - strpos) in
      take n rest ++ listhead_encode h ++ toBytes_loop (lh_offset h) (drop n rest) hs
  end.
Definition toBytes (w : encbuf) : bytes := toBytes_loop 0 (str w) (lheads w).

(** ** Writers *)

Definition writeUint (w : encbuf) (i : Z) : encbuf :=
  if i =? 0 then encbuf_write w [128]
  else if i <? 128 then encbuf_write w [i]
  else let s := putint i in encbuf_write w ((128 + Z.of_nat (length s)) :: s).

Definition writeBool (w : encbuf) (b : bool) : encbuf :=
  encbuf_write w [if b then 1 else 128].

Definition writeBigInt (w : encbuf) (i : Z) : encbuf + rlp_error :=
  let cmp := bigCmp i 0 in
  if cmp =? -1 then inr ErrNegativeBigInt
  else if cmp =? 0 then inl (encbuf_write w [128])
  else inl (encodeString w (Int_Bytes i)).

Definition writeBigIntPtr (w : encbuf) (i : option Z) : encbuf + rlp_error :=
  match i with None => inl (encbuf_write w [128]) | Some i => writeBigInt w i end.

(** The elements of a slice, with the writer of the element type, and the
    fields of a struct, with the writer of each field. *)
Fixpoint write_elems (f : rval → encbuf → encbuf + rlp_error) (l : list rval) (w : encbuf)
    : encbuf + rlp_error :=
  match l with
  | [] => inl w
  | v :: l => match f v w with inl w => write_elems f l w | inr e => inr e end
  end.

Fixpoint write_fields (fs : list (rval → encbuf → encbuf + rlp_error)) (l : list rval)
    (w : encbuf) : encbuf + rlp_error :=
  match fs, l with
  | [], [] => inl w
  | f :: fs, v :: l => match f v w with inl w => write_fields fs l w | inr e => inr e end
  | _, _ => inr ErrNotSerializable
  end.

(** [defer w.listEnd(w.list())] around the writing of the elements. *)
Definition write_list (elems : encbuf → encbuf + rlp_error) (w : encbuf) : encbuf + rlp_error :=
  let '(idx, w) := encbuf_list w in
  match elems w with
  | inl w => inl (encbuf_listEnd w idx)
  | inr e => inr e
  end.

(** [makeWriter]: the writer of a type, applied to a value. A value that is not
    of the type cannot occur in Go. *)
Fixpoint write (t : rtype) (v : rval) (w : encbuf) {struct t} : encbuf + rlp_error :=
  match t, v with
  | TUint _, VUint i => inl (writeUint w i)
  | TBool, VBool b => inl (writeBool w b)
  | TBigInt, VBigInt i => writeBigIntPtr w i
  | TString, VBytes b | TByteArray _, VBytes b => inl (encodeString w b)
  | TSlice t, VList l => write_list (write_elems (write t) l) w
  | TStruct ts, VList l => write_list (write_fields (map write ts) l) w
  | TPtr t, VPtr (Some v) => write t v w
  | TPtr (TStruct _), VPtr None => write_list inl w
  | TPtr (TByteArray _), VPtr None => inl (encbuf_write w [128])
  | _, _ => inr ErrNotSerializable
  end.

Definition EncodeToBytes (t : rtype) (v : rval) : bytes + rlp_error :=
  match write t v encbuf_reset with
  | inl w => inl (toBytes w)
  | inr e => inr e
  end.

(** ** The encoding itself *)

Definition enc_string (b : bytes) : bytes :=
  match b with
  | [x] => if x <=? 127 then [x] else puthead 128 183 1 ++ [x]
  | _ => puthead 128 183 (Z.of_nat (length b)) ++ b
  end.

Definition uint_bytes (i : Z) : bytes := if i =? 0 then [] else putint i.

Definition enc_list (payload : bytes) : bytes :=
  puthead 192 247 (Z.of_nat (length payload)) ++ payload.

Fixpoint enc_elems (f : rval → bytes + rlp_error) (l : list rval) : bytes + rlp_error :=
  match l with
  | [] => inl []
  | v :: l =>
      match f v with
      | inl e => match enc_elems f l with inl es => inl (e ++ es) | inr err => inr err end
      | inr err => inr err
      end
  end.

Fixpoint enc_fields (fs : list (rval → bytes + rlp_error)) (l : list rval) : bytes + rlp_error :=
  match fs, l with
  | [], [] => inl []
  | f :: fs, v :: l =>
      match f v with
      | inl e => match enc_fields fs l with inl es => inl (e ++ es) | inr err => inr err end
      | inr err => inr err
      end
  | _, _ => inr ErrNotSerializable
  end.

Definition in_list (payload : bytes + rlp_error) : bytes + rlp_error :=
  match payload with inl p => inl (enc_list p) | inr e => inr e end.

(** The specification of RLP: a string is its length and its bytes, an integer
    the string of its big-endian bytes without leading zeros, a list the length
    and the concatenation of its encoded elements. *)
Fixpoint enc (t : rtype) (v : rval) {struct t} : bytes + rlp_error :=
  match t, v with
  | TUint _, VUint i => inl (enc_string (uint_bytes i))
  | TBool, VBool b => inl (if b then enc_string [1] else enc_string [])
  | TBigInt, VBigInt i =>
      let i := default 0 i in
      if i <? 0 then inr ErrNegativeBigInt else inl (enc_string (Int_Bytes i))
  | TString, VBytes b | TByteArray _, VBytes b => inl (enc_string b)
  | TSlice t, VList l => in_list (enc_elems (enc t) l)
  | TStruct ts, VList l => in_list (enc_fields (map enc ts) l)
  | TPtr t, VPtr (Some v) => enc t v
  | TPtr (TStruct _), VPtr None => inl (enc_list [])
  | TPtr (TByteArray _), VPtr None => inl (enc_string [])
  | _, _ => inr ErrNotSerializable
  end.

(** ** Decoding

    A decoder reads the bytes that are left in the innermost list. *)

Inductive Kind := Byte | String | List.

#[export] Instance Kind_eq_dec : EqDecision Kind.
Proof. solve_decision. Defined.

Definition readByte (w : bytes) : (Z * bytes) + rlp_error :=
  match w with b :: w => inl (b, w) | [] => inr ErrTooLarge end.

Definition readFull (n : nat) (w : bytes) : (bytes * bytes) + rlp_error :=
  if (length w <? n)%nat then inr ErrTooLarge else inl (take n w, drop n w).

Definition readUint (size : Z) (w : bytes) : (Z * bytes) + rlp_error :=
  if size =? 0 then inl (0, w)
  else if size =? 1 then readByte w
  else
    match readFull (Z.to_nat size) w with
    | inr e => inr e
    | inl (b, w) =>
        match b with
        | 0 :: _ => inr ErrCanonSize
        | _ => inl (SetBytes b, w)
        end
    end.

(** [readKind] returns the kind, the size of the content, the byte value and
    the bytes after the header. *)
Definition readKind (w : bytes) : (Kind * Z * Z * bytes) + rlp_error :=
  match readByte w with
  | inr e => inr e
  | inl (b, w) =>
      let long (k : Kind) (n : Z) :=
        match readUint n w with
        | inr e => inr e
        | inl (size, w) => if size <? 56 then inr ErrCanonSize else inl (k, size, 0, w)
        end in
      if b <? 128 then inl (Byte, 0, b, w)
      else if b <? 184 then inl (String, b - 128, 0, w)
      else if b <? 192 then long String (b - 183)
      else if b <? 248 then inl (List, b - 192, 0, w)
      else long List (b - 247)
  end.

(** [Stream.Kind]: the end of the list, or the next header and a check that its
    content fits. *)
Definition Stream_Kind (w : bytes) : (Kind * Z * Z * bytes) + rlp_error :=
  match w with
  | [] => inr EOL
  | _ =>
      match readKind w with
      | inr e => inr e
      | inl (k, size, byteval, w) =>
          if Z.of_nat (length w) <? size then inr ErrTooLarge else inl (k, size, byteval, w)
      end
  end.

Definition Stream_Bytes (w : bytes) : (bytes * bytes) + rlp_error :=
  match Stream_Kind w with
  | inr e => inr e
  | inl (Byte, _, byteval, w) => inl ([byteval], w)
  | inl (String, size, _, w) =>
      match readFull (Z.to_nat size) w with
      | inr e => inr e
      | inl (b, w) =>
          match b with
          | [x] => if x <? 128 then inr ErrCanonSize else inl (b, w)
          | _ => inl (b, w)
          end
      end
  | inl (List, _, _, _) => inr ErrExpectedString
  end.

Definition Stream_uint (maxbits : Z) (w : bytes) : (Z * bytes) + rlp_error :=
  match Stream_Kind w with
  | inr e => inr e
  | inl (Byte, _, byteval, w) => if byteval =? 0 then inr ErrCanonInt else inl (byteval, w)
  | inl (String, size, _, w) =>
      if maxbits / 8 <? size then inr ErrUintOverflow
      else
        match readUint size w with
        | inr ErrCanonSize => inr ErrCanonInt
        | inr e => inr e
        | inl (v, w) => if (0 <? size) && (v <? 128) then inr ErrCanonSize else inl (v, w)
        end
  | inl (List, _, _, _) => inr ErrExpectedString
  end.

Definition Stream_Bool (w : bytes) : (bool * bytes) + rlp_error :=
  match Stream_uint 8 w with
  | inr e => inr e
  | inl (num, w) =>
      if num =? 0 then inl (false, w)
      else if num =? 1 then inl (true, w)
      else inr ErrInvalidBool
  end.

(** [Stream.List]: the content of the list and the bytes after it. *)
Definition Stream_List (w : bytes) : (bytes * bytes) + rlp_error :=
  match Stream_Kind w with
  | inr e => inr e
  | inl (List, size, _, w) => inl (take (Z.to_nat size) w, drop (Z.to_nat size) w)
  | inl _ => inr ErrExpectedList
  end.

(** What a decoder leaves in its variable, and the rest of the input or the
    error it stopped with. *)
Abbreviation decoded := (rval * (bytes + rlp_error))%type.

Definition decodeUint (bits : Z) (init : rval) (w : bytes) : decoded :=
  match Stream_uint bits w with inl (n, w) => (VUint n, inl w) | inr e => (init, inr e) end.

Definition decodeBool (init : rval) (w : bytes) : decoded :=
  match Stream_Bool w with inl (b, w) => (VBool b, inl w) | inr e => (init, inr e) end.

Definition decodeString (init : rval) (w : bytes) : decoded :=
  match Stream_Bytes w with inl (b, w) => (VBytes b, inl w) | inr e => (init, inr e) end.

(** A nil pointer is replaced before the digits are checked. *)
Definition decodeBigInt (init : rval) (w : bytes) : decoded :=
  match Stream_Bytes w with
  | inr e => (init, inr e)
  | inl (b, w) =>
      let i := match init with VBigInt (Some i) => i | _ => 0 end in
      match b with
      | 0 :: _ => (VBigInt (Some i), inr ErrCanonInt)
      | _ => (VBigInt (Some (SetBytes b)), inl w)
      end
  end.

(** The arrays of the source have more than one byte; the branch for a single
    byte, where [Stream.Uint] refuses a zero byte, is not used. *)
Definition decodeByteArray (vlen : nat) (init : rval) (w : bytes) : decoded :=
  match Stream_Kind w with
  | inr e => (init, inr e)
  | inl (Byte, _, byteval, w) =>
      if (vlen =? 0)%nat then (init, inr ErrTooLong)
      else if (1 <? vlen)%nat then (init, inr ErrTooShort)
      else (VBytes [byteval], inl w)
  | inl (String, size, _, w) =>
      if Z.of_nat vlen <? size then (init, inr ErrTooLong)
      else if size <? Z.of_nat vlen then (init, inr ErrTooShort)
      else
        match readFull vlen w with
        | inr e => (init, inr e)
        | inl (b, w) =>
            match b with
            | [x] => if x <? 128 then (VBytes b, inr ErrCanonSize) else (VBytes b, inl w)
            | _ => (VBytes b, inl w)
            end
        end
  | inl (List, _, _, _) => (init, inr ErrExpectedString)
  end.

(** [decodeSliceElems]: elements until the end of the list. Every element
    takes at least one byte, so the length of the content is enough fuel. *)
Fixpoint decodeSliceElems (fuel : nat) (zero : rval) (elemdec : rval → bytes → decoded)
    (l : list rval) (w : bytes) : list rval * option rlp_error :=
  match fuel with
  | O => (l, None)
  | S fuel =>
      match elemdec zero w with
      | (_, inr EOL) => (l, None)
      | (v, inr e) => (l ++ [v], Some e)
      | (v, inl w) => decodeSliceElems fuel zero elemdec (l ++ [v]) w
      end
  end.

(** The fields of a struct in order; [l] holds their initial values. *)
Fixpoint decodeFields (decs : list (rval → bytes → decoded)) (l : list rval) (w : bytes)
    : list rval * (bytes + rlp_error) :=
  match decs, l with
  | dec :: decs, v :: l =>
      match dec v w with
      | (v, inr EOL) => (v :: l, inr ErrTooFew)
      | (v, inr e) => (v :: l, inr e)
      | (v, inl w) => let '(l, r) := decodeFields decs l w in (v :: l, r)
      end
  | _, _ => (l, inl w)
  end.

(** The zero value of a type. *)
Fixpoint zero (t : rtype) : rval :=
  match t with
  | TUint _ => VUint 0
  | TBool => VBool false
  | TBigInt => VBigInt None
  | TString => VBytes []
  | TByteArray n => VBytes (replicate n 0)
  | TSlice _ => VList []
  | TStruct ts => VList (map zero ts)
  | TPtr _ => VPtr None
  end.

(** [makeDecoder]: the decoder of a type, applied to a variable. A slice
    variable is nil when it is decoded into. *)
Fixpoint decode (t : rtype) (init : rval) (w : bytes) {struct t} : decoded :=
  match t with
  | TUint bits => decodeUint bits init w
  | TBool => decodeBool init w
  | TBigInt => decodeBigInt init w
  | TString => decodeString init w
  | TByteArray n => decodeByteArray n init w
  | TSlice t =>
      match Stream_List w with
      | inr e => (init, inr e)
      | inl (content, w) =>
          match decodeSliceElems (S (length content)) (zero t) (decode t) [] content with
          | (l, None) => (VList l, inl w)
          | (l, Some e) => (VList l, inr e)
          end
      end
  | TStruct ts =>
      match Stream_List w, init with
      | inl (content, w), VList l =>
          match decodeFields (map decode ts) l content with
          | (l, inr e) => (VList l, inr e)
          | (l, inl []) => (VList l, inl w)
          | (l, inl _) => (VList l, inr ErrNotAtEOL)
          end
      | inl _, _ => (init, inr ErrNotSerializable)
      | inr e, _ => (init, inr e)
      end
  | TPtr t =>
      match decode t (match init with VPtr (Some v) => v | _ => zero t end) w with
      | (v, inl w) => (VPtr (Some v), inl w)
      | (v, inr e) => (match init with VPtr (Some _) => VPtr (Some v) | _ => init end, inr e)
      end
  end.

(** [DecodeBytes] into a variable with the value [init]: the value left there
    and the error. At the top level the end of the input is [io.EOF]. *)
Definition DecodeBytes (t : rtype) (init : rval) (b : bytes) : rval * option rlp_error :=
  match decode t init b with
  | (v, inl []) => (v, None)
  | (v, inl _) => (v, Some ErrMoreThanOneValue)
  | (v, inr EOL) => (v, Some EOF)
  | (v, inr e) => (v, Some e)
  end.

(** ** rlp/raw.go: splitting without a stream *)

Definition readSize (b : bytes) (slen : Z) : Z + rlp_error :=
  if Z.of_nat (length b) <? slen then inr ErrTooLarge
  else
    let s := SetBytes (take (Z.to_nat slen) b) in
    if (s <? 56) || match b with 0 :: _ => true | _ => false end then inr ErrCanonSize
    else inl s.

(** [readKind] of raw.go: the kind, the size of the tag and of the content. *)
Definition raw_readKind (buf : bytes) : (Kind * Z * Z) + rlp_error :=
  match buf with
  | [] => inr ErrTooLarge
  | b :: rest =>
      let fits (k : Kind) (tagsize contentsize : Z) :=
        if Z.of_nat (length buf) - tagsize <? contentsize then inr ErrTooLarge
        else inl (k, tagsize, contentsize) in
      let long (k : Kind) (n : Z) :=
        match readSize rest n with inr e => inr e | inl s => fits k (n + 1) s end in
      if b <? 128 then fits Byte 0 1
      else if b <? 184 then
        if (b - 128 =? 1) && match rest with x :: _ => x <? 128 | [] => false end
        then inr ErrCanonSize
        else fits String 1 (b - 128)
      else if b <? 192 then long String (b - 183)
      else if b <? 248 then fits List 1 (b - 192)
      else long List (b - 247)
  end.

Definition Split (b : bytes) : (Kind * bytes * bytes) + rlp_error :=
  match raw_readKind b with
  | inr e => inr e
  | inl (k, ts, cs) =>
      let rest := drop (Z.to_nat ts) b in
      inl (k, take (Z.to_nat cs) rest, drop (Z.to_nat cs) rest)
  end.

Definition SplitString (b : bytes) : (bytes * bytes) + rlp_error :=
  match Split b with
  | inr e => inr e
  | inl (List, _, _) => inr ErrExpectedString
  | inl (_, content, rest) => inl (content, rest)
  end.

Definition SplitList (b : bytes) : (bytes * bytes) + rlp_error :=
  match Split b with
  | inr e => inr e
  | inl (List, content, rest) => inl (content, rest)
  | inl _ => inr ErrExpectedList
  end.

(** Every value takes a byte at least, so the length of the input is enough
    fuel. *)
Fixpoint CountValues_loop (fuel : nat) (i : Z) (b : bytes) : Z + rlp_error :=
  match fuel, b with
  | _, [] => inl i
  | O, _ => inl i
  | S fuel, _ =>
      match raw_readKind b with
      | inr e => inr e
      | inl (_, tagsize, size) => CountValues_loop fuel (i + 1) (drop (Z.to_nat (tagsize + size)) b)
      end
  end.
Definition CountValues (b : bytes) : Z + rlp_error := CountValues_loop (length b) 0 b.
