(* ===== verification/RlpFacts.v ===== *)
(** * Correctness of the RLP package

    [EncodeToBytes] with its two-part buffer implements the specification [enc]
    ([rlp_encbuf_refines_spec]), decoding an encoded value gives the value back
    ([rlp_roundtrip]), and the decoder accepts no other input
    ([rlp_canonical]). *)

From stdpp Require Import base list gmap strings.
From Stdlib Require Import ZArith Lia.
From S2P Require Import Prelude Bytes Rlp.

(** A value of a type. *)
Fixpoint has_types (fs : list (rval → Prop)) (l : list rval) : Prop :=
  match fs, l with
  | [], [] => True
  | f :: fs, v :: l => f v ∧ has_types fs l
  | _, _ => False
  end.

Fixpoint has_type (t : rtype) (v : rval) {struct t} : Prop :=
  match t, v with
  | TUint bits, VUint i => (bits = 8 ∨ bits = 16 ∨ bits = 32 ∨ bits = 64) ∧ 0 <= i < 2 ^ bits
  | TBool, VBool _ => True
  | TBigInt, VBigInt _ => True
  | TString, VBytes b => are_bytes b
  | TByteArray n, VBytes b => length b = n ∧ are_bytes b
  | TSlice t, VList l => Forall (has_type t) l
  | TStruct ts, VList l => has_types (map has_type ts) l
  | TPtr t, VPtr v => match v with Some v => has_type t v | None => True end
  | _, _ => False
  end.

Section rtype_ind.
  Context (P : rtype → Prop).
  Context (HUint : ∀ bits, P (TUint bits)) (HBool : P TBool) (HBig : P TBigInt)
  (HString : P TString) (HArray : ∀ n, P (TByteArray n))
  (HSlice : ∀ t, P t → P (TSlice t))
  (HStruct : ∀ ts, Forall P ts → P (TStruct ts)) (HPtr : ∀ t, P t → P (TPtr t)).

(** Induction over types, with the fields of a struct. *)
Fixpoint rtype_ind' (t : rtype) : P t :=
  match t with
  | TUint bits => HUint bits
  | TBool => HBool
  | TBigInt => HBig
  | TString => HString
  | TByteArray n => HArray n
  | TSlice t => HSlice t (rtype_ind' t)
  | TStruct ts =>
      HStruct ts ((fix go ts : Forall P ts :=
                     match ts with
                     | [] => Forall_nil_2 P
                     | t :: ts => Forall_cons_2 P t ts (rtype_ind' t) (go ts)
                     end) ts)
  | TPtr t => HPtr t (rtype_ind' t)
  end.
End rtype_ind.

(** ** putint and intsize *)

Lemma putint_length_intsize i : 0 <= i → Z.of_nat (length (putint i)) = intsize i.
Proof.
  intros Hi. unfold putint, intsize. cbn [intsize_loop].
  rewrite !Z.shiftr_shiftr, !Z.shiftr_div_pow2 by lia. simpl Z.add.
  repeat (match goal with |- context [if i <? ?b then _ else _] => destruct (Z.ltb_spec i b) end;
    [repeat match goal with |- context [if i / ?b =? 0 then _ else _] =>
       destruct (Z.eqb_spec (i / b) 0) as [?|?];
       [|try (exfalso; apply n; apply Z.div_small; lia)] end;
     rewrite ?length_be_bytes; try lia; try (exfalso; Z.to_euclidean_division_equations; lia)|]).
  repeat match goal with |- context [if i / ?b =? 0 then _ else _] =>
    destruct (Z.eqb_spec (i / b) 0) as [?|?]; [exfalso; Z.to_euclidean_division_equations; lia|] end.
  rewrite length_be_bytes. lia.
Qed.

Lemma puthead_length small large size :
  0 <= size → Z.of_nat (length (puthead small large size)) = headsize size.
Proof.
  intros. unfold puthead, headsize. destruct (size <? 56); [done|].
  cbn [length]. rewrite Nat2Z.inj_succ, putint_length_intsize; lia.
Qed.

(** ** The buffer

    [seg o s hs e]: string data [s] written at offset [o] with the headers [hs]
    stands for the bytes [e], whatever is written after it. *)

Definition heads_from (o : Z) (hs : list listhead) : Prop :=
  Forall (fun h => o <= lh_offset h) hs.

Definition heads_size (hs : list listhead) : Z := sumZ (fun h => headsize (lh_size h)) hs.

Record seg (o : Z) (s : bytes) (hs : list listhead) (e : bytes) : Prop := {
  seg_render : ∀ s' hs', heads_from (o + Z.of_nat (length s)) hs' →
    toBytes_loop o (s ++ s') (hs ++ hs') =
    e ++ toBytes_loop (o + Z.of_nat (length s)) s' hs';
  seg_from : heads_from o hs;
  seg_size : Z.of_nat (length e) = Z.of_nat (length s) + heads_size hs;
}.

Lemma heads_from_mono o o' hs : o <= o' → heads_from o' hs → heads_from o hs.
Proof. intros ? H. eapply Forall_impl; [exact H|]. intros h ?. simpl in *. lia. Qed.

Lemma heads_size_app h1 h2 : heads_size (h1 ++ h2) = heads_size h1 + heads_size h2.
Proof. apply sumZ_app. Qed.

Lemma seg_str o s : seg o s [] s.
Proof.
  split; [|constructor|unfold heads_size; simpl; lia].
  intros s' hs' Hfrom. simpl. destruct hs' as [|h hs']; [done|]. cbn [toBytes_loop].
  apply Forall_cons in Hfrom as [Hh _]. simpl in Hh.
  rewrite take_app, drop_app, (take_ge s), (drop_ge s) by lia.
  replace (Z.to_nat (lh_offset h - (o + Z.of_nat (length s))))
    with (Z.to_nat (lh_offset h - o) - length s)%nat by lia.
  by rewrite app_nil_l, <- app_assoc.
Qed.

Lemma seg_app o s1 hs1 e1 s2 hs2 e2 :
  seg o s1 hs1 e1 → seg (o + Z.of_nat (length s1)) s2 hs2 e2 →
  seg o (s1 ++ s2) (hs1 ++ hs2) (e1 ++ e2).
Proof.
  intros [R1 F1 S1] [R2 F2 S2]. split.
  - intros s' hs' Hfrom. rewrite length_app, Nat2Z.inj_add in *. rewrite Z.add_assoc in *.
    rewrite <- !app_assoc, R1, R2, !app_assoc; [done|done|].
    apply Forall_app. split; [done|]. eapply heads_from_mono; [|done]. lia.
  - apply Forall_app. split; [done|]. eapply heads_from_mono; [|done]. lia.
  - rewrite !length_app, !Nat2Z.inj_add, heads_size_app. lia.
Qed.

Lemma seg_list o s hs e :
  seg o s hs e →
  seg o s (mkListhead o (Z.of_nat (length e)) :: hs) (enc_list e).
Proof.
  intros [R F S]. split.
  - intros s' hs' Hfrom. cbn [app toBytes_loop lh_offset]. rewrite Z.sub_diag.
    change (Z.to_nat 0) with O. rewrite take_0, drop_0. cbn [app]. rewrite R by done.
    unfold enc_list, listhead_encode. simpl. by rewrite <- app_assoc.
  - constructor; [simpl; lia|done].
  - unfold enc_list, heads_size in *. simpl.
    rewrite length_app, Nat2Z.inj_add, puthead_length by lia. lia.
Qed.

(** A writer that extends the buffer by a segment for the bytes [e]. *)
Definition writes (w : encbuf) (r : encbuf + rlp_error) (e : bytes + rlp_error) : Prop :=
  match e with
  | inr err => r = inr err
  | inl e => ∃ s hs, seg (Z.of_nat (length (str w))) s hs e ∧
      r = inl (mkEncbuf (str w ++ s) (lheads w ++ hs) (lhsize w + heads_size hs))
  end.

Lemma encbuf_write_writes w b : writes w (inl (encbuf_write w b)) (inl b).
Proof.
  exists b, []. split; [apply seg_str|]. unfold encbuf_write, heads_size. simpl.
  by rewrite app_nil_r, Z.add_0_r.
Qed.

Lemma encodeString_writes w b : writes w (inl (encodeString w b)) (inl (enc_string b)).
Proof.
  assert (H : ∀ b, writes w (inl (encbuf_write (encodeStringHeader w (Z.of_nat (length b))) b))
             (inl (puthead 128 183 (Z.of_nat (length b)) ++ b))).
  { intros c. unfold encodeStringHeader, puthead. destruct (Z.ltb_spec (Z.of_nat (length c)) 56).
    - unfold encbuf_write. simpl. rewrite <- app_assoc. apply encbuf_write_writes.
    - unfold encbuf_write. simpl. rewrite <- app_assoc. apply encbuf_write_writes. }
  destruct b as [|x [|y b]]; [apply (H [])| |apply (H (x :: y :: b))].
  unfold encodeString, enc_string. destruct (x <=? 127); [apply encbuf_write_writes|apply (H [x])].
Qed.

Lemma writeUint_writes w i :
  0 <= i → writes w (inl (writeUint w i)) (inl (enc_string (uint_bytes i))).
Proof.
  intros Hi. unfold writeUint, uint_bytes. destruct (Z.eqb_spec i 0); [apply encbuf_write_writes|].
  destruct (Z.ltb_spec i 128).
  { unfold putint, enc_string. destruct (Z.ltb_spec i (2 ^ 8)); [|lia]. simpl.
    rewrite Z.mod_small by lia. destruct (Z.leb_spec i 127); [|lia]. apply encbuf_write_writes. }
  assert (enc_string (putint i) = (128 + Z.of_nat (length (putint i))) :: putint i) as ->;
    [|apply encbuf_write_writes].
  unfold putint. repeat (case_match; [|]);
    try (rewrite length_be_bytes; unfold enc_string; simpl; done).
  simpl. rewrite Z.mod_small by lia. destruct (Z.leb_spec i 127); [lia|done].
Qed.

Lemma writeBigIntPtr_writes w i :
  writes w (writeBigIntPtr w i)
    (if default 0 i <? 0 then inr ErrNegativeBigInt else inl (enc_string (Int_Bytes (default 0 i)))).
Proof.
  destruct i as [i|]; simpl; [|apply encbuf_write_writes]. unfold writeBigInt, bigCmp.
  destruct (Z.ltb_spec i 0); [done|]. destruct (Z.eqb_spec i 0) as [->|?]; simpl.
  - apply encbuf_write_writes.
  - apply encodeString_writes.
Qed.

Lemma write_list_writes w elems e :
  (∀ w, writes w (elems w) e) → writes w (write_list elems w) (in_list e).
Proof.
  intros He. unfold write_list, encbuf_list. cbn [fst snd].
  set (w1 := mkEncbuf _ _ _). specialize (He w1). destruct e as [e|err]; simpl in *; [|by rewrite He].
  destruct He as (s & hs & Hseg & ->). exists s, (mkListhead (Z.of_nat (length (str w))) (Z.of_nat (length e)) :: hs).
  split; [by apply seg_list|]. unfold encbuf_listEnd, encbuf_size. simpl.
  rewrite <- app_assoc, lookup_app_r, Nat.sub_diag by lia. simpl.
  destruct Hseg as [_ _ HS]. f_equal.
  assert (Hsz : Z.of_nat (length (str w ++ s)) + (lhsize w + heads_size hs)
    - Z.of_nat (length (str w)) - lhsize w = Z.of_nat (length e)).
  { rewrite length_app. lia. }
  rewrite Hsz. f_equal.
  - rewrite insert_app_r_alt, Nat.sub_diag by lia. done.
  - unfold heads_size, headsize. simpl. fold (heads_size hs). destruct (_ <? 56); lia.
Qed.

Lemma writes_seq w r1 e1 (k : encbuf → encbuf + rlp_error) e2 :
  writes w r1 e1 → (∀ w, writes w (k w) e2) →
  writes w (match r1 with inl w => k w | inr e => inr e end)
    (match e1 with
     | inl e => match e2 with inl es => inl (e ++ es) | inr err => inr err end
     | inr err => inr err
     end).
Proof.
  intros H1 H2. destruct e1 as [e1|err]; simpl in H1; [|by rewrite H1].
  destruct H1 as (s & hs & Hseg & ->).
  specialize (H2 (mkEncbuf (str w ++ s) (lheads w ++ hs) (lhsize w + heads_size hs))).
  destruct e2 as [e2|err]; simpl in *; [|done].
  destruct H2 as (s2 & hs2 & Hseg2 & ->). rewrite length_app, Nat2Z.inj_add in Hseg2.
  exists (s ++ s2), (hs ++ hs2). split; [by eapply seg_app|].
  by rewrite heads_size_app, !app_assoc, Z.add_assoc.
Qed.

Lemma writes_nil w : writes w (inl w) (inl []).
Proof.
  destruct w. exists [], []. split; [apply seg_str|]. simpl. rewrite !app_nil_r. do 2 f_equal.
  unfold heads_size; simpl; lia.
Qed.

Lemma write_writes t v w : has_type t v → writes w (write t v w) (enc t v).
Proof.
  revert v w. induction t as [bits| | | |n|t IH|ts IH|t IH] using rtype_ind';
    intros [i|b|i|b|l|v] w Hty; try done; cbn [write enc].
  - destruct Hty as [_ Hi]. apply writeUint_writes. lia.
  - destruct b; apply encbuf_write_writes.
  - apply writeBigIntPtr_writes.
  - apply encodeString_writes.
  - apply encodeString_writes.
  - apply write_list_writes. simpl in Hty. induction Hty as [|v l Hv Hl IHl]; intros w'; simpl.
    + apply writes_nil.
    + by apply writes_seq; [apply IH|].
  - apply write_list_writes. simpl in Hty. revert l Hty.
    induction IH as [|t ts Ht _ IHts]; intros [|v l] Hty w'; try done; simpl.
    + apply writes_nil.
    + destruct Hty as [Hv Hl]. by apply writes_seq; [apply Ht|intros; apply IHts].
  - destruct v as [v|]; [specialize (IH v w Hty); by destruct t|]. destruct t; try done.
    + apply (encbuf_write_writes w [128]).
    + apply (write_list_writes w inl (inl [])). apply writes_nil.
Qed.

Lemma EncodeToBytes_enc t v : has_type t v → EncodeToBytes t v = enc t v.
Proof.
  intros Hty. unfold EncodeToBytes. pose proof (write_writes t v encbuf_reset Hty) as H.
  destruct (enc t v) as [e|err]; simpl in H; [|by rewrite H].
  destruct H as (s & hs & [R _ _] & ->). unfold toBytes. simpl. f_equal.
  specialize (R [] [] ltac:(constructor)). rewrite !app_nil_r in R. exact R.
Qed.

(** ** Reading integers and headers back *)

Lemma be_bytes_cons k i : be_bytes (S k) i = (i / 256 ^ Z.of_nat k) mod 256 :: be_bytes k i.
Proof.
  revert i. induction k as [|k IH]; intros i; [simpl; by rewrite Z.div_1_r|].
  cbn [be_bytes]. cbn [be_bytes] in IH. rewrite IH. simpl app. f_equal.
  rewrite Z.div_div by lia. rewrite Nat2Z.inj_succ, Z.pow_succ_r by lia. done.
Qed.

Lemma Int_Bytes_head i bs : 0 <= i → Int_Bytes i ≠ 0 :: bs.
Proof.
  intros Hi. unfold Int_Bytes. destruct (Z.eqb_spec i 0); [done|]. unfold byte_len.
  pose proof (Z.log2_nonneg i). pose proof (Z.log2_spec i ltac:(lia)) as [Hlow Hup].
  replace (Z.to_nat ((Z.log2 i + 8) / 8)) with (S (Z.to_nat (Z.log2 i / 8))).
  2: { replace (Z.log2 i + 8) with (Z.log2 i + 1 * 8) by lia. rewrite Z.div_add by lia.
       pose proof (Z.div_pos (Z.log2 i) 8). lia. }
  rewrite be_bytes_cons. intros [= Hhead _]. revert Hhead.
  assert (0 <= Z.log2 i / 8) by (apply Z.div_pos; lia). rewrite Z2Nat.id by done.
  change 256 with (2 ^ 8) at 1. rewrite <- Z.pow_mul_r by lia.
  assert (8 * (Z.log2 i / 8) <= Z.log2 i < 8 * (Z.log2 i / 8) + 8).
  { pose proof (Z.div_mod (Z.log2 i) 8). pose proof (Z.mod_pos_bound (Z.log2 i) 8). lia. }
  assert (0 < 2 ^ (8 * (Z.log2 i / 8))) by (apply Z.pow_pos_nonneg; lia).
  assert (0 < i / 2 ^ (8 * (Z.log2 i / 8))).
  { apply Z.div_str_pos. split; [done|]. etransitivity; [|exact Hlow]. apply Z.pow_le_mono_r; lia. }
  rewrite Z.mod_small; [lia|]. split; [lia|]. apply Z.div_lt_upper_bound; [done|].
  eapply Z.lt_le_trans; [exact Hup|]. change 256 with (2 ^ 8). rewrite <- Z.pow_add_r by lia.
  apply Z.pow_le_mono_r; lia.
Qed.

Lemma putint_spec i :
  is_u64 i → ∃ k, (k < 8)%nat ∧ putint i = be_bytes (S k) i ∧
    (k = O ∨ 256 ^ Z.of_nat k <= i) ∧ i < 256 ^ Z.of_nat (S k).
Proof.
  unfold is_u64, two64. intros Hi. unfold putint.
  repeat (case_match; [|]); repeat match goal with H : (_ <? _) = _ |- _ =>
    first [apply Z.ltb_lt in H | apply Z.ltb_ge in H] end.
  1: exists 0%nat. 2: exists 1%nat. 3: exists 2%nat. 4: exists 3%nat. 5: exists 4%nat.
  6: exists 5%nat. 7: exists 6%nat. 8: exists 7%nat.
  all: split_and!; try lia; try done.
Qed.

Lemma putint_are_bytes i : is_u64 i → are_bytes (putint i).
Proof. intros Hi. destruct (putint_spec i Hi) as (k & _ & -> & _). apply be_bytes_are_bytes. Qed.

Lemma SetBytes_putint i : is_u64 i → SetBytes (putint i) = i.
Proof.
  intros Hi. destruct (putint_spec i Hi) as (k & _ & -> & _ & ?).
  rewrite SetBytes_be_bytes. apply Z.mod_small. unfold is_u64 in Hi. lia.
Qed.

(** The first byte of a number written with the least number of bytes. *)
Lemma putint_head i :
  is_u64 i → 0 < i → ∃ b bs, putint i = b :: bs ∧ b ≠ 0 ∧ (length bs < 8)%nat ∧ (bs = [] → b = i).
Proof.
  intros Hi Hpos. destruct (putint_spec i Hi) as (k & Hk & -> & Hlow & Hup).
  rewrite be_bytes_cons. do 2 eexists. split; [done|].
  rewrite Nat2Z.inj_succ, Z.pow_succ_r in Hup by lia.
  assert (0 < 256 ^ Z.of_nat k) by lia.
  assert (i / 256 ^ Z.of_nat k < 256) by (apply Z.div_lt_upper_bound; lia).
  assert (0 < i / 256 ^ Z.of_nat k).
  { destruct Hlow as [-> | Hlow]; [simpl; rewrite Z.div_1_r; lia|].
    apply Z.div_str_pos. lia. }
  rewrite Z.mod_small by lia. rewrite length_be_bytes. split_and!; [lia|lia|].
  destruct k; [intros _; by rewrite Z.div_1_r|].
  intros Hnil. apply (f_equal length) in Hnil. rewrite length_be_bytes in Hnil. done.
Qed.

Lemma readUint_putint i rest :
  is_u64 i → 0 < i → readUint (Z.of_nat (length (putint i))) (putint i ++ rest) = inl (i, rest).
Proof.
  intros Hi Hpos. destruct (putint_head i Hi Hpos) as (b & bs & E & Hb & Hlen & Hone).
  pose proof (SetBytes_putint i Hi) as Hset. unfold readUint.
  rewrite E in *. cbn [length]. destruct bs as [|c bs].
  - simpl. by rewrite Hone.
  - destruct (Z.eqb_spec (Z.of_nat (S (length (c :: bs)))) 0); [lia|].
    destruct (Z.eqb_spec (Z.of_nat (S (length (c :: bs)))) 1); [simpl in *; lia|].
    unfold readFull. rewrite Nat2Z.id.
    change (S (length (c :: bs))) with (length (b :: c :: bs)).
    rewrite length_app. destruct (Nat.ltb_spec (length (b :: c :: bs) + length rest) (length (b :: c :: bs))); [lia|].
    rewrite take_app_length, drop_app_length. rewrite Hset. by destruct b.
Qed.

(** A header read back, for a string (128, 183) or a list (192, 247). *)
Lemma readKind_puthead k small large size rest :
  (k = String ∧ small = 128 ∧ large = 183 ∨ k = List ∧ small = 192 ∧ large = 247) →
  is_u64 size →
  readKind (puthead small large size ++ rest) = inl (k, size, 0, rest).
Proof.
  intros Hk Hs. unfold puthead. destruct (Z.ltb_spec size 56).
  - unfold readKind. unfold is_u64 in Hs. cbn [app readByte].
    destruct Hk as [(-> & -> & ->)|(-> & -> & ->)];
      repeat (match goal with |- context [?a <? ?b] => destruct (Z.ltb_spec a b); [try lia|try lia] end);
      repeat f_equal; lia.
  - destruct (putint_head size Hs ltac:(lia)) as (b & bs & E & _ & Hlen & _).
    pose proof (readUint_putint size rest Hs ltac:(lia)) as Hread.
    unfold readKind. cbn [app readByte]. rewrite E in Hread |- *.
    set (n := Z.of_nat (length (b :: bs))) in *.
    assert (1 <= n <= 8) by (subst n; cbn [length]; lia).
    destruct Hk as [(-> & -> & ->)|(-> & -> & ->)];
      repeat (match goal with |- context [?a + n <? ?b] => destruct (Z.ltb_spec (a + n) b); [try lia|try lia] end).
    + replace (183 + n - 183) with n by lia. rewrite Hread.
      destruct (Z.ltb_spec size 56); [lia|done].
    + replace (247 + n - 247) with n by lia. rewrite Hread.
      destruct (Z.ltb_spec size 56); [lia|done].
Qed.

Lemma puthead_not_nil small large size rest : puthead small large size ++ rest ≠ [].
Proof. unfold puthead. by destruct (size <? 56). Qed.

Lemma Stream_Kind_puthead k small large (content rest : bytes) :
  (k = String ∧ small = 128 ∧ large = 183 ∨ k = List ∧ small = 192 ∧ large = 247) →
  is_u64 (Z.of_nat (length content)) →
  Stream_Kind (puthead small large (Z.of_nat (length content)) ++ content ++ rest) =
  inl (k, Z.of_nat (length content), 0, content ++ rest).
Proof.
  intros Hk Hs. unfold Stream_Kind.
  pose proof (puthead_not_nil small large (Z.of_nat (length content)) (content ++ rest)).
  rewrite (readKind_puthead k) by done. rewrite length_app.
  destruct (Z.ltb_spec (Z.of_nat (length content + length rest)) (Z.of_nat (length content))); [lia|].
  by destruct (_ ++ _).
Qed.

Lemma readFull_app (b rest : bytes) : readFull (length b) (b ++ rest) = inl (b, rest).
Proof.
  unfold readFull. rewrite length_app.
  destruct (Nat.ltb_spec (length b + length rest) (length b)); [lia|].
  by rewrite take_app_length, drop_app_length.
Qed.

Lemma Stream_Kind_enc_string b rest :
  are_bytes b → is_u64 (Z.of_nat (length b)) →
  (∃ x, b = [x] ∧ x < 128 ∧ Stream_Kind (enc_string b ++ rest) = inl (Byte, 0, x, rest)) ∨
  (¬ (∃ x, b = [x] ∧ x < 128) ∧
   Stream_Kind (enc_string b ++ rest) = inl (String, Z.of_nat (length b), 0, b ++ rest)).
Proof.
  intros Hb Hlen.
  assert (Hgen : enc_string b = puthead 128 183 (Z.of_nat (length b)) ++ b →
    Stream_Kind (enc_string b ++ rest) = inl (String, Z.of_nat (length b), 0, b ++ rest)).
  { intros ->. rewrite <- app_assoc. apply Stream_Kind_puthead; [by left|done]. }
  destruct b as [|x [|y b]].
  - right. split; [naive_solver|by apply Hgen].
  - rewrite Forall_singleton in Hb. unfold is_byte in Hb. destruct (Z.leb_spec x 127) as [Hx|Hx].
    + left. exists x. split_and!; [done|lia|]. unfold enc_string. rewrite (proj2 (Z.leb_le _ _) Hx).
      unfold Stream_Kind, readKind. simpl. destruct (Z.ltb_spec x 128); [|lia].
      destruct (Z.ltb_spec (Z.of_nat (length rest)) 0); [lia|done].
    + right. split; [intros (z & [= ->] & ?); lia|]. apply Hgen. unfold enc_string.
      destruct (Z.leb_spec x 127); [lia|done].
  - right. split; [naive_solver|by apply Hgen].
Qed.

Lemma Stream_Bytes_enc_string b rest :
  are_bytes b → is_u64 (Z.of_nat (length b)) → Stream_Bytes (enc_string b ++ rest) = inl (b, rest).
Proof.
  intros Hb Hlen. unfold Stream_Bytes.
  destruct (Stream_Kind_enc_string b rest Hb Hlen) as [(x & -> & Hx & ->)|[Hnot ->]]; [done|].
  rewrite Nat2Z.id, readFull_app. destruct b as [|x [|y b]]; [done| |done].
  destruct (Z.ltb_spec x 128); [|done]. exfalso. apply Hnot. eauto.
Qed.

Lemma Stream_List_enc_list p rest :
  is_u64 (Z.of_nat (length p)) → Stream_List (enc_list p ++ rest) = inl (p, rest).
Proof.
  intros Hp. unfold Stream_List, enc_list. rewrite <- app_assoc.
  rewrite (Stream_Kind_puthead List) by (by auto).
  by rewrite Nat2Z.id, take_app_length, drop_app_length.
Qed.

Lemma uint_bytes_spec bits i :
  (bits = 8 ∨ bits = 16 ∨ bits = 32 ∨ bits = 64) → 0 <= i < 2 ^ bits →
  is_u64 i ∧ Z.of_nat (length (uint_bytes i)) <= bits / 8.
Proof.
  intros Hbits Hi. assert (Hu : is_u64 i).
  { unfold is_u64, two64. destruct Hbits as [-> | [-> | [-> | ->]]]; lia. }
  split; [done|]. unfold uint_bytes. destruct (Z.eqb_spec i 0); [destruct Hbits as [-> | [-> | [-> | ->]]]; done|].
  destruct (putint_spec i Hu) as (k & Hk & -> & Hlow & _). rewrite length_be_bytes.
  destruct (Nat.le_gt_cases k 0) as [|Hk0]; [assert (k = 0%nat) as -> by lia; destruct Hbits as [-> | [-> | [-> | ->]]]; done|].
  destruct Hlow as [|Hlow]; [lia|].
  assert (256 ^ Z.of_nat k < 2 ^ bits) as Hpow by lia.
  change 256 with (2 ^ 8) in Hpow. rewrite <- Z.pow_mul_r in Hpow by lia.
  apply Z.pow_lt_mono_r_iff in Hpow; [|lia|destruct Hbits as [-> | [-> | [-> | ->]]]; lia].
  apply Z.div_le_lower_bound; destruct Hbits as [-> | [-> | [-> | ->]]]; lia.
Qed.

Lemma Stream_uint_enc bits i rest :
  (bits = 8 ∨ bits = 16 ∨ bits = 32 ∨ bits = 64) → 0 <= i < 2 ^ bits →
  Stream_uint bits (enc_string (uint_bytes i) ++ rest) = inl (i, rest).
Proof.
  intros Hbits Hi. destruct (uint_bytes_spec bits i Hbits Hi) as [Hu Hlen].
  assert (Hb : are_bytes (uint_bytes i)).
  { unfold uint_bytes. destruct (i =? 0); [constructor|by apply putint_are_bytes]. }
  assert (Hl : is_u64 (Z.of_nat (length (uint_bytes i)))).
  { split; [lia|]. apply (Z.le_lt_trans _ _ _ Hlen). destruct Hbits as [-> | [-> | [-> | ->]]]; done. }
  unfold Stream_uint. unfold uint_bytes in *. destruct (Z.eqb_spec i 0) as [->|Hnz].
  { destruct (Stream_Kind_enc_string [] rest Hb Hl) as [(x & ? & _)|[_ ->]]; [done|].
    destruct Hbits as [-> | [-> | [-> | ->]]]; done. }
  destruct (putint_head i Hu ltac:(lia)) as (b & bs & E & Hb0 & _ & Hone).
  destruct (Stream_Kind_enc_string (putint i) rest Hb Hl) as [(x & Ex & Hx & ->)|[Hnot ->]].
  - rewrite Ex in E. injection E as <- <-. rewrite Hone in * by done.
    destruct (Z.eqb_spec i 0); [lia|done].
  - destruct (Z.ltb_spec (bits / 8) (Z.of_nat (length (putint i)))); [lia|].
    rewrite readUint_putint by (done || lia).
    destruct (Z.ltb_spec i 128); [|by rewrite andb_false_r]. exfalso. apply Hnot.
    exists i. split; [|done]. unfold putint. destruct (Z.ltb_spec i (2 ^ 8)); [|lia]. simpl.
    by rewrite Z.mod_small by lia.
Qed.

(** ** Round trip

    [canon t v]: a value of the type with no nil pointer in it and no negative
    integer, which is what the decoder returns. *)
Fixpoint canon (t : rtype) (v : rval) {struct t} : Prop :=
  match t, v with
  | TUint bits, VUint i => (bits = 8 ∨ bits = 16 ∨ bits = 32 ∨ bits = 64) ∧ 0 <= i < 2 ^ bits
  | TBool, VBool _ => True
  | TBigInt, VBigInt (Some i) => 0 <= i
  | TString, VBytes b => are_bytes b
  | TByteArray n, VBytes b => (1 < n)%nat ∧ length b = n ∧ are_bytes b
  | TSlice t, VList l => Forall (canon t) l
  | TStruct ts, VList l => has_types (map canon ts) l
  | TPtr t, VPtr (Some v) => canon t v
  | _, _ => False
  end.

(** A variable that a value of the type can be decoded into. *)
Fixpoint shaped (t : rtype) (v : rval) {struct t} : Prop :=
  match t, v with
  | TStruct ts, VList l => has_types (map shaped ts) l
  | TStruct _, _ => False
  | TPtr t, VPtr (Some v) => shaped t v
  | _, _ => True
  end.

Lemma zero_shaped t : shaped t (zero t).
Proof.
  induction t as [bits| | | |n|t IH|ts IH|t IH] using rtype_ind'; simpl; try done.
  induction IH; simpl; auto.
Qed.

Lemma canon_has_type t v : canon t v → has_type t v.
Proof.
  revert v. induction t as [bits| | | |n|t IH|ts IH|t IH] using rtype_ind';
    intros [i|b|i|b|l|v]; simpl; try done.
  - naive_solver.
  - intros H. by eapply Forall_impl.
  - revert l. induction IH as [|t ts Ht _ IHts]; intros [|v l]; simpl; naive_solver.
  - destruct v; [apply IH|done].
Qed.

(** Every encoding takes a byte. *)
Lemma enc_string_not_nil b : enc_string b ≠ [].
Proof.
  destruct b as [|x [|y b]]; simpl; [done| |by apply puthead_not_nil].
  destruct (x <=? 127); done.
Qed.

Lemma enc_not_nil t v e : enc t v = inl e → e ≠ [].
Proof.
  revert v e. induction t as [bits| | | |n|t IH|ts IH|t IH] using rtype_ind';
    intros [i|b|i|b|l|v] e; cbn [enc]; try done; try (by destruct t); intros H.
  - injection H as <-. apply enc_string_not_nil.
  - injection H as <-. by destruct b.
  - destruct (_ <? 0); [done|]. injection H as <-. apply enc_string_not_nil.
  - injection H as <-. apply enc_string_not_nil.
  - injection H as <-. apply enc_string_not_nil.
  - unfold in_list in H. destruct (enc_elems _ _); [|done]. injection H as <-. apply puthead_not_nil.
  - unfold in_list in H. destruct (enc_fields _ _); [|done]. injection H as <-. apply puthead_not_nil.
  - destruct v as [v|]; [apply (IH v); by destruct t|]. destruct t; try done; by injection H as <-.
Qed.

Definition fits (e : bytes) : Prop := is_u64 (Z.of_nat (length e)).

Lemma fits_app e1 e2 : fits (e1 ++ e2) → fits e1 ∧ fits e2.
Proof. unfold fits, is_u64. rewrite length_app. lia. Qed.

Lemma fits_enc_list p : fits (enc_list p) → fits p.
Proof. intros H. by apply fits_app in H as [_ ?]. Qed.

Lemma fits_enc_string b : fits (enc_string b) → fits b.
Proof.
  destruct b as [|x [|y b]]; intros H; [done|done|]. by apply fits_app in H as [_ ?].
Qed.

(** The decoder of a type inverts its encoder. *)
Definition inverts (t : rtype) : Prop :=
  ∀ v e init rest, canon t v → enc t v = inl e → fits e → shaped t init →
    decode t init (e ++ rest) = (v, inl rest).

Lemma decodeSliceElems_enc t :
  inverts t → ∀ l acc e fuel,
  Forall (canon t) l → enc_elems (enc t) l = inl e → fits e → (length e < fuel)%nat →
  decodeSliceElems fuel (zero t) (decode t) acc e = (acc ++ l, None).
Proof.
  intros Hinv. induction l as [|v l IH]; intros acc e fuel Hl He Hfit Hfuel; simpl in He.
  - injection He as <-. destruct fuel as [|fuel]; [simpl in Hfuel; lia|]. cbn [decodeSliceElems].
    rewrite app_nil_r. assert (∃ v, decode t (zero t) [] = (v, inr EOL)) as [v ->]; [|done].
    clear. induction t using rtype_ind'; simpl; eauto. destruct IHt as [v ->]. eauto.
  - apply Forall_cons in Hl as [Hv Hl]. destruct (enc t v) as [e1|] eqn:E1; [|done].
    destruct (enc_elems (enc t) l) as [e2|] eqn:E2; [|done]. injection He as <-.
    destruct fuel as [|fuel]; [lia|]. cbn [decodeSliceElems].
    apply fits_app in Hfit as Hfit'. destruct Hfit' as [Hf1 Hf2].
    rewrite (Hinv v e1 (zero t) e2) by auto using zero_shaped.
    pose proof (enc_not_nil _ _ _ E1). rewrite length_app in Hfuel.
    assert (0 < length e1)%nat by (destruct e1; [done|simpl; lia]).
    rewrite (IH _ e2) by (done || lia). by rewrite <- app_assoc.
Qed.

Lemma decodeFields_enc ts :
  Forall inverts ts → ∀ l inits e rest,
  has_types (map canon ts) l → has_types (map shaped ts) inits →
  enc_fields (map enc ts) l = inl e → fits e →
  decodeFields (map decode ts) inits (e ++ rest) = (l, inl rest).
Proof.
  induction 1 as [|t ts Ht _ IH]; intros [|v l] [|i inits] e rest Hl Hi He Hfit; try done.
  - by injection He as <-.
  - simpl in *. destruct Hl as [Hv Hl], Hi as [Hi Hinits].
    destruct (enc t v) as [e1|] eqn:E1; [|done].
    destruct (enc_fields (map enc ts) l) as [e2|] eqn:E2; [|done]. injection He as <-.
    apply fits_app in Hfit as [Hf1 Hf2]. rewrite <- app_assoc.
    rewrite (Ht v e1 i (e2 ++ rest)) by done. by rewrite (IH l inits e2 rest).
Qed.

Lemma decode_enc t : inverts t.
Proof.
  induction t as [bits| | | |n|t IH|ts IH|t IH] using rtype_ind';
    intros [i|b|i|b|l|v] e init rest Hv He Hfit Hs; try done; cbn [enc decode] in *.
  - destruct Hv as [Hbits Hi]. injection He as <-. unfold decodeUint.
    by rewrite Stream_uint_enc by done.
  - unfold decodeBool, Stream_Bool. destruct b; injection He as <-.
    + change (enc_string [1]) with (enc_string (uint_bytes 1)).
      by rewrite (Stream_uint_enc 8 1) by (by auto || lia).
    + change (enc_string []) with (enc_string (uint_bytes 0)).
      by rewrite (Stream_uint_enc 8 0) by (by auto || lia).
  - destruct i as [i|]; [|done]. simpl in *. destruct (Z.ltb_spec i 0); [lia|]. injection He as <-.
    unfold decodeBigInt. rewrite Stream_Bytes_enc_string
      by (apply Int_Bytes_are_bytes || by apply fits_enc_string).
    pose proof (Int_Bytes_SetBytes i Hv) as Hset.
    destruct (Int_Bytes i) as [|[| |] bs] eqn:E; simpl; rewrite ?Hset; try done.
    exfalso. by eapply Int_Bytes_head.
  - injection He as <-. unfold decodeString.
    by rewrite Stream_Bytes_enc_string by (done || by apply fits_enc_string).
  - destruct Hv as (Hn & Hlen & Hb). injection He as <-. unfold decodeByteArray.
    destruct (Stream_Kind_enc_string b rest Hb ltac:(by apply fits_enc_string)) as [(x & -> & _)|[_ ->]];
      [simpl in Hlen; lia|].
    rewrite Hlen, Z.ltb_irrefl. rewrite <- Hlen at 1. rewrite readFull_app.
    destruct b as [|x [|y b]]; simpl in Hlen; (lia || done).
  - unfold in_list in He. destruct (enc_elems (enc t) l) as [p|] eqn:Ep; [|done]. injection He as <-.
    apply fits_enc_list in Hfit. rewrite Stream_List_enc_list by done.
    rewrite (decodeSliceElems_enc t IH l [] p) by (done || lia). done.
  - unfold in_list in He. destruct (enc_fields (map enc ts) l) as [p|] eqn:Ep; [|done].
    injection He as <-. apply fits_enc_list in Hfit. rewrite Stream_List_enc_list by done.
    destruct init; try done. rewrite <- (app_nil_r p).
    by rewrite (decodeFields_enc ts IH l l0 p []) by done.
  - destruct v as [v|]; [|done]. assert (Hev : enc t v = inl e) by (by destruct t).
    rewrite (IH v e _ rest); try done. destruct init as [| | | | |[i|]]; auto using zero_shaped.
Qed.

(** ** An encoding is a byte string *)

Lemma puthead_are_bytes small large size :
  0 <= small <= 192 → 0 <= large <= 247 → is_u64 size → are_bytes (puthead small large size).
Proof.
  intros Hs Hl Hu. unfold puthead. destruct (Z.ltb_spec size 56).
  - constructor; [|constructor]. unfold is_byte, is_u64 in *. lia.
  - constructor; [|by apply putint_are_bytes]. destruct (putint_spec size Hu) as (k & Hk & -> & _).
    rewrite length_be_bytes. unfold is_byte. lia.
Qed.

Lemma enc_string_are_bytes b : are_bytes b → fits b → are_bytes (enc_string b).
Proof.
  intros Hb Hf. destruct b as [|x [|y b]]; [by repeat constructor| |].
  - simpl. destruct (x <=? 127); [done|]. by constructor.
  - apply Forall_app_2; [|done]. by apply puthead_are_bytes.
Qed.

Lemma enc_list_are_bytes p : are_bytes p → fits p → are_bytes (enc_list p).
Proof. intros Hp Hf. apply Forall_app_2; [by apply puthead_are_bytes|done]. Qed.

Lemma enc_are_bytes t v e : canon t v → enc t v = inl e → fits e → are_bytes e.
Proof.
  revert v e. induction t as [bits| | | |n|t IH|ts IH|t IH] using rtype_ind';
    intros [i|b|i|b|l|v] e Hv He Hfit; try done; cbn [enc] in He.
  - injection He as <-. destruct Hv as [Hbits Hi]. apply enc_string_are_bytes; [|by apply fits_enc_string].
    unfold uint_bytes. destruct (i =? 0); [constructor|].
    apply putint_are_bytes. unfold is_u64, two64. destruct Hbits as [->|[->|[->| ->]]]; lia.
  - injection He as <-. destruct b; by repeat constructor.
  - destruct i as [i|]; [|done]. simpl in He. destruct (i <? 0); [done|]. injection He as <-.
    apply enc_string_are_bytes; [apply Int_Bytes_are_bytes|by apply fits_enc_string].
  - injection He as <-. by apply enc_string_are_bytes; [|apply fits_enc_string].
  - injection He as <-. destruct Hv as (_ & _ & Hb). by apply enc_string_are_bytes; [|apply fits_enc_string].
  - unfold in_list in He. destruct (enc_elems (enc t) l) as [p|] eqn:Ep; [|done]. injection He as <-.
    apply fits_enc_list in Hfit. apply enc_list_are_bytes; [|done]. simpl in Hv. revert p Ep Hfit.
    induction Hv as [|v l Hv _ IHl]; intros p Ep Hfit; simpl in Ep; [by injection Ep as <-|].
    destruct (enc t v) as [e|] eqn:Ee; [|done]. destruct (enc_elems (enc t) l) as [es|]; [|done].
    injection Ep as <-. apply fits_app in Hfit as [? ?]. apply Forall_app_2; eauto.
  - unfold in_list in He. destruct (enc_fields (map enc ts) l) as [p|] eqn:Ep; [|done]. injection He as <-.
    apply fits_enc_list in Hfit. apply enc_list_are_bytes; [|done]. simpl in Hv. revert l p Hv Ep Hfit.
    induction IH as [|t ts Ht _ IHts]; intros [|v l] p Hv Ep Hfit; try done; simpl in Ep; [by injection Ep as <-|].
    destruct Hv as [Hv Hl]. destruct (enc t v) as [e|] eqn:Ee; [|done].
    destruct (enc_fields (map enc ts) l) as [es|] eqn:Ees; [|done].
    injection Ep as <-. apply fits_app in Hfit as [? ?]. apply Forall_app_2; eauto.
  - destruct v as [v|]; [|done]. apply (IH v); [done| |done]. by destruct t.
Qed.

(** ** The decoder accepts canonical encodings only *)

(** The types of the source: sized integers, arrays of more than one byte. *)
Fixpoint type_ok (t : rtype) : Prop :=
  match t with
  | TUint bits => bits = 8 ∨ bits = 16 ∨ bits = 32 ∨ bits = 64
  | TByteArray n => (1 < n)%nat
  | TSlice t | TPtr t => type_ok t
  | TStruct ts => foldr and True (map type_ok ts)
  | _ => True
  end.

Lemma putint_SetBytes x bs :
  are_bytes (x :: bs) → (x ≠ 0 ∨ bs = []) → (length bs < 8)%nat →
  is_u64 (SetBytes (x :: bs)) ∧ putint (SetBytes (x :: bs)) = x :: bs.
Proof.
  intros Hb Hx Hlen. pose proof (SetBytes_range _ Hb) as Hr. pose proof (be_bytes_SetBytes _ Hb) as Hbe.
  set (i := SetBytes (x :: bs)) in *. cbn [length] in Hr, Hbe.
  assert (Hu : is_u64 i).
  { split; [lia|]. eapply Z.lt_le_trans; [apply Hr|]. change two64 with (256 ^ 8).
    apply Z.pow_le_mono_r; lia. }
  split; [done|]. destruct (putint_spec i Hu) as (k & Hk & -> & Hlow & Hup).
  assert (k = length bs) as ->; [|done].
  assert (Hlow' : bs = [] ∨ 256 ^ Z.of_nat (length bs) <= i).
  { destruct Hx as [Hx|]; [right|by left]. subst i. change (x :: bs) with ([x] ++ bs).
    rewrite SetBytes_app. apply Forall_cons in Hb as [Hx' Hbs]. unfold is_byte in Hx'.
    pose proof (SetBytes_range bs Hbs). unfold SetBytes at 1; simpl.
    assert (0 < 256 ^ Z.of_nat (length bs)) by lia. nia. }
  destruct (Nat.lt_trichotomy k (length bs)) as [Hlt|[|Hlt]]; [exfalso|done|exfalso].
  - destruct Hlow' as [-> | Hl]; [simpl in Hlt; lia|].
    assert (256 ^ Z.of_nat (S k) <= 256 ^ Z.of_nat (length bs)) by (apply Z.pow_le_mono_r; lia). lia.
  - destruct Hlow as [-> | Hl]; [lia|].
    assert (256 ^ Z.of_nat (S (length bs)) <= 256 ^ Z.of_nat k) by (apply Z.pow_le_mono_r; lia). lia.
Qed.

(** The digits of a big integer without a leading zero. *)
Lemma SetBytes_Int_Bytes b : are_bytes b → head b ≠ Some 0 → Int_Bytes (SetBytes b) = b.
Proof.
  intros Hb Hh. pose proof (SetBytes_range b Hb) as Hr. unfold Int_Bytes.
  destruct (Z.eqb_spec (SetBytes b) 0) as [E|E].
  { destruct b as [|x b]; [done|]. exfalso. change (x :: b) with ([x] ++ b) in E.
    rewrite SetBytes_app in E. apply Forall_cons in Hb as [Hx Hb]. unfold is_byte in Hx.
    pose proof (SetBytes_range b Hb). change (SetBytes [x]) with x in E.
    assert (0 < 256 ^ Z.of_nat (length b)) by lia. apply Hh. simpl. f_equal. nia. }
  assert (byte_len (SetBytes b) = length b) as ->; [|by apply be_bytes_SetBytes].
  destruct b as [|x b]; [done|]. change (x :: b) with ([x] ++ b) in *. rewrite SetBytes_app in *.
  apply Forall_cons in Hb as [Hx Hb]. unfold is_byte in Hx. pose proof (SetBytes_range b Hb) as Hrb.
  change (SetBytes [x]) with x in *. assert (x ≠ 0) by (intros ->; by apply Hh).
  set (n := Z.of_nat (length b)) in *. set (i := x * 256 ^ n + SetBytes b) in *.
  rewrite length_app in Hr. simpl length in Hr. unfold byte_len. rewrite length_app. simpl length.
  assert (Hlow : 2 ^ (8 * n) <= i < 2 ^ (8 * n + 8)).
  { rewrite Z.pow_add_r, Z.pow_mul_r by lia. change (2 ^ 8) with 256. subst i. nia. }
  assert (8 * n <= Z.log2 i) by (apply Z.log2_le_pow2; lia).
  assert (Z.log2 i < 8 * n + 8) by (apply Z.log2_lt_pow2; lia).
  assert ((Z.log2 i + 8) / 8 = n + 1) as ->; [|lia].
  symmetry. apply (Z.div_unique _ _ _ (Z.log2 i - 8 * n)); lia.
Qed.

Lemma readUint_inv n w i w' :
  are_bytes w → 1 <= n <= 8 → readUint n w = inl (i, w') →
  is_u64 i ∧ w = putint i ++ w' ∧ Z.of_nat (length (putint i)) = n.
Proof.
  intros Hw Hn. unfold readUint. destruct (Z.eqb_spec n 0); [lia|].
  destruct (Z.eqb_spec n 1) as [->|].
  { destruct w as [|b w]; simpl; [done|]. intros [= <- <-].
    apply Forall_cons in Hw as [Hb _]. destruct (putint_SetBytes b []) as [? Hp]; [by constructor|by right|simpl; lia|].
    change (SetBytes [b]) with b in *. by rewrite Hp. }
  unfold readFull. destruct (Nat.ltb_spec (length w) (Z.to_nat n)); [done|].
  destruct (take (Z.to_nat n) w) as [|b bs] eqn:E; [intros; apply (f_equal length) in E; rewrite length_take in E; simpl in E; lia|].
  assert (Hbb : are_bytes (b :: bs)) by (rewrite <- E; by apply Forall_take).
  assert (Hl : length (b :: bs) = Z.to_nat n) by (rewrite <- E, length_take; lia).
  destruct (decide (b = 0)) as [->|Hb0]; [done|]. intros Hr.
  assert (i = SetBytes (b :: bs) ∧ w' = drop (Z.to_nat n) w) as [-> ->] by (destruct b; by simplify_eq).
  destruct (putint_SetBytes b bs Hbb) as [? Hp]; [by left|simpl in Hl; lia|].
  rewrite Hp. split_and!; [done| |lia]. by rewrite <- E, take_drop.
Qed.

Lemma puthead_small small large size : size < 56 → puthead small large size = [small + size].
Proof. intros. unfold puthead. destruct (Z.ltb_spec size 56); [done|lia]. Qed.

Lemma puthead_large small large size n :
  56 <= size → Z.of_nat (length (putint size)) = n →
  puthead small large size = (large + n) :: putint size.
Proof. intros ? <-. unfold puthead. destruct (Z.ltb_spec size 56); [lia|done]. Qed.

Lemma readKind_inv w k size bv w' :
  are_bytes w → readKind w = inl (k, size, bv, w') →
  match k with
  | Byte => size = 0 ∧ 0 <= bv < 128 ∧ w = bv :: w'
  | String => is_u64 size ∧ w = puthead 128 183 size ++ w'
  | List => is_u64 size ∧ w = puthead 192 247 size ++ w'
  end.
Proof.
  intros Hw. unfold readKind. destruct w as [|b w]; [done|]. cbn [readByte].
  apply Forall_cons in Hw as [Hb Hw]. unfold is_byte in Hb.
  assert (Hlong : ∀ k0 large, (large = 183 ∨ large = 247) → 1 <= b - large <= 8 →
    match readUint (b - large) w with
    | inl (size, w) => if size <? 56 then inr ErrCanonSize else inl (k0, size, 0, w)
    | inr e => inr e
    end = inl (k, size, bv, w') →
    k = k0 ∧ is_u64 size ∧ ∀ small, b :: w = puthead small large size ++ w').
  { intros k0 large _ Hn. destruct (readUint (b - large) w) as [[i w2]|] eqn:E; [|done].
    destruct (Z.ltb_spec i 56); [done|]. intros [= <- <- _ <-].
    destruct (readUint_inv _ _ _ _ Hw Hn E) as (Hu & -> & Hl). split_and!; [done|done|].
    intros small. rewrite (puthead_large small large i (b - large)) by done. cbn [app].
    f_equal. lia. }
  destruct (Z.ltb_spec b 128); [intros [= <- <- <- <-]; split_and!; (lia || done)|].
  destruct (Z.ltb_spec b 184).
  { intros [= <- <- _ <-]. split; [unfold is_u64, two64; lia|].
    rewrite puthead_small by lia. simpl. f_equal. lia. }
  destruct (Z.ltb_spec b 192).
  { intros H'. destruct (Hlong String 183 ltac:(lia) ltac:(lia) H') as (-> & ? & Hp). by split. }
  destruct (Z.ltb_spec b 248).
  { intros [= <- <- _ <-]. split; [unfold is_u64, two64; lia|].
    rewrite puthead_small by lia. simpl. f_equal. lia. }
  intros H'. destruct (Hlong List 247 ltac:(lia) ltac:(lia) H') as (-> & ? & Hp). by split.
Qed.

Lemma Stream_Kind_inv w k size bv w' :
  are_bytes w → Stream_Kind w = inl (k, size, bv, w') →
  are_bytes w' ∧ size <= Z.of_nat (length w') ∧
  match k with
  | Byte => size = 0 ∧ 0 <= bv < 128 ∧ w = bv :: w'
  | String => is_u64 size ∧ w = puthead 128 183 size ++ w'
  | List => is_u64 size ∧ w = puthead 192 247 size ++ w'
  end.
Proof.
  intros Hw. unfold Stream_Kind. destruct w as [|b w]; [done|].
  destruct (readKind (b :: w)) as [[[[k0 s0] b0] w0]|] eqn:E; [|done].
  destruct (Z.ltb_spec (Z.of_nat (length w0)) s0); [done|]. intros [= <- <- <- <-].
  pose proof (readKind_inv _ _ _ _ _ Hw E) as Hk. split_and!; [|done|done].
  destruct k0; destruct Hk as (? & Hk); [destruct Hk as [_ Hk]| |]; rewrite Hk in Hw.
  - by apply Forall_cons in Hw as [_ ?].
  - by apply Forall_app in Hw as [_ ?].
  - by apply Forall_app in Hw as [_ ?].
Qed.

Lemma readFull_inv n w b w' : readFull n w = inl (b, w') → w = b ++ w' ∧ length b = n.
Proof.
  unfold readFull. destruct (Nat.ltb_spec (length w) n); [done|]. intros [= <- <-].
  rewrite take_drop, length_take. split; [done|lia].
Qed.

Lemma enc_string_string b :
  ¬ (∃ x, b = [x] ∧ x < 128) → enc_string b = puthead 128 183 (Z.of_nat (length b)) ++ b.
Proof.
  intros Hnot. destruct b as [|x [|y b]]; [done| |done]. simpl.
  destruct (Z.leb_spec x 127); [|done]. exfalso. apply Hnot. exists x. split; [done|lia].
Qed.

Lemma Stream_Bytes_inv w b rest :
  are_bytes w → Stream_Bytes w = inl (b, rest) →
  are_bytes b ∧ are_bytes rest ∧ w = enc_string b ++ rest.
Proof.
  intros Hw. unfold Stream_Bytes.
  destruct (Stream_Kind w) as [[[[k s] bv] w']|] eqn:E; [|done].
  destruct (Stream_Kind_inv _ _ _ _ _ Hw E) as (Hw' & Hs & Hk). destruct k; [| |done].
  - intros [= <- <-]. destruct Hk as (-> & Hbv & ->). apply Forall_cons in Hw as [? ?].
    split_and!; [by constructor|done|]. simpl. destruct (Z.leb_spec bv 127); [done|lia].
  - destruct (readFull (Z.to_nat s) w') as [[c w2]|] eqn:Er; [|done].
    destruct (readFull_inv _ _ _ _ Er) as [-> Hlen]. destruct Hk as [Hu ->].
    apply Forall_app in Hw' as [Hc Hw2]. intros Hr.
    assert (b = c ∧ rest = w2 ∧ ¬ (∃ x, c = [x] ∧ x < 128)) as (-> & -> & Hnot).
    { destruct c as [|x [|y c]]; [naive_solver| |naive_solver].
      destruct (Z.ltb_spec x 128); [done|]. simplify_eq. split_and!; [done|done|].
      intros (z & [= ->] & ?). lia. }
    split_and!; [done|done|]. rewrite (enc_string_string c) by done.
    replace (Z.of_nat (length c)) with s by (unfold is_u64 in Hu; lia). by rewrite app_assoc.
Qed.

Lemma uint_bytes_pos i : i ≠ 0 → uint_bytes i = putint i.
Proof. intros. unfold uint_bytes. by destruct (Z.eqb_spec i 0). Qed.

Lemma Stream_uint_inv bits w i rest :
  (bits = 8 ∨ bits = 16 ∨ bits = 32 ∨ bits = 64) →
  are_bytes w → Stream_uint bits w = inl (i, rest) →
  0 <= i < 2 ^ bits ∧ are_bytes rest ∧ w = enc_string (uint_bytes i) ++ rest.
Proof.
  intros Hbits Hw. unfold Stream_uint.
  assert (Hb8 : 1 <= bits / 8 <= 8) by (destruct Hbits as [-> | [-> | [-> | ->]]]; done).
  destruct (Stream_Kind w) as [[[[k s] bv] w']|] eqn:E; [|done].
  destruct (Stream_Kind_inv _ _ _ _ _ Hw E) as (Hw' & Hs & Hk). destruct k; [| |done].
  { destruct (Z.eqb_spec bv 0); [done|]. intros [= <- <-]. destruct Hk as (-> & Hbv & ->).
    assert (2 ^ 8 <= 2 ^ bits) by (apply Z.pow_le_mono_r; destruct Hbits as [-> | [-> | [-> | ->]]]; lia).
    split_and!; [lia|lia|done|]. rewrite uint_bytes_pos by done. unfold putint.
    destruct (Z.ltb_spec bv (2 ^ 8)); [|lia]. simpl. rewrite Z.mod_small by lia.
    destruct (Z.leb_spec bv 127); [done|lia]. }
  destruct Hk as [Hu ->]. destruct (Z.ltb_spec (bits / 8) s); [done|].
  destruct (Z.eqb_spec s 0) as [->|Hs0].
  { simpl. intros [= <- <-]. split_and!; [lia| |done|done].
    apply Z.pow_pos_nonneg; destruct Hbits as [-> | [-> | [-> | ->]]]; lia. }
  unfold is_u64 in Hu. destruct (readUint s w') as [[v w2]|[]] eqn:Er; try done.
  destruct (Z.ltb_spec 0 s); [|lia]. simpl. destruct (Z.ltb_spec v 128); [done|]. intros [= <- <-].
  destruct (readUint_inv s w' v w2 Hw' ltac:(lia) Er) as (Huv & -> & Hl).
  apply Forall_app in Hw' as [Hp Hw2].
  assert (v < 2 ^ bits).
  { pose proof (SetBytes_range _ Hp) as Hr. rewrite SetBytes_putint, Hl in Hr by done.
    eapply Z.lt_le_trans; [apply Hr|]. change 256 with (2 ^ 8). rewrite <- Z.pow_mul_r by lia.
    apply Z.pow_le_mono_r; [lia|]. pose proof (Z.mul_div_le bits 8 ltac:(lia)). lia. }
  split_and!; [lia|done|done|]. rewrite uint_bytes_pos by lia. rewrite enc_string_string, Hl.
  { by rewrite app_assoc. }
  intros (x & Ex & Hx). pose proof (SetBytes_putint v Huv) as Hset. rewrite Ex in Hset.
  change (SetBytes [x]) with x in Hset. lia.
Qed.

Lemma Stream_List_inv w p rest :
  are_bytes w → Stream_List w = inl (p, rest) →
  are_bytes p ∧ are_bytes rest ∧ w = enc_list p ++ rest.
Proof.
  intros Hw. unfold Stream_List. destruct (Stream_Kind w) as [[[[k s] bv] w']|] eqn:E; [|done].
  destruct (Stream_Kind_inv _ _ _ _ _ Hw E) as (Hw' & Hs & Hk). destruct k; [done|done|].
  intros [= <- <-]. destruct Hk as [Hu ->]. unfold is_u64 in Hu.
  split_and!; [by apply Forall_take|by apply Forall_drop|].
  unfold enc_list. rewrite length_take, Nat.min_l, Z2Nat.id by lia.
  by rewrite <- app_assoc, take_drop.
Qed.

(** Only the end of the input is reported as the end of the list. *)
Lemma decode_EOL t init w v : decode t init w = (v, inr EOL) → w = [].
Proof.
  assert (Hk : Stream_Kind w = inr EOL → w = []).
  { destruct w as [|b w]; [done|]. unfold Stream_Kind, readKind, readUint, readFull, readByte.
    repeat case_match; naive_solver. }
  assert (Hb : Stream_Bytes w = inr EOL → w = []).
  { unfold Stream_Bytes, readFull. repeat case_match; naive_solver. }
  assert (Hl : Stream_List w = inr EOL → w = []).
  { unfold Stream_List. repeat case_match; naive_solver. }
  assert (Hi : ∀ bits, Stream_uint bits w = inr EOL → w = []).
  { intros bits. unfold Stream_uint, readUint, readFull, readByte. repeat case_match; naive_solver. }
  revert init v. induction t as [bits| | | |n|t IH|ts IH|t IH] using rtype_ind'; intros init v; cbn [decode].
  - unfold decodeUint. repeat case_match; naive_solver.
  - unfold decodeBool, Stream_Bool. repeat case_match; naive_solver.
  - unfold decodeBigInt. repeat case_match; naive_solver.
  - unfold decodeString. repeat case_match; naive_solver.
  - unfold decodeByteArray, readFull. repeat case_match; naive_solver.
  - destruct (Stream_List w) as [[p r]|]; [|naive_solver].
    assert (∀ fuel acc w l, decodeSliceElems fuel (zero t) (decode t) acc w ≠ (l, Some EOL)) as Hn.
    { induction fuel as [|fuel IHf]; intros acc w0 l; simpl; [done|].
      repeat case_match; naive_solver. }
    destruct (decodeSliceElems _ _ _ _ _) as [l [e|]] eqn:E; [|done].
    intros [= _ ->]. by apply Hn in E.
  - destruct (Stream_List w) as [[p r]|]; [|naive_solver].
    destruct init as [| | | |l|]; try done.
    assert (∀ decs l w l', decodeFields decs l w ≠ (l', inr EOL)) as Hn.
    { induction decs as [|d decs IHd]; intros [|v0 l0] w0 l'; simpl; try done.
      repeat case_match; naive_solver. }
    destruct (decodeFields _ _ _) as [l' [[|]|e]] eqn:E; try done.
    intros [= _ ->]. by apply Hn in E.
  - destruct (decode t _ w) as [v0 [r|e]] eqn:E; [done|]. intros [= _ ->]. by eapply IH.
Qed.

(** A successful decoding read the encoding of the value. *)
Definition reads_enc (t : rtype) : Prop :=
  ∀ init w v rest, are_bytes w → shaped t init → decode t init w = (v, inl rest) →
    canon t v ∧ are_bytes rest ∧ ∃ e, enc t v = inl e ∧ w = e ++ rest.

Lemma decodeSliceElems_inv t :
  reads_enc t → ∀ fuel acc w l,
  are_bytes w → (length w < fuel)%nat → decodeSliceElems fuel (zero t) (decode t) acc w = (l, None) →
  ∃ l', l = acc ++ l' ∧ Forall (canon t) l' ∧ enc_elems (enc t) l' = inl w.
Proof.
  intros Hr. induction fuel as [|fuel IH]; intros acc w l Hw Hf; [lia|]. cbn [decodeSliceElems].
  destruct (decode t (zero t) w) as [v [r|e]] eqn:E.
  - destruct (Hr _ _ _ _ Hw (zero_shaped t) E) as (Hv & Hrest & e & He & ->). intros Hd.
    pose proof (enc_not_nil _ _ _ He). rewrite length_app in Hf.
    assert (0 < length e)%nat by (destruct e; [done|simpl; lia]).
    destruct (IH _ _ _ Hrest ltac:(lia) Hd) as (l' & -> & Hl' & El'). exists (v :: l').
    rewrite <- app_assoc. split_and!; [done|by constructor|]. simpl. by rewrite He, El'.
  - destruct (decide (e = EOL)) as [->|Hne]; [|by destruct e].
    intros [= <-]. apply decode_EOL in E as ->. exists []. rewrite app_nil_r. by split_and!.
Qed.

Lemma decodeFields_inv ts :
  Forall reads_enc ts → ∀ inits w l rest,
  are_bytes w → has_types (map shaped ts) inits →
  decodeFields (map decode ts) inits w = (l, inl rest) →
  has_types (map canon ts) l ∧ ∃ e, enc_fields (map enc ts) l = inl e ∧ w = e ++ rest.
Proof.
  induction 1 as [|t ts Ht _ IH]; intros [|i inits] w l rest Hw Hs; try done; simpl.
  - intros [= <- <-]. split; [done|]. by exists [].
  - destruct Hs as [Hi Hs]. destruct (decode t i w) as [v [r|e]] eqn:E; [|destruct e; done].
    destruct (Ht _ _ _ _ Hw Hi E) as (Hv & Hr & e & He & ->).
    destruct (decodeFields (map decode ts) inits r) as [l' r'] eqn:Ef. intros [= <- ->].
    destruct (IH _ _ _ _ Hr Hs Ef) as (Hl & e' & He' & ->). split; [done|].
    exists (e ++ e'). rewrite He, He'. by rewrite app_assoc.
Qed.

Lemma decode_inv t : type_ok t → reads_enc t.
Proof.
  induction t as [bits| | | |n|t IH|ts IH|t IH] using rtype_ind';
    intros Hok init w v rest Hw Hs; cbn [decode].
  - unfold decodeUint. destruct (Stream_uint bits w) as [[i r]|] eqn:E; [|done]. intros [= <- <-].
    destruct (Stream_uint_inv bits w i r Hok Hw E) as (Hi & Hr & ->). split_and!; [done|done|].
    by eexists.
  - unfold decodeBool, Stream_Bool. destruct (Stream_uint 8 w) as [[i r]|] eqn:E; [|done].
    destruct (Stream_uint_inv 8 w i r ltac:(by left) Hw E) as (Hi & Hr & ->).
    destruct (Z.eqb_spec i 0) as [->|]; [intros [= <- <-]; split_and!; [done|done|by eexists]|].
    destruct (Z.eqb_spec i 1) as [->|]; [intros [= <- <-]; split_and!; [done|done|by eexists]|done].
  - unfold decodeBigInt. destruct (Stream_Bytes w) as [[b r]|] eqn:E; [|done].
    destruct (Stream_Bytes_inv _ _ _ Hw E) as (Hb & Hr & ->). intros Hd.
    assert (v = VBigInt (Some (SetBytes b)) ∧ rest = r ∧ head b ≠ Some 0) as (-> & -> & Hh).
    { destruct b as [|[| |] b]; naive_solver. }
    pose proof (SetBytes_range b Hb). split_and!; [simpl; lia|done|]. simpl.
    destruct (Z.ltb_spec (SetBytes b) 0); [lia|]. eexists. split; [done|].
    by rewrite SetBytes_Int_Bytes.
  - unfold decodeString. destruct (Stream_Bytes w) as [[b r]|] eqn:E; [|done]. intros [= <- <-].
    destruct (Stream_Bytes_inv _ _ _ Hw E) as (Hb & Hr & ->). split_and!; [done|done|]. by eexists.
  - unfold decodeByteArray. destruct (Stream_Kind w) as [[[[k s] bv] w']|] eqn:E; [|done].
    destruct (Stream_Kind_inv _ _ _ _ _ Hw E) as (Hw' & Hsz & Hk). simpl in Hok.
    destruct k; [destruct (Nat.eqb_spec n 0); [done|]; destruct (Nat.ltb_spec 1 n); [done|lia]| |done].
    destruct (Z.ltb_spec (Z.of_nat n) s); [done|]. destruct (Z.ltb_spec s (Z.of_nat n)); [done|].
    destruct (readFull n w') as [[b w2]|] eqn:Er; [|done].
    destruct (readFull_inv _ _ _ _ Er) as [-> Hlen]. destruct Hk as [Hu ->].
    apply Forall_app in Hw' as [Hb Hw2]. intros Hd.
    assert (v = VBytes b ∧ rest = w2) as [-> ->]
      by (destruct b as [|x [|y b]]; simpl in Hlen; [lia|lia|naive_solver]).
    split_and!; [done|done|]. eexists. split; [done|]. rewrite enc_string_string, Hlen.
    { replace (Z.of_nat n) with s by lia. by rewrite app_assoc. }
    intros (x & -> & _). simpl in Hlen. lia.
  - destruct (Stream_List w) as [[p r]|] eqn:E; [|done].
    destruct (Stream_List_inv _ _ _ Hw E) as (Hp & Hr & ->).
    destruct (decodeSliceElems _ _ _ _ _) as [l [e|]] eqn:Ed; [done|]. intros [= <- <-].
    destruct (decodeSliceElems_inv t (IH Hok) (S (length p)) [] p l Hp ltac:(lia) Ed) as (l' & -> & Hl & El).
    split_and!; [done|done|]. simpl. rewrite El. by eexists.
  - destruct (Stream_List w) as [[p r]|] eqn:E; [|done].
    destruct (Stream_List_inv _ _ _ Hw E) as (Hp & Hr & ->). destruct init as [| | | |inits|]; try done.
    destruct (decodeFields _ _ _) as [l [[|]|e]] eqn:Ed; try done. intros [= <- <-].
    assert (Hts : Forall reads_enc ts).
    { clear -IH Hok. simpl in Hok. induction IH; [constructor|]. simpl in Hok. constructor; naive_solver. }
    destruct (decodeFields_inv ts Hts _ _ _ _ Hp Hs Ed) as (Hl & e & He & ->).
    split_and!; [done|done|]. simpl. rewrite He, app_nil_r. by eexists.
  - destruct (decode t _ w) as [v0 [r|e]] eqn:E; [|done]. intros [= <- <-].
    assert (Hs' : shaped t (match init with VPtr (Some v) => v | _ => zero t end)).
    { destruct init as [| | | | |[i|]]; auto using zero_shaped. }
    destruct (IH Hok _ _ _ _ Hw Hs' E) as (Hv & Hr & e & He & ->). split_and!; [done|done|].
    exists e. split; [|done]. simpl. by destruct t.
Qed.

Lemma enc_canon t v : canon t v → ∃ e, enc t v = inl e.
Proof.
  revert v. induction t as [bits| | | |n|t IH|ts IH|t IH] using rtype_ind';
    intros [i|b|i|b|l|v] Hv; try done; cbn [enc]; eauto.
  - destruct i as [i|]; [|done]. simpl in *. destruct (Z.ltb_spec i 0); [lia|eauto].
  - assert (∃ e, enc_elems (enc t) l = inl e) as [e He]; [|rewrite He; simpl; eauto].
    simpl in Hv. induction Hv as [|v l Hv _ IHl]; simpl; [eauto|].
    destruct (IH v Hv) as [e ->], IHl as [es ->]. eauto.
  - assert (∃ e, enc_fields (map enc ts) l = inl e) as [e He]; [|rewrite He; simpl; eauto].
    simpl in Hv. revert l Hv. induction IH as [|t ts Ht _ IHts]; intros [|v l] Hl; try done; simpl; [eauto|].
    destruct Hl as [Hv Hl]. destruct (Ht v Hv) as [e ->], (IHts l Hl) as [es ->]. eauto.
  - destruct v as [v|]; [|done]. destruct (IH v Hv) as [e He]. exists e. by destruct t.
Qed.

(** Decoding what was encoded, in the form the persisted records use. *)
Lemma DecodeBytes_EncodeToBytes t v b :
  canon t v → EncodeToBytes t v = inl b → fits b → DecodeBytes t (zero t) b = (v, None).
Proof.
  intros Hv He Hfit. rewrite EncodeToBytes_enc in He by by apply canon_has_type.
  unfold DecodeBytes. rewrite <- (app_nil_r b).
  by rewrite (decode_enc t v b (zero t) [] Hv He Hfit (zero_shaped t)).
Qed.

(** ** Properties *)

(** The encoder keeps the string data and the list headers apart and merges
    them in [toBytes]; the bytes are exactly the RLP encoding of the value, and
    it fails exactly when the value has a negative integer in it. *)
Theorem rlp_encbuf_refines_spec t v : has_type t v → EncodeToBytes t v = enc t v.
Proof. apply EncodeToBytes_enc. Qed.

(** Every value of a type without nil pointers and negative integers is
    encoded without an error, and decoding the bytes into a fresh variable of
    the type succeeds and gives the value back. *)
Theorem rlp_roundtrip t v :
  canon t v →
  ∃ b, EncodeToBytes t v = inl b ∧ (fits b → DecodeBytes t (zero t) b = (v, None)).
Proof.
  intros Hv. destruct (enc_canon t v Hv) as [e He].
  assert (EncodeToBytes t v = inl e) by (by rewrite EncodeToBytes_enc by by apply canon_has_type).
  exists e. split; [done|]. intros. by apply DecodeBytes_EncodeToBytes.
Qed.

(** C18: the decoder accepts one encoding per value: when [DecodeBytes] reports no
    error, encoding the decoded value gives the very bytes that were read (no
    leading zeros, no long form of a short length, no trailing data). *)
Theorem rlp_canonical t b v :
  type_ok t → are_bytes b → DecodeBytes t (zero t) b = (v, None) →
  canon t v ∧ EncodeToBytes t v = inl b.
Proof.
  intros Hok Hb. unfold DecodeBytes. destruct (decode t (zero t) b) as [v' [[|]|[]]] eqn:E; try done.
  intros [= <-]. destruct (decode_inv t Hok _ _ _ _ Hb (zero_shaped t) E) as (Hv & _ & e & He & ->).
  split; [done|]. by rewrite EncodeToBytes_enc, He, app_nil_r by by apply canon_has_type.
Qed.

(** A struct with a hash-like array, a number, a flag, a big integer and a list. *)
Definition rlp_example_type : rtype :=
  TStruct [TByteArray 4; TUint 64; TBool; TBigInt; TSlice TString].
Definition rlp_example : rval :=
  VList [VBytes [222; 173; 190; 239]; VUint 1024; VBool true; VBigInt (Some 0);
         VList [VBytes (repeat 7 60); VBytes [5]]].

Lemma rlp_example_canon : canon rlp_example_type rlp_example.
Proof.
  unfold rlp_example_type, rlp_example. simpl. unfold is_byte.
  repeat split; try lia; repeat constructor; lia.
Qed.

Lemma rlp_encbuf_refines_spec_witness :
  has_type rlp_example_type rlp_example ∧
  EncodeToBytes rlp_example_type rlp_example = enc rlp_example_type rlp_example.
Proof.
  split; [apply canon_has_type, rlp_example_canon|].
  apply rlp_encbuf_refines_spec. apply canon_has_type, rlp_example_canon.
Defined.

Lemma rlp_roundtrip_witness :
  canon rlp_example_type rlp_example ∧
  ∃ b, EncodeToBytes rlp_example_type rlp_example = inl b ∧
       (fits b → DecodeBytes rlp_example_type (zero rlp_example_type) b = (rlp_example, None)).
Proof. split; [apply rlp_example_canon|]. apply rlp_roundtrip, rlp_example_canon. Defined.

Lemma rlp_canonical_witness :
  canon (TSlice (TUint 64)) (VList [VUint 5; VUint 300]) ∧
  EncodeToBytes (TSlice (TUint 64)) (VList [VUint 5; VUint 300]) = inl [196; 5; 130; 1; 44].
Proof.
  apply (rlp_canonical (TSlice (TUint 64)) [196; 5; 130; 1; 44]).
  - simpl. auto.
  - unfold is_byte. repeat constructor; lia.
  - reflexivity.
Defined.
