(* ===== verification/RlpSplit.v ===== *)
(** * Splitting an encoding (rlp/raw.go)

    [Split], [SplitString], [SplitList] and [CountValues] take apart what the
    encoder writes. *)

From stdpp Require Import base list gmap strings.
From Stdlib Require Import ZArith Lia.
From S2P Require Import Prelude Bytes Rlp RlpFacts.

(** The header of a string or a list, with its content behind it. *)
Lemma readSize_putint i rest :
  is_u64 i → 56 <= i → readSize (putint i ++ rest) (Z.of_nat (length (putint i))) = inl i.
Proof.
  intros Hi Hlow. destruct (putint_head i Hi ltac:(lia)) as (b & bs & E & Hb & _).
  unfold readSize. rewrite length_app, (proj2 (Z.ltb_ge _ _)) by lia.
  rewrite Nat2Z.id, take_app_length, SetBytes_putint, (proj2 (Z.ltb_ge i 56)) by (done || lia).
  rewrite E. simpl. by destruct b.
Qed.

Definition head_tags (k : Kind) (small large : Z) : Prop :=
  k = String ∧ small = 128 ∧ large = 183 ∨ k = List ∧ small = 192 ∧ large = 247.

Lemma raw_readKind_puthead k small large (content rest : bytes) :
  head_tags k small large → fits content →
  (∀ x, content = [x] → k = String → 128 <= x) →
  let h := puthead small large (Z.of_nat (length content)) in
  raw_readKind (h ++ content ++ rest) = inl (k, Z.of_nat (length h), Z.of_nat (length content)).
Proof.
  intros Hk Hs Hone h. unfold fits in Hs. set (size := Z.of_nat (length content)) in *.
  assert (Hlen : (Z.of_nat (length (h ++ content ++ rest)) - Z.of_nat (length h) <? size) = false).
  { rewrite !length_app. apply Z.ltb_ge. lia. }
  subst h. unfold puthead in *. destruct (Z.ltb_spec size 56) as [Hsm|Hsm].
  - change (length [small + size]) with 1%nat in *. cbn [app raw_readKind] in *. unfold is_u64 in Hs.
    change (Z.of_nat 1) with 1 in *.
    assert (∀ a, a + size - a = size) as Ha by lia.
    destruct Hk as [(-> & -> & ->)|(-> & -> & ->)];
      repeat (match goal with |- context [?a + size <? ?b] => destruct (Z.ltb_spec (a + size) b); [try lia|try lia] end);
      rewrite Ha, Hlen; [|done].
    assert ((size =? 1) && match content ++ rest with x :: _ => x <? 128 | [] => false end = false) as ->; [|done].
    destruct (Z.eqb_spec size 1); [|done]. subst size. destruct content as [|x [|]]; simpl in *; try lia.
    apply Z.ltb_ge. by apply Hone.
  - destruct (putint_head size Hs ltac:(lia)) as (b & bs & E & _ & Hl & _).
    pose proof (readSize_putint size (content ++ rest) Hs Hsm) as Hread.
    set (n := Z.of_nat (length (putint size))) in *.
    assert (Hn : 1 <= n <= 8) by (subst n; rewrite E; cbn [length]; lia).
    assert (Hl1 : ∀ z, Z.of_nat (length (z :: putint size)) = n + 1) by (intros z; subst n; simpl; lia).
    rewrite Hl1 in *. cbn [app raw_readKind] in *.
    destruct Hk as [(-> & -> & ->)|(-> & -> & ->)];
      repeat (match goal with |- context [?a + n <? ?b] => destruct (Z.ltb_spec (a + n) b); [try lia|try lia] end).
    + replace (183 + n - 183) with n by lia. by rewrite Hread, Hlen.
    + replace (247 + n - 247) with n by lia. by rewrite Hread, Hlen.
Qed.

(** An item is a string or a list; its kind and content. *)
Inductive item : Kind → bytes → bytes → Prop :=
| item_byte x : is_byte x → x < 128 → item Byte [x] (enc_string [x])
| item_string b : are_bytes b → fits b → (∀ x, b = [x] → 128 <= x) → item String b (enc_string b)
| item_list p : fits p → item List p (enc_list p).

Lemma item_of_string b : are_bytes b → fits b → ∃ k, item k b (enc_string b) ∧ k ≠ List.
Proof.
  intros Hb Hf. destruct b as [|x [|y b]]; [by exists String; split; [constructor|]| |by exists String; split; [constructor|]].
  rewrite Forall_singleton in Hb. destruct (Z.lt_ge_cases x 128).
  - exists Byte. by split; [constructor|].
  - exists String. split; [|done]. constructor; [by constructor|done|]. by intros z [= <-].
Qed.

Lemma raw_readKind_item k b e rest : item k b e →
  ∃ ts, raw_readKind (e ++ rest) = inl (k, Z.of_nat ts, Z.of_nat (length b)) ∧
    (ts + length b = length e)%nat ∧ drop ts (e ++ rest) = b ++ rest.
Proof.
  intros [x Hx Hlt|s Hb Hf Hone|p Hf].
  - exists 0%nat. unfold is_byte in Hx. simpl. rewrite (proj2 (Z.leb_le x 127)) by lia. simpl.
    rewrite (proj2 (Z.ltb_lt x 128)) by lia. split; [|done].
    by rewrite (proj2 (Z.ltb_ge _ _)) by lia.
  - assert (enc_string s = puthead 128 183 (Z.of_nat (length s)) ++ s) as ->.
    { destruct s as [|x [|y s]]; [done| |done]. simpl. specialize (Hone x eq_refl).
      by rewrite (proj2 (Z.leb_gt x 127)) by lia. }
    eexists. split_and!; [rewrite <- app_assoc; apply raw_readKind_puthead; [by left|done|by eauto]| |].
    + by rewrite length_app.
    + by rewrite <- app_assoc, drop_app_length.
  - eexists. unfold enc_list.
    split_and!; [rewrite <- app_assoc; apply raw_readKind_puthead; [by right|done|done]| |].
    + by rewrite length_app.
    + by rewrite <- app_assoc, drop_app_length.
Qed.

Lemma Split_item k b e rest : item k b e → Split (e ++ rest) = inl (k, b, rest).
Proof.
  intros (ts & Hr & _ & Hd)%(raw_readKind_item _ _ _ rest). unfold Split. rewrite Hr, !Nat2Z.id, Hd.
  by rewrite take_app_length, drop_app_length.
Qed.

Lemma SplitString_enc_string b rest :
  are_bytes b → fits b → SplitString (enc_string b ++ rest) = inl (b, rest).
Proof.
  intros Hb Hf. destruct (item_of_string b Hb Hf) as (k & Hi & Hk). unfold SplitString.
  rewrite (Split_item k b) by done. by destruct k.
Qed.
Lemma SplitList_enc_list p rest : fits p → SplitList (enc_list p ++ rest) = inl (p, rest).
Proof. intros Hf. unfold SplitList. by rewrite (Split_item List p) by by constructor. Qed.

(** The number of the values that were written. *)
Lemma CountValues_loop_items es fuel i :
  Forall (fun e => ∃ k b, item k b e) es → (length (concat es) <= fuel)%nat →
  CountValues_loop fuel i (concat es) = inl (i + Z.of_nat (length es)).
Proof.
  revert fuel i. induction es as [|e es IH]; intros fuel i Hall Hf.
  { destruct fuel; simpl; f_equal; lia. }
  apply Forall_cons in Hall as [(k & b & Hi) Hall]. cbn [concat] in *.
  destruct (raw_readKind_item k b e (concat es) Hi) as (ts & Hr & Hl & _).
  assert (He : e ≠ []).
  { destruct Hi; try apply enc_string_not_nil. apply puthead_not_nil. }
  assert (0 < length e)%nat by (destruct e; [done|simpl; lia]).
  rewrite length_app in Hf. destruct fuel as [|fuel]; [lia|].
  destruct (e ++ concat es) as [|z zs] eqn:E; [by apply app_nil in E as [? _]|].
  cbn [CountValues_loop]. rewrite Hr, <- E.
  replace (Z.to_nat (Z.of_nat ts + Z.of_nat (length b))) with (length e) by lia.
  rewrite drop_app_length, IH by (done || lia). f_equal. cbn [length]. lia.
Qed.
Lemma CountValues_items es :
  Forall (fun e => ∃ k b, item k b e) es → CountValues (concat es) = inl (Z.of_nat (length es)).
Proof. intros Hall. unfold CountValues. by rewrite CountValues_loop_items by (done || lia). Qed.
