(* ===== verification/Codec.v ===== *)
(** * RLP codecs of the persisted records and call parameters

    A [codec] describes a Go type to the RLP package: its [rtype], the value of
    the type as an [rval], and back. The class [Rlp] attaches a codec to a
    record; the codecs of the records of the chain are built from combinators,
    in the order of the struct fields in common/types.go, common/ticket.go and
    core/state. [codec_ok] is what a client may rely on: a well-formed record
    survives [EncodeToBytes] and [DecodeBytes] ([Unmarshal_Marshal]). *)

From stdpp Require Import base list gmap strings.
From Stdlib Require Import ZArith Lia Ascii.
From S2P Require Import Prelude Bytes TimeLock TimeLockFacts Ticket FsnTypes Rlp RlpFacts.

Record codec (A : Type) := mkCodec {
  ctype : rtype;
  cto : A → rval;
  cof : rval → A;
  cwf : A → Prop;
}.
Arguments mkCodec {A} _ _ _ _.
Arguments ctype {A} _.
Arguments cto {A} _ _.
Arguments cof {A} _ _.
Arguments cwf {A} _ _.

Definition codec_ok {A} (c : codec A) : Prop :=
  ∀ a, cwf c a → canon (ctype c) (cto c a) ∧ cof c (cto c a) = a.

Class Rlp (A : Type) := rlp : codec A.

Class RlpOk (A : Type) `{!Rlp A} := rlp_ok : codec_ok (rlp (A := A)).

(** [rlp.EncodeToBytes(&a)], and [rlp.DecodeBytes(b, &a)] for a fresh [a]. *)
Definition Marshal {A} `{!Rlp A} (a : A) : bytes + rlp_error :=
  EncodeToBytes (ctype rlp) (cto rlp a).
Definition Unmarshal (A : Type) `{!Rlp A} (b : bytes) : A * option rlp_error :=
  let '(v, err) := DecodeBytes (ctype rlp) (zero (ctype rlp)) b in (cof rlp v, err).
Definition rlp_wf {A} `{!Rlp A} (a : A) : Prop := cwf rlp a.

Lemma Unmarshal_Marshal {A} `{!Rlp A, !RlpOk A} (a : A) :
  rlp_wf a → ∃ b, Marshal a = inl b ∧ (fits b → Unmarshal A b = (a, None)).
Proof.
  intros Ha. destruct (rlp_ok a Ha) as [Hc Hof]. destruct (enc_canon _ _ Hc) as [b Hb].
  assert (HM : Marshal a = inl b) by (unfold Marshal; by rewrite EncodeToBytes_enc by by apply canon_has_type).
  exists b. split; [done|]. intros Hfit. unfold Unmarshal.
  rewrite (DecodeBytes_EncodeToBytes _ _ _ Hc HM Hfit). by rewrite Hof.
Qed.

(** ** Combinators *)

Definition string_bytes (s : string) : bytes :=
  map (fun c => Z.of_N (N_of_ascii c)) (String.list_ascii_of_string s).
Definition bytes_string (b : bytes) : string :=
  String.string_of_list_ascii (map (fun z => ascii_of_N (Z.to_N z)) b).

Lemma bytes_string_bytes s : bytes_string (string_bytes s) = s.
Proof.
  unfold bytes_string, string_bytes. rewrite map_map.
  rewrite (map_ext _ id); [|intros c; by rewrite N2Z.id, ascii_N_embedding].
  by rewrite map_id, String.string_of_list_ascii_of_string.
Qed.

Lemma string_bytes_are_bytes s : are_bytes (string_bytes s).
Proof.
  unfold string_bytes. apply Forall_map, Forall_true. intros c. simpl. unfold is_byte.
  pose proof (N_ascii_bounded c). lia.
Qed.

Definition c_uint (bits : Z) : codec Z :=
  mkCodec (TUint bits) VUint (fun v => match v with VUint i => i | _ => 0 end)
    (fun i => (bits = 8 ∨ bits = 16 ∨ bits = 32 ∨ bits = 64) ∧ 0 <= i < 2 ^ bits).
Definition c_bool : codec bool :=
  mkCodec TBool VBool (fun v => match v with VBool b => b | _ => false end) (fun _ => True).
Definition c_big : codec (option Z) :=
  mkCodec TBigInt VBigInt (fun v => match v with VBigInt i => i | _ => None end)
    (fun i => match i with Some i => 0 <= i | None => False end).
Definition c_string : codec string :=
  mkCodec TString (fun s => VBytes (string_bytes s))
    (fun v => match v with VBytes b => bytes_string b | _ => EmptyString end) (fun _ => True).
Definition c_bytes : codec bytes :=
  mkCodec TString VBytes (fun v => match v with VBytes b => b | _ => [] end)
    (fun b => are_bytes b).
Definition c_hash : codec Hash :=
  mkCodec (TByteArray 32) (fun h => VBytes (Hash_Bytes h))
    (fun v => match v with VBytes b => SetBytes b | _ => 0 end) is_hash.
Definition c_address : codec Address :=
  mkCodec (TByteArray 20) (fun a => VBytes (Address_Bytes a))
    (fun v => match v with VBytes b => SetBytes b | _ => 0 end) is_address.
Definition c_slice {A} (c : codec A) : codec (list A) :=
  mkCodec (TSlice (ctype c)) (fun l => VList (map (cto c) l))
    (fun v => match v with VList l => map (cof c) l | _ => [] end) (Forall (cwf c)).
Definition c_ptr {A} (c : codec A) : codec (option A) :=
  mkCodec (TPtr (ctype c)) (fun a => VPtr (cto c <$> a))
    (fun v => match v with VPtr v => cof c <$> v | _ => None end)
    (fun a => match a with Some a => cwf c a | None => False end).
(** A pointer that is never nil in a well-formed value. *)
Definition c_ref {A} (c : codec A) : codec A :=
  mkCodec (TPtr (ctype c)) (fun a => VPtr (Some (cto c a)))
    (fun v => cof c match v with VPtr (Some v) => v | _ => zero (ctype c) end) (cwf c).

(** The fields of a struct as nested pairs. *)
Record fields (A : Type) := mkFields {
  ftypes : list rtype;
  fto : A → list rval;
  fof : list rval → A;
  fwf : A → Prop;
}.
Arguments mkFields {A} _ _ _ _.
Arguments ftypes {A} _.
Arguments fto {A} _ _.
Arguments fof {A} _ _.
Arguments fwf {A} _ _.

Definition f_nil : fields unit := mkFields [] (fun _ => []) (fun _ => tt) (fun _ => True).
Definition f_cons {A B} (c : codec A) (fs : fields B) : fields (A * B) :=
  mkFields (ctype c :: ftypes fs) (fun p => cto c p.1 :: fto fs p.2)
    (fun l => match l with
              | v :: l => (cof c v, fof fs l)
              | [] => (cof c (zero (ctype c)), fof fs [])
              end)
    (fun p => cwf c p.1 ∧ fwf fs p.2).
Infix ":::" := f_cons (at level 60, right associativity).

Definition c_struct {A B} (fs : fields B) (into : A → B) (build : B → A) : codec A :=
  mkCodec (TStruct (ftypes fs)) (fun a => VList (fto fs (into a)))
    (fun v => build (fof fs (match v with VList l => l | _ => [] end)))
    (fun a => fwf fs (into a)).

Definition fields_ok {A} (fs : fields A) : Prop :=
  ∀ a, fwf fs a → has_types (map canon (ftypes fs)) (fto fs a) ∧ fof fs (fto fs a) = a.

Create HintDb codec.

Lemma c_uint_ok bits : codec_ok (c_uint bits).
Proof. by intros i Hi. Qed.
Lemma c_bool_ok : codec_ok c_bool.
Proof. done. Qed.
Lemma c_big_ok : codec_ok c_big.
Proof. by intros [i|] Hi. Qed.
Lemma c_string_ok : codec_ok c_string.
Proof. intros s _. simpl. split; [apply string_bytes_are_bytes|apply bytes_string_bytes]. Qed.
Lemma c_bytes_ok : codec_ok c_bytes.
Proof. done. Qed.
Lemma c_hash_ok : codec_ok c_hash.
Proof.
  intros h Hh. cbn [canon cof cto ctype c_hash c_address]. unfold Hash_Bytes, Address_Bytes. split; [|rewrite SetBytes_be_bytes; by apply Z.mod_small].
  split_and!; [lia|apply length_be_bytes|apply be_bytes_are_bytes].
Qed.
Lemma c_address_ok : codec_ok c_address.
Proof.
  intros h Hh. cbn [canon cof cto ctype c_hash c_address]. unfold Hash_Bytes, Address_Bytes. split; [|rewrite SetBytes_be_bytes; by apply Z.mod_small].
  split_and!; [lia|apply length_be_bytes|apply be_bytes_are_bytes].
Qed.
Lemma c_slice_ok {A} (c : codec A) : codec_ok c → codec_ok (c_slice c).
Proof.
  intros Hc l Hl. simpl in *. induction Hl as [|a l Ha _ [IH1 IH2]]; [done|]. simpl.
  destruct (Hc a Ha) as [H1 H2]. split; [by constructor|by f_equal].
Qed.
Lemma c_ptr_ok {A} (c : codec A) : codec_ok c → codec_ok (c_ptr c).
Proof. intros Hc [a|] Ha; [|done]. simpl. destruct (Hc a Ha) as [? H2]. by rewrite H2. Qed.
Lemma c_ref_ok {A} (c : codec A) : codec_ok c → codec_ok (c_ref c).
Proof. intros Hc a Ha. apply (Hc a Ha). Qed.
Lemma f_nil_ok : fields_ok f_nil.
Proof. by intros []. Qed.
Lemma f_cons_ok {A B} (c : codec A) (fs : fields B) :
  codec_ok c → fields_ok fs → fields_ok (c ::: fs).
Proof.
  intros Hc Hfs [a b] [Ha Hb]. simpl in *. destruct (Hc a Ha) as [? ->], (Hfs b Hb) as [? ->].
  by split_and!.
Qed.
Lemma c_struct_ok {A B} (fs : fields B) (into : A → B) (build : B → A) :
  fields_ok fs → (∀ a, build (into a) = a) → codec_ok (c_struct fs into build).
Proof. intros Hfs Hinto a Ha. simpl in *. destruct (Hfs _ Ha) as [? ->]. by rewrite Hinto. Qed.

#[export] Hint Resolve c_uint_ok c_bool_ok c_big_ok c_string_ok c_bytes_ok c_hash_ok c_address_ok
  c_slice_ok c_ptr_ok c_ref_ok f_nil_ok f_cons_ok : codec.
Ltac solve_codec := apply c_struct_ok; [eauto 30 with codec|by intros []].

(** ** Time locks *)

#[export] Instance TimeLockItem_rlp : Rlp TimeLockItem :=
  c_struct (c_uint 64 ::: c_uint 64 ::: c_big ::: f_nil)
    (fun i => (StartTime i, (EndTime i, (Some (Value i), tt))))
    (fun '(s, (e, (v, _))) => mkItem s e (default 0 v)).
#[export] Instance TimeLockItem_rlp_ok : RlpOk TimeLockItem.
Proof. unfold RlpOk, rlp, TimeLockItem_rlp. solve_codec. Qed.

#[export] Instance TimeLock_rlp : Rlp TimeLock :=
  c_struct (c_slice (c_ref TimeLockItem_rlp) ::: f_nil)
    (fun z => (Items z, tt)) (fun '(l, _) => mkTimeLock l).
#[export] Instance TimeLock_rlp_ok : RlpOk TimeLock.
Proof.
  unfold RlpOk, rlp, TimeLock_rlp. apply c_struct_ok; [|by intros []].
  apply f_cons_ok; [|apply f_nil_ok]. apply c_slice_ok, c_ref_ok, TimeLockItem_rlp_ok.
Qed.

(** A valid time lock is a well-formed RLP value. *)
Lemma wfTL_rlp z : wfTL z → rlp_wf z.
Proof.
  intros Hz. unfold rlp_wf. simpl. split; [|done]. apply Forall_forall. intros i Hi.
  destruct (wf_item _ _ _ Hz Hi) as (H1 & H2 & H3). simpl. unfold is_u64, two64 in *.
  split_and!; try lia; by auto.
Qed.

(** ** Tickets *)

#[export] Instance TicketBody_rlp : Rlp TicketBody :=
  c_struct (c_hash ::: c_uint 64 ::: c_uint 64 ::: c_uint 64 ::: f_nil)
    (fun t => (tk_ID t, (tk_Height t, (tk_StartTime t, (tk_ExpireTime t, tt)))))
    (fun '(i, (h, (s, (e, _)))) => mkBody i h s e).
#[export] Instance TicketBody_rlp_ok : RlpOk TicketBody.
Proof. unfold RlpOk, rlp, TicketBody_rlp. solve_codec. Qed.

#[export] Instance TicketsData_rlp : Rlp TicketsData :=
  c_struct (c_address ::: c_slice TicketBody_rlp ::: f_nil)
    (fun v => (Owner v, (Tickets v, tt))) (fun '(o, (l, _)) => mkTicketsData o l).
#[export] Instance TicketsData_rlp_ok : RlpOk TicketsData.
Proof.
  unfold RlpOk, rlp, TicketsData_rlp. apply c_struct_ok; [|by intros []].
  pose proof TicketBody_rlp_ok. eauto with codec.
Qed.

#[export] Instance TicketsDataSlice_rlp : Rlp TicketsDataSlice := c_slice TicketsData_rlp.
#[export] Instance TicketsDataSlice_rlp_ok : RlpOk TicketsDataSlice.
Proof. apply c_slice_ok, TicketsData_rlp_ok. Qed.

(** ** Assets and swaps *)

#[export] Instance Asset_rlp : Rlp Asset :=
  c_struct (c_hash ::: c_address ::: c_string ::: c_string ::: c_uint 8 ::: c_big ::: c_bool
            ::: c_string ::: f_nil)
    (fun u => (as_ID u, (as_Owner u, (as_Name u, (as_Symbol u, (as_Decimals u, (as_Total u,
       (as_CanChange u, (as_Description u, tt)))))))))
    (fun '(i, (o, (n, (s, (d, (t, (c, (x, _)))))))) => mkAsset i o n s d t c x).
#[export] Instance Asset_rlp_ok : RlpOk Asset.
Proof. unfold RlpOk, rlp, Asset_rlp. solve_codec. Qed.

#[export] Instance Swap_rlp : Rlp Swap :=
  c_struct (c_hash ::: c_address ::: c_hash ::: c_uint 64 ::: c_uint 64 ::: c_big ::: c_hash
            ::: c_uint 64 ::: c_uint 64 ::: c_big ::: c_big ::: c_slice c_address ::: c_big
            ::: c_string ::: c_uint 64 ::: f_nil)
    (fun s => (sw_ID s, (sw_Owner s, (sw_FromAssetID s, (sw_FromStartTime s, (sw_FromEndTime s,
       (sw_MinFromAmount s, (sw_ToAssetID s, (sw_ToStartTime s, (sw_ToEndTime s,
       (sw_MinToAmount s, (sw_SwapSize s, (sw_Targes s, (sw_Time s, (sw_Description s,
       (sw_Notation s, tt))))))))))))))))
    (fun '(i, (o, (fa, (fs, (fe, (mf, (ta, (ts, (te, (mt, (sz, (tg, (tm, (d, (n, _)))))))))))))))
       => mkSwap i o fa fs fe mf ta ts te mt sz tg tm d n).
#[export] Instance Swap_rlp_ok : RlpOk Swap.
Proof. unfold RlpOk, rlp, Swap_rlp. solve_codec. Qed.

#[export] Instance MultiSwap_rlp : Rlp MultiSwap :=
  c_struct (c_hash ::: c_address ::: c_slice c_hash ::: c_slice (c_uint 64)
            ::: c_slice (c_uint 64) ::: c_slice c_big ::: c_slice c_hash ::: c_slice (c_uint 64)
            ::: c_slice (c_uint 64) ::: c_slice c_big ::: c_big ::: c_slice c_address ::: c_big
            ::: c_string ::: c_uint 64 ::: f_nil)
    (fun s => (mu_ID s, (mu_Owner s, (mu_FromAssetID s, (mu_FromStartTime s, (mu_FromEndTime s,
       (mu_MinFromAmount s, (mu_ToAssetID s, (mu_ToStartTime s, (mu_ToEndTime s,
       (mu_MinToAmount s, (mu_SwapSize s, (mu_Targes s, (mu_Time s, (mu_Description s,
       (mu_Notation s, tt))))))))))))))))
    (fun '(i, (o, (fa, (fs, (fe, (mf, (ta, (ts, (te, (mt, (sz, (tg, (tm, (d, (n, _)))))))))))))))
       => mkMultiSwap i o fa fs fe mf ta ts te mt sz tg tm d n).
#[export] Instance MultiSwap_rlp_ok : RlpOk MultiSwap.
Proof. unfold RlpOk, rlp, MultiSwap_rlp. solve_codec. Qed.

(** ** Call parameters *)

#[export] Instance FSNCallParam_rlp : Rlp FSNCallParam :=
  c_struct (c_uint 8 ::: c_bytes ::: f_nil)
    (fun p => (Func p, (fp_Data p, tt))) (fun '(f, (d, _)) => mkFSNCallParam f d).
#[export] Instance FSNCallParam_rlp_ok : RlpOk FSNCallParam.
Proof. unfold RlpOk, rlp, FSNCallParam_rlp. solve_codec. Qed.

#[export] Instance GenAssetParam_rlp : Rlp GenAssetParam :=
  c_struct (c_string ::: c_string ::: c_uint 8 ::: c_big ::: c_bool ::: c_string ::: f_nil)
    (fun p => (ga_Name p, (ga_Symbol p, (ga_Decimals p, (ga_Total p, (ga_CanChange p,
       (ga_Description p, tt)))))))
    (fun '(n, (s, (d, (t, (c, (x, _)))))) => mkGenAssetParam n s d t c x).
#[export] Instance GenAssetParam_rlp_ok : RlpOk GenAssetParam.
Proof. unfold RlpOk, rlp, GenAssetParam_rlp. solve_codec. Qed.

#[export] Instance BuyTicketParam_rlp : Rlp BuyTicketParam :=
  c_struct (c_uint 64 ::: c_uint 64 ::: f_nil)
    (fun p => (bt_Start p, (bt_End p, tt))) (fun '(s, (e, _)) => mkBuyTicketParam s e).
#[export] Instance BuyTicketParam_rlp_ok : RlpOk BuyTicketParam.
Proof. unfold RlpOk, rlp, BuyTicketParam_rlp. solve_codec. Qed.

#[export] Instance SendAssetParam_rlp : Rlp SendAssetParam :=
  c_struct (c_hash ::: c_address ::: c_big ::: f_nil)
    (fun p => (sa_AssetID p, (sa_To p, (sa_Value p, tt))))
    (fun '(a, (t, (v, _))) => mkSendAssetParam a t v).
#[export] Instance SendAssetParam_rlp_ok : RlpOk SendAssetParam.
Proof. unfold RlpOk, rlp, SendAssetParam_rlp. solve_codec. Qed.

#[export] Instance AssetValueChangeExParam_rlp : Rlp AssetValueChangeExParam :=
  c_struct (c_hash ::: c_address ::: c_big ::: c_bool ::: c_string ::: f_nil)
    (fun p => (vc_AssetID p, (vc_To p, (vc_Value p, (vc_IsInc p, (vc_TransacData p, tt))))))
    (fun '(a, (t, (v, (i, (d, _))))) => mkAssetValueChangeExParam a t v i d).
#[export] Instance AssetValueChangeExParam_rlp_ok : RlpOk AssetValueChangeExParam.
Proof. unfold RlpOk, rlp, AssetValueChangeExParam_rlp. solve_codec. Qed.

#[export] Instance TimeLockParam_rlp : Rlp TimeLockParam :=
  c_struct (c_uint 64 ::: c_hash ::: c_address ::: c_uint 64 ::: c_uint 64 ::: c_big ::: f_nil)
    (fun p => (tl_Type p, (tl_AssetID p, (tl_To p, (tl_StartTime p, (tl_EndTime p,
       (tl_Value p, tt)))))))
    (fun '(k, (a, (t, (s, (e, (v, _)))))) => mkTimeLockParam k a t s e v).
#[export] Instance TimeLockParam_rlp_ok : RlpOk TimeLockParam.
Proof. unfold RlpOk, rlp, TimeLockParam_rlp. solve_codec. Qed.

#[export] Instance MakeSwapParam_rlp : Rlp MakeSwapParam :=
  c_struct (c_hash ::: c_uint 64 ::: c_uint 64 ::: c_big ::: c_hash ::: c_uint 64 ::: c_uint 64
            ::: c_big ::: c_big ::: c_slice c_address ::: c_big ::: c_string ::: f_nil)
    (fun p => (ms_FromAssetID p, (ms_FromStartTime p, (ms_FromEndTime p, (ms_MinFromAmount p,
       (ms_ToAssetID p, (ms_ToStartTime p, (ms_ToEndTime p, (ms_MinToAmount p, (ms_SwapSize p,
       (ms_Targes p, (ms_Time p, (ms_Description p, tt)))))))))))))
    (fun '(fa, (fs, (fe, (mf, (ta, (ts, (te, (mt, (sz, (tg, (tm, (d, _))))))))))))
       => mkMakeSwapParam fa fs fe mf ta ts te mt sz tg tm d).
#[export] Instance MakeSwapParam_rlp_ok : RlpOk MakeSwapParam.
Proof. unfold RlpOk, rlp, MakeSwapParam_rlp. solve_codec. Qed.

#[export] Instance MakeMultiSwapParam_rlp : Rlp MakeMultiSwapParam :=
  c_struct (c_slice c_hash ::: c_slice (c_uint 64) ::: c_slice (c_uint 64) ::: c_slice c_big
            ::: c_slice c_hash ::: c_slice (c_uint 64) ::: c_slice (c_uint 64) ::: c_slice c_big
            ::: c_big ::: c_slice c_address ::: c_big ::: c_string ::: f_nil)
    (fun p => (mm_FromAssetID p, (mm_FromStartTime p, (mm_FromEndTime p, (mm_MinFromAmount p,
       (mm_ToAssetID p, (mm_ToStartTime p, (mm_ToEndTime p, (mm_MinToAmount p, (mm_SwapSize p,
       (mm_Targes p, (mm_Time p, (mm_Description p, tt)))))))))))))
    (fun '(fa, (fs, (fe, (mf, (ta, (ts, (te, (mt, (sz, (tg, (tm, (d, _))))))))))))
       => mkMakeMultiSwapParam fa fs fe mf ta ts te mt sz tg tm d).
#[export] Instance MakeMultiSwapParam_rlp_ok : RlpOk MakeMultiSwapParam.
Proof. unfold RlpOk, rlp, MakeMultiSwapParam_rlp. solve_codec. Qed.

#[export] Instance RecallSwapParam_rlp : Rlp RecallSwapParam :=
  c_struct (c_hash ::: f_nil) (fun p => (rs_SwapID p, tt)) (fun '(i, _) => mkRecallSwapParam i).
#[export] Instance RecallSwapParam_rlp_ok : RlpOk RecallSwapParam.
Proof. unfold RlpOk, rlp, RecallSwapParam_rlp. solve_codec. Qed.

#[export] Instance RecallMultiSwapParam_rlp : Rlp RecallMultiSwapParam :=
  c_struct (c_hash ::: f_nil) (fun p => (rm_SwapID p, tt)) (fun '(i, _) => mkRecallMultiSwapParam i).
#[export] Instance RecallMultiSwapParam_rlp_ok : RlpOk RecallMultiSwapParam.
Proof. unfold RlpOk, rlp, RecallMultiSwapParam_rlp. solve_codec. Qed.

#[export] Instance TakeSwapParam_rlp : Rlp TakeSwapParam :=
  c_struct (c_hash ::: c_big ::: f_nil)
    (fun p => (ts_SwapID p, (ts_Size p, tt))) (fun '(i, (s, _)) => mkTakeSwapParam i s).
#[export] Instance TakeSwapParam_rlp_ok : RlpOk TakeSwapParam.
Proof. unfold RlpOk, rlp, TakeSwapParam_rlp. solve_codec. Qed.

#[export] Instance TakeMultiSwapParam_rlp : Rlp TakeMultiSwapParam :=
  c_struct (c_hash ::: c_big ::: f_nil)
    (fun p => (tm_SwapID p, (tm_Size p, tt))) (fun '(i, (s, _)) => mkTakeMultiSwapParam i s).
#[export] Instance TakeMultiSwapParam_rlp_ok : RlpOk TakeMultiSwapParam.
Proof. unfold RlpOk, rlp, TakeMultiSwapParam_rlp. solve_codec. Qed.
