(* ===== verification/CallParams.v ===== *)
(** * What decoding leaves in a call parameter

    The calls decode their parameters and ignore the error, so the variable may
    be partly filled. Whatever the input is, its fields have values of their Go
    types: sized integers in range, byte arrays of their length, big integers
    that are nil or not negative. *)

From stdpp Require Import base list gmap strings.
From Stdlib Require Import ZArith Lia.
From S2P Require Import Prelude Bytes TimeLock TimeLockFacts Ticket FsnTypes Rlp RlpFacts Codec.

(** A value of the type, nil pointers included. *)
Fixpoint ranged (t : rtype) (v : rval) {struct t} : Prop :=
  match t, v with
  | TUint bits, VUint i => 0 <= i < 2 ^ bits
  | TBool, VBool _ => True
  | TBigInt, VBigInt i => from_option (Z.le 0) True i
  | TString, VBytes b => are_bytes b
  | TByteArray n, VBytes b => length b = n ∧ are_bytes b
  | TSlice t, VList l => Forall (ranged t) l
  | TStruct ts, VList l => has_types (map ranged ts) l
  | TPtr t, VPtr v => from_option (ranged t) True v
  | _, _ => False
  end.

Lemma ranged_zero t : type_ok t → ranged t (zero t).
Proof.
  induction t as [bits| | | |n|t IH|ts IH|t IH] using rtype_ind'; simpl; try done.
  - intros [->|[->|[->| ->]]]; done.
  - intros _. rewrite length_replicate. split; [done|]. by apply Forall_replicate.
  - induction IH as [|t ts Ht _ IHts]; simpl; [done|]. intros [? ?]. auto.
Qed.

(** A reader of the values of a type: it leaves such a value, and bytes. *)
Definition reads (t : rtype) : Prop :=
  ∀ init w, are_bytes w → ranged t init →
    ranged t (decode t init w).1 ∧ from_option are_bytes True
      (match (decode t init w).2 with inl rest => Some rest | inr _ => None end).

Lemma decodeSliceElems_ranged t fuel acc w :
  type_ok t → reads t → are_bytes w → Forall (ranged t) acc →
  Forall (ranged t) (decodeSliceElems fuel (zero t) (decode t) acc w).1.
Proof.
  intros Hok Hr. revert acc w. induction fuel as [|fuel IH]; intros acc w Hw Hacc; [done|].
  cbn [decodeSliceElems]. destruct (Hr (zero t) w Hw (ranged_zero t Hok)) as [Hv Hrest].
  destruct (decode t (zero t) w) as [v [r|e]]; simpl in Hv, Hrest.
  - apply IH; [done|]. by apply Forall_app_2; [|constructor].
  - destruct e; try done; by apply Forall_app_2; [|constructor].
Qed.

Lemma decodeFields_ranged ts :
  Forall reads ts → ∀ inits w, are_bytes w → has_types (map ranged ts) inits →
  has_types (map ranged ts) (decodeFields (map decode ts) inits w).1.
Proof.
  induction 1 as [|t ts Ht _ IH]; intros [|i inits] w Hw Hs; try done; simpl.
  destruct Hs as [Hi Hs]. destruct (Ht i w Hw Hi) as [Hv Hr].
  destruct (decode t i w) as [v [r|e]]; simpl in Hv, Hr.
  - specialize (IH inits r Hr Hs). by destruct (decodeFields (map decode ts) inits r).
  - by destruct e.
Qed.

Lemma decode_ranged t : type_ok t → reads t.
Proof.
  induction t as [bits| | | |n|t IH|ts IH|t IH] using rtype_ind';
    intros Hok init w Hw Hi; cbn [decode].
  - unfold decodeUint. destruct (Stream_uint bits w) as [[i r]|] eqn:E; [|done].
    by destruct (Stream_uint_inv bits w i r Hok Hw E) as (? & ? & _).
  - unfold decodeBool, Stream_Bool. destruct (Stream_uint 8 w) as [[i r]|] eqn:E; [|done].
    destruct (Stream_uint_inv 8 w i r ltac:(by left) Hw E) as (? & ? & _).
    by destruct (i =? 0), (i =? 1).
  - unfold decodeBigInt. destruct (Stream_Bytes w) as [[b r]|] eqn:E; [|done].
    destruct (Stream_Bytes_inv _ _ _ Hw E) as (Hb & Hr & _). pose proof (SetBytes_range b Hb).
    destruct init as [| |[i|]| | |]; try done; destruct b as [|[|p|p] b]; simpl in *; split; done || lia.
  - unfold decodeString. destruct (Stream_Bytes w) as [[b r]|] eqn:E; [|done].
    by destruct (Stream_Bytes_inv _ _ _ Hw E) as (? & ? & _).
  - unfold decodeByteArray. destruct (Stream_Kind w) as [[[[k s] bv] w']|] eqn:E; [|done].
    destruct (Stream_Kind_inv _ _ _ _ _ Hw E) as (Hw' & _). simpl in Hok.
    destruct k; [destruct (Nat.eqb_spec n 0); [done|]; destruct (Nat.ltb_spec 1 n); [done|lia]| |done].
    destruct (_ <? s); [done|]. destruct (s <? _); [done|].
    destruct (readFull n w') as [[b w2]|] eqn:Er; [|done].
    destruct (readFull_inv _ _ _ _ Er) as [-> Hlen]. apply Forall_app in Hw' as [Hb Hw2].
    destruct b as [|x [|y b]]; simpl in Hlen; [lia|lia|done].
  - destruct (Stream_List w) as [[p r]|] eqn:E; [|done].
    destruct (Stream_List_inv _ _ _ Hw E) as (Hp & Hr & _).
    pose proof (decodeSliceElems_ranged t (S (length p)) [] p Hok (IH Hok) Hp ltac:(constructor)).
    by destruct (decodeSliceElems _ _ _ _ _) as [l [e|]].
  - destruct (Stream_List w) as [[p r]|] eqn:E; [|done].
    destruct (Stream_List_inv _ _ _ Hw E) as (Hp & Hr & _). destruct init as [| | | |inits|]; try done.
    assert (Hts : Forall reads ts).
    { clear -IH Hok. simpl in Hok. induction IH; [constructor|]. simpl in Hok. constructor; naive_solver. }
    pose proof (decodeFields_ranged ts Hts inits p Hp Hi).
    by destruct (decodeFields _ _ _) as [l [[|]|e]].
  - assert (Hi' : ranged t (match init with VPtr (Some v) => v | _ => zero t end)).
    { destruct init as [| | | | |[i|]]; by try apply ranged_zero. }
    destruct (IH Hok _ w Hw Hi') as [Hv Hr]. destruct (decode t _ w) as [v [r|e]]; [done|].
    by destruct init as [| | | | |[i|]].
Qed.

Lemma Unmarshal_ranged A `{!Rlp A} b :
  are_bytes b → type_ok (ctype rlp) →
  ∃ v, ranged (ctype (rlp (A := A))) v ∧ (Unmarshal A b).1 = cof rlp v.
Proof.
  intros Hb Hok. unfold Unmarshal, DecodeBytes.
  destruct (decode_ranged _ Hok _ b Hb (ranged_zero _ Hok)) as [Hv _].
  destruct (decode _ _ b) as [v [[|]|[]]]; by exists v.
Qed.

(** The value of a struct, field by field. *)
Ltac inv_ranged :=
  repeat match goal with
  | H : ranged (TStruct _) ?v |- _ => destruct v; try done; cbn [ranged map] in H
  | H : has_types (_ :: _) ?l |- _ => destruct l as [|? ?]; [done|]; destruct H as [? H]
  | H : has_types [] ?l |- _ => destruct l; [|done]; clear H
  | H : ranged _ ?v |- _ => destruct v; try done; cbn [ranged] in H
  | H : match ?v with _ => _ end |- _ => is_var v; destruct v; try done
  end.
Ltac unmarshal A b :=
  let v := fresh "v" in let Hv := fresh "Hv" in let E := fresh "E" in
  destruct (Unmarshal_ranged A b) as (v & Hv & E); [done|simpl; split_and?; (done || lia || tauto)|rewrite E; clear E];
  let t := eval vm_compute in (ctype (rlp (A := A))) in change (ranged t v) in Hv.

Definition nonneg (v : option Z) : Prop := from_option (Z.le 0) True v.

Lemma SetBytes_hash b : length b = 32%nat ∧ are_bytes b → is_hash (SetBytes b).
Proof. intros [Hl Hb]. pose proof (SetBytes_range b Hb) as Hr. by rewrite Hl in Hr. Qed.
Lemma SetBytes_address b : length b = 20%nat ∧ are_bytes b → is_address (SetBytes b).
Proof. intros [Hl Hb]. pose proof (SetBytes_range b Hb) as Hr. by rewrite Hl in Hr. Qed.

Lemma FSNCallParam_typed b :
  are_bytes b → let p := (Unmarshal FSNCallParam b).1 in 0 <= Func p < 256 ∧ are_bytes (fp_Data p).
Proof. intros Hb. unmarshal FSNCallParam b. by inv_ranged. Qed.

Lemma TimeLockParam_typed b :
  are_bytes b → let p := (Unmarshal TimeLockParam b).1 in
  is_hash (tl_AssetID p) ∧ is_address (tl_To p) ∧ is_u64 (tl_StartTime p) ∧ is_u64 (tl_EndTime p)
  ∧ nonneg (tl_Value p).
Proof.
  intros Hb. unmarshal TimeLockParam b. inv_ranged. split_and!; simpl; auto using SetBytes_hash, SetBytes_address.
Qed.
Lemma BuyTicketParam_typed b :
  are_bytes b → let p := (Unmarshal BuyTicketParam b).1 in is_u64 (bt_Start p) ∧ is_u64 (bt_End p).
Proof. intros Hb. unmarshal BuyTicketParam b. by inv_ranged. Qed.
Lemma SendAssetParam_typed b :
  are_bytes b → let p := (Unmarshal SendAssetParam b).1 in
  is_hash (sa_AssetID p) ∧ is_address (sa_To p) ∧ nonneg (sa_Value p).
Proof.
  intros Hb. unmarshal SendAssetParam b. inv_ranged. split_and!; simpl; auto using SetBytes_hash, SetBytes_address.
Qed.
Lemma MakeSwapParam_typed b :
  are_bytes b → let p := (Unmarshal MakeSwapParam b).1 in
  is_u64 (ms_FromStartTime p) ∧ is_u64 (ms_FromEndTime p) ∧
  is_u64 (ms_ToStartTime p) ∧ is_u64 (ms_ToEndTime p).
Proof. intros Hb. unmarshal MakeSwapParam b. by inv_ranged. Qed.

Lemma u64_slice l : Forall (ranged (TUint 64)) l → Forall is_u64 (map (cof (c_uint 64)) l).
Proof. intros H. apply Forall_map. eapply Forall_impl; [exact H|]. by intros []. Qed.
Lemma MakeMultiSwapParam_typed b :
  are_bytes b → let p := (Unmarshal MakeMultiSwapParam b).1 in
  Forall is_u64 (mm_FromStartTime p) ∧ Forall is_u64 (mm_FromEndTime p) ∧
  Forall is_u64 (mm_ToStartTime p) ∧ Forall is_u64 (mm_ToEndTime p).
Proof.
  intros Hb. unmarshal MakeMultiSwapParam b. inv_ranged. split_and!; by apply u64_slice.
Qed.
