(* ===== verification/StateDB.v ===== *)
(** * The state database (core/state)

    [StateDB] with its state objects, the journal and the snapshots
    (statedb.go, state_object.go, journal.go), and the records the Fusion calls
    persist in it: notations, assets, swaps, multi-swaps and tickets.

    A pointer to a live state object is the address it is stored under; code
    that keeps the pointer over another call looks the object up again. The
    operations are programs of the monad [M]: they read and write the
    [StateDB] and may panic. A trie is the finite map it stands for, and a
    lookup in it does not fail: the node database is complete. The root hash of
    a trie is the parameter [trie_Hash]. *)

From stdpp Require Import base list gmap strings.
From Stdlib Require Import ZArith Lia.
From S2P Require Import Prelude Bytes Keccak KeccakFacts TimeLock Ticket FsnTypes Rlp RlpFacts Codec.

(** ** Accounts and state objects *)

Record Account := mkAccount {
  Nonce : Z;
  Notaion : Z;
  BalancesHash : list Hash;
  BalancesVal : list (option Z);
  TimeLockBalancesHash : list Hash;
  TimeLockBalancesVal : list (option TimeLock);
  Root : Hash;
  CodeHash : bytes;
}.

#[export] Instance Account_rlp : Rlp Account :=
  c_struct (c_uint 64 ::: c_uint 64 ::: c_slice c_hash ::: c_slice c_big ::: c_slice c_hash
            ::: c_slice (c_ptr TimeLock_rlp) ::: c_hash ::: c_bytes ::: f_nil)
    (fun a => (Nonce a, (Notaion a, (BalancesHash a, (BalancesVal a, (TimeLockBalancesHash a,
       (TimeLockBalancesVal a, (Root a, (CodeHash a, tt)))))))))
    (fun '(n, (o, (bh, (bv, (th, (tv, (r, (c, _)))))))) => mkAccount n o bh bv th tv r c).
#[export] Instance Account_rlp_ok : RlpOk Account.
Proof.
  unfold RlpOk, rlp, Account_rlp. apply c_struct_ok; [|by intros []].
  pose proof TimeLock_rlp_ok. eauto 30 with codec.
Qed.

(** The hash of the empty code. *)
Definition emptyCodeHash : bytes := Hash_Bytes (keccak []).

Abbreviation Trie := (gmap Z bytes).
Abbreviation Storage := (gmap Hash Hash).

(** [trie] is [None] until the storage trie is opened, [code] until the code is
    loaded or set. *)
Record stateObject := mkObject {
  address : Address;
  data : Account;
  so_dbErr : option error;
  so_trie : option Trie;
  code : option bytes;
  originStorage : Storage;
  dirtyStorage : Storage;
  dirtyCode : bool;
  suicided : bool;
  deleted : bool;
}.

Definition emptyAccount : Account := mkAccount 0 0 [] [] [] [] 0 emptyCodeHash.

(** [newObject] of a decoded account; [newObject] of [Account{}] sets the code
    hash, which is what [emptyAccount] has already. *)
Definition newObject (addr : Address) (d : Account) : stateObject :=
  mkObject addr d None None None ∅ ∅ false false false.

Definition empty (s : stateObject) : bool :=
  if negb (Nonce (data s) =? 0) then false
  else if (0 <? length (BalancesVal (data s)))%nat then false
  else if (0 <? length (TimeLockBalancesVal (data s)))%nat then false
  else if negb (bool_decide (CodeHash (data s) = emptyCodeHash)) then false
  else if IsSpecialKeyAddress (address s) then false
  else true.

(** *** Field updates *)

Definition set_data (f : Account → Account) (o : stateObject) : stateObject :=
  mkObject (address o) (f (data o)) (so_dbErr o) (so_trie o) (code o) (originStorage o)
    (dirtyStorage o) (dirtyCode o) (suicided o) (deleted o).
Definition set_Nonce (n : Z) (a : Account) : Account :=
  mkAccount n (Notaion a) (BalancesHash a) (BalancesVal a) (TimeLockBalancesHash a)
    (TimeLockBalancesVal a) (Root a) (CodeHash a).
Definition set_Notaion (n : Z) (a : Account) : Account :=
  mkAccount (Nonce a) n (BalancesHash a) (BalancesVal a) (TimeLockBalancesHash a)
    (TimeLockBalancesVal a) (Root a) (CodeHash a).
Definition set_Balances (h : list Hash) (v : list (option Z)) (a : Account) : Account :=
  mkAccount (Nonce a) (Notaion a) h v (TimeLockBalancesHash a) (TimeLockBalancesVal a) (Root a)
    (CodeHash a).
Definition set_TimeLockBalances (h : list Hash) (v : list (option TimeLock)) (a : Account)
    : Account :=
  mkAccount (Nonce a) (Notaion a) (BalancesHash a) (BalancesVal a) h v (Root a) (CodeHash a).
Definition set_Root (r : Hash) (a : Account) : Account :=
  mkAccount (Nonce a) (Notaion a) (BalancesHash a) (BalancesVal a) (TimeLockBalancesHash a)
    (TimeLockBalancesVal a) r (CodeHash a).
Definition set_CodeHash (h : bytes) (a : Account) : Account :=
  mkAccount (Nonce a) (Notaion a) (BalancesHash a) (BalancesVal a) (TimeLockBalancesHash a)
    (TimeLockBalancesVal a) (Root a) h.

Definition set_suicided (b : bool) (o : stateObject) : stateObject :=
  mkObject (address o) (data o) (so_dbErr o) (so_trie o) (code o) (originStorage o)
    (dirtyStorage o) (dirtyCode o) b (deleted o).
Definition set_deleted (b : bool) (o : stateObject) : stateObject :=
  mkObject (address o) (data o) (so_dbErr o) (so_trie o) (code o) (originStorage o)
    (dirtyStorage o) (dirtyCode o) (suicided o) b.
Definition set_storage (t : option Trie) (og dirty : Storage) (o : stateObject) : stateObject :=
  mkObject (address o) (data o) (so_dbErr o) t (code o) og dirty (dirtyCode o) (suicided o)
    (deleted o).
Definition set_code (c : option bytes) (dirty : bool) (o : stateObject) : stateObject :=
  mkObject (address o) (data o) (so_dbErr o) (so_trie o) c (originStorage o) (dirtyStorage o)
    dirty (suicided o) (deleted o).
Definition set_so_dbErr (e : option error) (o : stateObject) : stateObject :=
  mkObject (address o) (data o) e (so_trie o) (code o) (originStorage o) (dirtyStorage o)
    (dirtyCode o) (suicided o) (deleted o).

Definition so_setError (e : option error) (o : stateObject) : stateObject :=
  match so_dbErr o with None => set_so_dbErr e o | Some _ => o end.

(** ** The journal *)

Inductive journalEntry :=
| createObjectChange (account : Address)
| resetObjectChange (prev : stateObject)
| suicideChange (isTimeLock : bool) (account : Address) (assetID : Hash) (prev : bool)
    (prevbalance : option Z) (prevTimeLockBalance : option TimeLock)
| balanceChange (account : Address) (assetID : Hash) (prev : option Z)
| timeLockBalanceChange (account : Address) (assetID : Hash) (prev : option TimeLock)
| nonceChange (account : Address) (prev : Z)
| notationChange (account : Address) (prev : Z)
| storageChange (account : Address) (key prevalue : Hash)
| codeChange (account : Address) (prevcode : option bytes) (prevhash : bytes)
| refundChange (prev : Z)
| addLogChange (txhash : Hash)
| addPreimageChange (hash : Hash)
| touchChange (account : Address).

Definition dirtied (e : journalEntry) : option Address :=
  match e with
  | createObjectChange a | suicideChange _ a _ _ _ _ | balanceChange a _ _
  | timeLockBalanceChange a _ _ | nonceChange a _ | notationChange a _ | storageChange a _ _
  | codeChange a _ _ | touchChange a => Some a
  | resetObjectChange _ | refundChange _ | addLogChange _ | addPreimageChange _ => None
  end.

(** [entries] has the newest entry first. *)
Record journal := mkJournal {
  entries : list journalEntry;
  dirties : gmap Address Z;
}.

Definition newJournal : journal := mkJournal [] ∅.

Definition dirty_inc (d : gmap Address Z) (a : Address) : gmap Address Z :=
  <[a := default 0 (d !! a) + 1]> d.
Definition dirty_dec (d : gmap Address Z) (a : Address) : gmap Address Z :=
  let n := default 0 (d !! a) - 1 in if n =? 0 then delete a d else <[a := n]> d.

Definition journal_append (j : journal) (e : journalEntry) : journal :=
  mkJournal (e :: entries j)
    (match dirtied e with Some a => dirty_inc (dirties j) a | None => dirties j end).

Definition journal_length (j : journal) : nat := length (entries j).

(** ** The ticket cache: a ring of the last ticket sets *)

Definition maxCachedTicketsCount : Z := 101.

Record CachedTickets := mkCachedTickets { ct_hash : Hash; ct_tickets : TicketsDataSlice }.

Record CachedTicketSlice := mkCachedTicketSlice {
  cts_tickets : list CachedTickets;
  cts_start : Z;
  cts_end : Z;
}.

Definition emptyTicketCache : CachedTicketSlice :=
  mkCachedTicketSlice (replicate 101 (mkCachedTickets 0 [])) 0 0.

Fixpoint cts_Get_loop (fuel : nat) (cts : CachedTicketSlice) (i : Z) (hash : Hash)
    : option TicketsDataSlice :=
  if i =? cts_end cts then None
  else
    match fuel with
    | O => None
    | S fuel =>
        match cts_tickets cts !! Z.to_nat i with
        | Some v => if ct_hash v =? hash then Some (ct_tickets v)
                    else cts_Get_loop fuel cts ((i + 1) mod maxCachedTicketsCount) hash
        | None => None
        end
    end.

(** [None] is the nil slice. *)
Definition cts_Get (cts : CachedTicketSlice) (hash : Hash) : option TicketsDataSlice :=
  if hash =? 0 then Some [] else cts_Get_loop 101 cts (cts_start cts) hash.

Definition cts_Add (cts : CachedTicketSlice) (hash : Hash) (tickets : TicketsDataSlice)
    : CachedTicketSlice :=
  match cts_Get cts hash with
  | Some _ => cts
  | None =>
      let ts := <[Z.to_nat (cts_end cts) := mkCachedTickets hash tickets]> (cts_tickets cts) in
      let end_ := (cts_end cts + 1) mod maxCachedTicketsCount in
      let start := if end_ =? cts_start cts
                   then (cts_start cts + 1) mod maxCachedTicketsCount else cts_start cts in
      mkCachedTicketSlice ts start end_
  end.

(** ** StateDB *)

Record Log := mkLog {
  log_Address : Address;
  log_Topics : list Hash;
  log_Data : bytes;
  log_BlockNumber : Z;
  log_TxHash : Hash;
  log_TxIndex : Z;
  log_BlockHash : Hash;
  log_Index : Z;
}.

Record revision := mkRevision { rev_id : Z; rev_journalIndex : nat }.

(** The node database: the tries by root and the code by hash. *)
Record Database := mkDatabase { db_tries : gmap Hash Trie; db_code : gmap Hash bytes }.

(** [cached] is the package variable [cachedTicketSlice]. *)
Record StateDB := mkStateDB {
  db : Database;
  trie : Trie;
  stateObjects : gmap Address stateObject;
  stateObjectsDirty : gset Address;
  dbErr : option error;
  refund : Z;
  thash : Hash;
  bhash : Hash;
  txIndex : Z;
  logs : gmap Hash (list Log);
  logSize : Z;
  preimages : gmap Hash bytes;
  jrnl : journal;
  validRevisions : list revision;
  nextRevisionId : Z;
  ticketsHash : Hash;
  tickets : TicketsDataSlice;
  cached : CachedTicketSlice;
}.

Definition set_objects (m : gmap Address stateObject) (s : StateDB) : StateDB :=
  mkStateDB (db s) (trie s) m (stateObjectsDirty s) (dbErr s) (refund s) (thash s) (bhash s)
    (txIndex s) (logs s) (logSize s) (preimages s) (jrnl s) (validRevisions s)
    (nextRevisionId s) (ticketsHash s) (tickets s) (cached s).
Definition set_objectsDirty (d : gset Address) (s : StateDB) : StateDB :=
  mkStateDB (db s) (trie s) (stateObjects s) d (dbErr s) (refund s) (thash s) (bhash s)
    (txIndex s) (logs s) (logSize s) (preimages s) (jrnl s) (validRevisions s)
    (nextRevisionId s) (ticketsHash s) (tickets s) (cached s).
Definition set_db (d : Database) (t : Trie) (s : StateDB) : StateDB :=
  mkStateDB d t (stateObjects s) (stateObjectsDirty s) (dbErr s) (refund s) (thash s) (bhash s)
    (txIndex s) (logs s) (logSize s) (preimages s) (jrnl s) (validRevisions s)
    (nextRevisionId s) (ticketsHash s) (tickets s) (cached s).
Definition set_dbErr (e : option error) (s : StateDB) : StateDB :=
  mkStateDB (db s) (trie s) (stateObjects s) (stateObjectsDirty s) e (refund s) (thash s)
    (bhash s) (txIndex s) (logs s) (logSize s) (preimages s) (jrnl s) (validRevisions s)
    (nextRevisionId s) (ticketsHash s) (tickets s) (cached s).
Definition set_refund (r : Z) (s : StateDB) : StateDB :=
  mkStateDB (db s) (trie s) (stateObjects s) (stateObjectsDirty s) (dbErr s) r (thash s)
    (bhash s) (txIndex s) (logs s) (logSize s) (preimages s) (jrnl s) (validRevisions s)
    (nextRevisionId s) (ticketsHash s) (tickets s) (cached s).
Definition set_tx (th bh : Hash) (ti : Z) (s : StateDB) : StateDB :=
  mkStateDB (db s) (trie s) (stateObjects s) (stateObjectsDirty s) (dbErr s) (refund s) th bh
    ti (logs s) (logSize s) (preimages s) (jrnl s) (validRevisions s) (nextRevisionId s)
    (ticketsHash s) (tickets s) (cached s).
Definition set_logs (l : gmap Hash (list Log)) (n : Z) (s : StateDB) : StateDB :=
  mkStateDB (db s) (trie s) (stateObjects s) (stateObjectsDirty s) (dbErr s) (refund s)
    (thash s) (bhash s) (txIndex s) l n (preimages s) (jrnl s) (validRevisions s)
    (nextRevisionId s) (ticketsHash s) (tickets s) (cached s).
Definition set_preimages (p : gmap Hash bytes) (s : StateDB) : StateDB :=
  mkStateDB (db s) (trie s) (stateObjects s) (stateObjectsDirty s) (dbErr s) (refund s)
    (thash s) (bhash s) (txIndex s) (logs s) (logSize s) p (jrnl s) (validRevisions s)
    (nextRevisionId s) (ticketsHash s) (tickets s) (cached s).
Definition set_jrnl (j : journal) (s : StateDB) : StateDB :=
  mkStateDB (db s) (trie s) (stateObjects s) (stateObjectsDirty s) (dbErr s) (refund s)
    (thash s) (bhash s) (txIndex s) (logs s) (logSize s) (preimages s) j (validRevisions s)
    (nextRevisionId s) (ticketsHash s) (tickets s) (cached s).
Definition set_revisions (r : list revision) (n : Z) (s : StateDB) : StateDB :=
  mkStateDB (db s) (trie s) (stateObjects s) (stateObjectsDirty s) (dbErr s) (refund s)
    (thash s) (bhash s) (txIndex s) (logs s) (logSize s) (preimages s) (jrnl s) r n
    (ticketsHash s) (tickets s) (cached s).
Definition set_tickets (t : TicketsDataSlice) (c : CachedTicketSlice) (s : StateDB) : StateDB :=
  mkStateDB (db s) (trie s) (stateObjects s) (stateObjectsDirty s) (dbErr s) (refund s)
    (thash s) (bhash s) (txIndex s) (logs s) (logSize s) (preimages s) (jrnl s)
    (validRevisions s) (nextRevisionId s) (ticketsHash s) t c.

(** ** The monad *)

Definition M (A : Type) : Type := StateDB → outcome (A * StateDB).

#[export] Instance M_ret : MRet M := fun A a s => Done (a, s).
#[export] Instance M_bind : MBind M := fun A B k m s => let? r := m s in k r.1 r.2.

Definition get : M StateDB := fun s => Done (s, s).
Definition gets {A} (f : StateDB → A) : M A := fun s => Done (f s, s).
Definition modify (f : StateDB → StateDB) : M unit := fun s => Done (tt, f s).
Definition panic {A} (why : string) : M A := fun _ => Panic why.
Definition lift {A} (o : outcome A) : M A := fun s => let? a := o in Done (a, s).

(** The live object at an address; writing through the pointer. *)
Definition deref (addr : Address) : M stateObject := fun s =>
  match stateObjects s !! addr with
  | Some o => Done (o, s)
  | None => Panic "nil pointer dereference"
  end.
Definition store (addr : Address) (o : stateObject) : M unit :=
  modify (fun s => set_objects (<[addr := o]> (stateObjects s)) s).
Definition modify_obj (addr : Address) (f : stateObject → stateObject) : M unit :=
  o ← deref addr; store addr (f o).
Definition append (e : journalEntry) : M unit :=
  modify (fun s => set_jrnl (journal_append (jrnl s) e) s).

(** ** Operations of a state object (state_object.go) *)

(** The root of the empty trie, [emptyRoot] of the trie package. *)
Definition emptyRoot : Hash := keccak [128].

(** [OpenTrie] and [OpenStorageTrie]: [None] is the missing-node error. *)
Definition OpenTrie (d : Database) (root : Hash) : option Trie :=
  if (root =? 0) || (root =? emptyRoot) then Some ∅ else db_tries d !! root.

Definition getTrie (d : Database) (c : stateObject) : Trie * stateObject :=
  match so_trie c with
  | Some t => (t, c)
  | None =>
      match OpenTrie d (Root (data c)) with
      | Some t => (t, set_storage (Some t) (originStorage c) (dirtyStorage c) c)
      | None => (∅, so_setError (Some (New "can't create storage trie"))
                      (set_storage (Some ∅) (originStorage c) (dirtyStorage c) c))
      end
  end.

(** The value stored under a key of the trie; a broken encoding counts as the
    zero hash and is remembered as an error. *)
Definition decode_slot (enc : bytes) : Hash * option error :=
  match enc with
  | [] => (0, None)
  | _ => match Split enc with
         | inl (_, content, _) => (BytesToHash content, None)
         | inr _ => (0, Some (New "rlp"))
         end
  end.

Definition so_GetCommittedState (d : Database) (key : Hash) (c : stateObject)
    : Hash * stateObject :=
  match originStorage c !! key with
  | Some value => (value, c)
  | None =>
      let '(t, c) := getTrie d c in
      let '(value, err) := decode_slot (default [] (t !! key)) in
      let c := match err with Some _ => so_setError err c | None => c end in
      (value, set_storage (so_trie c) (<[key := value]> (originStorage c)) (dirtyStorage c) c)
  end.

Definition so_GetState (d : Database) (key : Hash) (c : stateObject) : Hash * stateObject :=
  match dirtyStorage c !! key with
  | Some value => (value, c)
  | None => so_GetCommittedState d key c
  end.

Definition obj_GetState (addr : Address) (key : Hash) : M Hash :=
  s ← get; c ← deref addr;
  let '(value, c) := so_GetState (db s) key c in
  _ ← store addr c; mret value.

Definition obj_GetCommittedState (addr : Address) (key : Hash) : M Hash :=
  s ← get; c ← deref addr;
  let '(value, c) := so_GetCommittedState (db s) key c in
  _ ← store addr c; mret value.

Definition setState (key value : Hash) (c : stateObject) : stateObject :=
  set_storage (so_trie c) (originStorage c) (<[key := value]> (dirtyStorage c)) c.

Definition obj_SetState (addr : Address) (key value : Hash) : M unit :=
  prev ← obj_GetState addr key;
  if prev =? value then mret ()
  else
    _ ← append (storageChange addr key prev);
    modify_obj addr (setState key value).

Definition ripemd : Address := 3.

Definition journal_dirty (addr : Address) : M unit :=
  modify (fun s => set_jrnl (mkJournal (entries (jrnl s)) (dirty_inc (dirties (jrnl s)) addr)) s).

Definition touch (addr : Address) : M unit :=
  _ ← append (touchChange addr);
  if addr =? ripemd then journal_dirty addr else mret ().

(** The index of an asset in one of the two lists of keys. *)
Fixpoint asset_index (assetID : Hash) (hs : list Hash) : option nat :=
  match hs with
  | [] => None
  | v :: hs => if v =? assetID then Some O else S <$> asset_index assetID hs
  end.

Definition balanceAssetIndex (assetID : Hash) (c : stateObject) : nat * stateObject :=
  match asset_index assetID (BalancesHash (data c)) with
  | Some i => (i, c)
  | None =>
      (length (BalancesVal (data c)),
       set_data (set_Balances (BalancesHash (data c) ++ [assetID])
                   (BalancesVal (data c) ++ [Some 0])) c)
  end.

Definition timeLockAssetIndex (assetID : Hash) (c : stateObject) : nat * stateObject :=
  match asset_index assetID (TimeLockBalancesHash (data c)) with
  | Some i => (i, c)
  | None =>
      (length (TimeLockBalancesVal (data c)),
       set_data (set_TimeLockBalances (TimeLockBalancesHash (data c) ++ [assetID])
                   (TimeLockBalancesVal (data c) ++ [Some (mkTimeLock [])])) c)
  end.

(** Reading [BalancesVal[index]] after the index was looked up, and using the
    pointer found there. *)
Definition at_index {A} (l : list A) (i : nat) : M A :=
  match l !! i with Some v => mret v | None => panic "index out of range" end.
Definition non_nil {A} (v : option A) : M A :=
  match v with Some v => mret v | None => panic "nil pointer dereference" end.

Definition obj_Balance (addr : Address) (assetID : Hash) : M (option Z) :=
  c ← deref addr;
  let '(index, c) := balanceAssetIndex assetID c in
  _ ← store addr c; at_index (BalancesVal (data c)) index.

Definition obj_TimeLockBalance (addr : Address) (assetID : Hash) : M (option TimeLock) :=
  c ← deref addr;
  let '(index, c) := timeLockAssetIndex assetID c in
  _ ← store addr c; at_index (TimeLockBalancesVal (data c)) index.

(** Out of range the assignment panics. *)
Definition obj_setBalance (addr : Address) (assetID : Hash) (amount : option Z) : M unit :=
  c ← deref addr;
  let '(index, c) := balanceAssetIndex assetID c in
  if (index <? length (BalancesVal (data c)))%nat then
    store addr (set_data (set_Balances (BalancesHash (data c))
                            (<[index := amount]> (BalancesVal (data c)))) c)
  else panic "index out of range".

Definition obj_setTimeLockBalance (addr : Address) (assetID : Hash) (amount : option TimeLock)
    : M unit :=
  c ← deref addr;
  let '(index, c) := timeLockAssetIndex assetID c in
  if (index <? length (TimeLockBalancesVal (data c)))%nat then
    store addr (set_data (set_TimeLockBalances (TimeLockBalancesHash (data c))
                            (<[index := amount]> (TimeLockBalancesVal (data c)))) c)
  else panic "index out of range".

Definition obj_SetBalance (addr : Address) (assetID : Hash) (amount : Z) : M unit :=
  prev ← obj_Balance addr assetID;
  prev ← non_nil prev;
  _ ← append (balanceChange addr assetID (Some prev));
  obj_setBalance addr assetID (Some amount).

Definition obj_AddBalance (addr : Address) (assetID : Hash) (amount : Z) : M unit :=
  if bigSign amount =? 0 then
    c ← deref addr;
    if empty c then touch addr else mret ()
  else
    v ← obj_Balance addr assetID;
    v ← non_nil v;
    obj_SetBalance addr assetID (v + amount).

Definition obj_SubBalance (addr : Address) (assetID : Hash) (amount : Z) : M unit :=
  if bigSign amount =? 0 then mret ()
  else
    v ← obj_Balance addr assetID;
    v ← non_nil v;
    obj_SetBalance addr assetID (v - amount).

Definition obj_SetTimeLockBalance (addr : Address) (assetID : Hash) (amount : option TimeLock)
    : M unit :=
  prev ← obj_TimeLockBalance addr assetID;
  _ ← append (timeLockBalanceChange addr assetID (Some (TimeLock_Set prev)));
  obj_setTimeLockBalance addr assetID amount.

(** The parameters of the package: [common.DebugMode], the root hash of a trie
    (package trie) and the compression of package compress/gzip, where
    [gunzip] is [None] for data that is no gzip stream. *)
Class StateParams := {
  DebugMode : bool;
  trie_Hash : Trie → Hash;
  gzip : bytes → bytes;
  gunzip : bytes → option bytes;
}.

Section statedb.
Context `{!StateParams}.

Definition obj_AddTimeLockBalance (addr : Address) (assetID : Hash) (amount : TimeLock)
    (timestamp : Z) : M unit :=
  if IsEmpty amount then
    c ← deref addr;
    if empty c then touch addr else mret ()
  else
    res ← obj_TimeLockBalance addr assetID;
    res ← lift (TimeLock_Add DebugMode res (Some amount));
    obj_SetTimeLockBalance addr assetID ((fun z => ClearExpired z timestamp) <$> res).

Definition obj_SubTimeLockBalance (addr : Address) (assetID : Hash) (amount : TimeLock)
    (timestamp : Z) : M unit :=
  if IsEmpty amount then mret ()
  else
    res ← obj_TimeLockBalance addr assetID;
    res ← non_nil res;
    res ← lift (TimeLock_Sub DebugMode res (Some amount));
    obj_SetTimeLockBalance addr assetID (Some (ClearExpired res timestamp)).

(** [nil] code is [None]. *)
Definition so_Code (d : Database) (c : stateObject) : option bytes * stateObject :=
  match code c with
  | Some b => (Some b, c)
  | None =>
      if bool_decide (CodeHash (data c) = emptyCodeHash) then (None, c)
      else
        match db_code d !! BytesToHash (CodeHash (data c)) with
        | Some b => (Some b, set_code (Some b) (dirtyCode c) c)
        | None => (None, so_setError (Some (New "can't load code hash")) c)
        end
  end.

Definition obj_Code (addr : Address) : M (option bytes) :=
  s ← get; c ← deref addr;
  let '(b, c) := so_Code (db s) c in
  _ ← store addr c; mret b.

Definition setCode (codeHash : Hash) (b : option bytes) (c : stateObject) : stateObject :=
  set_data (set_CodeHash (Hash_Bytes codeHash)) (set_code b true c).

Definition obj_SetCode (addr : Address) (codeHash : Hash) (b : bytes) : M unit :=
  prevcode ← obj_Code addr;
  c ← deref addr;
  _ ← append (codeChange addr prevcode (CodeHash (data c)));
  modify_obj addr (setCode codeHash (Some b)).

Definition obj_SetNonce (addr : Address) (nonce : Z) : M unit :=
  c ← deref addr;
  _ ← append (nonceChange addr (Nonce (data c)));
  modify_obj addr (set_data (set_Nonce nonce)).

Definition obj_SetNotation (addr : Address) (notation : Z) : M unit :=
  c ← deref addr;
  _ ← append (notationChange addr (Notaion (data c)));
  modify_obj addr (set_data (set_Notaion notation)).

(** ** Retrieving and creating objects (statedb.go) *)

(** [true] when there is an object: the pointer is not nil. *)
Definition getStateObject (addr : Address) : M bool := fun s =>
  match stateObjects s !! addr with
  | Some obj => Done (negb (deleted obj), s)
  | None =>
      match trie s !! addr with
      | None | Some [] => Done (false, s)
      | Some enc =>
          match Unmarshal Account enc with
          | (d, None) => Done (true, set_objects (<[addr := newObject addr d]> (stateObjects s)) s)
          | (_, Some _) => Done (false, s)
          end
      end
  end.

Definition setStateObject (o : stateObject) : M unit := store (address o) o.

(** Whether there was an object before. *)
Definition createObject (addr : Address) : M (option stateObject) :=
  found ← getStateObject addr;
  s ← get;
  let prev := if found : bool then stateObjects s !! addr else None in
  _ ← append (match prev with
              | None => createObjectChange addr
              | Some o => resetObjectChange o
              end);
  _ ← setStateObject (newObject addr emptyAccount);
  mret prev.

Definition GetOrNewStateObject (addr : Address) : M unit :=
  found ← getStateObject addr;
  if found : bool then mret () else _ ← createObject addr; mret ().

(** The balances of the previous object, copied in order. *)
Fixpoint copy_balances (addr : Address) (hs : list Hash) (vs : list (option Z)) : M unit :=
  match hs, vs with
  | h :: hs, v :: vs => _ ← obj_setBalance addr h v; copy_balances addr hs vs
  | [], _ :: _ => panic "index out of range"
  | _, [] => mret ()
  end.
Fixpoint copy_timelocks (addr : Address) (hs : list Hash) (vs : list (option TimeLock)) : M unit :=
  match hs, vs with
  | h :: hs, v :: vs => _ ← obj_setTimeLockBalance addr h v; copy_timelocks addr hs vs
  | [], _ :: _ => panic "index out of range"
  | _, [] => mret ()
  end.

Definition CreateAccount (addr : Address) : M unit :=
  prev ← createObject addr;
  match prev with
  | None => mret ()
  | Some p =>
      _ ← copy_balances addr (BalancesHash (data p)) (BalancesVal (data p));
      copy_timelocks addr (TimeLockBalancesHash (data p)) (TimeLockBalancesVal (data p))
  end.

(** ** Reading *)

Definition Exist (addr : Address) : M bool := getStateObject addr.

(** Runs [f] on an existing object, or returns the default. *)
Definition with_object {A} (addr : Address) (dflt : A) (f : M A) : M A :=
  found ← getStateObject addr; if found : bool then f else mret dflt.

Definition Empty (addr : Address) : M bool :=
  with_object addr true (c ← deref addr; mret (empty c)).

Definition GetBalance (assetID : Hash) (addr : Address) : M (option Z) :=
  with_object addr (Some 0) (obj_Balance addr assetID).

Definition GetTimeLockBalance (assetID : Hash) (addr : Address) : M (option TimeLock) :=
  with_object addr (Some (mkTimeLock [])) (obj_TimeLockBalance addr assetID).

Definition GetNonce (addr : Address) : M Z :=
  with_object addr 0 (c ← deref addr; mret (Nonce (data c))).

Definition GetCode (addr : Address) : M (option bytes) := with_object addr None (obj_Code addr).
Definition GetData (addr : Address) : M (option bytes) := with_object addr None (obj_Code addr).

(** [self.setError] *)
Definition setError (e : error) : M unit :=
  modify (fun s => match dbErr s with None => set_dbErr (Some e) s | Some _ => s end).

Definition GetCodeSize (addr : Address) : M Z :=
  with_object addr 0
    (c ← deref addr;
     match code c with
     | Some b => mret (Z.of_nat (length b))
     | None =>
         s ← get;
         match db_code (db s) !! BytesToHash (CodeHash (data c)) with
         | Some b => mret (Z.of_nat (length b))
         | None => _ ← setError (New "not found"); mret 0
         end
     end).

Definition GetCodeHash (addr : Address) : M Hash :=
  with_object addr 0 (c ← deref addr; mret (BytesToHash (CodeHash (data c)))).
Definition GetDataHash (addr : Address) : M Hash :=
  with_object addr 0 (c ← deref addr; mret (BytesToHash (CodeHash (data c)))).

Definition GetState (addr : Address) (hash : Hash) : M Hash :=
  with_object addr 0 (obj_GetState addr hash).
Definition GetCommittedState (addr : Address) (hash : Hash) : M Hash :=
  with_object addr 0 (obj_GetCommittedState addr hash).

Definition HasSuicided (addr : Address) : M bool :=
  with_object addr false (c ← deref addr; mret (suicided c)).

(** ** Writing *)

Definition AddBalance (addr : Address) (assetID : Hash) (amount : Z) : M unit :=
  _ ← GetOrNewStateObject addr; obj_AddBalance addr assetID amount.
Definition SubBalance (addr : Address) (assetID : Hash) (amount : Z) : M unit :=
  _ ← GetOrNewStateObject addr; obj_SubBalance addr assetID amount.
Definition SetBalance (addr : Address) (assetID : Hash) (amount : Z) : M unit :=
  _ ← GetOrNewStateObject addr; obj_SetBalance addr assetID amount.
Definition AddTimeLockBalance (addr : Address) (assetID : Hash) (amount : TimeLock)
    (timestamp : Z) : M unit :=
  _ ← GetOrNewStateObject addr; obj_AddTimeLockBalance addr assetID amount timestamp.
Definition SubTimeLockBalance (addr : Address) (assetID : Hash) (amount : TimeLock)
    (timestamp : Z) : M unit :=
  _ ← GetOrNewStateObject addr; obj_SubTimeLockBalance addr assetID amount timestamp.
Definition SetTimeLockBalance (addr : Address) (assetID : Hash) (amount : TimeLock) : M unit :=
  _ ← GetOrNewStateObject addr; obj_SetTimeLockBalance addr assetID (Some amount).
Definition SetNonce (addr : Address) (nonce : Z) : M unit :=
  _ ← GetOrNewStateObject addr; obj_SetNonce addr nonce.
Definition SetCode (addr : Address) (b : bytes) : M unit :=
  _ ← GetOrNewStateObject addr; obj_SetCode addr (keccak b) b.
Definition SetState (addr : Address) (key value : Hash) : M unit :=
  _ ← GetOrNewStateObject addr; obj_SetState addr key value.
Definition SetData (addr : Address) (value : bytes) : M Hash :=
  _ ← GetOrNewStateObject addr;
  _ ← obj_SetCode addr (keccak value) value; mret (keccak value).

(** The two loops of [Suicide]; [n] elements are left, starting at index [i]. *)
Fixpoint suicide_balances (addr : Address) (n i : nat) : M unit :=
  match n with
  | O => mret ()
  | S n =>
      c ← deref addr;
      v ← at_index (BalancesVal (data c)) i;
      k ← at_index (BalancesHash (data c)) i;
      v ← non_nil v;
      _ ← append (suicideChange false addr k (suicided c) (Some v) None);
      _ ← modify_obj addr (set_suicided true);
      _ ← obj_setBalance addr k (Some 0);
      suicide_balances addr n (S i)
  end.
Fixpoint suicide_timelocks (addr : Address) (n i : nat) : M unit :=
  match n with
  | O => mret ()
  | S n =>
      c ← deref addr;
      v ← at_index (TimeLockBalancesVal (data c)) i;
      k ← at_index (TimeLockBalancesHash (data c)) i;
      _ ← append (suicideChange false addr k (suicided c) None (Some (TimeLock_Set v)));
      _ ← modify_obj addr (set_suicided true);
      _ ← obj_SetTimeLockBalance addr k (Some (mkTimeLock []));
      suicide_timelocks addr n (S i)
  end.

Definition Suicide (addr : Address) : M bool :=
  found ← getStateObject addr;
  if found : bool then
    c ← deref addr;
    _ ← suicide_balances addr (length (BalancesVal (data c))) 0;
    c ← deref addr;
    _ ← suicide_timelocks addr (length (TimeLockBalancesVal (data c))) 0;
    _ ← modify_obj addr (set_suicided true);
    mret true
  else mret false.

(** ** Refunds, logs, preimages *)

Definition AddRefund (gas : Z) : M unit :=
  s ← get; _ ← append (refundChange (refund s)); modify (set_refund (u64 (refund s + gas))).

Definition SubRefund (gas : Z) : M unit :=
  s ← get; _ ← append (refundChange (refund s));
  if refund s <? gas then panic "Refund counter below zero"
  else modify (set_refund (refund s - gas)).

Definition GetRefund : M Z := gets refund.

(** [uint] is 64 bits wide. *)
Definition AddLog (log : Log) : M unit :=
  s ← get; _ ← append (addLogChange (thash s));
  let log := mkLog (log_Address log) (log_Topics log) (log_Data log) (log_BlockNumber log)
               (thash s) (txIndex s) (bhash s) (logSize s) in
  modify (set_logs (<[thash s := default [] (logs s !! thash s) ++ [log]]> (logs s))
            (u64 (logSize s + 1))).

Definition GetLogs (hash : Hash) : M (list Log) := gets (fun s => default [] (logs s !! hash)).

Definition AddPreimage (hash : Hash) (preimage : bytes) : M unit :=
  s ← get;
  match preimages s !! hash with
  | Some _ => mret ()
  | None =>
      _ ← append (addPreimageChange hash);
      modify (set_preimages (<[hash := preimage]> (preimages s)))
  end.

Definition Prepare (th bh : Hash) (ti : Z) : M unit := modify (set_tx th bh ti).

(** ** Snapshots *)

(** A method call on the object that [getStateObject] returns. *)
Definition getLive (addr : Address) : M unit :=
  found ← getStateObject addr;
  if found : bool then mret () else panic "nil pointer dereference".

Definition revert (e : journalEntry) : M unit :=
  match e with
  | createObjectChange a =>
      modify (fun s => set_objectsDirty (stateObjectsDirty s ∖ {[a]})
                         (set_objects (delete a (stateObjects s)) s))
  | resetObjectChange prev => setStateObject prev
  | suicideChange isTimeLock a assetID prev prevbalance prevTimeLockBalance =>
      found ← getStateObject a;
      if found : bool then
        _ ← modify_obj a (set_suicided prev);
        if isTimeLock : bool then obj_setTimeLockBalance a assetID prevTimeLockBalance
        else obj_setBalance a assetID prevbalance
      else mret ()
  | balanceChange a assetID prev => _ ← getLive a; obj_setBalance a assetID prev
  | timeLockBalanceChange a assetID prev => _ ← getLive a; obj_setTimeLockBalance a assetID prev
  | nonceChange a prev => _ ← getLive a; modify_obj a (set_data (set_Nonce prev))
  | notationChange a prev => _ ← getLive a; modify_obj a (set_data (set_Notaion prev))
  | storageChange a key prevalue => _ ← getLive a; modify_obj a (setState key prevalue)
  | codeChange a prevcode prevhash =>
      _ ← getLive a; modify_obj a (setCode (BytesToHash prevhash) prevcode)
  | refundChange prev => modify (set_refund prev)
  | addLogChange txhash =>
      s ← get;
      let ls := default [] (logs s !! txhash) in
      if (length ls =? 0)%nat then panic "slice bounds out of range"
      else modify (set_logs (if (length ls =? 1)%nat then delete txhash (logs s)
                             else <[txhash := take (length ls - 1) ls]> (logs s))
                     (u64 (logSize s - 1)))
  | addPreimageChange hash => modify (fun s => set_preimages (delete hash (preimages s)) s)
  | touchChange a => mret ()
  end.

(** Undoes the entries, the newest first. *)
Fixpoint journal_revert (es : list journalEntry) : M unit :=
  match es with
  | [] => mret ()
  | e :: es =>
      _ ← revert e;
      _ ← modify (fun s => set_jrnl (mkJournal (entries (jrnl s))
                    (match dirtied e with
                     | Some a => dirty_dec (dirties (jrnl s)) a
                     | None => dirties (jrnl s)
                     end)) s);
      journal_revert es
  end.

Definition Snapshot : M Z :=
  s ← get;
  let id := nextRevisionId s in
  _ ← modify (set_revisions (validRevisions s ++ [mkRevision id (journal_length (jrnl s))]) (id + 1));
  mret id.

Definition RevertToSnapshot (revid : Z) : M unit :=
  s ← get;
  let idx := Search (length (validRevisions s))
    (fun i => match validRevisions s !! i with Some r => revid <=? rev_id r | None => true end) in
  match validRevisions s !! idx with
  | None => panic "revision id cannot be reverted"
  | Some r =>
      if negb (rev_id r =? revid) then panic "revision id cannot be reverted"
      else
        let snapshot := rev_journalIndex r in
        _ ← journal_revert (take (journal_length (jrnl s) - snapshot) (entries (jrnl s)));
        _ ← modify (fun s => set_jrnl (mkJournal
               (drop (journal_length (jrnl s) - snapshot) (entries (jrnl s))) (dirties (jrnl s))) s);
        modify (fun s => set_revisions (take idx (validRevisions s)) (nextRevisionId s) s)
  end.

(** ** Finalisation and commit *)

(** One round of the loop of [updateTrie] on the trie and the original values. *)
Definition updateTrie_slot (key value : Hash) (p : Trie * Storage) : Trie * Storage :=
  let '(tr, origin) := p in
  if value =? default 0 (origin !! key) then (tr, origin)
  else
    let origin := <[key := value]> origin in
    if value =? 0 then (delete key tr, origin)
    else
      match EncodeToBytes TString (VBytes (Int_Bytes value)) with
      | inl v => (<[key := v]> tr, origin)
      | inr _ => (tr, origin)
      end.

Definition updateTrie (d : Database) (c : stateObject) : stateObject :=
  let '(tr, c) := getTrie d c in
  let '(tr, origin) := map_fold updateTrie_slot (tr, originStorage c) (dirtyStorage c) in
  set_storage (Some tr) origin ∅ c.

Definition updateRoot (d : Database) (c : stateObject) : stateObject :=
  let c := updateTrie d c in
  set_data (set_Root (trie_Hash (default ∅ (so_trie c)))) c.

Definition updateStateObject (addr : Address) : M unit :=
  c ← deref addr;
  match Marshal (data c) with
  | inr _ => panic "can't encode object"
  | inl enc => modify (fun s => set_db (db s) (<[addr := enc]> (trie s)) s)
  end.

Definition deleteStateObject (addr : Address) : M unit :=
  _ ← modify_obj addr (set_deleted true);
  modify (fun s => set_db (db s) (delete addr (trie s)) s).

Definition clearJournalAndRefund : M unit :=
  modify (fun s => set_refund 0 (set_revisions [] (nextRevisionId s) (set_jrnl newJournal s))).

Definition finalise_one (deleteEmptyObjects : bool) (addr : Address) : M unit :=
  s ← get;
  match stateObjects s !! addr with
  | None => mret ()
  | Some o =>
      _ ← (if suicided o || (deleteEmptyObjects && empty o) then deleteStateObject addr
           else _ ← store addr (updateRoot (db s) o); updateStateObject addr);
      modify (fun s => set_objectsDirty ({[addr]} ∪ stateObjectsDirty s) s)
  end.

Fixpoint for_each {A} (l : list A) (f : A → M unit) : M unit :=
  match l with [] => mret () | a :: l => _ ← f a; for_each l f end.

(** Go ranges over the map in an unspecified order. *)
Definition Finalise (deleteEmptyObjects : bool) : M unit :=
  s ← get;
  _ ← for_each (map fst (map_to_list (dirties (jrnl s)))) (finalise_one deleteEmptyObjects);
  clearJournalAndRefund.

Definition IntermediateRoot (deleteEmptyObjects : bool) : M Hash :=
  _ ← Finalise deleteEmptyObjects; gets (fun s => trie_Hash (trie s)).

(** [CommitTrie]: [Some] is the error it returns. *)
Definition CommitTrie (addr : Address) : M (option error) :=
  s ← get; c ← deref addr;
  let c := updateTrie (db s) c in
  match so_dbErr c with
  | Some err => _ ← store addr c; mret (Some err)
  | None =>
      let tr := default ∅ (so_trie c) in
      _ ← store addr (set_data (set_Root (trie_Hash tr)) c);
      _ ← modify (fun s => set_db (mkDatabase (<[trie_Hash tr := tr]> (db_tries (db s)))
                                     (db_code (db s))) (trie s) s);
      mret None
  end.

Definition commit_code (addr : Address) : M unit :=
  c ← deref addr;
  match code c with
  | Some b =>
      if dirtyCode c then
        _ ← modify (fun s => set_db (mkDatabase (db_tries (db s))
               (<[BytesToHash (CodeHash (data c)) := b]> (db_code (db s)))) (trie s) s);
        store addr (set_code (code c) false c)
      else mret ()
  | None => mret ()
  end.

Definition commit_one (deleteEmptyObjects : bool) (addr : Address) : M (option error) :=
  s ← get; o ← deref addr;
  let isDirty := bool_decide (addr ∈ stateObjectsDirty s) in
  err ← (if suicided o || (isDirty && deleteEmptyObjects && empty o) then
           _ ← deleteStateObject addr; mret None
         else if isDirty : bool then
           _ ← commit_code addr;
           err ← CommitTrie addr;
           match err with
           | Some e => mret (Some e)
           | None => _ ← updateStateObject addr; mret None
           end
         else mret None);
  match err with
  | Some e => mret (Some e)
  | None =>
      _ ← modify (fun s => set_objectsDirty (stateObjectsDirty s ∖ {[addr]}) s);
      mret None
  end.

Fixpoint commit_loop (deleteEmptyObjects : bool) (addrs : list Address) : M (option error) :=
  match addrs with
  | [] => mret None
  | a :: addrs =>
      err ← commit_one deleteEmptyObjects a;
      match err with Some e => mret (Some e) | None => commit_loop deleteEmptyObjects addrs end
  end.

(** The journal is cleared on every return. *)
Definition Commit (deleteEmptyObjects : bool) : M (Hash + error) :=
  _ ← modify (fun s => set_objectsDirty (dom (dirties (jrnl s)) ∪ stateObjectsDirty s) s);
  s ← get;
  err ← commit_loop deleteEmptyObjects (map fst (map_to_list (stateObjects s)));
  match err with
  | Some e => _ ← clearJournalAndRefund; mret (inr e)
  | None =>
      s ← get;
      let root := trie_Hash (trie s) in
      _ ← modify (fun s => set_db (mkDatabase (<[root := trie s]> (db_tries (db s)))
                                     (db_code (db s))) (trie s) s);
      _ ← clearJournalAndRefund;
      mret (inl root)
  end.

(** [New]: the state at a root; the ticket cache outlives the state. *)
Definition NewStateDB (root mixDigest : Hash) (d : Database) (cache : CachedTicketSlice)
    : option StateDB :=
  match OpenTrie d root with
  | None => None
  | Some tr => Some (mkStateDB d tr ∅ ∅ None 0 0 0 0 ∅ 0 ∅ newJournal [] 0 mixDigest [] cache)
  end.

Definition Reset (root : Hash) : M (option error) :=
  s ← get;
  match OpenTrie (db s) root with
  | None => mret (Some (New "missing trie node"))
  | Some tr =>
      _ ← modify (fun s => mkStateDB (db s) tr ∅ ∅ (dbErr s) 0 0 0 0 ∅ 0 ∅ newJournal []
                             (nextRevisionId s) (ticketsHash s) [] (cached s));
      mret None
  end.

(** ** Struct data: byte strings spread over the storage slots of an account *)

Definition slot_key (keyHash : Hash) (i : Z) : Hash :=
  keccak (Int_Bytes i ++ Int_Bytes keyHash).

(** The header slot: the size at byte 0, the number of chunks at byte 16. *)
Definition struct_info (size length : Z) : Hash :=
  SetBytes (IntToBytes size ++ replicate 12 0 ++ IntToBytes length ++ replicate 12 0).

(** [n] chunks are left, [i] is the next. *)
Fixpoint GetStructData_loop (addr : Address) (keyHash : Hash) (size : Z) (n : nat) (i : Z)
    (d : bytes) : M bytes :=
  match n with
  | O => mret d
  | S n =>
      tempData ← obj_GetState addr (slot_key keyHash i);
      let start := i * 32 in
      let end_ := if size <? start + 32 then size else start + 32 in
      if end_ <? start then panic "slice bounds out of range"
      else
        let src := drop (Z.to_nat (32 - end_ + start)) (Hash_Bytes tempData) in
        GetStructData_loop addr keyHash size n (i + 1)
          (take (Z.to_nat start) d ++ src ++ drop (Z.to_nat end_) d)
  end.

Definition GetStructData (addr : Address) (key : bytes) : M bytes :=
  _ ← GetOrNewStateObject addr;
  let keyHash := keccak key in
  info ← obj_GetState addr keyHash;
  let info := Hash_Bytes info in
  let size := BytesToInt (take 4 info) in
  let length := BytesToInt (take 4 (drop 16 info)) in
  if size <? 0 then panic "makeslice: len out of range"
  else GetStructData_loop addr keyHash size (Z.to_nat length) 0 (replicate (Z.to_nat size) 0).

Fixpoint SetStructData_loop (addr : Address) (keyHash : Hash) (value : bytes) (n : nat) (i : Z)
    : M unit :=
  match n with
  | O => mret ()
  | S n =>
      let start := i * 32 in
      let size := Z.of_nat (length value) in
      let end_ := if size <? start + 32 then size else start + 32 in
      let chunk := take (Z.to_nat (end_ - start)) (drop (Z.to_nat start) value) in
      _ ← obj_SetState addr (slot_key keyHash i) (BytesToHash chunk);
      SetStructData_loop addr keyHash value n (i + 1)
  end.

Definition SetStructData (addr : Address) (key value : bytes) : M unit :=
  _ ← GetOrNewStateObject addr;
  let size := Z.of_nat (length value) in
  let len := if size mod 32 =? 0 then size / 32 else size / 32 + 1 in
  let keyHash := keccak key in
  _ ← obj_SetState addr keyHash (struct_info size len);
  _ ← SetStructData_loop addr keyHash value (Z.to_nat len) 0;
  c ← deref addr;
  obj_SetNonce addr (u64 (Nonce (data c) + 1)).

(** [data, err := rlp.EncodeToBytes(&a); db.SetStructData(addr, key, data)]. *)
Definition SetRecord {A} `{!Rlp A} (addr : Address) (key : bytes) (a : A) : M (option error) :=
  match Marshal a with
  | inr _ => mret (Some (New "rlp"))
  | inl b => _ ← SetStructData addr key b; mret None
  end.

(** [None] when there is no data; decoding errors are ignored, as in the source. *)
Definition GetRecord (A : Type) `{!Rlp A} (addr : Address) (key : bytes)
    : M (option (A * option rlp_error)) :=
  b ← GetStructData addr key;
  if (length b =? 0)%nat then mret None else mret (Some (Unmarshal A b)).
End statedb.
