(* ===== verification/StateRecords.v ===== *)
(** * Notations, assets, swaps and tickets in the state (core/state/statedb.go)

    The records of the Fusion calls: they are encoded with RLP and kept as
    struct data in the storage of five reserved accounts. The tickets are kept
    apart, compressed, as the code of an account; while a block is processed
    they live in the field [tickets]. *)

From stdpp Require Import base list gmap strings.
From Stdlib Require Import ZArith Lia.
From S2P Require Import Prelude Bytes Keccak KeccakFacts TimeLock Ticket FsnTypes Rlp RlpFacts Codec StateDB.

Record notationPersist := mkNotationPersist {
  np_Deleted : bool;
  np_Count : Z;
  np_Address : Address;
}.
#[export] Instance notationPersist_rlp : Rlp notationPersist :=
  c_struct (c_bool ::: c_uint 64 ::: c_address ::: f_nil)
    (fun p => (np_Deleted p, (np_Count p, (np_Address p, tt))))
    (fun '(d, (c, (a, _))) => mkNotationPersist d c a).
#[export] Instance notationPersist_rlp_ok : RlpOk notationPersist.
Proof. unfold RlpOk, rlp, notationPersist_rlp. solve_codec. Qed.

Record assetPersist := mkAssetPersist { ap_Deleted : bool; ap_Asset : Asset }.
#[export] Instance assetPersist_rlp : Rlp assetPersist :=
  c_struct (c_bool ::: Asset_rlp ::: f_nil)
    (fun p => (ap_Deleted p, (ap_Asset p, tt))) (fun '(d, (a, _)) => mkAssetPersist d a).
#[export] Instance assetPersist_rlp_ok : RlpOk assetPersist.
Proof.
  unfold RlpOk, rlp, assetPersist_rlp. apply c_struct_ok; [|by intros []].
  pose proof Asset_rlp_ok. eauto with codec.
Qed.

Record swapPersist := mkSwapPersist { sp_Deleted : bool; sp_Swap : Swap }.
#[export] Instance swapPersist_rlp : Rlp swapPersist :=
  c_struct (c_bool ::: Swap_rlp ::: f_nil)
    (fun p => (sp_Deleted p, (sp_Swap p, tt))) (fun '(d, (a, _)) => mkSwapPersist d a).
#[export] Instance swapPersist_rlp_ok : RlpOk swapPersist.
Proof.
  unfold RlpOk, rlp, swapPersist_rlp. apply c_struct_ok; [|by intros []].
  pose proof Swap_rlp_ok. eauto with codec.
Qed.

Record multiSwapPersist := mkMultiSwapPersist { mp_Deleted : bool; mp_Swap : MultiSwap }.
#[export] Instance multiSwapPersist_rlp : Rlp multiSwapPersist :=
  c_struct (c_bool ::: MultiSwap_rlp ::: f_nil)
    (fun p => (mp_Deleted p, (mp_Swap p, tt))) (fun '(d, (a, _)) => mkMultiSwapPersist d a).
#[export] Instance multiSwapPersist_rlp_ok : RlpOk multiSwapPersist.
Proof.
  unfold RlpOk, rlp, multiSwapPersist_rlp. apply c_struct_ok; [|by intros []].
  pose proof MultiSwap_rlp_ok. eauto with codec.
Qed.

(** [binary.PutUvarint] into a buffer of [binary.MaxVarintLen64] bytes. *)
Fixpoint uvarint (fuel : nat) (x : Z) : bytes :=
  match fuel with
  | O => []
  | S fuel =>
      if x <? 128 then [x] else Z.lor (x mod 128) 128 :: uvarint fuel (x / 128)
  end.
Definition uvarint_buf (x : Z) : bytes :=
  let b := uvarint 10 x in b ++ replicate (10 - length b) 0.

Section records.
Context `{!StateParams}.

(** ** Notations *)

Definition GetNotation (addr : Address) : M Z :=
  with_object addr 0 (c ← deref addr; mret (Notaion (data c))).

(** [^] and [+] have the same precedence in Go, and the constant is 0. *)
Definition calcNotationDisplay (notation : Z) : Z :=
  if notation =? 0 then notation
  else
    let check := u64 (Z.lxor (Z.lxor notation 8192) 13 + 73 / 76798669 * 708583737978) mod 100 in
    u64 (u64 (notation * 100) + check).

Definition getNotationCount : M Z :=
  r ← GetRecord notationPersist NotationKeyAddress (Address_Bytes NotationKeyAddress);
  match r with
  | None => mret 0
  | Some (np, _) => mret (np_Count np)
  end.

Definition setNotationCount (newCount : Z) : M (option error) :=
  SetRecord NotationKeyAddress (Address_Bytes NotationKeyAddress)
    (mkNotationPersist false newCount 0).

Definition setNotationToAddressLookup (notation : Z) (addr : Address) : M (option error) :=
  SetRecord NotationKeyAddress (uvarint_buf notation) (mkNotationPersist false notation addr).

Definition GetAddressByNotation (notation : Z) : M (Address + error) :=
  r ← GetRecord notationPersist NotationKeyAddress (uvarint_buf notation);
  match r with
  | None => mret (inr (Errorf "notation %v does not exist" [notation]))
  | Some (_, Some _) => mret (inr (New "rlp"))
  | Some (np, None) =>
      if np_Deleted np then mret (inr (New "notation was deleted")) else mret (inl (np_Address np))
  end.

Definition GenNotation (addr : Address) : M (option error) :=
  _ ← GetOrNewStateObject addr;
  n ← GetNotation addr;
  if negb (n =? 0) then mret (Some (Errorf "Account %s has a notation:%d" [addr; n]))
  else
    nextNotation ← getNotationCount;
    let nextNotation := u64 (nextNotation + 1) in
    let newNotation := calcNotationDisplay nextNotation in
    _ ← setNotationCount nextNotation;
    _ ← setNotationToAddressLookup newNotation addr;
    _ ← obj_SetNotation addr newNotation;
    mret None.

Definition TransferNotation (notation : Z) (from to : Address) : M (option error) :=
  _ ← GetOrNewStateObject from;
  _ ← GetOrNewStateObject to;
  r ← GetAddressByNotation notation;
  match r with
  | inr err => mret (Some err)
  | inl addr =>
      if negb (addr =? from) then mret (Some (New "This notation is not the from address"))
      else
        c ← deref to;
        let oldNotationTo := Notaion (data c) in
        _ ← (if negb (oldNotationTo =? 0)
             then _ ← setNotationToAddressLookup oldNotationTo 0; mret () else mret ());
        _ ← setNotationToAddressLookup notation to;
        _ ← obj_SetNotation to notation;
        _ ← obj_SetNotation from 0;
        mret None
  end.

(** ** Assets *)

Definition GetAsset (assetID : Hash) : M (Asset + error) :=
  r ← GetRecord assetPersist AssetKeyAddress (Hash_Bytes assetID);
  match r with
  | None => mret (inr (New "asset not found"))
  | Some (p, _) => if ap_Deleted p then mret (inr (New "asset deleted")) else mret (inl (ap_Asset p))
  end.

Definition UpdateAsset (asset : Asset) : M (option error) :=
  SetRecord AssetKeyAddress (Hash_Bytes (as_ID asset)) (mkAssetPersist false asset).

Definition GenAsset (asset : Asset) : M (option error) :=
  r ← GetAsset (as_ID asset);
  match r with
  | inl _ => mret (Some (Errorf "%s asset exists" [as_ID asset]))
  | inr _ => SetRecord AssetKeyAddress (Hash_Bytes (as_ID asset)) (mkAssetPersist false asset)
  end.

(** ** Swaps *)

Definition GetSwap (swapID : Hash) : M (Swap + error) :=
  r ← GetRecord swapPersist SwapKeyAddress (Hash_Bytes swapID);
  match r with
  | None => mret (inr (New "swap not found"))
  | Some (p, _) => if sp_Deleted p then mret (inr (New "swap deleted")) else mret (inl (sp_Swap p))
  end.

Definition UpdateSwap (swap : Swap) : M (option error) :=
  SetRecord SwapKeyAddress (Hash_Bytes (sw_ID swap)) (mkSwapPersist false swap).

Definition AddSwap (swap : Swap) : M (option error) :=
  r ← GetSwap (sw_ID swap);
  match r with
  | inl _ => mret (Some (Errorf "%s Swap exists" [sw_ID swap]))
  | inr _ => SetRecord SwapKeyAddress (Hash_Bytes (sw_ID swap)) (mkSwapPersist false swap)
  end.

Definition RemoveSwap (id : Hash) : M (option error) :=
  r ← GetSwap id;
  match r with
  | inr _ => mret (Some (Errorf "%s Swap not found " [id]))
  | inl swapFound => SetRecord SwapKeyAddress (Hash_Bytes id) (mkSwapPersist true swapFound)
  end.

Definition GetMultiSwap (swapID : Hash) : M (MultiSwap + error) :=
  r ← GetRecord multiSwapPersist MultiSwapKeyAddress (Hash_Bytes swapID);
  match r with
  | None => mret (inr (New "multi swap not found"))
  | Some (p, _) =>
      if mp_Deleted p then mret (inr (New "multi swap deleted")) else mret (inl (mp_Swap p))
  end.

Definition UpdateMultiSwap (swap : MultiSwap) : M (option error) :=
  SetRecord MultiSwapKeyAddress (Hash_Bytes (mu_ID swap)) (mkMultiSwapPersist false swap).

Definition AddMultiSwap (swap : MultiSwap) : M (option error) :=
  r ← GetMultiSwap (mu_ID swap);
  match r with
  | inl _ => mret (Some (Errorf "%s Multi Swap exists" [mu_ID swap]))
  | inr _ => SetRecord MultiSwapKeyAddress (Hash_Bytes (mu_ID swap)) (mkMultiSwapPersist false swap)
  end.

Definition RemoveMultiSwap (id : Hash) : M (option error) :=
  r ← GetMultiSwap id;
  match r with
  | inr _ => mret (Some (Errorf "%s Multi Swap not found " [id]))
  | inl swapFound =>
      SetRecord MultiSwapKeyAddress (Hash_Bytes id) (mkMultiSwapPersist true swapFound)
  end.

(** ** Tickets *)

Definition calcTicketsStorageData (ts : TicketsDataSlice) : bytes + error :=
  match Marshal ts with
  | inr _ => inr (New "Unable to encode tickets. err: %v")
  | inl blob => inl (gzip blob)
  end.

Definition AddCachedTickets (cache : CachedTicketSlice) (hash : Hash) (ts : TicketsDataSlice)
    : CachedTicketSlice * option error :=
  match calcTicketsStorageData ts with
  | inr e => (cache, Some e)
  | inl d =>
      if negb (hash =? keccak d) then (cache, Some (New "AddCachedTickets: hash mismatch"))
      else (cts_Add cache hash ts, None)
  end.

Definition AllTickets : M (TicketsDataSlice + error) :=
  s ← get;
  if negb (length (tickets s) =? 0)%nat then mret (inl (tickets s))
  else
    let key := ticketsHash s in
    match cts_Get (cached s) key with
    | Some ts => _ ← modify (set_tickets ts (cached s)); mret (inl ts)
    | None =>
        blob ← GetData TicketKeyAddress;
        s ← get;
        match blob with
        | None | Some [] => mret (match dbErr s with None => inl [] | Some e => inr e end)
        | Some blob =>
            match gunzip blob with
            | None => mret (inr (New "Read tickets zip data: %v"))
            | Some d =>
                match Unmarshal TicketsDataSlice d with
                | (_, Some _) => mret (inr (New "Unable to decode tickets, err: %v"))
                | (ts, None) => _ ← modify (set_tickets ts (cts_Add (cached s) key ts)); mret (inl ts)
                end
            end
        end
    end.

Definition IsTicketExist (id : Hash) : M bool :=
  r ← AllTickets;
  match r with
  | inr _ => mret false
  | inl ts => mret (match Get ts id with inl _ => true | inr _ => false end)
  end.

Definition GetTicket (id : Hash) : M (Ticket + error) :=
  r ← AllTickets;
  match r with
  | inr _ => mret (inr (New "GetTicket error: %v"))
  | inl ts => mret (match Get ts id with
                    | inl t => inl t
                    | inr _ => inr (Errorf "%v ticket not fount" [id])
                    end)
  end.

Definition db_AddTicket (ticket : Ticket) : M (option error) :=
  r ← AllTickets;
  match r with
  | inr _ => mret (Some (New "AddTicket error: %v"))
  | inl ts =>
      match AddTicket ts ticket with
      | (_, Some _) => mret (Some (New "AddTicket error: %v"))
      | (ts, None) => _ ← modify (fun s => set_tickets ts (cached s) s); mret None
      end
  end.

Definition db_RemoveTicket (id : Hash) : M (option error) :=
  r ← AllTickets;
  match r with
  | inr _ => mret (Some (New "RemoveTicket error: %v"))
  | inl ts =>
      match RemoveTicket ts id with
      | (_, Some _) => mret (Some (New "RemoveTicket error: %v"))
      | (ts, None) => _ ← modify (fun s => set_tickets ts (cached s) s); mret None
      end
  end.

Definition TotalNumberOfTickets : M Z := gets (fun s => NumberOfTickets (tickets s)).

Definition UpdateTickets (timestamp : Z) : M (Hash + error) :=
  s ← get;
  match ClearExpiredTickets (tickets s) timestamp with
  | (_, Some _) => mret (inr (New "UpdateTickets: %v"))
  | (ts, None) =>
      _ ← modify (fun s => set_tickets ts (cached s) s);
      match calcTicketsStorageData ts with
      | inr _ => mret (inr (New "UpdateTickets: %v"))
      | inl d =>
          hash ← SetData TicketKeyAddress d;
          _ ← modify (fun s => set_tickets ts (cts_Add (cached s) hash ts) s);
          mret (inl hash)
      end
  end.

End records.
