(* ===== verification/StateFacts.v ===== *)
(** * What a state object and a state database stand for

    Reading an account changes its representation: an asset that is asked for
    gets an entry, a storage slot is cached, the code is loaded. The views
    below ([so_bal], [so_tl], [so_slot], ..., together [view]) are what a client
    sees; accounts and states are compared by them, up to [≡]. [wf_db] is the
    invariant. The lemmas give the effect of every primitive operation in these
    terms. *)

From stdpp Require Import base list gmap strings.
From Stdlib Require Import ZArith Lia.
From S2P Require Import Prelude Bytes Keccak KeccakFacts TimeLock TimeLockFacts Ticket FsnTypes.
From S2P Require Import Rlp RlpFacts Codec StateDB.

#[global] Opaque keccak.

(** ** Views of an object *)

Definition so_bal (o : stateObject) (h : Hash) : option Z :=
  match asset_index h (BalancesHash (data o)) with
  | Some i => default None (BalancesVal (data o) !! i)
  | None => Some 0
  end.
Definition so_tl (o : stateObject) (h : Hash) : option TimeLock :=
  match asset_index h (TimeLockBalancesHash (data o)) with
  | Some i => default None (TimeLockBalancesVal (data o) !! i)
  | None => Some emptyTL
  end.
Definition so_opened (d : Database) (o : stateObject) : Trie :=
  match so_trie o with Some t => t | None => default ∅ (OpenTrie d (Root (data o))) end.
Definition so_cslot (d : Database) (o : stateObject) (k : Hash) : Hash :=
  match originStorage o !! k with
  | Some v => v
  | None => (decode_slot (default [] (so_opened d o !! k))).1
  end.
Definition so_slot (d : Database) (o : stateObject) (k : Hash) : Hash :=
  match dirtyStorage o !! k with Some v => v | None => so_cslot d o k end.
Definition so_codeval (d : Database) (o : stateObject) : option bytes :=
  match code o with
  | Some b => Some b
  | None => if bool_decide (CodeHash (data o) = emptyCodeHash) then None
            else db_code d !! BytesToHash (CodeHash (data o))
  end.

(** What a client sees of an account. *)
Record oview := mkView {
  v_nonce : Z;
  v_notation : Z;
  v_bal : Hash → option Z;
  v_tl : Hash → option TimeLock;
  v_root : Hash;
  v_codehash : bytes;
  v_code : option bytes;
  v_slot : Hash → Hash;
  v_cslot : Hash → Hash;
  v_suicided : bool;
}.

Definition view (d : Database) (o : stateObject) : oview :=
  mkView (Nonce (data o)) (Notaion (data o)) (so_bal o) (so_tl o) (Root (data o))
    (CodeHash (data o)) (so_codeval d o) (so_slot d o) (so_cslot d o) (suicided o).

Record view_eq (v w : oview) : Prop := {
  ve_nonce : v_nonce v = v_nonce w;
  ve_notation : v_notation v = v_notation w;
  ve_bal : ∀ h, v_bal v h = v_bal w h;
  ve_tl : ∀ h, v_tl v h = v_tl w h;
  ve_root : v_root v = v_root w;
  ve_codehash : v_codehash v = v_codehash w;
  ve_code : v_code v = v_code w;
  ve_slot : ∀ k, v_slot v k = v_slot w k;
  ve_cslot : ∀ k, v_cslot v k = v_cslot w k;
  ve_suicided : v_suicided v = v_suicided w;
}.
#[export] Instance oview_equiv : Equiv oview := view_eq.
#[export] Instance oview_equivalence : Equivalence (≡@{oview}).
Proof.
  split.
  - by split.
  - intros v w []. by split.
  - intros u v w [] []. by split; congruence.
Qed.

(** Updates of a view. *)
Definition upd {A} (f : Z → A) (k : Z) (a : A) : Z → A := fun k' => if k =? k' then a else f k'.

Lemma upd_eq {A} (f : Z → A) k a : upd f k a k = a.
Proof. unfold upd. by rewrite Z.eqb_refl. Qed.
Lemma upd_ne {A} (f : Z → A) k k' a : k ≠ k' → upd f k a k' = f k'.
Proof. intros. unfold upd. by destruct (Z.eqb_spec k k'). Qed.

Definition vset_nonce (n : Z) (v : oview) : oview :=
  mkView n (v_notation v) (v_bal v) (v_tl v) (v_root v) (v_codehash v) (v_code v) (v_slot v)
    (v_cslot v) (v_suicided v).
Definition vset_notation (n : Z) (v : oview) : oview :=
  mkView (v_nonce v) n (v_bal v) (v_tl v) (v_root v) (v_codehash v) (v_code v) (v_slot v)
    (v_cslot v) (v_suicided v).
Definition vset_bal (h : Hash) (b : option Z) (v : oview) : oview :=
  mkView (v_nonce v) (v_notation v) (upd (v_bal v) h b) (v_tl v) (v_root v) (v_codehash v)
    (v_code v) (v_slot v) (v_cslot v) (v_suicided v).
Definition vset_tl (h : Hash) (z : option TimeLock) (v : oview) : oview :=
  mkView (v_nonce v) (v_notation v) (v_bal v) (upd (v_tl v) h z) (v_root v) (v_codehash v)
    (v_code v) (v_slot v) (v_cslot v) (v_suicided v).
Definition vset_slot (k x : Hash) (v : oview) : oview :=
  mkView (v_nonce v) (v_notation v) (v_bal v) (v_tl v) (v_root v) (v_codehash v) (v_code v)
    (upd (v_slot v) k x) (v_cslot v) (v_suicided v).
Definition vset_suicided (b : bool) (v : oview) : oview :=
  mkView (v_nonce v) (v_notation v) (v_bal v) (v_tl v) (v_root v) (v_codehash v) (v_code v)
    (v_slot v) (v_cslot v) b.
Definition vset_code (h : bytes) (c : option bytes) (v : oview) : oview :=
  mkView (v_nonce v) (v_notation v) (v_bal v) (v_tl v) (v_root v) h c (v_slot v) (v_cslot v)
    (v_suicided v).

#[export] Instance vset_nonce_proper n : Proper ((≡) ==> (≡)) (vset_nonce n).
Proof. intros v w []. by split. Qed.
#[export] Instance vset_notation_proper n : Proper ((≡) ==> (≡)) (vset_notation n).
Proof. intros v w []. by split. Qed.
#[export] Instance vset_bal_proper h b : Proper ((≡) ==> (≡)) (vset_bal h b).
Proof. intros v w []. split; try done. intros h'. simpl. unfold upd. by destruct (h =? h'). Qed.
#[export] Instance vset_tl_proper h b : Proper ((≡) ==> (≡)) (vset_tl h b).
Proof. intros v w []. split; try done. intros h'. simpl. unfold upd. by destruct (h =? h'). Qed.
#[export] Instance vset_slot_proper k x : Proper ((≡) ==> (≡)) (vset_slot k x).
Proof. intros v w []. split; try done. intros h'. simpl. unfold upd. by destruct (k =? h'). Qed.
#[export] Instance vset_suicided_proper b : Proper ((≡) ==> (≡)) (vset_suicided b).
Proof. intros v w []. by split. Qed.
#[export] Instance vset_code_proper h c : Proper ((≡) ==> (≡)) (vset_code h c).
Proof. intros v w []. by split. Qed.

(** Setting the old value back undoes an update. *)
Lemma upd_undo {A} (f : Z → A) k a b : f k = b → ∀ k', upd (upd f k a) k b k' = f k'.
Proof. intros <- k'. unfold upd. by destruct (Z.eqb_spec k k') as [-> |]. Qed.

Lemma vset_nonce_undo n v : vset_nonce (v_nonce v) (vset_nonce n v) ≡ v.
Proof. by split. Qed.
Lemma vset_notation_undo n v : vset_notation (v_notation v) (vset_notation n v) ≡ v.
Proof. by split. Qed.
Lemma vset_bal_undo h b v : vset_bal h (v_bal v h) (vset_bal h b v) ≡ v.
Proof. split; try done. intros h'. by apply upd_undo. Qed.
Lemma vset_tl_undo h b v : vset_tl h (v_tl v h) (vset_tl h b v) ≡ v.
Proof. split; try done. intros h'. by apply upd_undo. Qed.
Lemma vset_slot_undo k x v : vset_slot k (v_slot v k) (vset_slot k x v) ≡ v.
Proof. split; try done. intros h'. by apply upd_undo. Qed.
Lemma vset_code_undo h c v : vset_code (v_codehash v) (v_code v) (vset_code h c v) ≡ v.
Proof. by split. Qed.

(** The balances and time locks are parallel lists of non-nil values, the time
    locks are valid, and the code hash is a hash. *)
Record wf_acct (a : Account) : Prop := {
  wa_bal : length (BalancesHash a) = length (BalancesVal a);
  wa_tl : length (TimeLockBalancesHash a) = length (TimeLockBalancesVal a);
  wa_bal_nodup : NoDup (BalancesHash a);
  wa_tl_nodup : NoDup (TimeLockBalancesHash a);
  wa_bals : Forall is_Some (BalancesVal a);
  wa_tls : Forall (fun v => ∃ z, v = Some z ∧ wfTL z) (TimeLockBalancesVal a);
  wa_code : length (CodeHash a) = 32%nat ∧ are_bytes (CodeHash a);
}.
Abbreviation wf_obj o := (wf_acct (data o)).

Lemma emptyCodeHash_ok : length emptyCodeHash = 32%nat ∧ are_bytes emptyCodeHash.
Proof. split; [apply Hash_Bytes_length|apply be_bytes_are_bytes]. Qed.

#[global] Opaque emptyCodeHash.

Lemma wf_emptyAccount : wf_acct emptyAccount.
Proof. split; try done; [constructor..|apply emptyCodeHash_ok]. Qed.

Lemma asset_index_Some h hs i : asset_index h hs = Some i → hs !! i = Some h ∧ (i < length hs)%nat.
Proof.
  revert i. induction hs as [|v hs IH]; intros i; simpl; [done|].
  destruct (Z.eqb_spec v h); intros; simplify_eq; [simpl; auto with lia|].
  destruct (asset_index h hs) as [j|]; simplify_eq/=. destruct (IH j eq_refl). auto with lia.
Qed.

Lemma asset_index_app h hs h' :
  asset_index h' (hs ++ [h]) =
  match asset_index h' hs with
  | Some i => Some i
  | None => if h =? h' then Some (length hs) else None
  end.
Proof.
  induction hs as [|v hs IH]; simpl; [by destruct (h =? h')|].
  destruct (v =? h'); [done|]. rewrite IH. destruct (asset_index h' hs); [done|].
  by destruct (h =? h').
Qed.

Lemma asset_index_inj h h' hs i : asset_index h hs = Some i → asset_index h' hs = Some i → h = h'.
Proof.
  intros H1 H2. destruct (asset_index_Some _ _ _ H1), (asset_index_Some _ _ _ H2). congruence.
Qed.

Lemma asset_index_None h hs : asset_index h hs = None → h ∉ hs.
Proof.
  induction hs as [|v hs IH]; simpl; [set_solver|].
  destruct (Z.eqb_spec v h); [done|]. destruct (asset_index h hs); [done|]. set_solver.
Qed.

Lemma NoDup_new_index h hs : asset_index h hs = None → NoDup hs → NoDup (hs ++ [h]).
Proof.
  intros Hn Hd. apply NoDup_app. split_and!; [done| |apply NoDup_singleton].
  intros x Hx ->%list_elem_of_singleton. by apply (asset_index_None h hs).
Qed.

(** The list view shared by balances and time locks. *)
Definition assoc {A} (dflt : option A) (hs : list Hash) (vs : list (option A)) (h : Hash) : option A :=
  match asset_index h hs with Some i => default None (vs !! i) | None => dflt end.

Lemma so_bal_assoc o h : so_bal o h = assoc (Some 0) (BalancesHash (data o)) (BalancesVal (data o)) h.
Proof. done. Qed.
Lemma so_tl_assoc o h :
  so_tl o h = assoc (Some emptyTL) (TimeLockBalancesHash (data o)) (TimeLockBalancesVal (data o)) h.
Proof. done. Qed.

(** A new entry with the default value changes nothing. *)
Lemma assoc_snoc {A} (dflt : option A) hs vs h h' :
  length hs = length vs → asset_index h hs = None →
  assoc dflt (hs ++ [h]) (vs ++ [dflt]) h' = assoc dflt hs vs h'.
Proof.
  intros Hl Hn. unfold assoc. rewrite asset_index_app.
  destruct (asset_index h' hs) as [i|] eqn:E.
  - destruct (asset_index_Some _ _ _ E). rewrite lookup_app_l by lia. done.
  - destruct (Z.eqb_spec h h'); [|done]. by rewrite Hl, lookup_app_r, Nat.sub_diag by lia.
Qed.

Lemma assoc_insert {A} (dflt v : option A) hs vs h h' i :
  length hs = length vs → asset_index h hs = Some i →
  assoc dflt hs (<[i := v]> vs) h' = if h =? h' then v else assoc dflt hs vs h'.
Proof.
  intros Hl Hi. unfold assoc. destruct (asset_index_Some _ _ _ Hi) as [_ Hlt].
  destruct (Z.eqb_spec h h') as [<-|Hne].
  - rewrite Hi, list_lookup_insert_eq by lia. done.
  - destruct (asset_index h' hs) as [j|] eqn:Ej; [|done].
    rewrite list_lookup_insert_ne; [done|]. intros ->. by apply Hne, (asset_index_inj _ _ hs j).
Qed.

(** ** Primitive operations on an object *)

Lemma balanceAssetIndex_spec d o h i o' :
  wf_obj o → balanceAssetIndex h o = (i, o') →
  wf_obj o' ∧ view d o' ≡ view d o ∧ address o' = address o ∧ deleted o' = deleted o ∧
  asset_index h (BalancesHash (data o')) = Some i ∧ (i < length (BalancesVal (data o')))%nat ∧
  BalancesVal (data o') !! i = Some (so_bal o h).
Proof.
  intros Hwf. unfold balanceAssetIndex. destruct (asset_index h (BalancesHash (data o))) as [j|] eqn:E.
  - intros [= <- <-]. destruct (asset_index_Some _ _ _ E) as [_ Hlt]. rewrite (wa_bal _ Hwf) in Hlt.
    destruct (lookup_lt_is_Some_2 _ _ Hlt) as [v Hv]. unfold so_bal. rewrite E, Hv. by split_and!.
  - intros [= <- <-]. destruct Hwf as [H1 H2 Hn1 Hn2 H3 H4 H5]. split_and!; simpl.
    + split; simpl; try done; [rewrite !length_app; simpl; lia|by apply NoDup_new_index|].
      apply Forall_app. split; [done|]. by repeat constructor.
    + split; try done. intros h'. simpl. rewrite !so_bal_assoc. simpl. by apply assoc_snoc.
    + done.
    + done.
    + rewrite asset_index_app, E, Z.eqb_refl. by rewrite H1.
    + rewrite length_app. simpl. lia.
    + unfold so_bal. rewrite E, lookup_app_r, Nat.sub_diag by lia. done.
Qed.

Lemma timeLockAssetIndex_spec d o h i o' :
  wf_obj o → timeLockAssetIndex h o = (i, o') →
  wf_obj o' ∧ view d o' ≡ view d o ∧ address o' = address o ∧ deleted o' = deleted o ∧
  asset_index h (TimeLockBalancesHash (data o')) = Some i ∧
  (i < length (TimeLockBalancesVal (data o')))%nat ∧
  TimeLockBalancesVal (data o') !! i = Some (so_tl o h).
Proof.
  intros Hwf. unfold timeLockAssetIndex.
  destruct (asset_index h (TimeLockBalancesHash (data o))) as [j|] eqn:E.
  - intros [= <- <-]. destruct (asset_index_Some _ _ _ E) as [_ Hlt]. rewrite (wa_tl _ Hwf) in Hlt.
    destruct (lookup_lt_is_Some_2 _ _ Hlt) as [v Hv]. unfold so_tl. rewrite E, Hv. by split_and!.
  - intros [= <- <-]. destruct Hwf as [H1 H2 Hn1 Hn2 H3 H4 H5]. split_and!; simpl.
    + split; simpl; try done; [rewrite !length_app; simpl; lia|by apply NoDup_new_index|].
      apply Forall_app. split; [done|]. constructor; [|done]. exists emptyTL. split; [done|apply wf_emptyTL].
    + split; try done. intros h'. simpl. rewrite !so_tl_assoc. simpl. by apply assoc_snoc.
    + done.
    + done.
    + rewrite asset_index_app, E, Z.eqb_refl. by rewrite H2.
    + rewrite length_app. simpl. lia.
    + unfold so_tl. rewrite E, lookup_app_r, Nat.sub_diag by lia. done.
Qed.

Lemma so_GetCommittedState_spec d o k x o' :
  so_GetCommittedState d k o = (x, o') →
  x = so_cslot d o k ∧ data o' = data o ∧ view d o' ≡ view d o ∧ address o' = address o ∧
  deleted o' = deleted o.
Proof.
  unfold so_GetCommittedState, so_cslot. destruct (originStorage o !! k) as [v|] eqn:E2.
  { intros [= <- <-]. by split_and!. }
  assert (Ht : ∃ o1, getTrie d o = (so_opened d o, o1) ∧ data o1 = data o ∧ address o1 = address o ∧
    deleted o1 = deleted o ∧ so_trie o1 = Some (so_opened d o) ∧ code o1 = code o ∧
    originStorage o1 = originStorage o ∧ dirtyStorage o1 = dirtyStorage o ∧ suicided o1 = suicided o).
  { unfold getTrie, so_opened. destruct (so_trie o) eqn:Et; [by exists o|].
    destruct (OpenTrie d (Root (data o))); [by eexists|]. unfold so_setError. simpl.
    destruct (so_dbErr o); by eexists. }
  destruct Ht as (o1 & -> & Hd & Ha & Hdel & Htr & Hc & Ho & Hdi & Hs).
  destruct (decode_slot (default [] (so_opened d o !! k))) as [y err] eqn:Ed.
  set (o2 := match err with Some _ => so_setError err o1 | None => o1 end).
  assert (H2 : data o2 = data o1 ∧ address o2 = address o1 ∧ deleted o2 = deleted o1 ∧
    so_trie o2 = so_trie o1 ∧ code o2 = code o1 ∧ originStorage o2 = originStorage o1 ∧
    dirtyStorage o2 = dirtyStorage o1 ∧ suicided o2 = suicided o1).
  { subst o2. unfold so_setError. destruct err; [|done]. by destruct (so_dbErr o1). }
  clearbody o2. destruct H2 as (Hd2 & Ha2 & Hdel2 & Htr2 & Hc2 & Ho2 & Hdi2 & Hs2).
  intros [= <- <-]. simpl. split_and!; try congruence.
  assert (Hcs : ∀ k', so_cslot d (set_storage (so_trie o2) (<[k:=y]> (originStorage o2)) (dirtyStorage o2) o2) k'
    = so_cslot d o k').
  { intros k'. unfold so_cslot, so_opened at 1. simpl. rewrite Htr2, Htr, Ho2, Ho.
    destruct (decide (k = k')) as [<-|Hne].
    - by rewrite lookup_insert_eq, E2, Ed.
    - by rewrite lookup_insert_ne by done. }
  split; simpl; rewrite ?Hd2, ?Hd; try congruence.
  - intros h. unfold so_bal. simpl. by rewrite Hd2, Hd.
  - intros h. unfold so_tl. simpl. by rewrite Hd2, Hd.
  - unfold so_codeval. simpl. by rewrite Hc2, Hc, Hd2, Hd.
  - intros k'. unfold so_slot. rewrite Hcs. simpl. by rewrite Hdi2, Hdi.
Qed.

Lemma so_GetState_spec d o k x o' :
  so_GetState d k o = (x, o') →
  x = so_slot d o k ∧ data o' = data o ∧ view d o' ≡ view d o ∧ address o' = address o ∧
  deleted o' = deleted o.
Proof.
  unfold so_GetState, so_slot. destruct (dirtyStorage o !! k) as [v|] eqn:E.
  - intros [= <- <-]. by split_and!.
  - apply so_GetCommittedState_spec.
Qed.

Lemma so_bal_Some o h : wf_obj o → is_Some (so_bal o h).
Proof.
  intros Hwf. unfold so_bal. destruct (asset_index h _) as [i|] eqn:E; [|by eexists].
  destruct (asset_index_Some _ _ _ E) as [_ Hlt]. rewrite (wa_bal _ Hwf) in Hlt.
  destruct (lookup_lt_is_Some_2 _ _ Hlt) as [v Hv]. rewrite Hv. simpl.
  exact (Forall_lookup_1 _ _ _ _ (wa_bals _ Hwf) Hv).
Qed.

Lemma so_tl_Some o h : wf_obj o → ∃ z, so_tl o h = Some z ∧ wfTL z.
Proof.
  intros Hwf. unfold so_tl. destruct (asset_index h _) as [i|] eqn:E; [|by exists emptyTL].
  destruct (asset_index_Some _ _ _ E) as [_ Hlt]. rewrite (wa_tl _ Hwf) in Hlt.
  destruct (lookup_lt_is_Some_2 _ _ Hlt) as [v Hv]. rewrite Hv. simpl.
  exact (Forall_lookup_1 _ _ _ _ (wa_tls _ Hwf) Hv).
Qed.

Lemma TimeLock_Set_wf z : wfTL z → TimeLock_Set (Some z) = z.
Proof. intros Hz. destruct z as [l]. by apply SetItems_wf. Qed.

(** ** Views of a state *)

(** The account stored in the trie. *)
Definition acct_at (t : Trie) (a : Address) : option Account :=
  match t !! a with
  | None | Some [] => None
  | Some enc => match Unmarshal Account enc with (d, None) => Some d | (_, Some _) => None end
  end.

Definition obj_at (s : StateDB) (a : Address) : option stateObject :=
  match stateObjects s !! a with
  | Some o => if deleted o then None else Some o
  | None => newObject a <$> acct_at (trie s) a
  end.

Definition sview (s : StateDB) (a : Address) : option oview := view (db s) <$> obj_at s a.

Record wf_db (s : StateDB) : Prop := {
  wd_obj : ∀ a o, stateObjects s !! a = Some o →
    address o = a ∧ wf_obj o ∧ (deleted o = true → acct_at (trie s) a = None);
  wd_trie : ∀ a d, acct_at (trie s) a = Some d → wf_acct d;
  wd_dirties : ∀ a n, a ≠ ripemd → dirties (jrnl s) !! a = Some n → 0 < n;
  wd_logs : ∀ h, logs s !! h ≠ Some [];
  wd_logSize : is_u64 (logSize s);
}.

(** Two states with the same accounts, as [view] sees them, and the same refund
    counter, logs and preimages. Not compared are what the journal does not track:
    the tickets and the ticket cache, the error of the database, and the number of
    entries in the lists of balances, which [Empty] and [Commit] depend on. The
    dirty counter of the ripemd precompile is kept when its touch is reverted, on
    purpose. *)
Record st_eq (s t : StateDB) : Prop := {
  se_db : db s = db t;
  se_trie : trie s = trie t;
  se_view : ∀ a, sview s a ≡ sview t a;
  se_refund : refund s = refund t;
  se_tx : thash s = thash t ∧ bhash s = bhash t ∧ txIndex s = txIndex t;
  se_logs : logs s = logs t ∧ logSize s = logSize t;
  se_preimages : preimages s = preimages t;
  se_dirties : ∀ a, a ≠ ripemd → dirties (jrnl s) !! a = dirties (jrnl t) !! a;
}.
#[export] Instance StateDB_equiv : Equiv StateDB := st_eq.
#[export] Instance StateDB_equivalence : Equivalence (≡@{StateDB}).
Proof.
  split.
  - by split.
  - intros s t [? ? Hv ? (?&?&?) [? ?] ? Hd]. split; try done.
    intros a Ha. symmetry. by apply Hd.
  - intros s t u [? ? Hv ? (?&?&?) [? ?] ? Hd] [? ? Hv' ? (?&?&?) [? ?] ? Hd'].
    split; try congruence; [| |split; congruence|].
    + intros a. etransitivity; [apply Hv|apply Hv'].
    + split_and!; congruence.
    + intros a Ha. rewrite Hd by done. by apply Hd'.
Qed.

(** Writing an object into the live set. *)
Definition put (a : Address) (o : stateObject) (s : StateDB) : StateDB :=
  set_objects (<[a := o]> (stateObjects s)) s.

Definition live (s : StateDB) (a : Address) (o : stateObject) : Prop :=
  stateObjects s !! a = Some o ∧ deleted o = false.

Definition good (a : Address) (o : stateObject) : Prop :=
  wf_obj o ∧ address o = a ∧ deleted o = false.

Lemma live_good s a o : wf_db s → live s a o → good a o.
Proof. intros Hwf [Ho Hd]. destruct (wd_obj _ Hwf _ _ Ho) as (? & ? & _). done. Qed.

Lemma live_put s a o : deleted o = false → live (put a o s) a o.
Proof. intros. split; [apply lookup_insert_eq|done]. Qed.

Lemma live_view s a o : live s a o → sview s a = Some (view (db s) o).
Proof. intros [Ho Hd]. unfold sview, obj_at. by rewrite Ho, Hd. Qed.

Lemma put_wf s a o : wf_db s → good a o → wf_db (put a o s).
Proof.
  intros [H1 H2 H3 H4 H5] (Hw & Ha & Hd). split; try done. intros a' o'. simpl.
  destruct (decide (a = a')) as [<-|Hne].
  - rewrite lookup_insert_eq. intros [= <-]. split_and!; [done|done|by rewrite Hd].
  - rewrite lookup_insert_ne by done. apply H1.
Qed.

Lemma put_view s a o a' :
  deleted o = false →
  sview (put a o s) a' = if a =? a' then Some (view (db s) o) else sview s a'.
Proof.
  intros Hd. unfold sview, obj_at. simpl. destruct (Z.eqb_spec a a') as [<-|Hne].
  - by rewrite lookup_insert_eq, Hd.
  - by rewrite lookup_insert_ne by done.
Qed.

Lemma put_put s a o o' : put a o' (put a o s) = put a o' s.
Proof. unfold put, set_objects. simpl. by rewrite insert_insert_eq. Qed.

(** A program that changes the object at [a] by [f], as its clients see it, and
    returns a function of the view. *)
Definition updates {A} (a : Address) (f : oview → oview) (r : oview → A) (m : M A) : Prop :=
  ∀ s o, wf_db s → live s a o →
    ∃ o', m s = Done (r (view (db s) o), put a o' s) ∧ good a o' ∧
          view (db s) o' ≡ f (view (db s) o).

Lemma modify_obj_updates a f g :
  (∀ o, wf_obj o → wf_obj (g o)) → (∀ o, address (g o) = address o ∧ deleted (g o) = deleted o) →
  (∀ d o, wf_obj o → view d (g o) ≡ f (view d o)) → updates a f (fun _ => tt) (modify_obj a g).
Proof.
  intros H1 H2 H3 s o Hwf Hl. destruct (live_good s a o Hwf Hl) as (Hw & Ha & Hd). exists (g o).
  destruct (H2 o) as [Ha' Hd']. split_and!; [|split_and!; [auto|congruence|congruence]|auto].
  unfold modify_obj, mbind, M_bind, deref, store, modify. by rewrite (proj1 Hl).
Qed.

Lemma set_Nonce_updates a n : updates a (vset_nonce n) (fun _ => tt) (modify_obj a (set_data (set_Nonce n))).
Proof. apply modify_obj_updates; [by intros o []|done|by split]. Qed.
Lemma set_Notaion_updates a n :
  updates a (vset_notation n) (fun _ => tt) (modify_obj a (set_data (set_Notaion n))).
Proof. apply modify_obj_updates; [by intros o []|done|by split]. Qed.
Lemma set_suicided_updates a b : updates a (vset_suicided b) (fun _ => tt) (modify_obj a (set_suicided b)).
Proof. apply modify_obj_updates; [done|done|by split]. Qed.
Lemma setState_updates a k x : updates a (vset_slot k x) (fun _ => tt) (modify_obj a (setState k x)).
Proof.
  apply modify_obj_updates; [done|done|]. split; try done. intros k'. simpl. unfold so_slot, upd. simpl.
  destruct (Z.eqb_spec k k') as [<-|?]; [by rewrite lookup_insert_eq|by rewrite lookup_insert_ne].
Qed.

Lemma Hash_Bytes_ok h : length (Hash_Bytes h) = 32%nat ∧ are_bytes (Hash_Bytes h).
Proof. split; [apply length_be_bytes|apply be_bytes_are_bytes]. Qed.

Lemma wf_set_CodeHash h c o : wf_obj o → wf_obj (setCode h c o).
Proof. intros []. split; try done. apply Hash_Bytes_ok. Qed.

Lemma setCode_updates a h b :
  updates a (vset_code (Hash_Bytes h) (Some b)) (fun _ => tt) (modify_obj a (setCode h (Some b))).
Proof. apply modify_obj_updates; [intros; by apply wf_set_CodeHash|done|by split]. Qed.

(** Setting the code hash and the code of an earlier view again. *)
Lemma setCode_restore a d o0 :
  wf_obj o0 →
  ∀ s o, wf_db s → db s = d → live s a o →
    ∃ o', modify_obj a (setCode (BytesToHash (v_codehash (view d o0))) (v_code (view d o0))) s
            = Done (tt, put a o' s) ∧ good a o' ∧
          view (db s) o' ≡ vset_code (v_codehash (view d o0)) (v_code (view d o0)) (view (db s) o).
Proof.
  intros Hw0 s o Hwf <- Hl. destruct (live_good s a o Hwf Hl) as (Hw & Ha & Hd).
  destruct (wa_code _ Hw0) as [Hlen Hbytes].
  assert (Hh : Hash_Bytes (BytesToHash (CodeHash (data o0))) = CodeHash (data o0)).
  { rewrite BytesToHash_short by lia. unfold Hash_Bytes, HashLength. rewrite <- Hlen.
    by apply be_bytes_SetBytes. }
  eexists. unfold modify_obj, mbind, M_bind, deref, store, modify. rewrite (proj1 Hl).
  split; [done|]. split; [split_and!; [by apply wf_set_CodeHash|done|done]|].
  split; try done. cbn [v_code view vset_code fst]. unfold so_codeval at 1.
  cbn [code setCode set_data set_code data CodeHash set_CodeHash v_codehash view]. rewrite Hh.
  destruct (so_codeval (db s) o0) eqn:E; [done|]. unfold so_codeval in E.
  destruct (code o0); [done|]. exact E.
Qed.

Lemma so_Code_spec d o b o' :
  so_Code d o = (b, o') →
  b = so_codeval d o ∧ data o' = data o ∧ view d o' ≡ view d o ∧ address o' = address o ∧
  deleted o' = deleted o.
Proof.
  unfold so_Code, so_codeval. destruct (code o) as [c|] eqn:E; [intros [= <- <-]; by split_and!|].
  destruct (bool_decide _) eqn:Eb; [intros [= <- <-]; by split_and!|].
  destruct (db_code d !! _) as [c|] eqn:Ec.
  - intros [= <- <-]. split_and!; try done. split; try done. simpl. unfold so_codeval. simpl.
    by rewrite E, Eb, Ec.
  - intros [= <- <-]. unfold so_setError. destruct (so_dbErr o); by split_and!.
Qed.

Lemma obj_Code_updates a : updates a id v_code (obj_Code a).
Proof.
  intros s o Hwf Hl. destruct (live_good s a o Hwf Hl) as (Hw & Ha & Hd).
  unfold obj_Code, mbind, M_bind, deref, get. simpl. rewrite (proj1 Hl). simpl.
  destruct (so_Code (db s) o) as [x o'] eqn:E.
  destruct (so_Code_spec _ _ _ _ E) as (-> & Hdat & ? & ? & ?).
  exists o'. unfold good. rewrite Hdat. split_and!; try done; congruence.
Qed.

Lemma obj_Balance_updates a h : updates a id (fun v => v_bal v h) (obj_Balance a h).
Proof.
  intros s o Hwf Hl. destruct (live_good s a o Hwf Hl) as (Hw & Ha & Hd).
  unfold obj_Balance, mbind, M_bind, deref. rewrite (proj1 Hl). simpl.
  destruct (balanceAssetIndex h o) as [i o'] eqn:E.
  destruct (balanceAssetIndex_spec (db s) _ _ _ _ Hw E) as (? & ? & ? & ? & ? & ? & Hv).
  exists o'. unfold at_index. rewrite Hv. split_and!; try done. split_and!; congruence.
Qed.

Lemma obj_TimeLockBalance_updates a h : updates a id (fun v => v_tl v h) (obj_TimeLockBalance a h).
Proof.
  intros s o Hwf Hl. destruct (live_good s a o Hwf Hl) as (Hw & Ha & Hd).
  unfold obj_TimeLockBalance, mbind, M_bind, deref. rewrite (proj1 Hl). simpl.
  destruct (timeLockAssetIndex h o) as [i o'] eqn:E.
  destruct (timeLockAssetIndex_spec (db s) _ _ _ _ Hw E) as (? & ? & ? & ? & ? & ? & Hv).
  exists o'. unfold at_index. rewrite Hv. split_and!; try done. split_and!; congruence.
Qed.

Lemma obj_setBalance_updates a h b :
  updates a (vset_bal h (Some b)) (fun _ => tt) (obj_setBalance a h (Some b)).
Proof.
  intros s o Hwf Hl. destruct (live_good s a o Hwf Hl) as (Hw & Ha & Hd).
  unfold obj_setBalance, mbind, M_bind, deref. rewrite (proj1 Hl). simpl.
  destruct (balanceAssetIndex h o) as [i o'] eqn:E.
  destruct (balanceAssetIndex_spec (db s) _ _ _ _ Hw E) as ([W1 W2 W6 W7 W3 W4 W5] & Hview & ? & ? & Hi & Hlt & Hv).
  destruct (Nat.ltb_spec i (length (BalancesVal (data o')))); [|lia].
  eexists. split; [done|]. split; [split_and!; simpl; try congruence|].
  - split; simpl; try done; [by rewrite length_insert|]. apply Forall_insert; [done|by eexists].
  - destruct Hview as [V1 V2 V3 V4 V5 V6 V7 V8 V9 V10]. split; try done. intros h'. simpl.
    rewrite so_bal_assoc. simpl. rewrite (assoc_insert _ _ _ _ h) by done. unfold upd.
    destruct (h =? h'); [done|]. apply V3.
Qed.

Lemma obj_setTimeLockBalance_updates a h z :
  wfTL z → updates a (vset_tl h (Some z)) (fun _ => tt) (obj_setTimeLockBalance a h (Some z)).
Proof.
  intros Hz s o Hwf Hl. destruct (live_good s a o Hwf Hl) as (Hw & Ha & Hd).
  unfold obj_setTimeLockBalance, mbind, M_bind, deref. rewrite (proj1 Hl). simpl.
  destruct (timeLockAssetIndex h o) as [i o'] eqn:E.
  destruct (timeLockAssetIndex_spec (db s) _ _ _ _ Hw E) as ([W1 W2 W6 W7 W3 W4 W5] & Hview & ? & ? & Hi & Hlt & Hv).
  destruct (Nat.ltb_spec i (length (TimeLockBalancesVal (data o')))); [|lia].
  eexists. split; [done|]. split; [split_and!; simpl; try congruence|].
  - split; simpl; try done; [by rewrite length_insert|]. apply Forall_insert; [done|by eexists].
  - destruct Hview as [V1 V2 V3 V4 V5 V6 V7 V8 V9 V10]. split; try done. intros h'. simpl.
    rewrite so_tl_assoc. simpl. rewrite (assoc_insert _ _ _ _ h) by done. unfold upd.
    destruct (h =? h'); [done|]. apply V4.
Qed.

Lemma obj_GetState_updates a k : updates a id (fun v => v_slot v k) (obj_GetState a k).
Proof.
  intros s o Hwf Hl. destruct (live_good s a o Hwf Hl) as (Hw & Ha & Hd).
  unfold obj_GetState, mbind, M_bind, deref, get. simpl. rewrite (proj1 Hl). simpl.
  destruct (so_GetState (db s) k o) as [x o'] eqn:E.
  destruct (so_GetState_spec _ _ _ _ _ E) as (-> & Hdat & ? & ? & ?).
  exists o'. unfold good. rewrite Hdat. split_and!; try done; congruence.
Qed.

Lemma obj_GetCommittedState_updates a k : updates a id (fun v => v_cslot v k) (obj_GetCommittedState a k).
Proof.
  intros s o Hwf Hl. destruct (live_good s a o Hwf Hl) as (Hw & Ha & Hd).
  unfold obj_GetCommittedState, mbind, M_bind, deref, get. simpl. rewrite (proj1 Hl). simpl.
  destruct (so_GetCommittedState (db s) k o) as [x o'] eqn:E.
  destruct (so_GetCommittedState_spec _ _ _ _ _ E) as (-> & Hdat & ? & ? & ?).
  exists o'. unfold good. rewrite Hdat. split_and!; try done; congruence.
Qed.
