(* ===== verification/StateRevert.v ===== *)
(** * Snapshots (core/state: statedb.go, journal.go)

    Every change of the state appends an entry to the journal, and undoing the
    entries since a snapshot, the newest first, gives a state that clients
    cannot tell from the one the snapshot was taken of. [ext] is what an
    operation guarantees; it composes, so a program made of such operations,
    nested snapshots included, can be reverted as a whole. *)

From stdpp Require Import base list gmap strings.
From Stdlib Require Import ZArith Lia.
From S2P Require Import Prelude Bytes Keccak KeccakFacts TimeLock TimeLockFacts Ticket FsnTypes.
From S2P Require Import Rlp RlpFacts Codec StateDB StateRecords StateFacts.

(** ** Looking an object up *)

Lemma put_id s a o : stateObjects s !! a = Some o → put a o s = s.
Proof. intros H. unfold put. rewrite insert_id by done. by destruct s. Qed.

Section lookup.
Context `{SP : StateParams}.

Lemma getStateObject_found s a p : obj_at s a = Some p → getStateObject a s = Done (true, put a p s).
Proof.
  unfold obj_at, getStateObject, acct_at. destruct (stateObjects s !! a) as [o|] eqn:E.
  - destruct (deleted o) eqn:Ed; [done|]. intros [= <-]. by rewrite put_id.
  - destruct (trie s !! a) as [[|x enc]|]; try done.
    destruct (Unmarshal Account (x :: enc)) as [d [e|]]; [done|]. by intros [= <-].
Qed.

Lemma getStateObject_missing s a : obj_at s a = None → getStateObject a s = Done (false, s).
Proof.
  unfold obj_at, getStateObject, acct_at. destruct (stateObjects s !! a) as [o|] eqn:E.
  - by destruct (deleted o) eqn:Ed.
  - destruct (trie s !! a) as [[|x enc]|]; try done.
    by destruct (Unmarshal Account (x :: enc)) as [d [e|]].
Qed.

Lemma getLive_found s a p : obj_at s a = Some p → getLive a s = Done (tt, put a p s).
Proof.
  intros H. unfold getLive, mbind, M_bind. by rewrite (getStateObject_found s a p H).
Qed.
End lookup.

Lemma obj_at_good s a p : wf_db s → obj_at s a = Some p → good a p.
Proof.
  intros Hwf. unfold obj_at. destruct (stateObjects s !! a) as [o|] eqn:E.
  - destruct (deleted o) eqn:Ed; [done|]. intros [= <-]. by apply (live_good s).
  - intros (d & Hd & ->)%fmap_Some. split_and!; [by apply (wd_trie _ Hwf a)|done|done].
Qed.

Lemma obj_at_put s a p a' :
  deleted p = false → obj_at (put a p s) a' = if a =? a' then Some p else obj_at s a'.
Proof.
  intros Hd. unfold obj_at. simpl. destruct (Z.eqb_spec a a') as [<-|Hne].
  - by rewrite lookup_insert_eq, Hd.
  - by rewrite lookup_insert_ne by done.
Qed.

Lemma obj_at_live s a o : live s a o → obj_at s a = Some o.
Proof. intros [Ho Hd]. unfold obj_at. by rewrite Ho, Hd. Qed.

Lemma deref_live s a : is_Some (obj_at s a) → ∀ o, stateObjects s !! a = Some o → live s a o.
Proof.
  unfold obj_at. intros H o Ho. rewrite Ho in H. split; [done|]. by destruct (deleted o), H.
Qed.

(** ** Equivalent states *)

(** A state that differs from another in the object of one address. *)
Lemma put_equiv s a p :
  deleted p = false → Some (view (db s) p) ≡ sview s a → put a p s ≡ s.
Proof.
  intros Hd Hv. split; try done. intros a'. rewrite put_view by done.
  by destruct (Z.eqb_spec a a') as [<-|?].
Qed.

Lemma equiv_obj_at s t a p :
  t ≡ s → obj_at s a = Some p → ∃ q, obj_at t a = Some q ∧ view (db s) q ≡ view (db s) p.
Proof.
  intros He Hp. pose proof (se_view _ _ He a) as Hv. unfold sview in Hv. rewrite Hp in Hv.
  rewrite (se_db _ _ He) in Hv. destruct (obj_at t a) as [q|]; [|inversion Hv].
  exists q. split; [done|]. by inversion Hv.
Qed.

Lemma equiv_missing s t a : t ≡ s → obj_at s a = None → obj_at t a = None.
Proof.
  intros He Hp. pose proof (se_view _ _ He a) as Hv. unfold sview in Hv. rewrite Hp in Hv.
  destruct (obj_at t a); [inversion Hv|done].
Qed.

(** ** What an operation guarantees *)

(** The revisions are in the order of their ids and of the journal. *)
Record wf_revs (s : StateDB) : Prop := {
  wr_sorted : ∀ i j r r', validRevisions s !! i = Some r → validRevisions s !! j = Some r' →
    (i < j)%nat → rev_id r < rev_id r';
  wr_next : ∀ r, r ∈ validRevisions s → rev_id r < nextRevisionId s;
}.

Lemma wf_revs_same s s' :
  validRevisions s' = validRevisions s → nextRevisionId s' = nextRevisionId s →
  wf_revs s → wf_revs s' ∧ validRevisions s `prefix_of` validRevisions s'.
Proof. intros E1 E2 [H1 H2]. split; [|by rewrite E1]. split; rewrite ?E1, ?E2; done. Qed.

Section revert.
Context `{SP : StateParams}.

Definition undoes (es : list journalEntry) (s' s : StateDB) : Prop :=
  ∀ t, wf_db t → t ≡ s' → ∃ t', journal_revert es t = Done (tt, t') ∧ wf_db t' ∧ t' ≡ s.

Record ext (s s' : StateDB) : Prop := {
  ext_wf : wf_db s';
  ext_undo : ∃ es, entries (jrnl s') = es ++ entries (jrnl s) ∧ undoes es s' s;
  ext_obj : ∀ a, is_Some (obj_at s a) → is_Some (obj_at s' a);
  ext_revs : wf_revs s → wf_revs s' ∧ validRevisions s `prefix_of` validRevisions s';
}.

Lemma journal_revert_app es1 es2 s :
  journal_revert (es1 ++ es2) s = let? r := journal_revert es1 s in journal_revert es2 r.2.
Proof.
  revert s. induction es1 as [|e es1 IH]; intros s; simpl; [done|].
  unfold mbind, M_bind. destruct (revert e s) as [[[] s1]| |]; simpl; [|done|done]. by rewrite IH.
Qed.

Lemma ext_refl s : wf_db s → ext s s.
Proof.
  intros Hwf. split; [done| |done|by apply wf_revs_same].
  exists []. split; [done|]. intros t Ht He. by exists t.
Qed.

Lemma ext_trans s1 s2 s3 : ext s1 s2 → ext s2 s3 → ext s1 s3.
Proof.
  intros [W1 (es1 & E1 & U1) O1 R1] [W2 (es2 & E2 & U2) O2 R2]. split; [done| |auto|].
  - exists (es2 ++ es1). rewrite E2, E1. split; [by rewrite app_assoc|]. intros t Ht He.
    destruct (U2 t Ht He) as (t2 & Hr2 & Hw2 & He2). destruct (U1 t2 Hw2 He2) as (t1 & Hr1 & ? & ?).
    exists t1. rewrite journal_revert_app, Hr2. done.
  - intros Hr. destruct (R1 Hr) as [Hr1 P1]. destruct (R2 Hr1) as [Hr2 P2].
    split; [done|by etransitivity].
Qed.

(** ** Changes of one object *)

Lemma dirty_dec_inc d a n : (∀ n, d !! a = Some n → 0 < n) →
  d !! a = n → dirty_dec (dirty_inc d a) a !! a = n.
Proof.
  intros Hpos <-. unfold dirty_dec, dirty_inc. rewrite lookup_insert_eq. simpl.
  destruct (d !! a) as [m|] eqn:E; simpl.
  - specialize (Hpos m eq_refl). destruct (Z.eqb_spec (m + 1 - 1) 0); [lia|].
    rewrite lookup_insert_eq. f_equal. lia.
  - by rewrite lookup_delete_eq.
Qed.

Lemma dirty_dec_ne d a a' : a ≠ a' → dirty_dec d a !! a' = d !! a'.
Proof.
  intros. unfold dirty_dec. destruct (_ =? 0); [by rewrite lookup_delete_ne|by rewrite lookup_insert_ne].
Qed.
Lemma dirty_inc_ne d a a' : a ≠ a' → dirty_inc d a !! a' = d !! a'.
Proof. intros. unfold dirty_inc. by rewrite lookup_insert_ne. Qed.
Lemma dirty_dec_eq d d' a : d !! a = d' !! a → dirty_dec d a !! a = dirty_dec d' a !! a.
Proof.
  intros E. unfold dirty_dec. rewrite E.
  destruct (_ =? 0); [by rewrite !lookup_delete_eq|by rewrite !lookup_insert_eq].
Qed.

(** The dirty counters after an entry was appended and undone again. *)
Definition dirty_undo (e : journalEntry) (j : journal) : journal :=
  mkJournal (entries j)
    (match dirtied e with Some a => dirty_dec (dirties j) a | None => dirties j end).

Lemma dirty_undo_append e (s t : StateDB) :
  wf_db s → (∀ a, a ≠ ripemd → dirties (jrnl t) !! a = dirties (journal_append (jrnl s) e) !! a) →
  ∀ a, a ≠ ripemd → dirties (dirty_undo e (jrnl t)) !! a = dirties (jrnl s) !! a.
Proof.
  intros Hwf Ht a Ha. specialize (Ht a Ha). unfold dirty_undo, journal_append in *. simpl in *.
  destruct (dirtied e) as [a'|]; [|done]. destruct (decide (a' = a)) as [->|Hne].
  - rewrite (dirty_dec_eq _ _ a Ht). apply dirty_dec_inc; [|done]. intros n. by apply (wd_dirties s).
  - by rewrite dirty_dec_ne, Ht, dirty_inc_ne.
Qed.

Lemma wf_append e s : wf_db s → wf_db (set_jrnl (journal_append (jrnl s) e) s).
Proof.
  intros [H1 H2 H3 H4 H5]. split; try done. intros a n Ha. unfold journal_append. simpl.
  destruct (dirtied e) as [a'|]; [|by apply H3]. destruct (decide (a' = a)) as [->|Hne].
  - unfold dirty_inc. rewrite lookup_insert_eq. intros [= <-].
    destruct (dirties (jrnl s) !! a) eqn:E; simpl; [|lia]. specialize (H3 a _ Ha E). lia.
  - rewrite dirty_inc_ne by done. by apply H3.
Qed.

(** One entry is undone when its [revert] restores everything but the counter. *)
Lemma undoes_one e s s' :
  wf_db s → (∀ a, a ≠ ripemd → dirties (jrnl s') !! a = dirties (journal_append (jrnl s) e) !! a) →
  (∀ t, wf_db t → t ≡ s' → ∃ t', revert e t = Done (tt, t') ∧ jrnl t' = jrnl t ∧ wf_db t' ∧
     t' ≡ set_jrnl (jrnl s') s) →
  undoes [e] s' s.
Proof.
  intros Hwf Hj Hrev t Ht He. destruct (Hrev t Ht He) as (t' & Hr & Hjt & Hw & He').
  simpl. unfold mbind, M_bind. rewrite Hr. simpl. eexists. split; [done|].
  assert (Hd : ∀ a, a ≠ ripemd → dirties (dirty_undo e (jrnl t')) !! a = dirties (jrnl s) !! a).
  { apply dirty_undo_append; [done|]. intros a Ha. rewrite <- Hj by done. rewrite Hjt.
    by apply (se_dirties _ _ He). }
  split.
  - destruct Hw as [H1 H2 H3 H4 H5]. split; try done. intros a n Ha Hn. apply (wd_dirties s Hwf a n Ha).
    by rewrite <- (Hd a Ha).
  - destruct He' as [? ? Hv ? ? ? ? ?]. split; try done.
Qed.

Lemma ext_change s a o o' e body :
  wf_db s → live s a o → good a o' → dirtied e = Some a →
  (∀ t, revert e t = (getLive a ≫= fun _ => body) t) →
  (∀ t p, wf_db t → live t a p → db t = db s → view (db s) p ≡ view (db s) o' →
     ∃ p', body t = Done (tt, put a p' t) ∧ good a p' ∧ view (db s) p' ≡ view (db s) o) →
  ext s (set_jrnl (journal_append (jrnl s) e) (put a o' s)).
Proof.
  intros Hwf Hl Hg He Hrev Hbody. set (s' := set_jrnl _ _).
  assert (Hw' : wf_db s') by (by apply (wf_append e (put a o' s)), put_wf).
  assert (Ho' : obj_at s' a = Some o').
  { change (obj_at s' a) with (obj_at (put a o' s) a). rewrite obj_at_put by apply Hg.
    by rewrite Z.eqb_refl. }
  split; [done| | |by apply wf_revs_same].
  - exists [e]. split; [done|]. apply undoes_one; [done|done|]. intros t Ht Heq.
    destruct (equiv_obj_at s' t a o' Heq Ho') as (p & Hp & Hvp).
    assert (Hdb : db t = db s) by apply (se_db _ _ Heq).
    pose proof (obj_at_good t a p Ht Hp) as Hgp.
    destruct (Hbody (put a p t) p) as (p' & Hb & Hgp' & Hv');
      [by apply put_wf|by apply live_put, Hgp|done|done|].
    exists (put a p' t). rewrite put_put in Hb. split_and!; [| |by apply put_wf|].
    + rewrite Hrev. unfold mbind, M_bind. by rewrite (getLive_found t a p Hp).
    + done.
    + destruct Heq as [? ? Hv ? ? ? ? ?]. split; try done. intros a'.
      rewrite put_view by apply Hgp'. rewrite Hdb.
      change (sview (set_jrnl (jrnl s') s) a') with (sview s a').
      destruct (Z.eqb_spec a a') as [<-|Hne].
      * rewrite (live_view s a o Hl). by constructor.
      * rewrite (Hv a'). change (sview s' a') with (sview (put a o' s) a').
        rewrite put_view by apply Hg. by destruct (Z.eqb_spec a a').
  - intros a' Ha'. change (obj_at s' a') with (obj_at (put a o' s) a').
    rewrite obj_at_put by apply Hg. destruct (a =? a'); [by eexists|done].
Qed.

(** Reading an object, or loading it. *)
Lemma ext_read s a o : wf_db s → good a o → Some (view (db s) o) ≡ sview s a → ext s (put a o s).
Proof.
  intros Hwf Hg Hv. split; [by apply put_wf| | |by apply wf_revs_same].
  - exists []. split; [done|]. intros t Ht He. exists t. split_and!; [done|done|].
    rewrite He. apply put_equiv; [apply Hg|done].
  - intros a' Ha'. rewrite obj_at_put by apply Hg. destruct (a =? a'); [by eexists|done].
Qed.

(** A journaled write: [m] changes the view by [f], the entry by [g], and [g]
    undoes [f]. *)
Lemma ext_write s a o e m f g body :
  wf_db s → live s a o → updates a f (fun _ => tt) m → updates a g (fun _ => tt) body →
  dirtied e = Some a → (∀ t, revert e t = (getLive a ≫= fun _ => body) t) →
  Proper ((≡) ==> (≡)) g → g (f (view (db s) o)) ≡ view (db s) o →
  ∃ s', (append e ≫= fun _ => m) s = Done (tt, s') ∧ ext s s'.
Proof.
  intros Hwf Hl Hm Hb He Hrev Hp Hgf.
  destruct (Hm (set_jrnl (journal_append (jrnl s) e) s) o (wf_append e s Hwf) Hl)
    as (o' & Hrun & Hg & Hv).
  eexists. unfold mbind, M_bind, append, modify. simpl. split; [exact Hrun|].
  apply (ext_change s a o o' e body Hwf Hl Hg He Hrev). intros t p Ht Hlp Hdb Hvp.
  destruct (Hb t p Ht Hlp) as (p' & Hbt & Hgp' & Hv'). exists p'. split_and!; [done|done|].
  rewrite <- Hdb, Hv', Hdb, Hvp, Hv. exact Hgf.
Qed.

(** ** Programs *)

(** A program that can be reverted when the objects at [L] exist. *)
Definition safe {A} (L : list Address) (m : M A) : Prop :=
  ∀ s r s', wf_db s → (∀ a, a ∈ L → is_Some (obj_at s a)) → m s = Done (r, s') → ext s s'.

Lemma safe_ret {A} L (a : A) : safe L (mret a).
Proof. intros s r s' Hwf _ [= <- <-]. by apply ext_refl. Qed.
Lemma safe_panic {A} L why : safe L (panic why : M A).
Proof. intros s r s' _ _ [=]. Qed.
Lemma safe_gets {A} L (f : StateDB → A) : safe L (gets f).
Proof. intros s r s' Hwf _ [= <- <-]. by apply ext_refl. Qed.
Lemma safe_get L : safe L get.
Proof. intros s r s' Hwf _ [= <- <-]. by apply ext_refl. Qed.
Lemma safe_lift {A} L (o : outcome A) : safe L (lift o).
Proof. intros s r s' Hwf _. unfold lift. destruct o; [|done..]. intros [= <- <-]. by apply ext_refl. Qed.
Lemma safe_deref L a : safe L (deref a).
Proof.
  intros s r s' Hwf _. unfold deref. destruct (stateObjects s !! a); [|done].
  intros [= <- <-]. by apply ext_refl.
Qed.

Lemma obind_Done {A B} (m : outcome A) (k : A → outcome B) b :
  obind m k = Done b → ∃ a, m = Done a ∧ k a = Done b.
Proof. destruct m; [|done..]. eauto. Qed.

Lemma bind_Done {A B} (m : M A) (k : A → M B) s b s' :
  (m ≫= k) s = Done (b, s') → ∃ a s1, m s = Done (a, s1) ∧ k a s1 = Done (b, s').
Proof. intros ([a s1] & H1 & H2)%obind_Done. eauto. Qed.

Lemma safe_bind {A B} L (m : M A) (k : A → M B) :
  safe L m → (∀ a, safe L (k a)) → safe L (m ≫= k).
Proof.
  intros Hm Hk s r s' Hwf HL (a & s1 & H1 & H2)%bind_Done.
  pose proof (Hm s a s1 Hwf HL H1) as He. apply (ext_trans s s1 s' He).
  apply (Hk a s1 r s' (ext_wf _ _ He)); [|done]. intros a' Ha'. apply (ext_obj _ _ He). auto.
Qed.

Lemma safe_weaken {A} L L' (m : M A) : safe L m → (∀ a, a ∈ L → a ∈ L') → safe L' m.
Proof. intros Hm Hi s r s' Hwf HL. apply Hm; auto. Qed.

Lemma ext_load s a p : wf_db s → obj_at s a = Some p → ext s (put a p s).
Proof.
  intros Hwf Hp. apply ext_read; [done|by apply (obj_at_good s)|]. unfold sview. by rewrite Hp.
Qed.

Lemma safe_getStateObject {A} L a (k : bool → M A) :
  safe (a :: L) (k true) → safe L (k false) → safe L (getStateObject a ≫= k).
Proof.
  intros H1 H2 s r s' Hwf HL (b & s1 & Hg & Hk)%bind_Done. destruct (obj_at s a) as [p|] eqn:E.
  - rewrite (getStateObject_found s a p E) in Hg. injection Hg as <- <-.
    pose proof (ext_load s a p Hwf E) as He. apply (ext_trans s (put a p s) s' He).
    apply (H1 (put a p s) r s' (ext_wf _ _ He)); [|done].
    intros a' Ha'. apply (ext_obj _ _ He). apply elem_of_cons in Ha' as [->|?]; [by eexists|auto].
  - rewrite (getStateObject_missing s a E) in Hg. injection Hg as <- <-. by apply (H2 s r s').
Qed.

Lemma safe_with_object {A} L a (d : A) f : safe (a :: L) f → safe L (with_object a d f).
Proof. intros Hf. apply safe_getStateObject; [done|apply safe_ret]. Qed.

(** A read of a live object. *)
Lemma safe_updates_id {A} L a r (m : M A) :
  a ∈ L → updates a id r m → (∀ s, stateObjects s !! a = None → ∀ x, m s ≠ Done x) → safe L m.
Proof.
  intros Ha Hm Hpanic s x s' Hwf HL Hrun. specialize (HL a Ha).
  destruct (stateObjects s !! a) as [o|] eqn:E; [|by apply Hpanic in Hrun].
  pose proof (deref_live s a HL o E) as Hl. destruct (Hm s o Hwf Hl) as (o' & Hr & Hg & Hv).
  rewrite Hrun in Hr. injection Hr as _ ->. apply ext_read; [done|done|].
  rewrite (live_view s a o Hl). by constructor.
Qed.

Lemma deref_Panic {A} s a (k : stateObject → M A) :
  stateObjects s !! a = None → ∀ x, (deref a ≫= k) s ≠ Done x.
Proof. intros H x. unfold mbind, M_bind, deref. by rewrite H. Qed.

Lemma safe_obj_Code L a : a ∈ L → safe L (obj_Code a).
Proof.
  intros Ha. apply (safe_updates_id L a v_code); [done|apply obj_Code_updates|].
  intros s Hs x. exact (deref_Panic s a _ Hs x).
Qed.
Lemma safe_obj_Balance L a h : a ∈ L → safe L (obj_Balance a h).
Proof.
  intros Ha. apply (safe_updates_id L a (fun v => v_bal v h)); [done|apply obj_Balance_updates|].
  intros s Hs x. exact (deref_Panic s a _ Hs x).
Qed.
Lemma safe_obj_TimeLockBalance L a h : a ∈ L → safe L (obj_TimeLockBalance a h).
Proof.
  intros Ha. apply (safe_updates_id L a (fun v => v_tl v h)); [done|apply obj_TimeLockBalance_updates|].
  intros s Hs x. exact (deref_Panic s a _ Hs x).
Qed.
Lemma safe_obj_GetState L a k : a ∈ L → safe L (obj_GetState a k).
Proof.
  intros Ha. apply (safe_updates_id L a (fun v => v_slot v k)); [done|apply obj_GetState_updates|].
  intros s Hs x. exact (deref_Panic s a _ Hs x).
Qed.
Lemma safe_obj_GetCommittedState L a k : a ∈ L → safe L (obj_GetCommittedState a k).
Proof.
  intros Ha. apply (safe_updates_id L a (fun v => v_cslot v k));
    [done|apply obj_GetCommittedState_updates|].
  intros s Hs x. exact (deref_Panic s a _ Hs x).
Qed.

(** ** Journaled writes *)

Lemma run_live {A} s a (k : stateObject → M A) x :
  is_Some (obj_at s a) → (deref a ≫= k) s = Done x → ∃ o, live s a o.
Proof.
  intros Ho Hrun. destruct (stateObjects s !! a) as [o|] eqn:E.
  - exists o. by apply deref_live.
  - by apply (deref_Panic s a k) in Hrun.
Qed.

Lemma read_step {A} s a o r (m : M A) x s1 :
  updates a id r m → wf_db s → live s a o → m s = Done (x, s1) →
  ∃ o1, x = r (view (db s) o) ∧ s1 = put a o1 s ∧ ext s s1 ∧ live s1 a o1 ∧ wf_db s1 ∧
        view (db s) o1 ≡ view (db s) o.
Proof.
  intros Hm Hwf Hl Hrun. destruct (Hm s o Hwf Hl) as (o1 & Hr & Hg & Hv).
  rewrite Hrun in Hr. injection Hr as -> ->. exists o1. split_and!; try done.
  - apply ext_read; [done|done|]. rewrite (live_view s a o Hl). by constructor.
  - by apply live_put, Hg.
  - by apply put_wf.
Qed.

Lemma safe_obj_SetNonce L a n : a ∈ L → safe L (obj_SetNonce a n).
Proof.
  intros Ha s r s' Hwf HL Hrun. destruct (run_live s a _ _ (HL a Ha) Hrun) as [o Hl].
  unfold obj_SetNonce, mbind at 1, M_bind at 1, deref in Hrun. rewrite (proj1 Hl) in Hrun.
  destruct (ext_write s a o (nonceChange a (Nonce (data o))) (modify_obj a (set_data (set_Nonce n)))
    (vset_nonce n) (vset_nonce (Nonce (data o))) (modify_obj a (set_data (set_Nonce (Nonce (data o))))))
    as (s2 & Hr & He); try done; [apply set_Nonce_updates..|apply _|].
  simpl in Hrun. rewrite Hr in Hrun. by injection Hrun as _ <-.
Qed.

Lemma safe_obj_SetNotation L a n : a ∈ L → safe L (obj_SetNotation a n).
Proof.
  intros Ha s r s' Hwf HL Hrun. destruct (run_live s a _ _ (HL a Ha) Hrun) as [o Hl].
  unfold obj_SetNotation, mbind at 1, M_bind at 1, deref in Hrun. rewrite (proj1 Hl) in Hrun.
  destruct (ext_write s a o (notationChange a (Notaion (data o)))
    (modify_obj a (set_data (set_Notaion n))) (vset_notation n) (vset_notation (Notaion (data o)))
    (modify_obj a (set_data (set_Notaion (Notaion (data o))))))
    as (s2 & Hr & He); try done; [apply set_Notaion_updates..|apply _|].
  simpl in Hrun. rewrite Hr in Hrun. by injection Hrun as _ <-.
Qed.

Lemma safe_obj_SetState L a k x : a ∈ L → safe L (obj_SetState a k x).
Proof.
  intros Ha s r s' Hwf HL (prev & s1 & Hread & Hrun)%bind_Done.
  destruct (run_live s a _ _ (HL a Ha) Hread) as [o Hl].
  destruct (read_step s a o _ _ _ _ (obj_GetState_updates a k) Hwf Hl Hread)
    as (o1 & Hp & -> & He1 & Hl1 & Hw1 & Hv1).
  destruct (prev =? x). { by injection Hrun as _ <-. }
  destruct (ext_write (put a o1 s) a o1 (storageChange a k prev) (modify_obj a (setState k x))
    (vset_slot k x) (vset_slot k prev) (modify_obj a (setState k prev)))
    as (s2 & Hr & He); try done; [apply setState_updates..|apply _| |].
  - rewrite Hp, <- (ve_slot _ _ Hv1 k). apply vset_slot_undo.
  - rewrite Hr in Hrun. injection Hrun as _ <-. by eapply ext_trans.
Qed.

Lemma safe_obj_SetBalance L a h x : a ∈ L → safe L (obj_SetBalance a h x).
Proof.
  intros Ha s r s' Hwf HL (prev & s1 & Hread & Hrun)%bind_Done.
  destruct (run_live s a _ _ (HL a Ha) Hread) as [o Hl].
  destruct (read_step s a o _ _ _ _ (obj_Balance_updates a h) Hwf Hl Hread)
    as (o1 & Hp & -> & He1 & Hl1 & Hw1 & Hv1).
  destruct prev as [prev|]; [|done]. cbn [non_nil] in Hrun.
  destruct (ext_write (put a o1 s) a o1 (balanceChange a h (Some prev)) (obj_setBalance a h (Some x))
    (vset_bal h (Some x)) (vset_bal h (Some prev)) (obj_setBalance a h (Some prev)))
    as (s2 & Hr & He); try done; [apply obj_setBalance_updates..|apply _| |].
  - rewrite Hp, <- (ve_bal _ _ Hv1 h). apply vset_bal_undo.
  - assert (Some s2 = Some s') as [= ->]; [|by eapply ext_trans].
    change ((append (balanceChange a h (Some prev)) ≫= fun _ => obj_setBalance a h (Some x))
              (put a o1 s) = Done (r, s')) in Hrun. congruence.
Qed.

Lemma safe_obj_SetTimeLockBalance L a h z :
  a ∈ L → wfTL z → safe L (obj_SetTimeLockBalance a h (Some z)).
Proof.
  intros Ha Hz s r s' Hwf HL (prev & s1 & Hread & Hrun)%bind_Done.
  destruct (run_live s a _ _ (HL a Ha) Hread) as [o Hl].
  destruct (read_step s a o _ _ _ _ (obj_TimeLockBalance_updates a h) Hwf Hl Hread)
    as (o1 & Hp & -> & He1 & Hl1 & Hw1 & Hv1).
  destruct (so_tl_Some o h) as (p & Ep & Hpw); [by apply (live_good s a o)|].
  simpl in Hp. rewrite Ep in Hp. subst prev. rewrite TimeLock_Set_wf in Hrun by done.
  destruct (ext_write (put a o1 s) a o1 (timeLockBalanceChange a h (Some p))
    (obj_setTimeLockBalance a h (Some z)) (vset_tl h (Some z)) (vset_tl h (Some p))
    (obj_setTimeLockBalance a h (Some p)))
    as (s2 & Hr & He); try done; [by apply obj_setTimeLockBalance_updates..|apply _| |].
  - rewrite <- Ep. change (so_tl o h) with (v_tl (view (db s) o) h).
    rewrite <- (ve_tl _ _ Hv1 h). apply vset_tl_undo.
  - rewrite Hr in Hrun. injection Hrun as _ <-. by eapply ext_trans.
Qed.

Lemma safe_obj_SetCode L a h b : a ∈ L → safe L (obj_SetCode a h b).
Proof.
  intros Ha s r s' Hwf HL (prev & s1 & Hread & Hrun)%bind_Done.
  assert (∃ o, live s a o) as [o Hl] by exact (run_live s a _ _ (HL a Ha) Hread).
  destruct (read_step s a o _ _ _ _ (obj_Code_updates a) Hwf Hl Hread)
    as (o1 & Hp & -> & He1 & Hl1 & Hw1 & Hv1).
  apply (ext_trans _ _ _ He1). set (s1 := put a o1 s) in *.
  apply bind_Done in Hrun as (c & s2 & Hc & Hrun). unfold deref in Hc. rewrite (proj1 Hl1) in Hc.
  injection Hc as <- <-. apply bind_Done in Hrun as (u & s2 & Hc & Hrun). injection Hc as <- <-.
  set (e := codeChange a prev (CodeHash (data o1))) in *.
  destruct (setCode_updates a h b (set_jrnl (journal_append (jrnl s1) e) s1) o1)
    as (o2 & Hr & Hg & Hv); [by apply wf_append|done|].
  change (jrnl s) with (jrnl s1) in Hrun. rewrite Hr in Hrun. injection Hrun as _ <-.
  apply (ext_change s1 a o1 o2 e (modify_obj a (setCode (BytesToHash (CodeHash (data o1))) prev)));
    try done. intros t p Ht Hlt Hdb Hvp.
  destruct (setCode_restore a (db s1) o1 (proj1 (live_good _ _ _ Hw1 Hl1)) t p Ht Hdb Hlt)
    as (p' & Hrun & Hg' & Hv'). exists p'. split_and!; [|done|].
  - rewrite <- Hrun. simpl. do 3 f_equal. rewrite Hp. symmetry. exact (ve_code _ _ Hv1).
  - rewrite <- Hdb at 1. rewrite Hv', Hdb, Hvp, Hv. apply vset_code_undo.
Qed.

Lemma safe_touch L a : safe L (touch a).
Proof.
  intros s r s' Hwf HL (? & s1 & H1 & H2)%bind_Done. injection H1 as <- <-.
  set (s1 := set_jrnl (journal_append (jrnl s) (touchChange a)) s) in *.
  assert (Hs' : ∃ j, s' = set_jrnl j s1 ∧ entries j = entries (jrnl s1) ∧
    (∀ b, b ≠ ripemd → dirties j !! b = dirties (jrnl s1) !! b)).
  { destruct (Z.eqb_spec a ripemd) as [->|?].
    - injection H2 as _ <-. eexists. split_and!; [done|done|]. intros b Hb. by apply dirty_inc_ne.
    - injection H2 as _ <-. by exists (jrnl s1). }
  destruct Hs' as (j & -> & Hj & Hd). pose proof (wf_append (touchChange a) s Hwf) as Hw1. split.
  - destruct Hw1 as [W1 W2 W3 W4 W5]. split; try done. intros b n Hb. simpl. rewrite Hd by done.
    by apply W3.
  - exists [touchChange a]. split; [done|]. apply undoes_one; [done|done|]. intros t Ht He.
    exists t. split_and!; [done|done|done|]. destruct He. by split.
  - done.
  - by apply wf_revs_same.
Qed.

(** ** Creating objects *)

Lemma good_new a : good a (newObject a emptyAccount).
Proof. split_and!; [apply wf_emptyAccount|done|done]. Qed.

Lemma missing_trie s a : wf_db s → obj_at s a = None → acct_at (trie s) a = None.
Proof.
  intros Hwf. unfold obj_at. destruct (stateObjects s !! a) as [o|] eqn:E.
  - destruct (deleted o) eqn:Ed; [|done]. intros _. by apply (wd_obj _ Hwf a o).
  - by destruct (acct_at (trie s) a).
Qed.

Lemma ext_obj_put s a o' j :
  good a o' → ∀ a', is_Some (obj_at s a') → is_Some (obj_at (set_jrnl j (put a o' s)) a').
Proof.
  intros Hg a' Ha'. change (is_Some (obj_at (put a o' s) a')). rewrite obj_at_put by apply Hg.
  destruct (a =? a'); [by eexists|done].
Qed.

Lemma ext_create s a o' :
  wf_db s → obj_at s a = None → good a o' →
  ext s (set_jrnl (journal_append (jrnl s) (createObjectChange a)) (put a o' s)).
Proof.
  intros Hwf Ho Hg. split; [by apply (wf_append _ (put a o' s)), put_wf| |by apply ext_obj_put|
    by apply wf_revs_same].
  exists [createObjectChange a]. split; [done|]. apply undoes_one; [done|done|]. intros t Ht Heq.
  eexists. split; [done|]. split; [done|]. pose proof (missing_trie s a Hwf Ho) as Htr.
  assert (Htt : trie t = trie s) by apply (se_trie _ _ Heq). split.
  - destruct Ht as [W1 W2 W3 W4 W5]. split; try done. simpl. intros a' o Hl.
    apply lookup_delete_Some in Hl as [_ Hl]. by apply W1.
  - destruct Heq as [? ? Hv ? ? ? ? ?]. split; try done. intros a'.
    destruct (decide (a = a')) as [<-|Hne].
    + unfold sview. change (obj_at (set_jrnl _ s) a) with (obj_at s a). rewrite Ho.
      unfold obj_at. simpl. by rewrite lookup_delete_eq, Htt, Htr.
    + specialize (Hv a'). unfold sview, obj_at in *. simpl in *.
      rewrite lookup_insert_ne in Hv by done. rewrite lookup_delete_ne by done. exact Hv.
Qed.

Lemma ext_reset s a p o' :
  wf_db s → live s a p → good a o' →
  ext s (set_jrnl (journal_append (jrnl s) (resetObjectChange p)) (put a o' s)).
Proof.
  intros Hwf Hl Hg. split; [by apply (wf_append _ (put a o' s)), put_wf| |by apply ext_obj_put|
    by apply wf_revs_same].
  pose proof (live_good s a p Hwf Hl) as Hgp.
  exists [resetObjectChange p]. split; [done|]. apply undoes_one; [done|done|]. intros t Ht Heq.
  exists (put a p t). split_and!; [|done|by apply put_wf|].
  - simpl. unfold setStateObject, store, modify. destruct Hgp as (_ & -> & _). done.
  - assert (Hdb : db t = db s) by apply (se_db _ _ Heq).
    destruct Heq as [? ? Hv ? ? ? ? ?]. split; try done. intros a'. rewrite put_view by apply Hgp.
    change (sview (set_jrnl _ s) a') with (sview s a'). specialize (Hv a').
    change (sview (set_jrnl _ (put a o' s)) a') with (sview (put a o' s) a') in Hv.
    rewrite put_view in Hv by apply Hg. rewrite Hdb.
    destruct (Z.eqb_spec a a') as [Hq|Hne]; [|exact Hv]. by rewrite <- Hq, (live_view s a p Hl).
Qed.

Definition emptyView : oview := view (mkDatabase ∅ ∅) (newObject 0 emptyAccount).

Lemma view_new d a : view d (newObject a emptyAccount) ≡ emptyView.
Proof.
  assert (Hc : ∀ d a, so_codeval d (newObject a emptyAccount) = None).
  { intros d' a'. unfold so_codeval. simpl. by rewrite bool_decide_true. }
  assert (Hk : ∀ d a k, so_cslot d (newObject a emptyAccount) k = 0).
  { intros d' a' k. unfold so_cslot, so_opened, OpenTrie. simpl. by rewrite lookup_empty. }
  unfold emptyView. split; simpl; rewrite ?Hc, ?Hk; done.
Qed.

(** [createObject] leaves a fresh account in the place of what was there. *)
Lemma createObject_spec s a :
  wf_db s → ∃ e s0,
    createObject a s = Done (obj_at s a,
      set_jrnl (journal_append (jrnl s) e) (put a (newObject a emptyAccount) s0)) ∧
    (∀ o', good a o' → ext s (set_jrnl (journal_append (jrnl s) e) (put a o' s0))) ∧
    s0 = match obj_at s a with Some p => put a p s | None => s end.
Proof.
  intros Hwf. unfold createObject, mbind, M_bind. destruct (obj_at s a) as [p|] eqn:E.
  - rewrite (getStateObject_found s a p E). simpl. rewrite lookup_insert_eq.
    exists (resetObjectChange p), (put a p s). split_and!; [done| |done]. intros o' Hg.
    apply (ext_trans s (put a p s)); [by apply ext_load|].
    apply (ext_reset (put a p s) a p o'); [|apply live_put|done].
    + apply put_wf; [done|by apply (obj_at_good s)].
    + by apply (obj_at_good s a p Hwf).
  - rewrite (getStateObject_missing s a E). simpl. exists (createObjectChange a), s.
    split_and!; [done| |done]. intros o' Hg. by apply ext_create.
Qed.

Lemma GetOrNewStateObject_spec s a :
  wf_db s → ∃ s1 o, GetOrNewStateObject a s = Done (tt, s1) ∧ ext s s1 ∧ live s1 a o ∧
    view (db s) o ≡ default emptyView (sview s a) ∧ s1 = set_jrnl (jrnl s1) (put a o s).
Proof.
  intros Hwf. unfold GetOrNewStateObject, mbind, M_bind. destruct (obj_at s a) as [p|] eqn:E.
  - rewrite (getStateObject_found s a p E). simpl. exists (put a p s), p.
    pose proof (obj_at_good s a p Hwf E) as Hg.
    split_and!; [done|by apply ext_load|by apply live_put, Hg| |by destruct s].
    unfold sview. by rewrite E.
  - rewrite (getStateObject_missing s a E). simpl.
    destruct (createObject_spec s a Hwf) as (e & s0 & Hr & He & Hs0). rewrite Hr. rewrite E in *.
    subst s0. do 2 eexists. split_and!; [done|by apply He, good_new|by apply live_put| |done].
    unfold sview. rewrite E. apply view_new.
Qed.

Lemma safe_GetOrNewStateObject {A} L a (k : unit → M A) :
  safe (a :: L) (k tt) → safe L (GetOrNewStateObject a ≫= k).
Proof.
  intros Hk s r s' Hwf HL ([] & s1 & H1 & H2)%bind_Done.
  destruct (GetOrNewStateObject_spec s a Hwf) as (s2 & o & Hr & He & Hl & _).
  rewrite H1 in Hr. injection Hr as <-. apply (ext_trans _ _ _ He).
  apply (Hk s1 r s' (ext_wf _ _ He)); [|done]. intros a' Ha'.
  apply elem_of_cons in Ha' as [->|?]; [|by apply (ext_obj _ _ He), HL].
  rewrite (obj_at_live _ _ _ Hl). by eexists.
Qed.

(** *** CreateAccount *)

Fixpoint vcopy_bal (hs : list Hash) (vs : list (option Z)) (v : oview) : oview :=
  match hs, vs with h :: hs, b :: vs => vcopy_bal hs vs (vset_bal h b v) | _, _ => v end.
Fixpoint vcopy_tl (hs : list Hash) (vs : list (option TimeLock)) (v : oview) : oview :=
  match hs, vs with h :: hs, b :: vs => vcopy_tl hs vs (vset_tl h b v) | _, _ => v end.

#[local] Instance vcopy_bal_proper hs vs : Proper ((≡) ==> (≡)) (vcopy_bal hs vs).
Proof.
  revert vs. induction hs as [|h hs IH]; intros [|b vs] v w Hvw; simpl; try done.
  apply IH. by rewrite Hvw.
Qed.
#[local] Instance vcopy_tl_proper hs vs : Proper ((≡) ==> (≡)) (vcopy_tl hs vs).
Proof.
  revert vs. induction hs as [|h hs IH]; intros [|b vs] v w Hvw; simpl; try done.
  apply IH. by rewrite Hvw.
Qed.

Lemma copy_balances_updates a hs vs :
  length hs = length vs → Forall is_Some vs →
  updates a (vcopy_bal hs vs) (fun _ => tt) (copy_balances a hs vs).
Proof.
  revert vs. induction hs as [|h hs IH]; intros [|b vs] Hlen Hall s o Hwf Hl; try done.
  - exists o. simpl. rewrite put_id by apply Hl. split_and!; [done|by apply (live_good s)|done].
  - apply Forall_cons in Hall as [[x ->] Hall]. cbn [copy_balances vcopy_bal].
    destruct (obj_setBalance_updates a h x s o Hwf Hl) as (o1 & Hr & Hg & Hv).
    destruct (IH vs) with (s := put a o1 s) (o := o1) as (o2 & Hr2 & Hg2 & Hv2);
      [simpl in Hlen; lia|done|by apply put_wf|by apply live_put, Hg|].
    exists o2. unfold mbind, M_bind. rewrite Hr. cbn [obind fst snd]. rewrite Hr2, put_put.
    split_and!; [done|done|]. rewrite Hv2. simpl. by rewrite Hv.
Qed.

Lemma copy_timelocks_updates a hs vs :
  length hs = length vs → Forall (fun v => ∃ z, v = Some z ∧ wfTL z) vs →
  updates a (vcopy_tl hs vs) (fun _ => tt) (copy_timelocks a hs vs).
Proof.
  revert vs. induction hs as [|h hs IH]; intros [|b vs] Hlen Hall s o Hwf Hl; try done.
  - exists o. simpl. rewrite put_id by apply Hl. split_and!; [done|by apply (live_good s)|done].
  - apply Forall_cons in Hall as [(x & -> & Hx) Hall]. cbn [copy_timelocks vcopy_tl].
    destruct (obj_setTimeLockBalance_updates a h x Hx s o Hwf Hl) as (o1 & Hr & Hg & Hv).
    destruct (IH vs) with (s := put a o1 s) (o := o1) as (o2 & Hr2 & Hg2 & Hv2);
      [simpl in Hlen; lia|done|by apply put_wf|by apply live_put, Hg|].
    exists o2. unfold mbind, M_bind. rewrite Hr. cbn [obind fst snd]. rewrite Hr2, put_put.
    split_and!; [done|done|]. rewrite Hv2. simpl. by rewrite Hv.
Qed.

Lemma asset_index_notin h hs : h ∉ hs → asset_index h hs = None.
Proof.
  destruct (asset_index h hs) as [i|] eqn:E; [|done].
  destruct (asset_index_Some _ _ _ E) as [Hl _]. intros []. by eapply list_elem_of_lookup_2.
Qed.

(** Copying into an account sets the balances of the list and nothing else. *)
Lemma vcopy_bal_eq hs vs v :
  length hs = length vs → NoDup hs →
  vcopy_bal hs vs v ≡
  mkView (v_nonce v) (v_notation v)
    (fun h => match asset_index h hs with Some i => default None (vs !! i) | None => v_bal v h end)
    (v_tl v) (v_root v) (v_codehash v) (v_code v) (v_slot v) (v_cslot v) (v_suicided v).
Proof.
  revert vs v. induction hs as [|h hs IH]; intros [|b vs] v Hlen Hn; try done.
  apply NoDup_cons in Hn as [Hnin Hn]. cbn [vcopy_bal]. rewrite IH by (done || (simpl in Hlen; lia)).
  split; try done. intros h'. simpl. unfold upd.
  destruct (Z.eqb_spec h h') as [<-|Hne]; [by rewrite asset_index_notin by done|].
  by destruct (asset_index h' hs).
Qed.
Lemma vcopy_tl_eq hs vs v :
  length hs = length vs → NoDup hs →
  vcopy_tl hs vs v ≡
  mkView (v_nonce v) (v_notation v) (v_bal v)
    (fun h => match asset_index h hs with Some i => default None (vs !! i) | None => v_tl v h end)
    (v_root v) (v_codehash v) (v_code v) (v_slot v) (v_cslot v) (v_suicided v).
Proof.
  revert vs v. induction hs as [|h hs IH]; intros [|b vs] v Hlen Hn; try done.
  apply NoDup_cons in Hn as [Hnin Hn]. cbn [vcopy_tl]. rewrite IH by (done || (simpl in Hlen; lia)).
  split; try done. intros h'. simpl. unfold upd.
  destruct (Z.eqb_spec h h') as [<-|Hne]; [by rewrite asset_index_notin by done|].
  by destruct (asset_index h' hs).
Qed.

(** What is left of an account that is created again. *)
Definition vcarry (v : oview) : oview :=
  mkView (v_nonce emptyView) (v_notation emptyView) (v_bal v) (v_tl v) (v_root emptyView)
    (v_codehash emptyView) (v_code emptyView) (v_slot emptyView) (v_cslot emptyView)
    (v_suicided emptyView).

Lemma vcarry_empty : vcarry emptyView = emptyView.
Proof. unfold vcarry. by destruct emptyView. Qed.

Lemma CreateAccount_spec s a :
  wf_db s → ∃ s1 o, CreateAccount a s = Done (tt, s1) ∧ ext s s1 ∧ live s1 a o ∧
    view (db s) o ≡ vcarry (default emptyView (sview s a)) ∧ s1 = set_jrnl (jrnl s1) (put a o s).
Proof.
  intros Hwf. destruct (createObject_spec s a Hwf) as (e & s0 & Hr & He & Hs0).
  unfold CreateAccount, mbind, M_bind. rewrite Hr. cbn [obind fst snd].
  destruct (obj_at s a) as [p|] eqn:E.
  - set (s1 := set_jrnl _ _) in *. pose proof (obj_at_good s a p Hwf E) as (Hw & _ & _).
    assert (Hw1 : wf_db s1) by apply (He _ (good_new a)).
    assert (Hl1 : live s1 a (newObject a emptyAccount)) by by apply live_put.
    destruct (copy_balances_updates a (BalancesHash (data p)) (BalancesVal (data p))
      (wa_bal _ Hw) (wa_bals _ Hw) s1 _ Hw1 Hl1) as (o1 & H1 & Hg1 & Hv1).
    rewrite H1. cbn [obind fst snd].
    destruct (copy_timelocks_updates a (TimeLockBalancesHash (data p)) (TimeLockBalancesVal (data p))
      (wa_tl _ Hw) (wa_tls _ Hw) (put a o1 s1) o1) as (o2 & H2 & Hg2 & Hv2);
      [by apply put_wf|by apply live_put, Hg1|].
    rewrite H2, put_put. exists (put a o2 s1), o2. split; [done|].
    assert (Hs1 : put a o2 s1 = set_jrnl (journal_append (jrnl s) e) (put a o2 s0)).
    { unfold s1, put, set_jrnl, set_objects. simpl. by rewrite insert_insert_eq. }
    rewrite Hs1. split_and!; [by apply He|by apply live_put, Hg2| |].
    + subst s0. change (db s) with (db (put a o1 s1)) at 1. rewrite Hv2.
      change (db (put a o1 s1)) with (db s1). rewrite Hv1, view_new.
      rewrite vcopy_bal_eq, vcopy_tl_eq by apply Hw. unfold sview. rewrite E. done.
    + subst s0. unfold put, set_jrnl, set_objects. simpl. by rewrite insert_insert_eq.
  - subst s0. do 2 eexists. split_and!; [done|by apply He, good_new|by apply live_put| |done].
    unfold sview. rewrite E, view_new. simpl. by rewrite vcarry_empty.
Qed.

(** ** Refunds, logs, preimages *)

(** A change of the fields outside of the objects. *)
Lemma ext_field s s' e :
  wf_db s → wf_db s' → db s' = db s → stateObjects s' = stateObjects s → trie s' = trie s →
  validRevisions s' = validRevisions s → nextRevisionId s' = nextRevisionId s →
  jrnl s' = journal_append (jrnl s) e →
  (∀ t, wf_db t → t ≡ s' → ∃ t', revert e t = Done (tt, t') ∧ jrnl t' = jrnl t ∧ wf_db t' ∧
     t' ≡ set_jrnl (jrnl s') s) →
  ext s s'.
Proof.
  intros Hwf Hw' Hdb Hobj Htr Hr1 Hr2 Hj Hrev. split; [done| | |by apply wf_revs_same].
  - exists [e]. rewrite Hj. split; [done|]. apply undoes_one; [done|by rewrite Hj|done].
  - intros a. unfold obj_at. by rewrite Hobj, Htr.
Qed.

Lemma wf_fields s s' :
  wf_db s → stateObjects s' = stateObjects s → trie s' = trie s →
  dirties (jrnl s') = dirties (jrnl s) → (∀ h, logs s' !! h ≠ Some []) → is_u64 (logSize s') →
  wf_db s'.
Proof.
  intros [W1 W2 W3 W4 W5] Ho Ht Hd Hl1 Hl2. split; try done.
  - intros a o. rewrite Ho, Ht. apply W1.
  - intros a d. rewrite Ht. apply W2.
  - intros a n. rewrite Hd. apply W3.
Qed.

Lemma safe_AddRefund L g : safe L (AddRefund g).
Proof.
  intros s r s' Hwf _ [= _ <-].
  apply (ext_field s _ (refundChange (refund s))); try done; [apply (wf_fields s); try done; apply Hwf|].
  intros t Ht He. exists (set_refund (refund s) t). split_and!; [done|done| |].
  - apply (wf_fields t); try done; apply Ht.
  - destruct He. by split.
Qed.
Lemma safe_SubRefund L g : safe L (SubRefund g).
Proof.
  intros s r s' Hwf _ Hrun. unfold SubRefund, mbind, M_bind, get, append, modify in Hrun.
  simpl in Hrun. destruct (refund s <? g); [done|]. injection Hrun as _ <-.
  apply (ext_field s _ (refundChange (refund s))); try done; [apply (wf_fields s); try done; apply Hwf|].
  intros t Ht He. exists (set_refund (refund s) t). split_and!; [done|done| |].
  - apply (wf_fields t); try done; apply Ht.
  - destruct He. by split.
Qed.

Lemma safe_AddPreimage L h b : safe L (AddPreimage h b).
Proof.
  intros s r s' Hwf _ Hrun. unfold AddPreimage, mbind, M_bind, get, append, modify in Hrun.
  simpl in Hrun. destruct (preimages s !! h) eqn:E.
  { injection Hrun as _ <-. by apply ext_refl. }
  injection Hrun as _ <-.
  apply (ext_field s _ (addPreimageChange h)); try done; [apply (wf_fields s); try done; apply Hwf|].
  intros t Ht He. eexists. split; [done|]. split_and!; [done| |].
  - apply (wf_fields t); try done; apply Ht.
  - destruct He as [? ? Hv ? ? ? Hp ?]. split; try done. simpl in *. rewrite Hp.
    by apply delete_insert_id.
Qed.

Lemma logSize_back n : is_u64 n → u64 (u64 (n + 1) - 1) = n.
Proof.
  intros Hn. unfold u64. rewrite Zminus_mod_idemp_l. replace (n + 1 - 1) with n by lia.
  by apply u64_id.
Qed.

Lemma safe_AddLog L l : safe L (AddLog l).
Proof.
  intros s r s' Hwf _ [= _ <-]. set (ls := default [] (logs s !! thash s)).
  set (l' := mkLog _ _ _ _ _ _ _ _).
  assert (Hlogs : ∀ m : gmap Hash (list Log), (∀ h, m !! h ≠ Some []) → ∀ x x',
    <[x := ls ++ [l']]> m !! x' ≠ Some []).
  { intros m Hm x x'. rewrite lookup_insert. case_decide; [|apply Hm]. by destruct ls. }
  apply (ext_field s _ (addLogChange (thash s))); try done.
  { apply (wf_fields s); try done; [apply Hlogs, Hwf|apply u64_range]. }
  intros t Ht He. assert (Ht' : logs t = <[thash s := ls ++ [l']]> (logs s) ∧
    logSize t = u64 (logSize s + 1)) by apply (se_logs _ _ He). destruct Ht' as [Hl Hn].
  cbn [revert]. unfold mbind, M_bind, get. simpl. rewrite Hl, lookup_insert_eq. simpl.
  rewrite length_app. simpl. destruct (Nat.eqb_spec (length ls + 1) 0); [lia|].
  eexists. split; [done|]. split; [done|].
  replace (if (length ls + 1 =? 1)%nat then _ else _) with (logs s); cycle 1.
  { subst ls. destruct (logs s !! thash s) as [ls|] eqn:E; simpl.
    - destruct (Nat.eqb_spec (length ls + 1) 1).
      { destruct ls; [|simpl in *; lia]. by apply (wd_logs s Hwf) in E. }
      rewrite Nat.add_sub, take_app_length, insert_insert_eq. by rewrite insert_id.
    - by rewrite delete_insert_id. }
  rewrite Hn, logSize_back by apply Hwf. split.
  - apply (wf_fields t); try done; apply Hwf.
  - destruct He as [? ? Hv ? ? ? ? ?]. by split.
Qed.

Lemma safe_Snapshot L : safe L Snapshot.
Proof.
  intros s id s' Hwf _ [= _ <-]. split.
  - apply (wf_fields s); try done; apply Hwf.
  - exists []. split; [done|]. intros t Ht He. exists t. split_and!; [done|done|].
    destruct He. by split.
  - done.
  - intros [H1 H2]. split; [|by apply prefix_app_r]. split; simpl.
    + intros i j r r' Hi Hj Hij. apply lookup_app_Some in Hj as [Hj|[Hlen Hj]].
      * apply (H1 i j); try done. rewrite lookup_app_l in Hi; [done|].
        apply lookup_lt_Some in Hj. lia.
      * apply list_lookup_singleton_Some in Hj as [Hz <-]. rewrite lookup_app_l in Hi by lia.
        apply H2. by eapply list_elem_of_lookup_2.
    + intros r Hin. apply elem_of_app in Hin as [Hr|Hr]; [specialize (H2 r Hr); lia|].
      apply list_elem_of_singleton in Hr as ->. simpl. lia.
Qed.

(** ** Whole operations *)

Lemma safe_CreateAccount L a : safe L (CreateAccount a).
Proof.
  intros s r s' Hwf _ Hrun. destruct (CreateAccount_spec s a Hwf) as (s1 & o & Hr & He & _).
  rewrite Hrun in Hr. by injection Hr as _ <-.
Qed.

Lemma safe_obj_AddTimeLockBalance L a h z ts :
  a ∈ L → wfTL z → safe L (obj_AddTimeLockBalance a h z ts).
Proof.
  intros Ha Hz. unfold obj_AddTimeLockBalance. destruct (IsEmpty z) eqn:Ez.
  { apply safe_bind; [apply safe_deref|]. intros o. destruct (empty o); [apply safe_touch|apply safe_ret]. }
  intros s r s' Hwf HL (bal & s1 & Hread & Hrun)%bind_Done.
  destruct (run_live s a _ _ (HL a Ha) Hread) as [o Hl].
  destruct (read_step s a o _ _ _ _ (obj_TimeLockBalance_updates a h) Hwf Hl Hread)
    as (o1 & Hp & Hs1 & He1 & Hl1 & Hw1 & Hv1).
  destruct (so_tl_Some o h) as (p & Ep & Hpw); [by apply (live_good s a o)|].
  simpl in Hp. rewrite Ep in Hp. subst bal.
  destruct (TimeLock_Add_ok DebugMode p z Hpw Hz) as (w & Hw & Hww & _).
  { right. unfold IsEmpty in Ez. by destruct (Items z). }
  apply bind_Done in Hrun as (w' & s2 & Hlift & Hrun). unfold lift in Hlift. rewrite Hw in Hlift.
  injection Hlift as <- <-. apply (ext_trans _ _ _ He1).
  apply (safe_obj_SetTimeLockBalance (a :: L) a h (ClearExpired w ts)) in Hrun; [done|set_solver| |done|].
  - by apply ClearExpired_ok.
  - intros a' [->|Ha']%elem_of_cons; apply (ext_obj _ _ He1), HL; done.
Qed.

Lemma safe_obj_SubTimeLockBalance L a h z ts :
  a ∈ L → wfTL z → safe L (obj_SubTimeLockBalance a h z ts).
Proof.
  intros Ha Hz. unfold obj_SubTimeLockBalance. destruct (IsEmpty z) eqn:Ez; [apply safe_ret|].
  intros s r s' Hwf HL (bal & s1 & Hread & Hrun)%bind_Done.
  destruct (run_live s a _ _ (HL a Ha) Hread) as [o Hl].
  destruct (read_step s a o _ _ _ _ (obj_TimeLockBalance_updates a h) Hwf Hl Hread)
    as (o1 & Hp & Hs1 & He1 & Hl1 & Hw1 & Hv1).
  destruct (so_tl_Some o h) as (p & Ep & Hpw); [by apply (live_good s a o)|].
  simpl in Hp. rewrite Ep in Hp. subst bal.
  apply bind_Done in Hrun as (p' & s2 & [= <- <-] & Hrun).
  apply bind_Done in Hrun as (w & s2 & Hlift & Hrun). unfold lift in Hlift.
  destruct (TimeLock_Sub DebugMode p (Some z)) as [w'| |] eqn:Es; [|done..].
  injection Hlift as <- <-. apply (ext_trans _ _ _ He1).
  apply (safe_obj_SetTimeLockBalance (a :: L) a h (ClearExpired w' ts)) in Hrun; [done|set_solver| |done|].
  - apply ClearExpired_ok. by apply (TimeLock_Sub_wf DebugMode p z).
  - intros a' [->|Ha']%elem_of_cons; apply (ext_obj _ _ He1), HL; done.
Qed.
End revert.
