(* ===== verification/StateInterface.v ===== *)
(** * The state interface and its clients (core/vm/interface.go)

    [vm.StateDB] is the interface through which the EVM and the Fusion calls
    work on the state. [iface] has its methods, [perform] runs them on the state
    database, and [prog] are the programs that use nothing else; [Try] is the
    pattern of core/vm/evm.go: take a snapshot, run, revert on failure. Every
    such program can be reverted as a whole. *)

From stdpp Require Import base list gmap strings.
From Stdlib Require Import ZArith Lia.
From S2P Require Import Prelude Bytes Keccak KeccakFacts TimeLock TimeLockFacts Ticket FsnTypes.
From S2P Require Import Rlp RlpFacts Codec StateDB StateRecords StateFacts StateRevert.

(** The methods. [Suicide] is left out: [Suicide_revert] below shows why. *)
Inductive iface : Type → Type :=
| ICreateAccount (addr : Address) : iface unit
| ISubBalance (addr : Address) (assetID : Hash) (amount : Z) : iface unit
| IAddBalance (addr : Address) (assetID : Hash) (amount : Z) : iface unit
| IGetBalance (assetID : Hash) (addr : Address) : iface (option Z)
| ISubTimeLockBalance (addr : Address) (assetID : Hash) (amount : TimeLock) (timestamp : Z) : iface unit
| IAddTimeLockBalance (addr : Address) (assetID : Hash) (amount : TimeLock) (timestamp : Z) : iface unit
| IGetTimeLockBalance (assetID : Hash) (addr : Address) : iface (option TimeLock)
| ITransferNotation (notation : Z) (from to : Address) : iface (option error)
| IGetNonce (addr : Address) : iface Z
| ISetNonce (addr : Address) (nonce : Z) : iface unit
| IGetCodeHash (addr : Address) : iface Hash
| IGetCode (addr : Address) : iface (option bytes)
| ISetCode (addr : Address) (b : bytes) : iface unit
| IGetCodeSize (addr : Address) : iface Z
| IAddRefund (gas : Z) : iface unit
| ISubRefund (gas : Z) : iface unit
| IGetRefund : iface Z
| IGetCommittedState (addr : Address) (key : Hash) : iface Hash
| IGetState (addr : Address) (key : Hash) : iface Hash
| ISetState (addr : Address) (key value : Hash) : iface unit
| IHasSuicided (addr : Address) : iface bool
| IExist (addr : Address) : iface bool
| IEmpty (addr : Address) : iface bool
| IAddLog (log : Log) : iface unit
| IAddPreimage (hash : Hash) (preimage : bytes) : iface unit
| IGenNotation (addr : Address) : iface (option error)
| IGetNotation (addr : Address) : iface Z
| IGenAsset (asset : Asset) : iface (option error)
| IUpdateAsset (asset : Asset) : iface (option error)
| IAllTickets : iface (TicketsDataSlice + error)
| IAddTicket (ticket : Ticket) : iface (option error)
| IRemoveTicket (id : Hash) : iface (option error)
| IGetTicket (id : Hash) : iface (Ticket + error)
| IIsTicketExist (id : Hash) : iface bool
| IAddSwap (swap : Swap) : iface (option error)
| IUpdateSwap (swap : Swap) : iface (option error)
| IRemoveSwap (id : Hash) : iface (option error)
| IGetSwap (swapID : Hash) : iface (Swap + error)
| IGetAsset (assetID : Hash) : iface (Asset + error)
| IAddMultiSwap (swap : MultiSwap) : iface (option error)
| IUpdateMultiSwap (swap : MultiSwap) : iface (option error)
| IRemoveMultiSwap (id : Hash) : iface (option error)
| IGetMultiSwap (swapID : Hash) : iface (MultiSwap + error).

(** A client of the interface. *)
Inductive prog (A : Type) : Type :=
| Ret (a : A)
| Op {B : Type} (op : iface B) (k : B → prog A)
| Try {B : Type} (body : prog B) (ok : B → bool) (k : B → prog A).
Arguments Ret {A} _.
Arguments Op {A B} _ _.
Arguments Try {A B} _ _ _.

(** The time locks a client passes are valid. *)
Definition iface_ok {A} (op : iface A) : Prop :=
  match op with
  | ISubTimeLockBalance _ _ z _ | IAddTimeLockBalance _ _ z _ => wfTL z
  | _ => True
  end.

Fixpoint prog_ok {A} (p : prog A) : Prop :=
  match p with
  | Ret _ => True
  | Op op k => iface_ok op ∧ ∀ b, prog_ok (k b)
  | Try body ok k => prog_ok body ∧ ∀ b, prog_ok (k b)
  end.

Section interface.
Context `{SP : StateParams}.

Definition perform {A} (op : iface A) : M A :=
  match op with
  | ICreateAccount a => CreateAccount a
  | ISubBalance a h v => SubBalance a h v
  | IAddBalance a h v => AddBalance a h v
  | IGetBalance h a => GetBalance h a
  | ISubTimeLockBalance a h z ts => SubTimeLockBalance a h z ts
  | IAddTimeLockBalance a h z ts => AddTimeLockBalance a h z ts
  | IGetTimeLockBalance h a => GetTimeLockBalance h a
  | ITransferNotation n from to => TransferNotation n from to
  | IGetNonce a => GetNonce a
  | ISetNonce a n => SetNonce a n
  | IGetCodeHash a => GetCodeHash a
  | IGetCode a => GetCode a
  | ISetCode a b => SetCode a b
  | IGetCodeSize a => GetCodeSize a
  | IAddRefund g => AddRefund g
  | ISubRefund g => SubRefund g
  | IGetRefund => GetRefund
  | IGetCommittedState a k => GetCommittedState a k
  | IGetState a k => GetState a k
  | ISetState a k v => SetState a k v
  | IHasSuicided a => HasSuicided a
  | IExist a => Exist a
  | IEmpty a => Empty a
  | IAddLog l => AddLog l
  | IAddPreimage h b => AddPreimage h b
  | IGenNotation a => GenNotation a
  | IGetNotation a => GetNotation a
  | IGenAsset x => GenAsset x
  | IUpdateAsset x => UpdateAsset x
  | IAllTickets => AllTickets
  | IAddTicket t => db_AddTicket t
  | IRemoveTicket id => db_RemoveTicket id
  | IGetTicket id => GetTicket id
  | IIsTicketExist id => IsTicketExist id
  | IAddSwap x => AddSwap x
  | IUpdateSwap x => UpdateSwap x
  | IRemoveSwap id => RemoveSwap id
  | IGetSwap id => GetSwap id
  | IGetAsset id => GetAsset id
  | IAddMultiSwap x => AddMultiSwap x
  | IUpdateMultiSwap x => UpdateMultiSwap x
  | IRemoveMultiSwap id => RemoveMultiSwap id
  | IGetMultiSwap id => GetMultiSwap id
  end.

Fixpoint run {A} (p : prog A) : M A :=
  match p with
  | Ret a => mret a
  | Op op k => b ← perform op; run (k b)
  | Try body ok k =>
      snapshot ← Snapshot;
      b ← run body;
      _ ← (if ok b then mret () else RevertToSnapshot snapshot);
      run (k b)
  end.

(** ** Every method can be reverted *)

Lemma safe_modify L f :
  (∀ s, wf_db s → wf_db (f s) ∧ f s ≡ s ∧ jrnl (f s) = jrnl s ∧ validRevisions (f s) = validRevisions s
        ∧ nextRevisionId (f s) = nextRevisionId s ∧ ∀ a, obj_at (f s) a = obj_at s a) →
  safe L (modify f).
Proof.
  intros Hf s r s' Hwf _ [= _ <-]. destruct (Hf s Hwf) as (Hw & He & Hj & Hr & Hn & Ho).
  split; [done| |by intros a; rewrite Ho|by apply wf_revs_same].
  exists []. rewrite Hj. split; [done|]. intros t Ht Het. exists t. split_and!; [done|done|by rewrite Het].
Qed.

Lemma safe_modify_tickets L f :
  (∀ s, ∃ ts c, f s = set_tickets ts c s) → safe L (modify f).
Proof.
  intros Hf. apply safe_modify. intros s Hwf. destruct (Hf s) as (ts & c & ->). split_and!; try done.
  apply (wf_fields s); try done; apply Hwf.
Qed.

Lemma safe_setError L e : safe L (setError e).
Proof.
  apply safe_modify. intros s Hwf. destruct (dbErr s); [by split_and!|]. split_and!; try done.
  apply (wf_fields s); try done; apply Hwf.
Qed.
End interface.

Create HintDb safe discriminated.
#[export] Hint Constants Opaque : safe.
#[export] Hint Resolve safe_ret safe_panic safe_gets safe_get safe_lift safe_deref safe_obj_Code
  safe_obj_Balance safe_obj_TimeLockBalance safe_obj_GetState safe_obj_GetCommittedState
  safe_obj_SetNonce safe_obj_SetNotation safe_obj_SetState safe_obj_SetBalance safe_obj_SetCode
  safe_touch safe_CreateAccount safe_obj_AddTimeLockBalance safe_obj_SubTimeLockBalance
  safe_AddRefund safe_SubRefund safe_AddPreimage safe_AddLog safe_Snapshot safe_setError : safe.
#[export] Hint Resolve list_elem_of_here list_elem_of_further : safe.
#[export] Hint Extern 1 (safe _ (modify _)) => (apply safe_modify_tickets; by eauto) : safe.

(** Walks through a program with the rules of [safe]. *)
Ltac safe_step :=
  lazymatch goal with
  | |- safe _ (getStateObject _ ≫= _) => apply safe_getStateObject
  | |- safe _ (GetOrNewStateObject _ ≫= _) => apply safe_GetOrNewStateObject
  | |- safe _ (with_object _ _ _) => apply safe_with_object
  | |- safe _ (_ ≫= _) => apply safe_bind; [|intros ?]
  | |- safe _ (match ?x with _ => _ end) => destruct x
  | |- safe _ _ => solve [eauto with safe]
  end.
Ltac solve_safe := repeat safe_step.

Section methods.
Context `{SP : StateParams}.

Lemma safe_getStateObject_only L a : safe L (getStateObject a).
Proof.
  intros s r s' Hwf _ Hrun. destruct (obj_at s a) as [p|] eqn:E.
  - rewrite (getStateObject_found s a p E) in Hrun. injection Hrun as _ <-. by apply ext_load.
  - rewrite (getStateObject_missing s a E) in Hrun. injection Hrun as _ <-. by apply ext_refl.
Qed.

Lemma safe_obj_AddBalance L a h v : a ∈ L → safe L (obj_AddBalance a h v).
Proof. intros. unfold obj_AddBalance, non_nil. solve_safe. Qed.
Lemma safe_obj_SubBalance L a h v : a ∈ L → safe L (obj_SubBalance a h v).
Proof. intros. unfold obj_SubBalance, non_nil. solve_safe. Qed.

Lemma safe_GetStructData L a k : safe L (GetStructData a k).
Proof.
  unfold GetStructData. safe_step. safe_step; [solve_safe|]. cbv zeta.
  destruct (_ <? 0); [solve_safe|]. generalize (replicate (Z.to_nat (BytesToInt (take 4 (Hash_Bytes a0)))) 0).
  generalize (Z.to_nat (BytesToInt (take 4 (drop 16 (Hash_Bytes a0))))) at 1. generalize 0 at 1.
  generalize (BytesToInt (take 4 (Hash_Bytes a0))). intros size i n.
  revert i. induction n as [|n IH]; intros i d; cbn [GetStructData_loop]; [solve_safe|].
  safe_step; [solve_safe|]. cbv zeta. safe_step; [solve_safe|apply IH].
Qed.

Lemma safe_SetStructData L a k v : safe L (SetStructData a k v).
Proof.
  unfold SetStructData. safe_step. cbv zeta. safe_step; [solve_safe|]. safe_step; [|solve_safe].
  generalize (Z.to_nat (if Z.of_nat (length v) mod 32 =? 0 then Z.of_nat (length v) / 32
                        else Z.of_nat (length v) / 32 + 1)). generalize 0. intros i n.
  revert i. induction n as [|n IH]; intros i; cbn [SetStructData_loop]; [solve_safe|].
  safe_step; [solve_safe|apply IH].
Qed.

Lemma safe_GetRecord A `{!Rlp A} L a k : safe L (GetRecord A a k).
Proof. apply safe_bind; [apply safe_GetStructData|]. intros. solve_safe. Qed.
Lemma safe_SetRecord {A} `{!Rlp A} L a k (x : A) : safe L (SetRecord a k x).
Proof.
  unfold SetRecord. destruct (Marshal x); [|solve_safe].
  apply safe_bind; [apply safe_SetStructData|]. intros. solve_safe.
Qed.
End methods.
#[export] Hint Resolve safe_getStateObject_only safe_obj_AddBalance safe_obj_SubBalance
  safe_GetRecord safe_SetRecord : safe.

Section revert_all.
Context `{SP : StateParams}.

Lemma safe_AllTickets L : safe L AllTickets.
Proof. unfold AllTickets, GetData. solve_safe. Qed.
#[local] Hint Resolve safe_AllTickets : safe.

Lemma safe_GetAddressByNotation L n : safe L (GetAddressByNotation n).
Proof. unfold GetAddressByNotation. solve_safe. Qed.
Lemma safe_GetNotation L a : safe L (GetNotation a).
Proof. unfold GetNotation. solve_safe. Qed.
Lemma safe_getNotationCount L : safe L getNotationCount.
Proof. unfold getNotationCount. solve_safe. Qed.
Lemma safe_setNotationToAddressLookup L n a : safe L (setNotationToAddressLookup n a).
Proof. unfold setNotationToAddressLookup. solve_safe. Qed.
Lemma safe_setNotationCount L n : safe L (setNotationCount n).
Proof. unfold setNotationCount. solve_safe. Qed.
Lemma safe_GetAsset L h : safe L (GetAsset h).
Proof. unfold GetAsset. solve_safe. Qed.
Lemma safe_GetSwap L h : safe L (GetSwap h).
Proof. unfold GetSwap. solve_safe. Qed.
Lemma safe_GetMultiSwap L h : safe L (GetMultiSwap h).
Proof. unfold GetMultiSwap. solve_safe. Qed.
#[local] Hint Resolve safe_GetAddressByNotation safe_GetNotation safe_getNotationCount
  safe_setNotationToAddressLookup safe_setNotationCount safe_GetAsset safe_GetSwap
  safe_GetMultiSwap : safe.

Lemma safe_GenNotation L a : safe L (GenNotation a).
Proof. unfold GenNotation. solve_safe. Qed.
Lemma safe_TransferNotation L n from to : safe L (TransferNotation n from to).
Proof. unfold TransferNotation. solve_safe. Qed.
#[local] Hint Resolve safe_GenNotation safe_TransferNotation : safe.

Lemma safe_perform {A} L (op : iface A) : iface_ok op → safe L (perform op).
Proof.
  destruct op; intros Hok; cbn [perform];
    unfold SubBalance, AddBalance, GetBalance, SubTimeLockBalance, AddTimeLockBalance,
      GetTimeLockBalance, GetNonce, SetNonce, GetCodeHash, GetCode, SetCode, GetCodeSize,
      GetRefund, GetCommittedState, GetState, SetState, HasSuicided, Exist, Empty, GenAsset,
      UpdateAsset, db_AddTicket, db_RemoveTicket, GetTicket, IsTicketExist, AddSwap, UpdateSwap,
      RemoveSwap, AddMultiSwap, UpdateMultiSwap, RemoveMultiSwap; solve_safe.
Qed.

(** ** RevertToSnapshot *)

(** What [revert] leaves alone. *)
Definition keeps {A} (m : M A) : Prop :=
  ∀ s r s', m s = Done (r, s') →
    entries (jrnl s') = entries (jrnl s) ∧ validRevisions s' = validRevisions s ∧
    nextRevisionId s' = nextRevisionId s ∧ tickets s' = tickets s ∧ cached s' = cached s.

Lemma keeps_bind {A B} (m : M A) (k : A → M B) : keeps m → (∀ a, keeps (k a)) → keeps (m ≫= k).
Proof.
  intros Hm Hk s r s' (a & s1 & H1 & H2)%bind_Done.
  destruct (Hm _ _ _ H1) as (? & ? & ? & ? & ?), (Hk _ _ _ _ H2) as (? & ? & ? & ? & ?). split_and!; congruence.
Qed.
Lemma keeps_ret {A} (a : A) : keeps (mret a).
Proof. by intros s r s' [= _ <-]. Qed.
Lemma keeps_panic {A} w : keeps (panic w : M A).
Proof. by intros s r s' [=]. Qed.
Lemma keeps_get : keeps get.
Proof. by intros s r s' [= _ <-]. Qed.
Lemma keeps_deref a : keeps (deref a).
Proof. intros s r s'. unfold deref. destruct (stateObjects s !! a); [|done]. by intros [= _ <-]. Qed.
Lemma keeps_modify f :
  (∀ s, entries (jrnl (f s)) = entries (jrnl s) ∧ validRevisions (f s) = validRevisions s ∧
        nextRevisionId (f s) = nextRevisionId s ∧ tickets (f s) = tickets s ∧ cached (f s) = cached s) →
  keeps (modify f).
Proof. intros Hf s r s' [= _ <-]. apply Hf. Qed.
Lemma keeps_getStateObject a : keeps (getStateObject a).
Proof.
  intros s r s' Hrun. destruct (obj_at s a) as [p|] eqn:E.
  - rewrite (getStateObject_found s a p E) in Hrun. by injection Hrun as _ <-.
  - rewrite (getStateObject_missing s a E) in Hrun. by injection Hrun as _ <-.
Qed.

Ltac solve_keeps :=
  repeat lazymatch goal with
  | |- keeps (_ ≫= _) => apply keeps_bind; [|intros ?]
  | |- keeps (mret _) => apply keeps_ret
  | |- keeps (panic _) => apply keeps_panic
  | |- keeps get => apply keeps_get
  | |- keeps (deref _) => apply keeps_deref
  | |- keeps (modify _) => by apply keeps_modify
  | |- keeps (store _ _) => by apply keeps_modify
  | |- keeps (getStateObject _) => apply keeps_getStateObject
  | |- keeps (match ?x with _ => _ end) => destruct x
  end.

Lemma keeps_journal_revert es : keeps (journal_revert es).
Proof.
  induction es as [|e es IH]; cbn [journal_revert]; [solve_keeps|].
  apply keeps_bind; [|intros _; apply keeps_bind; [by apply keeps_modify|done]].
  destruct e; cbn [revert]; unfold getLive, setStateObject, modify_obj, obj_setBalance,
    obj_setTimeLockBalance; solve_keeps.
Qed.

(** The index of a revision that is still valid. *)
Lemma Search_revision s pre r post :
  wf_revs s → validRevisions s = pre ++ r :: post →
  Search (length (validRevisions s))
    (fun i => match validRevisions s !! i with Some x => rev_id r <=? rev_id x | None => true end)
  = length pre.
Proof.
  intros [Hs _] E. assert (Hr : validRevisions s !! length pre = Some r).
  { by rewrite E, list_lookup_middle. }
  apply Search_spec.
  - rewrite E, length_app. lia.
  - intros i Hi. destruct (validRevisions s !! i) as [x|] eqn:Ex.
    + apply Z.leb_gt. by apply (Hs i (length pre)).
    + apply lookup_ge_None in Ex. rewrite E, length_app in Ex. lia.
  - intros i [Hi _]. destruct (validRevisions s !! i) as [x|] eqn:Ex; [|done]. apply Z.leb_le.
    destruct (decide (i = length pre)) as [->|]; [rewrite Hr in Ex; injection Ex as ->; lia|].
    apply Z.lt_le_incl. apply (Hs (length pre) i); [done|done|lia].
Qed.

(** What is left to show of a revert: that the entries since the snapshot are undone. *)
Lemma RevertToSnapshot_run s s2 t es post :
  wf_revs s2 → entries (jrnl s2) = es ++ entries (jrnl s) →
  validRevisions s2 = validRevisions s ++ mkRevision (nextRevisionId s) (journal_length (jrnl s)) :: post →
  journal_revert es s2 = Done (tt, t) →
  RevertToSnapshot (nextRevisionId s) s2 =
    Done (tt, set_revisions (validRevisions s) (nextRevisionId s2)
                (set_jrnl (mkJournal (entries (jrnl s)) (dirties (jrnl t))) t)).
Proof.
  intros Hrv2 Hes Hvr Hrun. destruct (keeps_journal_revert _ _ _ _ Hrun) as (Kj & Kr & Kn & _).
  unfold RevertToSnapshot, mbind, M_bind, get. simpl.
  pose proof (Search_revision s2 _ _ _ Hrv2 Hvr) as HS. cbn [rev_id] in HS. rewrite HS.
  rewrite Hvr, list_lookup_middle by done. simpl. rewrite Z.eqb_refl. simpl.
  assert (Hlen : (journal_length (jrnl s2) - journal_length (jrnl s) = length es)%nat).
  { unfold journal_length. rewrite Hes, length_app. simpl. lia. }
  rewrite Hlen, Hes, take_app_length, Hrun. simpl.
  unfold journal_length in *. rewrite Kj, Hlen, Hes, drop_app_length. simpl. unfold modify.
  cbn [validRevisions nextRevisionId set_jrnl]. by rewrite Kr, Kn, Hvr, take_app_length.
Qed.

Lemma RevertToSnapshot_ext s s1 s2 id :
  wf_db s → wf_revs s → Snapshot s = Done (id, s1) → ext s1 s2 →
  ∃ s3, RevertToSnapshot id s2 = Done (tt, s3) ∧ wf_db s3 ∧ s3 ≡ s ∧
    entries (jrnl s3) = entries (jrnl s) ∧ validRevisions s3 = validRevisions s ∧
    nextRevisionId s3 = nextRevisionId s2 ∧ tickets s3 = tickets s2 ∧ cached s3 = cached s2.
Proof.
  intros Hwf Hrv Hsnap He. pose proof (safe_Snapshot [] s id s1 Hwf) as Hs1.
  specialize (Hs1 ltac:(set_solver) Hsnap). injection Hsnap as <- <-. set (s1 := set_revisions _ _ s) in *.
  destruct (ext_revs _ _ Hs1 Hrv) as [Hrv1 _]. destruct (ext_revs _ _ He Hrv1) as [Hrv2 [post Hpost]].
  destruct (ext_undo _ _ He) as (es & Hes & Hund).
  destruct (Hund s2 (ext_wf _ _ He) (reflexivity s2)) as (t & Hrun & Hwt & Het).
  destruct (keeps_journal_revert _ _ _ _ Hrun) as (_ & _ & _ & Kt & Kc).
  assert (Hvr : validRevisions s2
    = validRevisions s ++ mkRevision (nextRevisionId s) (journal_length (jrnl s)) :: post).
  { rewrite Hpost. unfold s1. simpl. by rewrite <- app_assoc. }
  rewrite (RevertToSnapshot_run s s2 t es post Hrv2 Hes Hvr Hrun). eexists. split; [done|].
  split_and!; simpl; try done; [|by destruct Het; split]. apply (wf_fields t); try done; apply Hwt.
Qed.

(** A reverted attempt leaves nothing behind. *)
Lemma ext_reverted s s2 s3 :
  wf_db s3 → s3 ≡ s → entries (jrnl s3) = entries (jrnl s) → validRevisions s3 = validRevisions s →
  nextRevisionId s3 = nextRevisionId s2 → (wf_revs s → wf_revs s2 ∧
  validRevisions s `prefix_of` validRevisions s2) → ext s s3.
Proof.
  intros Hw He Hj Hr Hn Hrv. split; [done| | |].
  - exists []. split; [done|]. intros t Ht Het. exists t. split_and!; [done|done|by rewrite Het].
  - intros a [p Hp]. destruct (equiv_obj_at s s3 a p He Hp) as (q & -> & _). by eexists.
  - intros Hs. destruct (Hrv Hs) as [[_ Hs2] [post Hpost]]. rewrite Hr. split; [|done].
    split; rewrite ?Hr; [apply Hs|]. intros r Hin. rewrite Hn. apply Hs2. rewrite Hpost. set_solver.
Qed.

Lemma run_ext {A} (p : prog A) :
  prog_ok p → ∀ s r s', wf_db s → wf_revs s → run p s = Done (r, s') → ext s s'.
Proof.
  induction p as [A a|A B op k IH|A B body IHb ok k IHk]; cbn [prog_ok run]; intros Hok s r s' Hwf Hrv.
  - intros [= _ <-]. by apply ext_refl.
  - intros (b & s1 & H1 & H2)%bind_Done. destruct Hok as [Hop Hk].
    assert (He : ext s s1) by (apply (safe_perform [] op Hop s b s1); [done|set_solver|done]).
    apply (ext_trans _ _ _ He). apply (IH b (Hk b) s1 r s' (ext_wf _ _ He)); [|done].
    by apply (ext_revs _ _ He).
  - intros (id & s1 & H1 & (b & s2 & H2 & (u & s3 & H3 & H4)%bind_Done)%bind_Done)%bind_Done.
    destruct Hok as [Hb Hk].
    assert (He1 : ext s s1) by (apply (safe_Snapshot [] s id s1); [done|set_solver|done]).
    destruct (ext_revs _ _ He1 Hrv) as [Hrv1 _].
    pose proof (IHb Hb _ _ _ (ext_wf _ _ He1) Hrv1 H2) as He2.
    pose proof (ext_trans _ _ _ He1 He2) as He12.
    assert (He3 : ext s s3).
    { destruct (ok b). { by injection H3 as _ <-. }
      destruct (RevertToSnapshot_ext s s1 s2 id Hwf Hrv H1 He2) as (s3' & Hr & Hw & He & Hj & Hv & Hn & _).
      rewrite H3 in Hr. injection Hr as _ <-. apply (ext_reverted s s2 s3); try done.
      apply (ext_revs _ _ He12). }
    apply (ext_trans _ _ _ He3). apply (IHk b (Hk b) s3 r s' (ext_wf _ _ He3)); [|done].
    by apply (ext_revs _ _ He3).
Qed.
End revert_all.

(** ** Properties *)

(** C8: reverting to a snapshot undoes what a client of the state interface did since,
    nested snapshots and failed attempts included, but for [Suicide], which is no
    operation of such a client. Every account has the balances, time locks, nonce,
    notation, code and storage that it had, and the refund counter, the logs, the
    preimages, the dirty counters but that of the ripemd contract, the journal and
    the valid revisions are what they were. Tickets are not given back: after the
    revert the list of tickets and the cache are as the client left them. Nor are
    the error of the database and the entries of zero that reading a balance leaves
    in an account, which [Empty] counts. *)
Theorem snapshot_revert `{SP : StateParams} {A} (p : prog A) (s s1 s2 : StateDB) (id : Z) (r : A) :
  prog_ok p → wf_db s → wf_revs s → Snapshot s = Done (id, s1) → run p s1 = Done (r, s2) →
  ∃ s3, RevertToSnapshot id s2 = Done (tt, s3) ∧ wf_db s3 ∧ s3 ≡ s ∧
    entries (jrnl s3) = entries (jrnl s) ∧ validRevisions s3 = validRevisions s ∧
    tickets s3 = tickets s2 ∧ cached s3 = cached s2.
Proof.
  intros Hok Hwf Hrv Hsnap Hrun.
  assert (He1 : ext s s1) by (apply (safe_Snapshot [] s id s1); [done|set_solver|done]).
  destruct (ext_revs _ _ He1 Hrv) as [Hrv1 _].
  pose proof (run_ext p Hok _ _ _ (ext_wf _ _ He1) Hrv1 Hrun) as He.
  destruct (RevertToSnapshot_ext s s1 s2 id Hwf Hrv Hsnap He) as (s3 & H1 & H2 & H3 & H4 & H5 & _ & H6 & H7).
  by exists s3.
Qed.

(** An account that is created again, as a contract creation does at an
    address that holds funds, keeps its balances and time locks and nothing
    else, and no other account changes. *)
Theorem create_account_carries_funds `{SP : StateParams} (s : StateDB) (a : Address) :
  wf_db s → ∃ s1, CreateAccount a s = Done (tt, s1) ∧ wf_db s1 ∧
    sview s1 a ≡ Some (vcarry (default emptyView (sview s a))) ∧
    ∀ a', a' ≠ a → sview s1 a' = sview s a'.
Proof.
  intros Hwf. destruct (CreateAccount_spec s a Hwf) as (s1 & o & Hr & He & Hl & Hv & Hs1).
  exists s1. pose proof (live_good _ _ _ (ext_wf _ _ He) Hl) as (_ & _ & Hd).
  assert (Hsv : ∀ a', sview s1 a' = sview (put a o s) a') by (rewrite Hs1; done).
  split_and!; [done|apply He| |].
  - rewrite Hsv, put_view, Z.eqb_refl by done. by constructor.
  - intros a' Ha'. rewrite Hsv, put_view by done. by destruct (Z.eqb_spec a a').
Qed.

(** ** Examples *)

(** An instance of the parameters; the compression is the identity. *)
#[export] Instance ex_params : StateParams := {|
  DebugMode := true;
  trie_Hash t := Z.of_nat (size t);
  gzip b := b;
  gunzip b := Some b;
|}.

Definition ex_state : StateDB :=
  mkStateDB (mkDatabase ∅ ∅) ∅ ∅ ∅ None 0 7 8 1 ∅ 0 ∅ newJournal [] 0 0 [] emptyTicketCache.

Lemma wf_ex_state : wf_db ex_state ∧ wf_revs ex_state.
Proof. split; split; simpl; try done; set_solver. Qed.

Definition ex_prog : prog Z :=
  Op (IAddBalance 5 SystemAssetID 100) (fun _ =>
  Op (IAddTimeLockBalance 5 SystemAssetID (mkTimeLock [mkItem 10 20 3]) 0) (fun _ =>
  Op (ISetNonce 5 1) (fun _ =>
  Try (Op (ISubBalance 5 SystemAssetID 30) (fun _ => Op (ISetState 6 1 2) (fun _ =>
       Op (IAddLog (mkLog 5 [1] [2] 0 0 0 0 0)) (fun _ => Ret false)))) id (fun _ =>
  Op (IAddRefund 9) (fun _ => Op (ICreateAccount 5) (fun _ =>
  Op (IAddPreimage 11 [1; 2; 3]) (fun _ =>
  Op (IGetBalance SystemAssetID 5) (fun b => Ret (default 0 b))))))))).

Lemma ex_prog_returns :
  match Snapshot ex_state with
  | Done (0, s1) => match run ex_prog s1 with Done (100, _) => True | _ => False end
  | _ => False
  end.
Proof. vm_compute. exact I. Qed.

Lemma snapshot_revert_witness :
  ∃ s1 s2 s3, Snapshot ex_state = Done (0, s1) ∧ run ex_prog s1 = Done (100, s2) ∧
    RevertToSnapshot 0 s2 = Done (tt, s3) ∧ s3 ≡ ex_state.
Proof.
  pose proof ex_prog_returns as H. destruct (Snapshot ex_state) as [[[| |] s1]| |] eqn:E1; try done.
  destruct (run ex_prog s1) as [[r s2]| |] eqn:E2; try done.
  assert (r = 100) as -> by (repeat case_match; done).
  exists s1.
  destruct (snapshot_revert ex_prog ex_state s1 s2 0 100) as (s3 & H1 & H2 & H3 & _);
    [repeat split; done|by apply wf_ex_state..|done|done|].
  by exists s2, s3.
Defined.

Lemma create_account_carries_funds_witness :
  ∃ s1, CreateAccount 5 ex_state = Done (tt, s1) ∧ wf_db s1 ∧
    sview s1 5 ≡ Some (vcarry (default emptyView (sview ex_state 5))) ∧
    ∀ a', a' ≠ 5 → sview s1 a' = sview ex_state a'.
Proof. apply (create_account_carries_funds ex_state 5), wf_ex_state. Defined.

(** What a program returns. *)
Definition result {A} (m : M A) (s : StateDB) : option A :=
  match m s with Done (r, _) => Some r | _ => None end.
