(* ===== verification/StateGaps.v ===== *)
(** * What the state database does not give back (core/state: statedb.go, journal.go)

    Two places where the state interface is no transaction: [Suicide] writes
    entries to the journal that do not undo what it did, and reading a balance
    decides whether an account is empty. The states here may hold nil balances,
    so they are described by [holds] and not by the invariant [wf_db]. *)

From stdpp Require Import base list gmap strings.
From Stdlib Require Import ZArith Lia.
From S2P Require Import Prelude Bytes Keccak TimeLock TimeLockFacts FsnTypes StateDB StateFacts StateRevert StateInterface.

(** ** Lists of keys and values *)

Lemma asset_index_lookup hs i k : NoDup hs → hs !! i = Some k → asset_index k hs = Some i.
Proof.
  intros Hn Hi. destruct (asset_index k hs) as [j|] eqn:E.
  - destruct (asset_index_Some _ _ _ E) as [Hj _]. by rewrite (NoDup_lookup _ _ _ _ Hn Hi Hj).
  - exfalso. apply (asset_index_None _ _ E). by eapply list_elem_of_lookup_2.
Qed.

Lemma asset_index_absent h hs : h ∉ hs → asset_index h hs = None.
Proof.
  intros Hn. destruct (asset_index h hs) as [i|] eqn:E; [|done].
  destruct (asset_index_Some _ _ _ E) as [Hi _]. destruct Hn. by eapply list_elem_of_lookup_2.
Qed.

(** Writing all pairs, the first one last. *)
Definition upd_all {A} (kvs : list (Hash * option A)) (f : Hash → option A) : Hash → option A :=
  foldr (fun kv f => upd f kv.1 kv.2) f kvs.

Lemma upd_all_assoc {A} hs (vs : list (option A)) f h :
  length hs = length vs → upd_all (zip hs vs) f h = assoc (f h) hs vs h.
Proof.
  revert vs. induction hs as [|k hs IH]; intros [|v vs] Hl; try done. injection Hl as Hl.
  unfold assoc. simpl. unfold upd at 1. fold (upd_all (zip hs vs) f).
  destruct (k =? h); [done|]. rewrite (IH vs Hl). unfold assoc. by destruct (asset_index h hs).
Qed.

(** A pair is written by an insertion or at the end. *)
Lemma assoc_write {A} (dflt v : option A) hs vs h h' :
  length hs = length vs →
  match asset_index h hs with
  | Some i => assoc dflt hs (<[i := v]> vs) h'
  | None => assoc dflt (hs ++ [h]) (<[length vs := v]> (vs ++ [dflt])) h'
  end = if h =? h' then v else assoc dflt hs vs h'.
Proof.
  intros Hl. destruct (asset_index h hs) as [i|] eqn:E; [by apply assoc_insert|].
  rewrite (assoc_insert _ _ _ _ h).
  - destruct (h =? h'); [done|]. by apply assoc_snoc.
  - rewrite !length_app. simpl. lia.
  - by rewrite asset_index_app, E, Z.eqb_refl, Hl.
Qed.

(** ** The funds of an object *)

(** The lists belong together; their values may be nil. *)
Record shape (o : stateObject) : Prop := {
  sh_bal : length (BalancesHash (data o)) = length (BalancesVal (data o));
  sh_tl : length (TimeLockBalancesHash (data o)) = length (TimeLockBalancesVal (data o));
}.

(** The live object at [a] has these balances, time locks and mark. *)
Definition holds (s : StateDB) (a : Address) (fb : Hash → option Z) (ft : Hash → option TimeLock) (b : bool) : Prop :=
  ∃ o, stateObjects s !! a = Some o ∧ deleted o = false ∧ shape o ∧
    (∀ h, so_bal o h = fb h) ∧ (∀ h, so_tl o h = ft h) ∧ suicided o = b.

Lemma wf_shape o : wf_obj o → shape o.
Proof. intros [H1 H2 _ _ _ _ _]. by split. Qed.

Section reads.
Context `{SP : StateParams}.

Lemma holds_found s a fb ft b : holds s a fb ft b → getStateObject a s = Done (true, s).
Proof. intros (o & Ho & Hd & _). unfold getStateObject. by rewrite Ho, Hd. Qed.

Lemma holds_GetBalance s a fb ft b h : holds s a fb ft b → result (GetBalance h a) s = Some (fb h).
Proof.
  intros H. pose proof (holds_found _ _ _ _ _ H) as Hf. destruct H as (o & Ho & Hd & [Hs _] & Hb & _).
  unfold result, GetBalance, with_object, mbind, M_bind. rewrite Hf. cbn [obind fst snd].
  unfold obj_Balance, mbind, M_bind, deref. rewrite Ho. cbn [obind fst snd]. unfold balanceAssetIndex.
  rewrite <- (Hb h). unfold so_bal. destruct (asset_index h _) as [i|] eqn:E; cbn.
  - destruct (asset_index_Some _ _ _ E) as [_ Hi]. rewrite Hs in Hi.
    destruct (lookup_lt_is_Some_2 _ _ Hi) as [v Hv]. unfold at_index. by rewrite Hv.
  - unfold at_index. by rewrite list_lookup_middle.
Qed.

Lemma holds_GetTimeLockBalance s a fb ft b h :
  holds s a fb ft b → result (GetTimeLockBalance h a) s = Some (ft h).
Proof.
  intros H. pose proof (holds_found _ _ _ _ _ H) as Hf. destruct H as (o & Ho & Hd & [_ Hs] & _ & Ht & _).
  unfold result, GetTimeLockBalance, with_object, mbind, M_bind. rewrite Hf. cbn [obind fst snd].
  unfold obj_TimeLockBalance, mbind, M_bind, deref. rewrite Ho. cbn [obind fst snd]. unfold timeLockAssetIndex.
  rewrite <- (Ht h). unfold so_tl. destruct (asset_index h _) as [i|] eqn:E; cbn.
  - destruct (asset_index_Some _ _ _ E) as [_ Hi]. rewrite Hs in Hi.
    destruct (lookup_lt_is_Some_2 _ _ Hi) as [v Hv]. unfold at_index. by rewrite Hv.
  - unfold at_index. by rewrite list_lookup_middle.
Qed.

Lemma holds_HasSuicided s a fb ft b : holds s a fb ft b → result (HasSuicided a) s = Some b.
Proof.
  intros H. pose proof (holds_found _ _ _ _ _ H) as Hf. destruct H as (o & Ho & _ & _ & _ & _ & <-).
  unfold result, HasSuicided, with_object, mbind, M_bind. rewrite Hf. cbn. unfold deref. by rewrite Ho.
Qed.

(** ** Undoing the entries of [Suicide] *)

Lemma holds_fields s s' a fb ft b : stateObjects s' = stateObjects s → holds s a fb ft b → holds s' a fb ft b.
Proof. intros E (o & Ho & H). exists o. by rewrite E. Qed.

Lemma holds_put s a o : deleted o = false → shape o → holds (put a o s) a (so_bal o) (so_tl o) (suicided o).
Proof. intros Hd Hs. exists o. split_and!; try done. apply lookup_insert_eq. Qed.

Lemma obj_setBalance_holds s a h v fb ft b :
  holds s a fb ft b → ∃ s', obj_setBalance a h v s = Done (tt, s') ∧ holds s' a (upd fb h v) ft b.
Proof.
  intros (o & Ho & Hd & [Hs1 Hs2] & Hb & Ht & Hsu).
  unfold obj_setBalance, mbind, M_bind, deref. rewrite Ho. cbn [obind fst snd]. unfold balanceAssetIndex.
  assert (∀ h', upd fb h v h' = if h =? h' then v else so_bal o h') as Hu by (intros h'; unfold upd; by rewrite Hb).
  pose proof (fun h' => assoc_write (Some 0) v _ _ h h' Hs1) as Hw. destruct (asset_index h _) as [i|] eqn:E.
  - destruct (asset_index_Some _ _ _ E) as [_ Hi]. rewrite Hs1 in Hi. apply Nat.ltb_lt in Hi. rewrite Hi.
    eexists. split; [done|]. eexists. split; [apply lookup_insert_eq|]. split_and!; try done.
    + split; [|done]. simpl. by rewrite length_insert.
    + intros h'. rewrite Hu, so_bal_assoc. apply Hw.
  - cbn. rewrite length_app. cbn [length]. rewrite Nat.add_1_r, Nat.leb_refl.
    eexists. split; [done|]. eexists. split; [apply lookup_insert_eq|]. split_and!; try done.
    + split; [|done]. simpl. rewrite length_insert, !length_app. simpl. lia.
    + intros h'. rewrite Hu, so_bal_assoc. apply Hw.
Qed.

Lemma obj_setTimeLockBalance_holds s a h v fb ft b :
  holds s a fb ft b → ∃ s', obj_setTimeLockBalance a h v s = Done (tt, s') ∧ holds s' a fb (upd ft h v) b.
Proof.
  intros (o & Ho & Hd & [Hs1 Hs2] & Hb & Ht & Hsu).
  unfold obj_setTimeLockBalance, mbind, M_bind, deref. rewrite Ho. cbn [obind fst snd]. unfold timeLockAssetIndex.
  assert (∀ h', upd ft h v h' = if h =? h' then v else so_tl o h') as Hu by (intros h'; unfold upd; by rewrite Ht).
  pose proof (fun h' => assoc_write (Some emptyTL) v _ _ h h' Hs2) as Hw. destruct (asset_index h _) as [i|] eqn:E.
  - destruct (asset_index_Some _ _ _ E) as [_ Hi]. rewrite Hs2 in Hi. apply Nat.ltb_lt in Hi. rewrite Hi.
    eexists. split; [done|]. eexists. split; [apply lookup_insert_eq|]. split_and!; try done.
    + split; [done|]. simpl. by rewrite length_insert.
    + intros h'. rewrite Hu, so_tl_assoc. apply Hw.
  - cbn. rewrite length_app. cbn [length]. rewrite Nat.add_1_r, Nat.leb_refl.
    eexists. split; [done|]. eexists. split; [apply lookup_insert_eq|]. split_and!; try done.
    + split; [done|]. simpl. rewrite length_insert, !length_app. simpl. lia.
    + intros h'. rewrite Hu, so_tl_assoc. apply Hw.
Qed.

(** The balances, the time locks and the mark of an account. *)
Definition funds : Type := (Hash → option Z) * (Hash → option TimeLock) * bool.
Definition has_funds (s : StateDB) (a : Address) (f : funds) : Prop := holds s a f.1.1 f.1.2 f.2.

(** What undoing one of the entries does. *)
Definition undone (e : journalEntry) (f : funds) : funds :=
  match e with
  | suicideChange _ _ k prev v _ => (upd f.1.1 k v, f.1.2, prev)
  | timeLockBalanceChange _ k z => (f.1.1, upd f.1.2 k z, f.2)
  | _ => f
  end.

Inductive of_suicide (a : Address) : journalEntry → Prop :=
| of_change k prev v z : of_suicide a (suicideChange false a k prev v z)
| of_timelock k z : of_suicide a (timeLockBalanceChange a k z).

Lemma revert_undone a e s f :
  of_suicide a e → has_funds s a f → ∃ s', revert e s = Done (tt, s') ∧ has_funds s' a (undone e f).
Proof.
  intros [k prev v z|k z] H; unfold has_funds in *; pose proof (holds_found _ _ _ _ _ H) as Hf; cbn [revert].
  - unfold mbind, M_bind. rewrite Hf. cbn [obind fst snd].
    assert (∃ s1, modify_obj a (set_suicided prev) s = Done (tt, s1) ∧ holds s1 a f.1.1 f.1.2 prev) as (s1 & -> & H1).
    { destruct H as (o & Ho & Hd & [Hs1 Hs2] & Hb & Ht & _). unfold modify_obj, mbind, M_bind, deref. rewrite Ho.
      eexists. split; [done|]. eexists. split; [apply lookup_insert_eq|]. by split_and!. }
    cbn [obind fst snd]. by apply (obj_setBalance_holds _ _ _ _ _ _ _ H1).
  - unfold getLive, mbind, M_bind. rewrite Hf. cbn [obind fst snd]. by apply (obj_setTimeLockBalance_holds _ _ _ _ _ _ _ H).
Qed.

Lemma journal_revert_undone a es s f :
  Forall (of_suicide a) es → has_funds s a f →
  ∃ s', journal_revert (reverse es) s = Done (tt, s') ∧ has_funds s' a (foldr undone f es).
Proof.
  intros Hes H. induction Hes as [|e es He Hes IH]; [by exists s|].
  destruct IH as (s1 & Hr & H1). rewrite reverse_cons, journal_revert_app, Hr. cbn [obind snd journal_revert].
  destruct (revert_undone a e s1 _ He H1) as (s2 & Hr2 & H2). unfold mbind, M_bind. rewrite Hr2.
  eexists. split; [done|]. by apply (holds_fields s2).
Qed.

(** ** The entries that [Suicide] writes *)

Fixpoint bal_entries (a : Address) (prev : bool) (kvs : list (Hash * option Z)) : list journalEntry :=
  match kvs with
  | [] => []
  | (k, v) :: kvs => suicideChange false a k prev v None :: bal_entries a true kvs
  end.
Fixpoint tl_entries (a : Address) (prev : bool) (kvs : list (Hash * option TimeLock)) : list journalEntry :=
  match kvs with
  | [] => []
  | (k, v) :: kvs => suicideChange false a k prev None v :: timeLockBalanceChange a k v :: tl_entries a true kvs
  end.

Lemma bal_entries_of a prev kvs : Forall (of_suicide a) (bal_entries a prev kvs).
Proof. revert prev. induction kvs as [|[k v] kvs IH]; intros prev; simpl; by repeat constructor. Qed.
Lemma tl_entries_of a prev kvs : Forall (of_suicide a) (tl_entries a prev kvs).
Proof. revert prev. induction kvs as [|[k v] kvs IH]; intros prev; simpl; by repeat constructor. Qed.

Lemma bal_entries_undone a prev kvs f :
  foldr undone f (bal_entries a prev kvs) =
    (upd_all kvs f.1.1, f.1.2, match kvs with [] => f.2 | _ => prev end).
Proof.
  revert prev. induction kvs as [|[k v] kvs IH]; intros prev; [by destruct f as [[??]?]|]. cbn [bal_entries foldr].
  by rewrite IH.
Qed.
Lemma tl_entries_undone a prev kvs f :
  foldr undone f (tl_entries a prev kvs) =
    (upd_all ((fun kv => (kv.1, None)) <$> kvs) f.1.1, upd_all kvs f.1.2, match kvs with [] => f.2 | _ => prev end).
Proof.
  revert prev. induction kvs as [|[k v] kvs IH]; intros prev; [by destruct f as [[??]?]|]. cbn [tl_entries foldr].
  by rewrite IH.
Qed.

Lemma upd_all_nil {A B} (kvs : list (Hash * option B)) (f : Hash → option A) h :
  upd_all ((fun kv => (kv.1, None)) <$> kvs) f h = if decide (h ∈ kvs.*1) then None else f h.
Proof.
  induction kvs as [|[k v] kvs IH]; [done|]. cbn [fmap list_fmap upd_all foldr fst snd]. unfold upd at 1.
  fold (upd_all ((fun kv : Hash * option B => (kv.1, @None A)) <$> kvs) f). rewrite IH.
  destruct (Z.eqb_spec k h) as [->|Hne]; [by rewrite decide_True by apply list_elem_of_here|].
  apply decide_ext. rewrite elem_of_cons. naive_solver.
Qed.

(** ** The loops of [Suicide] *)

(** What they leave alone. *)
Definition same_revs (s s' : StateDB) : Prop :=
  validRevisions s' = validRevisions s ∧ nextRevisionId s' = nextRevisionId s.

Lemma suicide_balances_run a n : ∀ i s o,
  stateObjects s !! a = Some o → NoDup (BalancesHash (data o)) →
  length (BalancesHash (data o)) = length (BalancesVal (data o)) →
  Forall is_Some (BalancesVal (data o)) → (i + n)%nat = length (BalancesVal (data o)) →
  ∃ s' vs, suicide_balances a n i s = Done (tt, s') ∧ same_revs s s' ∧ length vs = length (BalancesVal (data o)) ∧
    stateObjects s' !! a = Some (set_suicided (match n with O => suicided o | _ => true end)
      (set_data (set_Balances (BalancesHash (data o)) vs) o)) ∧
    entries (jrnl s') = reverse (bal_entries a (suicided o)
      (zip (drop i (BalancesHash (data o))) (drop i (BalancesVal (data o))))) ++ entries (jrnl s).
Proof.
  induction n as [|n IH]; intros i s o Ho Hnd Hlen Hsome Hin.
  { exists s, (BalancesVal (data o)). rewrite !drop_ge by lia. split_and!; try done. rewrite Ho. by destruct o as [? [] ????????]. }
  destruct (lookup_lt_is_Some_2 (BalancesVal (data o)) i ltac:(lia)) as [v Hv].
  destruct (lookup_lt_is_Some_2 (BalancesHash (data o)) i ltac:(lia)) as [k Hk].
  destruct (Forall_lookup_1 _ _ _ _ Hsome Hv) as [x ->].
  cbn [suicide_balances]. unfold mbind, M_bind, deref, at_index, non_nil. rewrite Ho. cbn [obind fst snd].
  rewrite Hv. cbn. rewrite Hk. cbn. unfold modify_obj, mbind, M_bind, deref. cbn. rewrite Ho. cbn. unfold obj_setBalance, mbind, M_bind, deref. cbn.
  rewrite lookup_insert_eq. cbn. unfold balanceAssetIndex. cbn. rewrite (asset_index_lookup _ _ _ Hnd Hk).
  cbn. assert (Hlt : (i <? length (BalancesVal (data o)))%nat = true) by (apply Nat.ltb_lt; lia). cbn in Hlt. rewrite Hlt. cbn.
  match goal with |- context [suicide_balances a n (S i) ?t] => set (s1 := t) end.
  set (o1 := set_data (set_Balances (BalancesHash (data o)) (<[i := Some 0]> (BalancesVal (data o)))) (set_suicided true o)).
  destruct (IH (S i) s1 o1) as (s' & vs & Hr & [Hr1 Hr2] & Hl & Hs' & Hj); [apply lookup_insert_eq|done|..].
  { cbn. by rewrite length_insert. }
  { cbn. apply Forall_insert; [done|by eexists]. }
  { cbn. rewrite length_insert. lia. }
  exists s', vs. rewrite Hr. split_and!; try done.
  - rewrite Hl. cbn. by rewrite length_insert.
  - rewrite Hs'. destruct o as [? [] ????????]. by destruct n.
  - rewrite Hj. cbn. rewrite drop_insert_lt by lia. rewrite (drop_S _ _ _ Hk), (drop_S _ _ _ Hv). cbn [zip_with bal_entries].
    by rewrite reverse_cons, <- app_assoc.
Qed.

Lemma suicide_timelocks_run a n : ∀ i s o,
  stateObjects s !! a = Some o → NoDup (TimeLockBalancesHash (data o)) →
  length (TimeLockBalancesHash (data o)) = length (TimeLockBalancesVal (data o)) →
  Forall (fun v => ∃ z, v = Some z ∧ wfTL z) (TimeLockBalancesVal (data o)) →
  (i + n)%nat = length (TimeLockBalancesVal (data o)) →
  ∃ s' vs, suicide_timelocks a n i s = Done (tt, s') ∧ same_revs s s' ∧ length vs = length (TimeLockBalancesVal (data o)) ∧
    stateObjects s' !! a = Some (set_suicided (match n with O => suicided o | _ => true end)
      (set_data (set_TimeLockBalances (TimeLockBalancesHash (data o)) vs) o)) ∧
    entries (jrnl s') = reverse (tl_entries a (suicided o)
      (zip (drop i (TimeLockBalancesHash (data o))) (drop i (TimeLockBalancesVal (data o))))) ++ entries (jrnl s).
Proof.
  induction n as [|n IH]; intros i s o Ho Hnd Hlen Hsome Hin.
  { exists s, (TimeLockBalancesVal (data o)). rewrite !drop_ge by lia. split_and!; try done. rewrite Ho. by destruct o as [? [] ????????]. }
  destruct (lookup_lt_is_Some_2 (TimeLockBalancesVal (data o)) i ltac:(lia)) as [v Hv].
  destruct (lookup_lt_is_Some_2 (TimeLockBalancesHash (data o)) i ltac:(lia)) as [k Hk].
  destruct (Forall_lookup_1 _ _ _ _ Hsome Hv) as (z & -> & Hz).
  cbn [suicide_timelocks]. unfold mbind, M_bind, deref, at_index. rewrite Ho. cbn [obind fst snd].
  rewrite Hv. cbn. rewrite Hk. cbn. unfold modify_obj, mbind, M_bind, deref. cbn. rewrite Ho. cbn.
  unfold obj_SetTimeLockBalance, obj_TimeLockBalance, obj_setTimeLockBalance, mbind, M_bind, deref, at_index. cbn.
  rewrite lookup_insert_eq. cbn. unfold timeLockAssetIndex. cbn. rewrite (asset_index_lookup _ _ _ Hnd Hk).
  cbn. rewrite Hv. cbn. rewrite lookup_insert_eq. cbn. rewrite (asset_index_lookup _ _ _ Hnd Hk). cbn.
  assert (Hlt : (i <? length (TimeLockBalancesVal (data o)))%nat = true) by (apply Nat.ltb_lt; lia). cbn in Hlt. rewrite Hlt. cbn.
  match goal with |- context [suicide_timelocks a n (S i) ?t] => set (s1 := t) end.
  set (o1 := set_data (set_TimeLockBalances (TimeLockBalancesHash (data o)) (<[i := Some (mkTimeLock [])]> (TimeLockBalancesVal (data o))))
    (set_suicided true o)).
  destruct (IH (S i) s1 o1) as (s' & vs & Hr & [Hr1 Hr2] & Hl & Hs' & Hj); [apply lookup_insert_eq|done|..].
  { cbn. by rewrite length_insert. }
  { cbn. apply Forall_insert; [done|]. exists emptyTL. split; [done|apply wf_emptyTL]. }
  { cbn. rewrite length_insert. lia. }
  exists s', vs. rewrite Hr. split_and!; try done.
  - rewrite Hl. cbn. by rewrite length_insert.
  - rewrite Hs'. destruct o as [? [] ????????]. by destruct n.
  - rewrite Hj. cbn. rewrite drop_insert_lt by lia. rewrite (drop_S _ _ _ Hk), (drop_S _ _ _ Hv). cbn [zip_with tl_entries].
    change (TimeLock_Clone z) with (TimeLock_Set (Some z)). rewrite (TimeLock_Set_wf z Hz).
    rewrite !reverse_cons, <- !app_assoc. done.
Qed.

(** The entries since the snapshot, for an account that is there. *)
Lemma Suicide_run s a o :
  wf_db s → live s a o →
  ∃ s' fb ft, Suicide a s = Done (true, s') ∧ same_revs s s' ∧ has_funds s' a (fb, ft, true) ∧
    (∀ h, h ∉ BalancesHash (data o) → fb h = Some 0) ∧
    (∀ h, h ∉ TimeLockBalancesHash (data o) → ft h = Some emptyTL) ∧
    entries (jrnl s') = reverse (bal_entries a (suicided o) (zip (BalancesHash (data o)) (BalancesVal (data o))) ++
      tl_entries a (match BalancesVal (data o) with [] => suicided o | _ => true end)
        (zip (TimeLockBalancesHash (data o)) (TimeLockBalancesVal (data o)))) ++ entries (jrnl s).
Proof.
  intros Hwf Hl. destruct (live_good s a o Hwf Hl) as ([L1 L2 N1 N2 F1 F2 _] & _ & Hd). destruct Hl as [Ho _].
  unfold Suicide, mbind, M_bind, getStateObject. rewrite Ho, Hd. cbn [negb obind fst snd]. unfold deref at 1. rewrite Ho. cbn [obind fst snd].
  destruct (suicide_balances_run a _ 0 s o Ho N1 L1 F1 eq_refl) as (s1 & vs & -> & [R1 R1'] & V1 & O1 & J1). cbn [obind fst snd].
  unfold deref at 1. rewrite O1. cbn [obind fst snd].
  destruct (suicide_timelocks_run a _ 0 s1 _ O1 N2 L2 F2 eq_refl) as (s2 & ws & -> & [R2 R2'] & V2 & O2 & J2). cbn [obind fst snd].
  unfold modify_obj, mbind, M_bind, deref. rewrite O2. cbn [obind fst snd store modify].
  eexists _, (assoc (Some 0) (BalancesHash (data o)) vs), (assoc (Some emptyTL) (TimeLockBalancesHash (data o)) ws).
  split; [done|]. split_and!.
  - split; cbn; congruence.
  - eexists. split; [apply lookup_insert_eq|]. split_and!; try done. split; [exact (eq_trans L1 (eq_sym V1))|exact (eq_trans L2 (eq_sym V2))].
  - intros h Hh. unfold assoc. by rewrite asset_index_absent.
  - intros h Hh. unfold assoc. by rewrite asset_index_absent.
  - cbn [jrnl set_objects]. rewrite J2, J1, reverse_app, <- app_assoc, !drop_0. cbn.
    by destruct (BalancesVal (data o)).
Qed.
End reads.

(** An account that is still in the trie is loaded first. *)
Lemma with_object_loaded `{SP : StateParams} {A} s a o (dflt : A) f :
  obj_at s a = Some o → deleted o = false → with_object a dflt f s = with_object a dflt f (put a o s).
Proof.
  intros Ho Hd. unfold with_object, mbind, M_bind. rewrite (getStateObject_found s a o Ho).
  unfold getStateObject. cbn. by rewrite lookup_insert_eq, Hd.
Qed.
Lemma Suicide_loaded `{SP : StateParams} s a o :
  obj_at s a = Some o → deleted o = false → Suicide a s = Suicide a (put a o s).
Proof. apply (with_object_loaded (A := bool)). Qed.

(** ** Properties *)

(** C40: what reverting [Suicide] does to an account. The time locks are given back,
    and so are the balances, except that an asset of which the account has a time
    lock and no balance entry has a nil balance afterwards, where it had 0: the
    entries for time locks are not marked as such, and undoing them writes the
    balance that they do not have. An account without any entry stays marked as
    suicided, since the mark itself is not in the journal. *)
Theorem suicide_revert_effect `{SP : StateParams} (s : StateDB) (a : Address) (o : stateObject) :
  wf_db s → wf_revs s → obj_at s a = Some o →
  ∃ s', (id ← Snapshot; _ ← Suicide a; RevertToSnapshot id) s = Done (tt, s') ∧
    (∀ h, result (GetTimeLockBalance h a) s' = result (GetTimeLockBalance h a) s) ∧
    (∀ h, result (GetBalance h a) s' =
       if decide (h ∈ TimeLockBalancesHash (data o) ∧ h ∉ BalancesHash (data o)) then Some None
       else result (GetBalance h a) s) ∧
    result (HasSuicided a) s' =
      (if bool_decide (BalancesVal (data o) = [] ∧ TimeLockBalancesVal (data o) = []) then Some true
       else result (HasSuicided a) s).
Proof.
  intros Hwf Hrv Ho. destruct (obj_at_good s a o Hwf Ho) as (Hw & Ha & Hd). pose proof (wf_shape _ Hw) as [L1 L2].
  pose proof (holds_put s a o Hd (wf_shape _ Hw)) as H0.
  assert (Hres : ∀ A (d : A) f, result (with_object a d f) s = result (with_object a d f) (put a o s)).
  { intros A d f. unfold result. by rewrite (with_object_loaded s a o). }
  set (s1 := set_revisions (validRevisions s ++ [mkRevision (nextRevisionId s) (journal_length (jrnl s))]) (nextRevisionId s + 1) s).
  assert (Hx : ext s s1) by (apply (safe_Snapshot [] s (nextRevisionId s) s1); [done|set_solver|done]).
  destruct (ext_revs _ _ Hx Hrv) as [Hrv1 _].
  destruct (Suicide_run (put a o s1) a o) as (s2 & fb & ft & H2 & [R1 R2] & Hf & Hfb & Hft & Hj);
    [by apply put_wf; [apply Hx|]|by apply live_put|].
  rewrite <- (Suicide_loaded s1 a o) in H2 by done.
  set (B := bal_entries _ _ _) in Hj. set (T := tl_entries _ _ _) in Hj.
  assert (Hes : Forall (of_suicide a) (B ++ T)) by (apply Forall_app; split; [apply bal_entries_of|apply tl_entries_of]).
  destruct (journal_revert_undone a (B ++ T) s2 _ Hes Hf) as (t & Hr & Ht).
  rewrite foldr_app in Ht. unfold T in Ht. rewrite tl_entries_undone in Ht. unfold B in Ht. rewrite bal_entries_undone in Ht.
  assert (Hrv2 : wf_revs s2) by (by apply (wf_revs_same s1)).
  pose proof (RevertToSnapshot_run s s2 t (reverse (B ++ T)) [] Hrv2 Hj ltac:(by rewrite R1) Hr) as Hrun.
  match type of Hrun with _ = Done (tt, ?x) => exists x; apply (holds_fields _ x) in Ht; [|done] end. cbn [fst snd] in Ht.
  split; [|split_and!].
  - unfold mbind, M_bind at 1. change (Snapshot s) with (Done (nextRevisionId s, s1)). cbn [obind fst snd].
    unfold M_bind. rewrite H2. exact Hrun.
  - intros h. rewrite (holds_GetTimeLockBalance _ _ _ _ _ h Ht). unfold GetTimeLockBalance. rewrite Hres.
    fold (GetTimeLockBalance h a). rewrite (holds_GetTimeLockBalance _ _ _ _ _ h H0), upd_all_assoc by done.
    f_equal. rewrite so_tl_assoc. unfold assoc. destruct (asset_index h _) eqn:E; [done|]. by apply Hft, asset_index_None.
  - intros h. rewrite (holds_GetBalance _ _ _ _ _ h Ht). unfold GetBalance. rewrite Hres. fold (GetBalance h a).
    rewrite (holds_GetBalance _ _ _ _ _ h H0), upd_all_assoc by done.
    rewrite so_bal_assoc. unfold assoc. destruct (asset_index h (BalancesHash (data o))) as [i|] eqn:E.
    + destruct (asset_index_Some _ _ _ E) as [Hi _]. rewrite decide_False; [done|]. intros [_ Hn]. by apply Hn, (list_elem_of_lookup_2 _ i).
    + apply asset_index_None in E. rewrite upd_all_nil, fst_zip, (Hfb h E) by lia.
      by repeat case_decide; try naive_solver.
  - rewrite (holds_HasSuicided _ _ _ _ _ Ht). unfold HasSuicided. rewrite Hres. fold (HasSuicided a).
    rewrite (holds_HasSuicided _ _ _ _ _ H0).
    destruct (BalancesHash (data o)), (BalancesVal (data o)), (TimeLockBalancesHash (data o)), (TimeLockBalancesVal (data o)); try done;
      rewrite bool_decide_false; naive_solver.
Qed.

(** C39: whether an account is empty depends on what was read. Of an account that is
    there and empty, asking for the balance of any asset gives 0, and balances, time
    locks, nonce, code and storage stay what they were, but the account is not empty
    any more, since [empty] counts the entries of the list of balances and the lookup
    has made one. *)
Theorem empty_depends_on_reads `{SP : StateParams} (s : StateDB) (a : Address) (o : stateObject) (h : Hash) :
  wf_db s → obj_at s a = Some o → empty o = true →
  result (Empty a) s = Some true ∧
  ∃ s', GetBalance h a s = Done (Some 0, s') ∧ s' ≡ s ∧ result (Empty a) s' = Some false.
Proof.
  intros Hwf Ho He. destruct (obj_at_good s a o Hwf Ho) as (Hw & _ & Hd).
  pose proof (getStateObject_found s a o Ho) as Hf. split.
  { unfold result, Empty, with_object, mbind, M_bind. rewrite Hf. cbn. unfold deref. cbn. by rewrite lookup_insert_eq, <- He. }
  assert (BalancesVal (data o) = [] ∧ BalancesHash (data o) = [] ∧ (Nonce (data o) =? 0) = true) as (Hv & Hh & Hn).
  { revert He. unfold empty. destruct (Nonce (data o) =? 0); [|done]. cbn.
    pose proof (wa_bal _ Hw) as Hlen. destruct (BalancesVal (data o)); [|done]. by destruct (BalancesHash (data o)). }
  unfold GetBalance, with_object, mbind, M_bind. rewrite Hf. cbn [obind fst snd].
  unfold obj_Balance, mbind, M_bind, deref. cbn [stateObjects put set_objects]. rewrite lookup_insert_eq. cbn [obind fst snd].
  destruct (balanceAssetIndex h o) as [i o'] eqn:E.
  destruct (balanceAssetIndex_spec (db s) _ _ _ _ Hw E) as (_ & Hview & _ & Hd' & _ & _ & Hi).
  cbn. unfold at_index. rewrite Hi. unfold so_bal. rewrite Hh. eexists. split; [done|]. split.
  - transitivity (put a o s); [|apply put_equiv; [done|unfold sview; by rewrite Ho]].
    apply (put_equiv (put a o s) a o'); [congruence|]. unfold sview. rewrite obj_at_put, Z.eqb_refl by done. cbn. by rewrite Hview.
  - unfold result, Empty, with_object, mbind, M_bind, getStateObject. cbn. rewrite lookup_insert_eq, Hd', Hd. cbn.
    unfold deref. cbn. rewrite lookup_insert_eq. cbn. revert E. unfold balanceAssetIndex. rewrite Hh, Hv. intros [= _ <-].
    unfold empty. cbn. by rewrite Hn.
Qed.

(** ** Examples *)

(** An account that holds a time lock of asset 77 and no balance of it, and one with nothing. *)
Definition ex_lock : iface unit := IAddTimeLockBalance 5 77 (mkTimeLock [mkItem 10 20 3]) 0.
Definition ex_locked : StateDB :=
  match perform ex_lock ex_state with Done (_, s) => s | _ => ex_state end.
Definition ex_touch : iface unit := IAddBalance 600 SystemAssetID 0.
Definition ex_touched : StateDB :=
  match perform ex_touch ex_state with Done (_, s) => s | _ => ex_state end.

Lemma ex_locked_run : perform ex_lock ex_state = Done (tt, ex_locked).
Proof. vm_compute. reflexivity. Qed.
Lemma ex_touched_run : perform ex_touch ex_state = Done (tt, ex_touched).
Proof. vm_compute. reflexivity. Qed.

Lemma ex_step (op : iface unit) s :
  iface_ok op → perform op ex_state = Done (tt, s) → wf_db s ∧ wf_revs s.
Proof.
  intros Hok E. assert (ext ex_state s) as He.
  { apply (safe_perform [] op Hok ex_state tt s); [apply wf_ex_state|set_solver|done]. }
  split; [apply He|apply (ext_revs _ _ He), wf_ex_state].
Qed.

Lemma suicide_revert_effect_witness :
  result (GetBalance 77 5) ex_locked = Some (Some 0) ∧
  ∃ s', (id ← Snapshot; _ ← Suicide 5; RevertToSnapshot id) ex_locked = Done (tt, s') ∧
    result (GetBalance 77 5) s' = Some None.
Proof.
  split; [vm_compute; reflexivity|].
  destruct (ex_step ex_lock ex_locked ltac:(by repeat split) ex_locked_run) as [H1 H2].
  assert ((fun o => (TimeLockBalancesHash (data o), BalancesHash (data o))) <$> obj_at ex_locked 5 = Some ([77], [])) as Hl
    by (vm_compute; reflexivity).
  destruct (obj_at ex_locked 5) as [o|] eqn:Ho; [|discriminate Hl].
  destruct (suicide_revert_effect ex_locked 5 o H1 H2 Ho) as (s' & Hr & _ & Hb & _). exists s'. split; [exact Hr|].
  injection Hl as Ht Hn. rewrite Hb, decide_True; [done|]. rewrite Ht, Hn. split; [apply list_elem_of_here|apply not_elem_of_nil].
Defined.

Lemma empty_depends_on_reads_witness :
  result (Empty 600) ex_touched = Some true ∧
  ∃ s', GetBalance 77 600 ex_touched = Done (Some 0, s') ∧ s' ≡ ex_touched ∧ result (Empty 600) s' = Some false.
Proof.
  destruct (ex_step ex_touch ex_touched ltac:(by repeat split) ex_touched_run) as [H1 _].
  assert (empty <$> obj_at ex_touched 600 = Some true) as Hl by (vm_compute; reflexivity).
  destruct (obj_at ex_touched 600) as [o|] eqn:Ho; [|discriminate Hl]. injection Hl as He.
  exact (empty_depends_on_reads ex_touched 600 o 77 H1 Ho He).
Defined.
