(* ===== verification/StateWorld.v ===== *)
(** * Ledger semantics of the state operations

    [world] is the state as the calls see it: a view for every address, where an
    address without account counts as the empty account. [wp] is total
    correctness of a program of the state monad: it returns, without panic, and
    the postcondition holds. The rules below give every operation that the calls
    use its effect on the world, so that a call is verified by applying them one
    after the other. *)

From stdpp Require Import base list gmap strings.
From Stdlib Require Import ZArith Lia.
From S2P Require Import Prelude Bytes Keccak KeccakFacts TimeLock TimeLockFacts Ticket FsnTypes.
From S2P Require Import Rlp RlpFacts Codec StateDB StateRecords StateFacts StateRevert StateInterface.

(** ** Worlds *)

Definition World : Type := Address → oview.
#[export] Instance World_equiv : Equiv World := fun w w' => ∀ a : Address, w a ≡ w' a.
#[export] Instance World_equivalence : Equivalence (≡@{World}).
Proof.
  split.
  - by intros w a.
  - intros w w' H a. by rewrite (H a).
  - intros w1 w2 w3 H1 H2 a. by rewrite (H1 a), (H2 a).
Qed.

Definition world (s : StateDB) : World := fun a => default emptyView (sview s a).

(** The balance and the time lock of an account; a well-formed state has no nil
    among them. *)
Definition bal (w : World) (a : Address) (h : Hash) : Z := default 0 (v_bal (w a) h).
Definition tl (w : World) (a : Address) (h : Hash) : TimeLock := default emptyTL (v_tl (w a) h).
Definition nonce (w : World) (a : Address) : Z := v_nonce (w a).
Definition notation (w : World) (a : Address) : Z := v_notation (w a).
Definition slot (w : World) (a : Address) (k : Hash) : Hash := v_slot (w a) k.

Definition wset (a : Address) (v : oview) (w : World) : World := upd w a v.
Definition set_bal (a : Address) (h : Hash) (b : Z) (w : World) : World :=
  wset a (vset_bal h (Some b) (w a)) w.
Definition set_tl (a : Address) (h : Hash) (z : TimeLock) (w : World) : World :=
  wset a (vset_tl h (Some z) (w a)) w.
Definition set_nonce (a : Address) (n : Z) (w : World) : World := wset a (vset_nonce n (w a)) w.
Definition set_notation (a : Address) (n : Z) (w : World) : World := wset a (vset_notation n (w a)) w.
Definition set_slot (a : Address) (k x : Hash) (w : World) : World := wset a (vset_slot k x (w a)) w.

#[export] Instance wset_proper a : Proper ((≡) ==> (≡) ==> (≡)) (wset a).
Proof. intros v v' Hv w w' Hw b. unfold wset, upd. destruct (a =? b); [done|apply Hw]. Qed.
#[export] Instance set_bal_proper a h b : Proper ((≡) ==> (≡)) (set_bal a h b).
Proof. intros w w' H. unfold set_bal. by rewrite (H a), H. Qed.
#[export] Instance set_tl_proper a h z : Proper ((≡) ==> (≡)) (set_tl a h z).
Proof. intros w w' H. unfold set_tl. by rewrite (H a), H. Qed.
#[export] Instance set_nonce_proper a n : Proper ((≡) ==> (≡)) (set_nonce a n).
Proof. intros w w' H. unfold set_nonce. by rewrite (H a), H. Qed.
#[export] Instance set_notation_proper a n : Proper ((≡) ==> (≡)) (set_notation a n).
Proof. intros w w' H. unfold set_notation. by rewrite (H a), H. Qed.
#[export] Instance set_slot_proper a k x : Proper ((≡) ==> (≡)) (set_slot a k x).
Proof. intros w w' H. unfold set_slot. by rewrite (H a), H. Qed.

#[export] Instance bal_proper : Proper ((≡) ==> eq ==> eq ==> eq) bal.
Proof. intros w w' H a ? <- h ? <-. unfold bal. by rewrite (ve_bal _ _ (H a) h). Qed.
#[export] Instance tl_proper : Proper ((≡) ==> eq ==> eq ==> eq) tl.
Proof. intros w w' H a ? <- h ? <-. unfold tl. by rewrite (ve_tl _ _ (H a) h). Qed.
#[export] Instance nonce_proper : Proper ((≡) ==> eq ==> eq) nonce.
Proof. intros w w' H a ? <-. apply (ve_nonce _ _ (H a)). Qed.
#[export] Instance notation_proper : Proper ((≡) ==> eq ==> eq) notation.
Proof. intros w w' H a ? <-. apply (ve_notation _ _ (H a)). Qed.
#[export] Instance slot_proper : Proper ((≡) ==> eq ==> eq ==> eq) slot.
Proof. intros w w' H a ? <- h ? <-. apply (ve_slot _ _ (H a)). Qed.

(** Reading after writing. *)
Create Rewrite HintDb world.
Lemma bal_set_bal w a h b a' h' :
  bal (set_bal a h b w) a' h' = if (a =? a') && (h =? h') then b else bal w a' h'.
Proof.
  unfold bal, set_bal, wset, upd. destruct (Z.eqb_spec a a') as [<-|]; [|done]. simpl. unfold upd.
  by destruct (h =? h').
Qed.
Lemma tl_set_tl w a h z a' h' :
  tl (set_tl a h z w) a' h' = if (a =? a') && (h =? h') then z else tl w a' h'.
Proof.
  unfold tl, set_tl, wset, upd. destruct (Z.eqb_spec a a') as [<-|]; [|done]. simpl. unfold upd.
  by destruct (h =? h').
Qed.
Lemma slot_set_slot w a k x a' k' :
  slot (set_slot a k x w) a' k' = if (a =? a') && (k =? k') then x else slot w a' k'.
Proof.
  unfold slot, set_slot, wset, upd. destruct (Z.eqb_spec a a') as [<-|]; [|done]. simpl. unfold upd.
  by destruct (k =? k').
Qed.
Lemma nonce_set_nonce w a n a' : nonce (set_nonce a n w) a' = if a =? a' then n else nonce w a'.
Proof. unfold nonce, set_nonce, wset, upd. by destruct (Z.eqb_spec a a') as [<-|]. Qed.
Lemma notation_set_notation w a n a' :
  notation (set_notation a n w) a' = if a =? a' then n else notation w a'.
Proof. unfold notation, set_notation, wset, upd. by destruct (Z.eqb_spec a a') as [<-|]. Qed.

(** The other fields stay. *)
Ltac wset_other := intros; unfold bal, tl, nonce, notation, slot, set_bal, set_tl, set_nonce,
  set_notation, set_slot, wset, upd; match goal with |- context [?a =? ?b] =>
  destruct (Z.eqb_spec a b) as [<-|]; done end.
Lemma bal_set_tl w a h z a' h' : bal (set_tl a h z w) a' h' = bal w a' h'.
Proof. wset_other. Qed.
Lemma bal_set_nonce w a n a' h' : bal (set_nonce a n w) a' h' = bal w a' h'.
Proof. wset_other. Qed.
Lemma bal_set_notation w a n a' h' : bal (set_notation a n w) a' h' = bal w a' h'.
Proof. wset_other. Qed.
Lemma bal_set_slot w a k x a' h' : bal (set_slot a k x w) a' h' = bal w a' h'.
Proof. wset_other. Qed.
Lemma tl_set_bal w a h b a' h' : tl (set_bal a h b w) a' h' = tl w a' h'.
Proof. wset_other. Qed.
Lemma tl_set_nonce w a n a' h' : tl (set_nonce a n w) a' h' = tl w a' h'.
Proof. wset_other. Qed.
Lemma tl_set_notation w a n a' h' : tl (set_notation a n w) a' h' = tl w a' h'.
Proof. wset_other. Qed.
Lemma tl_set_slot w a k x a' h' : tl (set_slot a k x w) a' h' = tl w a' h'.
Proof. wset_other. Qed.
Lemma nonce_set_bal w a h b a' : nonce (set_bal a h b w) a' = nonce w a'.
Proof. wset_other. Qed.
Lemma nonce_set_tl w a h b a' : nonce (set_tl a h b w) a' = nonce w a'.
Proof. wset_other. Qed.
Lemma nonce_set_notation w a n a' : nonce (set_notation a n w) a' = nonce w a'.
Proof. wset_other. Qed.
Lemma nonce_set_slot w a k x a' : nonce (set_slot a k x w) a' = nonce w a'.
Proof. wset_other. Qed.
Lemma notation_set_bal w a h b a' : notation (set_bal a h b w) a' = notation w a'.
Proof. wset_other. Qed.
Lemma notation_set_tl w a h b a' : notation (set_tl a h b w) a' = notation w a'.
Proof. wset_other. Qed.
Lemma notation_set_nonce w a n a' : notation (set_nonce a n w) a' = notation w a'.
Proof. wset_other. Qed.
Lemma notation_set_slot w a k x a' : notation (set_slot a k x w) a' = notation w a'.
Proof. wset_other. Qed.
Lemma slot_set_bal w a h b a' k' : slot (set_bal a h b w) a' k' = slot w a' k'.
Proof. wset_other. Qed.
Lemma slot_set_tl w a h b a' k' : slot (set_tl a h b w) a' k' = slot w a' k'.
Proof. wset_other. Qed.
Lemma slot_set_nonce w a n a' k' : slot (set_nonce a n w) a' k' = slot w a' k'.
Proof. wset_other. Qed.
Lemma slot_set_notation w a n a' k' : slot (set_notation a n w) a' k' = slot w a' k'.
Proof. wset_other. Qed.
#[export] Hint Rewrite bal_set_bal bal_set_tl bal_set_nonce bal_set_notation bal_set_slot
  tl_set_bal tl_set_tl tl_set_nonce tl_set_notation tl_set_slot nonce_set_bal nonce_set_tl
  nonce_set_nonce nonce_set_notation nonce_set_slot notation_set_bal notation_set_tl
  notation_set_nonce notation_set_notation notation_set_slot slot_set_bal slot_set_tl
  slot_set_nonce slot_set_notation slot_set_slot : world.

(** ** Total correctness *)

Definition wp {A} (m : M A) (Q : A → StateDB → Prop) (s : StateDB) : Prop :=
  ∃ r s', m s = Done (r, s') ∧ Q r s'.

Lemma wp_ret {A} (a : A) Q s : Q a s → wp (mret a) Q s.
Proof. intros H. by exists a, s. Qed.
Lemma wp_bind {A B} (m : M A) (k : A → M B) Q s :
  wp m (fun a s1 => wp (k a) Q s1) s → wp (m ≫= k) Q s.
Proof.
  intros (a & s1 & H1 & b & s2 & H2 & HQ). exists b, s2. split; [|done].
  unfold mbind, M_bind. rewrite H1. exact H2.
Qed.
Lemma wp_mono {A} (m : M A) Q Q' s : wp m Q s → (∀ a s', Q a s' → Q' a s') → wp m Q' s.
Proof. intros (a & s1 & H1 & HQ) HQ'. exists a, s1. auto. Qed.
Lemma wp_lift {A} (o : outcome A) a Q s : o = Done a → Q a s → wp (lift o) Q s.
Proof. intros -> H. by exists a, s. Qed.
Lemma wp_non_nil {A} (v : option A) a Q s : v = Some a → Q a s → wp (non_nil v) Q s.
Proof. intros -> H. by apply wp_ret. Qed.
Lemma wp_at_index {A} (l : list A) i a Q s : l !! i = Some a → Q a s → wp (at_index l i) Q s.
Proof. intros E H. unfold at_index. rewrite E. by apply wp_ret. Qed.
Lemma wp_get Q s : Q s s → wp get Q s.
Proof. intros H. by exists s, s. Qed.
Lemma wp_gets {A} (f : StateDB → A) Q s : Q (f s) s → wp (gets f) Q s.
Proof. intros H. by exists (f s), s. Qed.

(** A state that stands for a world. *)
Record rep (s : StateDB) (w : World) : Prop := { rep_wf : wf_db s; rep_world : world s ≡ w }.

#[export] Instance rep_proper s : Proper ((≡) ==> iff) (rep s).
Proof.
  intros w w' H. split; intros [Hwf Hw]; (split; [done|]); [by rewrite <- H|by rewrite H].
Qed.

(** What no operation on accounts touches. *)
Record frame (s s' : StateDB) : Prop := {
  fr_db : db s' = db s;
  fr_trie : trie s' = trie s;
  fr_refund : refund s' = refund s;
  fr_tx : thash s' = thash s ∧ bhash s' = bhash s ∧ txIndex s' = txIndex s;
  fr_tickets : tickets s' = tickets s ∧ ticketsHash s' = ticketsHash s ∧ cached s' = cached s;
}.
#[export] Instance frame_preorder : PreOrder frame.
Proof.
  split; [by split|]. intros s1 s2 s3 [? ? ? (?&?&?) (?&?&?)] [? ? ? (?&?&?) (?&?&?)].
  split; try congruence; split_and!; congruence.
Qed.

Lemma world_wf s a : wf_db s → ∃ o, wf_obj o ∧ world s a ≡ view (db s) o.
Proof.
  intros Hwf. unfold world, sview. destruct (obj_at s a) as [p|] eqn:E; simpl.
  - exists p. split; [|done]. by apply (obj_at_good s a).
  - exists (newObject a emptyAccount). split; [apply wf_emptyAccount|]. by rewrite view_new.
Qed.

Lemma rep_bal s w a h : rep s w → v_bal (w a) h = Some (bal w a h).
Proof.
  intros [Hwf Hw]. destruct (world_wf s a Hwf) as (o & Ho & Hv). unfold bal.
  rewrite <- (ve_bal _ _ (Hw a) h), (ve_bal _ _ Hv h). simpl.
  by destruct (so_bal_Some o h Ho) as [b ->].
Qed.

Lemma rep_tl s w a h : rep s w → v_tl (w a) h = Some (tl w a h) ∧ wfTL (tl w a h).
Proof.
  intros [Hwf Hw]. destruct (world_wf s a Hwf) as (o & Ho & Hv). unfold tl.
  rewrite <- (ve_tl _ _ (Hw a) h), (ve_tl _ _ Hv h). simpl.
  by destruct (so_tl_Some o h Ho) as (z & -> & Hz).
Qed.

(** ** One account at a time

    [at_obj a s0 s v]: the state [s] is [s0] with the object of [a], which is
    live, changed to the view [v], and a longer journal. *)
Definition at_obj (a : Address) (s0 s : StateDB) (v : oview) : Prop :=
  wf_db s ∧ ∃ o, live s a o ∧ view (db s0) o ≡ v ∧ s = set_jrnl (jrnl s) (put a o s0).

Lemma world_put s a o a' :
  deleted o = false → world (put a o s) a' = if a =? a' then view (db s) o else world s a'.
Proof. intros Hd. unfold world. rewrite put_view by done. by destruct (a =? a'). Qed.

Lemma at_obj_rep a s0 s v w : rep s0 w → at_obj a s0 s v → rep s (wset a v w) ∧ frame s0 s.
Proof.
  intros [Hwf Hw] (Hs & o & Hl & Hv & Heq). split; [|by rewrite Heq; split]. split; [done|].
  intros a'. assert (Hwa : world s a' = world (put a o s0) a') by (rewrite Heq; done).
  rewrite Hwa, world_put by apply Hl. unfold wset, upd. destruct (a =? a'); [done|apply Hw].
Qed.

Lemma at_obj_live a s0 s v : at_obj a s0 s v → ∃ o, live s a o ∧ view (db s) o ≡ v ∧ wf_db s.
Proof. intros (Hs & o & Hl & Hv & Heq). exists o. rewrite Heq. simpl. rewrite <- Heq. done. Qed.

Lemma set_jrnl_twice j j' s t : s = set_jrnl j t → set_jrnl j' s = set_jrnl j' t.
Proof. by intros ->. Qed.

Section rules.
Context `{SP : StateParams}.

Lemma wp_updates {A} a s0 s v f r (m : M A) Q :
  at_obj a s0 s v → updates a f r m → Proper ((≡) ==> (≡)) f →
  (∀ s' v0, v0 ≡ v → at_obj a s0 s' (f v) → Q (r v0) s') → wp m Q s.
Proof.
  intros (Hs & o & Hl & Hv & Heq) Hm Hp HQ. destruct (Hm s o Hs Hl) as (o' & Hrun & Hg & Hv').
  assert (Hdb : db s = db s0) by (rewrite Heq; done).
  exists (r (view (db s) o)), (put a o' s). split; [done|]. apply HQ; [by rewrite Hdb|].
  split; [by apply put_wf|]. exists o'. split_and!; [by apply live_put, Hg| |].
  - rewrite Hdb in Hv'. by rewrite Hv', Hv.
  - rewrite Heq at 1. unfold put, set_jrnl, set_objects. simpl. by rewrite insert_insert_eq.
Qed.

Lemma wp_append a s0 s v e Q :
  at_obj a s0 s v → (∀ s', at_obj a s0 s' v → Q tt s') → wp (append e) Q s.
Proof.
  intros (Hs & o & Hl & Hv & Heq) HQ. eexists _, _. split; [done|]. apply HQ.
  split; [by apply wf_append|]. exists o. split_and!; [done|done|].
  exact (set_jrnl_twice _ _ _ _ Heq).
Qed.

Lemma wp_touch a s0 s v b Q :
  at_obj a s0 s v → (∀ s', at_obj a s0 s' v → Q tt s') → wp (touch b) Q s.
Proof.
  intros Hat HQ. unfold touch. apply wp_bind. apply (wp_append a s0 s v); [done|].
  intros s1 H1. destruct (Z.eqb_spec b ripemd) as [->|]; [|by apply wp_ret, HQ].
  destruct H1 as (Hs & o & Hl & Hv & Heq). eexists _, _. split; [done|]. apply HQ. split.
  - destruct Hs as [W1 W2 W3 W4 W5]. split; try done. intros x n Hx. simpl.
    rewrite dirty_inc_ne by done. by apply W3.
  - exists o. split_and!; [done|done|]. exact (set_jrnl_twice _ _ _ _ Heq).
Qed.

Lemma wp_GetOrNew {A} a s w (k : unit → M A) Q :
  rep s w → (∀ s1, at_obj a s s1 (w a) → wp (k tt) Q s1) → wp (GetOrNewStateObject a ≫= k) Q s.
Proof.
  intros [Hwf Hw] Hk. destruct (GetOrNewStateObject_spec s a Hwf) as (s1 & o & Hr & He & Hl & Hv & Heq).
  apply wp_bind. exists tt, s1. split; [done|]. apply Hk. split; [apply He|]. exists o.
  split_and!; [done| |done]. rewrite Hv. exact (Hw a).
Qed.

Lemma wp_with_object {A} a s w (d : A) (m : M A) Q :
  rep s w → (∀ s1, at_obj a s s1 (w a) → wp m Q s1) →
  (w a ≡ emptyView → Q d s) → wp (with_object a d m) Q s.
Proof.
  intros [Hwf Hw] Hk Hd. unfold with_object. apply wp_bind. destruct (obj_at s a) as [p|] eqn:E.
  - exists true, (put a p s). split; [by apply getStateObject_found|]. apply Hk.
    pose proof (obj_at_good s a p Hwf E) as Hg. split; [by apply put_wf|].
    exists p. split_and!; [by apply live_put, Hg| |by destruct s].
    rewrite <- (Hw a). unfold world, sview. by rewrite E.
  - exists false, s. split; [by apply getStateObject_missing|]. apply wp_ret, Hd.
    rewrite <- (Hw a). unfold world, sview. by rewrite E.
Qed.

(** ** Operations on the object *)

Lemma wp_obj_Balance a s0 s v h Q :
  at_obj a s0 s v → (∀ s', at_obj a s0 s' v → Q (v_bal v h) s') → wp (obj_Balance a h) Q s.
Proof.
  intros Hat HQ. apply (wp_updates a s0 s v id (fun v => v_bal v h)); [done|apply obj_Balance_updates|by intros ? ?|].
  intros s' v0 Hv0 H'. rewrite (ve_bal _ _ Hv0 h). by apply HQ.
Qed.
Lemma wp_obj_TimeLockBalance a s0 s v h Q :
  at_obj a s0 s v → (∀ s', at_obj a s0 s' v → Q (v_tl v h) s') → wp (obj_TimeLockBalance a h) Q s.
Proof.
  intros Hat HQ. apply (wp_updates a s0 s v id (fun v => v_tl v h));
    [done|apply obj_TimeLockBalance_updates|by intros ? ?|].
  intros s' v0 Hv0 H'. rewrite (ve_tl _ _ Hv0 h). by apply HQ.
Qed.
Lemma wp_obj_GetState a s0 s v k Q :
  at_obj a s0 s v → (∀ s', at_obj a s0 s' v → Q (v_slot v k) s') → wp (obj_GetState a k) Q s.
Proof.
  intros Hat HQ. apply (wp_updates a s0 s v id (fun v => v_slot v k));
    [done|apply obj_GetState_updates|by intros ? ?|].
  intros s' v0 Hv0 H'. rewrite (ve_slot _ _ Hv0 k). by apply HQ.
Qed.

Lemma wp_deref a s0 s v Q :
  at_obj a s0 s v → (∀ o, view (db s0) o ≡ v → Q o s) → wp (deref a) Q s.
Proof.
  intros (Hs & o & [Ho Hd] & Hv & Heq) HQ. exists o, s. split; [|by apply HQ].
  unfold deref. by rewrite Ho.
Qed.

Lemma wp_write a s0 s v f m e Q :
  at_obj a s0 s v → updates a f (fun _ => tt) m → Proper ((≡) ==> (≡)) f →
  (∀ s', at_obj a s0 s' (f v) → Q tt s') → wp (append e ≫= fun _ => m) Q s.
Proof.
  intros Hat Hm Hp HQ. apply wp_bind. apply (wp_append a s0 s v); [done|]. intros s1 H1.
  apply (wp_updates a s0 s1 v f (fun _ => tt)); [done|done|done|]. intros s' _ _. apply HQ.
Qed.

Lemma wp_obj_SetNonce a s0 s v n Q :
  at_obj a s0 s v → (∀ s', at_obj a s0 s' (vset_nonce n v) → Q tt s') → wp (obj_SetNonce a n) Q s.
Proof.
  intros Hat HQ. apply wp_bind, (wp_deref a s0 s v); [done|]. intros o _.
  apply (wp_write a s0 s v (vset_nonce n)); [done|apply set_Nonce_updates|apply _|done].
Qed.
Lemma wp_obj_SetNotation a s0 s v n Q :
  at_obj a s0 s v → (∀ s', at_obj a s0 s' (vset_notation n v) → Q tt s') → wp (obj_SetNotation a n) Q s.
Proof.
  intros Hat HQ. apply wp_bind, (wp_deref a s0 s v); [done|]. intros o _.
  apply (wp_write a s0 s v (vset_notation n)); [done|apply set_Notaion_updates|apply _|done].
Qed.

Lemma at_obj_proper a s0 s v v' : v ≡ v' → at_obj a s0 s v → at_obj a s0 s v'.
Proof. intros Hv (Hs & o & Hl & Ho & Heq). split; [done|]. exists o. by rewrite <- Hv. Qed.

Lemma wp_obj_SetState a s0 s v k x Q :
  at_obj a s0 s v → (∀ s', at_obj a s0 s' (vset_slot k x v) → Q tt s') → wp (obj_SetState a k x) Q s.
Proof.
  intros Hat HQ. apply wp_bind, (wp_obj_GetState a s0 s v); [done|]. intros s1 H1.
  destruct (Z.eqb_spec (v_slot v k) x) as [<-|].
  - apply wp_ret, HQ. eapply at_obj_proper; [|done]. split; try done. intros k'. simpl. unfold upd.
    by destruct (Z.eqb_spec k k') as [<-|].
  - apply (wp_write a s0 s1 v (vset_slot k x)); [done|apply setState_updates|apply _|done].
Qed.

Lemma wp_obj_SetBalance a s0 s v h b x Q :
  at_obj a s0 s v → v_bal v h = Some b →
  (∀ s', at_obj a s0 s' (vset_bal h (Some x) v) → Q tt s') → wp (obj_SetBalance a h x) Q s.
Proof.
  intros Hat Hb HQ. apply wp_bind, (wp_obj_Balance a s0 s v); [done|]. intros s1 H1.
  apply wp_bind, (wp_non_nil _ b); [done|].
  apply (wp_write a s0 s1 v (vset_bal h (Some x))); [done|apply obj_setBalance_updates|apply _|done].
Qed.

Lemma wp_obj_SetTimeLockBalance a s0 s v h z Q :
  at_obj a s0 s v → wfTL z →
  (∀ s', at_obj a s0 s' (vset_tl h (Some z) v) → Q tt s') →
  wp (obj_SetTimeLockBalance a h (Some z)) Q s.
Proof.
  intros Hat Hz HQ. apply wp_bind, (wp_obj_TimeLockBalance a s0 s v); [done|]. intros s1 H1.
  apply (wp_write a s0 s1 v (vset_tl h (Some z)));
    [done|by apply obj_setTimeLockBalance_updates|apply _|done].
Qed.

Lemma vset_bal_same h v b : v_bal v h = Some b → v ≡ vset_bal h (Some b) v.
Proof.
  intros Hb. split; try done. intros h'. simpl. unfold upd. by destruct (Z.eqb_spec h h') as [<-|].
Qed.
Lemma vset_tl_same h v z : v_tl v h = Some z → v ≡ vset_tl h (Some z) v.
Proof.
  intros Hb. split; try done. intros h'. simpl. unfold upd. by destruct (Z.eqb_spec h h') as [<-|].
Qed.

Lemma wp_obj_AddBalance a s0 s v h b x Q :
  at_obj a s0 s v → v_bal v h = Some b →
  (∀ s', at_obj a s0 s' (vset_bal h (Some (b + x)) v) → Q tt s') → wp (obj_AddBalance a h x) Q s.
Proof.
  intros Hat Hb HQ. unfold obj_AddBalance, bigSign. destruct (Z.eqb_spec (Z.sgn x) 0) as [Hx|Hx].
  - assert (x = 0) as -> by lia. rewrite Z.add_0_r in HQ.
    assert (HQ' : ∀ s', at_obj a s0 s' v → Q tt s').
    { intros s' H'. apply HQ. eapply at_obj_proper; [|done]. by apply vset_bal_same. }
    apply wp_bind, (wp_deref a s0 s v); [done|]. intros o _.
    destruct (empty o); [by apply (wp_touch a s0 s v)|by apply wp_ret, HQ'].
  - apply wp_bind, (wp_obj_Balance a s0 s v); [done|]. intros s1 H1.
    apply wp_bind, (wp_non_nil _ b); [done|]. by apply (wp_obj_SetBalance a s0 s1 v h b).
Qed.

Lemma wp_obj_SubBalance a s0 s v h b x Q :
  at_obj a s0 s v → v_bal v h = Some b →
  (∀ s', at_obj a s0 s' (vset_bal h (Some (b - x)) v) → Q tt s') → wp (obj_SubBalance a h x) Q s.
Proof.
  intros Hat Hb HQ. unfold obj_SubBalance, bigSign. destruct (Z.eqb_spec (Z.sgn x) 0) as [Hx|Hx].
  - assert (x = 0) as -> by lia. rewrite Z.sub_0_r in HQ. apply wp_ret, HQ.
    eapply at_obj_proper; [|done]. by apply vset_bal_same.
  - apply wp_bind, (wp_obj_Balance a s0 s v); [done|]. intros s1 H1.
    apply wp_bind, (wp_non_nil _ b); [done|]. by apply (wp_obj_SetBalance a s0 s1 v h b).
Qed.

(** ** Operations on the state *)

Lemma wset_same a (w : World) : wset a (w a) w ≡ w.
Proof. intros b. unfold wset, upd. by destruct (Z.eqb_spec a b) as [<-|]. Qed.

Lemma at_obj_same a s s' (w : World) : rep s w → at_obj a s s' (w a) → rep s' w ∧ frame s s'.
Proof.
  intros Hr Hat. destruct (at_obj_rep a s s' (w a) w Hr Hat) as [H1 H2]. split; [|done].
  by rewrite wset_same in H1.
Qed.

Lemma wp_GetBalance w s h a Q :
  rep s w → (∀ s', rep s' w → frame s s' → Q (Some (bal w a h)) s') → wp (GetBalance h a) Q s.
Proof.
  intros Hr HQ. apply (wp_with_object a s w); [done| |].
  - intros s1 H1. apply (wp_obj_Balance a s s1 (w a)); [done|]. intros s' H'.
    rewrite (rep_bal s w a h Hr). by apply HQ; apply (at_obj_same a s s' w Hr H').
  - intros He. assert (Some 0 = Some (bal w a h)) as ->; [|by apply HQ].
    rewrite <- (rep_bal s w a h Hr). symmetry. exact (ve_bal _ _ He h).
Qed.

Lemma wp_GetTimeLockBalance w s h a Q :
  rep s w → (∀ s', rep s' w → frame s s' → Q (Some (tl w a h)) s') →
  wp (GetTimeLockBalance h a) Q s.
Proof.
  intros Hr HQ. destruct (rep_tl s w a h Hr) as [Htl _]. apply (wp_with_object a s w); [done| |].
  - intros s1 H1. apply (wp_obj_TimeLockBalance a s s1 (w a)); [done|]. intros s' H'.
    rewrite Htl. by apply HQ; apply (at_obj_same a s s' w Hr H').
  - intros He. assert (Some (mkTimeLock []) = Some (tl w a h)) as ->; [|by apply HQ].
    rewrite <- Htl. symmetry. exact (ve_tl _ _ He h).
Qed.

Lemma wp_GetNonce w s a Q :
  rep s w → (∀ s', rep s' w → frame s s' → Q (nonce w a) s') → wp (GetNonce a) Q s.
Proof.
  intros Hr HQ. apply (wp_with_object a s w); [done| |].
  - intros s1 H1. apply wp_bind, (wp_deref a s s1 (w a)); [done|]. intros o Ho. apply wp_ret.
    assert (Nonce (data o) = nonce w a) as -> by exact (ve_nonce _ _ Ho).
    by apply HQ; apply (at_obj_same a s s1 w Hr H1).
  - intros He. assert (0 = nonce w a) as ->; [|by apply HQ]. symmetry. exact (ve_nonce _ _ He).
Qed.

Lemma wp_GetNotation w s a Q :
  rep s w → (∀ s', rep s' w → frame s s' → Q (notation w a) s') → wp (GetNotation a) Q s.
Proof.
  intros Hr HQ. apply (wp_with_object a s w); [done| |].
  - intros s1 H1. apply wp_bind, (wp_deref a s s1 (w a)); [done|]. intros o Ho. apply wp_ret.
    assert (Notaion (data o) = notation w a) as -> by exact (ve_notation _ _ Ho).
    by apply HQ; apply (at_obj_same a s s1 w Hr H1).
  - intros He. assert (0 = notation w a) as ->; [|by apply HQ]. symmetry. exact (ve_notation _ _ He).
Qed.

Lemma wp_SetNonce w s a n Q :
  rep s w → (∀ s', rep s' (set_nonce a n w) → frame s s' → Q tt s') → wp (SetNonce a n) Q s.
Proof.
  intros Hr HQ. apply (wp_GetOrNew a s w); [done|]. intros s1 H1.
  apply (wp_obj_SetNonce a s s1 (w a)); [done|]. intros s' H'.
  by apply HQ; apply (at_obj_rep a s s' _ w Hr H').
Qed.

Lemma wp_AddBalance w s a h x Q :
  rep s w → (∀ s', rep s' (set_bal a h (bal w a h + x) w) → frame s s' → Q tt s') →
  wp (AddBalance a h x) Q s.
Proof.
  intros Hr HQ. apply (wp_GetOrNew a s w); [done|]. intros s1 H1.
  apply (wp_obj_AddBalance a s s1 (w a) h (bal w a h)); [done|by apply (rep_bal s)|].
  intros s' H'. by apply HQ; apply (at_obj_rep a s s' _ w Hr H').
Qed.

Lemma wp_SubBalance w s a h x Q :
  rep s w → (∀ s', rep s' (set_bal a h (bal w a h - x) w) → frame s s' → Q tt s') →
  wp (SubBalance a h x) Q s.
Proof.
  intros Hr HQ. apply (wp_GetOrNew a s w); [done|]. intros s1 H1.
  apply (wp_obj_SubBalance a s s1 (w a) h (bal w a h)); [done|by apply (rep_bal s)|].
  intros s' H'. by apply HQ; apply (at_obj_rep a s s' _ w Hr H').
Qed.

(** [z'] is [z] with the amounts of [x] added or taken off from [ts] on. *)
Definition tl_added (ts : Z) (z x z' : TimeLock) : Prop :=
  wfTL z' ∧ ∀ t, ts <= t → amountAt z' t = amountAt z t + amountAt x t.
Definition tl_taken (ts : Z) (z x z' : TimeLock) : Prop :=
  wfTL z' ∧ ∀ t, ts <= t → amountAt z' t = amountAt z t - amountAt x t.

Lemma wp_AddTimeLockBalance w s a h z ts Q :
  rep s w → wfTL z →
  (∀ s' z', tl_added ts (tl w a h) z z' → rep s' (set_tl a h z' w) → frame s s' → Q tt s') →
  wp (AddTimeLockBalance a h z ts) Q s.
Proof.
  intros Hr Hz HQ. destruct (rep_tl s w a h Hr) as [Htl Hwtl].
  apply (wp_GetOrNew a s w); [done|]. intros s1 H1. unfold obj_AddTimeLockBalance.
  destruct (IsEmpty z) eqn:Ez.
  - assert (HQ' : ∀ s', at_obj a s s' (w a) → Q tt s').
    { intros s' H'. destruct (at_obj_rep a s s' (vset_tl h (Some (tl w a h)) (w a)) w Hr) as [Hr' Hf].
      { eapply at_obj_proper; [|done]. by apply vset_tl_same. }
      apply (HQ s' (tl w a h)); [|done|done]. split; [done|]. intros t _.
      unfold IsEmpty in Ez. destruct z as [[|? ?]]; [|done]. change (amountAt (mkTimeLock []) t) with 0. lia. }
    apply wp_bind, (wp_deref a s s1 (w a)); [done|]. intros o _.
    destruct (empty o); [by apply (wp_touch a s s1 (w a))|by apply wp_ret, HQ'].
  - apply wp_bind, (wp_obj_TimeLockBalance a s s1 (w a)); [done|]. intros s2 H2. rewrite Htl.
    destruct (TimeLock_Add_ok DebugMode (tl w a h) z Hwtl Hz) as (z' & Hz' & Hwz' & Hat).
    { right. unfold IsEmpty in Ez. by destruct (Items z). }
    apply wp_bind, (wp_lift _ (Some z')); [done|]. destruct (ClearExpired_ok ts z' Hwz') as (Hw' & _ & Hat').
    apply (wp_obj_SetTimeLockBalance a s s2 (w a) h (ClearExpired z' ts)); [done|done|].
    intros s' H'. destruct (at_obj_rep a s s' _ w Hr H') as [Hr' Hf].
    apply (HQ s' (ClearExpired z' ts)); [|done|done]. split; [done|]. intros t Ht.
    by rewrite Hat', Hat.
Qed.

Lemma wp_SubTimeLockBalance w s a h item ts Q :
  rep s w → item_ok item → 0 < StartTime item → coversTL (tl w a h) item →
  (∀ s' z', tl_taken ts (tl w a h) (single item) z' → rep s' (set_tl a h z' w) → frame s s' → Q tt s') →
  wp (SubTimeLockBalance a h (single item) ts) Q s.
Proof.
  intros Hr Hi Hs Hcov HQ. destruct (rep_tl s w a h Hr) as [Htl Hwtl].
  apply (wp_GetOrNew a s w); [done|]. intros s1 H1. unfold obj_SubTimeLockBalance. cbn [IsEmpty single Items].
  apply wp_bind, (wp_obj_TimeLockBalance a s s1 (w a)); [done|]. intros s2 H2. rewrite Htl.
  apply wp_bind, (wp_non_nil _ (tl w a h)); [done|].
  destruct (TimeLock_Sub_covered DebugMode (tl w a h) item Hwtl Hi Hs Hcov) as (z' & Hz' & Hwz' & Hat).
  apply wp_bind, (wp_lift _ z'); [done|]. destruct (ClearExpired_ok ts z' Hwz') as (Hw' & _ & Hat').
  apply (wp_obj_SetTimeLockBalance a s s2 (w a) h (ClearExpired z' ts)); [done|done|].
  intros s' H'. destruct (at_obj_rep a s s' _ w Hr H') as [Hr' Hf].
  apply (HQ s' (ClearExpired z' ts)); [|done|done]. split; [done|]. intros t Ht.
  by rewrite Hat', Hat, amountAt_single.
Qed.

Lemma wp_AddLog w s l Q :
  rep s w → (∀ s', rep s' w → frame s s' → Q tt s') → wp (AddLog l) Q s.
Proof.
  intros [Hwf Hw] HQ. destruct (AddLog l s) as [[[] s']| |] eqn:E; [|done..].
  assert (He : ext s s') by (apply (safe_AddLog [] l s tt s'); [done|set_solver|done]).
  exists tt, s'. split; [done|]. injection E as <-.
  apply HQ; [split; [apply He|exact Hw]|by split].
Qed.

Lemma wp_GetRefund s Q : Q (refund s) s → wp GetRefund Q s.
Proof. apply wp_gets. Qed.
End rules.
