(* ===== verification/Ledger.v ===== *)
(** * The ledger: what an operation moves

    The abstract specification of the money in the state. A holding of an
    account is an amount of an asset, free or locked at a point in time; a
    [delta] says how every holding changes, and [moves ts d w w'] that the world
    [w'] is [w] with the holdings changed by [d] at the times from [ts] on, and
    nothing else. Deltas add up along the operations of a call, so the effect of
    a call is the sum of the effects of its operations. *)

From stdpp Require Import base list gmap strings.
From Stdlib Require Import ZArith Lia.
From S2P Require Import Prelude Bytes Keccak KeccakFacts TimeLock TimeLockFacts Ticket FsnTypes.
From S2P Require Import Rlp RlpFacts Codec StateDB StateRecords StateFacts StateRevert StateInterface.
From S2P Require Import StateWorld.

(** ** Holdings and deltas *)

Inductive kind := Free | At (t : Z).
Definition from_time (ts : Z) (k : kind) : Prop := match k with Free => True | At t => ts <= t end.

Definition holding (w : World) (a : Address) (h : Hash) (k : kind) : Z :=
  match k with Free => bal w a h | At t => amountAt (tl w a h) t end.

Definition delta : Type := Address → Hash → kind → Z.
Definition dzero : delta := fun _ _ _ => 0.
Definition dadd (d e : delta) : delta := fun a h k => d a h k + e a h k.
Definition dneg (d : delta) : delta := fun a h k => - d a h k.
(** An amount of each kind given to one account. *)
Definition gain (a : Address) (h : Hash) (f : kind → Z) : delta :=
  fun a' h' k => if (a =? a') && (h =? h') then f k else 0.
(** An amount taken from one account and given to another. *)
Definition transfer (a b : Address) (h : Hash) (f : kind → Z) : delta :=
  dadd (dneg (gain a h f)) (gain b h f).

(** An amount of the asset, and a time lock. *)
Definition coins (x : Z) (k : kind) : Z := match k with Free => x | At _ => 0 end.
Definition locked (f : Z → Z) (k : kind) : Z := match k with Free => 0 | At t => f t end.

#[export] Instance delta_equiv : Equiv delta := fun d e => ∀ a h k, d a h k = e a h k.
#[export] Instance delta_equivalence : Equivalence (≡@{delta}).
Proof.
  split; [done|by intros d e H a h k|]. intros d1 d2 d3 H1 H2 a h k. by rewrite (H1 a h k), (H2 a h k).
Qed.
#[export] Instance dadd_proper : Proper ((≡) ==> (≡) ==> (≡)) dadd.
Proof. intros d d' Hd e e' He a h k. unfold dadd. by rewrite (Hd a h k), (He a h k). Qed.
#[export] Instance dneg_proper : Proper ((≡) ==> (≡)) dneg.
Proof. intros d d' Hd a h k. unfold dneg. by rewrite (Hd a h k). Qed.

(** Equality of deltas, by cases on the accounts and assets. *)
Ltac delta_solve :=
  intros ? ? ?; unfold transfer, dadd, dneg, dzero, gain, coins, locked;
  repeat match goal with
  | |- context [if ?b then _ else _] => destruct b
  | |- context [match ?k with Free => _ | At _ => _ end] => destruct k
  end; lia.

Lemma transfer_self a h f : transfer a a h f ≡ dzero.
Proof. delta_solve. Qed.

(** What the accounts [l] hold together. *)
Definition total (w : World) (l : list Address) (h : Hash) (k : kind) : Z :=
  sumZ (fun a => holding w a h k) l.

(** ** Moves *)

(** All of an account but its holdings and, for the accounts in [P], the slots
    and the nonce, which change when a record is written. *)
Record keeps (P : Address → Prop) (w w' : World) : Prop := {
  kp_nonce : ∀ a, ¬ P a → nonce w' a = nonce w a;
  kp_notation : ∀ a, notation w' a = notation w a;
  kp_root : ∀ a, v_root (w' a) = v_root (w a);
  kp_codehash : ∀ a, v_codehash (w' a) = v_codehash (w a);
  kp_code : ∀ a, v_code (w' a) = v_code (w a);
  kp_slot : ∀ a k, ¬ P a → slot w' a k = slot w a k;
  kp_cslot : ∀ a k, v_cslot (w' a) k = v_cslot (w a) k;
  kp_suicided : ∀ a, v_suicided (w' a) = v_suicided (w a);
}.
#[export] Instance keeps_preorder P : PreOrder (keeps P).
Proof.
  split; [by split|]. intros w1 w2 w3 H1 H2.
  split; intros; (etransitivity; [by apply H2|by apply H1]).
Qed.
Lemma keeps_equiv P w w' : w ≡ w' → keeps P w w'.
Proof.
  intros H. split; intros a; intros; symmetry; try apply (H a); apply H.
Qed.

Record moves (P : Address → Prop) (ts : Z) (d : delta) (w w' : World) : Prop := {
  mv_holding : ∀ a h k, from_time ts k → holding w' a h k = holding w a h k + d a h k;
  mv_keeps : keeps P w w';
}.

(** No account has its slots changed. *)
Definition nowhere : Address → Prop := fun _ => False.

Lemma moves_refl P ts w : moves P ts dzero w w.
Proof. split; [|done]. intros. unfold dzero. lia. Qed.
Lemma moves_trans P ts d e w1 w2 w3 :
  moves P ts d w1 w2 → moves P ts e w2 w3 → moves P ts (dadd d e) w1 w3.
Proof.
  intros [H1 K1] [H2 K2]. split; [|by transitivity w2]. intros a h k Hk. unfold dadd.
  rewrite H2, H1 by done. lia.
Qed.
Lemma moves_proper P ts d d' w w' : d ≡ d' → moves P ts d w w' → moves P ts d' w w'.
Proof. intros Hd [H K]. split; [|done]. intros a h k Hk. by rewrite <- (Hd a h k), H. Qed.
Lemma moves_equiv P ts w w' : w ≡ w' → moves P ts dzero w w'.
Proof.
  intros H. split; [|by apply keeps_equiv]. intros a h [|t] _; unfold holding, dzero; rewrite <- H; lia.
Qed.
Lemma moves_weaken (P P' : Address → Prop) ts d w w' :
  (∀ a, P a → P' a) → moves P ts d w w' → moves P' ts d w w'.
Proof. intros HP [H []]. split; [done|]. split; auto. Qed.

Lemma moves_set_bal P ts a h x w :
  moves P ts (gain a h (coins (x - bal w a h))) w (set_bal a h x w).
Proof.
  split.
  - intros a' h' [|t] _; unfold holding, gain, coins; autorewrite with world.
    + destruct (Z.eqb_spec a a') as [<-|], (Z.eqb_spec h h') as [<-|]; simpl; lia.
    + destruct (_ && _); lia.
  - split; intros a'; unfold nonce, notation, slot, set_bal, wset, upd; destruct (Z.eqb_spec a a') as [<-|]; done.
Qed.

Lemma moves_set_tl P ts a h z f w :
  (∀ t, ts <= t → amountAt z t = amountAt (tl w a h) t + f t) →
  moves P ts (gain a h (locked f)) w (set_tl a h z w).
Proof.
  intros Hz. split.
  - intros a' h' [|t] Ht; unfold holding, gain, locked; autorewrite with world.
    + destruct (_ && _); lia.
    + destruct (Z.eqb_spec a a') as [<-|], (Z.eqb_spec h h') as [<-|]; simpl in *; rewrite ?Hz by done; lia.
  - split; intros a'; unfold nonce, notation, slot, set_tl, wset, upd; destruct (Z.eqb_spec a a') as [<-|]; done.
Qed.

(** A transfer leaves the total of accounts that include both, without
    repetition. *)
Lemma sumZ_gain l a h f h' k :
  NoDup l → a ∈ l → sumZ (fun a' => gain a h f a' h' k) l = if h =? h' then f k else 0.
Proof.
  induction l as [|b l IH]; intros Hnd Hin; [set_solver|].
  apply NoDup_cons in Hnd as [Hb Hnd]. simpl. unfold gain at 1.
  destruct (Z.eqb_spec a b) as [<-|Hne].
  - rewrite (sumZ_zero _ l); [simpl; lia|]. intros b Hbl. unfold gain.
    destruct (Z.eqb_spec a b) as [<-|]; done.
  - rewrite IH; [done..|set_solver].
Qed.

Lemma sumZ_add {A} (f g : A → Z) l : sumZ (fun x => f x + g x) l = sumZ f l + sumZ g l.
Proof. induction l; simpl; lia. Qed.
Lemma sumZ_opp {A} (f : A → Z) l : sumZ (fun x => - f x) l = - sumZ f l.
Proof. induction l; simpl; lia. Qed.

Lemma moves_total P ts d w w' l h k :
  moves P ts d w w' → from_time ts k →
  total w' l h k = total w l h k + sumZ (fun a => d a h k) l.
Proof. intros Hm Hk. unfold total. rewrite <- sumZ_add. apply sumZ_ext. intros a _. by apply Hm. Qed.

Lemma transfer_total P ts a b h f w w' l h' k :
  moves P ts (transfer a b h f) w w' → from_time ts k → NoDup l → a ∈ l → b ∈ l →
  total w' l h' k = total w l h' k.
Proof.
  intros Hm Hk Hl Ha Hb. rewrite (moves_total _ _ _ _ _ _ _ _ Hm Hk).
  unfold transfer, dadd, dneg. rewrite sumZ_add, sumZ_opp, !sumZ_gain by done. lia.
Qed.

(** An amount as it counts at the time [t]. *)
Definition spend (f : kind → Z) (t : Z) : Z := f Free + f (At t).

(** ** The sum of a delta over accounts *)

Definition dsum (l : list Address) (d : delta) (h : Hash) (t : Z) : Z :=
  sumZ (fun a => d a h Free + d a h (At t)) l.

Create Rewrite HintDb dsum.
Lemma dsum_zero l h t : dsum l dzero h t = 0.
Proof. apply sumZ_zero. done. Qed.
Lemma dsum_add l d e h t : dsum l (dadd d e) h t = dsum l d h t + dsum l e h t.
Proof. unfold dsum. rewrite <- sumZ_add. apply sumZ_ext. intros a _. unfold dadd. lia. Qed.
Lemma dsum_neg l d h t : dsum l (dneg d) h t = - dsum l d h t.
Proof. unfold dsum. rewrite <- sumZ_opp. apply sumZ_ext. intros a _. unfold dneg. lia. Qed.
Lemma dsum_gain l a h f h' t :
  NoDup l → a ∈ l → dsum l (gain a h f) h' t = if h =? h' then spend f t else 0.
Proof.
  intros Hl Ha. unfold dsum, spend. rewrite sumZ_add, !sumZ_gain by done. by destruct (h =? h').
Qed.
#[export] Hint Rewrite dsum_zero dsum_add dsum_neg : dsum.

(** ** Operations *)

Section rules.
Context `{SP : StateParams}.
Implicit Types (P : Address → Prop).

(** A program that changes the holdings only, by [d]. *)
Lemma wp_AddBalance_moves P ts w s a h x Q :
  rep s w →
  (∀ s' w', rep s' w' → frame s s' → moves P ts (gain a h (coins x)) w w' → Q tt s') →
  wp (AddBalance a h x) Q s.
Proof.
  intros Hr HQ. apply (wp_AddBalance w); [done|]. intros s' Hr' Hf. eapply HQ; [done|done|].
  eapply moves_proper; [|apply moves_set_bal]. intros a' h' k. do 2 f_equal. lia.
Qed.

Lemma wp_SubBalance_moves P ts w s a h x Q :
  rep s w →
  (∀ s' w', rep s' w' → frame s s' → moves P ts (dneg (gain a h (coins x))) w w' → Q tt s') →
  wp (SubBalance a h x) Q s.
Proof.
  intros Hr HQ. apply (wp_SubBalance w); [done|]. intros s' Hr' Hf. eapply HQ; [done|done|].
  eapply moves_proper; [|apply moves_set_bal]. delta_solve.
Qed.

Lemma wp_AddTimeLock_moves P ts w s a h z Q :
  rep s w → wfTL z →
  (∀ s' w', rep s' w' → frame s s' → moves P ts (gain a h (locked (amountAt z))) w w' → Q tt s') →
  wp (AddTimeLockBalance a h z ts) Q s.
Proof.
  intros Hr Hz HQ. apply (wp_AddTimeLockBalance w); [done|done|]. intros s' z' [_ Hz'] Hr' Hf.
  eapply HQ; [done|done|]. by apply moves_set_tl.
Qed.

Lemma wp_SubTimeLock_moves P ts w s a h item Q :
  rep s w → item_ok item → 0 < StartTime item → coversTL (tl w a h) item →
  (∀ s' w', rep s' w' → frame s s' →
     moves P ts (dneg (gain a h (locked (itemAt item)))) w w' → Q tt s') →
  wp (SubTimeLockBalance a h (single item) ts) Q s.
Proof.
  intros Hr Hi Hs Hc HQ. apply (wp_SubTimeLockBalance w); [done..|]. intros s' z' [_ Hz'] Hr' Hf.
  eapply HQ; [done|done|].
  eapply moves_proper; [|apply (moves_set_tl P ts a h z' (fun t => - itemAt item t))]; [delta_solve|].
  intros t Ht. rewrite Hz', amountAt_single by done. lia.
Qed.
End rules.
