(* ===== verification/RecordFacts.v ===== *)
(** * Records in the storage of an account

    [SetStructData] spreads a byte string over storage slots: a header with its
    size at the hash of the key, and 32 bytes each at the hashes of the chunk
    number and that hash. [holds f key b] is what it leaves in the slots [f];
    reading gives [b] back, and writing another key leaves it alone when the
    slots of the two do not collide. *)

From stdpp Require Import base list gmap strings.
From Stdlib Require Import ZArith Lia.
From S2P Require Import Prelude Bytes Keccak KeccakFacts TimeLock TimeLockFacts Ticket FsnTypes.
From S2P Require Import Rlp RlpFacts Codec StateDB StateRecords StateFacts StateRevert StateInterface.
From S2P Require Import StateWorld Ledger.

(** ** Chunks *)

Definition chunk (b : bytes) (i : nat) : bytes := take 32 (drop (32 * i) b).
Definition chunks (b : bytes) : nat := ((length b + 31) / 32)%nat.

Lemma are_bytes_zeros k : are_bytes (replicate k 0).
Proof. by apply Forall_replicate. Qed.

(** A hash set from at most 32 bytes has them at its end. *)
Lemma Hash_Bytes_SetBytes b :
  are_bytes b → (length b <= 32)%nat → Hash_Bytes (SetBytes b) = replicate (32 - length b) 0 ++ b.
Proof.
  intros Hb Hlen. rewrite <- (SetBytes_zeros (32 - length b)).
  rewrite <- (be_bytes_SetBytes (replicate (32 - length b) 0 ++ b)) at 2.
  - rewrite length_app, length_replicate. unfold Hash_Bytes, HashLength. f_equal. lia.
  - apply Forall_app_2; [apply are_bytes_zeros|done].
Qed.

Lemma chunk_length b i : (length (chunk b i) <= 32)%nat.
Proof. unfold chunk. rewrite length_take. lia. Qed.
Lemma chunk_bytes b i : are_bytes b → are_bytes (chunk b i).
Proof. intros Hb. by apply Forall_take, Forall_drop. Qed.
Lemma take_chunk b i : take (32 * S i) b = take (32 * i) b ++ chunk b i.
Proof.
  unfold chunk. replace (32 * S i)%nat with (32 * i + 32)%nat by lia. symmetry. apply take_take_drop.
Qed.

Lemma chunks_bound b i : (i < chunks b)%nat ↔ (32 * i < length b)%nat.
Proof.
  unfold chunks. split; intros H.
  - pose proof (Nat.Div0.mul_div_le (length b + 31) 32). lia.
  - apply Nat.div_le_lower_bound; lia.
Qed.

Lemma chunks_Z b :
  (if Z.of_nat (length b) mod 32 =? 0 then Z.of_nat (length b) / 32
   else Z.of_nat (length b) / 32 + 1) = Z.of_nat (chunks b).
Proof.
  unfold chunks. rewrite Nat2Z.inj_div, Nat2Z.inj_add. set (n := Z.of_nat (length b)).
  change (Z.of_nat 31) with 31. change (Z.of_nat 32) with 32.
  destruct (Z.eqb_spec (n mod 32) 0); Z.div_mod_to_equations; lia.
Qed.

(** ** What a byte string looks like in the slots *)

Definition record_slots (key : bytes) (n : nat) : list Hash :=
  keccak key :: map (fun i => slot_key (keccak key) (Z.of_nat i)) (seq 0 n).

Record holds (f : Hash → Hash) (key b : bytes) : Prop := {
  hd_info : f (keccak key) = struct_info (Z.of_nat (length b)) (Z.of_nat (chunks b));
  hd_chunk : ∀ i, (i < chunks b)%nat →
    f (slot_key (keccak key) (Z.of_nat i)) = SetBytes (chunk b i);
}.

(** A byte string that the header can describe. *)
Definition storable (b : bytes) : Prop := are_bytes b ∧ Z.of_nat (length b) < 2 ^ 31.

Lemma struct_info_bytes size len :
  Hash_Bytes (struct_info size len) =
    IntToBytes size ++ replicate 12 0 ++ IntToBytes len ++ replicate 12 0.
Proof.
  unfold struct_info. set (l := IntToBytes size ++ _).
  assert (Hl : length l = 32%nat).
  { unfold l. by rewrite !length_app, !length_replicate, !IntToBytes_length. }
  assert (Hb : are_bytes l).
  { unfold l, IntToBytes. rewrite !Forall_app.
    split_and!; (apply are_bytes_zeros || apply be_bytes_are_bytes). }
  rewrite Hash_Bytes_SetBytes by (done || lia). by rewrite Hl.
Qed.

Lemma chunks_small b : storable b → Z.of_nat (chunks b) < 2 ^ 31.
Proof.
  intros [_ Hb]. destruct (Nat.eq_dec (chunks b) 0) as [->|Hn]; [done|].
  assert (32 * (chunks b - 1) < length b)%nat by (apply chunks_bound; lia). lia.
Qed.

Lemma struct_info_size b :
  storable b →
  let info := Hash_Bytes (struct_info (Z.of_nat (length b)) (Z.of_nat (chunks b))) in
  BytesToInt (take 4 info) = Z.of_nat (length b) ∧
  BytesToInt (take 4 (drop 16 info)) = Z.of_nat (chunks b).
Proof.
  intros Hs. pose proof (chunks_small b Hs). destruct Hs as [_ Hlen]. cbv zeta. rewrite struct_info_bytes.
  split.
  - rewrite take_app_le, take_ge by (rewrite IntToBytes_length; lia).
    rewrite <- (app_nil_r (IntToBytes _)). apply BytesToInt_IntToBytes. unfold is_int32. lia.
  - rewrite drop_app_ge by (rewrite IntToBytes_length; lia). rewrite IntToBytes_length.
    rewrite drop_app_ge, length_replicate by (rewrite length_replicate; lia).
    change (16 - 4 - 12)%nat with O. rewrite drop_0, take_app_le, take_ge by (rewrite IntToBytes_length; lia).
    rewrite <- (app_nil_r (IntToBytes _)). apply BytesToInt_IntToBytes. unfold is_int32. lia.
Qed.

(** ** Writing a list of slots *)

Definition vwrite (l : list (Hash * Hash)) (v : oview) : oview :=
  foldl (fun v kx => vset_slot kx.1 kx.2 v) v l.

Definition writes (key b : bytes) (i n : nat) : list (Hash * Hash) :=
  map (fun j => (slot_key (keccak key) (Z.of_nat j), SetBytes (chunk b j))) (seq i n).

(** A view whose slots are the only difference. *)
Definition vslots (f : Hash → Hash) (v : oview) : oview :=
  mkView (v_nonce v) (v_notation v) (v_bal v) (v_tl v) (v_root v) (v_codehash v) (v_code v) f
    (v_cslot v) (v_suicided v).

Lemma vwrite_slots l v : vwrite l v = vslots (v_slot (vwrite l v)) v.
Proof. revert v. induction l as [|[k x] l IH]; intros v; [by destruct v|]. simpl. by rewrite IH at 1. Qed.

Lemma vwrite_other l v k : k ∉ l.*1 → v_slot (vwrite l v) k = v_slot v k.
Proof.
  revert v. induction l as [|[k' x] l IH]; intros v Hk; [done|]. simpl.
  rewrite IH by set_solver. simpl. unfold upd. destruct (Z.eqb_spec k' k) as [->|]; [set_solver|done].
Qed.

Lemma vwrite_in l v k x : NoDup l.*1 → (k, x) ∈ l → v_slot (vwrite l v) k = x.
Proof.
  revert v. induction l as [|[k' x'] l IH]; intros v Hnd Hin; [set_solver|].
  simpl in Hnd |- *. apply NoDup_cons in Hnd as [Hk' Hnd].
  apply elem_of_cons in Hin as [[= <- <-]|Hin]; [|by apply IH].
  rewrite vwrite_other by done. simpl. unfold upd. by rewrite Z.eqb_refl.
Qed.

Lemma vwrite_app l1 l2 v : vwrite (l1 ++ l2) v = vwrite l2 (vwrite l1 v).
Proof. apply foldl_app. Qed.

Definition record_writes (key b : bytes) : list (Hash * Hash) :=
  (keccak key, struct_info (Z.of_nat (length b)) (Z.of_nat (chunks b))) :: writes key b 0 (chunks b).

Lemma record_writes_keys key b : (record_writes key b).*1 = record_slots key (chunks b).
Proof.
  unfold record_writes, record_slots, writes. simpl. f_equal.
  unfold fmap. by rewrite map_map.
Qed.

Lemma vwrite_holds key b v :
  NoDup (record_slots key (chunks b)) → holds (v_slot (vwrite (record_writes key b) v)) key b.
Proof.
  intros Hnd. rewrite <- record_writes_keys in Hnd. split.
  - apply vwrite_in; [done|]. left.
  - intros i Hi. apply vwrite_in; [done|]. right. apply list_elem_of_In, in_map_iff. exists i.
    split; [done|]. apply in_seq. lia.
Qed.

Lemma holds_other f g key b :
  holds f key b → (∀ k, k ∈ record_slots key (chunks b) → g k = f k) → holds g key b.
Proof.
  intros [Hi Hc] Hg. split.
  - rewrite Hg; [done|]. left.
  - intros i Hi'. rewrite Hg; [by apply Hc|]. right. apply list_elem_of_In, in_map_iff. exists i.
    split; [done|]. apply in_seq. lia.
Qed.

(** One step of reading: the bytes of a chunk put in their place. *)
Lemma put_chunk b i end_ :
  are_bytes b → (32 * i < length b)%nat → end_ = Z.of_nat (32 * i + length (chunk b i)) →
  let d := take (32 * i) b ++ replicate (length b - 32 * i) 0 in
  take (Z.to_nat (Z.of_nat i * 32)) d ++
    drop (Z.to_nat (32 - end_ + Z.of_nat i * 32)) (Hash_Bytes (SetBytes (chunk b i))) ++
    drop (Z.to_nat end_) d =
  take (32 * S i) b ++ replicate (length b - 32 * S i) 0.
Proof.
  intros Hb Hi He d. pose proof (chunk_length b i) as Hcl.
  rewrite Hash_Bytes_SetBytes by (done || by apply chunk_bytes).
  rewrite take_chunk, <- app_assoc. unfold d. f_equal; [|f_equal].
  - rewrite take_app_le by (rewrite length_take; lia). rewrite take_take. f_equal. lia.
  - rewrite drop_app_ge, length_replicate by (rewrite length_replicate; lia).
    by replace (_ - _)%nat with O by lia.
  - rewrite drop_app_ge by (rewrite length_take; lia). rewrite length_take, drop_replicate. f_equal.
    rewrite He. unfold chunk. rewrite length_take, length_drop. lia.
Qed.

Section rules.
Context `{SP : StateParams}.

Lemma wp_SetStructData_loop a s0 key b n i s v Q :
  at_obj a s0 s v → (i + n = chunks b)%nat →
  (∀ s', at_obj a s0 s' (vwrite (writes key b i n) v) → Q tt s') →
  wp (SetStructData_loop a (keccak key) b n (Z.of_nat i)) Q s.
Proof.
  revert i s v. induction n as [|n IH]; intros i s v Hat Hn HQ; cbn [SetStructData_loop].
  { by apply wp_ret, HQ. }
  assert (Hi : (32 * i < length b)%nat) by (apply chunks_bound; lia).
  set (end_ := if _ <? _ then _ else _).
  assert (Hc : take (Z.to_nat (end_ - Z.of_nat i * 32)) (drop (Z.to_nat (Z.of_nat i * 32)) b) = chunk b i).
  { unfold chunk. replace (Z.to_nat (Z.of_nat i * 32)) with (32 * i)%nat by lia. unfold end_.
    destruct (Z.ltb_spec (Z.of_nat (length b)) (Z.of_nat i * 32 + 32)).
    - rewrite !take_ge; [done|rewrite length_drop; lia..].
    - f_equal. lia. }
  rewrite Hc, BytesToHash_short by apply chunk_length.
  apply wp_bind, (wp_obj_SetState a s0 s v); [done|]. intros s1 H1.
  replace (Z.of_nat i + 1) with (Z.of_nat (S i)) by lia.
  apply (IH (S i) s1 (vset_slot (slot_key (keccak key) (Z.of_nat i)) (SetBytes (chunk b i)) v)); [done|lia|].
  intros s' H'. by apply HQ.
Qed.

Lemma wp_SetStructData_obj a s0 key b s v Q :
  at_obj a s0 s v →
  (∀ s', at_obj a s0 s' (vset_nonce (u64 (v_nonce v + 1)) (vwrite (record_writes key b) v)) → Q tt s') →
  wp (_ ← obj_SetState a (keccak key) (struct_info (Z.of_nat (length b)) (Z.of_nat (chunks b)));
      _ ← SetStructData_loop a (keccak key) b (chunks b) 0;
      c ← deref a;
      obj_SetNonce a (u64 (Nonce (data c) + 1))) Q s.
Proof.
  intros Hat HQ. apply wp_bind, (wp_obj_SetState a s0 s v); [done|]. intros s1 H1.
  apply wp_bind, (wp_SetStructData_loop a s0 key b (chunks b) 0 s1 _ _ H1); [lia|]. intros s2 H2.
  apply wp_bind, (wp_deref a s0 s2 _ _ H2). intros o Ho.
  assert (Nonce (data o) = v_nonce v) as ->.
  { change (Nonce (data o)) with (v_nonce (view (db s0) o)). rewrite (ve_nonce _ _ Ho).
    by rewrite vwrite_slots. }
  apply (wp_obj_SetNonce a s0 s2 _ _ _ H2). intros s3 H3. by apply HQ.
Qed.

(** The world after a record was written. *)
Definition write_record (a : Address) (key b : bytes) (w : World) : World :=
  wset a (vset_nonce (u64 (nonce w a + 1)) (vwrite (record_writes key b) (w a))) w.

Lemma wp_SetStructData w s a key b Q :
  rep s w → (∀ s', rep s' (write_record a key b w) → frame s s' → Q tt s') →
  wp (SetStructData a key b) Q s.
Proof.
  intros Hr HQ. unfold SetStructData. apply (wp_GetOrNew a s w); [done|]. intros s1 H1.
  rewrite chunks_Z, Nat2Z.id. apply (wp_SetStructData_obj a s key b s1 (w a) Q H1).
  intros s' H'. by apply HQ; apply (at_obj_rep a s s' _ w Hr H').
Qed.

Lemma wp_GetStructData_loop a s0 key b n i s v (Q : bytes → StateDB → Prop) :
  at_obj a s0 s v → are_bytes b → holds (v_slot v) key b → (i + n = chunks b)%nat →
  (∀ s', at_obj a s0 s' v → Q b s') →
  wp (GetStructData_loop a (keccak key) (Z.of_nat (length b)) n (Z.of_nat i)
        (take (32 * i) b ++ replicate (length b - 32 * i) 0)) Q s.
Proof.
  intros Hat Hb Hh. revert i s Hat. induction n as [|n IH]; intros i s Hat Hn HQ; cbn [GetStructData_loop].
  { apply wp_ret. assert (¬ (32 * i < length b)%nat) by (rewrite <- chunks_bound; lia).
    rewrite take_ge by lia. replace (length b - 32 * i)%nat with O by lia. rewrite app_nil_r. by apply HQ. }
  assert (Hi : (32 * i < length b)%nat) by (apply chunks_bound; lia).
  apply wp_bind, (wp_obj_GetState a s0 s v); [done|]. intros s1 H1. cbv zeta.
  rewrite (hd_chunk _ _ _ Hh) by lia.
  set (end_ := if Z.of_nat (length b) <? _ then _ else _).
  assert (He : end_ = Z.of_nat (32 * i + length (chunk b i))).
  { unfold end_, chunk. rewrite length_take, length_drop.
    destruct (Z.ltb_spec (Z.of_nat (length b)) (Z.of_nat i * 32 + 32)); lia. }
  rewrite (proj2 (Z.ltb_ge end_ (Z.of_nat i * 32))) by lia. rewrite put_chunk by done.
  replace (Z.of_nat i + 1) with (Z.of_nat (S i)) by lia. apply IH; [done|lia|done].
Qed.

Lemma wp_GetStructData w s a key b (Q : bytes → StateDB → Prop) :
  rep s w → storable b → holds (slot w a) key b →
  (∀ s', rep s' w → frame s s' → Q b s') → wp (GetStructData a key) Q s.
Proof.
  intros Hr Hs Hh HQ. unfold GetStructData. apply (wp_GetOrNew a s w); [done|]. intros s1 H1. cbv zeta.
  apply wp_bind, (wp_obj_GetState a s s1 (w a)); [done|]. intros s2 H2.
  assert (Hi := hd_info _ _ _ Hh). unfold slot in Hi. rewrite Hi.
  destruct (struct_info_size b Hs) as [-> ->]. rewrite (proj2 (Z.ltb_ge _ 0)) by lia.
  rewrite !Nat2Z.id.
  pose proof (wp_GetStructData_loop a s key b (chunks b) 0 s2 (w a) Q H2 (proj1 Hs) Hh ltac:(lia)) as Hl.
  rewrite Nat.mul_0_r, Nat.sub_0_r in Hl. apply Hl. intros s' H'.
  by apply HQ; apply (at_obj_same a s s' w Hr H').
Qed.

(** What a write leaves in the slots. *)
Lemma write_record_slots a key b w a' :
  a ≠ a' → slot (write_record a key b w) a' = slot w a'.
Proof. intros Hne. unfold slot, write_record, wset, upd. by destruct (Z.eqb_spec a a'). Qed.

Lemma write_record_holds a key b w :
  NoDup (record_slots key (chunks b)) → holds (slot (write_record a key b w) a) key b.
Proof.
  intros Hnd. unfold slot, write_record, wset, upd. rewrite Z.eqb_refl. by apply vwrite_holds.
Qed.

Lemma write_record_other a key b w key' b' :
  holds (slot w a) key' b' →
  record_slots key (chunks b) ## record_slots key' (chunks b') →
  holds (slot (write_record a key b w) a) key' b'.
Proof.
  intros Hh Hd. apply (holds_other _ _ _ _ Hh). intros k Hk.
  unfold slot, write_record, wset, upd. rewrite Z.eqb_refl. apply vwrite_other.
  rewrite record_writes_keys. intros Hk'. exact (Hd k Hk' Hk).
Qed.

Lemma write_record_moves ts a key b w :
  moves (eq a) ts dzero w (write_record a key b w).
Proof.
  split.
  - intros a' h k _. unfold dzero. rewrite Z.add_0_r. unfold holding, bal, tl, write_record, wset, upd.
    rewrite vwrite_slots. by destruct (Z.eqb_spec a a') as [<-|].
  - unfold write_record. rewrite vwrite_slots.
    split; intros a'; unfold nonce, notation, slot, wset, upd; destruct (Z.eqb_spec a a') as [<-|]; try done.
Qed.
End rules.
