(* ===== verification/RecordStore.v ===== *)
(** * The record stores refine finite maps

    Assets, swaps and multi-swaps are kept as records with a [Deleted] flag in
    the storage of a reserved account. [book w m]: the storage of the account
    holds the entries of the finite map [m]. The operations of statedb.go read
    and change the book as the operations on the map do. The identifiers [ids]
    that are in use are those whose storage slots, hashes of the identifiers and
    of the chunk numbers, do not collide; [N] bounds the chunks of a record. *)

From stdpp Require Import base list gmap strings.
From Stdlib Require Import ZArith Lia.
From S2P Require Import Prelude Bytes Keccak KeccakFacts TimeLock TimeLockFacts Ticket FsnTypes.
From S2P Require Import Rlp RlpFacts Codec StateDB StateRecords StateFacts StateRevert StateInterface.
From S2P Require Import StateWorld Ledger RecordFacts.

(** ** Typed records *)

(** The record [x] is encoded as [b], which fits in the slots. *)
Definition encodes {A} `{!Rlp A} (x : A) (b : bytes) : Prop :=
  rlp_wf x ∧ Marshal x = inl b ∧ Z.of_nat (length b) < 2 ^ 31.

Lemma encodes_ok {A} `{!Rlp A, !RlpOk A} (x : A) b :
  encodes x b → storable b ∧ b ≠ [] ∧ Unmarshal A b = (x, None).
Proof.
  intros (Hwf & HM & Hlen). destruct (rlp_ok x Hwf) as [Hc _].
  assert (Hf : fits b) by (unfold fits, is_u64, two64; lia).
  pose proof HM as He. unfold Marshal in He. rewrite EncodeToBytes_enc in He by by apply canon_has_type.
  split_and!.
  - split; [by apply (enc_are_bytes _ _ _ Hc He)|done].
  - by apply (enc_not_nil _ _ _ He).
  - destruct (Unmarshal_Marshal x Hwf) as (b' & HM' & HU). rewrite HM in HM'. injection HM' as <-. auto.
Qed.

(** A kind of record: the account that keeps it, its flag and its content. *)
Class Persist (A P : Type) := {
  pe_addr : Address;
  pe_make : bool → A → P;
  pe_deleted : P → bool;
  pe_item : P → A;
  pe_deleted_make : ∀ d a, pe_deleted (pe_make d a) = d;
  pe_item_make : ∀ d a, pe_item (pe_make d a) = a;
}.
#[export] Program Instance Asset_persist : Persist Asset assetPersist :=
  { pe_addr := AssetKeyAddress; pe_make := mkAssetPersist; pe_deleted := ap_Deleted; pe_item := ap_Asset }.
Solve All Obligations with done.
#[export] Program Instance Swap_persist : Persist Swap swapPersist :=
  { pe_addr := SwapKeyAddress; pe_make := mkSwapPersist; pe_deleted := sp_Deleted; pe_item := sp_Swap }.
Solve All Obligations with done.
#[export] Program Instance MultiSwap_persist : Persist MultiSwap multiSwapPersist :=
  { pe_addr := MultiSwapKeyAddress; pe_make := mkMultiSwapPersist; pe_deleted := mp_Deleted;
    pe_item := mp_Swap }.
Solve All Obligations with done.

(** No two slots of the records of [ids] are the same. *)
Definition collision_free (ids : list Hash) (N : nat) : Prop :=
  NoDup (mjoin ((fun id => record_slots (Hash_Bytes id) N) <$> ids)).

Lemma record_slots_incl key n N : (n <= N)%nat → record_slots key n ⊆ record_slots key N.
Proof.
  intros Hn k. unfold record_slots. rewrite !elem_of_cons. intros [->|Hk]; [by left|right].
  apply list_elem_of_In, in_map_iff in Hk as (i & <- & Hi). apply list_elem_of_In, in_map_iff.
  exists i. split; [done|]. apply in_seq. apply in_seq in Hi. lia.
Qed.

Lemma record_slots_NoDup key n N : (n <= N)%nat → NoDup (record_slots key N) → NoDup (record_slots key n).
Proof.
  intros Hn. unfold record_slots. replace N with (n + (N - n))%nat by lia.
  rewrite seq_app, map_app. rewrite !NoDup_cons, NoDup_app. set_solver.
Qed.

Lemma collision_free_cons i l N :
  collision_free (i :: l) N ↔
    NoDup (record_slots (Hash_Bytes i) N ++ mjoin ((fun id => record_slots (Hash_Bytes id) N) <$> l)).
Proof. done. Qed.

Section collisions.
Context (ids : list Hash) (N : nat).
Hypothesis Hfree : collision_free ids N.

Lemma collision_free_one id : id ∈ ids → NoDup (record_slots (Hash_Bytes id) N).
Proof.
  intros Hid. revert Hfree.
  induction ids as [|i l IH]; [set_solver|]. rewrite collision_free_cons, NoDup_app.
  intros (H1 & _ & H2). apply elem_of_cons in Hid as [->|Hid]; auto.
Qed.

Lemma collision_free_two id id' :
  id ∈ ids → id' ∈ ids → id ≠ id' →
  record_slots (Hash_Bytes id) N ## record_slots (Hash_Bytes id') N.
Proof.
  revert Hfree. induction ids as [|i l IH]; [set_solver|]. rewrite collision_free_cons, NoDup_app. intros (_ & Hd & Hl) Hid Hid' Hne k Hk Hk'.
  assert (Hin : ∀ j, j ∈ l → k ∈ record_slots (Hash_Bytes j) N →
    k ∈ mjoin ((fun id => record_slots (Hash_Bytes id) N) <$> l)).
  { intros j Hj Hkj. apply list_elem_of_join. eexists. split; [exact Hkj|]. 
    apply list_elem_of_fmap. by exists j. }
  apply elem_of_cons in Hid as [->|Hid]; apply elem_of_cons in Hid' as [->|Hid']; [done| | |].
  - exact (Hd k Hk (Hin _ Hid' Hk')).
  - exact (Hd k Hk' (Hin _ Hid Hk)).
  - exact (IH Hl Hid Hid' Hne k Hk Hk').
Qed.
End collisions.

(** ** The store of a kind of records *)

Section store.
Context {A P : Type} `{!Rlp P, !RlpOk P, PE : Persist A P} `{SP : StateParams}.
Context (ids : list Hash) (N : nat).
Implicit Types (m : gmap Z A).

(** An entry of the account: nothing was written, or a record. *)
Definition entry (p : option P) (b : bytes) : Prop :=
  (chunks b <= N)%nat ∧ match p with None => b = [] | Some p => encodes p b end.
Definition live_item (p : option P) : option A :=
  p ≫= fun p => if pe_deleted p then None else Some (pe_item p).

Definition book (w : World) (m : gmap Z A) : Prop :=
  ∀ id, id ∈ ids → ∃ p b, entry p b ∧ holds (slot w pe_addr) (Hash_Bytes id) b ∧ m !! id = live_item p.

(** A record that can be written. *)
Definition writable (p : P) : Prop := ∃ b, entry (Some p) b.

Lemma book_keeps (Pa : Address → Prop) w w' m :
  ¬ Pa pe_addr → keeps Pa w w' → book w m → book w' m.
Proof.
  intros HP Hk Hb id Hid. destruct (Hb id Hid) as (p & b & He & Hh & Hm). exists p, b.
  split_and!; [done| |done]. apply (holds_other _ _ _ _ Hh). intros k _. by apply Hk.
Qed.

Lemma wp_GetRecord w m s id (Q : option (P * option rlp_error) → StateDB → Prop) :
  rep s w → book w m → id ∈ ids →
  (∀ p s', rep s' w → frame s s' → m !! id = live_item p → Q ((fun p => (p, None)) <$> p) s') →
  wp (GetRecord P pe_addr (Hash_Bytes id)) Q s.
Proof.
  intros Hr Hb Hid HQ. destruct (Hb id Hid) as (p & b & [_ He] & Hh & Hm).
  assert (Hs : storable b) by (destruct p as [p|]; [by destruct (encodes_ok p b He)|by subst b]).
  apply wp_bind, (wp_GetStructData w s pe_addr (Hash_Bytes id) b); [done..|]. intros s' Hr' Hf.
  specialize (HQ p s' Hr' Hf Hm). destruct p as [p|].
  - destruct (encodes_ok p b He) as (_ & Hne & HU). destruct b; [done|]. apply wp_ret. by rewrite HU.
  - subst b. by apply wp_ret.
Qed.

Hypothesis Hfree : collision_free ids N.

Lemma wp_SetRecord w m s id p (Q : option error → StateDB → Prop) :
  rep s w → book w m → id ∈ ids → writable p →
  (∀ s' w', rep s' w' → frame s s' → (∀ ts, moves (eq pe_addr) ts dzero w w') →
     book w' (if pe_deleted p then delete id m else <[id := pe_item p]> m) → Q None s') →
  wp (SetRecord pe_addr (Hash_Bytes id) p) Q s.
Proof.
  intros Hr Hb Hid (b & Hn & He) HQ. unfold SetRecord. destruct He as (Hwf & HM & Hlen). rewrite HM.
  apply wp_bind, (wp_SetStructData w); [done|]. intros s' Hr' Hf. apply wp_ret.
  apply (HQ s' (write_record pe_addr (Hash_Bytes id) b w)); [done|done|intros; apply write_record_moves|].
  intros id' Hid'. destruct (Z.eq_dec id id') as [<-|Hne].
  - exists (Some p), b. split_and!; [done| |].
    + apply write_record_holds. eapply record_slots_NoDup; [exact Hn|]. by eapply collision_free_one.
    + simpl. destruct (pe_deleted p); [apply lookup_delete_eq|apply lookup_insert_eq].
  - destruct (Hb id' Hid') as (p' & b' & He' & Hh' & Hm'). exists p', b'. split_and!; [done| |].
    + apply write_record_other; [done|]. intros k Hk Hk'.
      eapply (collision_free_two ids N Hfree id id'); [done..| |]; (eapply record_slots_incl; [|eassumption]); [done|apply He'].
    + rewrite <- Hm'. destruct (pe_deleted p); [by apply lookup_delete_ne|by apply lookup_insert_ne].
Qed.
End store.

(** ** The operations of a store, up to the text of their errors *)

Section operations.
Context {A P : Type} `{!Rlp P, !RlpOk P, PE : Persist A P} `{SP : StateParams}.

Definition store_get (missing gone : error) (id : Hash) : M (A + error) :=
  r ← GetRecord P pe_addr (Hash_Bytes id);
  match r with
  | None => mret (inr missing)
  | Some (p, _) => if pe_deleted p then mret (inr gone) else mret (inl (pe_item p))
  end.
Definition store_update (id : Hash) (a : A) : M (option error) :=
  SetRecord pe_addr (Hash_Bytes id) (pe_make false a).
Definition store_add (missing gone exist : error) (id : Hash) (a : A) : M (option error) :=
  r ← store_get missing gone id;
  match r with
  | inl _ => mret (Some exist)
  | inr _ => store_update id a
  end.
Definition store_remove (missing gone notfound : error) (id : Hash) : M (option error) :=
  r ← store_get missing gone id;
  match r with
  | inr _ => mret (Some notfound)
  | inl a => SetRecord pe_addr (Hash_Bytes id) (pe_make true a)
  end.

Context (ids : list Hash) (N : nat).
Hypothesis Hfree : collision_free ids N.
Abbreviation book := (book (A := A) (P := P) ids N).
Abbreviation writable := (writable (P := P) N).

Lemma wp_store_get missing gone w m s id (Q : A + error → StateDB → Prop) :
  rep s w → book w m → id ∈ ids →
  (∀ s', rep s' w → frame s s' →
     match m !! id with Some a => Q (inl a) s' | None => ∀ e, Q (inr e) s' end) →
  wp (store_get missing gone id) Q s.
Proof.
  intros Hr Hb Hid HQ. apply wp_bind, (wp_GetRecord ids N w m); [done..|]. intros p s' Hr' Hf Hm.
  specialize (HQ s' Hr' Hf). rewrite Hm in HQ. destruct p as [p|]; simpl in *; [|by apply wp_ret].
  destruct (pe_deleted p); by apply wp_ret.
Qed.

Lemma wp_store_update w m s id a (Q : option error → StateDB → Prop) :
  rep s w → book w m → id ∈ ids → writable (pe_make false a) →
  (∀ s' w', rep s' w' → frame s s' → (∀ ts, moves (eq pe_addr) ts dzero w w') →
     book w' (<[id := a]> m) → Q None s') →
  wp (store_update id a) Q s.
Proof.
  intros Hr Hb Hid Hw HQ. apply (wp_SetRecord ids N Hfree w m); [done..|].
  intros s' w' Hr' Hf Hm Hb'. rewrite pe_deleted_make, pe_item_make in Hb'. eauto.
Qed.

Lemma wp_store_add missing gone exist w m s id a (Q : option error → StateDB → Prop) :
  rep s w → book w m → id ∈ ids → (m !! id = None → writable (pe_make false a)) →
  (∀ s' a', m !! id = Some a' → rep s' w → frame s s' → Q (Some exist) s') →
  (∀ s' w', m !! id = None → rep s' w' → frame s s' → (∀ ts, moves (eq pe_addr) ts dzero w w') →
     book w' (<[id := a]> m) → Q None s') →
  wp (store_add missing gone exist id a) Q s.
Proof.
  intros Hr Hb Hid Hw Hex HQ. apply wp_bind, (wp_store_get _ _ w m); [done..|]. intros s1 Hr1 Hf1.
  destruct (m !! id) as [a'|] eqn:E; [apply wp_ret; by eapply Hex|]. intros _.
  apply (wp_store_update w m); [done..|by apply Hw|]. intros s' w' Hr' Hf Hm Hb'.
  eapply HQ; [done|done|by transitivity s1|done|done].
Qed.

Lemma wp_store_remove missing gone notfound w m s id (Q : option error → StateDB → Prop) :
  rep s w → book w m → id ∈ ids → (∀ a, m !! id = Some a → writable (pe_make true a)) →
  (∀ s', m !! id = None → rep s' w → frame s s' → Q (Some notfound) s') →
  (∀ s' w' a, m !! id = Some a → rep s' w' → frame s s' →
     (∀ ts, moves (eq pe_addr) ts dzero w w') → book w' (delete id m) → Q None s') →
  wp (store_remove missing gone notfound id) Q s.
Proof.
  intros Hr Hb Hid Hw Hex HQ. apply wp_bind, (wp_store_get _ _ w m); [done..|]. intros s1 Hr1 Hf1.
  destruct (m !! id) as [a|] eqn:E; [|intros _; apply wp_ret; by eapply Hex].
  apply (wp_SetRecord ids N Hfree w m); [done..|by apply Hw|]. intros s' w' Hr' Hf Hm Hb'.
  rewrite pe_deleted_make in Hb'. eapply HQ; [done|done|by transitivity s1|done|done].
Qed.
End operations.

(** The operations of statedb.go are these. *)
Section kinds.
Context `{SP : StateParams}.

Lemma GetAsset_store id :
  GetAsset id = store_get (P := assetPersist) (New "asset not found") (New "asset deleted") id.
Proof. reflexivity. Qed.
Lemma GenAsset_store a :
  GenAsset a = store_add (P := assetPersist) (New "asset not found") (New "asset deleted")
    (Errorf "%s asset exists" [as_ID a]) (as_ID a) a.
Proof. reflexivity. Qed.
Lemma UpdateAsset_store a : UpdateAsset a = store_update (P := assetPersist) (as_ID a) a.
Proof. reflexivity. Qed.

Lemma GetSwap_store id :
  GetSwap id = store_get (P := swapPersist) (New "swap not found") (New "swap deleted") id.
Proof. reflexivity. Qed.
Lemma AddSwap_store a :
  AddSwap a = store_add (P := swapPersist) (New "swap not found") (New "swap deleted")
    (Errorf "%s Swap exists" [sw_ID a]) (sw_ID a) a.
Proof. reflexivity. Qed.
Lemma UpdateSwap_store a : UpdateSwap a = store_update (P := swapPersist) (sw_ID a) a.
Proof. reflexivity. Qed.
Lemma RemoveSwap_store id :
  RemoveSwap id = store_remove (P := swapPersist) (New "swap not found") (New "swap deleted")
    (Errorf "%s Swap not found " [id]) id.
Proof. reflexivity. Qed.

Lemma GetMultiSwap_store id :
  GetMultiSwap id = store_get (P := multiSwapPersist) (New "multi swap not found")
    (New "multi swap deleted") id.
Proof. reflexivity. Qed.
Lemma AddMultiSwap_store a :
  AddMultiSwap a = store_add (P := multiSwapPersist) (New "multi swap not found")
    (New "multi swap deleted") (Errorf "%s Multi Swap exists" [mu_ID a]) (mu_ID a) a.
Proof. reflexivity. Qed.
Lemma UpdateMultiSwap_store a :
  UpdateMultiSwap a = store_update (P := multiSwapPersist) (mu_ID a) a.
Proof. reflexivity. Qed.
Lemma RemoveMultiSwap_store id :
  RemoveMultiSwap id = store_remove (P := multiSwapPersist) (New "multi swap not found")
    (New "multi swap deleted") (Errorf "%s Multi Swap not found " [id]) id.
Proof. reflexivity. Qed.
End kinds.

(** ** Refinement

    The operations on records as a language, its meaning in the state and its
    meaning on three finite maps. A result tells what was found, or whether the
    operation returned nil. *)

Inductive record_op :=
| OpGetAsset (id : Hash) | OpGenAsset (a : Asset) | OpUpdateAsset (a : Asset)
| OpGetSwap (id : Hash) | OpAddSwap (a : Swap) | OpUpdateSwap (a : Swap) | OpRemoveSwap (id : Hash)
| OpGetMultiSwap (id : Hash) | OpAddMultiSwap (a : MultiSwap) | OpUpdateMultiSwap (a : MultiSwap)
| OpRemoveMultiSwap (id : Hash).

Inductive record_res :=
| FoundAsset (r : option Asset) | FoundSwap (r : option Swap) | FoundMultiSwap (r : option MultiSwap)
| Returned (ok : bool).

Definition found {A} (r : A + error) : option A := match r with inl a => Some a | inr _ => None end.
Definition no_error (r : option error) : bool := match r with None => true | Some _ => false end.

Definition do_record `{SP : StateParams} (op : record_op) : M record_res :=
  match op with
  | OpGetAsset id => r ← GetAsset id; mret (FoundAsset (found r))
  | OpGenAsset a => r ← GenAsset a; mret (Returned (no_error r))
  | OpUpdateAsset a => r ← UpdateAsset a; mret (Returned (no_error r))
  | OpGetSwap id => r ← GetSwap id; mret (FoundSwap (found r))
  | OpAddSwap a => r ← AddSwap a; mret (Returned (no_error r))
  | OpUpdateSwap a => r ← UpdateSwap a; mret (Returned (no_error r))
  | OpRemoveSwap id => r ← RemoveSwap id; mret (Returned (no_error r))
  | OpGetMultiSwap id => r ← GetMultiSwap id; mret (FoundMultiSwap (found r))
  | OpAddMultiSwap a => r ← AddMultiSwap a; mret (Returned (no_error r))
  | OpUpdateMultiSwap a => r ← UpdateMultiSwap a; mret (Returned (no_error r))
  | OpRemoveMultiSwap id => r ← RemoveMultiSwap id; mret (Returned (no_error r))
  end.

Fixpoint do_records `{SP : StateParams} (ops : list record_op) : M (list record_res) :=
  match ops with
  | [] => mret []
  | op :: ops => r ← do_record op; rs ← do_records ops; mret (r :: rs)
  end.

Record books := mkBooks {
  bk_assets : gmap Z Asset;
  bk_swaps : gmap Z Swap;
  bk_multi : gmap Z MultiSwap;
}.

(** Adding fails when there is an entry, removing when there is none. *)
Definition map_add {A} (id : Hash) (a : A) (m : gmap Z A) : bool * gmap Z A :=
  match m !! id with Some _ => (false, m) | None => (true, <[id := a]> m) end.
Definition map_remove {A} (id : Hash) (m : gmap Z A) : bool * gmap Z A :=
  match m !! id with Some _ => (true, delete id m) | None => (false, m) end.

Definition spec_record (op : record_op) (B : books) : record_res * books :=
  let '(mkBooks assets swaps multi) := B in
  match op with
  | OpGetAsset id => (FoundAsset (assets !! id), B)
  | OpGenAsset a => let r := map_add (as_ID a) a assets in (Returned r.1, mkBooks r.2 swaps multi)
  | OpUpdateAsset a => (Returned true, mkBooks (<[as_ID a := a]> assets) swaps multi)
  | OpGetSwap id => (FoundSwap (swaps !! id), B)
  | OpAddSwap a => let r := map_add (sw_ID a) a swaps in (Returned r.1, mkBooks assets r.2 multi)
  | OpUpdateSwap a => (Returned true, mkBooks assets (<[sw_ID a := a]> swaps) multi)
  | OpRemoveSwap id => let r := map_remove id swaps in (Returned r.1, mkBooks assets r.2 multi)
  | OpGetMultiSwap id => (FoundMultiSwap (multi !! id), B)
  | OpAddMultiSwap a => let r := map_add (mu_ID a) a multi in (Returned r.1, mkBooks assets swaps r.2)
  | OpUpdateMultiSwap a => (Returned true, mkBooks assets swaps (<[mu_ID a := a]> multi))
  | OpRemoveMultiSwap id => let r := map_remove id multi in (Returned r.1, mkBooks assets swaps r.2)
  end.

Fixpoint spec_records (ops : list record_op) (B : books) : list record_res * books :=
  match ops with
  | [] => ([], B)
  | op :: ops =>
      let '(r, B) := spec_record op B in let '(rs, B) := spec_records ops B in (r :: rs, B)
  end.

Section refinement.
Context `{SP : StateParams} (ids : list Hash) (N : nat).
Hypothesis Hfree : collision_free ids N.

(** The identifiers are in use, and what is written fits, with either flag. *)
Definition fits_store {A P} `{!Rlp P, PE : Persist A P} (id : Hash) (a : A) : Prop :=
  id ∈ ids ∧ ∀ d, writable N (pe_make (A := A) (P := P) d a).
Definition op_ok (op : record_op) : Prop :=
  match op with
  | OpGetAsset id | OpGetSwap id | OpGetMultiSwap id | OpRemoveSwap id | OpRemoveMultiSwap id => id ∈ ids
  | OpGenAsset a | OpUpdateAsset a => fits_store (P := assetPersist) (as_ID a) a
  | OpAddSwap a | OpUpdateSwap a => fits_store (P := swapPersist) (sw_ID a) a
  | OpAddMultiSwap a | OpUpdateMultiSwap a => fits_store (P := multiSwapPersist) (mu_ID a) a
  end.

(** A book with entries under the identifiers only, which could be written again,
    deleted or not. A world has one such book: [shelf_unique]. *)
Definition shelf (A P : Type) `{!Rlp P, PE : Persist A P} (w : World) (m : gmap Z A) : Prop :=
  book (P := P) ids N w m ∧
  ∀ id a, m !! id = Some a → id ∈ ids ∧ ∀ d, writable N (pe_make (A := A) (P := P) d a).

Record shelves (w : World) (B : books) : Prop := {
  sv_assets : shelf Asset assetPersist w (bk_assets B);
  sv_swaps : shelf Swap swapPersist w (bk_swaps B);
  sv_multi : shelf MultiSwap multiSwapPersist w (bk_multi B);
}.

Lemma shelf_other A P `{!Rlp P, PE : Persist A P} (a : Address) w w' m :
  a ≠ pe_addr (A := A) (P := P) → (∀ ts, moves (eq a) ts dzero w w') →
  shelf A P w m → shelf A P w' m.
Proof.
  intros Ha Hm [Hb Hw]. split; [|done]. apply (book_keeps ids N (eq a) w); [done|apply (Hm 0)|done].
Qed.

Section kind.
Context {A P : Type} `{!Rlp P, !RlpOk P, PE : Persist A P}.

(** The state after an operation on this store. *)
Definition stepped (s : StateDB) (w : World) (m : gmap Z A) (s' : StateDB) : Prop :=
  ∃ w', rep s' w' ∧ frame s s' ∧ (∀ ts, moves (eq (pe_addr (A := A) (P := P))) ts dzero w w')
    ∧ shelf A P w' m.

Lemma stepped_same s w m s' : rep s' w → frame s s' → shelf A P w m → stepped s w m s'.
Proof. intros Hr Hf Hs. exists w. split_and!; [done|done|intros; apply moves_refl|done]. Qed.

Lemma shelf_insert w m w' id a :
  shelf A P w m → fits_store (P := P) id a → book (P := P) ids N w' (<[id := a]> m) →
  shelf A P w' (<[id := a]> m).
Proof.
  intros [_ Hw] [Hid Ha] Hb. split; [done|]. intros id' a'. rewrite lookup_insert_Some. naive_solver.
Qed.

Lemma shelf_get e1 e2 s w m id :
  rep s w → shelf A P w m → id ∈ ids →
  wp (store_get (A := A) (P := P) e1 e2 id) (fun r s' => found r = m !! id ∧ stepped s w m s') s.
Proof.
  intros Hr Hs Hid. apply (wp_store_get ids N _ _ w m); [done|apply Hs|done|]. intros s' Hr' Hf.
  destruct (m !! id) as [a|]; [|intros e]; split; auto using stepped_same.
Qed.

(** A state has one book. *)
Lemma shelf_unique s w m1 m2 : rep s w → shelf A P w m1 → shelf A P w m2 → m1 = m2.
Proof.
  intros Hr H1 H2. apply map_eq. intros id. destruct (decide (id ∈ ids)) as [Hid|Hid].
  - destruct (shelf_get (New "absent") (New "absent") s w m1 id Hr H1 Hid) as (r1 & s1 & E1 & <- & _).
    destruct (shelf_get (New "absent") (New "absent") s w m2 id Hr H2 Hid) as (r2 & s2 & E2 & <- & _). congruence.
  - assert (Hnone : ∀ m, shelf A P w m → m !! id = None).
    { intros m [_ Hw]. destruct (m !! id) as [a|] eqn:E; [|done]. by destruct (Hw id a E). }
    by rewrite (Hnone m1), (Hnone m2).
Qed.

Lemma shelf_update s w m id a :
  rep s w → shelf A P w m → fits_store (P := P) id a →
  wp (store_update (P := P) id a) (fun r s' => no_error r = true ∧ stepped s w (<[id := a]> m) s') s.
Proof.
  intros Hr Hs Ha. apply (wp_store_update ids N Hfree w m); [done|apply Hs|apply Ha|apply Ha|].
  intros s' w' Hr' Hf Hm Hb. split; [done|]. exists w'. split_and!; [done..|by eapply shelf_insert].
Qed.

Lemma shelf_add e1 e2 e3 s w m id a :
  rep s w → shelf A P w m → fits_store (P := P) id a →
  wp (store_add (P := P) e1 e2 e3 id a)
     (fun r s' => no_error r = (map_add id a m).1 ∧ stepped s w (map_add id a m).2 s') s.
Proof.
  intros Hr Hs Ha. unfold map_add.
  apply (wp_store_add ids N Hfree _ _ _ w m); [done|apply Hs|apply Ha|intros _; apply Ha| |].
  - intros s' a' -> Hr' Hf. split; [done|]. by apply stepped_same.
  - intros s' w' -> Hr' Hf Hm Hb. split; [done|]. exists w'. split_and!; [done..|by eapply shelf_insert].
Qed.

Lemma shelf_remove e1 e2 e3 s w m id :
  rep s w → shelf A P w m → id ∈ ids →
  wp (store_remove (A := A) (P := P) e1 e2 e3 id)
     (fun r s' => no_error r = (map_remove id m).1 ∧ stepped s w (map_remove id m).2 s') s.
Proof.
  intros Hr Hs Hid. unfold map_remove.
  apply (wp_store_remove ids N Hfree _ _ _ w m); [done|apply Hs|done|by intros a Ha; eapply Hs| |].
  - intros s' -> Hr' Hf. split; [done|]. by apply stepped_same.
  - intros s' w' a -> Hr' Hf Hm Hb. split; [done|]. exists w'. split_and!; [done..|].
    split; [done|]. intros id' a'. simpl. rewrite lookup_delete_Some. intros [_ ?]. by eapply Hs.
Qed.
End kind.

(** The accounts that keep the records. *)
Definition reserved (a : Address) : Prop :=
  a = AssetKeyAddress ∨ a = SwapKeyAddress ∨ a = MultiSwapKeyAddress.

(** What an operation of one store does to all of them. *)
Definition all_stepped (s : StateDB) (w : World) (B : books) (s' : StateDB) : Prop :=
  ∃ w', rep s' w' ∧ frame s s' ∧ (∀ ts, moves reserved ts dzero w w') ∧ shelves w' B.

Lemma moves_reserved (a : Address) w w' :
  reserved a → (∀ ts, moves (eq a) ts dzero w w') → ∀ ts, moves reserved ts dzero w w'.
Proof. intros Ha Hm ts. eapply moves_weaken; [|apply Hm]. by intros b <-. Qed.

Ltac other H := eapply shelf_other; [|eassumption|exact H]; discriminate.

Lemma step_assets s w B m s' :
  shelves w B → stepped (P := assetPersist) s w m s' →
  all_stepped s w (mkBooks m (bk_swaps B) (bk_multi B)) s'.
Proof.
  intros [H1 H2 H3] (w' & Hr & Hf & Hm & Hs). exists w'.
  split_and!; [done|done|eapply moves_reserved; [|exact Hm]; by left|].
  split; [exact Hs|by other H2|by other H3].
Qed.
Lemma step_swaps s w B m s' :
  shelves w B → stepped (P := swapPersist) s w m s' →
  all_stepped s w (mkBooks (bk_assets B) m (bk_multi B)) s'.
Proof.
  intros [H1 H2 H3] (w' & Hr & Hf & Hm & Hs). exists w'.
  split_and!; [done|done|eapply moves_reserved; [|exact Hm]; by right; left|].
  split; [by other H1|exact Hs|by other H3].
Qed.
Lemma step_multi s w B m s' :
  shelves w B → stepped (P := multiSwapPersist) s w m s' →
  all_stepped s w (mkBooks (bk_assets B) (bk_swaps B) m) s'.
Proof.
  intros [H1 H2 H3] (w' & Hr & Hf & Hm & Hs). exists w'.
  split_and!; [done|done|eapply moves_reserved; [|exact Hm]; by right; right|].
  split; [by other H1|by other H2|exact Hs].
Qed.

Ltac do_step rule step :=
  apply wp_bind; eapply wp_mono; [eapply rule; eassumption|];
  let r := fresh "r" in let s' := fresh "s'" in let E := fresh "E" in let H := fresh "H" in
  intros r s' [E H]; apply wp_ret; rewrite E; split; [done|];
  by eapply (step _ _ (mkBooks _ _ _)).

Lemma do_record_spec op s w B :
  rep s w → shelves w B → op_ok op →
  wp (do_record op) (fun r s' => r = (spec_record op B).1 ∧ all_stepped s w (spec_record op B).2 s') s.
Proof.
  intros Hr HB Hok. destruct B as [assets swaps multi]. pose proof HB as [H1 H2 H3].
  cbn [bk_assets bk_swaps bk_multi] in H1, H2, H3.
  destruct op; cbn [do_record spec_record op_ok fst snd] in *.
  - rewrite GetAsset_store. do_step (shelf_get (P := assetPersist)) step_assets.
  - rewrite GenAsset_store. do_step (shelf_add (P := assetPersist)) step_assets.
  - rewrite UpdateAsset_store. do_step (shelf_update (P := assetPersist)) step_assets.
  - rewrite GetSwap_store. do_step (shelf_get (P := swapPersist)) step_swaps.
  - rewrite AddSwap_store. do_step (shelf_add (P := swapPersist)) step_swaps.
  - rewrite UpdateSwap_store. do_step (shelf_update (P := swapPersist)) step_swaps.
  - rewrite RemoveSwap_store. do_step (shelf_remove (P := swapPersist)) step_swaps.
  - rewrite GetMultiSwap_store. do_step (shelf_get (P := multiSwapPersist)) step_multi.
  - rewrite AddMultiSwap_store. do_step (shelf_add (P := multiSwapPersist)) step_multi.
  - rewrite UpdateMultiSwap_store. do_step (shelf_update (P := multiSwapPersist)) step_multi.
  - rewrite RemoveMultiSwap_store. do_step (shelf_remove (P := multiSwapPersist)) step_multi.
Qed.

Lemma do_records_spec ops s w B :
  rep s w → shelves w B → Forall op_ok ops →
  wp (do_records ops)
     (fun rs s' => rs = (spec_records ops B).1 ∧ all_stepped s w (spec_records ops B).2 s') s.
Proof.
  intros Hr HB Hok. revert s w B Hr HB. induction Hok as [|op ops Hop _ IH]; intros s w B Hr HB; simpl.
  { apply wp_ret. split; [done|]. exists w. split_and!; [done|done|intros; apply moves_refl|done]. }
  apply wp_bind. eapply wp_mono; [by eapply do_record_spec|]. intros r s1 [-> (w1 & Hr1 & Hf1 & Hm1 & HB1)].
  destruct (spec_record op B) as [r B1]; simpl in *.
  apply wp_bind. eapply wp_mono; [by eapply IH|]. intros rs s2 [-> (w2 & Hr2 & Hf2 & Hm2 & HB2)].
  destruct (spec_records ops B1) as [rs B2]; simpl in *. apply wp_ret. split; [done|].
  exists w2. split_and!; [done|by transitivity s1| |done].
  intros ts. eapply moves_proper; [|exact (moves_trans _ _ _ _ _ _ _ (Hm1 ts) (Hm2 ts))]. delta_solve.
Qed.
End refinement.

(** C10: the records of the state refine finite maps. Whatever sequence of the
    operations on assets, swaps and multi-swaps is run, on identifiers whose
    slots do not collide and with records that fit, it returns, without panic,
    what it returns on three finite maps, and leaves a state that stands for the
    maps it leaves: adding an entry that exists and removing one that does not
    fail and change nothing, the three stores do not disturb each other, and
    nothing else of the state changes. *)
Theorem record_stores_refine_maps `{SP : StateParams} (ids : list Hash) (N : nat)
    (ops : list record_op) (s : StateDB) (w : World) (B : books) :
  collision_free ids N → rep s w → shelves ids N w B → Forall (op_ok ids N) ops →
  wp (do_records ops)
     (fun rs s' => rs = (spec_records ops B).1 ∧
        ∃ w', rep s' w' ∧ frame s s' ∧ (∀ ts, moves reserved ts dzero w w') ∧
          shelves ids N w' (spec_records ops B).2) s.
Proof. intros Hfree Hr HB Hops. by apply (do_records_spec ids N Hfree ops s w B). Qed.

(** ** Examples *)

Definition ex_ids : list Hash := [1; 77].
Definition ex_swap : Swap :=
  mkSwap 1 5 SystemAssetID 0 TimeLockForever (Some 3) 77 0 TimeLockForever (Some 4) (Some 2) [] (Some 9)
    "d" 0.
Definition ex_asset : Asset := mkAsset 77 6 "gold" "AU" 8 (Some 50) false "a metal".
Definition ex_record_ops : list record_op :=
  [OpGenAsset ex_asset; OpAddSwap ex_swap; OpGetSwap 1; OpGetMultiSwap 1; OpAddSwap ex_swap;
   OpRemoveSwap 1; OpGetSwap 1; OpRemoveSwap 77].

Lemma ex_collision_free : collision_free ex_ids 6.
Proof. apply (bool_decide_unpack _). vm_compute. exact I. Qed.

Ltac fits_by := match goal with |- writable _ ?p =>
  let b := eval vm_compute in (match Marshal p with inl b => b | inr _ => [] end) in exists b end;
  split; [vm_compute; lia|]; split_and!; [|vm_compute; reflexivity|vm_compute; reflexivity];
  unfold rlp_wf; simpl; unfold is_hash, is_address, SystemAssetID, TimeLockForever; split_and!; try lia; auto;
  repeat apply Forall_cons_2; try apply Forall_nil_2; simpl; try lia; (split; [tauto|lia]).

Lemma ex_swap_fits : ∀ d, writable 6 (mkSwapPersist d ex_swap).
Proof. intros [|]; fits_by. Qed.
Lemma ex_asset_fits : ∀ d, writable 6 (mkAssetPersist d ex_asset).
Proof. intros [|]; fits_by. Qed.

Lemma ex_shelf A P `{!Rlp P, PE : Persist A P} : shelf ex_ids 6 A P (world ex_state) ∅.
Proof.
  split; [|by intros id a; rewrite lookup_empty]. intros id Hid. exists None, [].
  assert (Hc : chunks [] = O) by reflexivity.
  split_and!; [split; [rewrite Hc; lia|done]| |by rewrite lookup_empty].
  split; [reflexivity|]. intros i. rewrite Hc. lia.
Qed.

Definition ex_results : list record_res :=
  [Returned true; Returned true; FoundSwap (Some ex_swap); FoundMultiSwap None; Returned false;
   Returned true; FoundSwap None; Returned false].
Lemma ex_spec : spec_records ex_record_ops (mkBooks ∅ ∅ ∅) = (ex_results, mkBooks {[77 := ex_asset]} ∅ ∅).
Proof. vm_compute. reflexivity. Qed.

Lemma record_stores_refine_maps_witness :
  wp (do_records ex_record_ops)
     (fun rs s' => rs = ex_results ∧
        ∃ w', rep s' w' ∧ frame ex_state s' ∧ (∀ ts, moves reserved ts dzero (world ex_state) w') ∧
          shelves ex_ids 6 w' (mkBooks {[77 := ex_asset]} ∅ ∅)) ex_state.
Proof.
  pose proof (record_stores_refine_maps ex_ids 6 ex_record_ops ex_state (world ex_state)
    (mkBooks ∅ ∅ ∅)) as H.
  rewrite ex_spec in H. apply H.
  - exact ex_collision_free.
  - split; [apply wf_ex_state|done].
  - split; apply ex_shelf.
  - pose proof ex_swap_fits. pose proof ex_asset_fits.
    repeat apply Forall_cons_2; try apply Forall_nil_2; simpl; unfold ex_ids; try set_solver;
      (split; [set_solver|done]).
Defined.
