(* ===== verification/StateTransition.v ===== *)
(** * State transitions (core/state_transition.go, core/gaspool.go)

    What a transaction does to the state: buying gas, the intrinsic gas, the
    Fusion call handlers, the call into the EVM, and the settlement of the gas.
    The EVM is a parameter; so are the JSON text of the logs and the wall clock,
    which the handlers read. A handler returns the error of the call, [None] for
    nil. *)

From stdpp Require Import base list gmap strings.
From Stdlib Require Import ZArith Lia.
From S2P Require Import Prelude Bytes Keccak KeccakFacts TimeLock Ticket FsnTypes Rlp Codec.
From S2P Require Import StateDB StateRecords.

(** ** Gas *)

Definition TxGas : Z := 21000.
Definition TxGasContractCreation : Z := 53000.
Definition TxDataZeroGas : Z := 4.
Definition TxDataNonZeroGas : Z := 68.

Definition ErrOutOfGas : error := New "out of gas".
Definition ErrGasLimitReached : error := New "gas limit reached".
Definition ErrNonceTooHigh : error := New "nonce too high".
Definition ErrNonceTooLow : error := New "nonce too low".
Definition errInsufficientBalanceForGas : error := New "insufficient balance to pay for gas".
Definition ErrInsufficientBalance : error := New "insufficient balance for transfer".

(** The bytes of the data that are not zero. *)
Fixpoint nonzero_bytes (data : bytes) : Z :=
  match data with [] => 0 | b :: data => (if b =? 0 then 0 else 1) + nonzero_bytes data end.

Definition IntrinsicGas (data : bytes) (contractCreation homestead : bool) : Z + error :=
  let gas := if contractCreation && homestead then TxGasContractCreation else TxGas in
  if (0 <? length data)%nat then
    let nz := nonzero_bytes data in
    if (max_u64 - gas) / TxDataNonZeroGas <? nz then inr ErrOutOfGas
    else
      let gas := u64 (gas + nz * TxDataNonZeroGas) in
      let z := Z.of_nat (length data) - nz in
      if (max_u64 - gas) / TxDataZeroGas <? z then inr ErrOutOfGas
      else inl (u64 (gas + z * TxDataZeroGas))
  else inl gas.

Definition AddGas (gp amount : Z) : outcome Z :=
  if max_u64 - amount <? gp then Panic "gas pool pushed above uint64" else Done (gp + amount).
Definition SubGas (gp amount : Z) : Z + error :=
  if gp <? amount then inr ErrGasLimitReached else inl (gp - amount).

(** ** Messages and their context *)

Record Message := mkMessage {
  msg_From : Address;
  msg_To : option Address;
  msg_GasPrice : Z;
  msg_Gas : Z;
  msg_Value : Z;
  msg_Nonce : Z;
  msg_CheckNonce : bool;
  msg_Data : bytes;
  msg_Hash : Hash;
}.

(** [now] is [time.Now().Unix()] when the handler runs. *)
Record Context := mkContext {
  BlockNumber : Z;
  ParentTime : Z;
  Coinbase : Address;
  MixDigest : Hash;
  GetHash : Z → Hash;
  now : Z;
  IsHomestead : bool;
}.

Record StateTransition := mkST {
  st_gp : Z;
  st_gas : Z;
  st_initialGas : Z;
  st_fee : Z;
}.

(** The arguments of a log: the parameter that is printed, and the pairs. *)
Inductive logValue :=
| LCall (p : FSNCallParam)
| LData (b : bytes)
| LGenAsset (p : GenAssetParam)
| LSendAsset (p : SendAssetParam)
| LTimeLock (p : TimeLockParam)
| LValueChange (p : AssetValueChangeExParam)
| LMakeSwap (p : MakeSwapParam)
| LRecallSwap (p : RecallSwapParam)
| LTakeSwap (p : TakeSwapParam)
| LMakeMultiSwap (p : MakeMultiSwapParam)
| LRecallMultiSwap (p : RecallMultiSwapParam)
| LTakeMultiSwap (p : TakeMultiSwapParam).
Inductive logArg := ArgError (e : error) | ArgHash (h : Z) | ArgInt (n : Z) | ArgStr (s : string).

(** The parameters: the JSON text of a log, and [evm.Call] and [evm.Create],
    which return the output, the gas left and the error. *)
Class TransitionParams := {
  json_Marshal : logValue → list (string * logArg) → bytes;
  evm_Call : Context → Address → Address → bytes → Z → Z → M (bytes * Z * option error);
  evm_Create : Context → Address → bytes → Z → Z → M (bytes * Z * option error);
}.

Definition MaxUint64 (x y : Z) : Z := if x <? y then y else x.

(** The error that [IsValid] returns. *)
Fixpoint tl_error (e : TimeLockError) : error :=
  match e with
  | ErrItemTime s e => Errorf "TimeLockItem time is invalid, StartTime:%v > EndTime:%v" [s; e]
  | ErrItemValue v => Errorf "TimeLockItem value is invalid, Value:%v" [v]
  | ErrAtIndex i err =>
      let 'Errorf f args := tl_error err in
      Errorf ("TimeLock is invalid, index:%v err:" ++ f) (Z.of_nat i :: args)
  | ErrOrder i p n =>
      Errorf "TimeLock is invalid, index:%v, prev:%v, next:%v"
        [Z.of_nat i; StartTime p; EndTime p; Value p; StartTime n; EndTime n; Value n]
  end.

Definition timeLockType (n : Z) : TimeLockType :=
  if n =? 0 then AssetToTimeLock else if n =? 1 then TimeLockToTimeLock
  else if n =? 2 then TimeLockToAsset else OtherTimeLockType n.

(** [common.NewTimeLock(&common.TimeLockItem{...})]. *)
Definition oneItem (start end_ value : Z) : TimeLock := NewTimeLock [mkItem start end_ value].

(** [useAsset := start == TimeLockNow && end == TimeLockForever]. *)
Definition isAsset (start end_ : Z) : bool := (start =? TimeLockNow) && (end_ =? TimeLockForever).

Section transition.
Context `{SP : StateParams} `{TP : TransitionParams}.
Context (msg : Message) (ctx : Context).

Let from := msg_From msg.
Let height := BlockNumber ctx.
Let timestamp := ParentTime ctx.

(** ** Logs *)

Definition addLog (typ : FSNCallFunc) (value : logValue) (keyValues : list (string * logArg))
    : M unit :=
  AddLog (mkLog FSNCallAddress [typ mod 256] (json_Marshal value keyValues) height 0 0 0 0).

(** [st.addLog(...); return err]. *)
Definition fail (typ : FSNCallFunc) (value : logValue) (keyValues : list (string * logArg))
    (err : error) : M (option error) :=
  _ ← addLog typ value keyValues; mret (Some err).
Definition failure (typ : FSNCallFunc) (value : logValue) (err : error) : M (option error) :=
  fail typ value [("Error"%string, ArgError err)] err.
Definition success (typ : FSNCallFunc) (value : logValue) (keyValues : list (string * logArg))
    : M (option error) :=
  _ ← addLog typ value keyValues; mret None.

(** [st.state.GetBalance(...).Cmp(v)] and the same for a time lock. *)
Definition balanceCmp (assetID : Hash) (addr : Address) (v : Z) : M Z :=
  b ← GetBalance assetID addr; b ← non_nil b; mret (bigCmp b v).
Definition timeLockCmp (assetID : Hash) (addr : Address) (z : TimeLock) : M Z :=
  b ← GetTimeLockBalance assetID addr; b ← non_nil b; lift (TimeLock_Cmp b (Some z)).

(** ** Notations and assets *)

Definition handleGenNotation (param : FSNCallParam) : M (option error) :=
  err ← GenNotation from;
  match err with
  | Some err => failure GenNotationFunc (LCall param) err
  | None =>
      n ← GetNotation from;
      success GenNotationFunc (LCall param) [("notation"%string, ArgInt n)]
  end.

Definition handleGenAsset (param : FSNCallParam) : M (option error) :=
  let p := (Unmarshal GenAssetParam (fp_Data param)).1 in
  match GenAssetParam_Check p with
  | Some err => failure GenAssetFunc (LGenAsset p) err
  | None =>
      let a := ToAsset p in
      let asset := mkAsset (msg_Hash msg) from (as_Name a) (as_Symbol a) (as_Decimals a)
                     (as_Total a) (as_CanChange a) (as_Description a) in
      err ← GenAsset asset;
      match err with
      | Some err =>
          fail GenAssetFunc (LGenAsset p) [("Error"%string, ArgStr "unable to gen asset")] err
      | None =>
          total ← non_nil (as_Total asset);
          _ ← AddBalance from (as_ID asset) total;
          success GenAssetFunc (LGenAsset p) [("AssetID"%string, ArgHash (as_ID asset))]
      end
  end.

Definition handleSendAsset (param : FSNCallParam) : M (option error) :=
  let p := (Unmarshal SendAssetParam (fp_Data param)).1 in
  match SendAssetParam_Check p with
  | Some err => failure SendAssetFunc (LSendAsset p) err
  | None =>
      value ← non_nil (sa_Value p);
      c ← balanceCmp (sa_AssetID p) from value;
      if c <? 0 then failure SendAssetFunc (LSendAsset p) (New "not enough asset")
      else
        _ ← SubBalance from (sa_AssetID p) value;
        _ ← AddBalance (sa_To p) (sa_AssetID p) value;
        success SendAssetFunc (LSendAsset p) [("AssetID"%string, ArgHash (sa_AssetID p))]
  end.

Definition handleAssetValueChange (param : FSNCallParam) : M (option error) :=
  let p := (Unmarshal AssetValueChangeExParam (fp_Data param)).1 in
  let failed := failure AssetValueChangeFunc (LValueChange p) in
  match AssetValueChangeExParam_Check p with
  | Some err => failed err
  | None =>
      r ← GetAsset (vc_AssetID p);
      match r with
      | inr _ => failed (New "asset not found")
      | inl asset =>
          if negb (as_CanChange asset) then failed (New "asset can't inc or dec")
          else if negb (as_Owner asset =? from) then failed (New "can only be changed by owner")
          else if negb (as_Owner asset =? vc_To p) && negb (vc_IsInc p)
          then failed (New "decrement can only happen to asset's own account")
          else
            value ← non_nil (vc_Value p);
            let update (newTotal : M Z) :=
              total ← newTotal;
              err ← UpdateAsset (mkAsset (as_ID asset) (as_Owner asset) (as_Name asset)
                       (as_Symbol asset) (as_Decimals asset) (Some total) (as_CanChange asset)
                       (as_Description asset));
              match err with
              | None => success AssetValueChangeFunc (LValueChange p)
                          [("AssetID"%string, ArgHash (vc_AssetID p))]
              | Some err => fail AssetValueChangeFunc (LValueChange p)
                              [("Error"%string, ArgStr "error update asset")] err
              end in
            if vc_IsInc p then
              _ ← AddBalance (vc_To p) (vc_AssetID p) value;
              update (total ← non_nil (as_Total asset); mret (total + value))
            else
              c ← balanceCmp (vc_AssetID p) (vc_To p) value;
              if c <? 0 then failed (New "not enough asset")
              else
                _ ← SubBalance (vc_To p) (vc_AssetID p) value;
                update (total ← non_nil (as_Total asset); mret (total - value))
      end
  end.

(** ** Time locks *)

Definition lockType (s : string) : string * logArg := ("LockType"%string, ArgStr s).

Definition handleAssetToTimeLock (p : TimeLockParam) (value : Z) (needValue : TimeLock)
    : M (option error) :=
  c ← balanceCmp (tl_AssetID p) from value;
  if c <? 0 then
    fail TimeLockFunc (LTimeLock p)
      [lockType "AssetToTimeLock"; ("Error"%string, ArgError (New "not enough asset"))]
      (New "not enough asset")
  else
    _ ← SubBalance from (tl_AssetID p) value;
    let totalValue := oneItem timestamp TimeLockForever (copyBytes value) in
    _ ← (if from =? tl_To p then
           AddTimeLockBalance (tl_To p) (tl_AssetID p) totalValue timestamp
         else
           surplusValue ← lift (TimeLock_Sub DebugMode totalValue (Some needValue));
           _ ← (if negb (IsEmpty surplusValue)
                then AddTimeLockBalance from (tl_AssetID p) surplusValue timestamp
                else mret ());
           AddTimeLockBalance (tl_To p) (tl_AssetID p) needValue timestamp);
    success TimeLockFunc (LTimeLock p)
      [lockType "AssetToTimeLock"; ("AssetID"%string, ArgHash (tl_AssetID p))].

Definition handleTimeLockToTimeLock (p : TimeLockParam) (needValue : TimeLock) : M (option error) :=
  c ← timeLockCmp (tl_AssetID p) from needValue;
  if c <? 0 then
    fail TimeLockFunc (LTimeLock p)
      [lockType "TimeLockToTimeLock"; ("Error"%string, ArgError (New "not enough time lock balance"))]
      (New "not enough time lock balance")
  else
    _ ← SubTimeLockBalance from (tl_AssetID p) needValue timestamp;
    _ ← AddTimeLockBalance (tl_To p) (tl_AssetID p) needValue timestamp;
    success TimeLockFunc (LTimeLock p)
      [lockType "TimeLockToTimeLock"; ("AssetID"%string, ArgHash (tl_AssetID p))].

Definition handleTimeLockToAsset (p : TimeLockParam) (value : Z) (needValue : TimeLock)
    : M (option error) :=
  c ← timeLockCmp (tl_AssetID p) from needValue;
  if c <? 0 then
    fail TimeLockFunc (LTimeLock p)
      [lockType "TimeLockToAsset"; ("Error"%string, ArgError (New "not enough time lock balance"))]
      (New "not enough time lock balance")
  else
    _ ← SubTimeLockBalance from (tl_AssetID p) needValue timestamp;
    _ ← AddBalance (tl_To p) (tl_AssetID p) value;
    success TimeLockFunc (LTimeLock p)
      [lockType "TimeLockToAsset"; ("AssetID"%string, ArgHash (tl_AssetID p))].

(** A time lock to an asset runs until forever; [None] when it starts too late. *)
Definition adjustTimeLockParam (p : TimeLockParam) : option TimeLockParam :=
  match timeLockType (tl_Type p) with
  | TimeLockToAsset =>
      if now ctx <? tl_StartTime p then None
      else Some (mkTimeLockParam (tl_Type p) (tl_AssetID p) (tl_To p) (tl_StartTime p)
                   TimeLockForever (tl_Value p))
  | _ => Some p
  end.

Definition handleTimeLock (param : FSNCallParam) : M (option error) :=
  let p := (Unmarshal TimeLockParam (fp_Data param)).1 in
  match adjustTimeLockParam p with
  | None =>
      fail TimeLockFunc (LTimeLock p)
        [lockType "TimeLockToAsset"; ("Error"%string, ArgError (New "Start time must be less than now"))]
        (New "Start time must be less than now")
  | Some p =>
      match TimeLockParam_Check p timestamp with
      | Some err => failure TimeLockFunc (LTimeLock p) err
      | None =>
          value ← non_nil (tl_Value p);
          let needValue :=
            oneItem (MaxUint64 (tl_StartTime p) timestamp) (tl_EndTime p) (copyBytes value) in
          match TimeLock_IsValid needValue with
          | Some err => failure TimeLockFunc (LTimeLock p) (tl_error err)
          | None =>
              match timeLockType (tl_Type p) with
              | AssetToTimeLock => handleAssetToTimeLock p value needValue
              | TimeLockToTimeLock => handleTimeLockToTimeLock p needValue
              | TimeLockToAsset => handleTimeLockToAsset p value needValue
              | OtherTimeLockType _ => mret (Some (New "Unsupported"))
              end
          end
      end
  end.

(** ** Tickets *)

(** Taking the price from the time lock, or from the balance with the rest given
    back as a time lock; an error when neither is enough. *)
Definition payTicket (value : Z) (needValue : TimeLock) : M (option error) :=
  c ← timeLockCmp SystemAssetID from needValue;
  if c <? 0 then
    c ← balanceCmp SystemAssetID from value;
    if c <? 0 then mret (Some (New "not enough time lock or asset balance"))
    else
      _ ← SubBalance from SystemAssetID value;
      let totalValue := oneItem timestamp TimeLockForever value in
      surplusValue ← lift (TimeLock_Sub DebugMode totalValue (Some needValue));
      _ ← (if negb (IsEmpty surplusValue)
           then AddTimeLockBalance from SystemAssetID surplusValue timestamp
           else mret ());
      mret None
  else
    _ ← SubTimeLockBalance from SystemAssetID needValue timestamp; mret None.

Definition handleBuyTicket (param : FSNCallParam) : M (option error) :=
  let hash := GetHash ctx (u64 (u64 height - 1)) in
  let id := keccak (Address_Bytes from ++ Hash_Bytes hash) in
  let value := LData (fp_Data param) in
  exist ← IsTicketExist id;
  if exist : bool then
    fail BuyTicketFunc value [("Error"%string, ArgStr "Ticket already exist")]
      (Errorf "%s Ticket already exist" [id])
  else
    let p := (Unmarshal BuyTicketParam (fp_Data param)).1 in
    match BuyTicketParam_Check p 0 0 with
    | Some err => failure BuyTicketFunc value err
    | None =>
        let price := TicketPrice height in
        let needValue := oneItem (MaxUint64 (bt_Start p) timestamp) (bt_End p) price in
        match TimeLock_IsValid needValue with
        | Some err => failure BuyTicketFunc value (tl_error err)
        | None =>
            let ticket := mkTicket from (mkBody id (u64 height) (bt_Start p) (bt_End p)) in
            err ← payTicket price needValue;
            match err with
            | Some err => failure BuyTicketFunc value err
            | None =>
                err ← db_AddTicket ticket;
                match err with
                | Some err =>
                    fail BuyTicketFunc value [("Error"%string, ArgStr "unable to add ticket")] err
                | None =>
                    success BuyTicketFunc value
                      [("TicketID"%string, ArgHash id); ("TicketOwner"%string, ArgHash from)]
                end
            end
        end
    end.

(** ** Swaps *)

(** [SubBalance(total)] and [AddTimeLockBalance] of the same amount from the time
    stamp to forever. *)
Definition assetToTimeLock (assetID : Hash) (total : Z) : M unit :=
  _ ← SubBalance from assetID total;
  AddTimeLockBalance from assetID (oneItem timestamp TimeLockForever total) timestamp.

Definition set_swap_all (p : MakeSwapParam) : MakeSwapParam :=
  mkMakeSwapParam (ms_FromAssetID p) TimeLockNow TimeLockForever (Some 1) (ms_ToAssetID p)
    (ms_ToStartTime p) (ms_ToEndTime p) (ms_MinToAmount p) (Some 1) (ms_Targes p) (ms_Time p)
    (ms_Description p).

Definition swap_of (p : MakeSwapParam) (swapId : Hash) (notation : Z) : Swap :=
  mkSwap swapId from (ms_FromAssetID p) (ms_FromStartTime p) (ms_FromEndTime p)
    (ms_MinFromAmount p) (ms_ToAssetID p) (ms_ToStartTime p) (ms_ToEndTime p) (ms_MinToAmount p)
    (ms_SwapSize p) (ms_Targes p) (ms_Time p) (ms_Description p) notation.

(** The check of the funds, with the conversion of an asset into a time lock in
    the newer call; an error is the pair of what is logged and what is returned. *)
Definition makeSwap_funds (func : FSNCallFunc) (assetID : Hash) (useAsset : bool) (total : Z)
    (needValue : TimeLock) : M (option (string * error)) :=
  if useAsset then
    c ← balanceCmp assetID from total;
    mret (if c <? 0 then Some ("not enough from asset"%string, New "not enough from asset") else None)
  else
    c ← timeLockCmp assetID from needValue;
    if c <? 0 then
      if func =? MakeSwapFunc then
        mret (Some ("not enough time lock or asset balance"%string, New "not enough time lock balance"))
      else
        c ← balanceCmp assetID from total;
        if c <? 0 then
          mret (Some ("not enough time lock or asset balance"%string,
                      New "not enough time lock or asset balance"))
        else _ ← assetToTimeLock assetID total; mret None
    else mret None.

(** Recording a swap of an asset, and taking the asset from its owner. *)
Definition makeSwap_asset (func : FSNCallFunc) (p : MakeSwapParam) (swap : Swap) (useAsset : bool)
    (total : Z) (needValue : TimeLock) : M (option error) :=
  r ← makeSwap_funds func (ms_FromAssetID p) useAsset total needValue;
  match r with
  | Some (shown, err) => fail MakeSwapFunc (LMakeSwap p) [("Error"%string, ArgStr shown)] err
  | None =>
      err ← AddSwap swap;
      match err with
      | Some err =>
          fail MakeSwapFunc (LMakeSwap p) [("Error"%string, ArgStr "System error can't add swap")] err
      | None =>
          _ ← (if useAsset then SubBalance from (ms_FromAssetID p) total
               else SubTimeLockBalance from (ms_FromAssetID p) needValue timestamp);
          success MakeSwapFunc (LMakeSwap p) [("SwapID"%string, ArgHash (sw_ID swap))]
      end
  end.

Definition handleMakeSwap (param : FSNCallParam) : M (option error) :=
  notation ← GetNotation from;
  let p := (Unmarshal MakeSwapParam (fp_Data param)).1 in
  let swapId := msg_Hash msg in
  let failed p := failure MakeSwapFunc (LMakeSwap p) in
  r ← GetSwap swapId;
  match r with
  | inl _ => failed p (New "Swap already exist")
  | inr _ =>
      match MakeSwapParam_Check p timestamp with
      | Some err => failed p err
      | None =>
          if ms_ToAssetID p =? OwnerUSANAssetID then failed p (New "USAN's cannot be swapped")
          else
            r ← GetAsset (ms_ToAssetID p);
            match r with
            | inr _ => failed p (New "ToAssetID's asset not found")
            | inl _ =>
                if ms_FromAssetID p =? OwnerUSANAssetID then
                  if notation =? 0 then failed p (New "the from address does not have a notation")
                  else
                    let p := set_swap_all p in
                    let swap := swap_of p swapId notation in
                    err ← AddSwap swap;
                    match err with
                    | Some err =>
                        fail MakeSwapFunc (LMakeSwap p)
                          [("Error"%string, ArgStr "System error can't add swap")] err
                    | None => success MakeSwapFunc (LMakeSwap p) [("SwapID"%string, ArgHash swapId)]
                    end
                else
                  minFrom ← non_nil (ms_MinFromAmount p);
                  size ← non_nil (ms_SwapSize p);
                  let total := minFrom * size in
                  let useAsset := isAsset (ms_FromStartTime p) (ms_FromEndTime p) in
                  let needValue :=
                    oneItem (MaxUint64 (ms_FromStartTime p) timestamp) (ms_FromEndTime p) total in
                  match (if useAsset then None else TimeLock_IsValid needValue) with
                  | Some err => failed p (tl_error err)
                  | None =>
                      makeSwap_asset (Func param) p (swap_of p swapId notation) useAsset total needValue
                  end
            end
      end
  end.

(** Crediting an amount of an asset or, on an interval, of a time lock; nothing
    when the interval is over. *)
Definition credit (addr : Address) (assetID : Hash) (start end_ total : Z) : M unit :=
  if isAsset start end_ then AddBalance addr assetID total
  else
    let needValue := oneItem (MaxUint64 start timestamp) end_ total in
    match TimeLock_IsValid needValue with
    | None => AddTimeLockBalance addr assetID needValue timestamp
    | Some _ => mret ()
    end.

Definition handleRecallSwap (param : FSNCallParam) : M (option error) :=
  let p := (Unmarshal RecallSwapParam (fp_Data param)).1 in
  let failed := failure RecallSwapFunc (LRecallSwap p) in
  r ← GetSwap (rs_SwapID p);
  match r with
  | inr _ => failed (New "Swap not found")
  | inl swap =>
      if negb (sw_Owner swap =? from) then failed (New "Must be swap onwer can recall")
      else
        match RecallSwapParam_Check p swap with
        | Some err => failed err
        | None =>
            err ← RemoveSwap (sw_ID swap);
            match err with
            | Some err =>
                fail RecallSwapFunc (LRecallSwap p) [("Error"%string, ArgStr "Unable to remove swap")] err
            | None =>
                _ ← (if negb (sw_FromAssetID swap =? OwnerUSANAssetID) then
                       minFrom ← non_nil (sw_MinFromAmount swap);
                       size ← non_nil (sw_SwapSize swap);
                       credit from (sw_FromAssetID swap) (sw_FromStartTime swap) (sw_FromEndTime swap)
                         (minFrom * size)
                     else mret ());
                success RecallSwapFunc (LRecallSwap p) [("SwapID"%string, ArgHash (sw_ID swap))]
            end
        end
  end.

Definition takeSwap_funds (func : FSNCallFunc) (assetID : Hash) (useAsset : bool) (total : Z)
    (needValue : TimeLock) : M (option (string * error)) :=
  if useAsset then
    c ← balanceCmp assetID from total;
    mret (if c <? 0 then Some ("not enough from asset"%string, New "not enough from asset") else None)
  else
    available ← GetTimeLockBalance assetID from;
    match TimeLock_IsValid needValue with
    | Some _ => mret None
    | None =>
        available ← non_nil available;
        c ← lift (TimeLock_Cmp available (Some needValue));
        if c <? 0 then
          if func =? TakeSwapFunc then
            mret (Some ("not enough time lock balance"%string, New "not enough time lock balance"))
          else
            c ← balanceCmp assetID from total;
            if c <? 0 then
              mret (Some ("not enough time lock balance"%string,
                          New "not enough time lock or asset balance"))
            else _ ← assetToTimeLock assetID total; mret None
        else mret None
    end.

Definition set_SwapSize (size : option Z) (s : Swap) : Swap :=
  mkSwap (sw_ID s) (sw_Owner s) (sw_FromAssetID s) (sw_FromStartTime s) (sw_FromEndTime s)
    (sw_MinFromAmount s) (sw_ToAssetID s) (sw_ToStartTime s) (sw_ToEndTime s) (sw_MinToAmount s)
    size (sw_Targes s) (sw_Time s) (sw_Description s) (sw_Notation s).

(** The swap is used up or keeps the rest of its size; [true] when it is gone. *)
Definition takeSwap_record (swap : Swap) (swapSize size : Z) : M (bool * option error) :=
  if bigCmp swapSize size =? 0 then
    err ← RemoveSwap (sw_ID swap); mret (true, err)
  else
    err ← UpdateSwap (set_SwapSize (Some (swapSize - size)) swap); mret (false, err).

(** What the taker pays the owner. *)
Definition takeSwap_pay (owner : Address) (assetID : Hash) (useAsset : bool) (total : Z)
    (needValue : TimeLock) : M unit :=
  if useAsset then
    _ ← AddBalance owner assetID total; SubBalance from assetID total
  else
    match TimeLock_IsValid needValue with
    | None =>
        _ ← AddTimeLockBalance owner assetID needValue timestamp;
        SubTimeLockBalance from assetID needValue timestamp
    | Some _ => mret ()
    end.

Definition flag_string (b : bool) : string := if b then "true" else "false".

(** The part of the handler after its checks. *)
Definition takeSwap_settle (func : FSNCallFunc) (p : TakeSwapParam) (swap : Swap) (usanSwap : bool)
    (minFrom minTo swapSize size : Z) : M (option error) :=
  let fromTotal := minFrom * size in
  let toTotal := minTo * size in
  let toUseAsset := isAsset (sw_ToStartTime swap) (sw_ToEndTime swap) in
  let toNeedValue := oneItem (MaxUint64 (sw_ToStartTime swap) timestamp) (sw_ToEndTime swap) toTotal in
  let system_error := fail TakeSwapFunc (LTakeSwap p) [("Error"%string, ArgStr "System Error")] in
  r ← takeSwap_funds func (sw_ToAssetID swap) toUseAsset toTotal toNeedValue;
  match r with
  | Some (shown, err) => fail TakeSwapFunc (LTakeSwap p) [("Error"%string, ArgStr shown)] err
  | None =>
      r ← takeSwap_record swap swapSize size;
      match r with
      | (_, Some err) => system_error err
      | (swapDeleted, None) =>
          _ ← takeSwap_pay (sw_Owner swap) (sw_ToAssetID swap) toUseAsset toTotal toNeedValue;
          err ← (if usanSwap then TransferNotation (sw_Notation swap) (sw_Owner swap) from
                 else _ ← credit from (sw_FromAssetID swap) (sw_FromStartTime swap)
                            (sw_FromEndTime swap) fromTotal; mret None);
          match err with
          | Some err => system_error err
          | None =>
              success TakeSwapFunc (LTakeSwap p)
                [("SwapID"%string, ArgHash (sw_ID swap));
                 ("Deleted"%string, ArgStr (flag_string swapDeleted))]
          end
      end
  end.

Definition handleTakeSwap (param : FSNCallParam) : M (option error) :=
  let p := (Unmarshal TakeSwapParam (fp_Data param)).1 in
  let failed := failure TakeSwapFunc (LTakeSwap p) in
  r ← GetSwap (ts_SwapID p);
  match r with
  | inr _ => fail TakeSwapFunc (LTakeSwap p) [("Error"%string, ArgStr "swap not found")]
               (New "Swap not found")
  | inl swap =>
      match TakeSwapParam_Check p swap timestamp with
      | Some err => failed err
      | None =>
          let usanSwap := sw_FromAssetID swap =? OwnerUSANAssetID in
          ok ← (if usanSwap then
                  notation ← GetNotation (sw_Owner swap);
                  mret (negb ((notation =? 0) || negb (notation =? sw_Notation swap)))
                else mret true);
          if negb ok then failed (New "notation in swap is no longer valid")
          else
            minFrom ← non_nil (sw_MinFromAmount swap);
            size ← non_nil (ts_Size p);
            minTo ← non_nil (sw_MinToAmount swap);
            swapSize ← non_nil (sw_SwapSize swap);
            takeSwap_settle (Func param) p swap usanSwap minFrom minTo swapSize size
      end
  end.
End transition.
