(* ===== verification/CallFacts.v ===== *)
(** * What the Fusion calls do to the ledger

    The handlers of core/state_transition.go against the ledger: a call returns
    an error and moves nothing, or returns nil and moves what it promises. The
    handlers that move assets and time locks between accounts are covered on
    every branch; [TimeLock_result] and the like are the error they return. *)

From stdpp Require Import base list gmap strings.
From Stdlib Require Import ZArith Lia.
From S2P Require Import Prelude Bytes Keccak KeccakFacts TimeLock TimeLockFacts Ticket FsnTypes.
From S2P Require Import Rlp RlpFacts Codec CallParams StateDB StateRecords StateFacts StateRevert.
From S2P Require Import StateInterface StateWorld Ledger StateTransition.

(** The result [r] and state [s'] of a call from [s], which stands for [w]: it
    returned [e], and moved [d] when that is nil, nothing otherwise. *)
Definition yields (P : Address → Prop) (s : StateDB) (w : World) (ts : Z) (e : option error)
    (d : delta) (r : option error) (s' : StateDB) : Prop :=
  r = e ∧ ∃ w', rep s' w' ∧ frame s s' ∧
    moves P ts (match e with None => d | Some _ => dzero end) w w'.

(** The frame along a sequence of states. *)
Ltac solve_frame :=
  match goal with
  | |- frame ?s ?s' =>
      first [ assumption | reflexivity
            | match goal with H : frame s ?s1 |- _ => transitivity s1; [exact H|clear H; solve_frame] end ]
  end.

(** The spendable amount at a time: the balance and what the time lock frees. *)
Definition spendable (w : World) (a : Address) (h : Hash) (t : Z) : Z :=
  holding w a h Free + holding w a h (At t).

(** The whole amount from the time stamp on, and the part that is asked for. *)
Definition whole (ts v : Z) : TimeLockItem := mkItem ts TimeLockForever v.
Definition need (ts start end_ v : Z) : TimeLockItem := mkItem (Z.max start ts) end_ v.

Lemma oneItem_single a b v : 0 <= v → oneItem a b (copyBytes v) = single (mkItem a b v) ∧
  oneItem a b v = single (mkItem a b v).
Proof.
  intros Hv. unfold oneItem, copyBytes. rewrite Z.abs_eq by done.
  split; by apply NewTimeLock_single.
Qed.

Lemma IsValid_single i : item_ok i → TimeLock_IsValid (single i) = None.
Proof.
  intros Hi. apply TimeLock_IsValid_wf; [|by apply wf_single].
  constructor; [|constructor]. destruct Hi as (? & ? & _). unfold in_range, is_u64. lia.
Qed.

Lemma MaxUint64_max x y : MaxUint64 x y = Z.max x y.
Proof. unfold MaxUint64. destruct (Z.ltb_spec x y); lia. Qed.

Section calls.
Context `{SP : StateParams} `{TP : TransitionParams}.
Context (msg : Message) (ctx : Context).

Let from := msg_From msg.
Let ts := ParentTime ctx.

(** ** The pieces of the handlers *)

Lemma wp_addLog w s typ v kv Q :
  rep s w → (∀ s', rep s' w → frame s s' → Q tt s') → wp (addLog ctx typ v kv) Q s.
Proof. apply wp_AddLog. Qed.

Lemma wp_fail w s typ v kv err (Q : option error → StateDB → Prop) :
  rep s w → (∀ s', rep s' w → frame s s' → Q (Some err) s') → wp (fail ctx typ v kv err) Q s.
Proof. intros Hr HQ. apply wp_bind, (wp_addLog w); [done|]. intros s' Hr' Hf. by apply wp_ret, HQ. Qed.
Lemma wp_failure w s typ v err (Q : option error → StateDB → Prop) :
  rep s w → (∀ s', rep s' w → frame s s' → Q (Some err) s') → wp (failure ctx typ v err) Q s.
Proof. apply wp_fail. Qed.
Lemma wp_success w s typ v kv (Q : option error → StateDB → Prop) :
  rep s w → (∀ s', rep s' w → frame s s' → Q None s') → wp (success ctx typ v kv) Q s.
Proof. intros Hr HQ. apply wp_bind, (wp_addLog w); [done|]. intros s' Hr' Hf. by apply wp_ret, HQ. Qed.

Lemma wp_balanceCmp w s h a v (Q : Z → StateDB → Prop) :
  rep s w → (∀ c s', rep s' w → frame s s' → (c < 0 ↔ bal w a h < v) → Q c s') →
  wp (balanceCmp h a v) Q s.
Proof.
  intros Hr HQ. apply wp_bind, (wp_GetBalance w); [done|]. intros s' Hr' Hf.
  apply wp_bind, (wp_non_nil _ (bal w a h)); [done|]. apply wp_ret, HQ; [done|done|apply bigCmp_lt].
Qed.

Lemma wp_timeLockCmp w s h a item (Q : Z → StateDB → Prop) :
  rep s w → item_ok item → 0 < StartTime item →
  (∀ c s', rep s' w → frame s s' → (c < 0 ↔ ¬ coversTL (tl w a h) item) → Q c s') →
  wp (timeLockCmp h a (single item)) Q s.
Proof.
  intros Hr Hi Hs HQ. apply wp_bind, (wp_GetTimeLockBalance w); [done|]. intros s' Hr' Hf.
  apply wp_bind, (wp_non_nil _ (tl w a h)); [done|]. destruct (rep_tl s w a h Hr) as [_ Hwf].
  destruct (TimeLock_Cmp_ok (tl w a h) item Hwf Hi) as (c & Hc & Hpos & Hneg).
  apply (wp_lift _ c); [done|]. apply HQ; [done|done|]. split; [by intros ?; apply Hneg; [|left]|].
  intros Hn. destruct (Z.lt_ge_cases c 0); [done|]. exfalso. auto.
Qed.

(** A call that ends with nothing moved. *)
Lemma yields_error P s s' w ts' err :
  rep s' w → frame s s' → ∀ d, yields P s w ts' (Some err) d (Some err) s'.
Proof. intros Hr Hf d. split; [done|]. exists w. split_and!; [done|done|apply moves_refl]. Qed.

Lemma yields_nil P s s' w w' ts' d :
  rep s' w' → frame s s' → moves P ts' d w w' → yields P s w ts' None d None s'.
Proof. intros Hr Hf Hm. split; [done|]. by exists w'. Qed.

(** ** SendAsset *)

Definition SendAsset_result (w : World) (p : SendAssetParam) : option error :=
  match SendAssetParam_Check p with
  | Some err => Some err
  | None => if bal w from (sa_AssetID p) <? default 0 (sa_Value p)
            then Some (New "not enough asset") else None
  end.

Lemma pos_big_true v : pos_big v = true → ∃ x, v = Some x ∧ 0 < x.
Proof.
  destruct v as [x|]; [|done]. simpl. intros H. exists x. split; [done|].
  apply bigCmp_gt. by apply Z.ltb_lt.
Qed.

Lemma SendAssetParam_Check_value p :
  SendAssetParam_Check p = None → ∃ v, sa_Value p = Some v ∧ 0 < v.
Proof.
  unfold SendAssetParam_Check. intros H. apply pos_big_true. by destruct (pos_big (sa_Value p)).
Qed.

Lemma handleSendAsset_spec s w param :
  rep s w →
  let p := (Unmarshal SendAssetParam (fp_Data param)).1 in
  wp (handleSendAsset msg ctx param)
     (yields nowhere s w ts (SendAsset_result w p)
        (transfer from (sa_To p) (sa_AssetID p) (coins (default 0 (sa_Value p))))) s.
Proof.
  intros Hr p. unfold handleSendAsset, SendAsset_result. fold p.
  destruct (SendAssetParam_Check p) as [err|] eqn:E.
  { apply (wp_failure w); [done|]. intros s' Hr' Hf. by apply yields_error. }
  destruct (SendAssetParam_Check_value p E) as (v & -> & Hv). change (default 0 (Some v)) with v.
  apply wp_bind, (wp_non_nil _ v); [done|].
  apply wp_bind, (wp_balanceCmp w); [done|]. intros c s1 Hr1 Hf1 Hc. fold from in Hc.
  destruct (Z.ltb_spec c 0), (Z.ltb_spec (bal w from (sa_AssetID p)) v); try lia.
  { apply (wp_failure w); [done|]. intros s' Hr' Hf. apply yields_error; [done|solve_frame]. }
  apply wp_bind, (wp_SubBalance_moves nowhere ts w); [done|]. intros s2 w2 Hr2 Hf2 Hm2.
  apply wp_bind, (wp_AddBalance_moves nowhere ts w2); [done|]. intros s3 w3 Hr3 Hf3 Hm3.
  apply (wp_success w3); [done|]. intros s4 Hr4 Hf4. apply (yields_nil _ _ _ _ w3); [done|solve_frame|].
  exact (moves_trans _ _ _ _ _ _ _ Hm2 Hm3).
Qed.

(** ** Time locks *)

Hypothesis Hts : 0 < ts < two64.

Lemma whole_ok v : 0 < v → item_ok (whole ts v).
Proof. unfold item_ok, whole, TimeLockForever, two64 in *. simpl. lia. Qed.

(** Adding what is left of the whole amount. *)
Lemma wp_AddSurplus w s h z Q :
  rep s w → wfTL z →
  (∀ s' w', rep s' w' → frame s s' → moves nowhere ts (gain from h (locked (amountAt z))) w w' → Q tt s') →
  wp (if negb (IsEmpty z) then AddTimeLockBalance from h z ts else mret ()) Q s.
Proof.
  intros Hr Hz HQ. unfold IsEmpty. destruct (Items z) as [|i l] eqn:E; simpl.
  - apply wp_ret. apply (HQ s w); [done|done|].
    eapply moves_proper; [|apply moves_refl]. intros a' h' k. unfold gain, locked, amountAt, dzero.
    rewrite E. by destruct (_ && _), k.
  - by apply (wp_AddTimeLock_moves nowhere ts w).
Qed.

Lemma whole_Sub item v :
  item_ok item → ts <= StartTime item → Value item = v →
  ∃ z, TimeLock_Sub DebugMode (single (whole ts v)) (Some (single item)) = Done z ∧ wfTL z ∧
       ∀ t, amountAt z t = itemAt (whole ts v) t - itemAt item t.
Proof.
  intros Hi Hs <-. assert (Hv : 0 < Value item) by apply Hi.
  destruct (TimeLock_Sub_covered DebugMode (single (whole ts (Value item))) item)
    as (z & Hz & Hwf & Hat); [by apply wf_single, whole_ok|done|lia| |].
  - intros t Ht. change (Value item <= amountAt (single (whole ts (Value item))) t).
    rewrite amountAt_single. unfold itemAt, whole, TimeLockForever. simpl.
    destruct Hi as (? & ? & _). unfold two64 in *. rewrite ival_in; lia.
  - exists z. split_and!; [done|done|]. intros t. by rewrite Hat, amountAt_single.
Qed.

(** What locking an asset moves: the receiver has the part that is asked for,
    the sender the rest of the time. *)
Definition lock_delta (to : Address) (h : Hash) (v : Z) (item : TimeLockItem) : delta :=
  dadd (dneg (gain from h (coins v)))
    (dadd (gain from h (locked (fun t => itemAt (whole ts v) t - itemAt item t)))
       (gain to h (locked (itemAt item)))).

Definition notEnoughAsset : error := New "not enough asset".
Definition notEnoughTimeLock : error := New "not enough time lock balance".

Lemma handleAssetToTimeLock_spec s w p v item :
  rep s w → item_ok item → ts <= StartTime item → Value item = v →
  wp (handleAssetToTimeLock msg ctx p v (single item))
     (yields nowhere s w ts
        (if bal w from (tl_AssetID p) <? v then Some notEnoughAsset else None)
        (lock_delta (tl_To p) (tl_AssetID p) v item)) s.
Proof.
  intros Hr Hi Hs Hv. assert (Hv0 : 0 < v) by (rewrite <- Hv; apply Hi).
  unfold handleAssetToTimeLock. apply wp_bind, (wp_balanceCmp w); [done|].
  intros c s1 Hr1 Hf1 Hc. fold from ts in Hc |- *.
  destruct (Z.ltb_spec c 0), (Z.ltb_spec (bal w from (tl_AssetID p)) v); try lia.
  { apply (wp_fail w); [done|]. intros s' Hr' Hf. apply yields_error; [done|solve_frame]. }
  apply wp_bind, (wp_SubBalance_moves nowhere ts w); [done|]. intros s2 w2 Hr2 Hf2 Hm2.
  rewrite (proj1 (oneItem_single ts TimeLockForever v ltac:(lia))). fold (whole ts v). apply wp_bind.
  destruct (Z.eqb_spec from (tl_To p)) as [Heq|Hne].
  - apply (wp_AddTimeLock_moves nowhere ts w2); [done|by apply wf_single, whole_ok|].
    intros s3 w3 Hr3 Hf3 Hm3. apply (wp_success w3); [done|]. intros s4 Hr4 Hf4.
    apply (yields_nil _ _ _ _ w3); [done|solve_frame|].
    eapply moves_proper; [|exact (moves_trans _ _ _ _ _ _ _ Hm2 Hm3)]. unfold lock_delta.
    rewrite <- Heq. intros a h k. unfold dadd, gain, locked, dneg. destruct (_ && _), k; try lia.
    rewrite amountAt_single. lia.
  - destruct (whole_Sub item v Hi Hs Hv) as (z & Hz & Hwf & Hat).
    apply wp_bind, (wp_lift _ z); [done|]. apply wp_bind, (wp_AddSurplus w2); [done|done|].
    intros s3 w3 Hr3 Hf3 Hm3. apply (wp_AddTimeLock_moves nowhere ts w3); [done|by apply wf_single|].
    intros s4 w4 Hr4 Hf4 Hm4. apply (wp_success w4); [done|]. intros s5 Hr5 Hf5.
    apply (yields_nil _ _ _ _ w4); [done|solve_frame|].
    eapply moves_proper; [|exact (moves_trans _ _ _ _ _ _ _ Hm2 (moves_trans _ _ _ _ _ _ _ Hm3 Hm4))].
    intros a h k. unfold lock_delta, dadd, gain, locked. destruct k; [done|].
    by rewrite Hat, amountAt_single.
Qed.

Lemma coversTL_dec z item :
  wfTL z → item_ok item → 0 < StartTime item → coversTL z item ∨ ¬ coversTL z item.
Proof.
  intros Hz Hi Hs. destruct (TimeLock_Cmp_ok z item Hz Hi) as (c & _ & Hpos & Hneg).
  destruct (Z.lt_ge_cases c 0); [right; apply Hneg; [done|by left]|left; by apply Hpos].
Qed.

(** The error of a call that takes [item] from the time lock of the sender. *)
Definition taking_result (w : World) (h : Hash) (item : TimeLockItem) (e : option error) : Prop :=
  (coversTL (tl w from h) item ∧ e = None) ∨ (¬ coversTL (tl w from h) item ∧ e = Some notEnoughTimeLock).

(** The two calls that take from the time lock, up to what they give. *)
Lemma wp_take_or_fail w s h item (m1 : M (option error)) (m2 : M (option error)) d :
  rep s w → item_ok item → 0 < StartTime item →
  (∀ s', rep s' w → frame s s' → ¬ coversTL (tl w from h) item →
     wp m1 (yields nowhere s w ts (Some notEnoughTimeLock) d) s') →
  (∀ s' w', rep s' w' → frame s s' → coversTL (tl w from h) item →
     moves nowhere ts (dneg (gain from h (locked (itemAt item)))) w w' →
     wp m2 (yields nowhere s w ts None d) s') →
  ∃ e, taking_result w h item e ∧
    wp (c ← timeLockCmp h from (single item);
        if c <? 0 then m1 else _ ← SubTimeLockBalance from h (single item) ts; m2)
       (yields nowhere s w ts e d) s.
Proof.
  intros Hr Hi Hs H1 H2. destruct (rep_tl s w from h Hr) as [_ Hwf].
  destruct (coversTL_dec _ _ Hwf Hi Hs) as [Hcov|Hn].
  - exists None. split; [by left|]. apply wp_bind, (wp_timeLockCmp w); [done..|].
    intros c s1 Hr1 Hf1 Hc. destruct (Z.ltb_spec c 0); [by apply Hc in Hcov|].
    apply wp_bind, (wp_SubTimeLock_moves nowhere ts w); [done..|]. intros s2 w2 Hr2 Hf2 Hm2.
    apply (H2 s2 w2); [done|solve_frame|done|done].
  - exists (Some notEnoughTimeLock). split; [by right|]. apply wp_bind, (wp_timeLockCmp w); [done..|].
    intros c s1 Hr1 Hf1 Hc. destruct (Z.ltb_spec c 0); [|exfalso; apply Hc in Hn; lia]. by apply H1.
Qed.

Lemma handleTimeLockToTimeLock_spec s w p item :
  rep s w → item_ok item → 0 < StartTime item →
  ∃ e, taking_result w (tl_AssetID p) item e ∧
    wp (handleTimeLockToTimeLock msg ctx p (single item))
       (yields nowhere s w ts e (transfer from (tl_To p) (tl_AssetID p) (locked (itemAt item)))) s.
Proof.
  intros Hr Hi Hs. apply wp_take_or_fail; [done..| |].
  - intros s1 Hr1 Hf1 _. apply (wp_fail w); [done|]. intros s' Hr' Hf. apply yields_error; [done|solve_frame].
  - intros s1 w1 Hr1 Hf1 _ Hm1.
    apply wp_bind, (wp_AddTimeLock_moves nowhere ts w1); [done|by apply wf_single|].
    intros s2 w2 Hr2 Hf2 Hm2. apply (wp_success w2); [done|]. intros s3 Hr3 Hf3.
    apply (yields_nil _ _ _ _ w2); [done|solve_frame|].
    eapply moves_proper; [|exact (moves_trans _ _ _ _ _ _ _ Hm1 Hm2)].
    intros a h [|t]; unfold transfer, dadd, gain, locked; [done|by rewrite amountAt_single].
Qed.

Lemma handleTimeLockToAsset_spec s w p v item :
  rep s w → item_ok item → 0 < StartTime item →
  ∃ e, taking_result w (tl_AssetID p) item e ∧
    wp (handleTimeLockToAsset msg ctx p v (single item))
       (yields nowhere s w ts e
          (dadd (dneg (gain from (tl_AssetID p) (locked (itemAt item))))
                (gain (tl_To p) (tl_AssetID p) (coins v)))) s.
Proof.
  intros Hr Hi Hs. apply wp_take_or_fail; [done..| |].
  - intros s1 Hr1 Hf1 _. apply (wp_fail w); [done|]. intros s' Hr' Hf. apply yields_error; [done|solve_frame].
  - intros s1 w1 Hr1 Hf1 _ Hm1. apply wp_bind, (wp_AddBalance_moves nowhere ts w1); [done|].
    intros s2 w2 Hr2 Hf2 Hm2. apply (wp_success w2); [done|]. intros s3 Hr3 Hf3.
    apply (yields_nil _ _ _ _ w2); [done|solve_frame|]. exact (moves_trans _ _ _ _ _ _ _ Hm1 Hm2).
Qed.

(** The call: the parameter is adjusted, checked, and dispatched on its type. *)
Definition startsTooLate : error := New "Start time must be less than now".
Definition valueOf (p : TimeLockParam) : Z := default 0 (tl_Value p).
Definition needOf (p : TimeLockParam) : TimeLockItem :=
  need ts (tl_StartTime p) (tl_EndTime p) (valueOf p).

Definition TimeLock_result (w : World) (p : TimeLockParam) (e : option error) : Prop :=
  match TimeLockParam_Check p ts with
  | Some err => e = Some err
  | None =>
      match timeLockType (tl_Type p) with
      | AssetToTimeLock =>
          e = if bal w from (tl_AssetID p) <? valueOf p then Some notEnoughAsset else None
      | TimeLockToTimeLock | TimeLockToAsset => taking_result w (tl_AssetID p) (needOf p) e
      | OtherTimeLockType _ => e = Some (New "Unsupported")
      end
  end.

Definition TimeLock_delta (p : TimeLockParam) : delta :=
  match timeLockType (tl_Type p) with
  | AssetToTimeLock => lock_delta (tl_To p) (tl_AssetID p) (valueOf p) (needOf p)
  | TimeLockToTimeLock => transfer from (tl_To p) (tl_AssetID p) (locked (itemAt (needOf p)))
  | TimeLockToAsset => dadd (dneg (gain from (tl_AssetID p) (locked (itemAt (needOf p)))))
                            (gain (tl_To p) (tl_AssetID p) (coins (valueOf p)))
  | OtherTimeLockType _ => dzero
  end.

Lemma TimeLockParam_Check_None p :
  TimeLockParam_Check p ts = None →
  ∃ v, tl_Value p = Some v ∧ 0 < v ∧ tl_StartTime p <= tl_EndTime p ∧ ts <= tl_EndTime p.
Proof.
  unfold TimeLockParam_Check. destruct (pos_big (tl_Value p)) eqn:E; [|done].
  destruct (pos_big_true _ E) as (v & -> & Hv). simpl.
  destruct (Z.ltb_spec (tl_EndTime p) (tl_StartTime p)), (Z.ltb_spec (tl_EndTime p) ts); try done.
  intros _. by exists v.
Qed.

Lemma need_ok p :
  is_u64 (tl_EndTime p) → TimeLockParam_Check p ts = None → item_ok (needOf p).
Proof.
  intros He Hc. destruct (TimeLockParam_Check_None p Hc) as (v & Hv & ? & ? & ?).
  unfold item_ok, needOf, need, valueOf, is_u64 in *. rewrite Hv. simpl. unfold id. lia.
Qed.

(** The handler after the adjustment. *)
Definition timeLock_checked (p : TimeLockParam) : M (option error) :=
  match TimeLockParam_Check p ts with
  | Some err => failure ctx TimeLockFunc (LTimeLock p) err
  | None =>
      value ← non_nil (tl_Value p);
      let needValue := oneItem (MaxUint64 (tl_StartTime p) ts) (tl_EndTime p) (copyBytes value) in
      match TimeLock_IsValid needValue with
      | Some err => failure ctx TimeLockFunc (LTimeLock p) (tl_error err)
      | None =>
          match timeLockType (tl_Type p) with
          | AssetToTimeLock => handleAssetToTimeLock msg ctx p value needValue
          | TimeLockToTimeLock => handleTimeLockToTimeLock msg ctx p needValue
          | TimeLockToAsset => handleTimeLockToAsset msg ctx p value needValue
          | OtherTimeLockType _ => mret (Some (New "Unsupported"))
          end
      end
  end.

Lemma timeLock_checked_spec s w p :
  rep s w → is_u64 (tl_EndTime p) →
  ∃ e, TimeLock_result w p e ∧ wp (timeLock_checked p) (yields nowhere s w ts e (TimeLock_delta p)) s.
Proof.
  intros Hr He. unfold timeLock_checked, TimeLock_result, TimeLock_delta.
  destruct (TimeLockParam_Check p ts) as [err|] eqn:Hc.
  { exists (Some err). split; [done|]. apply (wp_failure w); [done|]. intros. by apply yields_error. }
  pose proof (need_ok p He Hc) as Hok.
  destruct (TimeLockParam_Check_None p Hc) as (v & Hv & Hv0 & _). rewrite Hv.
  assert (HvO : valueOf p = v) by (unfold valueOf; by rewrite Hv). rewrite HvO.
  assert (Hn : oneItem (MaxUint64 (tl_StartTime p) ts) (tl_EndTime p) (copyBytes v) = single (needOf p)).
  { rewrite MaxUint64_max, (proj1 (oneItem_single _ _ v ltac:(lia))), <- HvO. done. }
  assert (Hpos : ts <= StartTime (needOf p)) by (simpl; lia).
  assert (Hval : Value (needOf p) = v) by done. clear Hv HvO Hc.
  assert (Hgo : ∀ e d (m : TimeLock → M (option error)),
    wp (m (single (needOf p))) (yields nowhere s w ts e d) s →
    wp (value ← non_nil (Some v);
        let needValue := oneItem (MaxUint64 (tl_StartTime p) ts) (tl_EndTime p) (copyBytes value) in
        match TimeLock_IsValid needValue with
        | Some err => failure ctx TimeLockFunc (LTimeLock p) (tl_error err)
        | None => m needValue
        end) (yields nowhere s w ts e d) s).
  { intros e d m Hm. apply wp_bind, (wp_non_nil _ v); [done|]. cbv zeta. by rewrite Hn, IsValid_single. }
  destruct (timeLockType (tl_Type p)).
  - eexists. split; [done|]. apply (Hgo _ _ (handleAssetToTimeLock msg ctx p v)).
    by apply handleAssetToTimeLock_spec.
  - destruct (handleTimeLockToTimeLock_spec s w p (needOf p) Hr Hok ltac:(lia)) as (e & Hres & Hwp).
    exists e. split; [done|]. by apply (Hgo _ _ (handleTimeLockToTimeLock msg ctx p)).
  - destruct (handleTimeLockToAsset_spec s w p v (needOf p) Hr Hok ltac:(lia)) as (e & Hres & Hwp).
    exists e. split; [done|]. by apply (Hgo _ _ (handleTimeLockToAsset msg ctx p v)).
  - eexists. split; [done|]. apply (Hgo _ _ (fun _ => mret (Some (New "Unsupported")))).
    apply wp_ret. by apply yields_error.
Qed.

Lemma handleTimeLock_spec s w param :
  rep s w → are_bytes (fp_Data param) →
  let p := (Unmarshal TimeLockParam (fp_Data param)).1 in
  match adjustTimeLockParam ctx p with
  | None => wp (handleTimeLock msg ctx param) (yields nowhere s w ts (Some startsTooLate) dzero) s
  | Some p => ∃ e, TimeLock_result w p e ∧
      wp (handleTimeLock msg ctx param) (yields nowhere s w ts e (TimeLock_delta p)) s
  end.
Proof.
  intros Hr Hb p. destruct (TimeLockParam_typed (fp_Data param) Hb) as (_ & _ & Hs & He & _).
  fold p in Hs, He. unfold handleTimeLock. fold p.
  destruct (adjustTimeLockParam ctx p) as [p'|] eqn:Ha.
  - apply (timeLock_checked_spec s w p'); [done|]. unfold adjustTimeLockParam in Ha.
    destruct (timeLockType (tl_Type p)); try (by injection Ha as <-).
    destruct (_ <? _); [done|]. by injection Ha as <-.
  - apply (wp_fail w); [done|]. intros. by apply yields_error.
Qed.
End calls.

(** Sending an asset. The call returns, without panic: with the error of the
    check or the one for a balance that is too small, and then nothing moved; or
    with nil, and then the value of the call went from the balance of the sender
    to that of the receiver, who may be the sender, and nothing else of the
    state changed. *)
Theorem send_asset_call `{SP : StateParams} `{TP : TransitionParams} (msg : Message) (ctx : Context)
    (param : FSNCallParam) (s : StateDB) (w : World) :
  rep s w →
  let p := (Unmarshal SendAssetParam (fp_Data param)).1 in
  wp (handleSendAsset msg ctx param)
     (yields nowhere s w (ParentTime ctx) (SendAsset_result msg w p)
        (transfer (msg_From msg) (sa_To p) (sa_AssetID p) (coins (default 0 (sa_Value p))))) s.
Proof. apply handleSendAsset_spec. Qed.

(** C35: the time lock calls. The call returns, without panic, the error of its
    checks, or the one for a balance or time lock that is too small, and nothing
    moved; or nil, and it moved what its type says: an asset turned into a time
    lock of which the receiver has the interval and the sender the rest, an
    interval of a time lock given to the receiver, or a time lock until forever
    turned into an asset of the receiver. The test of the time lock is exact:
    the call succeeds when the sender has the value at every time of the
    interval. *)
Theorem time_lock_call `{SP : StateParams} `{TP : TransitionParams} (msg : Message) (ctx : Context)
    (param : FSNCallParam) (s : StateDB) (w : World) :
  0 < ParentTime ctx < two64 → rep s w → are_bytes (fp_Data param) →
  let p := (Unmarshal TimeLockParam (fp_Data param)).1 in
  match adjustTimeLockParam ctx p with
  | None => wp (handleTimeLock msg ctx param)
              (yields nowhere s w (ParentTime ctx) (Some startsTooLate) dzero) s
  | Some p => ∃ e, TimeLock_result msg ctx w p e ∧
      wp (handleTimeLock msg ctx param)
         (yields nowhere s w (ParentTime ctx) e (TimeLock_delta msg ctx p)) s
  end.
Proof. intros Hts Hr Hb. exact (handleTimeLock_spec msg ctx Hts s w param Hr Hb). Qed.

Lemma spendable_sum P ts d w w' l h t :
  moves P ts d w w' → ts <= t →
  sumZ (fun a => spendable w' a h t) l = sumZ (fun a => spendable w a h t) l + dsum l d h t.
Proof.
  intros [Hm _] Ht. unfold dsum. rewrite <- sumZ_add. apply sumZ_ext. intros a _. unfold spendable.
  rewrite (Hm a h Free I), (Hm a h (At t) Ht). lia.
Qed.

(** The early part of a time lock that is turned into an asset. *)
Definition minted (ctx : Context) (p : TimeLockParam) (h : Hash) (t : Z) : Z :=
  match timeLockType (tl_Type p) with
  | TimeLockToAsset => if (tl_AssetID p =? h) && (t <? tl_StartTime p) then valueOf p else 0
  | _ => 0
  end.

Lemma TimeLock_delta_sum msg ctx p l h t :
  NoDup l → msg_From msg ∈ l → tl_To p ∈ l → ParentTime ctx <= t <= TimeLockForever →
  (timeLockType (tl_Type p) = TimeLockToAsset → tl_EndTime p = TimeLockForever) →
  dsum l (TimeLock_delta msg ctx p) h t = minted ctx p h t.
Proof.
  intros Hl Hf Hto Ht He. unfold TimeLock_delta, minted, lock_delta, transfer.
  destruct (timeLockType (tl_Type p)); autorewrite with dsum; rewrite ?dsum_gain by done;
    destruct (tl_AssetID p =? h); try done; unfold spend, coins, locked, itemAt, whole, needOf, need; simpl.
  - rewrite (ival_in (ParentTime ctx)) by lia. lia.
  - lia.
  - rewrite He by done. destruct (Z.ltb_spec t (tl_StartTime p)).
    + rewrite ival_out; lia.
    + rewrite ival_in; lia.
Qed.

(** C36: the supply through a time lock call. When the call succeeds, the amount
    that the accounts can spend at a time from the block on is the same as
    before, for every asset, but for one case: turning a time lock that starts
    after the block into an asset gives the receiver the value at once, and takes
    it from the sender from the start on only. The check that would refuse it
    compares the start with the clock of the machine, not with the block. *)
Theorem time_lock_call_supply `{SP : StateParams} `{TP : TransitionParams} (msg : Message)
    (ctx : Context) (param : FSNCallParam) (s : StateDB) (w : World) (p : TimeLockParam)
    (l : list Address) :
  0 < ParentTime ctx < two64 → rep s w → are_bytes (fp_Data param) →
  adjustTimeLockParam ctx (Unmarshal TimeLockParam (fp_Data param)).1 = Some p →
  NoDup l → msg_From msg ∈ l → tl_To p ∈ l →
  wp (handleTimeLock msg ctx param)
     (fun r s' => ∃ w', rep s' w' ∧ ∀ h t, ParentTime ctx <= t <= TimeLockForever →
        sumZ (fun a => spendable w' a h t) l =
        sumZ (fun a => spendable w a h t) l +
          match r with None => minted ctx p h t | Some _ => 0 end) s.
Proof.
  intros Hts Hr Hb Ha Hl Hf Hto. pose proof (handleTimeLock_spec msg ctx Hts s w param Hr Hb) as H.
  cbv zeta in H. rewrite Ha in H. destruct H as (e & _ & H).
  eapply wp_mono; [exact H|]. intros r s' [-> (w' & Hr' & _ & Hm)]. exists w'. split; [done|].
  intros h t Ht. rewrite (spendable_sum _ _ _ _ _ l h t Hm) by lia. f_equal.
  destruct e; [apply dsum_zero|]. apply TimeLock_delta_sum; try done. intros Hty.
  unfold adjustTimeLockParam in Ha. destruct (timeLockType (tl_Type (Unmarshal _ _).1)) eqn:E;
    try (injection Ha as <-; congruence). destruct (_ <? _); [done|]. by injection Ha as <-.
Qed.

(** ** Examples *)

#[export] Instance ex_tparams : TransitionParams := {|
  json_Marshal _ _ := [];
  evm_Call _ _ _ _ gas _ := mret ([], gas, None);
  evm_Create _ _ _ gas _ := mret ([], gas, None);
|}.

(** The state a program leaves. *)
Definition after {A} (m : M A) (s : StateDB) : StateDB :=
  match m s with Done (_, s') => s' | _ => s end.
Lemma wp_after {A} (m : M A) (Q : A → StateDB → Prop) s : wp m Q s → ∃ r, Q r (after m s).
Proof. intros (r & s' & Hm & HQ). exists r. unfold after. by rewrite Hm. Qed.

Definition ex_ctx (time : Z) : Context := mkContext 10 time 9 0 (fun _ => 0) time true.
Definition ex_msg (from : Address) (hash : Hash) : Message :=
  mkMessage from (Some FSNCallAddress) 1 100000 0 0 true [] hash.
Definition encoded {A} `{!Rlp A} (a : A) : bytes := match Marshal a with inl b => b | inr _ => [] end.
Definition ex_call {A} `{!Rlp A} (func : FSNCallFunc) (a : A) : FSNCallParam := mkFSNCallParam func (encoded a).


(** Account 5 has 100 of the asset 77, and 30 more from the time 150 on. *)
Definition ex_fund : M unit :=
  _ ← AddBalance 5 77 100; AddTimeLockBalance 5 77 (mkTimeLock [mkItem 150 TimeLockForever 30]) 100.
Definition ex_funded : StateDB := after ex_fund ex_state.

Lemma ex_funded_rep : rep ex_funded (world ex_funded).
Proof.
  assert (H : wp ex_fund (fun _ s => wf_db s) ex_state); [|by destruct (wp_after _ _ _ H)].
  apply wp_bind, (wp_AddBalance_moves nowhere 0 (world ex_state)); [split; [apply wf_ex_state|done]|].
  intros s1 w1 Hr1 _ _. apply (wp_AddTimeLock_moves nowhere 100 w1); [done|by repeat split|].
  intros s2 w2 [Hr2 _] _ _. done.
Qed.

Definition ex_send : FSNCallParam := ex_call SendAssetFunc (mkSendAssetParam 77 6 (Some 40)).

Lemma send_asset_call_witness :
  SendAsset_result (ex_msg 5 1) (world ex_funded) (Unmarshal SendAssetParam (fp_Data ex_send)).1 = None ∧
  let p := (Unmarshal SendAssetParam (fp_Data ex_send)).1 in
  wp (handleSendAsset (ex_msg 5 1) (ex_ctx 100) ex_send)
     (yields nowhere ex_funded (world ex_funded) 100
        (SendAsset_result (ex_msg 5 1) (world ex_funded) p)
        (transfer 5 (sa_To p) (sa_AssetID p) (coins (default 0 (sa_Value p))))) ex_funded.
Proof.
  split; [vm_compute; reflexivity|].
  apply (send_asset_call (ex_msg 5 1) (ex_ctx 100) ex_send ex_funded (world ex_funded)), ex_funded_rep.
Defined.

(** The clock of the machine is ahead of the block, and the time lock starts in
    between. *)
Definition ex_late : Context := mkContext 10 100 9 0 (fun _ => 0) 200 true.
Definition ex_unlock : FSNCallParam :=
  ex_call TimeLockFunc (mkTimeLockParam 2 77 6 150 0 (Some 30)).
Definition ex_unlocked : TimeLockParam := mkTimeLockParam 2 77 6 150 TimeLockForever (Some 30).

Lemma ex_unlock_param :
  adjustTimeLockParam ex_late (Unmarshal TimeLockParam (fp_Data ex_unlock)).1 = Some ex_unlocked ∧
  are_bytes (fp_Data ex_unlock).
Proof. split; [vm_compute; reflexivity|]. apply (bool_decide_unpack _). vm_compute. exact I. Qed.

Lemma time_lock_call_witness :
  ∃ e, TimeLock_result (ex_msg 5 1) ex_late (world ex_funded) ex_unlocked e ∧
    wp (handleTimeLock (ex_msg 5 1) ex_late ex_unlock)
       (yields nowhere ex_funded (world ex_funded) 100 e
          (TimeLock_delta (ex_msg 5 1) ex_late ex_unlocked)) ex_funded.
Proof.
  pose proof (time_lock_call (ex_msg 5 1) ex_late ex_unlock ex_funded (world ex_funded)
    ltac:(done) ex_funded_rep (proj2 ex_unlock_param)) as H.
  cbv zeta in H. rewrite (proj1 ex_unlock_param) in H. exact H.
Defined.

Lemma time_lock_call_supply_witness :
  minted ex_late ex_unlocked 77 120 = 30 ∧
  match result (handleTimeLock (ex_msg 5 1) ex_late ex_unlock) ex_funded with
  | Some None => True | _ => False end ∧
  wp (handleTimeLock (ex_msg 5 1) ex_late ex_unlock)
     (fun r s' => ∃ w', rep s' w' ∧ ∀ h t, 100 <= t <= TimeLockForever →
        sumZ (fun a => spendable w' a h t) [5; 6] =
        sumZ (fun a => spendable (world ex_funded) a h t) [5; 6] +
          match r with None => minted ex_late ex_unlocked h t | Some _ => 0 end) ex_funded.
Proof.
  split; [reflexivity|]. split; [vm_compute; exact I|].
  apply (time_lock_call_supply (ex_msg 5 1) ex_late ex_unlock ex_funded (world ex_funded) ex_unlocked [5; 6]).
  - done.
  - exact ex_funded_rep.
  - apply ex_unlock_param.
  - apply ex_unlock_param.
  - apply (bool_decide_unpack _). vm_compute. exact I.
  - simpl. set_solver.
  - simpl. set_solver.
Defined.
