(* ===== verification/SwapFacts.v ===== *)
(** * What the swap calls do

    Making, recalling and taking a swap against the ledger and the book of
    swaps. A side of a swap is a [stake]: an amount of an asset, free or locked on
    an interval. A swap that is made takes its stake from the owner and holds it
    in escrow; the escrow goes back to the owner, or in parts to the takers, who
    pay the other stake to the owner. *)

From stdpp Require Import base list gmap strings.
From Stdlib Require Import ZArith Lia.
From S2P Require Import Prelude Bytes Keccak KeccakFacts TimeLock TimeLockFacts Ticket FsnTypes.
From S2P Require Import Rlp RlpFacts Codec CallParams StateDB StateRecords StateFacts StateRevert.
From S2P Require Import StateInterface StateWorld Ledger RecordFacts RecordStore StateTransition.
From S2P Require Import CallFacts.

(** ** Stakes *)

(** The amount [v] of one side of a swap, as a holding. *)
Definition stake (start end_ v : Z) : kind → Z :=
  if isAsset start end_ then coins v else locked (itemAt (mkItem start end_ v)).

(** From the time stamp on, only the later part of the interval counts. *)
Lemma itemAt_need ts start end_ v t :
  ts <= t → itemAt (need ts start end_ v) t = itemAt (mkItem start end_ v) t.
Proof.
  intros Ht. unfold itemAt, need, ival. simpl.
  destruct (Z.leb_spec (Z.max start ts) t), (Z.leb_spec start t); simpl; lia || done.
Qed.

Lemma need_invalid ts start end_ v t :
  is_u64 start → is_u64 end_ → is_u64 ts → 0 <= v → ¬ item_ok (need ts start end_ v) → ts <= t →
  itemAt (mkItem start end_ v) t = 0.
Proof.
  unfold is_u64, item_ok, need. simpl. intros ? ? ? ? Hn ?.
  destruct (Z.eq_dec v 0) as [->|]; [unfold itemAt, ival; simpl; by destruct (_ && _)|].
  apply ival_out. simpl. lia.
Qed.

Lemma coversTL_moves (P : Address → Prop) ts d w w' a h item :
  moves P ts d w w' → ts <= StartTime item →
  (∀ t, ts <= t → 0 <= d a h (At t)) →
  coversTL (tl w a h) item → coversTL (tl w' a h) item.
Proof.
  intros [Hm _] Hs Hd Hc t Ht. specialize (Hc t Ht).
  pose proof (Hm a h (At t) ltac:(simpl; lia)) as H. pose proof (Hd t ltac:(lia)).
  unfold holding, amountAt in H. lia.
Qed.

Section swaps.
Context `{SP : StateParams} `{TP : TransitionParams}.
Context (msg : Message) (ctx : Context).

Let from := msg_From msg.
Let ts := ParentTime ctx.
Hypothesis Hts : 0 < ts < two64.

(** An interval of [uint64] times and an amount. *)
Definition leg_ok (start end_ v : Z) : Prop := is_u64 start ∧ is_u64 end_ ∧ 0 <= v.

Lemma oneItem_need start end_ v :
  0 <= v → oneItem (MaxUint64 start ts) end_ v = single (need ts start end_ v).
Proof. intros Hv. rewrite MaxUint64_max. exact (proj2 (oneItem_single _ _ v Hv)). Qed.

(** [IsValid] of what is needed of a leg. *)
Lemma IsValid_need start end_ v :
  leg_ok start end_ v →
  TimeLock_IsValid (single (need ts start end_ v)) = None ↔ item_ok (need ts start end_ v).
Proof.
  intros (Hs & He & Hv). rewrite TimeLock_IsValid_wf.
  - split; [intros H; by apply (wf_cons_inv None _ [])|by apply wf_single].
  - constructor; [|constructor]. unfold in_range, is_u64, need in *. simpl. lia.
Qed.

Lemma need_dec start end_ v :
  leg_ok start end_ v →
  TimeLock_IsValid (single (need ts start end_ v)) = None ∧ item_ok (need ts start end_ v) ∨
  (∃ e, TimeLock_IsValid (single (need ts start end_ v)) = Some e) ∧ ¬ item_ok (need ts start end_ v).
Proof.
  intros Hl. pose proof (IsValid_need start end_ v Hl) as Hi.
  destruct (TimeLock_IsValid _) as [e|]; [right|left]; (split; [by try eexists|]); naive_solver.
Qed.

Lemma gain_leg_locked a h start end_ v z :
  isAsset start end_ = false → (∀ t, ts <= t → amountAt z t = itemAt (mkItem start end_ v) t) →
  ∀ a' h' k, from_time ts k → gain a h (stake start end_ v) a' h' k = gain a h (locked (amountAt z)) a' h' k.
Proof.
  intros Hi Hz a' h' k Hk. unfold gain, stake. rewrite Hi. destruct (_ && _), k; try done. simpl. by rewrite Hz.
Qed.

(** A delta that agrees from the time stamp on is as good. *)
Lemma moves_from (P : Address → Prop) d d' w w' :
  (∀ a h k, from_time ts k → d' a h k = d a h k) → moves P ts d w w' → moves P ts d' w w'.
Proof. intros Hd [Hm Hk]. split; [|done]. intros a h k Ht. rewrite Hd by done. by apply Hm. Qed.

Lemma wp_credit (P : Address → Prop) w s a h start end_ v Q :
  rep s w → leg_ok start end_ v →
  (∀ s' w', rep s' w' → frame s s' → moves P ts (gain a h (stake start end_ v)) w w' → Q tt s') →
  wp (credit ctx a h start end_ v) Q s.
Proof.
  intros Hr Hl HQ. unfold credit. destruct (isAsset start end_) eqn:Ea.
  - apply (wp_AddBalance_moves P ts w); [done|]. intros s' w' Hr' Hf Hm. apply (HQ s' w'); [done|done|].
    unfold stake. by rewrite Ea.
  - rewrite oneItem_need by apply Hl.
    destruct (need_dec start end_ v Hl) as [[-> Hok]|[[e ->] Hn]].
    + apply (wp_AddTimeLock_moves P ts w); [done|by apply wf_single|]. intros s' w' Hr' Hf Hm.
      apply (HQ s' w'); [done|done|]. eapply moves_from; [|exact Hm].
      apply gain_leg_locked; [done|]. intros t Ht. rewrite amountAt_single. by apply itemAt_need.
    + apply wp_ret. apply (HQ s w); [done|done|]. eapply moves_from; [|apply moves_refl].
      intros a' h' k Hk. unfold gain, stake, dzero. rewrite Ea. destruct (_ && _), k as [|t]; try done.
      destruct Hl as (? & ? & ?). simpl in *. apply (need_invalid ts); try done. unfold is_u64. lia.
Qed.

(** ** Paying a leg *)

(** An asset turned into a time lock from the time stamp on. *)
Definition convert (h : Hash) (v : Z) : delta :=
  dadd (dneg (gain from h (coins v))) (gain from h (locked (itemAt (whole ts v)))).

(** Whether the sender can pay a leg, and what is moved to make it so. *)
Inductive funds (legacy : bool) (w : World) (h : Hash) (start end_ v : Z) : bool → delta → Prop :=
| funds_asset :
    isAsset start end_ = true → v <= bal w from h → funds legacy w h start end_ v true dzero
| short_asset :
    isAsset start end_ = true → bal w from h < v → funds legacy w h start end_ v false dzero
| funds_lock :
    isAsset start end_ = false → coversTL (tl w from h) (need ts start end_ v) →
    funds legacy w h start end_ v true dzero
| short_lock :
    isAsset start end_ = false → ¬ coversTL (tl w from h) (need ts start end_ v) →
    legacy = true ∨ bal w from h < v → funds legacy w h start end_ v false dzero
| funds_convert :
    isAsset start end_ = false → ¬ coversTL (tl w from h) (need ts start end_ v) →
    legacy = false → v <= bal w from h → funds legacy w h start end_ v true (convert h v)
| funds_nothing :
    isAsset start end_ = false → ¬ item_ok (need ts start end_ v) →
    funds legacy w h start end_ v true dzero.

(** There is enough for the leg. *)
Definition enough (w : World) (h : Hash) (start end_ v : Z) : Prop :=
  if isAsset start end_ then v <= bal w from h else coversTL (tl w from h) (need ts start end_ v).

Lemma enough_moves (P : Address → Prop) d w w' h start end_ v :
  moves P ts d w w' → (∀ k, from_time ts k → 0 <= d from h k) →
  enough w h start end_ v → enough w' h start end_ v.
Proof.
  intros Hm Hd. unfold enough. destruct (isAsset start end_).
  - pose proof (mv_holding _ _ _ _ _ Hm from h Free I) as Hh. pose proof (Hd Free I).
    unfold holding in Hh. lia.
  - apply (coversTL_moves P ts d); [done|simpl; lia|]. intros t Ht. by apply Hd.
Qed.

Lemma convert_covers w w' h start end_ v :
  wfTL (tl w from h) → leg_ok start end_ v →
  moves nowhere ts (convert h v) w w' → coversTL (tl w' from h) (need ts start end_ v).
Proof.
  intros Hwf (Hs & He & Hv) Hm t Ht. simpl in Ht. unfold is_u64, two64 in *.
  pose proof (mv_holding _ _ _ _ _ Hm from h (At t) ltac:(simpl; lia)) as Hh.
  unfold holding, convert, dadd, dneg, gain, coins, locked in Hh. rewrite !Z.eqb_refl in Hh. simpl in Hh.
  pose proof (itemsAt_nonneg (Items (tl w from h)) t Hwf). unfold amountAt in Hh.
  unfold itemAt, whole, TimeLockForever in Hh. simpl in Hh. rewrite ival_in in Hh by lia. simpl. lia.
Qed.

(** [SubBalance] and [AddTimeLockBalance] of the same amount. *)
Lemma wp_assetToTimeLock w s h v Q :
  rep s w → 0 < v →
  (∀ s' w', rep s' w' → frame s s' → moves nowhere ts (convert h v) w w' → Q tt s') →
  wp (assetToTimeLock msg ctx h v) Q s.
Proof.
  intros Hr Hv HQ. apply wp_bind, (wp_SubBalance_moves nowhere ts w); [done|]. intros s1 w1 Hr1 Hf1 Hm1.
  fold ts. rewrite (proj2 (oneItem_single ts TimeLockForever v ltac:(lia))). fold (whole ts v).
  apply (wp_AddTimeLock_moves nowhere ts w1); [done|by apply wf_single, (whole_ok msg ctx)|].
  intros s2 w2 Hr2 Hf2 Hm2. apply (HQ s2 w2); [done|solve_frame|].
  eapply moves_proper; [|exact (moves_trans _ _ _ _ _ _ _ Hm1 Hm2)].
  intros a h' k. unfold convert, dadd, gain, locked. destruct k; [done|]. by rewrite amountAt_single.
Qed.

(** The error for funds that do not suffice. *)
Definition short_error (legacy : bool) (start end_ : Z) : error :=
  if isAsset start end_ then New "not enough from asset"
  else if legacy then New "not enough time lock balance"
  else New "not enough time lock or asset balance".

(** What follows the comparison of the time lock with what is needed. *)
Lemma wp_convert_or_fail {A} w s h start end_ v (legacy : bool) c (m1 m2 m3 : M A) Q :
  rep s w → leg_ok start end_ v → item_ok (need ts start end_ v) → isAsset start end_ = false →
  (c < 0 ↔ ¬ coversTL (tl w from h) (need ts start end_ v)) →
  (∀ s', legacy = true → rep s' w → frame s s' → funds legacy w h start end_ v false dzero → wp m1 Q s') →
  (∀ s', legacy = false → rep s' w → frame s s' → funds legacy w h start end_ v false dzero → wp m2 Q s') →
  (∀ s' w' d, rep s' w' → frame s s' → moves nowhere ts d w w' → funds legacy w h start end_ v true d →
     enough w' h start end_ v → wp m3 Q s') →
  wp (if c <? 0 then
        if legacy then m1
        else
          c ← balanceCmp h from v;
          if c <? 0 then m2 else _ ← assetToTimeLock msg ctx h v; m3
      else m3) Q s.
Proof.
  intros Hr Hl Hok Ha Hc H1 H2 H3. assert (Hpos : 0 < StartTime (need ts start end_ v)) by (simpl; lia).
  destruct (rep_tl s w from h Hr) as [_ Hwf].
  assert (Hd := coversTL_dec _ _ Hwf Hok Hpos).
  destruct (Z.ltb_spec c 0) as [Hlt|Hge].
  - assert (Hn : ¬ coversTL (tl w from h) (need ts start end_ v)) by by apply Hc.
    destruct legacy; [apply H1; [done|done|done|]; apply short_lock; auto|].
    apply wp_bind, (wp_balanceCmp w); [done|]. intros c' s2 Hr2 Hf2 Hc'.
    destruct (Z.ltb_spec c' 0).
    + apply H2; [done|done|solve_frame|]. apply short_lock; [done|done|]. right. by apply Hc'.
    + apply wp_bind, (wp_assetToTimeLock w); [done|apply Hok|]. intros s3 w3 Hr3 Hf3 Hm3.
      apply (H3 s3 w3 (convert h v)); [done|solve_frame|done| |].
      * apply funds_convert; [done|done|done|]. lia.
      * unfold enough. rewrite Ha. by apply (convert_covers w).
  - assert (Hcov : coversTL (tl w from h) (need ts start end_ v)).
    { destruct Hd as [|Hn]; [done|]. apply Hc in Hn. lia. }
    apply (H3 s w dzero); [done|done|apply moves_refl|by apply funds_lock|]. unfold enough. by rewrite Ha.
Qed.

Lemma makeSwap_funds_spec w s func h start end_ v Q :
  rep s w → leg_ok start end_ v → (isAsset start end_ = false → item_ok (need ts start end_ v)) →
  (∀ s' shown, rep s' w → frame s s' → funds (func =? MakeSwapFunc) w h start end_ v false dzero →
     Q (Some (shown, short_error (func =? MakeSwapFunc) start end_)) s') →
  (∀ s' w' d, rep s' w' → frame s s' → moves nowhere ts d w w' →
     funds (func =? MakeSwapFunc) w h start end_ v true d → enough w' h start end_ v → Q None s') →
  wp (makeSwap_funds msg ctx func h (isAsset start end_) v (single (need ts start end_ v))) Q s.
Proof.
  intros Hr Hl Hok HF HT. unfold makeSwap_funds, short_error in *. fold from. destruct (isAsset start end_) eqn:Ea.
  - apply wp_bind, (wp_balanceCmp w); [done|]. intros c s1 Hr1 Hf1 Hc. apply wp_ret.
    destruct (Z.ltb_spec c 0).
    + apply HF; [done|done|]. apply short_asset; [done|]. by apply Hc.
    + assert (v <= bal w from h) by lia. apply (HT s1 w dzero); [done|done|apply moves_refl| |].
      * by apply funds_asset.
      * unfold enough. by rewrite Ea.
  - apply wp_bind, (wp_timeLockCmp w); [done|by apply Hok|simpl; lia|]. intros c s1 Hr1 Hf1 Hc.
    apply (wp_convert_or_fail w s1 h start end_ v); try done; [by apply Hok|..].
    + intros s' El Hr' Hf' Hfu. rewrite El in HF, Hfu. apply wp_ret, HF; [done|solve_frame|done].
    + intros s' El Hr' Hf' Hfu. rewrite El in HF, Hfu. apply wp_ret, HF; [done|solve_frame|done].
    + intros s' w' d Hr' Hf' Hm Hfu He. apply wp_ret. apply (HT s' w' d); try done. solve_frame.
Qed.

(** Taking a leg that there is enough for. *)
Lemma wp_take_leg (P : Address → Prop) w s h start end_ v Q :
  rep s w → enough w h start end_ v → (isAsset start end_ = false → item_ok (need ts start end_ v)) →
  (∀ s' w', rep s' w' → frame s s' → moves P ts (dneg (gain from h (stake start end_ v))) w w' → Q tt s') →
  wp (if isAsset start end_ then SubBalance from h v
      else SubTimeLockBalance from h (single (need ts start end_ v)) ts) Q s.
Proof.
  intros Hr He Hok HQ. unfold enough in He. destruct (isAsset start end_) eqn:Ea.
  - apply (wp_SubBalance_moves P ts w); [done|]. intros s' w' Hr' Hf Hm. apply (HQ s' w'); [done|done|].
    unfold stake. by rewrite Ea.
  - apply (wp_SubTimeLock_moves P ts w); [done|by apply Hok|simpl; lia|done|].
    intros s' w' Hr' Hf Hm. apply (HQ s' w'); [done|done|]. eapply moves_from; [|exact Hm].
    intros a h' k Hk. unfold dneg, gain, stake. rewrite Ea. destruct (_ && _), k as [|t]; try done.
    simpl in *. by rewrite itemAt_need.
Qed.

(** ** The calls *)

Context (ids : list Hash) (N : nat).
Hypothesis Hfree : collision_free ids N.

(** What a call returns, what it moves, and the book of swaps it leaves. *)
Record outcome_of_swap := mkOutcome {
  o_error : option error;
  o_delta : delta;
  o_swaps : gmap Z Swap;
}.
Definition rejected (err : error) (m : gmap Z Swap) : outcome_of_swap := mkOutcome (Some err) dzero m.

Definition with_swaps (B : books) (m : gmap Z Swap) : books := mkBooks (bk_assets B) m (bk_multi B).

Definition swap_yields (s : StateDB) (w : World) (B : books) (o : outcome_of_swap)
    (r : option error) (s' : StateDB) : Prop :=
  r = o_error o ∧ ∃ w', rep s' w' ∧ frame s s' ∧ moves (eq SwapKeyAddress) ts (o_delta o) w w' ∧
    shelves ids N w' (with_swaps B (o_swaps o)).

Lemma shelves_moves d w w' B :
  moves nowhere ts d w w' → shelves ids N w B → shelves ids N w' B.
Proof.
  intros [_ Hk] [H1 H2 H3].
  split; [destruct H1 as [Hb ?]|destruct H2 as [Hb ?]|destruct H3 as [Hb ?]]; split; try done;
    by apply (book_keeps ids N nowhere w); [intros []| |].
Qed.

Lemma with_swaps_same B : with_swaps B (bk_swaps B) = B.
Proof. by destruct B. Qed.

Lemma swap_rejected s s' w B err :
  rep s' w → frame s s' → shelves ids N w B →
  swap_yields s w B (rejected err (bk_swaps B)) (Some err) s'.
Proof.
  intros Hr Hf HB. split; [done|]. exists w. split_and!; [done|done|apply moves_refl|].
  simpl. by rewrite with_swaps_same.
Qed.

(** A call that ends in an error. *)
Lemma wp_reject (spec : outcome_of_swap → Prop) w B s s1 typ v kv err :
  rep s1 w → frame s s1 → shelves ids N w B → spec (rejected err (bk_swaps B)) →
  wp (fail ctx typ v kv err) (fun r s' => ∃ o, spec o ∧ swap_yields s w B o r s') s1.
Proof.
  intros Hr Hf HB Hs. apply (wp_fail _ w); [done|]. intros s' Hr' Hf'. eexists. split; [exact Hs|].
  apply swap_rejected; [done|solve_frame|done].
Qed.

Lemma swap_yields_frame s s1 w B o r s' :
  frame s s1 → swap_yields s1 w B o r s' → swap_yields s w B o r s'.
Proof.
  intros Hf [Hr (w' & Hr' & Hf' & Hm & HB)]. split; [done|]. exists w'. split_and!; [done|solve_frame|done|done].
Qed.

Lemma moves_somewhere (P : Address → Prop) d w w' : moves nowhere ts d w w' → moves P ts d w w'.
Proof. apply moves_weaken. by intros a []. Qed.

(** *** Making a swap *)

(** The swap that is recorded: a notation is swapped as a whole. *)
Definition made (w : World) (p : MakeSwapParam) : Swap :=
  swap_of msg (if ms_FromAssetID p =? OwnerUSANAssetID then set_swap_all p else p) (msg_Hash msg)
    (notation w from).
Definition fromTotal (p : MakeSwapParam) : Z := default 0 (ms_MinFromAmount p) * default 0 (ms_SwapSize p).

Definition make_spec (func : FSNCallFunc) (w : World) (B : books) (p : MakeSwapParam)
    (o : outcome_of_swap) : Prop :=
  let swaps := bk_swaps B in
  let sw := made w p in
  match swaps !! msg_Hash msg with
  | Some _ => o = rejected (New "Swap already exist") swaps
  | None =>
      match MakeSwapParam_Check p ts with
      | Some err => o = rejected err swaps
      | None =>
          if ms_ToAssetID p =? OwnerUSANAssetID then o = rejected (New "USAN's cannot be swapped") swaps
          else
            match bk_assets B !! ms_ToAssetID p with
            | None => o = rejected (New "ToAssetID's asset not found") swaps
            | Some _ =>
                if ms_FromAssetID p =? OwnerUSANAssetID then
                  if notation w from =? 0
                  then o = rejected (New "the from address does not have a notation") swaps
                  else o = mkOutcome None dzero (<[msg_Hash msg := sw]> swaps)
                else
                  ∃ ok d,
                    funds (func =? MakeSwapFunc) w (ms_FromAssetID p) (ms_FromStartTime p)
                      (ms_FromEndTime p) (fromTotal p) ok d ∧
                    if ok : bool
                    then o = mkOutcome None
                               (dadd d (dneg (gain from (ms_FromAssetID p)
                                  (stake (ms_FromStartTime p) (ms_FromEndTime p) (fromTotal p)))))
                               (<[msg_Hash msg := sw]> swaps)
                    else o = rejected (short_error (func =? MakeSwapFunc) (ms_FromStartTime p) (ms_FromEndTime p)) swaps
            end
      end
  end.

Lemma wp_AddSwap w B s sw Q :
  rep s w → shelves ids N w B → fits_store (P := swapPersist) ids N (sw_ID sw) sw →
  bk_swaps B !! sw_ID sw = None →
  (∀ s' w', rep s' w' → frame s s' → moves (eq SwapKeyAddress) ts dzero w w' →
     shelves ids N w' (with_swaps B (<[sw_ID sw := sw]> (bk_swaps B))) → Q None s') →
  wp (AddSwap sw) Q s.
Proof.
  intros Hr HB Hfit Hnone HQ. rewrite AddSwap_store.
  eapply wp_mono; [apply (shelf_add (P := swapPersist) ids N Hfree _ _ _ s w (bk_swaps B)); [done|apply HB|done]|].
  unfold map_add. rewrite Hnone. intros [e|] s' [He (w' & Hr' & Hf & Hm & Hs)]; [done|].
  apply (HQ s' w'); [done|done|apply Hm|]. split; [|exact Hs|]; (eapply shelf_other; [|exact Hm|apply HB]); done.
Qed.

Lemma MakeSwapParam_Check_None p :
  MakeSwapParam_Check p ts = None →
  ∃ mf sz, ms_MinFromAmount p = Some mf ∧ ms_SwapSize p = Some sz ∧ 0 < mf * sz ∧
    ms_FromStartTime p <= ms_FromEndTime p ∧ ts < ms_FromEndTime p.
Proof.
  unfold MakeSwapParam_Check. destruct (ms_MinFromAmount p) as [mf|], (ms_MinToAmount p) as [mt|],
    (ms_SwapSize p) as [sz|]; try done.
  destruct (_ || _ || _); [done|]. destruct (1024 <? _); [done|].
  destruct (Z.leb_spec (bigCmp (mf * sz) 0) 0) as [|Hp]; [done|]. apply (proj1 (bigCmp_gt _ _)) in Hp.
  destruct (_ <=? 0); [done|].
  destruct (Z.ltb_spec (ms_FromEndTime p) (ms_FromStartTime p)); [done|]. destruct (_ <? _); [done|].
  destruct (Z.leb_spec (ms_FromEndTime p) ts); [done|]. intros _. by exists mf, sz.
Qed.

Lemma makeSwap_asset_spec w B s func p Q :
  let h := ms_FromAssetID p in let start := ms_FromStartTime p in let end_ := ms_FromEndTime p in
  let v := fromTotal p in let sw := swap_of msg p (msg_Hash msg) (notation w from) in
  rep s w → shelves ids N w B → bk_swaps B !! msg_Hash msg = None →
  fits_store (P := swapPersist) ids N (msg_Hash msg) sw →
  leg_ok start end_ v → (isAsset start end_ = false → item_ok (need ts start end_ v)) →
  (let err := short_error (func =? MakeSwapFunc) start end_ in
   ∀ s', funds (func =? MakeSwapFunc) w h start end_ v false dzero →
     swap_yields s w B (rejected err (bk_swaps B)) (Some err) s' → Q (Some err) s') →
  (∀ d s', funds (func =? MakeSwapFunc) w h start end_ v true d →
     swap_yields s w B (mkOutcome None (dadd d (dneg (gain from h (stake start end_ v))))
                          (<[msg_Hash msg := sw]> (bk_swaps B))) None s' → Q None s') →
  wp (makeSwap_asset msg ctx func p sw (isAsset start end_) v (single (need ts start end_ v))) Q s.
Proof.
  intros h start end_ v sw Hr HB Hnone Hfit Hl Hok HF HT.
  apply wp_bind, (makeSwap_funds_spec w); [done..| |].
  { intros s1 shown Hr1 Hf1 Hfu. apply (wp_fail _ w); [done|]. intros s2 Hr2 Hf2.
    apply HF; [done|]. apply swap_rejected; [done|solve_frame|done]. }
  intros s1 w1 d Hr1 Hf1 Hm1 Hfu He. pose proof (shelves_moves _ _ _ _ Hm1 HB) as HB1.
  apply wp_bind, (wp_AddSwap w1 B); [done..|]. intros s2 w2 Hr2 Hf2 Hm2 HB2.
  apply wp_bind, (wp_take_leg nowhere w2); [done| |done|].
  { apply (enough_moves _ _ _ _ _ _ _ _ Hm2); [by intros|done]. }
  intros s3 w3 Hr3 Hf3 Hm3. apply (wp_success _ w3); [done|]. intros s4 Hr4 Hf4.
  apply (HT d); [done|]. split; [done|]. exists w3.
  split_and!; [done|solve_frame| |by apply (shelves_moves _ _ _ _ Hm3)].
  eapply moves_proper; [|exact (moves_trans _ _ _ _ _ _ _ (moves_somewhere _ _ _ _ Hm1)
    (moves_trans _ _ _ _ _ _ _ Hm2 (moves_somewhere _ _ _ _ Hm3)))].
  intros a h' k. cbn [o_delta]. unfold dadd, dzero, h. lia.
Qed.

Lemma wp_GetSwap w B s id Q :
  rep s w → shelves ids N w B → id ∈ ids →
  (∀ s', rep s' w → frame s s' →
     match bk_swaps B !! id with Some a => Q (inl a) s' | None => ∀ e, Q (inr e) s' end) →
  wp (GetSwap id) Q s.
Proof. intros Hr HB. rewrite GetSwap_store. apply (wp_store_get ids N _ _ w); [done|apply HB]. Qed.

Lemma wp_GetAsset w B s id Q :
  rep s w → shelves ids N w B → id ∈ ids →
  (∀ s', rep s' w → frame s s' →
     match bk_assets B !! id with Some a => Q (inl a) s' | None => ∀ e, Q (inr e) s' end) →
  wp (GetAsset id) Q s.
Proof. intros Hr HB. rewrite GetAsset_store. apply (wp_store_get ids N _ _ w); [done|apply HB]. Qed.

Lemma handleMakeSwap_spec s w B param :
  let p := (Unmarshal MakeSwapParam (fp_Data param)).1 in
  rep s w → shelves ids N w B → are_bytes (fp_Data param) →
  msg_Hash msg ∈ ids → ms_ToAssetID p ∈ ids → fits_store (P := swapPersist) ids N (msg_Hash msg) (made w p) →
  wp (handleMakeSwap msg ctx param)
     (fun r s' => ∃ o, make_spec (Func param) w B p o ∧ swap_yields s w B o r s') s.
Proof.
  intros p Hr HB Hb Hid Hto Hfit. unfold handleMakeSwap, make_spec. fold p from ts.
  apply wp_bind, (wp_GetNotation w); [done|]. intros s1 Hr1 Hf1.
  apply wp_bind, (wp_GetSwap w B); [done..|]. intros s2 Hr2 Hf2.
  destruct (bk_swaps B !! msg_Hash msg) as [sw|] eqn:Es; [by apply wp_reject; try solve_frame|].
  intros _. destruct (MakeSwapParam_Check p ts) as [err|] eqn:Ec; [by apply wp_reject; try solve_frame|].
  destruct (ms_ToAssetID p =? OwnerUSANAssetID); [by apply wp_reject; try solve_frame|].
  apply wp_bind, (wp_GetAsset w B); [done..|]. intros s3 Hr3 Hf3. assert (Hf : frame s s3) by solve_frame.
  destruct (bk_assets B !! ms_ToAssetID p) as [asset|] eqn:Ea; [|intros _; by apply wp_reject].
  unfold made in *. destruct (ms_FromAssetID p =? OwnerUSANAssetID).
  - destruct (notation w from =? 0); [by apply wp_reject|].
    apply wp_bind, (wp_AddSwap w B); [done..|]. intros s4 w4 Hr4 Hf4 Hm4 HB4.
    apply (wp_success _ w4); [done|]. intros s5 Hr5 Hf5. eexists. split; [done|]. split; [done|].
    exists w4. split_and!; [done|solve_frame|done|done].
  - destruct (MakeSwapParam_Check_None p Ec) as (mf & sz & Hmf & Hsz & Hv & Hse & Hte).
    destruct (MakeSwapParam_typed (fp_Data param) Hb) as (Hs & He & _). fold p in Hs, He.
    assert (HvO : mf * sz = fromTotal p) by (unfold fromTotal; by rewrite Hmf, Hsz). rewrite HvO in Hv.
    assert (Hok : item_ok (need ts (ms_FromStartTime p) (ms_FromEndTime p) (fromTotal p))).
    { unfold item_ok, need, is_u64 in *. simpl. lia. }
    apply wp_bind, (wp_non_nil _ mf); [done|]. apply wp_bind, (wp_non_nil _ sz); [done|]. cbv zeta.
    rewrite HvO, oneItem_need by lia. rewrite IsValid_single by done.
    replace (if isAsset _ _ then None else None) with (@None TimeLockError) by (by destruct (isAsset _ _)).
    apply (makeSwap_asset_spec w B s3); try done; [split_and!; [done|done|lia]|..].
    + intros err s' Hfu Hy. eexists. split; [exists false, dzero; eauto|by eapply swap_yields_frame].
    + intros d s' Hfu Hy. eexists. split; [exists true, d; eauto|by eapply swap_yields_frame].
Qed.

(** *** Recalling a swap *)

(** The swaps of the book are filed under their identifiers. *)
Definition keyed (m : gmap Z Swap) : Prop := ∀ id sw, m !! id = Some sw → sw_ID sw = id.

(** What a swap holds for its owner. *)
Definition escrow (sw : Swap) : kind → Z :=
  stake (sw_FromStartTime sw) (sw_FromEndTime sw)
    (default 0 (sw_MinFromAmount sw) * default 0 (sw_SwapSize sw)).

Record swap_wf (sw : Swap) (mf mt sz : Z) : Prop := {
  sf_minFrom : sw_MinFromAmount sw = Some mf;
  sf_minTo : sw_MinToAmount sw = Some mt;
  sf_size : sw_SwapSize sw = Some sz;
  sf_nonneg : 0 <= mf ∧ 0 <= mt ∧ 0 <= sz;
  sf_from : is_u64 (sw_FromStartTime sw) ∧ is_u64 (sw_FromEndTime sw);
  sf_to : is_u64 (sw_ToStartTime sw) ∧ is_u64 (sw_ToEndTime sw);
}.

Lemma shelves_swap_wf w B id sw :
  shelves ids N w B → bk_swaps B !! id = Some sw → ∃ mf mt sz, swap_wf sw mf mt sz.
Proof.
  intros HB Hsw. destruct (proj2 (proj2 (sv_swaps _ _ _ _ HB) id sw Hsw) true) as (b & _ & Hwf & _).
  unfold rlp_wf in Hwf. simpl in Hwf.
  destruct Hwf as (_ & (_ & _ & _ & [_ ?] & [_ ?] & Hmf & _ & [_ ?] & [_ ?] & Hmt & Hsz & _) & _).
  destruct (sw_MinFromAmount sw) as [mf|] eqn:?, (sw_MinToAmount sw) as [mt|] eqn:?,
    (sw_SwapSize sw) as [sz|] eqn:?; try done.
  by exists mf, mt, sz.
Qed.

Definition recall_spec (B : books) (p : RecallSwapParam) (o : outcome_of_swap) : Prop :=
  let swaps := bk_swaps B in
  match swaps !! rs_SwapID p with
  | None => o = rejected (New "Swap not found") swaps
  | Some sw =>
      if negb (sw_Owner sw =? from) then o = rejected (New "Must be swap onwer can recall") swaps
      else o = mkOutcome None
                 (if sw_FromAssetID sw =? OwnerUSANAssetID then dzero
                  else gain from (sw_FromAssetID sw) (escrow sw))
                 (delete (rs_SwapID p) swaps)
  end.

Lemma wp_RemoveSwap w B s id sw Q :
  rep s w → shelves ids N w B → id ∈ ids → bk_swaps B !! id = Some sw →
  (∀ s' w', rep s' w' → frame s s' → moves (eq SwapKeyAddress) ts dzero w w' →
     shelves ids N w' (with_swaps B (delete id (bk_swaps B))) → Q None s') →
  wp (RemoveSwap id) Q s.
Proof.
  intros Hr HB Hid Hsw HQ. rewrite RemoveSwap_store.
  eapply wp_mono; [apply (shelf_remove (P := swapPersist) ids N Hfree _ _ _ s w (bk_swaps B)); [done|apply HB|done]|].
  unfold map_remove. rewrite Hsw. intros [e|] s' [He (w' & Hr' & Hf & Hm & Hs)]; [done|].
  apply (HQ s' w'); [done|done|apply Hm|]. split; [|exact Hs|]; (eapply shelf_other; [|exact Hm|apply HB]); done.
Qed.

Lemma wp_UpdateSwap w B s sw Q :
  rep s w → shelves ids N w B → fits_store (P := swapPersist) ids N (sw_ID sw) sw →
  (∀ s' w', rep s' w' → frame s s' → moves (eq SwapKeyAddress) ts dzero w w' →
     shelves ids N w' (with_swaps B (<[sw_ID sw := sw]> (bk_swaps B))) → Q None s') →
  wp (UpdateSwap sw) Q s.
Proof.
  intros Hr HB Hfit HQ. rewrite UpdateSwap_store.
  eapply wp_mono; [apply (shelf_update (P := swapPersist) ids N Hfree s w (bk_swaps B)); [done|apply HB|done]|].
  intros [e|] s' [He (w' & Hr' & Hf & Hm & Hs)]; [done|].
  apply (HQ s' w'); [done|done|apply Hm|]. split; [|exact Hs|]; (eapply shelf_other; [|exact Hm|apply HB]); done.
Qed.

(** Giving out what a swap holds, or a part of it. *)
Lemma wp_release w s a sw mf mt sz n Q :
  rep s w → swap_wf sw mf mt sz → 0 <= n →
  (∀ s' w', rep s' w' → frame s s' →
     moves nowhere ts (gain a (sw_FromAssetID sw)
       (stake (sw_FromStartTime sw) (sw_FromEndTime sw) (mf * n))) w w' → Q tt s') →
  wp (credit ctx a (sw_FromAssetID sw) (sw_FromStartTime sw) (sw_FromEndTime sw) (mf * n)) Q s.
Proof.
  intros Hr Hwf Hn HQ. destruct (sf_nonneg _ _ _ _ Hwf) as (? & _), (sf_from _ _ _ _ Hwf).
  apply (wp_credit nowhere w); [done|split_and!; [done|done|lia]|done].
Qed.

Lemma handleRecallSwap_spec s w B param :
  let p := (Unmarshal RecallSwapParam (fp_Data param)).1 in
  rep s w → shelves ids N w B → keyed (bk_swaps B) → rs_SwapID p ∈ ids →
  wp (handleRecallSwap msg ctx param)
     (fun r s' => ∃ o, recall_spec B p o ∧ swap_yields s w B o r s') s.
Proof.
  intros p Hr HB Hk Hid. unfold handleRecallSwap, recall_spec. fold p from.
  apply wp_bind, (wp_GetSwap w B); [done..|]. intros s1 Hr1 Hf1.
  destruct (bk_swaps B !! rs_SwapID p) as [sw|] eqn:Es; [|intros _; by apply wp_reject].
  destruct (sw_Owner sw =? from); simpl; [|by apply wp_reject].
  rewrite (Hk _ _ Es). destruct (shelves_swap_wf _ _ _ _ HB Es) as (mf & mt & sz & Hwf).
  apply wp_bind, (wp_RemoveSwap w B _ _ sw); [done..|]. intros s2 w2 Hr2 Hf2 Hm2 HB2.
  assert (Hend : ∀ s3 w3 d, rep s3 w3 → frame s2 s3 → moves nowhere ts d w2 w3 →
    wp (success ctx RecallSwapFunc (LRecallSwap p) [("SwapID"%string, ArgHash (rs_SwapID p))])
      (fun r s' => ∃ o, o = mkOutcome None d (delete (rs_SwapID p) (bk_swaps B)) ∧ swap_yields s w B o r s') s3).
  { intros s3 w3 d Hr3 Hf3 Hm3. apply (wp_success _ w3); [done|]. intros s4 Hr4 Hf4.
    eexists. split; [done|]. split; [done|]. exists w3.
    split_and!; [done|solve_frame| |by apply (shelves_moves _ _ _ _ Hm3)].
    eapply moves_proper; [|exact (moves_trans _ _ _ _ _ _ _ Hm2 (moves_somewhere _ _ _ _ Hm3))].
    intros a h k. cbn [o_delta]. unfold dadd, dzero. lia. }
  unfold escrow. rewrite (sf_minFrom _ _ _ _ Hwf), (sf_size _ _ _ _ Hwf). apply wp_bind.
  destruct (sw_FromAssetID sw =? OwnerUSANAssetID); cbn [negb].
  - apply wp_ret. apply (Hend s2 w2 dzero); [done|done|apply moves_refl].
  - apply wp_bind, (wp_non_nil _ mf); [done|]. apply wp_bind, (wp_non_nil _ sz); [done|].
    apply (wp_release w2 s2 from sw mf mt sz sz); [done|done|apply Hwf|]. intros s3 w3 Hr3 Hf3 Hm3.
    by apply (Hend s3 w3).
Qed.

(** *** Taking a swap *)

Lemma covers_Cmp w s h start end_ v :
  rep s w → item_ok (need ts start end_ v) →
  ∃ c, TimeLock_Cmp (tl w from h) (Some (single (need ts start end_ v))) = Done c ∧
       (c < 0 ↔ ¬ coversTL (tl w from h) (need ts start end_ v)).
Proof.
  intros Hr Hok. destruct (rep_tl s w from h Hr) as [_ Hwf].
  destruct (TimeLock_Cmp_ok _ _ Hwf Hok) as (c & Hc & Hpos & Hneg). exists c. split; [done|].
  split; [intros ?; apply Hneg; [done|left; simpl; lia]|].
  intros Hn. destruct (Z.lt_ge_cases c 0); [done|]. by destruct Hn; apply Hpos.
Qed.

Lemma takeSwap_funds_spec w s func h start end_ v Q :
  rep s w → leg_ok start end_ v →
  (∀ s' shown, rep s' w → frame s s' → funds (func =? TakeSwapFunc) w h start end_ v false dzero →
     Q (Some (shown, short_error (func =? TakeSwapFunc) start end_)) s') →
  (∀ s' w' d, rep s' w' → frame s s' → moves nowhere ts d w w' →
     funds (func =? TakeSwapFunc) w h start end_ v true d →
     (item_ok (need ts start end_ v) ∨ isAsset start end_ = true → enough w' h start end_ v) → Q None s') →
  wp (takeSwap_funds msg ctx func h (isAsset start end_) v (single (need ts start end_ v))) Q s.
Proof.
  intros Hr Hl HF HT. unfold takeSwap_funds, short_error in *. fold from. destruct (isAsset start end_) eqn:Ea.
  - apply wp_bind, (wp_balanceCmp w); [done|]. intros c s1 Hr1 Hf1 Hc. apply wp_ret.
    destruct (Z.ltb_spec c 0).
    + apply HF; [done|done|]. apply short_asset; [done|]. by apply Hc.
    + assert (v <= bal w from h) by lia. apply (HT s1 w dzero); [done|done|apply moves_refl| |].
      * by apply funds_asset.
      * intros _. unfold enough. by rewrite Ea.
  - apply wp_bind, (wp_GetTimeLockBalance w); [done|]. intros s1 Hr1 Hf1.
    destruct (need_dec start end_ v Hl) as [[-> Hok]|[[e ->] Hn]].
    + destruct (covers_Cmp w s h start end_ v Hr Hok) as (c & Hcmp & Hc).
      apply wp_bind, (wp_non_nil _ (tl w from h)); [done|]. apply wp_bind, (wp_lift _ c); [done|].
      apply (wp_convert_or_fail w s1 h start end_ v); try done.
      * intros s' El Hr' Hf' Hfu. rewrite El in HF, Hfu. apply wp_ret, HF; [done|solve_frame|done].
      * intros s' El Hr' Hf' Hfu. rewrite El in HF, Hfu. apply wp_ret, HF; [done|solve_frame|done].
      * intros s' w' d Hr' Hf' Hm Hfu He. apply wp_ret. apply (HT s' w' d); try done. solve_frame.
    + apply wp_ret. apply (HT s1 w dzero); [done|done|apply moves_refl|by apply funds_nothing|]. by intros [].
Qed.

Lemma takeSwap_pay_spec (P : Address → Prop) w s owner h start end_ v Q :
  rep s w → leg_ok start end_ v →
  (item_ok (need ts start end_ v) ∨ isAsset start end_ = true → enough w h start end_ v) →
  (∀ s' w', rep s' w' → frame s s' →
     moves nowhere ts (transfer from owner h (stake start end_ v)) w w' → Q tt s') →
  wp (takeSwap_pay msg ctx owner h (isAsset start end_) v (single (need ts start end_ v))) Q s.
Proof.
  intros Hr Hl He HQ. unfold takeSwap_pay. fold from ts.
  assert (Hleg : ∀ k, from_time ts k → 0 <= stake start end_ v k).
  { intros k _. destruct Hl as (_ & _ & Hv). unfold stake, coins, locked, itemAt, ival.
    destruct (isAsset start end_), k; simpl; try lia. destruct (_ && _); lia. }
  assert (Hpay : ∀ s1 w1, rep s1 w1 → frame s s1 →
    moves nowhere ts (gain owner h (stake start end_ v)) w w1 → enough w h start end_ v →
    (isAsset start end_ = false → item_ok (need ts start end_ v)) →
    wp (if isAsset start end_ then SubBalance from h v
        else SubTimeLockBalance from h (single (need ts start end_ v)) ts) Q s1).
  { intros s1 w1 Hr1 Hf1 Hm1 Hen Hok. apply (wp_take_leg nowhere w1); [done| |done|].
    - eapply enough_moves; [exact Hm1| |done]. intros k Hk. unfold gain. destruct (_ && _); [by apply Hleg|done].
    - intros s2 w2 Hr2 Hf2 Hm2. apply (HQ s2 w2); [done|solve_frame|].
      eapply moves_proper; [|exact (moves_trans _ _ _ _ _ _ _ Hm1 Hm2)].
      intros a h' k. unfold transfer, dadd. lia. }
  destruct (isAsset start end_) eqn:Ea.
  - apply wp_bind, (wp_AddBalance_moves nowhere ts w); [done|]. intros s1 w1 Hr1 Hf1 Hm1.
    apply (Hpay s1 w1); [done|done| |by apply He; right|done]. unfold stake. by rewrite Ea.
  - destruct (need_dec start end_ v Hl) as [[-> Hok]|[[e ->] Hn]].
    + apply wp_bind, (wp_AddTimeLock_moves nowhere ts w); [done|by apply wf_single|].
      intros s1 w1 Hr1 Hf1 Hm1. apply (Hpay s1 w1); [done|done| |by apply He; left|done].
      eapply moves_from; [|exact Hm1]. apply gain_leg_locked; [done|]. intros t Ht.
      rewrite amountAt_single. by apply itemAt_need.
    + apply wp_ret. apply (HQ s w); [done|done|]. eapply moves_from; [|apply moves_refl].
      intros a h' k Hk. unfold transfer, dadd, dneg, gain, stake, dzero. rewrite Ea.
      destruct Hl as (? & ? & ?). destruct k as [|t]; simpl in *; [by repeat destruct (_ && _)|].
      rewrite (need_invalid ts) by (done || unfold is_u64; lia). by repeat destruct (_ && _).
Qed.

(** The swap after [n] of its [sz] units were taken. *)
Definition after_take (id : Hash) (sw : Swap) (sz n : Z) (m : gmap Z Swap) : gmap Z Swap :=
  if bigCmp sz n =? 0 then delete id m else <[id := set_SwapSize (Some (sz - n)) sw]> m.

Lemma takeSwap_record_spec w B s id sw sz n Q :
  rep s w → shelves ids N w B → id ∈ ids → bk_swaps B !! id = Some sw → sw_ID sw = id →
  fits_store (P := swapPersist) ids N id (set_SwapSize (Some (sz - n)) sw) →
  (∀ s' w' b, rep s' w' → frame s s' → moves (eq SwapKeyAddress) ts dzero w w' →
     shelves ids N w' (with_swaps B (after_take id sw sz n (bk_swaps B))) → Q (b, None) s') →
  wp (takeSwap_record sw sz n) Q s.
Proof.
  intros Hr HB Hid Hsw Hkey Hfit HQ. unfold takeSwap_record, after_take in *. rewrite Hkey.
  destruct (bigCmp sz n =? 0).
  - apply wp_bind, (wp_RemoveSwap w B _ _ sw); [done..|]. intros s' w' Hr' Hf Hm HB'. apply wp_ret. by apply (HQ s' w').
  - apply wp_bind, (wp_UpdateSwap w B); [done|done|simpl; by rewrite Hkey|].
    intros s' w' Hr' Hf Hm HB'. apply wp_ret. apply (HQ s' w'); try done. simpl in HB'. by rewrite Hkey in HB'.
Qed.

(** A swap of a notation, whose owner has it no more or has it still. *)
Definition notation_lost (w : World) (sw : Swap) : bool :=
  (sw_FromAssetID sw =? OwnerUSANAssetID) &&
  ((notation w (sw_Owner sw) =? 0) || negb (notation w (sw_Owner sw) =? sw_Notation sw)).
Definition notation_held (w : World) (sw : Swap) : bool :=
  (sw_FromAssetID sw =? OwnerUSANAssetID) && negb (notation_lost w sw).

(** The specification, but for taking a notation that its owner still has. *)
Definition take_spec (func : FSNCallFunc) (w : World) (B : books) (p : TakeSwapParam)
    (o : outcome_of_swap) : Prop :=
  let swaps := bk_swaps B in
  match swaps !! ts_SwapID p with
  | None => o = rejected (New "Swap not found") swaps
  | Some sw =>
      match TakeSwapParam_Check p sw ts with
      | Some err => o = rejected err swaps
      | None =>
          if notation_lost w sw then o = rejected (New "notation in swap is no longer valid") swaps
          else
          let n := default 0 (ts_Size p) in
          let toLeg := stake (sw_ToStartTime sw) (sw_ToEndTime sw) (default 0 (sw_MinToAmount sw) * n) in
          let fromLeg := stake (sw_FromStartTime sw) (sw_FromEndTime sw) (default 0 (sw_MinFromAmount sw) * n) in
          ∃ ok d,
            funds (func =? TakeSwapFunc) w (sw_ToAssetID sw) (sw_ToStartTime sw) (sw_ToEndTime sw)
              (default 0 (sw_MinToAmount sw) * n) ok d ∧
            if ok : bool
            then o = mkOutcome None
                       (dadd d (dadd (transfer from (sw_Owner sw) (sw_ToAssetID sw) toLeg)
                                     (gain from (sw_FromAssetID sw) fromLeg)))
                       (after_take (ts_SwapID p) sw (default 0 (sw_SwapSize sw)) n swaps)
            else o = rejected (short_error (func =? TakeSwapFunc) (sw_ToStartTime sw) (sw_ToEndTime sw)) swaps
      end
  end.

Lemma TakeSwapParam_Check_None p sw sz :
  sw_SwapSize sw = Some sz → TakeSwapParam_Check p sw ts = None →
  ∃ n, ts_Size p = Some n ∧ 0 < n <= sz.
Proof.
  intros Hsz. unfold TakeSwapParam_Check, size_ok. rewrite Hsz. destruct (ts_Size p) as [n|]; [|done].
  destruct (Z.leb_spec (bigCmp n 0) 0) as [|H1]; [done|]. destruct (Z.ltb_spec 0 (bigCmp n sz)) as [|H2]; [done|].
  intros _. exists n. split; [done|]. apply (proj1 (bigCmp_gt _ _)) in H1.
  destruct (Z.le_gt_cases n sz); [lia|]. pose proof (proj2 (bigCmp_gt n sz) ltac:(lia)). lia.
Qed.

(** The part after the checks, for a swap of [sz] units of which [n] are taken. *)
Lemma takeSwap_settle_spec w B s func p sw mf mt sz n Q :
  let id := sw_ID sw in
  let v := mt * n in
  let fromLeg := stake (sw_FromStartTime sw) (sw_FromEndTime sw) (mf * n) in
  let toLeg := stake (sw_ToStartTime sw) (sw_ToEndTime sw) v in
  rep s w → shelves ids N w B → id ∈ ids → bk_swaps B !! id = Some sw → swap_wf sw mf mt sz → 0 < n →
  fits_store (P := swapPersist) ids N id (set_SwapSize (Some (sz - n)) sw) →
  (let err := short_error (func =? TakeSwapFunc) (sw_ToStartTime sw) (sw_ToEndTime sw) in
   ∀ s', funds (func =? TakeSwapFunc) w (sw_ToAssetID sw) (sw_ToStartTime sw) (sw_ToEndTime sw) v false dzero →
     swap_yields s w B (rejected err (bk_swaps B)) (Some err) s' → Q (Some err) s') →
  (∀ d s',
     funds (func =? TakeSwapFunc) w (sw_ToAssetID sw) (sw_ToStartTime sw) (sw_ToEndTime sw) v true d →
     swap_yields s w B
       (mkOutcome None (dadd d (dadd (transfer from (sw_Owner sw) (sw_ToAssetID sw) toLeg)
                                     (gain from (sw_FromAssetID sw) fromLeg)))
          (after_take id sw sz n (bk_swaps B))) None s' → Q None s') →
  wp (takeSwap_settle msg ctx func p sw false mf mt sz n) Q s.
Proof.
  intros id v fromLeg toLeg Hr HB Hid Hsw Hwf Hn Hfit HF HT. unfold takeSwap_settle.
  assert (Hl : leg_ok (sw_ToStartTime sw) (sw_ToEndTime sw) v).
  { destruct (sf_nonneg _ _ _ _ Hwf) as (_ & ? & _), (sf_to _ _ _ _ Hwf). split_and!; [done|done|unfold v; lia]. }
  fold v ts. rewrite oneItem_need by apply Hl.
  apply wp_bind, (takeSwap_funds_spec w); [done|done| |].
  { intros s1 shown Hr1 Hf1 Hfu. apply (wp_fail _ w); [done|]. intros s2 Hr2 Hf2.
    apply HF; [done|]. apply swap_rejected; [done|solve_frame|done]. }
  intros s1 w1 d Hr1 Hf1 Hm1 Hfu He. pose proof (shelves_moves _ _ _ _ Hm1 HB) as HB1.
  apply wp_bind, (takeSwap_record_spec w1 B s1 id); [done..|]. intros s2 w2 b Hr2 Hf2 Hm2 HB2.
  apply wp_bind, (takeSwap_pay_spec nowhere w2); [done|done| |].
  { intros Hor. eapply (enough_moves _ _ _ _ _ _ _ _ Hm2); [by intros|auto]. }
  intros s3 w3 Hr3 Hf3 Hm3. apply wp_bind, wp_bind, (wp_release w3 s3 from sw mf mt sz n); [done|done|lia|].
  intros s4 w4 Hr4 Hf4 Hm4. apply wp_ret. apply (wp_success _ w4); [done|]. intros s5 Hr5 Hf5.
  apply (HT d); [done|]. split; [done|]. exists w4.
  split_and!; [done|solve_frame| |by apply (shelves_moves _ _ _ _ Hm4), (shelves_moves _ _ _ _ Hm3)].
  eapply moves_proper; [|exact (moves_trans _ _ _ _ _ _ _ (moves_somewhere _ _ _ _ Hm1)
    (moves_trans _ _ _ _ _ _ _ Hm2 (moves_somewhere _ _ _ _ (moves_trans _ _ _ _ _ _ _ Hm3 Hm4))))].
  intros a h k. cbn [o_delta]. unfold dadd, dzero, toLeg, fromLeg. lia.
Qed.

Lemma handleTakeSwap_spec s w B param :
  let p := (Unmarshal TakeSwapParam (fp_Data param)).1 in
  rep s w → shelves ids N w B → keyed (bk_swaps B) → ts_SwapID p ∈ ids →
  (∀ sw, bk_swaps B !! ts_SwapID p = Some sw → TakeSwapParam_Check p sw ts = None →
     notation_held w sw = false ∧
     fits_store (P := swapPersist) ids N (ts_SwapID p)
       (set_SwapSize (Some (default 0 (sw_SwapSize sw) - default 0 (ts_Size p))) sw)) →
  wp (handleTakeSwap msg ctx param)
     (fun r s' => ∃ o, take_spec (Func param) w B p o ∧ swap_yields s w B o r s') s.
Proof.
  intros p Hr HB Hk Hid Hsw. unfold handleTakeSwap, take_spec. fold p from ts.
  apply wp_bind, (wp_GetSwap w B); [done..|]. intros s1 Hr1 Hf1.
  destruct (bk_swaps B !! ts_SwapID p) as [sw|] eqn:Es; [|intros _; by apply wp_reject].
  destruct (shelves_swap_wf _ _ _ _ HB Es) as (mf & mt & sz & Hwf).
  destruct (TakeSwapParam_Check p sw ts) as [err|] eqn:Ec; [by apply wp_reject|].
  destruct (Hsw sw eq_refl Ec) as [Hus Hfit]. clear Hsw.
  destruct (TakeSwapParam_Check_None p sw sz (sf_size _ _ _ _ Hwf) Ec) as (n & Hn & Hrange).
  rewrite (sf_size _ _ _ _ Hwf), Hn in Hfit. rewrite (sf_minFrom _ _ _ _ Hwf), (sf_minTo _ _ _ _ Hwf),
    (sf_size _ _ _ _ Hwf), Hn. cbv zeta.
  unfold notation_held in Hus. unfold notation_lost in *.
  destruct (sw_FromAssetID sw =? OwnerUSANAssetID); cbn [andb] in *.
  { apply negb_false_iff in Hus. rewrite Hus. apply wp_bind, wp_bind, (wp_GetNotation w); [done|]. intros s2 Hr2 Hf2.
    apply wp_ret. rewrite Hus. by apply wp_reject; try solve_frame. }
  apply wp_bind, wp_ret. cbn [negb]. apply wp_bind, (wp_non_nil _ mf); [done|].
  apply wp_bind, (wp_non_nil _ n); [done|]. apply wp_bind, (wp_non_nil _ mt); [done|].
  apply wp_bind, (wp_non_nil _ sz); [done|]. pose proof (Hk _ _ Es) as Hkey. rewrite <- Hkey in *.
  apply (takeSwap_settle_spec w B s1); try done; [lia|..].
  - intros err s' Hfu Hy. eexists. split; [exists false, dzero; eauto|by eapply swap_yields_frame].
  - intros d s' Hfu Hy. eexists. split; [exists true, d; eauto|by eapply swap_yields_frame].
Qed.
End swaps.
