(* ===== verification/SwapLedger.v ===== *)
(** * Swaps and the supply of an asset

    What the accounts can spend at a time, and what the open swaps hold in
    escrow for that time, is the supply of an asset. Making, recalling and taking
    a swap leave it as it is; a swap that is made and recalled gives its owner
    back what was taken. *)

From stdpp Require Import base list gmap strings.
From Stdlib Require Import ZArith Lia.
From S2P Require Import Prelude Bytes Keccak KeccakFacts TimeLock TimeLockFacts Ticket FsnTypes.
From S2P Require Import Rlp RlpFacts Codec CallParams StateDB StateRecords StateFacts StateRevert.
From S2P Require Import StateInterface StateWorld Ledger RecordFacts RecordStore StateTransition.
From S2P Require Import CallFacts SwapFacts.

(** ** Supply *)

Definition swap_holds (h : Hash) (t : Z) (sw : Swap) : Z :=
  if sw_FromAssetID sw =? h then spend (escrow sw) t else 0.
(** The sum over a book. *)
Definition tally {A} (f : A → Z) (m : gmap Z A) : Z := sumZ (fun p => f p.2) (map_to_list m).
Definition escrowed (m : gmap Z Swap) (h : Hash) (t : Z) : Z := tally (swap_holds h t) m.
Definition supply (w : World) (l : list Address) (m : gmap Z Swap) (h : Hash) (t : Z) : Z :=
  sumZ (fun a => spendable w a h t) l + escrowed m h t.

Section tally.
Context {A : Type} (f : A → Z).
Lemma tally_insert m id a : m !! id = None → tally f (<[id := a]> m) = tally f m + f a.
Proof. intros Hm. unfold tally. rewrite map_to_list_insert by done. simpl. lia. Qed.
Lemma tally_delete m id a : m !! id = Some a → tally f (delete id m) = tally f m - f a.
Proof.
  intros Hm. rewrite <- (insert_delete_id m id a Hm) at 2.
  rewrite tally_insert by apply lookup_delete_eq. lia.
Qed.
Lemma tally_update m id a a' : m !! id = Some a → tally f (<[id := a']> m) = tally f m - f a + f a'.
Proof.
  intros Hm. rewrite <- insert_delete_eq, tally_insert by apply lookup_delete_eq.
  rewrite (tally_delete m id a) by done. lia.
Qed.
End tally.

Lemma spend_stake s e v t : spend (stake s e v) t = if isAsset s e then v else ival s e v t.
Proof. unfold spend, stake, coins, locked, itemAt. destruct (isAsset s e); simpl; lia. Qed.
Lemma spend_stake_add s e v v' t : spend (stake s e (v + v')) t = spend (stake s e v) t + spend (stake s e v') t.
Proof. rewrite !spend_stake. unfold ival. destruct (isAsset s e); [lia|]. destruct (_ && _); lia. Qed.

Lemma supply_moves P ts d w w' l m m' h t :
  moves P ts d w w' → ts <= t →
  dsum l d h t + escrowed m' h t = escrowed m h t → supply w' l m' h t = supply w l m h t.
Proof.
  intros Hm Ht Hd. unfold supply. rewrite (spendable_sum _ _ _ _ _ _ _ _ Hm Ht). lia.
Qed.

Section conservation.
Context `{SP : StateParams} `{TP : TransitionParams}.
Context (msg : Message) (ctx : Context).
Let from := msg_From msg.
Let ts := ParentTime ctx.
Context (l : list Address) (h : Hash) (t : Z).
Hypothesis Hl : NoDup l.
Hypothesis Hfrom : from ∈ l.
Hypothesis Ht : ts <= t <= TimeLockForever.
Hypothesis Hh : h ≠ OwnerUSANAssetID.

Lemma dsum_convert h' v : dsum l (convert msg ctx h' v) h t = 0.
Proof.
  unfold convert. autorewrite with dsum. rewrite !dsum_gain by done. fold ts.
  destruct (h' =? h); [|done]. unfold spend, coins, locked, itemAt, whole. simpl.
  rewrite ival_in by lia. lia.
Qed.

Lemma dsum_funds legacy w h' start end_ v ok d :
  funds msg ctx legacy w h' start end_ v ok d → dsum l d h t = 0.
Proof. intros []; by rewrite ?dsum_zero, ?dsum_convert. Qed.

Lemma dsum_transfer b h' f : b ∈ l → dsum l (transfer from b h' f) h t = 0.
Proof.
  intros Hb. unfold transfer. autorewrite with dsum. rewrite !dsum_gain by done. lia.
Qed.

(** Each call moves between the accounts and the escrow. *)
Definition balanced (B : books) (o : outcome_of_swap) : Prop :=
  dsum l (o_delta o) h t + escrowed (o_swaps o) h t = escrowed (bk_swaps B) h t.

Lemma rejected_balanced B err : balanced B (rejected err (bk_swaps B)).
Proof. unfold balanced. simpl. rewrite dsum_zero. lia. Qed.

Lemma make_balanced func w B p o : make_spec msg ctx func w B p o → balanced B o.
Proof.
  unfold make_spec. fold from ts.
  destruct (bk_swaps B !! msg_Hash msg) eqn:Es; [intros ->; apply rejected_balanced|].
  destruct (MakeSwapParam_Check p ts); [intros ->; apply rejected_balanced|].
  destruct (ms_ToAssetID p =? OwnerUSANAssetID); [intros ->; apply rejected_balanced|].
  destruct (bk_assets B !! ms_ToAssetID p); [|intros ->; apply rejected_balanced].
  destruct (Z.eqb_spec (ms_FromAssetID p) OwnerUSANAssetID) as [Hu|Hu].
  - destruct (_ =? 0); intros ->; [apply rejected_balanced|]. unfold balanced. simpl.
    unfold escrowed. rewrite dsum_zero, tally_insert by done. unfold swap_holds, made. rewrite Hu, Z.eqb_refl. simpl. rewrite Hu.
    destruct (Z.eqb_spec OwnerUSANAssetID h); [by destruct Hh|lia].
  - intros (ok & d & Hf & Ho). destruct ok; subst o; [|apply rejected_balanced].
    unfold balanced. cbn [o_delta o_swaps].
    unfold escrowed. rewrite tally_insert by done. autorewrite with dsum.
    rewrite (dsum_funds _ _ _ _ _ _ _ _ Hf), dsum_gain by done.
    unfold swap_holds, made. rewrite (proj2 (Z.eqb_neq _ _) Hu). simpl.
    destruct (_ =? h); [|lia]. unfold escrow. simpl. fold (fromTotal p). lia.
Qed.

Lemma recall_balanced B p o : recall_spec msg B p o → balanced B o.
Proof.
  unfold recall_spec. fold from.
  destruct (bk_swaps B !! rs_SwapID p) as [sw|] eqn:Es; [|intros ->; apply rejected_balanced].
  destruct (negb _); intros ->; [apply rejected_balanced|]. unfold balanced. cbn [o_delta o_swaps].
  unfold escrowed. rewrite (tally_delete _ _ _ sw) by done. unfold swap_holds.
  destruct (Z.eqb_spec (sw_FromAssetID sw) OwnerUSANAssetID) as [->|].
  - rewrite dsum_zero. destruct (Z.eqb_spec OwnerUSANAssetID h); [by destruct Hh|lia].
  - rewrite dsum_gain by done. destruct (_ =? h); lia.
Qed.

Lemma take_balanced func w B p o :
  (∀ sw, bk_swaps B !! ts_SwapID p = Some sw → sw_Owner sw ∈ l ∧ is_Some (sw_SwapSize sw)) →
  take_spec msg ctx func w B p o → balanced B o.
Proof.
  intros Hsw. unfold take_spec. fold from ts.
  destruct (bk_swaps B !! ts_SwapID p) as [sw|] eqn:Es; [|intros ->; apply rejected_balanced].
  destruct (Hsw sw eq_refl) as [Hown [sz Hsz]].
  destruct (TakeSwapParam_Check p sw ts); [intros ->; apply rejected_balanced|].
  destruct (notation_lost w sw); [intros ->; apply rejected_balanced|].
  intros (ok & d & Hf & Ho). destruct ok; subst o; [|apply rejected_balanced].
  unfold balanced. cbn [o_delta o_swaps]. autorewrite with dsum.
  rewrite (dsum_funds _ _ _ _ _ _ _ _ Hf), dsum_transfer, dsum_gain by done.
  set (n := default 0 (ts_Size p)). set (mf := default 0 (sw_MinFromAmount sw)). unfold after_take.
  rewrite Hsz. change (default 0 (Some sz)) with sz.
  assert (Hold : spend (escrow sw) t = spend (stake (sw_FromStartTime sw) (sw_FromEndTime sw) (mf * n)) t +
    spend (stake (sw_FromStartTime sw) (sw_FromEndTime sw) (mf * (sz - n))) t).
  { unfold escrow. fold mf. rewrite Hsz, <- spend_stake_add. do 2 f_equal. simpl. unfold id. lia. }
  destruct (Z.eqb_spec (bigCmp sz n) 0) as [Hz|Hz].
  - apply (proj1 (bigCmp_eq _ _)) in Hz as ->. unfold escrowed. rewrite (tally_delete _ _ _ sw) by done. unfold swap_holds.
    destruct (_ =? h); [|lia]. rewrite Hold, Z.sub_diag, Z.mul_0_r, !spend_stake. unfold ival.
    destruct (isAsset _ _); [lia|]. destruct (_ && _); lia.
  - unfold escrowed. rewrite (tally_update _ _ _ sw) by done. unfold swap_holds. simpl. destruct (_ =? h); [|lia].
    rewrite Hold. unfold escrow. simpl. fold mf. unfold id. lia.
Qed.
End conservation.

(** ** The calls *)

Inductive swap_call := CallMake | CallRecall | CallTake.

Definition run_swap_call `{SP : StateParams} `{TP : TransitionParams} (msg : Message) (ctx : Context)
    (c : swap_call) (param : FSNCallParam) : M (option error) :=
  match c with
  | CallMake => handleMakeSwap msg ctx param
  | CallRecall => handleRecallSwap msg ctx param
  | CallTake => handleTakeSwap msg ctx param
  end.

(** The identifiers in the call are in use and what it records fits; a swap that is
    taken, when the checks let it be taken, is not one of a notation that its owner
    still has. *)
Definition swap_call_ok (msg : Message) (ctx : Context) (ids : list Hash) (N : nat) (w : World) (B : books)
    (l : list Address) (c : swap_call) (param : FSNCallParam) : Prop :=
  match c with
  | CallMake =>
      let p := (Unmarshal MakeSwapParam (fp_Data param)).1 in
      msg_Hash msg ∈ ids ∧ ms_ToAssetID p ∈ ids ∧
      fits_store (P := swapPersist) ids N (msg_Hash msg) (made msg w p)
  | CallRecall => rs_SwapID (Unmarshal RecallSwapParam (fp_Data param)).1 ∈ ids
  | CallTake =>
      let p := (Unmarshal TakeSwapParam (fp_Data param)).1 in
      ts_SwapID p ∈ ids ∧
      ∀ sw, bk_swaps B !! ts_SwapID p = Some sw → sw_Owner sw ∈ l ∧
        (TakeSwapParam_Check p sw (ParentTime ctx) = None → notation_held w sw = false ∧
        fits_store (P := swapPersist) ids N (ts_SwapID p)
          (set_SwapSize (Some (default 0 (sw_SwapSize sw) - default 0 (ts_Size p))) sw))
  end.

(** C1: the swap calls conserve the supply of an asset. Whichever of making,
    recalling and taking a swap is called, and whether it succeeds or is refused,
    the call returns, without panic, and what the accounts can spend at a time from
    the block on together with what the open swaps hold in escrow for that time
    is the same before and after, for every asset but the pseudo-asset of
    notations. The open swaps are those that the state stores under the
    identifiers [ids], and no others: [shelves] determines them; the accounts are
    any that the sender and the owner of the swap are among. [swap_call_ok] says what
    else is relied on: that the record of the swap fits the store, and that the call
    does not take a swap of a notation that its owner still has, which moves the
    notation. *)
Theorem swap_calls_conserve_supply `{SP : StateParams} `{TP : TransitionParams} (msg : Message)
    (ctx : Context) (ids : list Hash) (N : nat) (l : list Address) (c : swap_call)
    (param : FSNCallParam) (s : StateDB) (w : World) (B : books) :
  0 < ParentTime ctx < two64 → collision_free ids N → NoDup l → msg_From msg ∈ l →
  are_bytes (fp_Data param) → rep s w → shelves ids N w B → keyed (bk_swaps B) →
  swap_call_ok msg ctx ids N w B l c param →
  wp (run_swap_call msg ctx c param)
     (fun r s' => ∃ w' m', rep s' w' ∧ shelves ids N w' (with_swaps B m') ∧
        ∀ h t, h ≠ OwnerUSANAssetID → ParentTime ctx <= t <= TimeLockForever →
          supply w' l m' h t = supply w l (bk_swaps B) h t) s.
Proof.
  intros Hts Hfree Hl Hfrom Hb Hr HB Hk Hok.
  assert (Hfin : ∀ o r s', swap_yields ctx ids N s w B o r s' →
    (∀ h t, h ≠ OwnerUSANAssetID → ParentTime ctx <= t <= TimeLockForever → balanced l h t B o) →
    ∃ w' m', rep s' w' ∧ shelves ids N w' (with_swaps B m') ∧
      ∀ h t, h ≠ OwnerUSANAssetID → ParentTime ctx <= t <= TimeLockForever →
        supply w' l m' h t = supply w l (bk_swaps B) h t).
  { intros o r s' [_ (w' & Hr' & _ & Hm & HB')] Hbal. exists w', (o_swaps o). split_and!; [done|done|].
    intros h t Hh Ht. eapply supply_moves; [exact Hm|lia|]. by apply Hbal. }
  destruct c; simpl in Hok |- *.
  - destruct Hok as (H1 & H2 & H3).
    eapply wp_mono; [by apply (handleMakeSwap_spec msg ctx Hts ids N Hfree s w B)|].
    intros r s' (o & Ho & Hy). apply (Hfin o r s' Hy). intros h t Hh Ht. by eapply make_balanced.
  - eapply wp_mono; [by apply (handleRecallSwap_spec msg ctx Hts ids N Hfree s w B)|].
    intros r s' (o & Ho & Hy). apply (Hfin o r s' Hy). intros h t Hh Ht. by eapply recall_balanced.
  - destruct Hok as (H1 & H2).
    eapply wp_mono; [apply (handleTakeSwap_spec msg ctx Hts ids N Hfree s w B); try done;
      intros sw Hsw; by destruct (H2 sw Hsw)|].
    intros r s' (o & Ho & Hy). apply (Hfin o r s' Hy). intros h t Hh Ht.
    eapply (take_balanced msg ctx); try done. intros sw Hsw. split; [by apply H2|].
    destruct (shelves_swap_wf ids N w B _ sw HB Hsw) as (mf & mt & sz & Hwf).
    rewrite (sf_size _ _ _ _ Hwf). eauto.
Qed.

(** C34: taking a swap of an asset. The call returns, without panic. It returns an
    error when there is no such swap, when the checks of the parameters fail, as for
    more units than the swap has, when the swap is one of a notation that its owner
    has no more, and when the taker cannot pay; [take_spec] says which error, and
    nothing moved and the book of swaps is the same. Otherwise the taker had the
    price of the units taken, or turned an asset into a time lock for it, paid
    it to the owner of the swap and was given these units of what the swap
    holds, as assets or as time locks on the interval of the swap, and the swap
    has these units less or is gone when they were its last. Not covered is the
    taking of a notation that the owner of the swap still has. *)
Theorem take_swap_exchanges `{SP : StateParams} `{TP : TransitionParams} (msg : Message) (ctx : Context)
    (ids : list Hash) (N : nat) (param : FSNCallParam) (s : StateDB) (w : World) (B : books) :
  let p := (Unmarshal TakeSwapParam (fp_Data param)).1 in
  0 < ParentTime ctx < two64 → collision_free ids N → rep s w → shelves ids N w B →
  keyed (bk_swaps B) → ts_SwapID p ∈ ids →
  (∀ sw, bk_swaps B !! ts_SwapID p = Some sw → TakeSwapParam_Check p sw (ParentTime ctx) = None →
     notation_held w sw = false ∧
     fits_store (P := swapPersist) ids N (ts_SwapID p)
       (set_SwapSize (Some (default 0 (sw_SwapSize sw) - default 0 (ts_Size p))) sw)) →
  wp (handleTakeSwap msg ctx param)
     (fun r s' => ∃ o, take_spec msg ctx (Func param) w B p o ∧ swap_yields ctx ids N s w B o r s') s.
Proof. intros p Hts Hfree Hr HB Hk Hid Hsw. by apply handleTakeSwap_spec. Qed.

Lemma keyed_insert m id sw : keyed m → sw_ID sw = id → keyed (<[id := sw]> m).
Proof. intros Hk Hid id' sw'. rewrite lookup_insert_Some. intros [[<- <-]|[_ H]]; [done|by apply Hk]. Qed.

(** A swap that was made is filed under its transaction. *)
Lemma make_spec_ok msg ctx func w B p o :
  make_spec msg ctx func w B p o → o_error o = None →
  bk_swaps B !! msg_Hash msg = None ∧ o_swaps o = <[msg_Hash msg := made msg w p]> (bk_swaps B).
Proof.
  unfold make_spec. destruct (bk_swaps B !! msg_Hash msg); [by intros ->|].
  destruct (MakeSwapParam_Check p _); [by intros ->|]. destruct (_ =? _); [by intros ->|].
  destruct (bk_assets B !! _); [|by intros ->]. destruct (_ =? _).
  - destruct (_ =? 0); by intros ->.
  - intros (ok & d & _ & Ho). destruct ok; by subst o.
Qed.

Section roundtrip.
Context `{SP : StateParams} `{TP : TransitionParams} (msg : Message) (ctx : Context).
Context (w : World) (B : books) (h : Hash) (t : Z).

(** What one account can spend, through a call. *)
Lemma spendable_moves P ts d w' a :
  moves P ts d w w' → ts <= t → spendable w' a h t = spendable w a h t + (d a h Free + d a h (At t)).
Proof.
  intros [Hm _] Ht. unfold spendable. rewrite (Hm a h Free I), (Hm a h (At t) Ht). lia.
Qed.

Lemma made_escrow p a :
  h ≠ OwnerUSANAssetID → ParentTime ctx <= t <= TimeLockForever →
  ∀ func o, make_spec msg ctx func w B p o → o_error o = None →
  o_delta o a h Free + o_delta o a h (At t) =
    - (if (msg_From msg =? a) && (sw_FromAssetID (made msg w p) =? h)
       then spend (escrow (made msg w p)) t else 0).
Proof.
  intros Hh Ht func o. unfold make_spec, made.
  destruct (bk_swaps B !! msg_Hash msg); [by intros ->|].
  destruct (MakeSwapParam_Check p _); [by intros ->|]. destruct (ms_ToAssetID p =? _); [by intros ->|].
  destruct (bk_assets B !! _); [|by intros ->].
  destruct (Z.eqb_spec (ms_FromAssetID p) OwnerUSANAssetID) as [Hu|Hu].
  - destruct (_ =? 0); intros ->; [done|]. intros _. simpl. rewrite Hu.
    rewrite (proj2 (Z.eqb_neq _ _) (not_eq_sym Hh)), andb_false_r. done.
  - intros (ok & d & Hf & Ho) He. destruct ok; subst o; [|done]. cbn [o_delta].
    unfold dadd, dneg, gain. simpl. unfold escrow. simpl. fold (fromTotal p).
    assert (d a h Free + d a h (At t) = 0) as Hd.
    { destruct Hf; try done. unfold convert, dadd, dneg, gain, coins, locked, itemAt, whole. simpl.
      destruct (_ && _); [|done]. rewrite ival_in by lia. lia. }
    unfold spend. destruct (_ && _); lia.
Qed.
End roundtrip.

(** Making a swap and recalling it is a round trip. A swap that was made is
    recalled, by its owner, at the same or a later block time, without error;
    the book of swaps is the one before, and every account can spend at every
    time from then on what it could before the swap was made. *)
Theorem make_recall_roundtrip `{SP : StateParams} `{TP : TransitionParams} (msg1 msg2 : Message)
    (ctx1 ctx2 : Context) (ids : list Hash) (N : nat) (param1 param2 : FSNCallParam) (s : StateDB)
    (w : World) (B : books) :
  let p1 := (Unmarshal MakeSwapParam (fp_Data param1)).1 in
  let p2 := (Unmarshal RecallSwapParam (fp_Data param2)).1 in
  0 < ParentTime ctx1 <= ParentTime ctx2 → ParentTime ctx2 < two64 → collision_free ids N →
  rep s w → shelves ids N w B → keyed (bk_swaps B) → are_bytes (fp_Data param1) →
  msg_Hash msg1 ∈ ids → ms_ToAssetID p1 ∈ ids →
  fits_store (P := swapPersist) ids N (msg_Hash msg1) (made msg1 w p1) →
  msg_From msg2 = msg_From msg1 → rs_SwapID p2 = msg_Hash msg1 →
  wp (handleMakeSwap msg1 ctx1 param1)
     (fun r1 s1 => r1 = None →
        wp (handleRecallSwap msg2 ctx2 param2)
           (fun r2 s2 => r2 = None ∧ ∃ w2, rep s2 w2 ∧ shelves ids N w2 B ∧
              ∀ a h t, h ≠ OwnerUSANAssetID → ParentTime ctx2 <= t <= TimeLockForever →
                spendable w2 a h t = spendable w a h t) s1) s.
Proof.
  intros p1 p2 Hts1 Hts2 Hfree Hr HB Hk Hb Hid Hto Hfit Hfrom Hrec.
  eapply wp_mono; [by apply (handleMakeSwap_spec msg1 ctx1 ltac:(lia) ids N Hfree s w B)|].
  intros r1 s1 (o1 & Ho1 & [Hr1 (w1 & Hrep1 & _ & Hm1 & HB1)]) ->. fold p1 in Ho1.
  destruct (make_spec_ok _ _ _ _ _ _ _ Ho1 (eq_sym Hr1)) as [Hnone Hins].
  rewrite Hins in HB1. remember (made msg1 w p1) as sw eqn:Esw.
  assert (Hown : sw_Owner sw = msg_From msg2) by (rewrite Esw, Hfrom; unfold made; by destruct (_ =? _)).
  assert (Hswid : sw_ID sw = msg_Hash msg1) by (rewrite Esw; unfold made; by destruct (_ =? _)).
  eapply wp_mono; [apply (handleRecallSwap_spec msg2 ctx2 ltac:(lia) ids N Hfree s1 w1 _ param2 Hrep1 HB1)|].
  { by apply keyed_insert. } { fold p2. by rewrite Hrec. }
  intros r2 s2 (o2 & Ho2 & [Hr2 (w2 & Hrep2 & _ & Hm2 & HB2)]). revert Ho2. unfold recall_spec. fold p2.
  rewrite Hrec. cbn [bk_swaps with_swaps]. rewrite lookup_insert_eq. cbv beta iota zeta.
  rewrite Hown, Z.eqb_refl. cbn [negb]. intros ->. cbn [o_error o_delta o_swaps] in *.
  split; [done|]. exists w2. split_and!; [done| |].
  { rewrite delete_insert_id in HB2 by done. unfold with_swaps in HB2. simpl in HB2. by destruct B. }
  intros a h t Hh Ht. rewrite (spendable_moves w1 h t _ _ _ w2 a Hm2) by lia.
  rewrite (spendable_moves w h t _ _ _ w1 a Hm1) by lia.
  rewrite (made_escrow msg1 ctx1 w B h t p1 a Hh ltac:(lia) _ _ Ho1 (eq_sym Hr1)), <- Esw, Hfrom.
  destruct (Z.eqb_spec (sw_FromAssetID sw) OwnerUSANAssetID) as [Hu|Hu].
  - rewrite Hu, (proj2 (Z.eqb_neq _ _) (not_eq_sym Hh)), andb_false_r. unfold dzero. lia.
  - unfold gain, spend. destruct (_ && _); lia.
Qed.

(** ** Examples *)

(** A state with these records, where account 5 has 100 FSN and account 6 has 50
    of the asset 77. *)
Definition ex_setup (ops : list record_op) : M unit :=
  _ ← do_records ops;
  _ ← AddBalance 5 SystemAssetID 100;
  AddBalance 6 77 50.

Lemma ex_setup_ok ops :
  Forall (op_ok ex_ids 6) ops →
  ∃ w, rep (after (ex_setup ops) ex_state) w ∧ notation w 5 = 0 ∧
    shelves ex_ids 6 w (spec_records ops (mkBooks ∅ ∅ ∅)).2.
Proof.
  intros Hops. assert (H : wp (ex_setup ops) (fun _ s => ∃ w, rep s w ∧ notation w 5 = 0 ∧
      shelves ex_ids 6 w (spec_records ops (mkBooks ∅ ∅ ∅)).2) ex_state);
    [|by destruct (wp_after _ _ _ H) as [_ ?]].
  apply wp_bind. eapply wp_mono; [apply (do_records_spec ex_ids 6 ex_collision_free _ ex_state
    (world ex_state) (mkBooks ∅ ∅ ∅)); [split; [apply wf_ex_state|done]|split; apply ex_shelf|done]|].
  intros rs s [_ (w & Hr & _ & Hm & HB)].
  apply wp_bind, (wp_AddBalance_moves nowhere 0 w); [done|]. intros s1 w1 Hr1 _ Hm1.
  apply (wp_AddBalance_moves nowhere 0 w1); [done|]. intros s2 w2 Hr2 _ Hm2. exists w2. split_and!; [done| |].
  { rewrite (kp_notation _ _ _ (mv_keeps _ _ _ _ _ Hm2)), (kp_notation _ _ _ (mv_keeps _ _ _ _ _ Hm1)),
      (kp_notation _ _ _ (mv_keeps _ _ _ _ _ (Hm 0))). reflexivity. }
  apply (shelves_moves (mkContext 0 0 0 0 (fun _ => 0) 0 true) _ _ _ _ _ _ Hm2).
  by apply (shelves_moves (mkContext 0 0 0 0 (fun _ => 0) 0 true) _ _ _ _ _ _ Hm1).
Qed.

(** Account 5 offers two lots of 3 FSN for 4 of the asset. *)
Definition ex_market : StateDB := after (ex_setup [OpGenAsset ex_asset; OpAddSwap ex_swap]) ex_state.
Definition ex_books : books := mkBooks {[77 := ex_asset]} {[1 := ex_swap]} ∅.

Lemma ex_swap_sized n : n = 1 ∨ n = 2 → ∀ d, writable 6 (mkSwapPersist d (set_SwapSize (Some n) ex_swap)).
Proof. intros [->| ->] [|]; fits_by. Qed.
Lemma ex_market_ok : ∃ w, rep ex_market w ∧ notation w 5 = 0 ∧ shelves ex_ids 6 w ex_books.
Proof.
  apply (ex_setup_ok [OpGenAsset ex_asset; OpAddSwap ex_swap]).
  pose proof (ex_swap_sized 2 ltac:(by right)). pose proof ex_asset_fits. unfold ex_ids.
  repeat apply Forall_cons_2; [| |apply Forall_nil_2]; (split; [set_solver|done]).
Qed.

Definition ex_take : FSNCallParam := ex_call TakeSwapFunc (mkTakeSwapParam 1 (Some 1)).
Definition ex_recall : FSNCallParam := ex_call RecallSwapFunc (mkRecallSwapParam 77).
Definition ex_make : FSNCallParam :=
  ex_call MakeSwapFunc (mkMakeSwapParam SystemAssetID 0 TimeLockForever (Some 3) 77 0 TimeLockForever
    (Some 4) (Some 2) [] (Some 9) "d").

Lemma ex_keyed : keyed (bk_swaps ex_books).
Proof. intros id sw. simpl. rewrite lookup_singleton_Some. by intros [<- <-]. Qed.

Lemma ex_take_fits sw :
  bk_swaps ex_books !! 1 = Some sw → sw_Owner sw ∈ [5; 6] ∧ ∀ w, notation_held w sw = false ∧
  fits_store (P := swapPersist) ex_ids 6 1
    (set_SwapSize (Some (default 0 (sw_SwapSize sw) - 1)) sw).
Proof.
  simpl. rewrite lookup_singleton_Some. intros [_ <-]. split; [set_solver|]. intros w. split; [done|].
  split; [unfold ex_ids; set_solver|]. apply (ex_swap_sized 1). by left.
Qed.

Lemma ex_take_param :
  (Unmarshal TakeSwapParam (fp_Data ex_take)).1 = mkTakeSwapParam 1 (Some 1) ∧ are_bytes (fp_Data ex_take).
Proof. split; [vm_compute; reflexivity|]. apply (bool_decide_unpack _). vm_compute. exact I. Qed.

Lemma swap_calls_conserve_supply_witness :
  ∃ w, rep ex_market w ∧
  wp (run_swap_call (ex_msg 6 2) (ex_ctx 100) CallTake ex_take)
     (fun r s' => ∃ w' m', rep s' w' ∧ shelves ex_ids 6 w' (with_swaps ex_books m') ∧
        ∀ h t, h ≠ OwnerUSANAssetID → 100 <= t <= TimeLockForever →
          supply w' [5; 6] m' h t = supply w [5; 6] (bk_swaps ex_books) h t) ex_market.
Proof.
  destruct ex_market_ok as (w & Hr & Hn & HB). exists w. split; [done|].
  apply (swap_calls_conserve_supply (ex_msg 6 2) (ex_ctx 100) ex_ids 6 [5; 6] CallTake ex_take ex_market w).
  - done.
  - exact ex_collision_free.
  - apply (bool_decide_unpack _). vm_compute. exact I.
  - simpl. set_solver.
  - apply ex_take_param.
  - done.
  - done.
  - apply ex_keyed.
  - unfold swap_call_ok. rewrite (proj1 ex_take_param). split; [unfold ex_ids; set_solver|].
    intros sw Hsw. destruct (ex_take_fits sw Hsw) as [? H]. split; [done|]. intros _. apply H.
Defined.

Lemma take_swap_exchanges_witness :
  ∃ w, rep ex_market w ∧
  wp (handleTakeSwap (ex_msg 6 2) (ex_ctx 100) ex_take)
     (fun r s' => ∃ o, take_spec (ex_msg 6 2) (ex_ctx 100) TakeSwapFunc w ex_books
                         (Unmarshal TakeSwapParam (fp_Data ex_take)).1 o ∧
        swap_yields (ex_ctx 100) ex_ids 6 ex_market w ex_books o r s') ex_market.
Proof.
  destruct ex_market_ok as (w & Hr & Hn & HB). exists w. split; [done|].
  apply (take_swap_exchanges (ex_msg 6 2) (ex_ctx 100) ex_ids 6 ex_take ex_market w ex_books).
  - done.
  - exact ex_collision_free.
  - done.
  - done.
  - apply ex_keyed.
  - rewrite (proj1 ex_take_param). unfold ex_ids. set_solver.
  - rewrite (proj1 ex_take_param). intros sw Hsw _. apply (ex_take_fits sw Hsw).
Defined.

Definition ex_made : Swap :=
  mkSwap 77 5 SystemAssetID 0 TimeLockForever (Some 3) 77 0 TimeLockForever (Some 4) (Some 2) [] (Some 9)
    "d" 0.
Lemma ex_made_fits : ∀ d, writable 6 (mkSwapPersist d ex_made).
Proof. intros [|]; fits_by. Qed.

Lemma ex_make_param :
  (Unmarshal MakeSwapParam (fp_Data ex_make)).1 =
    mkMakeSwapParam SystemAssetID 0 TimeLockForever (Some 3) 77 0 TimeLockForever (Some 4) (Some 2) []
      (Some 9) "d" ∧ are_bytes (fp_Data ex_make).
Proof. split; [vm_compute; reflexivity|]. apply (bool_decide_unpack _). vm_compute. exact I. Qed.
Lemma ex_recall_param : (Unmarshal RecallSwapParam (fp_Data ex_recall)).1 = mkRecallSwapParam 77.
Proof. vm_compute. reflexivity. Qed.
Lemma make_recall_roundtrip_witness :
  ∃ w, rep ex_market w ∧
  wp (handleMakeSwap (ex_msg 5 77) (ex_ctx 100) ex_make)
     (fun r1 s1 => r1 = None →
        wp (handleRecallSwap (ex_msg 5 3) (ex_ctx 200) ex_recall)
           (fun r2 s2 => r2 = None ∧ ∃ w2, rep s2 w2 ∧ shelves ex_ids 6 w2 ex_books ∧
              ∀ a h t, h ≠ OwnerUSANAssetID → 200 <= t <= TimeLockForever →
                spendable w2 a h t = spendable w a h t) s1) ex_market.
Proof.
  destruct ex_market_ok as (w & Hr & Hn & HB). exists w. split; [done|].
  apply (make_recall_roundtrip (ex_msg 5 77) (ex_msg 5 3) (ex_ctx 100) (ex_ctx 200) ex_ids 6
    ex_make ex_recall ex_market w ex_books).
  - done.
  - done.
  - exact ex_collision_free.
  - done.
  - done.
  - apply ex_keyed.
  - apply ex_make_param.
  - unfold ex_ids. simpl. set_solver.
  - rewrite (proj1 ex_make_param). unfold ex_ids. simpl. set_solver.
  - rewrite (proj1 ex_make_param). unfold made. simpl.
    rewrite Hn.
    split; [unfold ex_ids; set_solver|apply ex_made_fits].
  - done.
  - by rewrite ex_recall_param.
Defined.
