(* ===== verification/MultiSwap.v ===== *)
(** * Multi-swap calls (core/state_transition.go)

    The handlers of the calls that make, recall and take a multi-swap: a swap
    of several assets for several others. Making and taking one first checks the
    funds of all legs on copies of the balances ([book]), then deducts them. *)

From stdpp Require Import base list gmap strings.
From Stdlib Require Import ZArith Lia.
From S2P Require Import Prelude Bytes Keccak KeccakFacts TimeLock Ticket FsnTypes Rlp Codec.
From S2P Require Import StateDB StateRecords StateTransition.

(** The copies of the balances and time locks, by asset. *)
Record book := mkBook {
  bk_balances : gmap Hash Z;
  bk_timelocks : gmap Hash TimeLock;
}.

(** One leg of a multi-swap: the entries of the arrays [useAsset], [total] and
    [needValue] at an index; [leg_need] is used for a time lock only. *)
Record leg := mkLeg {
  leg_asset : Hash;
  leg_useAsset : bool;
  leg_total : Z;
  leg_need : TimeLock;
}.

Definition leg_valid (l : leg) : bool :=
  match TimeLock_IsValid (leg_need l) with None => true | Some _ => false end.

Section multiswap.
Context `{SP : StateParams} `{TP : TransitionParams}.
Context (msg : Message) (ctx : Context).

Let from := msg_From msg.
Let timestamp := ParentTime ctx.

Definition leg_at (assets : list Hash) (amounts : list (option Z)) (starts ends : list Z) (size : Z)
    (i : nat) : M leg :=
  assetID ← at_index assets i;
  amount ← at_index amounts i;
  amount ← non_nil amount;
  start ← at_index starts i;
  end_ ← at_index ends i;
  let total := amount * size in
  mret (mkLeg assetID (isAsset start end_) total (oneItem (MaxUint64 start timestamp) end_ total)).

(** Copies the funds of an asset, once. *)
Definition load_book (assetID : Hash) (b : book) : M book :=
  match bk_balances b !! assetID with
  | Some _ => mret b
  | None =>
      balance ← GetBalance assetID from;
      timelock ← GetTimeLockBalance assetID from;
      balance ← non_nil balance;
      timelock ← non_nil timelock;
      mret (mkBook (<[assetID := balance]> (bk_balances b))
              (<[assetID := TimeLock_Clone timelock]> (bk_timelocks b)))
  end.

(** [balance.Sub(balance, total)] and, for a time lock, the conversion of an
    asset that is still missing; [continue_expired] is whether a leg whose
    interval is over is skipped. *)
Fixpoint check_legs (continue_expired : bool) (legs : list leg) (b : book) : outcome (book + error) :=
  match legs with
  | [] => Done (inl b)
  | l :: legs =>
      match bk_balances b !! leg_asset l, bk_timelocks b !! leg_asset l with
      | Some balance, Some timelock =>
          if leg_useAsset l then
            if bigCmp balance (leg_total l) <? 0 then Done (inr (New "not enough from asset"))
            else check_legs continue_expired legs
                   (mkBook (<[leg_asset l := balance - leg_total l]> (bk_balances b)) (bk_timelocks b))
          else if continue_expired && negb (leg_valid l) then check_legs continue_expired legs b
          else
            let? c := TimeLock_Cmp timelock (Some (leg_need l)) in
            if c <? 0 then
              if bigCmp balance (leg_total l) <? 0
              then Done (inr (New "not enough time lock or asset balance"))
              else
                let? sum := TimeLock_Add DebugMode (Some timelock)
                              (Some (oneItem timestamp TimeLockForever (leg_total l))) in
                let? timelock := TimeLock_Sub DebugMode (default timelock sum) (Some (leg_need l)) in
                check_legs continue_expired legs
                  (mkBook (<[leg_asset l := balance - leg_total l]> (bk_balances b))
                     (<[leg_asset l := timelock]> (bk_timelocks b)))
            else
              let? timelock := TimeLock_Sub DebugMode timelock (Some (leg_need l)) in
              check_legs continue_expired legs
                (mkBook (bk_balances b) (<[leg_asset l := timelock]> (bk_timelocks b)))
      | _, _ => Panic "nil pointer dereference"
      end
  end.

(** The same on the state; it stops at the first leg that is not covered. *)
Fixpoint deduct_legs (continue_expired : bool) (legs : list leg) : M (option error) :=
  match legs with
  | [] => mret None
  | l :: legs =>
      if leg_useAsset l then
        c ← balanceCmp (leg_asset l) from (leg_total l);
        if c <? 0 then mret (Some (New "not enough from asset"))
        else
          _ ← SubBalance from (leg_asset l) (leg_total l);
          deduct_legs continue_expired legs
      else if continue_expired && negb (leg_valid l) then deduct_legs continue_expired legs
      else
        c ← timeLockCmp (leg_asset l) from (leg_need l);
        if c <? 0 then
          c ← balanceCmp (leg_asset l) from (leg_total l);
          if c <? 0 then mret (Some (New "not enough time lock or asset balance"))
          else
            _ ← assetToTimeLock msg ctx (leg_asset l) (leg_total l);
            _ ← SubTimeLockBalance from (leg_asset l) (leg_need l) timestamp;
            deduct_legs continue_expired legs
        else
          _ ← SubTimeLockBalance from (leg_asset l) (leg_need l) timestamp;
          deduct_legs continue_expired legs
  end.

Fixpoint credit_legs (addr : Address) (legs : list leg) : M unit :=
  match legs with
  | [] => mret ()
  | l :: legs =>
      _ ← (if leg_useAsset l then AddBalance addr (leg_asset l) (leg_total l)
           else if leg_valid l then AddTimeLockBalance addr (leg_asset l) (leg_need l) timestamp
           else mret ());
      credit_legs addr legs
  end.

(** ** MakeMultiSwap *)

(** The loop over [ToAssetID]. *)
Fixpoint makeMulti_targets (toAssets : list Hash) : M (option error) :=
  match toAssets with
  | [] => mret None
  | toAssetID :: toAssets =>
      if toAssetID =? OwnerUSANAssetID then mret (Some (New "USAN's cannot be multi swapped"))
      else
        r ← GetAsset toAssetID;
        match r with
        | inr _ => mret (Some (New "ToAssetID's asset not found"))
        | inl _ => makeMulti_targets toAssets
        end
  end.

(** The loop over [FromAssetID]: [n] legs are left, [i] is the next. *)
Fixpoint makeMulti_legs (p : MakeMultiSwapParam) (size : Z) (n i : nat) (b : book)
    : M ((list leg * book) + error) :=
  match n with
  | O => mret (inl ([], b))
  | S n =>
      assetID ← at_index (mm_FromAssetID p) i;
      if assetID =? OwnerUSANAssetID then mret (inr (New "USAN's cannot be multi swapped"))
      else
        b ← load_book assetID b;
        l ← leg_at (mm_FromAssetID p) (mm_MinFromAmount p) (mm_FromStartTime p) (mm_FromEndTime p)
              size i;
        match (if leg_useAsset l then None else TimeLock_IsValid (leg_need l)) with
        | Some err => mret (inr (tl_error err))
        | None =>
            r ← makeMulti_legs p size n (S i) b;
            mret (match r with inl (legs, b) => inl (l :: legs, b) | inr err => inr err end)
        end
  end.

Definition multiSwap_of (p : MakeMultiSwapParam) (swapID : Hash) (notation : Z) : MultiSwap :=
  mkMultiSwap swapID from (mm_FromAssetID p) (mm_FromStartTime p) (mm_FromEndTime p)
    (mm_MinFromAmount p) (mm_ToAssetID p) (mm_ToStartTime p) (mm_ToEndTime p) (mm_MinToAmount p)
    (mm_SwapSize p) (mm_Targes p) (mm_Time p) (mm_Description p) notation.

Definition handleMakeMultiSwap (param : FSNCallParam) : M (option error) :=
  notation ← GetNotation from;
  let p := (Unmarshal MakeMultiSwapParam (fp_Data param)).1 in
  let swapID := msg_Hash msg in
  let failed := failure ctx MakeMultiSwapFunc (LMakeMultiSwap p) in
  r ← GetSwap swapID;
  match r with
  | inl _ => failed (New "Swap already exist")
  | inr _ =>
      match MakeMultiSwapParam_Check p timestamp with
      | Some err => failed err
      | None =>
          err ← makeMulti_targets (mm_ToAssetID p);
          match err with
          | Some err => failed err
          | None =>
              size ← non_nil (mm_SwapSize p);
              r ← makeMulti_legs p size (length (mm_FromAssetID p)) 0 (mkBook ∅ ∅);
              match r with
              | inr err => failed err
              | inl (legs, b) =>
                  checked ← lift (check_legs false legs b);
                  match checked with
                  | inr err => failed err
                  | inl _ =>
                      deductErr ← deduct_legs false legs;
                      match deductErr with
                      | Some err => failed err
                      | None =>
                          err ← AddMultiSwap (multiSwap_of p swapID notation);
                          match err with
                          | Some err =>
                              fail ctx MakeMultiSwapFunc (LMakeMultiSwap p)
                                [("Error"%string, ArgStr "System error can't add swap")] err
                          | None =>
                              success ctx MakeMultiSwapFunc (LMakeMultiSwap p)
                                [("SwapID"%string, ArgHash swapID)]
                          end
                      end
                  end
              end
          end
      end
  end.

(** ** RecallMultiSwap *)

Fixpoint recallMulti_credit (swap : MultiSwap) (n i : nat) : M unit :=
  match n with
  | O => mret ()
  | S n =>
      amount ← at_index (mu_MinFromAmount swap) i;
      amount ← non_nil amount;
      size ← non_nil (mu_SwapSize swap);
      start ← at_index (mu_FromStartTime swap) i;
      end_ ← at_index (mu_FromEndTime swap) i;
      assetID ← at_index (mu_FromAssetID swap) i;
      _ ← credit ctx from assetID start end_ (amount * size);
      recallMulti_credit swap n (S i)
  end.

Definition handleRecallMultiSwap (param : FSNCallParam) : M (option error) :=
  let p := (Unmarshal RecallMultiSwapParam (fp_Data param)).1 in
  let failed := failure ctx RecallMultiSwapFunc (LRecallMultiSwap p) in
  r ← GetMultiSwap (rm_SwapID p);
  match r with
  | inr _ => failed (New "Swap not found")
  | inl swap =>
      if negb (mu_Owner swap =? from) then failed (New "Must be swap onwer can recall")
      else
        match RecallMultiSwapParam_Check p swap with
        | Some err => failed err
        | None =>
            err ← RemoveMultiSwap (mu_ID swap);
            match err with
            | Some err =>
                fail ctx RecallMultiSwapFunc (LRecallMultiSwap p)
                  [("Error"%string, ArgStr "Unable to remove swap")] err
            | None =>
                _ ← recallMulti_credit swap (length (mu_FromAssetID swap)) 0;
                success ctx RecallMultiSwapFunc (LRecallMultiSwap p)
                  [("SwapID"%string, ArgHash (mu_ID swap))]
            end
        end
  end.

(** ** TakeMultiSwap *)

Fixpoint takeMulti_from (swap : MultiSwap) (size : Z) (n i : nat) : M (list leg) :=
  match n with
  | O => mret []
  | S n =>
      l ← leg_at (mu_FromAssetID swap) (mu_MinFromAmount swap) (mu_FromStartTime swap)
            (mu_FromEndTime swap) size i;
      legs ← takeMulti_from swap size n (S i);
      mret (l :: legs)
  end.

(** [toNeedValue] has the length [lnFrom] of the other side: a time lock at an
    index beyond it panics. *)
Fixpoint takeMulti_to (swap : MultiSwap) (size : Z) (lnFrom n i : nat) (b : book)
    : M (list leg * book) :=
  match n with
  | O => mret ([], b)
  | S n =>
      assetID ← at_index (mu_ToAssetID swap) i;
      b ← load_book assetID b;
      l ← leg_at (mu_ToAssetID swap) (mu_MinToAmount swap) (mu_ToStartTime swap)
            (mu_ToEndTime swap) size i;
      if negb (leg_useAsset l) && (lnFrom <=? i)%nat then panic "index out of range"
      else
        r ← takeMulti_to swap size lnFrom n (S i) b;
        mret (l :: r.1, r.2)
  end.

Definition set_MultiSwapSize (size : option Z) (s : MultiSwap) : MultiSwap :=
  mkMultiSwap (mu_ID s) (mu_Owner s) (mu_FromAssetID s) (mu_FromStartTime s) (mu_FromEndTime s)
    (mu_MinFromAmount s) (mu_ToAssetID s) (mu_ToStartTime s) (mu_ToEndTime s) (mu_MinToAmount s)
    size (mu_Targes s) (mu_Time s) (mu_Description s) (mu_Notation s).

Definition takeMulti_record (swap : MultiSwap) (swapSize size : Z) : M (bool * option error) :=
  if bigCmp swapSize size =? 0 then
    err ← RemoveMultiSwap (mu_ID swap); mret (true, err)
  else
    err ← UpdateMultiSwap (set_MultiSwapSize (Some (swapSize - size)) swap); mret (false, err).

(** The part of the handler after its checks. *)
Definition takeMulti_settle (p : TakeMultiSwapParam) (swap : MultiSwap) (swapSize size : Z)
    : M (option error) :=
  let failed := failure ctx TakeMultiSwapFunc (LTakeMultiSwap p) in
  let lnFrom := length (mu_FromAssetID swap) in
  fromLegs ← takeMulti_from swap size lnFrom 0;
  r ← takeMulti_to swap size lnFrom (length (mu_ToAssetID swap)) 0 (mkBook ∅ ∅);
  let '(toLegs, b) := r in
  checked ← lift (check_legs true toLegs b);
  match checked with
  | inr err => failed err
  | inl _ =>
      deductErr ← deduct_legs true toLegs;
      match deductErr with
      | Some err => failed err
      | None =>
          r ← takeMulti_record swap swapSize size;
          match r with
          | (_, Some err) =>
              fail ctx TakeMultiSwapFunc (LTakeMultiSwap p)
                [("Error"%string, ArgStr "System Error")] err
          | (swapDeleted, None) =>
              _ ← credit_legs (mu_Owner swap) toLegs;
              _ ← credit_legs from fromLegs;
              success ctx TakeMultiSwapFunc (LTakeMultiSwap p)
                [("SwapID"%string, ArgHash (mu_ID swap));
                 ("Deleted"%string, ArgStr (flag_string swapDeleted))]
          end
      end
  end.

Definition handleTakeMultiSwap (param : FSNCallParam) : M (option error) :=
  let p := (Unmarshal TakeMultiSwapParam (fp_Data param)).1 in
  r ← GetMultiSwap (tm_SwapID p);
  match r with
  | inr _ => fail ctx TakeSwapFunc (LTakeMultiSwap p) [("Error"%string, ArgStr "swap not found")]
               (New "Swap not found")
  | inl swap =>
      match TakeMultiSwapParam_Check p swap timestamp with
      | Some err => failure ctx TakeSwapFunc (LTakeMultiSwap p) err
      | None =>
          size ← non_nil (tm_Size p);
          swapSize ← non_nil (mu_SwapSize swap);
          takeMulti_settle p swap swapSize size
      end
  end.
End multiswap.
