(* ===== verification/MultiSwapFacts.v ===== *)
(** * What the multi-swap calls do

    A multi-swap exchanges several assets for several others. Making and taking
    one first checks the funds of all sides on copies of the balances, then
    deducts them from the state. [settles] is what paying a list of sides moves,
    one after the other: the check decides it, the deduction implements it, so a
    deduction that follows a check never stops half-way. The calls are then
    specified on the ledger and the book of multi-swaps. *)

From stdpp Require Import base list gmap strings.
From Stdlib Require Import ZArith Lia.
From S2P Require Import Prelude Bytes Keccak KeccakFacts TimeLock TimeLockFacts Ticket FsnTypes.
From S2P Require Import Rlp RlpFacts Codec CallParams StateDB StateRecords StateFacts StateRevert.
From S2P Require Import StateInterface StateWorld Ledger RecordFacts RecordStore StateTransition.
From S2P Require Import CallFacts SwapFacts SwapLedger MultiSwap.

(** ** Sides *)

(** One entry of the arrays of a multi-swap, times the size. *)
Record side := mkSide { sd_asset : Hash; sd_start : Z; sd_end : Z; sd_amount : Z }.

Definition side_ok (x : side) : Prop := leg_ok (sd_start x) (sd_end x) (sd_amount x).
Definition side_isAsset (x : side) : bool := isAsset (sd_start x) (sd_end x).
Definition side_stake (x : side) : kind → Z := stake (sd_start x) (sd_end x) (sd_amount x).

(** What the sides come to at a time. *)
Definition owed (xs : list side) (h : Hash) (t : Z) : Z :=
  sumZ (fun x => if sd_asset x =? h then spend (side_stake x) t else 0) xs.
Fixpoint gains (a : Address) (xs : list side) : delta :=
  match xs with
  | [] => dzero
  | x :: xs => dadd (gain a (sd_asset x) (side_stake x)) (gains a xs)
  end.

Section settle.
Context `{SP : StateParams} `{TP : TransitionParams}.
Context (msg : Message) (ctx : Context).
Let from := msg_From msg.
Let ts := ParentTime ctx.
Hypothesis Hts : 0 < ts < two64.

Definition side_need (x : side) : TimeLockItem := need ts (sd_start x) (sd_end x) (sd_amount x).
Definition side_leg (x : side) : leg :=
  mkLeg (sd_asset x) (side_isAsset x) (sd_amount x) (single (side_need x)).

(** A side is an asset, a time lock that is not over, or may be skipped. *)
Definition payable (skip : bool) (x : side) : Prop :=
  side_ok x ∧ (skip = true ∨ side_isAsset x = true ∨ item_ok (side_need x)).

Definition side_funds (w : World) (x : side) : bool → delta → Prop :=
  funds msg ctx false w (sd_asset x) (sd_start x) (sd_end x) (sd_amount x).
Definition side_delta (x : side) (d : delta) : delta :=
  dadd d (dneg (gain from (sd_asset x) (side_stake x))).

(** Paying the sides in turn: what is moved, or that the funds of one of them
    are missing. *)
Inductive settles : World → list side → option delta → Prop :=
| settles_nil w : settles w [] (Some dzero)
| settles_short w x xs : side_funds w x false dzero → settles w (x :: xs) None
| settles_pay w x xs d w' o :
    side_funds w x true d → moves nowhere ts (side_delta x d) w w' → settles w' xs o →
    settles w (x :: xs) (dadd (side_delta x d) <$> o).

(** *** The check on the copies *)

Record copies (w : World) (b : MultiSwap.book) : Prop := {
  cp_balance : ∀ h v, bk_balances b !! h = Some v → v = bal w from h;
  cp_timelock : ∀ h z, bk_timelocks b !! h = Some z →
    wfTL z ∧ ∀ t, ts <= t → amountAt z t = amountAt (tl w from h) t;
}.
Definition loaded (b : MultiSwap.book) (h : Hash) : Prop :=
  is_Some (bk_balances b !! h) ∧ is_Some (bk_timelocks b !! h).

(** The world in which the account has these funds of the asset. *)
Definition funded (w : World) (h : Hash) (v : Z) (z : TimeLock) : World :=
  set_tl from h z (set_bal from h v w).

Lemma copies_funded w b h v z :
  copies w b → wfTL z →
  copies (funded w h v z) (mkBook (<[h := v]> (bk_balances b)) (<[h := z]> (bk_timelocks b))).
Proof.
  intros [Hb Ht] Hz. split; simpl; intros h' x; rewrite lookup_insert_Some; unfold funded;
    autorewrite with world; rewrite Z.eqb_refl; intros [[<- <-]|[Hne Hx]].
  - by rewrite Z.eqb_refl.
  - apply Z.eqb_neq in Hne. rewrite Hne. simpl. by apply Hb.
  - rewrite Z.eqb_refl. done.
  - apply Z.eqb_neq in Hne. rewrite Hne. simpl. by apply Ht.
Qed.

Lemma moves_funded w h v z f :
  (∀ t, ts <= t → amountAt z t = amountAt (tl w from h) t + f (At t)) → v = bal w from h + f Free →
  moves nowhere ts (gain from h f) w (funded w h v z).
Proof.
  intros Hz ->. eapply moves_proper; [|eapply moves_trans; [apply moves_set_bal|]].
  2: { apply (moves_set_tl nowhere ts from h z (fun t => f (At t))). intros t Ht.
       autorewrite with world. by apply Hz. }
  intros a h' [|t]; unfold dadd, gain, coins, locked; destruct (_ && _); lia.
Qed.

Lemma settles_step w x xs d v z o :
  side_funds w x true d →
  v = bal w from (sd_asset x) + d from (sd_asset x) Free - side_stake x Free →
  (∀ t, ts <= t → amountAt z t = amountAt (tl w from (sd_asset x)) t
                  + d from (sd_asset x) (At t) - side_stake x (At t)) →
  settles (funded w (sd_asset x) v z) xs o → settles w (x :: xs) (dadd (side_delta x d) <$> o).
Proof.
  intros Hf Hv Hz Ho. eapply settles_pay; [done| |done].
  eapply moves_proper; [|apply (moves_funded w _ v z
    (fun k => d from (sd_asset x) k - side_stake x k)); [intros t Ht; rewrite Hz by done; lia|lia]].
  assert (Hd : ∀ a h k, (from =? a) && (sd_asset x =? h) = false → d a h k = 0).
  { intros a h k Hne. inversion Hf; try done. unfold convert, dadd, dneg, gain. fold from. by rewrite Hne. }
  intros a h k. unfold side_delta, dadd, dneg, gain.
  destruct (_ && _) eqn:E; [|rewrite Hd by done; lia].
  apply andb_true_iff in E as [->%Z.eqb_eq <-%Z.eqb_eq]. lia.
Qed.

Lemma copies_covers w b x z :
  copies w b → bk_timelocks b !! sd_asset x = Some z →
  coversTL z (side_need x) ↔ coversTL (tl w from (sd_asset x)) (side_need x).
Proof.
  intros [_ Ht] Hz. destruct (Ht _ _ Hz) as [_ Ha].
  assert (∀ t, StartTime (side_need x) <= t → ts <= t) by (simpl; lia).
  split; intros Hc t Hin; specialize (Hc t Hin); specialize (Ha t ltac:(apply H; lia));
    unfold amountAt in Ha; lia.
Qed.

Lemma side_need_at x t : ts <= t → itemAt (side_need x) t = itemAt (mkItem (sd_start x) (sd_end x) (sd_amount x)) t.
Proof. apply itemAt_need. Qed.

Lemma leg_valid_side x : side_ok x → leg_valid (side_leg x) = true ↔ item_ok (side_need x).
Proof.
  intros Hx. unfold side_need, ts. rewrite <- (IsValid_need msg ctx Hts _ _ _ Hx).
  unfold leg_valid. cbn [leg_need side_leg]. unfold side_need, ts. by destruct (TimeLock_IsValid _).
Qed.

Lemma side_stake_lock x t :
  side_isAsset x = false → ts <= t → side_stake x Free = 0 ∧ side_stake x (At t) = itemAt (side_need x) t.
Proof.
  intros Ha Ht. unfold side_stake, stake. unfold side_isAsset in Ha. rewrite Ha. simpl.
  by rewrite side_need_at.
Qed.
Lemma side_stake_asset x k : side_isAsset x = true → side_stake x k = coins (sd_amount x) k.
Proof. unfold side_stake, stake, side_isAsset. by intros ->. Qed.

Lemma side_stake_over x :
  side_ok x → side_isAsset x = false → ¬ item_ok (side_need x) →
  ∀ k, from_time ts k → side_stake x k = 0.
Proof.
  intros (? & ? & ?) Ea Hi [|t] Ht; [apply (side_stake_lock x ts Ea ltac:(lia))|]. simpl in Ht.
  rewrite (proj2 (side_stake_lock x t Ea Ht)), side_need_at by done.
  apply (need_invalid ts); try done. unfold is_u64. lia.
Qed.

(** What is left of the copies after a time lock is taken, with an asset turned
    into a time lock for it or not. *)
Lemma check_sub z x (conv : bool) :
  wfTL z → item_ok (side_need x) → (if conv then True else coversTL z (side_need x)) →
  ∃ z0 z', (if conv then TimeLock_Add DebugMode (Some z) (Some (oneItem ts TimeLockForever (sd_amount x)))
                    else Done (Some z)) = Done (Some z0) ∧
    TimeLock_Sub DebugMode z0 (Some (single (side_need x))) = Done z' ∧ wfTL z' ∧
    ∀ t, ts <= t → amountAt z' t = amountAt z t
           + (if conv then itemAt (whole ts (sd_amount x)) t else 0) - itemAt (side_need x) t.
Proof.
  intros Hz Hi Hc. assert (Hpos : 0 < sd_amount x) by apply Hi.
  assert (∃ z0, (if conv then TimeLock_Add DebugMode (Some z) (Some (oneItem ts TimeLockForever (sd_amount x)))
      else Done (Some z)) = Done (Some z0) ∧ wfTL z0 ∧
      ∀ t, amountAt z0 t = amountAt z t + (if conv then itemAt (whole ts (sd_amount x)) t else 0))
    as (z0 & Hz0 & Hwf & Hat).
  { destruct conv; [|exists z; split_and!; [done|done|intros; lia]].
    rewrite (proj2 (oneItem_single ts TimeLockForever (sd_amount x) ltac:(lia))). fold (whole ts (sd_amount x)).
    destruct (TimeLock_Add_ok DebugMode z (single (whole ts (sd_amount x))) Hz) as (z0 & Hz0 & Hwf & Hat);
      [by apply wf_single, (whole_ok msg ctx)|by right|].
    exists z0. split_and!; [done|done|]. intros t. by rewrite Hat, amountAt_single. }
  destruct (TimeLock_Sub_covered DebugMode z0 (side_need x)) as (z' & Hz' & Hwf' & Hat');
    [done|done|simpl; lia| |].
  { intros t Ht. change (Value (side_need x) <= amountAt z0 t). rewrite Hat. destruct conv.
    - pose proof (itemsAt_nonneg (Items z) t Hz). unfold amountAt, itemAt, whole, TimeLockForever. simpl in *.
      unfold item_ok, two64 in *. simpl in *. rewrite ival_in; lia.
    - specialize (Hc t Ht). unfold amountAt. lia. }
  exists z0, z'. split_and!; [done..|]. intros t Ht. rewrite Hat', Hat. lia.
Qed.

(** The step of the check for one side: the copies have the funds and the rest
    of the sides is checked on what is left, or they do not. *)
Record left_over (w : World) (x : side) (d : delta) (v : Z) (z : TimeLock) : Prop := {
  lo_balance : v = bal w from (sd_asset x) + d from (sd_asset x) Free - side_stake x Free;
  lo_wf : wfTL z;
  lo_timelock : ∀ t, ts <= t → amountAt z t = amountAt (tl w from (sd_asset x)) t
                    + d from (sd_asset x) (At t) - side_stake x (At t);
}.
Definition checks (skip : bool) (w : World) (b : MultiSwap.book) (x : side) : Prop :=
  (side_funds w x false dzero ∧
     ∃ err, ∀ legs, check_legs ctx skip (side_leg x :: legs) b = Done (inr err)) ∨
  (∃ d v z, side_funds w x true d ∧ left_over w x d v z ∧
     ∀ legs, check_legs ctx skip (side_leg x :: legs) b =
       check_legs ctx skip legs
         (mkBook (<[sd_asset x := v]> (bk_balances b)) (<[sd_asset x := z]> (bk_timelocks b)))).

Section one_side.
Context (skip : bool) (w : World) (b : MultiSwap.book) (x : side) (v : Z) (z : TimeLock).
Hypothesis Hc : copies w b.
Hypothesis Hv : bk_balances b !! sd_asset x = Some v.
Hypothesis Hz : bk_timelocks b !! sd_asset x = Some z.
Hypothesis Hok : side_ok x.

Ltac look := intros legs; cbn [check_legs leg_asset leg_useAsset leg_total leg_need side_leg];
  rewrite Hv, Hz.

Lemma check_asset : side_isAsset x = true → checks skip w b x.
Proof.
  intros Ea. destruct (cp_timelock _ _ Hc _ _ Hz) as [Hwf Hat]. pose proof (cp_balance _ _ Hc _ _ Hv) as Hbal.
  pose proof (bigCmp_lt v (sd_amount x)).
  destruct (Z.ltb_spec (bigCmp v (sd_amount x)) 0) as [Hlt|Hge]; [left|right].
  - split; [apply short_asset; [done|]; fold from; lia|]. eexists. look. rewrite Ea.
    by rewrite (proj2 (Z.ltb_lt _ _) Hlt).
  - exists dzero, (v - sd_amount x), z. split; [apply funds_asset; [done|]; fold from; lia|]. split.
    + split; [|done|]; [|intros t Ht; rewrite Hat by done]; rewrite side_stake_asset by done; simpl;
        unfold dzero; lia.
    + look. rewrite Ea, (proj2 (Z.ltb_ge _ _) Hge). by rewrite (insert_id (bk_timelocks b)).
Qed.

Lemma check_skipped : side_isAsset x = false → skip = true → ¬ item_ok (side_need x) → checks skip w b x.
Proof.
  intros Ea -> Hi. destruct (cp_timelock _ _ Hc _ _ Hz) as [Hwf Hat].
  pose proof (cp_balance _ _ Hc _ _ Hv) as Hbal.
  pose proof (side_stake_over x Hok Ea Hi) as Hz0.
  right. exists dzero, v, z. split; [by apply funds_nothing|]. split.
  - split; [rewrite (Hz0 Free I)|done|intros t Ht; rewrite (Hz0 (At t) Ht), Hat by done];
      unfold dzero; lia.
  - rewrite <- (leg_valid_side x Hok) in Hi. apply not_true_is_false in Hi.
    look. fold (side_leg x). rewrite Ea, Hi. simpl. by rewrite !insert_id; [destruct b|..].
Qed.

Lemma check_lock : side_isAsset x = false → item_ok (side_need x) → checks skip w b x.
Proof.
  intros Ea Hi. destruct (cp_timelock _ _ Hc _ _ Hz) as [Hwf Hat].
  pose proof (cp_balance _ _ Hc _ _ Hv) as Hbal. pose proof (bigCmp_lt v (sd_amount x)).
  assert (Hlv : leg_valid (side_leg x) = true) by by apply leg_valid_side.
  assert (Hst : ∀ t, ts <= t → side_stake x Free = 0 ∧ side_stake x (At t) = itemAt (side_need x) t)
    by (intros t; by apply side_stake_lock).
  destruct (TimeLock_Cmp_ok z (side_need x) Hwf Hi) as (c & Hcmp & Hpos & Hneg).
  assert (Hcov : c < 0 ↔ ¬ coversTL (tl w from (sd_asset x)) (side_need x)).
  { rewrite <- (copies_covers w b x z Hc Hz). split; [intros; apply Hneg; [done|left; simpl; lia]|].
    intros Hn. destruct (Z.lt_ge_cases c 0); [done|]. by destruct Hn; apply Hpos. }
  destruct (Z.ltb_spec c 0) as [Hlt|Hge].
  - destruct (Z.ltb_spec (bigCmp v (sd_amount x)) 0) as [Hlt'|Hge']; [left|right].
    + split; [apply short_lock; [done|by apply Hcov|right; fold from; lia]|]. eexists. look.
      fold (side_leg x). rewrite Ea, Hlv, andb_false_r, Hcmp. cbn [obind].
      by rewrite (proj2 (Z.ltb_lt _ _) Hlt), (proj2 (Z.ltb_lt _ _) Hlt').
    + destruct (check_sub z x true Hwf Hi I) as (z0 & z' & Hz0 & Hz' & Hwf' & Hat').
      exists (convert msg ctx (sd_asset x) (sd_amount x)), (v - sd_amount x), z'.
      split; [apply funds_convert; [done|by apply Hcov|done|fold from; lia]|]. split.
      * split; [|done|intros t Ht; rewrite Hat', Hat, (proj2 (Hst t Ht)) by done].
        all: rewrite ?(proj1 (Hst ts ltac:(lia))); unfold convert, dadd, dneg, gain; fold from ts;
          rewrite !Z.eqb_refl; simpl; lia.
      * look. fold (side_leg x) ts. rewrite Ea, Hlv, andb_false_r, Hcmp. cbn [obind].
        rewrite (proj2 (Z.ltb_lt _ _) Hlt), (proj2 (Z.ltb_ge _ _) Hge'), Hz0. cbn [obind default].
        unfold id. by rewrite Hz'.
  - right. destruct (check_sub z x false Hwf Hi) as (z0 & z' & [= <-] & Hz' & Hwf' & Hat'); [by apply Hpos|].
    exists dzero, v, z'. split; [apply funds_lock; [done|]|split].
    + apply (copies_covers w b x z Hc Hz). by apply Hpos.
    + split; [rewrite (proj1 (Hst ts ltac:(lia)))|done|intros t Ht; rewrite Hat', Hat, (proj2 (Hst t Ht)) by done];
        unfold dzero; lia.
    + look. fold (side_leg x). rewrite Ea, Hlv, andb_false_r, Hcmp. cbn [obind].
      rewrite (proj2 (Z.ltb_ge _ _) Hge), Hz'. cbn [obind]. by rewrite (insert_id (bk_balances b)).
Qed.

Lemma check_side : payable skip x → checks skip w b x.
Proof.
  intros [_ Hp]. destruct (side_isAsset x) eqn:Ea; [by apply check_asset|].
  destruct (decide (item_ok (side_need x))) as [Hi|Hn]; [by apply check_lock|].
  destruct Hp as [?|[?|?]]; [by apply check_skipped|congruence|done].
Qed.
End one_side.

(** The check on the copies returns, and says whether the sides can be paid. *)
Lemma check_settles skip xs : ∀ w b,
  copies w b → Forall (fun x => loaded b (sd_asset x)) xs → Forall (payable skip) xs →
  ∃ r, check_legs ctx skip (map side_leg xs) b = Done r ∧
    match r with inl _ => ∃ d, settles w xs (Some d) | inr _ => settles w xs None end.
Proof.
  induction xs as [|x xs IH]; intros w b Hc Hld Hp.
  { eexists. split; [reflexivity|]. exists dzero. constructor. }
  apply Forall_cons in Hld as [[[v Hv] [z Hz]] Hld]. apply Forall_cons in Hp as [Hp1 Hp].
  destruct (check_side skip w b x v z Hc Hv Hz (proj1 Hp1) Hp1)
    as [[Hf [err He]]|(d & v' & z' & Hf & [Hv' Hwf' Ha'] & He)]; cbn [map].
  { exists (inr err). split; [apply He|by apply settles_short]. }
  destruct (IH (funded w (sd_asset x) v' z') _ (copies_funded w b (sd_asset x) v' z' Hc Hwf'))
    as (r & Hr & Hs); [|done|].
  { eapply Forall_impl; [exact Hld|]. intros y [? ?]. unfold loaded. simpl.
    rewrite !lookup_insert_is_Some'. by split; right. }
  exists r. rewrite He. split; [done|].
  pose proof (fun o => settles_step w x xs d v' z' o Hf Hv' Ha') as Hst.
  destruct r; [|by apply (Hst None)]. destruct Hs as [d' Hd']. eexists. by apply (Hst (Some d')).
Qed.
(** *** The deduction from the state *)

Lemma moves_same_sym w w' : moves nowhere ts dzero w w' → moves nowhere ts dzero w' w.
Proof.
  intros [Hm []]. split; [|split; intros; symmetry; auto].
  intros a h k Hk. specialize (Hm a h k Hk). unfold dzero in *. lia.
Qed.
(** What starts from the same holdings and moves the same ends in the same. *)
Lemma moves_join d w w' w2 w3 :
  moves nowhere ts d w w' → moves nowhere ts dzero w w2 → moves nowhere ts d w2 w3 →
  moves nowhere ts dzero w' w3.
Proof.
  intros [H1 K1] [H2 K2] [H3 K3]. split.
  - intros a h k Hk. rewrite H3, H2, H1 by done. unfold dzero. lia.
  - transitivity w2; [|done]. transitivity w; [|done].
    destruct K1. split; intros; symmetry; auto.
Qed.

Lemma funds_same w w2 x ok d :
  moves nowhere ts dzero w w2 → side_funds w x ok d → side_funds w2 x ok d.
Proof.
  intros Hm Hf. assert (Hb : bal w2 from (sd_asset x) = bal w from (sd_asset x)).
  { pose proof (mv_holding _ _ _ _ _ Hm from (sd_asset x) Free I) as H. unfold dzero, holding in H. lia. }
  assert (Hcv : coversTL (tl w2 from (sd_asset x)) (side_need x) ↔
                coversTL (tl w from (sd_asset x)) (side_need x)).
  { split; [apply moves_same_sym in Hm|]; by apply (coversTL_moves _ _ _ _ _ _ _ _ Hm); [simpl; lia|]. }
  unfold side_need, from, ts in Hb, Hcv. destruct Hf.
  - apply funds_asset; [done|lia].
  - apply short_asset; [done|lia].
  - apply funds_lock; [done|]. by apply Hcv.
  - apply short_lock; [done|by rewrite Hcv|]. by rewrite Hb.
  - apply funds_convert; [done|by rewrite Hcv|done|lia].
  - by apply funds_nothing.
Qed.

Lemma funds_unique w x ok d ok' d' :
  side_isAsset x = true ∨ item_ok (side_need x) →
  side_funds w x ok d → side_funds w x ok' d' → ok = ok' ∧ d = d'.
Proof.
  unfold side_isAsset, side_need. intros Hx H1 H2.
  destruct H1, H2; try congruence; try done; try lia; try naive_solver; destruct Hx; by try congruence.
Qed.

Lemma funds_skipped w x d :
  wfTL (tl w from (sd_asset x)) → side_ok x → side_isAsset x = false → ¬ item_ok (side_need x) →
  side_funds w x true d → d = dzero.
Proof.
  unfold side_isAsset, side_need, item_ok, need. intros Hwf (Hs & He & Hv) Ha Hi Hf. simpl in Hi. unfold ts in Hi, Hts.
  inversion Hf as [| | | |Ha' Hn|]; subst; try done. destruct Hn. intros t Ht. simpl in *.
  pose proof (itemsAt_nonneg (Items (tl w from (sd_asset x))) t Hwf). unfold is_u64, from in *.
  destruct (Z.eq_dec (sd_amount x) 0); lia.
Qed.

(** Paying one side and going on. *)
Lemma deduct_side skip w s x legs d Q :
  rep s w → payable skip x → side_funds w x true d →
  (∀ s' w', rep s' w' → frame s s' → moves nowhere ts (side_delta x d) w w' →
     wp (deduct_legs msg ctx skip legs) Q s') →
  wp (deduct_legs msg ctx skip (side_leg x :: legs)) Q s.
Proof.
  intros Hr [Hok Hp] Hf HQ. cbn [deduct_legs side_leg leg_asset leg_useAsset leg_total leg_need].
  fold (side_leg x) from ts. destruct (side_isAsset x) eqn:Ea.
  - apply wp_bind, (wp_balanceCmp w); [done|]. intros c s1 Hr1 Hf1 Hc. pose proof Ea as Ea'.
    unfold side_isAsset in Ea'.
    assert (d = dzero ∧ sd_amount x <= bal w from (sd_asset x)) as [-> Hle] by (inversion Hf; subst; by try congruence).
    destruct (Z.ltb_spec c 0); [lia|].
    apply wp_bind, (wp_SubBalance_moves nowhere ts w); [done|]. intros s2 w2 Hr2 Hf2 Hm2.
    apply (HQ s2 w2); [done|solve_frame|]. eapply moves_proper; [|exact Hm2].
    intros a h k. unfold side_delta, dadd, dneg, dzero, gain.
    destruct (_ && _); [|done]. by rewrite side_stake_asset.
  - destruct (decide (item_ok (side_need x))) as [Hi|Hn].
    + rewrite (proj2 (leg_valid_side x Hok) Hi), andb_false_r.
      apply wp_bind, (wp_timeLockCmp w); [done|done|simpl; lia|]. intros c s1 Hr1 Hf1 Hc.
      apply (wp_convert_or_fail msg ctx Hts w s1 (sd_asset x) (sd_start x) (sd_end x) (sd_amount x) false c
        (mret None)); try done;
        try (intros s' _ _ _ Hf'; by destruct (funds_unique w x _ _ _ _ (or_intror Hi) Hf Hf')).
      intros s' w' d' Hr' Hf' Hm' Hfu He. destruct (funds_unique w x _ _ _ _ (or_intror Hi) Hf Hfu) as [_ <-].
        apply wp_bind. pose proof (wp_take_leg msg ctx Hts nowhere w' s' (sd_asset x) (sd_start x) (sd_end x)
          (sd_amount x)) as Hw. unfold side_isAsset in Ea. rewrite Ea in Hw. apply Hw; [done|done|done|].
        intros s2 w2 Hr2 Hf2 Hm2. apply (HQ s2 w2); [done|solve_frame|].
        exact (moves_trans _ _ _ _ _ _ _ Hm' Hm2).
    + destruct Hp as [->|[?|?]]; [|congruence|done].
      destruct (leg_valid (side_leg x)) eqn:Hlv; [by apply leg_valid_side in Hlv|].
      destruct (rep_tl s w from (sd_asset x) Hr) as [_ Hwf].
      rewrite (funds_skipped w x d) in HQ by done. apply (HQ s w); [done|done|].
      eapply (moves_from ctx); [|apply moves_refl]. intros a h k Hk.
      unfold side_delta, dadd, dneg, dzero, gain. rewrite (side_stake_over x Hok Ea Hn k Hk).
      by destruct (_ && _).
Qed.

(** The deduction of sides that can be paid pays all of them. *)
Lemma deduct_settles skip xs : ∀ w d w2 s,
  settles w xs (Some d) → moves nowhere ts dzero w w2 → rep s w2 → Forall (payable skip) xs →
  wp (deduct_legs msg ctx skip (map side_leg xs))
     (fun r s' => r = None ∧ ∃ w', rep s' w' ∧ frame s s' ∧ moves nowhere ts d w2 w') s.
Proof.
  induction xs as [|x xs IH]; intros w d w2 s Hs Hm Hr Hp.
  { inversion Hs; subst. apply wp_ret. split; [done|]. exists w2. split_and!; [done|done|apply moves_refl]. }
  apply Forall_cons in Hp as [Hp1 Hp].
  inversion Hs as [| |? ? ? d1 w1 o Hf Hm1 Hs1 E1 E2 Ho]; subst.
  destruct o as [d2|]; [|done]. injection Ho as <-.
  apply (deduct_side skip w2 s x _ d1); [done|done|by eapply funds_same|]. intros s3 w3 Hr3 Hf3 Hm3.
  eapply wp_mono; [apply (IH w1 d2 w3 s3 Hs1); [by eapply moves_join|done|done]|].
  intros r s' [-> (w' & Hr' & Hf' & Hm')]. split; [done|]. exists w'. split_and!; [done|solve_frame|].
  exact (moves_trans _ _ _ _ _ _ _ Hm3 Hm').
Qed.

(** What the payer can spend is less by what is owed, and nothing else moved. *)
Lemma settles_spend w xs o d a h t :
  settles w xs o → o = Some d → ts <= t <= TimeLockForever →
  spend (d a h) t = if from =? a then - owed xs h t else 0.
Proof.
  intros Hs. revert d. induction Hs as [|? ? ? Hf|w x xs d1 w' o Hf _ Hs IH]; intros d Ho Ht; [|done|].
  { injection Ho as <-. unfold spend, dzero, owed. simpl. by destruct (_ =? _). }
  destruct o as [d2|]; [|done]. injection Ho as <-. specialize (IH d2 eq_refl Ht).
  assert (Hd : spend (d1 a h) t = 0).
  { inversion Hf; try done. unfold spend, convert, dadd, dneg, gain, coins, locked, itemAt, whole. simpl.
    fold from ts. destruct (_ && _); [|done]. rewrite ival_in by lia. lia. }
  unfold spend in *. unfold side_delta, dadd, dneg, gain, owed in *. simpl. revert Hd IH. unfold spend.
  destruct (from =? a), (sd_asset x =? h); simpl; lia.
Qed.

End settle.
