(* ===== verification/MultiSwapCalls.v ===== *)
(** * The multi-swap calls on the ledger

    The arrays of a multi-swap are read as lists of sides, and the handlers of
    core/state_transition.go that make, recall and take one are specified on the
    ledger and the book of multi-swaps, on every branch: the error that is
    returned with nothing moved, or what is moved and the book that is left. *)

From stdpp Require Import base list gmap strings.
From Stdlib Require Import ZArith Lia.
From S2P Require Import Prelude Bytes Keccak KeccakFacts TimeLock TimeLockFacts Ticket FsnTypes.
From S2P Require Import Rlp RlpFacts Codec CallParams StateDB StateRecords StateFacts StateRevert.
From S2P Require Import StateInterface StateWorld Ledger RecordFacts RecordStore StateTransition.
From S2P Require Import CallFacts SwapFacts SwapLedger MultiSwap MultiSwapFacts.

(** ** Arrays as sides *)

Fixpoint sides (assets : list Hash) (starts ends : list Z) (amounts : list (option Z)) (size : Z)
    : list side :=
  match assets, starts, ends, amounts with
  | h :: assets, start :: starts, end_ :: ends, Some v :: amounts =>
      mkSide h start end_ (v * size) :: sides assets starts ends amounts size
  | _, _, _, _ => []
  end.

(** The arrays of one direction: as long as each other, times in range and
    amounts that are there. *)
Record shaped (assets : list Hash) (starts ends : list Z) (amounts : list (option Z)) : Prop := {
  sh_starts : length starts = length assets;
  sh_ends : length ends = length assets;
  sh_amounts : length amounts = length assets;
  sh_u64 : Forall is_u64 starts ∧ Forall is_u64 ends;
  sh_nonneg : Forall (fun v => ∃ x, v = Some x ∧ 0 <= x) amounts;
}.

Section arrays.
Context (size : Z).

Lemma shaped_tail h assets s starts e ends v amounts :
  shaped (h :: assets) (s :: starts) (e :: ends) (v :: amounts) →
  shaped assets starts ends amounts ∧ is_u64 s ∧ is_u64 e ∧ ∃ x, v = Some x ∧ 0 <= x.
Proof.
  intros [H1 H2 H3 [H4 H5] H6]. apply Forall_cons in H4 as [? ?], H5 as [? ?], H6 as [? ?].
  simpl in *. split_and!; [|done..]. by split; try lia.
Qed.

Lemma sides_length assets starts ends amounts :
  shaped assets starts ends amounts → length (sides assets starts ends amounts size) = length assets.
Proof.
  revert starts ends amounts. induction assets as [|h assets IH]; intros starts ends amounts Hs; [done|].
  destruct starts as [|s starts], ends as [|e ends], amounts as [|v amounts]; try by destruct Hs.
  apply shaped_tail in Hs as (Hs & _ & _ & x & -> & _). simpl. by rewrite IH.
Qed.

(** The entries of the arrays at an index. *)
Record entries (assets : list Hash) (starts ends : list Z) (amounts : list (option Z)) (i : nat)
    (x : side) : Prop := {
  en_asset : assets !! i = Some (sd_asset x);
  en_start : starts !! i = Some (sd_start x);
  en_end : ends !! i = Some (sd_end x);
  en_amount : ∃ v, amounts !! i = Some (Some v) ∧ sd_amount x = v * size;
  en_ok : side_ok x;
}.

Lemma sides_lookup assets starts ends amounts i :
  0 <= size → shaped assets starts ends amounts → (i < length assets)%nat →
  ∃ x, sides assets starts ends amounts size !! i = Some x ∧ entries assets starts ends amounts i x.
Proof.
  intros Hsz. revert starts ends amounts i.
  induction assets as [|h assets IH]; intros starts ends amounts i Hs Hi; [simpl in Hi; lia|].
  destruct starts as [|s starts], ends as [|e ends], amounts as [|v amounts]; try by destruct Hs.
  apply shaped_tail in Hs as (Hs & Hu & Hu' & x & -> & Hx). destruct i as [|i].
  - eexists. split; [done|]. split; try done; [by exists x|]. split_and!; [done|done|simpl; lia].
  - destruct (IH starts ends amounts i Hs ltac:(simpl in Hi; lia)) as (y & Hy & []). by exists y.
Qed.

Lemma sides_ok assets starts ends amounts :
  0 <= size → shaped assets starts ends amounts →
  Forall side_ok (sides assets starts ends amounts size).
Proof.
  intros Hsz Hs. apply Forall_lookup. intros i x Hx. pose proof (lookup_lt_Some _ _ _ Hx) as Hlt.
  rewrite sides_length in Hlt by done. destruct (sides_lookup _ _ _ _ i Hsz Hs Hlt) as (y & Hy & He).
  assert (x = y) as -> by congruence. apply He.
Qed.

(** The sides from an index on. *)
Lemma drop_sides assets starts ends amounts n i :
  0 <= size → shaped assets starts ends amounts → (i + S n = length assets)%nat →
  let xs := sides assets starts ends amounts size in
  ∃ x, drop i xs = x :: drop (S i) xs ∧ entries assets starts ends amounts i x ∧ xs !! i = Some x.
Proof.
  intros Hsz Hsh Hi. destruct (sides_lookup assets starts ends amounts i Hsz Hsh ltac:(lia)) as (x & Hx & He).
  exists x. split_and!; [|done|done]. by apply drop_S.
Qed.
Lemma drop_sides_end assets starts ends amounts i :
  shaped assets starts ends amounts → i = length assets → drop i (sides assets starts ends amounts size) = [].
Proof. intros Hsh ->. apply drop_ge. by rewrite sides_length. Qed.
End arrays.

Section loading.
Context `{SP : StateParams} `{TP : TransitionParams}.
Context (msg : Message) (ctx : Context).
Let from := msg_From msg.
Let ts := ParentTime ctx.
Hypothesis Hts : 0 < ts < two64.

Lemma wp_leg_at assets starts ends amounts size i x Q s :
  entries size assets starts ends amounts i x → Q (side_leg ctx x) s →
  wp (leg_at ctx assets amounts starts ends size i) Q s.
Proof.
  intros [Ha Hs He (v & Hv & Hx) Hok] HQ. unfold leg_at.
  apply wp_bind, (wp_at_index _ _ (sd_asset x)); [done|].
  apply wp_bind, (wp_at_index _ _ (Some v)); [done|]. apply wp_bind, (wp_non_nil _ v); [done|].
  apply wp_bind, (wp_at_index _ _ (sd_start x)); [done|]. apply wp_bind, (wp_at_index _ _ (sd_end x)); [done|].
  apply wp_ret. rewrite <- Hx. rewrite (oneItem_need ctx) by apply Hok. exact HQ.
Qed.

(** A balance that is copied comes with its time lock. *)
Definition aligned (b : MultiSwap.book) : Prop := ∀ h, is_Some (bk_balances b !! h) → loaded b h.
Definition extends (b b' : MultiSwap.book) : Prop := ∀ h, loaded b h → loaded b' h.

Lemma wp_load_book w s h b Q :
  rep s w → copies msg ctx w b → aligned b →
  (∀ s' b', rep s' w → frame s s' → copies msg ctx w b' → aligned b' → loaded b' h → extends b b' → Q b' s') →
  wp (load_book msg h b) Q s.
Proof.
  intros Hr Hc Hal HQ. unfold load_book. destruct (bk_balances b !! h) as [v|] eqn:E.
  - apply wp_ret. apply HQ; [done|done|done|done|apply Hal; eauto|by intros h'].
  - apply wp_bind, (wp_GetBalance w); [done|]. intros s1 Hr1 Hf1.
    apply wp_bind, (wp_GetTimeLockBalance w); [done|]. intros s2 Hr2 Hf2.
    apply wp_bind, (wp_non_nil _ (bal w (msg_From msg) h)); [done|].
    apply wp_bind, (wp_non_nil _ (tl w (msg_From msg) h)); [done|]. apply wp_ret.
    destruct (rep_tl s w (msg_From msg) h Hr) as [_ Hwf].
    assert (TimeLock_Clone (tl w (msg_From msg) h) = tl w (msg_From msg) h) as ->.
    { unfold TimeLock_Clone, NewTimeLock, SetItems. rewrite (map_Clone_id None) by done. by destruct (tl w _ h). }
    apply HQ; [done|solve_frame|..].
    + destruct Hc as [Hb Ht]. split; simpl; intros h' x; rewrite lookup_insert_Some;
        (intros [[<- <-]|[_ ?]]; [done|auto]).
    + intros h'. unfold loaded. simpl. rewrite !lookup_insert_is_Some'. intros [->|Hb]; [auto|].
      split; right; by apply Hal.
    + unfold loaded. simpl. rewrite !lookup_insert_eq. eauto.
    + intros h' [? ?]. unfold loaded. simpl. rewrite !lookup_insert_is_Some'. auto.
Qed.

(** *** The loops over the arrays *)

Definition legs_loaded (w : World) (b : MultiSwap.book) (ys : list side) (r : list leg * MultiSwap.book) : Prop :=
  r.1 = map (side_leg ctx) ys ∧ copies msg ctx w r.2 ∧ aligned r.2 ∧ extends b r.2 ∧
  Forall (fun x => loaded r.2 (sd_asset x)) ys.

Lemma legs_loaded_nil w b : copies msg ctx w b → aligned b → legs_loaded w b [] ([], b).
Proof. intros Hc Ha. split_and!; [done|done|done|by intros h|constructor]. Qed.
Lemma legs_loaded_cons w b b1 x ys r :
  extends b b1 → loaded b1 (sd_asset x) → legs_loaded w b1 ys r →
  legs_loaded w b (x :: ys) (side_leg ctx x :: r.1, r.2).
Proof.
  intros He Hl (H1 & H2 & H3 & H4 & H5). split_and!; simpl; [by rewrite H1|done|done| |].
  - intros h Hh. by apply H4, He.
  - constructor; [by apply H4|done].
Qed.

Lemma wp_credit_legs w s a xs Q :
  rep s w → Forall side_ok xs →
  (∀ s' w', rep s' w' → frame s s' → moves nowhere ts (gains a xs) w w' → Q tt s') →
  wp (credit_legs ctx a (map (side_leg ctx) xs)) Q s.
Proof.
  intros Hr Hok. revert w s Hr. induction Hok as [|x xs Hx _ IH]; intros w s Hr HQ.
  { apply wp_ret. apply (HQ s w); [done|done|apply moves_refl]. }
  cbn [map credit_legs]. apply wp_bind.
  replace (if leg_useAsset (side_leg ctx x) then _ else _)
    with (credit ctx a (sd_asset x) (sd_start x) (sd_end x) (sd_amount x)).
  - apply (wp_credit msg ctx Hts nowhere w); [done|done|]. intros s1 w1 Hr1 Hf1 Hm1.
    apply (IH w1 s1 Hr1). intros s2 w2 Hr2 Hf2 Hm2. apply (HQ s2 w2); [done|solve_frame|].
    exact (moves_trans _ _ _ _ _ _ _ Hm1 Hm2).
  - unfold credit. rewrite (oneItem_need ctx) by apply Hx. cbn [side_leg leg_useAsset leg_asset leg_total leg_need].
    unfold leg_valid, side_isAsset, side_need. simpl. by destruct (TimeLock_IsValid _).
Qed.

Definition usan : error := New "USAN's cannot be multi swapped".
Definition is_usan (x : side) : Prop := sd_asset x = OwnerUSANAssetID.
#[export] Instance is_usan_dec x : Decision (is_usan x) := decide (sd_asset x = OwnerUSANAssetID).

Definition from_param (p : MakeMultiSwapParam) (size : Z) : list side :=
  sides (mm_FromAssetID p) (mm_FromStartTime p) (mm_FromEndTime p) (mm_MinFromAmount p) size.
Definition param_shaped (p : MakeMultiSwapParam) : Prop :=
  shaped (mm_FromAssetID p) (mm_FromStartTime p) (mm_FromEndTime p) (mm_MinFromAmount p) ∧
  shaped (mm_ToAssetID p) (mm_ToStartTime p) (mm_ToEndTime p) (mm_MinToAmount p).

Lemma wp_makeMulti_legs p size : 0 <= size → param_shaped p → Forall (payable ctx false) (from_param p size) →
  ∀ n i w s b, (i + n = length (mm_FromAssetID p))%nat → rep s w → copies msg ctx w b → aligned b →
  wp (makeMulti_legs msg ctx p size n i b)
     (fun r s' => rep s' w ∧ frame s s' ∧
        match r with
        | inl r => legs_loaded w b (drop i (from_param p size)) r ∧
                   Forall (fun x => ¬ is_usan x) (drop i (from_param p size))
        | inr err => err = usan ∧ Exists is_usan (drop i (from_param p size))
        end) s.
Proof.
  intros Hsz [Hsh _] Hpay n. unfold from_param in *.
  induction n as [|n IH]; intros i w s b Hi Hr Hc Hal; cbn [makeMulti_legs].
  { apply wp_ret. rewrite drop_sides_end by (done || lia). split_and!; [done|done|by apply legs_loaded_nil|constructor]. }
  destruct (drop_sides size _ _ _ _ n i Hsz Hsh Hi) as (x & -> & He & Hx).
  apply wp_bind, (wp_at_index _ _ (sd_asset x)); [apply He|].
  destruct (Z.eqb_spec (sd_asset x) OwnerUSANAssetID) as [Hu|Hu].
  { apply wp_ret. split_and!; [done|done|done|by constructor]. }
  apply wp_bind, (wp_load_book w); [done..|]. intros s1 b1 Hr1 Hf1 Hc1 Hal1 Hl1 He1.
  apply wp_bind, (wp_leg_at _ _ _ _ _ _ x); [done|].
  apply (Forall_lookup_1 _ _ _ _ Hpay) in Hx as [_ Hp].
  replace (if leg_useAsset (side_leg ctx x) then None else _) with (@None TimeLockError).
  2: { cbn [side_leg leg_useAsset leg_need]. destruct Hp as [?|[->|Hi']]; [done|done|].
       rewrite IsValid_single by done. by destruct (side_isAsset x). }
  apply wp_bind. eapply wp_mono; [apply (IH (S i) w s1 b1); [lia|done..]|].
  intros r s2 (Hr2 & Hf2 & Hres). apply wp_ret. split_and!; [done|solve_frame|].
  destruct r as [[legs b2]|err].
  - destruct Hres as [Hleg Hnu]. split; [exact (legs_loaded_cons w b b1 x _ _ He1 Hl1 Hleg)|by constructor].
  - destruct Hres as [-> Hex]. split; [done|]. by right.
Qed.

Definition from_sides (mu : MultiSwap) (size : Z) : list side :=
  sides (mu_FromAssetID mu) (mu_FromStartTime mu) (mu_FromEndTime mu) (mu_MinFromAmount mu) size.
Definition to_sides (mu : MultiSwap) (size : Z) : list side :=
  sides (mu_ToAssetID mu) (mu_ToStartTime mu) (mu_ToEndTime mu) (mu_MinToAmount mu) size.
Definition multi_shaped (mu : MultiSwap) : Prop :=
  shaped (mu_FromAssetID mu) (mu_FromStartTime mu) (mu_FromEndTime mu) (mu_MinFromAmount mu) ∧
  shaped (mu_ToAssetID mu) (mu_ToStartTime mu) (mu_ToEndTime mu) (mu_MinToAmount mu).

Lemma wp_takeMulti_from mu size : 0 <= size → multi_shaped mu →
  ∀ n i s, (i + n = length (mu_FromAssetID mu))%nat →
  wp (takeMulti_from ctx mu size n i)
     (fun r s' => s' = s ∧ r = map (side_leg ctx) (drop i (from_sides mu size))) s.
Proof.
  intros Hsz [Hsh _] n. unfold from_sides. induction n as [|n IH]; intros i s Hi; cbn [takeMulti_from].
  { apply wp_ret. by rewrite drop_sides_end by (done || lia). }
  destruct (drop_sides size _ _ _ _ n i Hsz Hsh Hi) as (x & -> & He & _).
  apply wp_bind, (wp_leg_at _ _ _ _ _ _ x); [done|].
  apply wp_bind. eapply wp_mono; [apply (IH (S i) s); lia|]. intros r s' [-> ->]. by apply wp_ret.
Qed.

(** The time locks that are taken fit into the array of what is needed, which
    has the length of the other direction. *)
Definition roomy (mu : MultiSwap) : Prop :=
  ∀ i start end_, mu_ToStartTime mu !! i = Some start → mu_ToEndTime mu !! i = Some end_ →
    isAsset start end_ = false → (i < length (mu_FromAssetID mu))%nat.

Lemma wp_takeMulti_to mu size : 0 <= size → multi_shaped mu → roomy mu →
  ∀ n i w s b, (i + n = length (mu_ToAssetID mu))%nat → rep s w → copies msg ctx w b → aligned b →
  wp (takeMulti_to msg ctx mu size (length (mu_FromAssetID mu)) n i b)
     (fun r s' => rep s' w ∧ frame s s' ∧ legs_loaded w b (drop i (to_sides mu size)) r) s.
Proof.
  intros Hsz [_ Hsh] Hroom n. unfold to_sides. induction n as [|n IH]; intros i w s b Hi Hr Hc Hal;
    cbn [takeMulti_to].
  { apply wp_ret. rewrite drop_sides_end by (done || lia). split_and!; [done|done|by apply legs_loaded_nil]. }
  destruct (drop_sides size _ _ _ _ n i Hsz Hsh Hi) as (x & -> & He & _).
  apply wp_bind, (wp_at_index _ _ (sd_asset x)); [apply He|].
  apply wp_bind, (wp_load_book w); [done..|]. intros s1 b1 Hr1 Hf1 Hc1 Hal1 Hl1 He1.
  apply wp_bind, (wp_leg_at _ _ _ _ _ _ x); [done|]. cbn [side_leg leg_useAsset].
  replace (negb (side_isAsset x) && _) with false.
  2: { destruct (side_isAsset x) eqn:Ea; [done|]. symmetry. apply Nat.leb_gt.
       by apply (Hroom i (sd_start x) (sd_end x)); [apply He..|]. }
  apply wp_bind. eapply wp_mono; [apply (IH (S i) w s1 b1); [lia|done..]|].
  intros r s2 (Hr2 & Hf2 & Hleg). apply wp_ret. split_and!; [done|solve_frame|].
  exact (legs_loaded_cons w b b1 x _ _ He1 Hl1 Hleg).
Qed.

Lemma wp_recallMulti_credit mu size : mu_SwapSize mu = Some size → 0 <= size → multi_shaped mu →
  ∀ n i w s Q, (i + n = length (mu_FromAssetID mu))%nat → rep s w →
  (∀ s' w', rep s' w' → frame s s' → moves nowhere ts (gains from (drop i (from_sides mu size))) w w' → Q tt s') →
  wp (recallMulti_credit msg ctx mu n i) Q s.
Proof.
  intros Hmu Hsz [Hsh _] n. unfold from_sides. induction n as [|n IH]; intros i w s Q Hi Hr HQ;
    cbn [recallMulti_credit].
  { apply wp_ret. rewrite drop_sides_end in HQ by (done || lia). apply (HQ s w); [done|done|apply moves_refl]. }
  destruct (drop_sides size _ _ _ _ n i Hsz Hsh Hi) as (x & Hd & [Ha Hs He (v & Hv & Hx) Hok] & _).
  rewrite Hd in HQ.
  apply wp_bind, (wp_at_index _ _ (Some v)); [done|]. apply wp_bind, (wp_non_nil _ v); [done|].
  apply wp_bind, (wp_non_nil _ size); [done|]. apply wp_bind, (wp_at_index _ _ (sd_start x)); [done|].
  apply wp_bind, (wp_at_index _ _ (sd_end x)); [done|]. apply wp_bind, (wp_at_index _ _ (sd_asset x)); [done|].
  rewrite <- Hx. apply wp_bind, (wp_credit msg ctx Hts nowhere w); [done|done|]. intros s1 w1 Hr1 Hf1 Hm1.
  apply (IH (S i) w1 s1); [lia|done|]. intros s2 w2 Hr2 Hf2 Hm2. apply (HQ s2 w2); [done|solve_frame|].
  exact (moves_trans _ _ _ _ _ _ _ Hm1 Hm2).
Qed.

(** *** What the check of the parameters ensures *)

Lemma amounts_check_ok dir size assets starts ends amounts :
  0 < size → multi_amounts_check dir size ts amounts starts ends = None →
  length starts = length assets → length ends = length assets → length amounts = length assets →
  Forall is_u64 starts → Forall is_u64 ends →
  shaped assets starts ends amounts ∧ Forall (payable ctx false) (sides assets starts ends amounts size).
Proof.
  intros Hsz. revert starts ends amounts.
  induction assets as [|h assets IH]; intros [|s starts] [|e ends] [|v amounts] Hck ? ? ? Hus Hue; try done.
  apply Forall_cons in Hus as [Hs Hus], Hue as [He Hue]. simpl in Hck.
  destruct v as [v|]; [|done]. destruct (Z.leb_spec (bigCmp v 0) 0) as [|Hv]; [done|].
  destruct (bigCmp (v * size) 0 <=? 0); [done|]. destruct (Z.ltb_spec e s); [done|].
  destruct (Z.leb_spec e ts); [done|]. apply (proj1 (bigCmp_gt _ _)) in Hv.
  destruct (IH starts ends amounts Hck) as [[] Hp]; try (simpl in *; lia); try done. split.
  - split; simpl; try lia; [|constructor; [exists v; split; [done|lia]|done]].
    split; constructor; tauto.
  - cbn [sides]. constructor; [|done]. split; [split_and!; [done|done|simpl; nia]|]. right. right.
    unfold item_ok, side_need, need, is_u64 in *. simpl. fold ts. nia.
Qed.

Lemma MakeMultiSwapParam_Check_None b :
  are_bytes b → let p := (Unmarshal MakeMultiSwapParam b).1 in
  MakeMultiSwapParam_Check p ts = None →
  param_shaped p ∧ ∃ size, mm_SwapSize p = Some size ∧ 0 < size ∧ Forall (payable ctx false) (from_param p size).
Proof.
  intros Hb p. destruct (MakeMultiSwapParam_typed b Hb) as (H1 & H2 & H3 & H4). fold p in H1, H2, H3, H4.
  unfold MakeMultiSwapParam_Check. destruct (_ =? 0)%nat; [done|]. destruct (_ =? 0)%nat; [done|].
  destruct (mm_SwapSize p) as [size|]; [|done]. destruct (Z.leb_spec (bigCmp size 0) 0) as [|Hz]; [done|].
  apply (proj1 (bigCmp_gt _ _)) in Hz.
  destruct (negb (_ && _ && _)) eqn:Ef; [done|]. apply negb_false_iff in Ef.
  apply andb_true_iff in Ef as [[?%Nat.eqb_eq ?%Nat.eqb_eq]%andb_true_iff ?%Nat.eqb_eq].
  destruct (negb (_ && _ && _)) eqn:Et; [done|]. apply negb_false_iff in Et.
  apply andb_true_iff in Et as [[?%Nat.eqb_eq ?%Nat.eqb_eq]%andb_true_iff ?%Nat.eqb_eq].
  destruct (multi_amounts_check "From" _ _ _ _ _) eqn:Ef; [done|].
  destruct (multi_amounts_check "To" _ _ _ _ _) eqn:Et; [done|]. intros _.
  destruct (amounts_check_ok "From" size (mm_FromAssetID p) _ _ _ Hz Ef) as [? ?]; [lia|lia|lia|done|done|].
  destruct (amounts_check_ok "To" size (mm_ToAssetID p) _ _ _ Hz Et) as [? ?]; [lia|lia|lia|done|done|].
  split; [done|]. by exists size.
Qed.
End loading.

Lemma size_ok_true x y : size_ok x y = true → ∃ n m, x = Some n ∧ y = Some m ∧ 0 < n <= m.
Proof.
  destruct x as [n|], y as [m|]; try done. simpl. intros H. exists n, m. split; [done|]. split; [done|].
  apply negb_true_iff, orb_false_iff in H as [H1%Z.leb_gt H2%Z.ltb_ge].
  apply (proj1 (bigCmp_gt _ _)) in H1. pose proof (bigCmp_gt n m). lia.
Qed.

(** ** The calls *)

Section calls.
Context `{SP : StateParams} `{TP : TransitionParams}.
Context (msg : Message) (ctx : Context).
Let from := msg_From msg.
Let ts := ParentTime ctx.
Hypothesis Hts : 0 < ts < two64.
Context (ids : list Hash) (N : nat).
Hypothesis Hfree : collision_free ids N.

(** What a call returns, what it moves, and the book of multi-swaps it leaves. *)
Record outcome_of_multi := mkMultiOutcome {
  mo_error : option error;
  mo_delta : delta;
  mo_multi : gmap Z MultiSwap;
}.
Definition refused (err : error) (m : gmap Z MultiSwap) : outcome_of_multi := mkMultiOutcome (Some err) dzero m.
Definition with_multi (B : books) (m : gmap Z MultiSwap) : books := mkBooks (bk_assets B) (bk_swaps B) m.

Definition multi_yields (s : StateDB) (w : World) (B : books) (o : outcome_of_multi)
    (r : option error) (s' : StateDB) : Prop :=
  r = mo_error o ∧ ∃ w', rep s' w' ∧ frame s s' ∧ moves (eq MultiSwapKeyAddress) ts (mo_delta o) w w' ∧
    shelves ids N w' (with_multi B (mo_multi o)).

Lemma wp_refuse (spec : outcome_of_multi → Prop) w B s s1 typ v kv err :
  rep s1 w → frame s s1 → shelves ids N w B → spec (refused err (bk_multi B)) →
  wp (fail ctx typ v kv err) (fun r s' => ∃ o, spec o ∧ multi_yields s w B o r s') s1.
Proof.
  intros Hr Hf HB Hs. apply (wp_fail _ w); [done|]. intros s' Hr' Hf'. eexists. split; [exact Hs|].
  split; [done|]. exists w. split_and!; [done|solve_frame|apply moves_refl|]. by destruct B.
Qed.

(** A call that ends well: it moved [d] and then changed the book. *)
Lemma wp_settled (spec : outcome_of_multi → Prop) w w1 w2 w3 B s s3 d1 d2 m typ v kv :
  rep s3 w3 → frame s s3 → moves nowhere ts d1 w w1 → moves (eq MultiSwapKeyAddress) ts dzero w1 w2 →
  moves nowhere ts d2 w2 w3 → shelves ids N w2 (with_multi B m) →
  spec (mkMultiOutcome None (dadd d1 d2) m) →
  wp (success ctx typ v kv) (fun r s' => ∃ o, spec o ∧ multi_yields s w B o r s') s3.
Proof.
  intros Hr Hf Hm1 Hm2 Hm3 HB Hs. apply (wp_success _ w3); [done|]. intros s' Hr' Hf'.
  eexists. split; [exact Hs|]. split; [done|]. exists w3.
  split_and!; [done|solve_frame| |by apply (shelves_moves ctx _ _ _ _ _ _ Hm3)].
  eapply moves_proper; [|exact (moves_trans _ _ _ _ _ _ _ (moves_somewhere ctx _ _ _ _ Hm1)
    (moves_trans _ _ _ _ _ _ _ Hm2 (moves_somewhere ctx _ _ _ _ Hm3)))].
  intros a h k. unfold dadd, dzero. simpl. lia.
Qed.

Lemma wp_GetMultiSwap w B s id Q :
  rep s w → shelves ids N w B → id ∈ ids →
  (∀ s', rep s' w → frame s s' →
     match bk_multi B !! id with Some a => Q (inl a) s' | None => ∀ e, Q (inr e) s' end) →
  wp (GetMultiSwap id) Q s.
Proof. intros Hr HB. rewrite GetMultiSwap_store. apply (wp_store_get ids N _ _ w); [done|apply HB]. Qed.

(** What a store operation on the multi-swaps leaves. *)
Definition multi_stored (s : StateDB) (w : World) (B : books) (m : gmap Z MultiSwap) (s' : StateDB) : Prop :=
  ∃ w', rep s' w' ∧ frame s s' ∧ moves (eq MultiSwapKeyAddress) ts dzero w w' ∧
    shelves ids N w' (with_multi B m).

Lemma stepped_multi s w B m s' :
  shelves ids N w B → stepped (P := multiSwapPersist) ids N s w m s' → multi_stored s w B m s'.
Proof.
  intros [H1 H2 _] (w' & Hr' & Hf & Hm & Hs). exists w'. split_and!; [done|done|apply Hm|].
  split; [| |exact Hs]; (eapply shelf_other; [|exact Hm|done]); done.
Qed.

Lemma wp_AddMultiSwap w B s mu :
  rep s w → shelves ids N w B → fits_store (P := multiSwapPersist) ids N (mu_ID mu) mu →
  bk_multi B !! mu_ID mu = None →
  wp (AddMultiSwap mu)
     (fun r s' => r = None ∧ multi_stored s w B (<[mu_ID mu := mu]> (bk_multi B)) s') s.
Proof.
  intros Hr HB Hfit Hnone. rewrite AddMultiSwap_store.
  eapply wp_mono; [apply (shelf_add (P := multiSwapPersist) ids N Hfree _ _ _ s w (bk_multi B)); [done|apply HB|done]|].
  unfold map_add. rewrite Hnone. intros [e|] s' [He Hs]; [done|]. split; [done|by apply stepped_multi].
Qed.
Lemma wp_RemoveMultiSwap w B s id mu :
  rep s w → shelves ids N w B → id ∈ ids → bk_multi B !! id = Some mu →
  wp (RemoveMultiSwap id) (fun r s' => r = None ∧ multi_stored s w B (delete id (bk_multi B)) s') s.
Proof.
  intros Hr HB Hid Hmu. rewrite RemoveMultiSwap_store.
  eapply wp_mono; [apply (shelf_remove (P := multiSwapPersist) ids N Hfree _ _ _ s w (bk_multi B)); [done|apply HB|done]|].
  unfold map_remove. rewrite Hmu. intros [e|] s' [He Hs]; [done|]. split; [done|by apply stepped_multi].
Qed.
Lemma wp_UpdateMultiSwap w B s mu :
  rep s w → shelves ids N w B → fits_store (P := multiSwapPersist) ids N (mu_ID mu) mu →
  wp (UpdateMultiSwap mu)
     (fun r s' => r = None ∧ multi_stored s w B (<[mu_ID mu := mu]> (bk_multi B)) s') s.
Proof.
  intros Hr HB Hfit. rewrite UpdateMultiSwap_store.
  eapply wp_mono; [apply (shelf_update (P := multiSwapPersist) ids N Hfree s w (bk_multi B)); [done|apply HB|done]|].
  intros [e|] s' [He Hs]; [done|]. split; [done|by apply stepped_multi].
Qed.

(** *** Making *)

Fixpoint bad_target (B : books) (toAssets : list Hash) : option error :=
  match toAssets with
  | [] => None
  | h :: toAssets =>
      if h =? OwnerUSANAssetID then Some usan
      else match bk_assets B !! h with
           | None => Some (New "ToAssetID's asset not found")
           | Some _ => bad_target B toAssets
           end
  end.

Lemma wp_makeMulti_targets w B toAssets : ∀ s,
  rep s w → shelves ids N w B → Forall (fun h => h ∈ ids) toAssets →
  wp (makeMulti_targets toAssets) (fun r s' => r = bad_target B toAssets ∧ rep s' w ∧ frame s s') s.
Proof.
  induction toAssets as [|h toAssets IH]; intros s Hr HB Hin; simpl; [by apply wp_ret|].
  apply Forall_cons in Hin as [Hh Hin]. destruct (h =? OwnerUSANAssetID); [by apply wp_ret|].
  apply wp_bind, (wp_GetAsset ids N w B); [done..|]. intros s1 Hr1 Hf1.
  destruct (bk_assets B !! h); [|intros e; by apply wp_ret].
  eapply wp_mono; [by apply IH|]. intros r s2 (-> & Hr2 & Hf2). split_and!; [done|done|solve_frame].
Qed.

(** Checking the funds of the sides and deducting them; [K] is the rest. *)
Lemma wp_check_deduct skip (refuse : error → M (option error)) w s xs legs b (K : M (option error)) Q :
  rep s w → legs_loaded msg ctx w (mkBook ∅ ∅) xs (legs, b) → Forall (payable ctx skip) xs →
  (∀ err, settles msg ctx w xs None → wp (refuse err) Q s) →
  (∀ d s' w', settles msg ctx w xs (Some d) → rep s' w' → frame s s' → moves nowhere ts d w w' → wp K Q s') →
  wp (checked ← lift (check_legs ctx skip legs b);
      match checked with
      | inr err => refuse err
      | inl _ =>
          deductErr ← deduct_legs msg ctx skip legs;
          match deductErr with
          | Some err => refuse err
          | None => K
          end
      end) Q s.
Proof.
  intros Hr (Hlegs & Hc & _ & _ & Hld) Hp HF HT. simpl in *. subst legs.
  destruct (check_settles msg ctx Hts skip xs w b Hc Hld Hp) as (r & Hck & Hs).
  apply wp_bind, (wp_lift _ r); [done|]. destruct r as [b'|err]; [|by apply HF].
  destruct Hs as [d Hd]. apply wp_bind.
  eapply wp_mono; [apply (deduct_settles msg ctx Hts skip xs w d w s Hd (moves_refl _ _ _) Hr Hp)|].
  intros r s' [-> (w' & Hr' & Hf' & Hm')]. by apply (HT d s' w').
Qed.

Definition made_multi (w : World) (p : MakeMultiSwapParam) : MultiSwap :=
  multiSwap_of msg p (msg_Hash msg) (notation w from).

Definition make_multi_spec (w : World) (B : books) (p : MakeMultiSwapParam) (o : outcome_of_multi) : Prop :=
  let multi := bk_multi B in
  let xs := from_param p (default 0 (mm_SwapSize p)) in
  match bk_swaps B !! msg_Hash msg with
  | Some _ => o = refused (New "Swap already exist") multi
  | None =>
      match MakeMultiSwapParam_Check p ts with
      | Some err => o = refused err multi
      | None =>
          match bad_target B (mm_ToAssetID p) with
          | Some err => o = refused err multi
          | None =>
              if decide (Exists is_usan xs) then o = refused usan multi
              else ∃ paid, settles msg ctx w xs paid ∧
                match paid with
                | Some d => o = mkMultiOutcome None (dadd d dzero) (<[msg_Hash msg := made_multi w p]> multi)
                | None => ∃ err, o = refused err multi
                end
          end
      end
  end.

Lemma handleMakeMultiSwap_spec s w B param :
  let p := (Unmarshal MakeMultiSwapParam (fp_Data param)).1 in
  rep s w → shelves ids N w B → are_bytes (fp_Data param) →
  msg_Hash msg ∈ ids → Forall (fun h => h ∈ ids) (mm_ToAssetID p) → bk_multi B !! msg_Hash msg = None →
  fits_store (P := multiSwapPersist) ids N (msg_Hash msg) (made_multi w p) →
  wp (handleMakeMultiSwap msg ctx param)
     (fun r s' => ∃ o, make_multi_spec w B p o ∧ multi_yields s w B o r s') s.
Proof.
  intros p Hr HB Hb Hid Hto Hnew Hfit. unfold handleMakeMultiSwap, make_multi_spec. fold p from ts.
  apply wp_bind, (wp_GetNotation w); [done|]. intros s1 Hr1 Hf1.
  apply wp_bind, (wp_GetSwap ids N w B); [done..|]. intros s2 Hr2 Hf2.
  destruct (bk_swaps B !! msg_Hash msg) as [sw|]; [by apply wp_refuse; try solve_frame|]. intros _.
  destruct (MakeMultiSwapParam_Check p ts) as [err|] eqn:Ec; [by apply wp_refuse; try solve_frame|].
  apply wp_bind. eapply wp_mono; [by apply (wp_makeMulti_targets w B)|]. intros r s3 (-> & Hr3 & Hf3).
  destruct (bad_target B (mm_ToAssetID p)) as [err|]; [by apply wp_refuse; try solve_frame|].
  destruct (MakeMultiSwapParam_Check_None msg ctx Hts _ Hb Ec) as (Hsh & size & Hsize & Hpos & Hpay). fold p in Hsh, Hsize, Hpay.
  rewrite Hsize. change (default 0 (Some size)) with size. apply wp_bind, (wp_non_nil _ size); [done|].
  apply wp_bind. eapply wp_mono; [apply (wp_makeMulti_legs msg ctx p size ltac:(lia) Hsh Hpay _ 0 w s3); [done|done|by split|]|].
  { by intros h [? ?]. }
  intros r s4 (Hr4 & Hf4 & Hres). rewrite drop_0 in Hres. destruct r as [[legs b]|err].
  2: { destruct Hres as [-> Hex]. destruct (decide _); [|done]. by apply wp_refuse; try solve_frame. }
  destruct Hres as [Hleg Hnu]. destruct (decide _) as [Hex|_]; [by apply Forall_Exists_neg in Hnu|].
  apply (wp_check_deduct false (failure ctx MakeMultiSwapFunc (LMakeMultiSwap p)) w s4 (from_param p size));
    [done..| |].
  { intros err Hs. apply wp_refuse; [done|solve_frame|done|]. exists None. eauto. }
  intros d s5 w5 Hs Hr5 Hf5 Hm5. apply wp_bind.
  eapply wp_mono; [apply (wp_AddMultiSwap w5 B s5); [done|by apply (shelves_moves ctx _ _ _ _ _ _ Hm5)|done|done]|].
  intros r s6 [-> (w6 & Hr6 & Hf6 & Hm6 & HB6)].
  eapply (wp_settled _ w w5 w6 w6); [done|solve_frame|exact Hm5|exact Hm6|apply moves_refl|exact HB6|].
  exists (Some d). done.
Qed.

(** *** Recalling and taking *)

Record multi_ok (id : Hash) (mu : MultiSwap) (size : Z) : Prop := {
  mk_id : mu_ID mu = id;
  mk_shaped : multi_shaped mu;
  mk_size : mu_SwapSize mu = Some size;
  mk_nonneg : 0 <= size;
}.
(** The open multi-swaps are filed under their identifiers and in shape. *)
Definition multis_ok (m : gmap Z MultiSwap) : Prop :=
  ∀ id mu, m !! id = Some mu → ∃ size, multi_ok id mu size.

Definition multi_size (mu : MultiSwap) : Z := default 0 (mu_SwapSize mu).

Definition recall_multi_spec (B : books) (p : RecallMultiSwapParam) (o : outcome_of_multi) : Prop :=
  let multi := bk_multi B in
  match multi !! rm_SwapID p with
  | None => o = refused (New "Swap not found") multi
  | Some mu =>
      if negb (mu_Owner mu =? from) then o = refused (New "Must be swap onwer can recall") multi
      else o = mkMultiOutcome None (dadd dzero (gains from (from_sides mu (multi_size mu))))
                 (delete (rm_SwapID p) multi)
  end.

Lemma handleRecallMultiSwap_spec s w B param :
  let p := (Unmarshal RecallMultiSwapParam (fp_Data param)).1 in
  rep s w → shelves ids N w B → multis_ok (bk_multi B) → rm_SwapID p ∈ ids →
  wp (handleRecallMultiSwap msg ctx param)
     (fun r s' => ∃ o, recall_multi_spec B p o ∧ multi_yields s w B o r s') s.
Proof.
  intros p Hr HB Hk Hid. unfold handleRecallMultiSwap, recall_multi_spec. fold p from.
  apply wp_bind, (wp_GetMultiSwap w B); [done..|]. intros s1 Hr1 Hf1.
  destruct (bk_multi B !! rm_SwapID p) as [mu|] eqn:Es; [|intros _; by apply wp_refuse].
  destruct (mu_Owner mu =? from); simpl; [|by apply wp_refuse].
  destruct (Hk _ _ Es) as (size & [Hmid Hsh Hsize Hpos]). rewrite Hmid.
  unfold multi_size. rewrite Hsize. change (default 0 (Some size)) with size.
  apply wp_bind. eapply wp_mono; [by apply (wp_RemoveMultiSwap w B s1 _ mu)|].
  intros r s2 [-> (w2 & Hr2 & Hf2 & Hm2 & HB2)].
  apply wp_bind, (wp_recallMulti_credit msg ctx Hts mu size Hsize Hpos Hsh _ 0 w2); [done|done|].
  rewrite drop_0. intros s3 w3 Hr3 Hf3 Hm3.
  eapply (wp_settled _ w w w2 w3); [done|solve_frame|apply moves_refl|exact Hm2|exact Hm3|exact HB2|done].
Qed.

Definition after_take_multi (mu : MultiSwap) (id : Hash) (n : Z) (multi : gmap Z MultiSwap) : gmap Z MultiSwap :=
  if bigCmp (multi_size mu) n =? 0 then delete id multi
  else <[id := set_MultiSwapSize (Some (multi_size mu - n)) mu]> multi.

Definition take_multi_spec (w : World) (B : books) (p : TakeMultiSwapParam) (o : outcome_of_multi) : Prop :=
  let multi := bk_multi B in
  let n := default 0 (tm_Size p) in
  match multi !! tm_SwapID p with
  | None => o = refused (New "Swap not found") multi
  | Some mu =>
      match TakeMultiSwapParam_Check p mu ts with
      | Some err => o = refused err multi
      | None =>
          ∃ paid, settles msg ctx w (to_sides mu n) paid ∧
            match paid with
            | Some d =>
                o = mkMultiOutcome None
                      (dadd d (dadd (gains (mu_Owner mu) (to_sides mu n)) (gains from (from_sides mu n))))
                      (after_take_multi mu (tm_SwapID p) n multi)
            | None => ∃ err, o = refused err multi
            end
      end
  end.

Lemma TakeMultiSwapParam_Check_None p mu :
  TakeMultiSwapParam_Check p mu ts = None →
  ∃ n m, tm_Size p = Some n ∧ mu_SwapSize mu = Some m ∧ 0 < n <= m.
Proof.
  unfold TakeMultiSwapParam_Check. destruct (size_ok _ _) eqn:E; [|done]. intros _. by apply size_ok_true.
Qed.

Lemma wp_takeMulti_record w B s mu id m n :
  rep s w → shelves ids N w B → bk_multi B !! id = Some mu → multi_ok id mu m →
  fits_store (P := multiSwapPersist) ids N id (set_MultiSwapSize (Some (m - n)) mu) →
  wp (takeMulti_record mu m n)
     (fun r s' => r.2 = None ∧ multi_stored s w B (after_take_multi mu id n (bk_multi B)) s') s.
Proof.
  intros Hr HB Hmu [<- _ Hm _] Hfit. unfold takeMulti_record, after_take_multi, multi_size. rewrite Hm.
  change (default 0 (Some m)) with m. destruct (bigCmp m n =? 0); apply wp_bind.
  - eapply wp_mono; [apply (wp_RemoveMultiSwap w B s _ mu); [done|done|apply Hfit|done]|].
    intros r s' [-> Hs]. by apply wp_ret.
  - eapply wp_mono; [by apply (wp_UpdateMultiSwap w B s)|]. intros r s' [-> Hs]. by apply wp_ret.
Qed.

Lemma takeMulti_settle_spec s w B p mu m n :
  rep s w → shelves ids N w B → bk_multi B !! tm_SwapID p = Some mu → multi_ok (tm_SwapID p) mu m →
  roomy mu → 0 < n <= m →
  fits_store (P := multiSwapPersist) ids N (tm_SwapID p) (set_MultiSwapSize (Some (m - n)) mu) →
  wp (takeMulti_settle msg ctx p mu m n)
     (fun r s' => ∃ o, (∃ paid, settles msg ctx w (to_sides mu n) paid ∧
        match paid with
        | Some d =>
            o = mkMultiOutcome None
                  (dadd d (dadd (gains (mu_Owner mu) (to_sides mu n)) (gains from (from_sides mu n))))
                  (after_take_multi mu (tm_SwapID p) n (bk_multi B))
        | None => ∃ err, o = refused err (bk_multi B)
        end) ∧ multi_yields s w B o r s') s.
Proof.
  intros Hr HB Hmu Hok Hroom Hn Hfit. pose proof (mk_shaped _ _ _ Hok) as Hsh. unfold takeMulti_settle.
  apply wp_bind. eapply wp_mono; [by apply (wp_takeMulti_from msg ctx mu n ltac:(lia) Hsh _ 0)|].
  rewrite drop_0. intros fromLegs s0 [-> ->].
  apply wp_bind. eapply wp_mono; [apply (wp_takeMulti_to msg ctx mu n ltac:(lia) Hsh Hroom _ 0 w); [done|done|by split|]|].
  { by intros h [? ?]. }
  rewrite drop_0. intros [toLegs b] s1 (Hr1 & Hf1 & Hleg).
  assert (Hp : Forall (payable ctx true) (to_sides mu n)).
  { eapply Forall_impl; [apply (sides_ok n); [lia|apply Hsh]|]. intros x Hx. split; [done|by left]. }
  apply (wp_check_deduct true (failure ctx TakeMultiSwapFunc (LTakeMultiSwap p)) w s1 (to_sides mu n)); [done..| |].
  { intros err Hs. apply wp_refuse; [done|done|done|]. exists None. eauto. }
  intros d s2 w2 Hs Hr2 Hf2 Hm2. apply wp_bind.
  eapply wp_mono; [apply (wp_takeMulti_record w2 B s2 mu (tm_SwapID p) m n);
    [done|by apply (shelves_moves ctx _ _ _ _ _ _ Hm2)|done..]|].
  intros [deleted r] s3 [Heq (w3 & Hr3 & Hf3 & Hm3 & HB3)]. simpl in Heq. subst r.
  destruct Hleg as (Htl & _). simpl in Htl. subst toLegs.
  apply wp_bind, (wp_credit_legs msg ctx Hts w3); [done|apply (sides_ok n); [lia|apply Hsh]|].
  intros s4 w4 Hr4 Hf4 Hm4.
  apply wp_bind, (wp_credit_legs msg ctx Hts w4); [done|apply (sides_ok n); [lia|apply Hsh]|].
  intros s5 w5 Hr5 Hf5 Hm5.
  eapply (wp_settled _ w w2 w3 w5);
    [done|solve_frame|exact Hm2|exact Hm3|exact (moves_trans _ _ _ _ _ _ _ Hm4 Hm5)|exact HB3|].
  exists (Some d). done.
Qed.

Lemma handleTakeMultiSwap_spec s w B param :
  let p := (Unmarshal TakeMultiSwapParam (fp_Data param)).1 in
  rep s w → shelves ids N w B → multis_ok (bk_multi B) → tm_SwapID p ∈ ids →
  (∀ mu, bk_multi B !! tm_SwapID p = Some mu → TakeMultiSwapParam_Check p mu ts = None → roomy mu ∧
     fits_store (P := multiSwapPersist) ids N (tm_SwapID p)
       (set_MultiSwapSize (Some (multi_size mu - default 0 (tm_Size p))) mu)) →
  wp (handleTakeMultiSwap msg ctx param)
     (fun r s' => ∃ o, take_multi_spec w B p o ∧ multi_yields s w B o r s') s.
Proof.
  intros p Hr HB Hk Hid Hmu. unfold handleTakeMultiSwap, take_multi_spec. fold p ts.
  apply wp_bind, (wp_GetMultiSwap w B); [done..|]. intros s1 Hr1 Hf1.
  destruct (bk_multi B !! tm_SwapID p) as [mu|] eqn:Es; [|intros _; by apply wp_refuse].
  destruct (TakeMultiSwapParam_Check p mu ts) as [err|] eqn:Ec; [by apply wp_refuse|].
  destruct (Hmu mu eq_refl Ec) as [Hroom Hfit]. destruct (Hk _ _ Es) as (size & Hok).
  destruct (TakeMultiSwapParam_Check_None p mu Ec) as (n & m & Hn & Hm & Hle).
  assert (size = m) as -> by (pose proof (mk_size _ _ _ Hok); congruence).
  unfold multi_size in *. rewrite Hn, Hm in *. cbn [default] in *. unfold id in *.
  apply wp_bind, (wp_non_nil _ n); [done|]. apply wp_bind, (wp_non_nil _ m); [done|].
  eapply wp_mono; [by apply (takeMulti_settle_spec s1 w B p mu m n)|].
  intros r s' (o & Ho & [He (w' & Hr' & Hf' & Hm' & HB')]). exists o. split; [done|].
  split; [done|]. exists w'. split_and!; [done|solve_frame|done|done].
Qed.
End calls.
