(* ===== verification/MultiSwapLedger.v ===== *)
(** * Multi-swaps and the supply of an asset

    Making, recalling and taking a multi-swap leave what the accounts can spend
    at a time together with what the open swaps and multi-swaps hold in escrow
    for it. A check of the funds that succeeds is followed by a deduction that
    succeeds; taking a multi-swap whose time locks the arrays have no room for
    panics. *)

From stdpp Require Import base list gmap strings.
From Stdlib Require Import ZArith Lia.
From S2P Require Import Prelude Bytes Keccak KeccakFacts TimeLock TimeLockFacts Ticket FsnTypes.
From S2P Require Import Rlp RlpFacts Codec CallParams StateDB StateRecords StateFacts StateRevert.
From S2P Require Import StateInterface StateWorld Ledger RecordFacts RecordStore StateTransition.
From S2P Require Import CallFacts SwapFacts SwapLedger MultiSwap MultiSwapFacts MultiSwapCalls.

Definition multi_holds (h : Hash) (t : Z) (mu : MultiSwap) : Z := owed (from_sides mu (multi_size mu)) h t.
Definition total_supply (w : World) (l : list Address) (B : books) (h : Hash) (t : Z) : Z :=
  supply w l (bk_swaps B) h t + tally (multi_holds h t) (bk_multi B).

Lemma owed_split assets starts ends amounts n m h t :
  owed (sides assets starts ends amounts m) h t =
    owed (sides assets starts ends amounts n) h t + owed (sides assets starts ends amounts (m - n)) h t.
Proof.
  revert starts ends amounts. induction assets as [|a assets IH]; intros [|s starts] [|e ends] [|[v|] amounts];
    try done. unfold owed in *. simpl. rewrite IH. destruct (a =? h); [|lia].
  unfold side_stake. simpl. replace (v * m) with (v * n + v * (m - n)) by lia. rewrite spend_stake_add. lia.
Qed.

Section conservation.
Context `{SP : StateParams} `{TP : TransitionParams}.
Context (msg : Message) (ctx : Context).
Let from := msg_From msg.
Let ts := ParentTime ctx.
Context (l : list Address) (h : Hash) (t : Z).
Hypothesis Hl : NoDup l.
Hypothesis Hfrom : from ∈ l.
Hypothesis Ht : ts <= t <= TimeLockForever.

Lemma dsum_gains a xs : a ∈ l → dsum l (gains a xs) h t = owed xs h t.
Proof.
  intros Ha. induction xs as [|x xs IH]; simpl; [apply dsum_zero|]. autorewrite with dsum.
  rewrite IH, dsum_gain by done. done.
Qed.

Lemma dsum_settles w xs d : settles msg ctx w xs (Some d) → dsum l d h t = - owed xs h t.
Proof.
  intros Hs. transitivity (dsum l (dneg (gain from h (coins (owed xs h t)))) h t).
  - apply sumZ_ext. intros a _. pose proof (settles_spend msg ctx w xs _ d a h t Hs eq_refl Ht) as Hd.
    unfold spend in Hd. rewrite Hd. unfold dneg, gain, coins. fold from. rewrite Z.eqb_refl.
    destruct (from =? a); simpl; lia.
  - autorewrite with dsum. rewrite dsum_gain, Z.eqb_refl by done. unfold spend, coins. lia.
Qed.

Definition multi_balanced (B : books) (o : outcome_of_multi) : Prop :=
  dsum l (mo_delta o) h t + tally (multi_holds h t) (mo_multi o) = tally (multi_holds h t) (bk_multi B).

Lemma refused_balanced B err : multi_balanced B (refused err (bk_multi B)).
Proof. unfold multi_balanced. simpl. rewrite dsum_zero. lia. Qed.

Lemma make_multi_balanced w B p o :
  bk_multi B !! msg_Hash msg = None → make_multi_spec msg ctx w B p o → multi_balanced B o.
Proof.
  intros Hnew. unfold make_multi_spec.
  destruct (bk_swaps B !! msg_Hash msg); [intros ->; apply refused_balanced|].
  destruct (MakeMultiSwapParam_Check p _); [intros ->; apply refused_balanced|].
  destruct (bad_target B _); [intros ->; apply refused_balanced|].
  destruct (decide _); [intros ->; apply refused_balanced|].
  intros ([d|] & Hs & Ho); [|destruct Ho as [err ->]; apply refused_balanced]. subst o.
  unfold multi_balanced. cbn [mo_delta mo_multi]. rewrite tally_insert by done. autorewrite with dsum.
  rewrite (dsum_settles w _ d Hs). unfold multi_holds, multi_size, made_multi. simpl. unfold from_sides, from_param.
  simpl. lia.
Qed.

Lemma recall_multi_balanced B p o : recall_multi_spec msg B p o → multi_balanced B o.
Proof.
  unfold recall_multi_spec. fold from.
  destruct (bk_multi B !! rm_SwapID p) as [mu|] eqn:Es; [|intros ->; apply refused_balanced].
  destruct (negb _); intros ->; [apply refused_balanced|]. unfold multi_balanced. cbn [mo_delta mo_multi].
  rewrite (tally_delete _ _ _ mu) by done. autorewrite with dsum. rewrite dsum_gains by done.
  unfold multi_holds. lia.
Qed.

Lemma take_multi_balanced w B p o :
  (∀ mu, bk_multi B !! tm_SwapID p = Some mu → mu_Owner mu ∈ l) →
  take_multi_spec msg ctx w B p o → multi_balanced B o.
Proof.
  intros Hmu. unfold take_multi_spec. fold from.
  destruct (bk_multi B !! tm_SwapID p) as [mu|] eqn:Es; [|intros ->; apply refused_balanced].
  destruct (TakeMultiSwapParam_Check p mu _); [intros ->; apply refused_balanced|].
  intros ([d|] & Hs & Ho); [|destruct Ho as [err ->]; apply refused_balanced]. subst o.
  unfold multi_balanced. cbn [mo_delta mo_multi]. set (n := default 0 (tm_Size p)) in *.
  autorewrite with dsum. rewrite (dsum_settles w _ d Hs), !dsum_gains by auto.
  assert (Hold : multi_holds h t mu = owed (from_sides mu n) h t + owed (from_sides mu (multi_size mu - n)) h t)
    by apply owed_split.
  unfold after_take_multi. destruct (Z.eqb_spec (bigCmp (multi_size mu) n) 0) as [Hz|Hz].
  - apply (proj1 (bigCmp_eq _ _)) in Hz. rewrite (tally_delete _ _ _ mu) by done.
    unfold multi_holds. rewrite Hz. lia.
  - rewrite (tally_update _ _ _ mu) by done. rewrite Hold.
    change (multi_holds h t (set_MultiSwapSize (Some (multi_size mu - n)) mu))
      with (owed (from_sides mu (multi_size mu - n)) h t). lia.
Qed.
End conservation.

(** ** The shape of the open multi-swaps *)

Section shape.
Context `{SP : StateParams} `{TP : TransitionParams}.
Context (msg : Message) (ctx : Context).
Hypothesis Hts : 0 < ParentTime ctx < two64.

Lemma multis_ok_insert m id mu size : multis_ok m → multi_ok id mu size → multis_ok (<[id := mu]> m).
Proof. intros Hm Hmu id' mu'. rewrite lookup_insert_Some. intros [[<- <-]|[_ ?]]; [eauto|by apply Hm]. Qed.
Lemma multis_ok_delete m id : multis_ok m → multis_ok (delete id m).
Proof. intros Hm id' mu'. rewrite lookup_delete_Some. intros [_ ?]. by apply Hm. Qed.

Lemma make_multi_shape w B param o :
  let p := (Unmarshal MakeMultiSwapParam (fp_Data param)).1 in
  are_bytes (fp_Data param) → multis_ok (bk_multi B) → make_multi_spec msg ctx w B p o →
  multis_ok (mo_multi o).
Proof.
  intros p Hb Hk. unfold make_multi_spec. destruct (bk_swaps B !! msg_Hash msg); [by intros ->|].
  destruct (MakeMultiSwapParam_Check p _) eqn:Ec; [by intros ->|].
  destruct (bad_target B _); [by intros ->|]. destruct (decide _); [by intros ->|].
  intros ([d|] & _ & Ho); [subst o|by destruct Ho as [err ->]].
  destruct (MakeMultiSwapParam_Check_None msg ctx Hts _ Hb Ec) as (Hsh & size & Hsize & Hpos & _).
  apply (multis_ok_insert _ _ _ size); [done|]. split; [done|done|done|lia].
Qed.

Lemma recall_multi_shape B p o :
  multis_ok (bk_multi B) → recall_multi_spec msg B p o → multis_ok (mo_multi o).
Proof.
  intros Hk. unfold recall_multi_spec. destruct (bk_multi B !! rm_SwapID p); [|by intros ->].
  destruct (negb _); intros ->; [done|]. by apply multis_ok_delete.
Qed.

Lemma take_multi_shape w B p o :
  multis_ok (bk_multi B) → take_multi_spec msg ctx w B p o → multis_ok (mo_multi o).
Proof.
  intros Hk. unfold take_multi_spec. destruct (bk_multi B !! tm_SwapID p) as [mu|] eqn:Es; [|by intros ->].
  destruct (TakeMultiSwapParam_Check p mu _) eqn:Ec; [by intros ->|].
  intros ([d|] & _ & Ho); [subst o|by destruct Ho as [err ->]].
  destruct (TakeMultiSwapParam_Check_None ctx p mu Ec) as (n & m & Hn & Hm & Hle).
  destruct (Hk _ _ Es) as (size & [Hid Hsh Hsize Hpos]). simpl. unfold after_take_multi, multi_size.
  rewrite Hn, Hm. cbn [default]. unfold id. destruct (_ =? 0); [by apply multis_ok_delete|].
  apply (multis_ok_insert _ _ _ (m - n)); [done|]. split; [done|done|done|lia].
Qed.
End shape.

(** ** The calls *)

Definition run_multi_call `{SP : StateParams} `{TP : TransitionParams} (msg : Message) (ctx : Context)
    (c : swap_call) (param : FSNCallParam) : M (option error) :=
  match c with
  | CallMake => handleMakeMultiSwap msg ctx param
  | CallRecall => handleRecallMultiSwap msg ctx param
  | CallTake => handleTakeMultiSwap msg ctx param
  end.

(** The identifiers in the call are in use, what it records fits, a new
    multi-swap has a new identifier, and there is room for the time locks of the
    one that is taken, when the checks let it be taken. *)
Definition multi_call_ok (msg : Message) (ctx : Context) (ids : list Hash) (N : nat) (w : World) (B : books)
    (l : list Address) (c : swap_call) (param : FSNCallParam) : Prop :=
  match c with
  | CallMake =>
      let p := (Unmarshal MakeMultiSwapParam (fp_Data param)).1 in
      msg_Hash msg ∈ ids ∧ Forall (fun h => h ∈ ids) (mm_ToAssetID p) ∧ bk_multi B !! msg_Hash msg = None ∧
      fits_store (P := multiSwapPersist) ids N (msg_Hash msg) (made_multi msg w p)
  | CallRecall => rm_SwapID (Unmarshal RecallMultiSwapParam (fp_Data param)).1 ∈ ids
  | CallTake =>
      let p := (Unmarshal TakeMultiSwapParam (fp_Data param)).1 in
      tm_SwapID p ∈ ids ∧
      ∀ mu, bk_multi B !! tm_SwapID p = Some mu → mu_Owner mu ∈ l ∧
        (TakeMultiSwapParam_Check p mu (ParentTime ctx) = None → roomy mu ∧
        fits_store (P := multiSwapPersist) ids N (tm_SwapID p)
          (set_MultiSwapSize (Some (multi_size mu - default 0 (tm_Size p))) mu))
  end.

(** C6: the multi-swap calls conserve the supply of every asset. Whichever of
    making, recalling and taking a multi-swap is called, and whether it succeeds or
    is refused, the call returns, without panic, and what the accounts can spend
    at a time from the block on together with what the open swaps and
    multi-swaps hold in escrow for that time is the same before and after; and
    the open multi-swaps stay in shape: filed under their identifiers, their
    arrays as long as each other. The open multi-swaps are those that the state
    stores under the identifiers [ids], and no others: [shelves] determines them; the
    accounts are any that the sender and the owner are among. [multi_call_ok] says
    what else is relied on: the record fits the store, a multi-swap that is made has
    a new identifier, and one that passes the checks to be taken is [roomy], that
    is, it asks for no time lock at an index beyond the array of the assets it
    offers; otherwise the call panics, as is shown below. *)
Theorem multi_swap_calls_conserve_supply `{SP : StateParams} `{TP : TransitionParams} (msg : Message)
    (ctx : Context) (ids : list Hash) (N : nat) (l : list Address) (c : swap_call)
    (param : FSNCallParam) (s : StateDB) (w : World) (B : books) :
  0 < ParentTime ctx < two64 → collision_free ids N → NoDup l → msg_From msg ∈ l →
  are_bytes (fp_Data param) → rep s w → shelves ids N w B → multis_ok (bk_multi B) →
  multi_call_ok msg ctx ids N w B l c param →
  wp (run_multi_call msg ctx c param)
     (fun r s' => ∃ w' m', rep s' w' ∧ shelves ids N w' (with_multi B m') ∧ multis_ok m' ∧
        ∀ h t, ParentTime ctx <= t <= TimeLockForever →
          total_supply w' l (with_multi B m') h t = total_supply w l B h t) s.
Proof.
  intros Hts Hfree Hl Hfrom Hb Hr HB Hk Hok.
  assert (Hfin : ∀ o r s', multi_yields ctx ids N s w B o r s' → multis_ok (mo_multi o) →
    (∀ h t, ParentTime ctx <= t <= TimeLockForever → multi_balanced l h t B o) →
    ∃ w' m', rep s' w' ∧ shelves ids N w' (with_multi B m') ∧ multis_ok m' ∧
      ∀ h t, ParentTime ctx <= t <= TimeLockForever →
        total_supply w' l (with_multi B m') h t = total_supply w l B h t).
  { intros o r s' [_ (w' & Hr' & _ & Hm & HB')] Hshape Hbal. exists w', (mo_multi o). split_and!; [done..|].
    intros h t Ht. specialize (Hbal h t Ht). unfold multi_balanced in Hbal. unfold total_supply, supply.
    rewrite (spendable_sum _ _ _ _ _ _ _ _ Hm (proj1 Ht)). simpl. lia. }
  destruct c; simpl in Hok |- *.
  - destruct Hok as (H1 & H2 & H3 & H4).
    eapply wp_mono; [by apply (handleMakeMultiSwap_spec msg ctx Hts ids N Hfree s w B)|].
    intros r s' (o & Ho & Hy). apply (Hfin o r s' Hy); [by eapply make_multi_shape|].
    intros h t Ht. by eapply make_multi_balanced.
  - eapply wp_mono; [by apply (handleRecallMultiSwap_spec msg ctx Hts ids N Hfree s w B)|].
    intros r s' (o & Ho & Hy). apply (Hfin o r s' Hy); [by eapply recall_multi_shape|].
    intros h t Ht. by eapply recall_multi_balanced.
  - destruct Hok as (H1 & H2).
    eapply wp_mono; [apply (handleTakeMultiSwap_spec msg ctx Hts ids N Hfree s w B); try done;
      intros mu Hmu; by destruct (H2 mu Hmu)|].
    intros r s' (o & Ho & Hy). apply (Hfin o r s' Hy); [by eapply take_multi_shape|].
    intros h t Ht. eapply (take_multi_balanced msg ctx); try done. intros mu Hmu. by apply H2.
Qed.

(** C33: a check of the funds that succeeds is followed by a deduction that
    succeeds. On copies of the balances the check of the sides of a multi-swap
    returns, without panic. When it finds the funds, the deduction from the
    state meets none of its own errors, so that it does not stop half-way, and
    moves what paying the sides in turn moves; when it does not, one of the sides
    cannot be paid after the ones before it. *)
Theorem multi_swap_checked_funds_suffice `{SP : StateParams} `{TP : TransitionParams} (msg : Message)
    (ctx : Context) (skip : bool) (xs : list side) (b : MultiSwap.book) (s : StateDB) (w : World) :
  0 < ParentTime ctx < two64 → rep s w → copies msg ctx w b →
  Forall (fun x => loaded b (sd_asset x)) xs → Forall (payable ctx skip) xs →
  ∃ r, check_legs ctx skip (map (side_leg ctx) xs) b = Done r ∧
    match r with
    | inl _ => ∃ d, settles msg ctx w xs (Some d) ∧
        wp (deduct_legs msg ctx skip (map (side_leg ctx) xs))
           (fun err s' => err = None ∧ ∃ w', rep s' w' ∧ frame s s' ∧
              moves nowhere (ParentTime ctx) d w w') s
    | inr _ => settles msg ctx w xs None
    end.
Proof.
  intros Hts Hr Hc Hld Hp. destruct (check_settles msg ctx Hts skip xs w b Hc Hld Hp) as (r & Hck & Hs).
  exists r. split; [done|]. destruct r; [|done]. destruct Hs as [d Hd]. exists d. split; [done|].
  by apply (deduct_settles msg ctx Hts skip xs w d w s Hd (moves_refl _ _ _)).
Qed.

(** ** Taking a multi-swap that has no room *)

Section panic.
Context `{SP : StateParams} `{TP : TransitionParams}.
Context (msg : Message) (ctx : Context).
Let ts := ParentTime ctx.
Hypothesis Hts : 0 < ts < two64.

Lemma bind_panics {A B} (m : M A) (k : A → M B) e s :
  wp m (fun a s' => k a s' = Panic e) s → (a ← m; k a) s = Panic e.
Proof. intros (a & s' & Hm & Hk). unfold mbind, M_bind. by rewrite Hm. Qed.

(** A time lock at an index from [j] on is beyond the array. *)
Lemma takeMulti_to_panics mu size j x : 0 <= size → multi_shaped mu →
  to_sides mu size !! j = Some x → side_isAsset x = false → (length (mu_FromAssetID mu) <= j)%nat →
  ∀ n i w s b, (i + n = length (mu_ToAssetID mu))%nat → (i <= j)%nat →
  rep s w → copies msg ctx w b → aligned b →
  takeMulti_to msg ctx mu size (length (mu_FromAssetID mu)) n i b s = Panic "index out of range".
Proof.
  intros Hsz [_ Hsh] Hx Ha Hj n. unfold to_sides in *.
  pose proof (lookup_lt_Some _ _ _ Hx) as Hlt. rewrite sides_length in Hlt by done.
  induction n as [|n IH]; intros i w s b Hi Hij Hr Hc Hal; [lia|]. cbn [takeMulti_to].
  destruct (drop_sides size _ _ _ _ n i Hsz Hsh Hi) as (y & _ & He & Hy).
  apply bind_panics, (wp_at_index _ _ (sd_asset y)); [apply He|].
  apply bind_panics, (wp_load_book msg ctx w); [done..|]. intros s1 b1 Hr1 Hf1 Hc1 Hal1 _ _.
  apply bind_panics, (wp_leg_at ctx _ _ _ _ _ _ y); [done|]. cbn [side_leg leg_useAsset].
  destruct (negb (side_isAsset y) && _) eqn:E; [done|].
  assert (i ≠ j) as Hne.
  { intros ->. assert (y = x) as -> by congruence. rewrite Ha in E. simpl in E.
    apply Nat.leb_gt in E. lia. }
  unfold mbind, M_bind. by rewrite (IH (S i) w s1 b1); [|lia..|done|done|done].
Qed.
End panic.

(** C37: a multi-swap that gives more time locks than it offers sides cannot be
    taken. When an open multi-swap asks for a time lock at an index that the
    array of the offered assets does not have, a call to take it that passes the
    checks panics with an index out of range, whoever takes it and whatever the
    taker holds. *)
Theorem take_multi_swap_panics `{SP : StateParams} `{TP : TransitionParams} (msg : Message) (ctx : Context)
    (ids : list Hash) (N : nat) (param : FSNCallParam) (s : StateDB) (w : World) (B : books)
    (mu : MultiSwap) (size : Z) (i : nat) (start end_ : Z) :
  let p := (Unmarshal TakeMultiSwapParam (fp_Data param)).1 in
  0 < ParentTime ctx < two64 → rep s w → shelves ids N w B → tm_SwapID p ∈ ids →
  bk_multi B !! tm_SwapID p = Some mu → multi_ok (tm_SwapID p) mu size →
  TakeMultiSwapParam_Check p mu (ParentTime ctx) = None →
  mu_ToStartTime mu !! i = Some start → mu_ToEndTime mu !! i = Some end_ →
  isAsset start end_ = false → (length (mu_FromAssetID mu) <= i)%nat →
  handleTakeMultiSwap msg ctx param s = Panic "index out of range".
Proof.
  intros p Hts Hr HB Hid Hmu [_ Hsh Hsize Hpos] Hck Hst Hen Ha Hi.
  destruct (TakeMultiSwapParam_Check_None ctx p mu Hck) as (n & m & Hn & Hm & Hle).
  unfold handleTakeMultiSwap. fold p.
  apply bind_panics, (wp_GetMultiSwap ids N w B); [done..|]. intros s1 Hr1 Hf1. rewrite Hmu, Hck.
  apply bind_panics, (wp_non_nil _ n); [done|]. apply bind_panics, (wp_non_nil _ m); [done|].
  unfold takeMulti_settle. apply bind_panics.
  eapply wp_mono; [by apply (wp_takeMulti_from msg ctx mu n ltac:(lia) Hsh _ 0)|]. intros ? ? [-> ->].
  pose proof (lookup_lt_Some _ _ _ Hst) as Hlt. rewrite (sh_starts _ _ _ _ (proj2 Hsh)) in Hlt.
  destruct (sides_lookup n _ _ _ _ i ltac:(lia) (proj2 Hsh) Hlt) as (x & Hx & [_ Hs He _ _]).
  unfold mbind at 1, M_bind.
  rewrite (takeMulti_to_panics msg ctx mu n i x ltac:(lia) Hsh Hx) with (w := w); try done; try lia.
  - unfold side_isAsset. congruence.
  - by intros h [? ?].
Qed.

(** ** Examples *)

(** Account 5 offers lots of 3 FSN for time locks on 4 of the asset until the
    time 200, one for each lot or, in the other multi-swap, two. *)
Definition ex_multi : MultiSwap :=
  mkMultiSwap 1 5 [SystemAssetID] [0] [TimeLockForever] [Some 3] [77] [0] [200] [Some 4] (Some 2) []
    (Some 9) "d" 0.
Definition ex_greedy : MultiSwap :=
  mkMultiSwap 77 5 [SystemAssetID] [0] [TimeLockForever] [Some 3] [77; 77] [0; 0] [200; 200]
    [Some 4; Some 4] (Some 2) [] (Some 9) "d" 0.
Definition ex_multi_market : StateDB :=
  after (ex_setup [OpAddMultiSwap ex_multi; OpAddMultiSwap ex_greedy]) ex_state.
Definition ex_multi_books : books := mkBooks ∅ ∅ {[77 := ex_greedy; 1 := ex_multi]}.

Lemma ex_multi_sized n : n = 1 ∨ n = 2 → ∀ d, writable 6 (mkMultiSwapPersist d (set_MultiSwapSize (Some n) ex_multi)).
Proof. intros [->| ->] [|]; fits_by. Qed.
Lemma ex_greedy_fits : ∀ d, writable 6 (mkMultiSwapPersist d ex_greedy).
Proof. intros [|]; fits_by. Qed.
Lemma ex_multi_market_ok : ∃ w, rep ex_multi_market w ∧ shelves ex_ids 6 w ex_multi_books.
Proof.
  destruct (ex_setup_ok [OpAddMultiSwap ex_multi; OpAddMultiSwap ex_greedy]) as (w & Hr & _ & HB).
  - pose proof (ex_multi_sized 2 ltac:(by right)). pose proof ex_greedy_fits. unfold ex_ids.
    repeat apply Forall_cons_2; [| |apply Forall_nil_2]; (split; [set_solver|done]).
  - exists w. split; [done|exact HB].
Qed.

Lemma ex_multi_shaped : multi_ok 1 ex_multi 2 ∧ multi_ok 77 ex_greedy 2.
Proof.
  split; (split; [done| |done|done]); split; (split; [done..| |]);
    repeat split; repeat constructor; try done; eexists; (split; [done|lia]).
Qed.
Lemma ex_multis_ok : multis_ok (bk_multi ex_multi_books).
Proof.
  intros id mu. simpl. rewrite lookup_insert_Some, lookup_singleton_Some.
  intros [[<- <-]|[_ [<- <-]]]; exists 2; apply ex_multi_shaped.
Qed.

Definition ex_take_multi (id : Hash) : FSNCallParam := ex_call TakeMultiSwapFunc (mkTakeMultiSwapParam id (Some 1)).
Lemma ex_take_multi_param id :
  id = 1 ∨ id = 77 →
  (Unmarshal TakeMultiSwapParam (fp_Data (ex_take_multi id))).1 = mkTakeMultiSwapParam id (Some 1) ∧
  are_bytes (fp_Data (ex_take_multi id)).
Proof.
  intros [->| ->]; (split; [vm_compute; reflexivity|]; apply (bool_decide_unpack _); vm_compute; exact I).
Qed.

Lemma multi_swap_calls_conserve_supply_witness :
  ∃ w, rep ex_multi_market w ∧
  wp (run_multi_call (ex_msg 6 2) (ex_ctx 100) CallTake (ex_take_multi 1))
     (fun r s' => ∃ w' m', rep s' w' ∧ shelves ex_ids 6 w' (with_multi ex_multi_books m') ∧ multis_ok m' ∧
        ∀ h t, 100 <= t <= TimeLockForever →
          total_supply w' [5; 6] (with_multi ex_multi_books m') h t =
          total_supply w [5; 6] ex_multi_books h t) ex_multi_market.
Proof.
  destruct ex_multi_market_ok as (w & Hr & HB). exists w. split; [done|].
  apply (multi_swap_calls_conserve_supply (ex_msg 6 2) (ex_ctx 100) ex_ids 6 [5; 6] CallTake (ex_take_multi 1)
    ex_multi_market w ex_multi_books).
  - done.
  - exact ex_collision_free.
  - apply (bool_decide_unpack _). vm_compute. exact I.
  - simpl. set_solver.
  - by apply ex_take_multi_param; left.
  - done.
  - done.
  - exact ex_multis_ok.
  - unfold multi_call_ok. rewrite (proj1 (ex_take_multi_param 1 ltac:(by left))).
    split; [simpl; unfold ex_ids; set_solver|]. intros mu Hmu.
    assert (Some ex_multi = Some mu) as [= <-] by (rewrite <- Hmu; reflexivity).
    split; [set_solver|]. intros _. split.
    + intros [|i] st en; [intros; simpl; lia|]. by destruct i.
    + split; [simpl; unfold ex_ids; set_solver|]. apply (ex_multi_sized 1). by left.
Defined.

Lemma take_multi_swap_panics_witness :
  MakeMultiSwapParam_Check (mkMakeMultiSwapParam [SystemAssetID] [0] [TimeLockForever] [Some 3] [77; 77] [0; 0]
    [200; 200] [Some 4; Some 4] (Some 2) [] (Some 9) "d") 100 = None ∧
  handleTakeMultiSwap (ex_msg 6 2) (ex_ctx 100) (ex_take_multi 77) ex_multi_market = Panic "index out of range".
Proof.
  split; [reflexivity|].
  pose proof (proj1 (ex_take_multi_param 77 ltac:(by right))) as Hp.
  destruct ex_multi_market_ok as (w & Hr & HB).
  apply (take_multi_swap_panics (ex_msg 6 2) (ex_ctx 100) ex_ids 6 (ex_take_multi 77) ex_multi_market w
    ex_multi_books ex_greedy 2 1 0 200); rewrite ?Hp.
  - done.
  - exact Hr.
  - exact HB.
  - unfold ex_ids. set_solver.
  - reflexivity.
  - apply ex_multi_shaped.
  - reflexivity.
  - reflexivity.
  - reflexivity.
  - reflexivity.
  - simpl. lia.
Defined.

(** Account 5 of [ex_funded] pays 40 as a time lock until the time 200, for which
    it turns the asset into a time lock, and 50 as an asset. *)
Definition ex_sides : list side := [mkSide 77 0 200 40; mkSide 77 0 TimeLockForever 50].
Definition ex_copies : MultiSwap.book :=
  mkBook {[77 := 100]} {[77 := mkTimeLock [mkItem 150 TimeLockForever 30]]}.

Lemma multi_swap_checked_funds_suffice_witness :
  ∃ d, settles (ex_msg 5 1) (ex_ctx 100) (world ex_funded) ex_sides (Some d) ∧
    wp (deduct_legs (ex_msg 5 1) (ex_ctx 100) false (map (side_leg (ex_ctx 100)) ex_sides))
       (fun err s' => err = None ∧ ∃ w', rep s' w' ∧ frame ex_funded s' ∧
          moves nowhere 100 d (world ex_funded) w') ex_funded.
Proof.
  assert (∃ r, check_legs (ex_ctx 100) false (map (side_leg (ex_ctx 100)) ex_sides) ex_copies = Done (inl r)) as [b' Hck]
    by (eexists; vm_compute; reflexivity).
  destruct (multi_swap_checked_funds_suffice (ex_msg 5 1) (ex_ctx 100) false ex_sides ex_copies ex_funded
    (world ex_funded)) as (r & Hr & Hs).
  - done.
  - exact ex_funded_rep.
  - split; simpl; intros h x; rewrite lookup_singleton_Some; intros [<- <-]; [vm_compute; reflexivity|].
    split; [by repeat split|]. intros t Ht. f_equal; vm_compute; reflexivity.
  - repeat constructor; eexists; reflexivity.
  - apply Forall_cons_2; [|apply Forall_cons_2; [|apply Forall_nil_2]];
      (split; [by repeat split|]); right; [right|left]; by repeat split.
  - rewrite Hck in Hr. injection Hr as <-. exact Hs.
Defined.
