(* ===== verification/TransitionDb.v ===== *)
(** * Applying a message (core/state_transition.go)

    The dispatch of the Fusion calls, and [TransitionDb]: the nonce, the gas that
    is bought and given back, the call, and the fees of the miner. *)

From stdpp Require Import base list gmap strings.
From Stdlib Require Import ZArith Lia.
From S2P Require Import Prelude Bytes Keccak KeccakFacts TimeLock Ticket FsnTypes Rlp Codec.
From S2P Require Import StateDB StateRecords StateTransition MultiSwap.

Record Applied := mkApplied {
  ap_ret : bytes;
  ap_usedGas : Z;
  ap_failed : bool;
}.

(** The message with the gas pool, which is shared with the caller and is left
    as it is when the message fails. *)
Abbreviation applied := (Z * (Applied + error))%type.

Section transition_db.
Context `{SP : StateParams} `{TP : TransitionParams}.
Context (msg : Message) (ctx : Context).

Definition handleFsnCall (param : FSNCallParam) : M (option error) :=
  let f := Func param in
  if f =? GenNotationFunc then handleGenNotation msg ctx param
  else if f =? GenAssetFunc then handleGenAsset msg ctx param
  else if f =? SendAssetFunc then handleSendAsset msg ctx param
  else if f =? TimeLockFunc then handleTimeLock msg ctx param
  else if f =? BuyTicketFunc then handleBuyTicket msg ctx param
  else if f =? AssetValueChangeFunc then handleAssetValueChange msg ctx param
  else if f =? EmptyFunc then mret (Some (New "Unsupported"))
  else if (f =? MakeSwapFunc) || (f =? MakeSwapFuncExt) then handleMakeSwap msg ctx param
  else if f =? RecallSwapFunc then handleRecallSwap msg ctx param
  else if (f =? TakeSwapFunc) || (f =? TakeSwapFuncExt) then handleTakeSwap msg ctx param
  else if f =? RecallMultiSwapFunc then handleRecallMultiSwap msg ctx param
  else if f =? MakeMultiSwapFunc then handleMakeMultiSwap msg ctx param
  else if f =? TakeMultiSwapFunc then handleTakeMultiSwap msg ctx param
  else mret (Some (New "Unsupported")).

(** ** Gas *)

Definition useGas (st : StateTransition) (amount : Z) : StateTransition + error :=
  if st_gas st <? amount then inr ErrOutOfGas
  else inl (mkST (st_gp st) (st_gas st - amount) (st_initialGas st) (st_fee st)).

Definition gasUsed (st : StateTransition) : Z := u64 (st_initialGas st - st_gas st).

Definition buyGas (st : StateTransition) : M (StateTransition + error) :=
  let mgval := msg_Gas msg * msg_GasPrice msg + st_fee st in
  c ← balanceCmp SystemAssetID (msg_From msg) mgval;
  if c <? 0 then mret (inr errInsufficientBalanceForGas)
  else
    match SubGas (st_gp st) (msg_Gas msg) with
    | inr err => mret (inr err)
    | inl gp =>
        _ ← SubBalance (msg_From msg) SystemAssetID mgval;
        mret (inl (mkST gp (u64 (st_gas st + msg_Gas msg)) (msg_Gas msg) (st_fee st)))
    end.

Definition preCheck (st : StateTransition) : M (StateTransition + error) :=
  err ← (if msg_CheckNonce msg then
           nonce ← GetNonce (msg_From msg);
           mret (if nonce <? msg_Nonce msg then Some ErrNonceTooHigh
                 else if msg_Nonce msg <? nonce then Some ErrNonceTooLow
                 else None)
         else mret None);
  match err with
  | Some err => mret (inr err)
  | None => buyGas st
  end.

Definition refundGas (st : StateTransition) : M StateTransition :=
  counter ← GetRefund;
  let refund := if counter <? gasUsed st / 2 then counter else gasUsed st / 2 in
  let gas := u64 (st_gas st + refund) in
  _ ← AddBalance (msg_From msg) SystemAssetID (gas * msg_GasPrice msg);
  gp ← lift (AddGas (st_gp st) gas);
  mret (mkST gp gas (st_initialGas st) (st_fee st)).

(** ** TransitionDb *)

(** What follows the call: the error of the EVM, the refund and the fees. *)
Definition settle (st : StateTransition) (ret : bytes) (vmerr : option error) : M applied :=
  if bool_decide (vmerr = Some ErrInsufficientBalance)
  then mret (st_gp st, inr ErrInsufficientBalance)
  else
    st ← refundGas st;
    let minerFees := gasUsed st * msg_GasPrice msg in
    let minerFees := if 0 <? bigSign (st_fee st) then minerFees + st_fee st else minerFees in
    _ ← AddBalance (Coinbase ctx) SystemAssetID minerFees;
    mret (st_gp st,
          inl (mkApplied ret (gasUsed st) (match vmerr with Some _ => true | None => false end))).

Definition set_gas (gas : Z) (st : StateTransition) : StateTransition :=
  mkST (st_gp st) gas (st_initialGas st) (st_fee st).

(** The Fusion call of a message, when it is one: the error makes the message
    fail while a block is mined, and is ignored otherwise. *)
Definition fsnCall (fsnCallParam : option FSNCallParam) : M (option error) :=
  match fsnCallParam with
  | None => mret None
  | Some param =>
      errc ← handleFsnCall param;
      mret (if MixDigest ctx =? 0 then errc else None)
  end.

Definition execute (st : StateTransition) (fsnCallParam : option FSNCallParam) : M applied :=
  match msg_To msg with
  | None =>
      r ← evm_Create ctx (msg_From msg) (msg_Data msg) (st_gas st) (msg_Value msg);
      let '(ret, gas, vmerr) := r in settle (set_gas gas st) ret vmerr
  | Some to =>
      nonce ← GetNonce (msg_From msg);
      _ ← SetNonce (msg_From msg) (u64 (nonce + 1));
      errc ← fsnCall fsnCallParam;
      match errc with
      | Some errc => mret (st_gp st, inr errc)
      | None =>
          r ← evm_Call ctx (msg_From msg) to (msg_Data msg) (st_gas st) (msg_Value msg);
          let '(ret, gas, vmerr) := r in settle (set_gas gas st) ret vmerr
      end
  end.

Definition TransitionDb (gp : Z) : M applied :=
  let fsnCallParam :=
    if IsFsnCall (msg_To msg) then Some (Unmarshal FSNCallParam (msg_Data msg)).1 else None in
  let fee := match fsnCallParam with Some p => GetFsnCallFee (msg_To msg) (Func p) | None => 0 end in
  r ← preCheck (mkST gp 0 0 fee);
  match r with
  | inr err => mret (gp, inr err)
  | inl st =>
      let contractCreation := match msg_To msg with None => true | Some _ => false end in
      match IntrinsicGas (msg_Data msg) contractCreation (IsHomestead ctx) with
      | inr err => mret (st_gp st, inr err)
      | inl gas =>
          match useGas st gas with
          | inr err => mret (st_gp st, inr err)
          | inl st => execute st fsnCallParam
          end
      end
  end.
End transition_db.
