(* ===== verification/GasFacts.v ===== *)
(** * Gas and fees of a message

    [IntrinsicGas] computes its sum without overflow. [TransitionDb] buys the
    gas of a message, and what is left goes back: the sender pays for the gas
    that was used and the fee, the miner gets it, and the gas pool of the block
    loses what was used. The EVM is a parameter, with what its documentation
    says as hypotheses: it leaves no more gas than it was given. *)

From stdpp Require Import base list gmap strings.
From Stdlib Require Import ZArith Lia.
From S2P Require Import Prelude Bytes Keccak KeccakFacts TimeLock TimeLockFacts Ticket FsnTypes.
From S2P Require Import Rlp RlpFacts Codec CallParams StateDB StateRecords StateFacts StateRevert.
From S2P Require Import StateInterface StateWorld Ledger RecordFacts RecordStore StateTransition.
From S2P Require Import CallFacts MultiSwap TransitionDb.

(** ** Intrinsic gas *)

Definition baseGas (contractCreation homestead : bool) : Z :=
  if contractCreation && homestead then 53000 else 21000.
(** The sum of yellow paper, in unbounded integers. *)
Definition exactGas (data : bytes) (contractCreation homestead : bool) : Z :=
  baseGas contractCreation homestead + sumZ (fun b => if b =? 0 then 4 else 68) data.

Lemma nonzero_bytes_sum data :
  0 <= nonzero_bytes data <= Z.of_nat (length data) ∧
  sumZ (fun b => if b =? 0 then 4 else 68) data =
    68 * nonzero_bytes data + 4 * (Z.of_nat (length data) - nonzero_bytes data).
Proof.
  induction data as [|b data IH]; cbn [nonzero_bytes sumZ length]; [lia|].
  rewrite Nat2Z.inj_succ. destruct (b =? 0); lia.
Qed.

Lemma IntrinsicGas_exact data cc hs :
  IntrinsicGas data cc hs =
    if exactGas data cc hs <? two64 then inl (exactGas data cc hs) else inr ErrOutOfGas.
Proof.
  destruct (nonzero_bytes_sum data) as [Hnz Hsum]. unfold IntrinsicGas, exactGas. rewrite Hsum.
  set (nz := nonzero_bytes data) in *. set (n := Z.of_nat (length data)) in *.
  change (if cc && hs then TxGasContractCreation else TxGas) with (baseGas cc hs).
  assert (Hb : 0 <= baseGas cc hs <= 53000) by (unfold baseGas; destruct (cc && hs); lia).
  set (g := baseGas cc hs) in *. unfold max_u64, two64, TxDataNonZeroGas, TxDataZeroGas.
  destruct (Nat.ltb_spec 0 (length data)).
  2: { assert (n = 0) by (unfold n; lia). destruct (Z.ltb_spec (g + (68 * nz + 4 * (n - nz))) 18446744073709551616); [f_equal; lia|lia]. }
  destruct (Z.ltb_spec ((18446744073709551615 - g) / 68) nz) as [Hov|Hok].
  - destruct (Z.ltb_spec (g + (68 * nz + 4 * (n - nz))) 18446744073709551616); [|done].
    exfalso. Z.div_mod_to_equations. lia.
  - assert (g + nz * 68 < 18446744073709551616) by (Z.div_mod_to_equations; lia).
    rewrite (u64_id (g + nz * 68)) by (unfold is_u64, two64; lia).
    destruct (Z.ltb_spec ((18446744073709551615 - (g + nz * 68)) / 4) (n - nz)) as [Hov|Hok'].
    + destruct (Z.ltb_spec (g + (68 * nz + 4 * (n - nz))) 18446744073709551616); [|done].
      exfalso. Z.div_mod_to_equations. lia.
    + assert (g + nz * 68 + (n - nz) * 4 < 18446744073709551616) by (Z.div_mod_to_equations; lia).
      rewrite u64_id by (unfold is_u64, two64; lia).
      destruct (Z.ltb_spec (g + (68 * nz + 4 * (n - nz))) 18446744073709551616); [f_equal; lia|lia].
Qed.

(** C38: [IntrinsicGas] is the exact sum of the base gas and the gas of the
    bytes when that fits in 64 bits, and the out of gas error otherwise: the
    guards before the multiplications are tight, no wrap-around is returned and
    no sum that fits is refused. *)
Theorem intrinsic_gas_exact (data : bytes) (contractCreation homestead : bool) :
  IntrinsicGas data contractCreation homestead =
    if exactGas data contractCreation homestead <? two64
    then inl (exactGas data contractCreation homestead) else inr ErrOutOfGas.
Proof. apply IntrinsicGas_exact. Qed.

(** ** Applying a message *)

(** What the documentation of [evm.Call] and [evm.Create] promises: they return,
    leave a state, and no more gas than they were given. *)
Definition evm_ok (gas : Z) (m : M (bytes * Z * option error)) : Prop :=
  ∀ s w, rep s w → is_u64 (refund s) →
    wp m (fun r s' => 0 <= r.1.2 <= gas ∧ is_u64 (refund s') ∧ ∃ w', rep s' w') s.

(** The call handler of the message returns. *)
Definition call_ok `{SP : StateParams} `{TP : TransitionParams} (msg : Message) (ctx : Context)
    (param : option FSNCallParam) : Prop :=
  ∀ s w, rep s w → is_u64 (refund s) →
    wp (fsnCall msg ctx param) (fun _ s' => is_u64 (refund s') ∧ ∃ w', rep s' w') s.

Section transition.
Context `{SP : StateParams} `{TP : TransitionParams}.
Context (msg : Message) (ctx : Context) (gp : Z).

Let from := msg_From msg.
Let G := msg_Gas msg.
Let price := msg_GasPrice msg.

Definition theCall : option FSNCallParam :=
  if IsFsnCall (msg_To msg) then Some (Unmarshal FSNCallParam (msg_Data msg)).1 else None.
Definition theFee : Z :=
  match theCall with Some p => GetFsnCallFee (msg_To msg) (Func p) | None => 0 end.
Definition isCreation : bool := match msg_To msg with None => true | Some _ => false end.

Lemma theFee_nonneg : 0 <= theFee.
Proof.
  unfold theFee, GetFsnCallFee. destruct theCall; [|done]. by repeat case_match.
Qed.

(** The error of the checks that come before anything is changed. *)
Definition rejection (w : World) : option error :=
  if msg_CheckNonce msg && (nonce w from <? msg_Nonce msg) then Some ErrNonceTooHigh
  else if msg_CheckNonce msg && (msg_Nonce msg <? nonce w from) then Some ErrNonceTooLow
  else if bal w from SystemAssetID <? G * price + theFee then Some errInsufficientBalanceForGas
  else if gp <? G then Some ErrGasLimitReached
  else None.

(** The gas of the data and of the kind of message. *)
Definition intrinsic : Z := exactGas (msg_Data msg) isCreation (IsHomestead ctx).

(** What runs between the purchase of the gas and the settlement: the creation of a
    contract, or the next nonce, the Fusion call and the call of the EVM. *)
Definition body (gas : Z) : M ((bytes * Z * option error) + error) :=
  match msg_To msg with
  | None => r ← evm_Create ctx from (msg_Data msg) gas (msg_Value msg); mret (inl r)
  | Some to =>
      nonce ← GetNonce from;
      _ ← SetNonce from (u64 (nonce + 1));
      errc ← fsnCall msg ctx theCall;
      match errc with
      | Some errc => mret (inr errc)
      | None => r ← evm_Call ctx from to (msg_Data msg) gas (msg_Value msg); mret (inl r)
      end
  end.

(** The gas used, of [gasLeft] left by the body and a refund counter. *)
Definition usedGas (gasLeft counter : Z) : Z := G - (gasLeft + Z.min counter ((G - gasLeft) / 2)).

(** The purchase takes the price of all the gas and the fee from the sender; the
    settlement gives the sender the price of what was not used, and the miner the
    rest. Nothing else of any account changes. *)
Definition bought (s s1 : StateDB) : Prop :=
  frame s s1 ∧
  moves nowhere 0 (dneg (gain from SystemAssetID (coins (G * price + theFee)))) (world s) (world s1).
Definition settled (used : Z) (s2 s' : StateDB) : Prop :=
  frame s2 s' ∧
  moves nowhere 0 (dadd (gain from SystemAssetID (coins ((G - used) * price)))
                        (gain (Coinbase ctx) SystemAssetID (coins (used * price + theFee)))) (world s2) (world s').

(** What becomes of the message. [s1] is the state with the gas bought, in which
    the body runs, and [s2] the one that the body leaves. *)
Inductive transition (s : StateDB) : applied → StateDB → Prop :=
| rejects err s' :
    rejection (world s) = Some err → frame s s' → world s' ≡ world s → transition s (gp, inr err) s'
| out_of_gas s1 :
    rejection (world s) = None → bought s s1 → G < intrinsic → transition s (gp - G, inr ErrOutOfGas) s1
| refuses err s1 s2 :
    rejection (world s) = None → bought s s1 → intrinsic <= G →
    body (G - intrinsic) s1 = Done (inr err, s2) → transition s (gp - G, inr err) s2
| underfunded ret gasLeft s1 s2 :
    rejection (world s) = None → bought s s1 → intrinsic <= G →
    body (G - intrinsic) s1 = Done (inl (ret, gasLeft, Some ErrInsufficientBalance), s2) →
    transition s (gp - G, inr ErrInsufficientBalance) s2
| applies ret gasLeft vmerr s1 s2 s' :
    let used := usedGas gasLeft (refund s2) in
    rejection (world s) = None → bought s s1 → intrinsic <= G →
    body (G - intrinsic) s1 = Done (inl (ret, gasLeft, vmerr), s2) → vmerr ≠ Some ErrInsufficientBalance →
    0 <= used <= G → intrinsic <= 2 * used → settled used s2 s' →
    transition s (gp - used, inl (mkApplied ret used (match vmerr with Some _ => true | None => false end))) s'.

Hypothesis Hgp : is_u64 gp.
Hypothesis HG : is_u64 G.

Lemma preCheck_spec s w (Q : StateTransition + error → StateDB → Prop) :
  rep s w →
  (∀ err s', rejection w = Some err → rep s' w → frame s s' → Q (inr err) s') →
  (∀ s' w', rejection w = None → rep s' w' → frame s s' →
     moves nowhere 0 (dneg (gain from SystemAssetID (coins (G * price + theFee)))) w w' →
     Q (inl (mkST (gp - G) G G theFee)) s') →
  wp (preCheck msg (mkST gp 0 0 theFee)) Q s.
Proof.
  intros Hr HF HT. unfold preCheck. fold from.
  set (en := if msg_CheckNonce msg && (nonce w from <? msg_Nonce msg) then Some ErrNonceTooHigh
    else if msg_CheckNonce msg && (msg_Nonce msg <? nonce w from) then Some ErrNonceTooLow else None).
  assert (Hbuy : ∀ s1, rep s1 w → frame s s1 → en = None → wp (buyGas msg (mkST gp 0 0 theFee)) Q s1).
  { intros s1 Hr1 Hf1 He. unfold rejection in HF, HT. fold en in HF, HT.
    unfold buyGas. cbn [st_fee st_gp st_gas]. fold from G price. apply wp_bind, (wp_balanceCmp w); [done|].
    intros c s2 Hr2 Hf2 Hc. unfold en in He.
    destruct (msg_CheckNonce msg && (nonce w from <? msg_Nonce msg)); [done|].
    destruct (msg_CheckNonce msg && (msg_Nonce msg <? nonce w from)); [done|].
    destruct (Z.ltb_spec c 0), (Z.ltb_spec (bal w from SystemAssetID) (G * price + theFee)); try lia.
    { apply wp_ret, HF; [done|done|solve_frame]. }
    unfold SubGas. destruct (gp <? G); [apply wp_ret, HF; [done|done|solve_frame]|].
    apply wp_bind, (wp_SubBalance_moves nowhere 0 w); [done|]. intros s3 w3 Hr3 Hf3 Hm3. apply wp_ret.
    rewrite Z.add_0_l, u64_id by done. apply (HT s3 w3); [done|done|solve_frame|done]. }
  apply wp_bind. destruct (msg_CheckNonce msg) eqn:Ecn.
  - apply wp_bind, (wp_GetNonce w); [done|]. intros s1 Hr1 Hf1. apply wp_ret.
    destruct (nonce w from <? msg_Nonce msg) eqn:E1; [apply wp_ret, HF; [|done|done]; unfold rejection; by rewrite Ecn, E1|].
    destruct (msg_Nonce msg <? nonce w from) eqn:E2; [apply wp_ret, HF; [|done|done]; unfold rejection; by rewrite Ecn, E1, E2|].
    by apply Hbuy.
  - apply wp_ret. by apply Hbuy.
Qed.

Lemma usedGas_bounds left counter :
  0 <= left <= G → 0 <= counter → 0 <= usedGas left counter ∧ G - left <= 2 * usedGas left counter ∧
  usedGas left counter <= G - left.
Proof. intros Hl Hc. unfold usedGas. Z.div_mod_to_equations. lia. Qed.

Lemma moves_world P ts d w w' s' : moves P ts d w w' → rep s' w' → moves P ts d w (world s').
Proof.
  intros Hm [_ Hw]. eapply moves_proper; [|exact (moves_trans _ _ _ _ _ _ _ Hm (moves_equiv P ts w' (world s') (symmetry Hw)))].
  intros a h k. unfold dadd, dzero. lia.
Qed.

Lemma settle_spec s left ret vmerr (Q : applied → StateDB → Prop) :
  wf_db s → G <= gp → 0 <= left <= G → is_u64 (refund s) →
  (vmerr = Some ErrInsufficientBalance → Q (gp - G, inr ErrInsufficientBalance) s) →
  (let used := usedGas left (refund s) in
   ∀ s', vmerr ≠ Some ErrInsufficientBalance → wf_db s' → settled used s s' →
     Q (gp - used, inl (mkApplied ret used (match vmerr with Some _ => true | None => false end))) s') →
  wp (settle msg ctx (mkST (gp - G) left G theFee) ret vmerr) Q s.
Proof.
  intros Hwf HGgp Hleft Hc HF HT. unfold settle. case_bool_decide as Hv; [by apply wp_ret, HF|].
  unfold is_u64, two64 in Hc, Hgp, HG. assert (Hr : rep s (world s)) by by split.
  set (used := usedGas left (refund s)) in *.
  destruct (usedGas_bounds left (refund s) Hleft ltac:(lia)) as (Hu & Hu2 & Hu3). fold used in Hu, Hu2, Hu3.
  assert (Hgas : left + Z.min (refund s) ((G - left) / 2) = G - used) by (unfold used, usedGas; lia).
  assert (Hrefund : (if refund s <? u64 (G - left) / 2 then refund s else u64 (G - left) / 2)
                    = Z.min (refund s) ((G - left) / 2)).
  { rewrite u64_id by (unfold is_u64, two64; lia). destruct (Z.ltb_spec (refund s) ((G - left) / 2)); lia. }
  apply wp_bind. unfold refundGas, gasUsed. cbn [st_gas st_gp st_initialGas st_fee].
  apply wp_bind, wp_GetRefund. cbv zeta. rewrite Hrefund, Hgas.
  rewrite (u64_id (G - used)) by (unfold is_u64, two64; lia). fold from price.
  apply wp_bind, (wp_AddBalance_moves nowhere 0 (world s)); [done|]. intros s1 w1 Hr1 Hf1 Hm1.
  apply wp_bind, (wp_lift _ (gp - used)).
  { unfold AddGas, max_u64. destruct (Z.ltb_spec (18446744073709551615 - (G - used)) (gp - G)); [lia|f_equal; lia]. }
  apply wp_ret. cbn [st_gas st_gp st_initialGas st_fee].
  replace (G - (G - used)) with used by lia. rewrite (u64_id used) by (unfold is_u64, two64; lia).
  apply wp_bind, (wp_AddBalance_moves nowhere 0 w1); [done|]. intros s2 w2 Hr2 Hf2 Hm2. apply wp_ret.
  apply (HT s2); [done|apply Hr2|]. split; [solve_frame|]. apply (moves_world _ _ _ _ w2); [|done].
  eapply moves_proper; [|exact (moves_trans _ _ _ _ _ _ _ Hm1 Hm2)].
  pose proof theFee_nonneg. intros a h k. unfold dadd. do 3 f_equal. unfold bigSign.
  destruct (Z.ltb_spec 0 (Z.sgn theFee)); lia.
Qed.

Hypothesis Hcreate : ∀ gas, 0 <= gas → evm_ok gas (evm_Create ctx from (msg_Data msg) gas (msg_Value msg)).
Hypothesis Hcall : ∀ to gas, msg_To msg = Some to → 0 <= gas →
  evm_ok gas (evm_Call ctx from to (msg_Data msg) gas (msg_Value msg)).
Hypothesis Hfsn : call_ok msg ctx theCall.

(** [execute] is the body and the settlement. *)
Lemma execute_body st s :
  execute msg ctx st theCall s =
    (r ← body (st_gas st);
     match r with
     | inl (ret, gasLeft, vmerr) => settle msg ctx (set_gas gasLeft st) ret vmerr
     | inr err => mret (st_gp st, inr err)
     end) s.
Proof.
  unfold execute, body. destruct (msg_To msg) as [to|]; fold from; unfold mbind, M_bind, mret, M_ret.
  - destruct (GetNonce from s) as [[n s1]| |]; [cbn [obind fst snd]|done..].
    destruct (SetNonce _ _ s1) as [[[] s2]| |]; [cbn [obind fst snd]|done..].
    destruct (fsnCall _ _ _ s2) as [[[err|] s3]| |]; [done|cbn [obind fst snd]|done..].
    by destruct (evm_Call _ _ _ _ _ _ s3) as [[[[ret g] v] s4]| |].
  - by destruct (evm_Create _ _ _ _ _ s) as [[[[ret g] v] s1]| |].
Qed.

(** The body returns, with no more gas than it was given. *)
Lemma body_ok s w gas :
  rep s w → is_u64 (refund s) → 0 <= gas →
  wp (body gas) (fun r s' => wf_db s' ∧ is_u64 (refund s') ∧
    match r with inl r => 0 <= r.1.2 <= gas | inr _ => True end) s.
Proof.
  intros Hr Hc Hgas. unfold body. destruct (msg_To msg) as [to|] eqn:Eto.
  - apply wp_bind, (wp_GetNonce w); [done|]. intros s1 Hr1 Hf1.
    apply wp_bind, (wp_SetNonce w); [done|]. intros s2 Hr2 Hf2. apply wp_bind.
    assert (Hc2 : is_u64 (refund s2)) by (by rewrite (fr_refund _ _ Hf2), (fr_refund _ _ Hf1)).
    eapply wp_mono; [by apply (Hfsn s2 _ Hr2)|]. intros [errc|] s3 (Hc3 & w3 & Hr3).
    + apply wp_ret. split_and!; [apply Hr3|apply Hc3..|done].
    + apply wp_bind. eapply wp_mono; [by apply (Hcall to gas eq_refl Hgas s3 w3)|].
      intros r s4 (Hl & Hc4 & w4 & Hr4). apply wp_ret. split_and!; [apply Hr4|apply Hc4..|lia|lia].
  - apply wp_bind. eapply wp_mono; [by apply (Hcreate gas Hgas s w)|].
    intros r s1 (Hl & Hc1 & w1 & Hr1). apply wp_ret. split_and!; [apply Hr1|apply Hc1..|lia|lia].
Qed.

Lemma TransitionDb_spec s :
  wf_db s → is_u64 (refund s) →
  wp (TransitionDb msg ctx gp) (fun r s' => wf_db s' ∧ transition s r s') s.
Proof.
  intros Hwf Hc. unfold TransitionDb. fold theCall. fold theFee. fold isCreation.
  apply wp_bind, (preCheck_spec s (world s)); [by split| |].
  { intros err s1 Hrej Hr1 Hf1. apply wp_ret. split; [apply Hr1|]. constructor; [done|done|apply Hr1]. }
  intros s1 w1 Hrej Hr1 Hf1 Hm1.
  assert (HGgp : G <= gp).
  { unfold rejection in Hrej. destruct (_ && _); [done|]. destruct (_ && _); [done|]. destruct (_ <? _); [done|].
    destruct (Z.ltb_spec gp G); [done|lia]. }
  assert (Hb : bought s s1) by (split; [done|by apply (moves_world _ _ _ _ w1)]).
  assert (Hout : G < intrinsic → wf_db s1 ∧ transition s (gp - G, inr ErrOutOfGas) s1).
  { intros Hlt. split; [apply Hr1|by constructor]. }
  rewrite IntrinsicGas_exact. fold intrinsic. assert (Hig : 0 <= intrinsic).
  { unfold intrinsic, exactGas, baseGas. pose proof (nonzero_bytes_sum (msg_Data msg)). destruct (_ && _); lia. }
  destruct (Z.ltb_spec intrinsic two64); [|apply wp_ret, Hout; unfold is_u64 in HG; lia].
  unfold useGas. cbn [st_gas st_gp st_initialGas st_fee].
  destruct (Z.ltb_spec G intrinsic); [by apply wp_ret, Hout|].
  unfold wp. rewrite execute_body. cbn [st_gas st_gp].
  assert (Hc1 : is_u64 (refund s1)) by (by rewrite (fr_refund _ _ Hf1)).
  destruct (body_ok s1 w1 (G - intrinsic) Hr1 Hc1 ltac:(lia)) as (r & s2 & Hrun & Hwf2 & Hc2 & Hl).
  unfold mbind, M_bind. rewrite Hrun. cbn [obind fst snd].
  destruct r as [[[ret gasLeft] vmerr]|err]; [cbn [fst snd] in Hl|].
  2: { eexists _, s2. split; [done|]. split; [done|]. by apply (refuses s err s1 s2). }
  destruct (usedGas_bounds gasLeft (refund s2) ltac:(lia) ltac:(unfold is_u64 in Hc2; lia)) as (Hu & Hu2 & Hu3).
  apply (settle_spec s2 gasLeft ret vmerr); [done|done|lia|done| |].
  - intros ->. split; [done|]. by apply (underfunded s ret gasLeft s1 s2).
  - intros used s' Hv Hwf' Hs. split; [done|].
    apply (applies s ret gasLeft vmerr s1 s2 s'); try done; unfold used in *; lia.
Qed.
End transition.


(** ** Examples *)

(** Sending 40 of the asset 77, with gas to spare. *)
Definition ex_send_msg : Message :=
  mkMessage 5 (Some FSNCallAddress) 2 100000 0 0 true (encoded ex_send) 1.
Definition ex_gas_fund : M unit := _ ← ex_fund; AddBalance 5 SystemAssetID 1000000.
Definition ex_gas_state : StateDB := after ex_gas_fund ex_state.

Lemma ex_gas_rep : rep ex_gas_state (world ex_gas_state).
Proof.
  assert (H : wp ex_gas_fund (fun _ s => wf_db s) ex_state); [|by destruct (wp_after _ _ _ H)].
  apply wp_bind, wp_bind, (wp_AddBalance_moves nowhere 0 (world ex_state)); [split; [apply wf_ex_state|done]|].
  intros s1 w1 Hr1 _ _. apply (wp_AddTimeLock_moves nowhere 100 w1); [done|by repeat split|].
  intros s2 w2 Hr2 _ _. apply (wp_AddBalance_moves nowhere 0 w2); [done|]. by intros s3 w3 [? _] _ _.
Qed.

Lemma ex_send_theCall : theCall ex_send_msg = Some ex_send.
Proof. vm_compute. reflexivity. Qed.

Lemma ex_send_call_ok : call_ok ex_send_msg (ex_ctx 100) (theCall ex_send_msg).
Proof.
  intros s w Hr Hc. rewrite ex_send_theCall. apply wp_bind. change (handleFsnCall ex_send_msg (ex_ctx 100) ex_send)
    with (handleSendAsset ex_send_msg (ex_ctx 100) ex_send).
  eapply wp_mono; [by apply handleSendAsset_spec|]. intros r s' [_ (w' & Hr' & Hf & _)]. apply wp_ret.
  rewrite (fr_refund _ _ Hf). eauto.
Qed.

