(* ===== verification/TrieEncoding.v ===== *)
(** * Keys of the Merkle Patricia trie (trie/encoding.go)

    A key is used in three encodings: the bytes of the key, one nibble per byte
    with a terminator 16 (hex), and two nibbles per byte behind a flag (compact,
    the form in which a node is stored). *)

From stdpp Require Import base list gmap strings.
From Stdlib Require Import ZArith Lia.
From S2P Require Import Prelude Bytes.

Definition hasTerm (s : bytes) : bool :=
  match last s with Some b => b =? 16 | None => false end.

Fixpoint nibbles_of (str : bytes) : bytes :=
  match str with
  | [] => []
  | b :: str => b / 16 :: b mod 16 :: nibbles_of str
  end.
Definition keybytesToHex (str : bytes) : bytes := nibbles_of str ++ [16].

(** A byte shifted left loses the bits above the eighth. *)
Definition nibble_pair (hi lo : Z) : Z := Z.lor (Z.shiftl hi 4 mod 256) lo.

Fixpoint decodeNibbles (nibbles : bytes) : outcome bytes :=
  match nibbles with
  | [] => Done []
  | hi :: lo :: nibbles => let? bs := decodeNibbles nibbles in Done (nibble_pair hi lo :: bs)
  | [_] => Panic "index out of range"
  end.

Definition hexToCompact (hex : bytes) : outcome bytes :=
  let terminator := if hasTerm hex then 1 else 0 in
  let hex := if hasTerm hex then take (length hex - 1) hex else hex in
  let flag := Z.shiftl terminator 5 in
  let? r := if Nat.odd (length hex)
            then match hex with
                 | x :: hex => Done (Z.lor (Z.lor flag 16) x, hex)
                 | [] => Panic "index out of range"
                 end
            else Done (flag, hex) in
  let? bs := decodeNibbles r.2 in
  Done (r.1 :: bs).

Definition compactToHex (compact : bytes) : outcome bytes :=
  let base := keybytesToHex compact in
  match base with
  | [] => Panic "index out of range"
  | b0 :: _ =>
      let base := if b0 <? 2 then take (length base - 1) base else base in
      let chop := Z.to_nat (2 - Z.land b0 1) in
      if (length base <? chop)%nat then Panic "slice bounds out of range" else Done (drop chop base)
  end.

Definition hexToKeybytes (hex : bytes) : outcome bytes :=
  let hex := if hasTerm hex then take (length hex - 1) hex else hex in
  if Nat.odd (length hex) then Panic "can't convert hex key of odd length" else decodeNibbles hex.

(** The length of the common prefix. *)
Fixpoint prefixLen (a b : bytes) : nat :=
  match a, b with
  | x :: a, y :: b => if x =? y then S (prefixLen a b) else O
  | _, _ => O
  end.

(** ** Facts *)

Definition is_nibble (x : Z) : Prop := 0 <= x < 16.
Abbreviation are_nibbles := (Forall is_nibble).

(** The hex keys: nibbles, with the terminator or without. *)
Inductive hex_key : bytes → Prop :=
| hex_open ns : are_nibbles ns → hex_key ns
| hex_closed ns : are_nibbles ns → hex_key (ns ++ [16]).

Lemma hasTerm_closed ns : hasTerm (ns ++ [16]) = true.
Proof. unfold hasTerm. by rewrite last_snoc. Qed.
Lemma hasTerm_open ns : are_nibbles ns → hasTerm ns = false.
Proof.
  intros Hn. unfold hasTerm. destruct (last ns) as [x|] eqn:E; [|done].
  apply last_Some_elem_of in E. rewrite Forall_forall in Hn. specialize (Hn x E).
  unfold is_nibble in Hn. apply Z.eqb_neq. lia.
Qed.

Lemma take_closed (ns : bytes) : take (length (ns ++ [16]) - 1) (ns ++ [16]) = ns.
Proof. rewrite length_app. simpl. apply take_app_length'. lia. Qed.

Lemma nibbles_of_nibbles str : are_bytes str → are_nibbles (nibbles_of str).
Proof.
  induction 1 as [|b str Hb _ IH]; simpl; [done|]. unfold is_byte in Hb.
  constructor; [|constructor; [|done]]; unfold is_nibble.
  - split; [apply Z.div_pos; lia|apply Z.div_lt_upper_bound; lia].
  - apply Z.mod_pos_bound. lia.
Qed.

Lemma nibble_pair_eq hi lo : is_nibble hi → is_nibble lo → nibble_pair hi lo = hi * 16 + lo.
Proof.
  unfold is_nibble. intros Hh Hl.
  assert (H : forallb (fun h => forallb (fun l => nibble_pair h l =? h * 16 + l) (seqZ 0 16)) (seqZ 0 16) = true)
    by reflexivity.
  rewrite forallb_forall in H. specialize (H hi). rewrite forallb_forall in H.
  apply Z.eqb_eq, H; apply list_elem_of_In, elem_of_seqZ; lia.
Qed.

(** The bytes that pairs of nibbles spell. *)
Lemma decodeNibbles_ok n ns :
  are_nibbles ns → length ns = (2 * n)%nat →
  ∃ bs, decodeNibbles ns = Done bs ∧ length bs = n ∧ are_bytes bs ∧ nibbles_of bs = ns.
Proof.
  revert ns. induction n as [|n IH]; intros ns Hn Hl.
  { destruct ns; [|done]. by exists []. }
  destruct ns as [|hi [|lo ns]]; simpl in Hl; try lia.
  apply Forall_cons in Hn as [Hh Hn]. apply Forall_cons in Hn as [Hlo Hn].
  destruct (IH ns Hn ltac:(lia)) as (bs & Hd & Hbl & Hb & Hnib). simpl. rewrite Hd. simpl.
  eexists. split; [done|]. rewrite nibble_pair_eq by done. unfold is_nibble in *. split_and!.
  - simpl. lia.
  - constructor; [unfold is_byte; lia|done].
  - simpl. rewrite Hnib. f_equal; [|f_equal].
    + rewrite Z.div_add_l by lia. rewrite Z.div_small by lia. lia.
    + rewrite Z.add_comm, Z.mod_add by lia. by apply Z.mod_small.
Qed.

Lemma decodeNibbles_nibbles_of bs : are_bytes bs → decodeNibbles (nibbles_of bs) = Done bs.
Proof.
  induction 1 as [|b bs Hb _ IH]; simpl; [done|]. rewrite IH. simpl. unfold is_byte in Hb.
  rewrite nibble_pair_eq; [|unfold is_nibble..].
  - do 2 f_equal. pose proof (Z.div_mod b 16). lia.
  - split; [apply Z.div_pos; lia|apply Z.div_lt_upper_bound; lia].
  - apply Z.mod_pos_bound. lia.
Qed.

Lemma length_nibbles_of bs : length (nibbles_of bs) = (2 * length bs)%nat.
Proof. induction bs; simpl; lia. Qed.

Lemma keybytes_roundtrip bs : are_bytes bs → hexToKeybytes (keybytesToHex bs) = Done bs.
Proof.
  intros Hb. unfold hexToKeybytes, keybytesToHex. rewrite hasTerm_closed, take_closed.
  assert (Nat.odd (length (nibbles_of bs)) = false) as ->.
  { rewrite length_nibbles_of, Nat.odd_mul. done. }
  by apply decodeNibbles_nibbles_of.
Qed.

Lemma keybytesToHex_inj a b : are_bytes a → are_bytes b → keybytesToHex a = keybytesToHex b → a = b.
Proof.
  intros Ha Hb H. pose proof (keybytes_roundtrip a Ha). pose proof (keybytes_roundtrip b Hb). congruence.
Qed.

Lemma prefixLen_spec a b :
  let n := prefixLen a b in
  take n a = take n b ∧ (n <= length a)%nat ∧ (n <= length b)%nat ∧
  (∀ x y, a !! n = Some x → b !! n = Some y → x ≠ y).
Proof.
  revert b. induction a as [|x a IH]; intros [|y b]; simpl; try (split_and!; [done|lia|lia|done]).
  destruct (Z.eqb_spec x y) as [<-|Hne]; simpl.
  - destruct (IH b) as (H1 & H2 & H3 & H4). split_and!; [by rewrite H1|lia|lia|done].
  - split_and!; [done|lia|lia|]. by intros ? ? [= <-] [= <-].
Qed.

(** A compact key is a flag byte, with the first nibble when the number of
    nibbles is odd, and the other nibbles. *)
Lemma flag_byte t x :
  t = 0 ∨ t = 1 → is_nibble x →
  let f := Z.lor (Z.lor (Z.shiftl t 5) 16) x in is_byte f ∧ f / 16 = 2 * t + 1 ∧ f mod 16 = x.
Proof.
  intros Ht Hx.
  assert (H : forallb (fun x => forallb (fun t => let f := Z.lor (Z.lor (Z.shiftl t 5) 16) x in
      (0 <=? f) && (f <? 256) && (f / 16 =? 2 * t + 1) && (f mod 16 =? x)) [0; 1]) (seqZ 0 16) = true)
    by reflexivity.
  rewrite forallb_forall in H. specialize (H x). rewrite forallb_forall in H.
  specialize (H ltac:(apply list_elem_of_In, elem_of_seqZ; unfold is_nibble in Hx; lia) t).
  specialize (H ltac:(destruct Ht as [->| ->]; simpl; auto)). cbv zeta in *. unfold is_byte.
  apply andb_true_iff in H as [H ?%Z.eqb_eq]. apply andb_true_iff in H as [H ?%Z.eqb_eq].
  apply andb_true_iff in H as [?%Z.leb_le ?%Z.ltb_lt]. done.
Qed.

Definition terminated (t : Z) (ns : bytes) : bytes := if t =? 1 then ns ++ [16] else ns.

Lemma compact_spec t ns :
  t = 0 ∨ t = 1 → are_nibbles ns →
  ∃ c, hexToCompact (terminated t ns) = Done c ∧ are_bytes c ∧ c ≠ [] ∧
       compactToHex c = Done (terminated t ns).
Proof.
  intros Ht Hn.
  assert (hasTerm (terminated t ns) = (t =? 1) ∧
    (if hasTerm (terminated t ns) then take (length (terminated t ns) - 1) (terminated t ns)
     else terminated t ns) = ns ∧ (if t =? 1 then 1 else 0) = t) as (Hh & Hs & Hf).
  { unfold terminated. destruct Ht as [->| ->]; simpl.
    - by rewrite hasTerm_open.
    - rewrite hasTerm_closed. by rewrite take_closed. }
  unfold hexToCompact. cbv zeta. rewrite Hs, Hh, Hf.
  destruct (Nat.odd (length ns)) eqn:Eodd.
  - destruct ns as [|x ns]; [done|]. apply Forall_cons in Hn as [Hx Hn].
    apply Nat.odd_spec in Eodd as [n Eodd]. simpl in Eodd.
    destruct (decodeNibbles_ok n ns Hn ltac:(lia)) as (bs & Hd & _ & Hb & Hnib).
    cbn [obind fst snd]. rewrite Hd. cbn [obind]. eexists. split; [done|].
    destruct (flag_byte t x Ht Hx) as (Hbyte & Hdiv & Hmod). split; [by constructor|]. split; [done|].
    unfold compactToHex, keybytesToHex. cbn [nibbles_of app]. rewrite Hdiv, Hmod, Hnib.
    destruct Ht as [->| ->]; simpl; rewrite ?length_app; simpl.
    + f_equal. rewrite Nat.add_1_r. simpl. by rewrite take_app_length.
    + done.
  - rewrite <- Nat.negb_even in Eodd. apply negb_false_iff, Nat.even_spec in Eodd as [n Eodd].
    destruct (decodeNibbles_ok n ns Hn ltac:(lia)) as (bs & Hd & _ & Hb & Hnib).
    cbn [obind fst snd]. rewrite Hd. cbn [obind]. eexists. split; [done|].
    split; [constructor; [destruct Ht as [->| ->]; done|done]|]. split; [done|].
    unfold compactToHex, keybytesToHex. cbn [nibbles_of app]. rewrite Hnib.
    destruct Ht as [->| ->]; simpl; rewrite ?length_app; simpl; [|done].
    f_equal. rewrite Nat.add_1_r. simpl. by rewrite take_app_length.
Qed.

(** The compact encoding of a hex key is a round trip. A hex key, nibbles
    with or without the terminator, has a compact encoding, a non-empty string of
    bytes, from which the decoder gives the same key back. *)
Theorem compact_key_roundtrip h :
  hex_key h → ∃ c, hexToCompact h = Done c ∧ are_bytes c ∧ c ≠ [] ∧ compactToHex c = Done h.
Proof.
  intros [ns Hn|ns Hn]; [apply (compact_spec 0)|apply (compact_spec 1)]; auto.
Qed.

Lemma compact_key_roundtrip_witness :
  hexToCompact [1; 2; 3; 16] = Done [49; 35] ∧
  ∃ c, hexToCompact [1; 2; 3; 16] = Done c ∧ are_bytes c ∧ c ≠ [] ∧ compactToHex c = Done [1; 2; 3; 16].
Proof.
  split; [reflexivity|]. apply (compact_key_roundtrip [1; 2; 3; 16]), (hex_closed [1; 2; 3]).
  repeat constructor; unfold is_nibble; lia.
Defined.
