(* ===== verification/TrieTree.v ===== *)
(** * Radix trees: what a trie stands for

    A tree without hashes, flags and database: the specification of the trie of
    trie/trie.go. A key is a path of nibbles that ends with the terminator 16, so
    that no key is a prefix of another. [tinsert] and [tdelete] rebuild the tree
    the way the trie does; the file proves that they are the insertion and the
    deletion of a finite map, that they keep a tree in canonical form, and that a
    tree in canonical form is determined by its contents. *)

From stdpp Require Import base list gmap strings.
From Stdlib Require Import ZArith Lia.
From S2P Require Import Prelude Bytes TrieEncoding.

#[local] Set Warnings "-register-all".

Inductive tree :=
| TEmpty
| TLeaf (v : bytes)
| TExt (k : bytes) (t : tree)
| TBranch (ts : list tree).

Definition is_empty (t : tree) : bool := match t with TEmpty => true | _ => false end.

Fixpoint tlookup (t : tree) (k : bytes) : option bytes :=
  match t with
  | TEmpty => None
  | TLeaf v => Some v
  | TExt key t =>
      if (length k <? length key)%nat || negb (bool_decide (key = take (length key) k)) then None
      else tlookup t (drop (length key) k)
  | TBranch ts =>
      match k with
      | [] => None
      | x :: k => nth (Z.to_nat x) (map (fun t => tlookup t k) ts) None
      end
  end.

(** A key that leads to a tree; no node is needed for the empty key. *)
Definition tshort (k : bytes) (t : tree) : tree := match k with [] => t | _ => TExt k t end.

Definition no_children : list tree := replicate 17 TEmpty.
Definition index (x : Z) : nat := Z.to_nat x.

Fixpoint tinsert (t : tree) (k v : bytes) : tree :=
  match k with
  | [] => TLeaf v
  | x :: k' =>
      match t with
      | TEmpty => TExt k (TLeaf v)
      | TLeaf _ => t
      | TExt key t' =>
          let m := prefixLen k key in
          if (m =? length key)%nat then TExt key (tinsert t' (drop m k) v)
          else
            let ts := <[index (nth m key 0) := tshort (drop (S m) key) t']> no_children in
            let ts := <[index (nth m k 0) := tshort (drop (S m) k) (TLeaf v)]> ts in
            match m with O => TBranch ts | _ => TExt (take m k) (TBranch ts) end
      | TBranch ts => TBranch (alter (fun t => tinsert t k' v) (index x) ts)
      end
  end.

(** The position of the only child, when there is just one. *)
Fixpoint only_child (i : nat) (ts : list tree) : option nat :=
  match ts with
  | [] => None
  | t :: ts =>
      if is_empty t then only_child (S i) ts
      else if forallb is_empty ts then Some i else None
  end.

(** A branch with one child, as an extension. *)
Definition chain (pos : nat) (t : tree) : tree :=
  match t with
  | TExt k t => if (pos =? 16)%nat then TExt [16] (TExt k t) else TExt (Z.of_nat pos :: k) t
  | t => TExt [Z.of_nat pos] t
  end.

Definition collapse (ts : list tree) : tree :=
  match only_child 0 ts with
  | None => TBranch ts
  | Some pos => chain pos (nth pos ts TEmpty)
  end.

(** Two extensions in a row become one. *)
Definition extend (key : bytes) (t : tree) : tree :=
  match t with TExt key' t' => TExt (key ++ key') t' | t' => TExt key t' end.

Fixpoint tdelete (t : tree) (k : bytes) : tree :=
  match t with
  | TEmpty | TLeaf _ => TEmpty
  | TExt key t' =>
      let m := prefixLen k key in
      if (m <? length key)%nat then t
      else if (m =? length k)%nat then TEmpty
      else extend key (tdelete t' (drop (length key) k))
  | TBranch ts =>
      match k with
      | [] => t
      | x :: k => collapse (alter (fun t => tdelete t k) (index x) ts)
      end
  end.

(** ** Canonical form *)

(** The end of a key, from some position on. *)
Definition path (k : bytes) : Prop := ∃ ns, are_nibbles ns ∧ k = ns ++ [16].

(** Two children, at least. *)
Definition two (ts : list tree) : Prop :=
  ∃ i j t u, i ≠ j ∧ ts !! i = Some t ∧ ts !! j = Some u ∧ is_empty t = false ∧ is_empty u = false.

(** Subtrees that are not empty: a value at the end of a key, a branch behind a
    common prefix, or a branch with two children at least. *)
Inductive canonical : tree → Prop :=
| can_leaf ns v : are_nibbles ns → v ≠ [] → canonical (TExt (ns ++ [16]) (TLeaf v))
| can_ext ns ts : are_nibbles ns → ns ≠ [] → canonical (TBranch ts) → canonical (TExt ns (TBranch ts))
| can_branch ts :
    length ts = 17%nat → two ts →
    (∀ i t, (i < 16)%nat → ts !! i = Some t → is_empty t = false → canonical t) →
    (∀ t, ts !! 16%nat = Some t → is_empty t = false → ∃ v, v ≠ [] ∧ t = TLeaf v) →
    canonical (TBranch ts).

Definition can (t : tree) : Prop := is_empty t = false → canonical t.

(** ** Paths *)

Lemma path_cons x k : path (x :: k) → (x = 16 ∧ k = []) ∨ (is_nibble x ∧ path k).
Proof.
  intros ([|n ns] & Hn & E); simpl in E; injection E as -> ->; [by left|]. right.
  apply Forall_cons in Hn as [? ?]. split; [done|]. by exists ns.
Qed.
Lemma path_nibble x k : is_nibble x → path k → path (x :: k).
Proof. intros Hx (ns & Hn & ->). exists (x :: ns). split; [by constructor|done]. Qed.
Lemma path_end : path [16].
Proof. by exists []. Qed.
Lemma path_app p k : are_nibbles p → path k → path (p ++ k).
Proof. intros Hp (ns & Hn & ->). exists (p ++ ns). rewrite <- app_assoc. split; [by apply Forall_app|done]. Qed.
Lemma path_nonempty k : path k → k ≠ [].
Proof. intros (ns & _ & ->). by destruct ns. Qed.
Lemma path_app_inv p k : path (p ++ k) → k ≠ [] → are_nibbles p ∧ path k.
Proof.
  induction p as [|x p IH]; intros Hp Hk; [done|].
  destruct (path_cons _ _ Hp) as [[_ E]|[Hx Hp']]; [by apply app_nil in E as [_ ?]|].
  destruct (IH Hp' Hk). split; [by constructor|done].
Qed.
(** No key is a prefix of another. *)
Lemma path_prefix a k : path a → path (a ++ k) → k = [].
Proof.
  intros (ns & Hn & ->) Hp. destruct k as [|x k]; [done|]. exfalso.
  destruct (path_app_inv (ns ++ [16]) (x :: k) Hp) as [H _]; [done|].
  apply Forall_app in H as [_ H]. rewrite Forall_singleton in H. unfold is_nibble in H. lia.
Qed.
Lemma nibbles_not_path ns k : are_nibbles ns → path (ns ++ k) → path k.
Proof.
  intros Hn Hp. destruct k as [|x k]; [|by apply (path_app_inv ns)]. rewrite app_nil_r in Hp.
  destruct Hp as (ms & _ & ->). apply Forall_app in Hn as [_ H]. rewrite Forall_singleton in H.
  unfold is_nibble in H. lia.
Qed.

Definition is_child (x : Z) : Prop := 0 <= x <= 16.
Lemma index_inj x y : is_child x → is_child y → index x = index y → x = y.
Proof. unfold is_child, index. lia. Qed.
Lemma nibble_child x : is_nibble x → is_child x.
Proof. unfold is_nibble, is_child. lia. Qed.
Lemma path_child x k : path (x :: k) → is_child x.
Proof. intros [[-> _]|[Hx _]]%path_cons; [done|by apply nibble_child]. Qed.

(** ** Lookup *)

Lemma lookup_branch ts x k :
  tlookup (TBranch ts) (x :: k) = match ts !! index x with Some t => tlookup t k | None => None end.
Proof.
  simpl. unfold index. generalize (Z.to_nat x). clear x. induction ts as [|t ts IH]; intros [|n]; try done.
  simpl. apply IH.
Qed.

Lemma lookup_ext key t k : tlookup (TExt key t) (key ++ k) = tlookup t k.
Proof.
  cbn [tlookup]. rewrite take_app_length, bool_decide_true, length_app by done.
  replace (length key + length k <? length key)%nat with false by (symmetry; apply Nat.ltb_ge; lia).
  simpl. by rewrite drop_app_length.
Qed.
Lemma lookup_ext_self key v : tlookup (TExt key (TLeaf v)) key = Some v.
Proof. rewrite <- (app_nil_r key) at 2. by rewrite lookup_ext. Qed.
Lemma lookup_ext_other key t k : (∀ k', k ≠ key ++ k') → tlookup (TExt key t) k = None.
Proof.
  intros Hk. cbn [tlookup]. destruct (_ <? _)%nat; [done|]. simpl.
  case_bool_decide as E; [|done]. exfalso. apply (Hk (drop (length key) k)). rewrite E at 1.
  by rewrite take_drop.
Qed.

Lemma lookup_short p t k : tlookup (tshort p t) (p ++ k) = tlookup t k.
Proof. destruct p; [done|]. apply lookup_ext. Qed.
Lemma lookup_short_other p t k : (∀ k', k ≠ p ++ k') → tlookup (tshort p t) k = None.
Proof. destruct p; [|apply lookup_ext_other]. intros H. by destruct (H k). Qed.

(** A prefix of a key, or not. *)
Lemma prefix_cases (p k : bytes) : (∃ k', k = p ++ k') ∨ (∀ k', k ≠ p ++ k').
Proof. destruct (decide (p `prefix_of` k)) as [H|H]; [left; exact H|right]. intros k' ->. by destruct H; exists k'. Qed.

(** ** Insertion *)

(** What may stand in a branch at [x]. *)
Definition fits_at (x : Z) (t : tree) : Prop :=
  if x =? 16 then ∃ v, v ≠ [] ∧ t = TLeaf v else canonical t.

Lemma canonical_nonempty t : canonical t → is_empty t = false.
Proof. by destruct 1. Qed.
Lemma fits_nonempty x t : fits_at x t → is_empty t = false.
Proof. unfold fits_at. destruct (x =? 16); [by intros (v & _ & ->)|apply canonical_nonempty]. Qed.

(** The rest of a key, below the branch at its first nibble. *)
Lemma rest_fits x k v : path (x :: k) → v ≠ [] → fits_at x (tshort k (TLeaf v)).
Proof.
  intros [[-> ->]|[Hx (ns & Hn & ->)]]%path_cons Hv; unfold fits_at; [by exists v|].
  unfold is_nibble in Hx. destruct (Z.eqb_spec x 16); [lia|].
  destruct ns; [by apply (can_leaf [])|by apply (can_leaf (_ :: _))].
Qed.

Lemma canonical_short p ts : are_nibbles p → canonical (TBranch ts) → canonical (tshort p (TBranch ts)).
Proof. intros Hp Hc. destruct p; [done|]. by apply can_ext. Qed.

(** A branch where two keys part. *)
Definition fork (y : Z) (ty : tree) (x : Z) (tx : tree) : list tree :=
  <[index x := tx]> (<[index y := ty]> no_children).

Section fork.
Context (x y : Z) (tx ty : tree).
Hypothesis Hx : is_child x.
Hypothesis Hy : is_child y.
Hypothesis Hne : x ≠ y.

Lemma fork_lookup_child z : is_child z →
  fork y ty x tx !! index z = Some (if z =? x then tx else if z =? y then ty else TEmpty).
Proof.
  intros Hz. unfold fork. assert (Hlt : ∀ z, is_child z → (index z < 17)%nat) by (unfold index, is_child; lia).
  destruct (Z.eqb_spec z x) as [->|Hzx].
  { apply list_lookup_insert_eq. rewrite length_insert. unfold no_children. rewrite length_replicate. auto. }
  rewrite list_lookup_insert_ne by (intros E; apply Hzx; symmetry; by apply index_inj).
  destruct (Z.eqb_spec z y) as [->|Hzy].
  { apply list_lookup_insert_eq. unfold no_children. rewrite length_replicate. auto. }
  rewrite list_lookup_insert_ne by (intros E; apply Hzy; symmetry; by apply index_inj).
  unfold no_children. apply lookup_replicate_2. auto.
Qed.

Lemma fork_canonical : fits_at x tx → fits_at y ty → canonical (TBranch (fork y ty x tx)).
Proof.
  intros Fx Fy. apply can_branch.
  - unfold fork. by rewrite !length_insert.
  - exists (index x), (index y), tx, ty. rewrite !fork_lookup_child, !Z.eqb_refl by done.
    rewrite (proj2 (Z.eqb_neq y x)) by congruence.
    split_and!; [intros E; by apply Hne, index_inj|done|done|by eapply fits_nonempty..].
  - intros i t Hi. replace i with (index (Z.of_nat i)) by (unfold index; lia).
    rewrite fork_lookup_child by (unfold is_child; lia). intros [= <-] He.
    destruct (Z.eqb_spec (Z.of_nat i) x) as [E|_];
      [|destruct (Z.eqb_spec (Z.of_nat i) y) as [E|_]; [|done]].
    + unfold fits_at in Fx. rewrite (proj2 (Z.eqb_neq x 16)) in Fx by lia. done.
    + unfold fits_at in Fy. rewrite (proj2 (Z.eqb_neq y 16)) in Fy by lia. done.
  - intros t Ht. change (fork y ty x tx !! index 16 = Some t) in Ht.
    rewrite fork_lookup_child in Ht by done. apply (inj Some) in Ht as <-. intros He. revert He.
    destruct (Z.eqb_spec 16 x) as [<-|_]; [|destruct (Z.eqb_spec 16 y) as [<-|_]; [|done]]; intros _; [exact Fx|exact Fy].
Qed.

Lemma fork_lookup z k : is_child z →
  tlookup (TBranch (fork y ty x tx)) (z :: k) =
    if z =? x then tlookup tx k else if z =? y then tlookup ty k else None.
Proof.
  intros Hz. rewrite lookup_branch, fork_lookup_child by done. by destruct (z =? x), (z =? y).
Qed.
End fork.

(** The contents of [u] are those of [t] with [k] set to [v]. *)
Definition sets (k : bytes) (v : option bytes) (t u : tree) : Prop :=
  ∀ k', path k' → tlookup u k' = if decide (k' = k) then v else tlookup t k'.

Lemma sets_leaf k v : path k → sets k (Some v) TEmpty (TExt k (TLeaf v)).
Proof.
  intros Hk k' Hk'. destruct (decide (k' = k)) as [->|Hne].
  - apply lookup_ext_self.
  - apply lookup_ext_other. intros r ->. apply Hne. by rewrite (path_prefix k r), app_nil_r.
Qed.

(** Splitting an extension where the key leaves it. *)
Lemma sets_fork pre x kx y ky c v :
  path (pre ++ x :: kx) → is_child y → x ≠ y →
  sets (pre ++ x :: kx) (Some v) (TExt (pre ++ y :: ky) c)
    (tshort pre (TBranch (fork y (tshort ky c) x (tshort kx (TLeaf v))))).
Proof.
  intros Hk Hy Hne k' Hk'. destruct (path_app_inv pre (x :: kx) Hk) as [Hpre Hkx]; [done|].
  pose proof (path_child _ _ Hkx) as Hx.
  destruct (prefix_cases pre k') as [[r ->]|Hno].
  2: { rewrite lookup_short_other by done. destruct (decide _) as [->|_]; [by destruct (Hno (x :: kx))|].
       rewrite lookup_ext_other; [done|]. intros r ->. rewrite <- app_assoc in Hno. by eapply Hno. }
  rewrite lookup_short. pose proof (nibbles_not_path pre r Hpre Hk') as Hr.
  destruct r as [|z kz]; [by apply path_nonempty in Hr|]. rewrite fork_lookup by (done || by eapply path_child).
  destruct (Z.eqb_spec z x) as [->|Hzx].
  - destruct (decide (pre ++ x :: kz = pre ++ x :: kx)) as [E|E].
    { simplify_list_eq. rewrite <- (app_nil_r kx) at 2. by rewrite lookup_short. }
    rewrite lookup_ext_other by (intros r; rewrite <- app_assoc; simpl; by intros [= ? ?]%app_inv_head).
    apply lookup_short_other. intros r ->. apply E. do 2 f_equal.
    change (x :: kx ++ r) with ((x :: kx) ++ r) in Hr. by rewrite (path_prefix _ _ Hkx Hr), app_nil_r.
  - rewrite decide_False by (intros [= ?]%app_inv_head; done).
    destruct (Z.eqb_spec z y) as [->|Hzy].
    + destruct (prefix_cases ky kz) as [[r ->]|Hno].
      * rewrite lookup_short. change (y :: ky ++ r) with ((y :: ky) ++ r). rewrite app_assoc. by rewrite lookup_ext.
      * rewrite lookup_short_other by done. rewrite lookup_ext_other; [done|].
        intros r. rewrite <- app_assoc. simpl. intros [= ?]%app_inv_head. by eapply Hno.
    + rewrite lookup_ext_other; [done|]. intros r. rewrite <- app_assoc. simpl. by intros [= ? ?]%app_inv_head.
Qed.

(** How a key and the key of a node relate. *)
Lemma prefixLen_view k key :
  (∃ r, k = key ++ r ∧ prefixLen k key = length key) ∨
  (∃ y r, key = k ++ y :: r ∧ prefixLen k key = length k) ∨
  (∃ pre x kx y ky, k = pre ++ x :: kx ∧ key = pre ++ y :: ky ∧ x ≠ y ∧ prefixLen k key = length pre).
Proof.
  revert key. induction k as [|x k IH]; intros [|y key]; simpl.
  - left. by exists [].
  - right. left. eauto.
  - left. eauto.
  - destruct (Z.eqb_spec x y) as [<-|Hne].
    + destruct (IH key) as [(r & -> & ->)|[(y & r & -> & ->)|(pre & a & ka & b & kb & -> & -> & Hab & ->)]].
      * left. by exists r.
      * right. left. by exists y, r.
      * right. right. by exists (x :: pre), a, ka, b, kb.
    + right. right. by exists [], x, k, y, key.
Qed.

Lemma prefixLen_app key r : prefixLen (key ++ r) key = length key.
Proof. induction key; simpl; [by destruct r|]. by rewrite Z.eqb_refl, IHkey. Qed.
Lemma prefixLen_fork pre x kx y ky : x ≠ y → prefixLen (pre ++ x :: kx) (pre ++ y :: ky) = length pre.
Proof.
  intros Hxy. induction pre as [|z pre IH]; simpl; [by rewrite (proj2 (Z.eqb_neq x y))|].
  by rewrite Z.eqb_refl, IH.
Qed.
Lemma drop_fork (pre : bytes) z kz : drop (S (length pre)) (pre ++ z :: kz) = kz.
Proof. by induction pre. Qed.

Lemma tinsert_nil t v : tinsert t [] v = TLeaf v.
Proof. by destruct t. Qed.

Lemma tinsert_ext key t r v :
  key ++ r ≠ [] → tinsert (TExt key t) (key ++ r) v = TExt key (tinsert t r v).
Proof.
  intros Hne. destruct (prefixLen_view (key ++ r) key) as [(r' & Hr & Hl)|[(y & r' & Hr & Hl)|H]].
  - destruct (key ++ r) as [|x k] eqn:E; [done|]. cbn [tinsert]. rewrite Hl, Nat.eqb_refl, <- E.
    by rewrite drop_app_length.
  - apply (f_equal length) in Hr. rewrite !length_app in Hr. simpl in Hr. lia.
  - destruct H as (pre & x & kx & y & ky & E1 & E2 & Hxy & _). rewrite E2, <- app_assoc in E1.
    apply app_inv_head in E1. simpl in E1. congruence.
Qed.

Lemma tinsert_fork pre x kx y ky t v :
  x ≠ y →
  tinsert (TExt (pre ++ y :: ky) t) (pre ++ x :: kx) v =
    tshort pre (TBranch (fork y (tshort ky t) x (tshort kx (TLeaf v)))).
Proof.
  intros Hxy. pose proof (prefixLen_fork pre x kx y ky Hxy) as Hl.
  destruct (pre ++ x :: kx) as [|a k] eqn:E; [by apply app_nil in E as [_ ?]|].
  cbn [tinsert]. rewrite Hl, <- E, length_app. simpl length.
  rewrite (proj2 (Nat.eqb_neq _ _)) by lia.
  rewrite !drop_fork, take_app_length, !app_nth2, !Nat.sub_diag by lia. by destruct pre.
Qed.

Lemma lookup_alter ts f i j :
  alter f i ts !! j = if decide (i = j) then f <$> ts !! j else (ts : list tree) !! j.
Proof. rewrite list_lookup_alter. by destruct (decide (i = j)) as [<-|]. Qed.

(** Inserting into a child of a branch. *)
Lemma tinsert_branch_ok ts x k v :
  canonical (TBranch ts) → path (x :: k) → v ≠ [] →
  (∀ t, x ≠ 16 → ts !! index x = Some t → is_empty t = false →
     canonical (tinsert t k v) ∧ sets k (Some v) t (tinsert t k v)) →
  canonical (TBranch (alter (fun t => tinsert t k v) (index x) ts)) ∧
  sets (x :: k) (Some v) (TBranch ts) (TBranch (alter (fun t => tinsert t k v) (index x) ts)).
Proof.
  intros Hc Hk Hv IH. inversion Hc as [| |? Hlen Htwo Hch Hlast]; subst.
  pose proof (path_child _ _ Hk) as Hx.
  assert (∃ t, ts !! index x = Some t) as [t Ht].
  { apply lookup_lt_is_Some. unfold is_child, index in *. lia. }
  assert (Hnew : fits_at x (tinsert t k v) ∧ ∀ k', path (x :: k') →
            tlookup (tinsert t k v) k' = if decide (k' = k) then Some v else tlookup t k').
  { unfold fits_at. destruct (path_cons _ _ Hk) as [[-> ->]|[Hnx Hpk]].
    - simpl. rewrite tinsert_nil. split; [eauto|]. intros k' [[_ ->]|[Hn _]]%path_cons; [done|].
      unfold is_nibble in Hn. lia.
    - unfold is_nibble in Hnx. rewrite (proj2 (Z.eqb_neq x 16)) by lia.
      assert (Hpk' : ∀ k', path (x :: k') → path k') by (intros k' [[? _]|[_ ?]]%path_cons; [lia|done]).
      destruct (is_empty t) eqn:Ee.
      + destruct t; try done. destruct k as [|y k]; [by apply path_nonempty in Hpk|]. simpl.
        pose proof Hpk as (ns & Hn & E). split; [rewrite E; by apply can_leaf|].
        intros k' Hk'. exact (sets_leaf (y :: k) v Hpk k' (Hpk' k' Hk')).
      + destruct (IH t ltac:(lia) Ht Ee) as [? Hs]. split; [done|]. intros k' Hk'. by apply Hs, Hpk'. }
  destruct Hnew as [Hfit Hlook]. split.
  - apply can_branch; [by rewrite length_alter|..].
    + destruct Htwo as (i & j & a & b & Hij & Ha & Hb & Ea & Eb).
      assert (Hkeep : ∀ i a, ts !! i = Some a → is_empty a = false →
        ∃ a', alter (fun t => tinsert t k v) (index x) ts !! i = Some a' ∧ is_empty a' = false).
      { intros i' a' Hi' He'. rewrite lookup_alter, Hi'. destruct (decide _) as [<-|]; [|by exists a'].
        exists (tinsert a' k v). split; [done|]. assert (a' = t) as -> by congruence. by eapply fits_nonempty. }
      destruct (Hkeep i a Ha Ea) as (a' & ? & ?), (Hkeep j b Hb Eb) as (b' & ? & ?). by exists i, j, a', b'.
    + intros i a Hi. rewrite lookup_alter. destruct (decide (index x = i)) as [<-|]; [|by apply Hch].
      rewrite Ht. intros [= <-] _. unfold fits_at in Hfit. unfold index in Hi. unfold is_child in Hx.
      by rewrite (proj2 (Z.eqb_neq x 16)) in Hfit by lia.
    + intros a. rewrite lookup_alter. destruct (decide (index x = 16%nat)) as [E|]; [|by apply Hlast].
      rewrite <- E, Ht. intros [= <-] _. unfold fits_at in Hfit. unfold index, is_child in *.
      by rewrite (proj2 (Z.eqb_eq x 16)) in Hfit by lia.
  - intros k' Hk'. destruct k' as [|z kz]; [by apply path_nonempty in Hk'|].
    rewrite !lookup_branch, lookup_alter. destruct (decide (index x = index z)) as [E|E].
    + apply index_inj in E as ->; [|done|by eapply path_child]. rewrite Ht. simpl.
      rewrite Hlook by done. destruct (decide (kz = k)) as [->|]; [by rewrite decide_True|].
      rewrite decide_False by congruence. done.
    + rewrite decide_False; [done|]. intros [= -> ->]. done.
Qed.

Lemma sets_ext ns k o t u : are_nibbles ns → sets k o t u → sets (ns ++ k) o (TExt ns t) (TExt ns u).
Proof.
  intros Hn Hs k' Hk'. destruct (prefix_cases ns k') as [[r ->]|Hno].
  - rewrite !lookup_ext, Hs by (by eapply nibbles_not_path).
    destruct (decide (r = k)) as [->|]; [by rewrite decide_True|].
    by rewrite decide_False by (intros E%app_inv_head; done).
  - rewrite !lookup_ext_other by done. rewrite decide_False; [done|]. intros ->. by destruct (Hno k).
Qed.

Lemma tinsert_ok t k v :
  canonical t → path k → v ≠ [] → canonical (tinsert t k v) ∧ sets k (Some v) t (tinsert t k v).
Proof.
  intros Hc Hk Hv. revert k Hk.
  induction Hc as [ns w Hn Hw|ns ts Hn Hne Hc IH|ts Hlen Htwo Hch IH Hlast]; intros k Hk.
  - assert (Hp : path (ns ++ [16])) by by exists ns.
    destruct (prefixLen_view k (ns ++ [16])) as [(r & -> & _)|[(y & r & E & _)|(pre & x & kx & y & ky & -> & E & Hxy & _)]].
    + rewrite tinsert_ext by by apply path_nonempty. rewrite (path_prefix _ _ Hp Hk), tinsert_nil, app_nil_r.
      split; [by apply can_leaf|]. intros k' Hk'. rewrite (sets_leaf _ v Hp k' Hk').
      destruct (decide _); [done|]. rewrite (sets_leaf _ w Hp k' Hk'). by rewrite decide_False.
    + rewrite E in Hp. by apply path_prefix in Hp.
    + rewrite E in Hp |- *. destruct (path_app_inv _ _ Hk) as [Hpre Hkx]; [done|].
      destruct (path_app_inv _ _ Hp) as [_ Hky]; [done|]. rewrite tinsert_fork by done. split.
      * apply canonical_short; [done|]. apply fork_canonical; eauto using path_child, rest_fits.
      * apply sets_fork; eauto using path_child.
  - destruct (prefixLen_view k ns) as [(r & -> & _)|[(y & r & E & _)|(pre & x & kx & y & ky & -> & E & Hxy & _)]].
    + pose proof (nibbles_not_path ns r Hn Hk) as Hr. rewrite tinsert_ext by by apply path_nonempty.
      destruct (IH r Hr) as [Hc' Hs]. split; [|by apply sets_ext].
      destruct r as [|x r]; [by apply path_nonempty in Hr|]. by apply can_ext.
    + destruct Hk as (ms & _ & ->). rewrite E in Hn. apply Forall_app in Hn as [Hn _].
      apply Forall_app in Hn as [_ Hn]. rewrite Forall_singleton in Hn. unfold is_nibble in Hn. lia.
    + rewrite E in Hn |- *. destruct (path_app_inv _ _ Hk) as [Hpre Hkx]; [done|].
      apply Forall_app in Hn as [_ Hn]. apply Forall_cons in Hn as [Hy Hky].
      rewrite tinsert_fork by done. split.
      * apply canonical_short; [done|]. apply fork_canonical; eauto using path_child, rest_fits, nibble_child.
        unfold fits_at. unfold is_nibble in Hy. rewrite (proj2 (Z.eqb_neq y 16)) by lia. by apply canonical_short.
      * apply sets_fork; eauto using nibble_child.
  - destruct k as [|x k]; [by apply path_nonempty in Hk|]. cbn [tinsert].
    apply tinsert_branch_ok; [by apply can_branch|done|done|]. intros t Hx Ht He.
    destruct (path_cons _ _ Hk) as [[? _]|[Hnx Hpk]]; [done|].
    apply (IH (index x)); [unfold index, is_nibble in *; lia|done|done|done].
Qed.

(** ** Deletion *)

Lemma only_child_spec i ts :
  match only_child i ts with
  | Some p => (i <= p)%nat ∧ (∃ t, ts !! (p - i)%nat = Some t ∧ is_empty t = false) ∧
      ∀ j t, ts !! j = Some t → is_empty t = false → (j + i = p)%nat
  | None => Forall (fun t => is_empty t = true) ts ∨ two ts
  end.
Proof.
  revert i. induction ts as [|t ts IH]; intros i; simpl; [by left|].
  destruct (is_empty t) eqn:Et.
  - specialize (IH (S i)). destruct (only_child (S i) ts) as [p|].
    + destruct IH as (Hle & (u & Hu & Hue) & Huniq). split_and!; [lia| |].
      * exists u. replace (p - i)%nat with (S (p - S i)) by lia. done.
      * intros [|j] w Hw He; simpl in Hw; [congruence|]. specialize (Huniq j w Hw He). lia.
    + destruct IH as [Hall|(a & b & u & w & Hab & Ha & Hb & Hu & Hw)]; [left; by constructor|].
      right. exists (S a), (S b), u, w. split_and!; [congruence|done..].
  - destruct (forallb is_empty ts) eqn:Ef.
    + split_and!; [lia|exists t; by rewrite Nat.sub_diag|].
      intros [|j] w Hw He; [lia|]. exfalso. simpl in Hw. apply list_elem_of_lookup_2, list_elem_of_In in Hw.
      rewrite forallb_forall in Ef. rewrite Ef in He by done. done.
    + right. assert (∃ j w, ts !! j = Some w ∧ is_empty w = false) as (j & w & Hw & He).
      { clear -Ef. induction ts as [|u ts IH]; [done|]. simpl in Ef. destruct (is_empty u) eqn:Eu.
        - destruct (IH Ef) as (j & w & ? & ?). by exists (S j), w.
        - by exists O, u. }
      by exists O, (S j), t, w.
Qed.

Lemma lookup_ext_app a b t k : tlookup (TExt (a ++ b) t) k = tlookup (TExt a (TExt b t)) k.
Proof.
  destruct (prefix_cases a k) as [[r ->]|Hno].
  - rewrite lookup_ext. destruct (prefix_cases b r) as [[r' ->]|Hno].
    + by rewrite app_assoc, !lookup_ext.
    + rewrite !lookup_ext_other; [done|done|]. intros k'. rewrite <- app_assoc. intros E%app_inv_head. by eapply Hno.
  - rewrite !lookup_ext_other; [done|done|]. intros k'. rewrite <- app_assoc. apply Hno.
Qed.

(** What a branch may hold: a value at the end, canonical trees elsewhere. *)
Record fit_children (ts : list tree) : Prop := {
  fc_length : length ts = 17%nat;
  fc_child : ∀ i t, (i < 16)%nat → ts !! i = Some t → is_empty t = false → canonical t;
  fc_value : ∀ t, ts !! 16%nat = Some t → is_empty t = false → ∃ v, v ≠ [] ∧ t = TLeaf v;
}.

Lemma chain_ok ts pos t :
  fit_children ts → ts !! pos = Some t → is_empty t = false →
  (∀ j u, ts !! j = Some u → is_empty u = false → j = pos) →
  canonical (chain pos t) ∧ ∀ k, path k → tlookup (chain pos t) k = tlookup (TBranch ts) k.
Proof.
  intros [Hlen Hch Hval] Ht He Huniq. pose proof (lookup_lt_Some _ _ _ Ht) as Hlt. rewrite Hlen in Hlt.
  assert (Hl : ∀ k, path k → tlookup (TExt [Z.of_nat pos] t) k = tlookup (TBranch ts) k).
  { intros [|x k] Hk; [by apply path_nonempty in Hk|]. rewrite lookup_branch.
    pose proof (path_child _ _ Hk) as Hx. destruct (decide (x = Z.of_nat pos)) as [->|Hne].
    - change (Z.of_nat pos :: k) with ([Z.of_nat pos] ++ k). rewrite lookup_ext. unfold index.
      by rewrite Nat2Z.id, Ht.
    - rewrite lookup_ext_other by (intros r; simpl; congruence).
      destruct (ts !! index x) as [u|] eqn:Eu; [|done]. destruct (is_empty u) eqn:Ee; [by destruct u|].
      destruct Hne. specialize (Huniq _ _ Eu Ee). unfold index, is_child in *. lia. }
  destruct (decide (pos = 16%nat)) as [->|Hp].
  - destruct (Hval t Ht He) as (v & Hv & ->). split; [by apply (can_leaf [])|exact Hl].
  - assert (Hcan : canonical t) by (apply (Hch pos); [lia|done|done]).
    assert (Hnib : is_nibble (Z.of_nat pos)) by (unfold is_nibble; lia).
    assert (Happ : ∀ k u j, tlookup (TExt (Z.of_nat pos :: k) u) j = tlookup (TExt [Z.of_nat pos] (TExt k u)) j)
      by (intros k u; apply (lookup_ext_app [_])).
    unfold chain. destruct Hcan as [ns v Hn Hv|ns us Hn Hne Hc|us Hul Htw Huc Huv];
      rewrite ?(proj2 (Nat.eqb_neq pos 16)) by done; (split; [|intros k Hk; first [by rewrite Hl|by rewrite Happ, Hl]]).
    + by apply (can_leaf (_ :: ns)); [constructor|].
    + by apply can_ext; [constructor| |].
    + apply can_ext; [by constructor|done|by apply can_branch].
Qed.

Lemma collapse_ok ts :
  fit_children ts → (∃ i t, ts !! i = Some t ∧ is_empty t = false) →
  canonical (collapse ts) ∧ ∀ k, path k → tlookup (collapse ts) k = tlookup (TBranch ts) k.
Proof.
  intros Hfit (i & t & Ht & He). unfold collapse. pose proof (only_child_spec 0 ts) as Ho.
  destruct (only_child 0 ts) as [p|].
  - destruct Ho as (_ & (u & Hu & Hue) & Huniq). rewrite Nat.sub_0_r in Hu.
    rewrite (nth_lookup_Some _ _ _ _ Hu). apply (chain_ok ts); [done|done|done|].
    intros j w Hw Hwe. specialize (Huniq j w Hw Hwe). lia.
  - destruct Ho as [Hall|Htwo].
    + rewrite Forall_lookup in Hall. rewrite (Hall i t Ht) in He. done.
    + split; [|done]. destruct Hfit. by apply can_branch.
Qed.

Lemma prefixLen_miss key k : (∀ r, k ≠ key ++ r) → (prefixLen k key < length key)%nat.
Proof.
  intros Hno.
  destruct (prefixLen_view k key) as [(r & E & _)|[(y & r & E & Hl)|(pre & x & kx & y & ky & _ & E & _ & Hl)]].
  - by destruct (Hno r).
  - rewrite Hl, E, length_app. simpl. lia.
  - rewrite Hl, E, length_app. simpl. lia.
Qed.
Lemma tdelete_ext_miss key t k : (∀ r, k ≠ key ++ r) → tdelete (TExt key t) k = TExt key t.
Proof. intros Hno%prefixLen_miss. simpl. by rewrite (proj2 (Nat.ltb_lt _ _)). Qed.
Lemma tdelete_ext_hit key t r :
  tdelete (TExt key t) (key ++ r) =
    match r with
    | [] => TEmpty
    | _ => extend key (tdelete t r)
    end.
Proof.
  simpl. rewrite prefixLen_app, Nat.ltb_irrefl, length_app, drop_app_length. destruct r; simpl.
  - by rewrite Nat.add_0_r, Nat.eqb_refl.
  - by rewrite (proj2 (Nat.eqb_neq _ _)) by lia.
Qed.

Lemma sets_miss k t : path k → tlookup t k = None → sets k None t t.
Proof. intros Hk Hl k' Hk'. by destruct (decide (k' = k)) as [->|]. Qed.

Lemma tdelete_branch_ok ts x k :
  canonical (TBranch ts) → path (x :: k) →
  (∀ t, x ≠ 16 → ts !! index x = Some t → is_empty t = false →
     can (tdelete t k) ∧ sets k None t (tdelete t k)) →
  canonical (tdelete (TBranch ts) (x :: k)) ∧ sets (x :: k) None (TBranch ts) (tdelete (TBranch ts) (x :: k)).
Proof.
  intros Hc Hk IH. inversion Hc as [| |? Hlen Htwo Hch Hlast]; subst. cbn [tdelete].
  pose proof (path_child _ _ Hk) as Hx. set (us := alter _ _ ts).
  assert (∃ t, ts !! index x = Some t) as [t Ht].
  { apply lookup_lt_is_Some. unfold is_child, index in *. lia. }
  assert (Hnew : (is_empty (tdelete t k) = false → x ≠ 16 ∧ canonical (tdelete t k)) ∧
    ∀ k', path (x :: k') → tlookup (tdelete t k) k' = if decide (k' = k) then None else tlookup t k').
  { destruct (path_cons _ _ Hk) as [[-> ->]|[Hnx Hpk]].
    - assert (tdelete t [] = TEmpty) as ->.
      { change (index 16) with 16%nat in Ht. destruct (is_empty t) eqn:Ee; [by destruct t|].
        by destruct (Hlast t Ht Ee) as (v & _ & ->). }
      split; [done|]. intros k' [[_ ->]|[Hn _]]%path_cons; [done|]. unfold is_nibble in Hn. lia.
    - unfold is_nibble in Hnx. assert (Hpk' : ∀ k', path (x :: k') → path k') by (intros k' [[? _]|[_ ?]]%path_cons; [lia|done]).
      destruct (is_empty t) eqn:Ee; [destruct t; try done|].
      + split; [done|]. intros k' _. by destruct (decide _).
      + destruct (IH t ltac:(lia) Ht Ee) as [Hcan Hs]. split; [intros; split; [lia|by apply Hcan]|].
        intros k' Hk'. by apply Hs, Hpk'. }
  destruct Hnew as [Hfit Hlook].
  destruct (collapse_ok us) as [Hcol Hcl].
  - split; [unfold us; by rewrite length_alter|..].
    + intros i a Hi. unfold us. rewrite lookup_alter. destruct (decide _) as [<-|]; [|by apply Hch].
      rewrite Ht. intros [= <-] He. by apply Hfit.
    + intros a. unfold us. rewrite lookup_alter. destruct (decide _) as [E|]; [|by apply Hlast].
      rewrite <- E, Ht. intros [= <-] He. destruct (Hfit He) as [? _]. unfold index, is_child in *. lia.
  - destruct Htwo as (i & j & a & b & Hij & Ha & Hb & Ea & Eb).
    destruct (decide (index x = i)) as [<-|Hi].
    + exists j, b. unfold us. rewrite lookup_alter, decide_False by done. done.
    + exists i, a. unfold us. rewrite lookup_alter, decide_False by done. done.
  - split; [done|]. intros k' Hk'. rewrite Hcl by done. destruct k' as [|z kz]; [by apply path_nonempty in Hk'|].
    rewrite !lookup_branch. unfold us. rewrite lookup_alter. destruct (decide (index x = index z)) as [E|E].
    + apply index_inj in E as ->; [|done|by eapply path_child]. rewrite Ht. simpl.
      rewrite Hlook by done. destruct (decide (kz = k)) as [->|]; [by rewrite decide_True|].
      rewrite decide_False by congruence. done.
    + rewrite decide_False; [done|]. intros [= -> ->]. done.
Qed.

Lemma extend_ok ns t :
  are_nibbles ns → ns ≠ [] → canonical t →
  canonical (extend ns t) ∧ ∀ k, tlookup (extend ns t) k = tlookup (TExt ns t) k.
Proof.
  intros Hn Hne [ms v Hm Hv|ms ts Hm Hmne Hc|ts H1 H2 H3 H4]; cbn [extend]; (split; [|intros k; apply lookup_ext_app || done]).
  - rewrite app_assoc. apply can_leaf; [by apply Forall_app|done].
  - apply can_ext; [by apply Forall_app|by destruct ns|done].
  - apply can_ext; [done|done|by apply can_branch].
Qed.

Lemma tdelete_ok t k :
  canonical t → path k →
  can (tdelete t k) ∧ sets k None t (tdelete t k) ∧
  (∀ ts, t = TBranch ts → is_empty (tdelete t k) = false).
Proof.
  intros Hc. revert k. induction Hc as [ns w Hn Hw|ns ts Hn Hne Hc IH|ts Hlen Htwo Hch IH Hlast]; intros k Hk.
  - assert (Hp : path (ns ++ [16])) by by exists ns.
    destruct (prefix_cases (ns ++ [16]) k) as [[r ->]|Hno].
    + rewrite tdelete_ext_hit, (path_prefix _ _ Hp Hk), app_nil_r. split_and!; [done| |done].
      intros k' Hk'. rewrite (sets_leaf _ w Hp k' Hk'). by destruct (decide _).
    + rewrite tdelete_ext_miss by done. split_and!; [intros _; by apply can_leaf| |done].
      apply sets_miss; [done|]. by apply lookup_ext_other.
  - destruct (prefix_cases ns k) as [[r ->]|Hno].
    + pose proof (nibbles_not_path ns r Hn Hk) as Hr. rewrite tdelete_ext_hit.
      destruct r as [|x r]; [by apply path_nonempty in Hr|]. destruct (IH (x :: r) Hr) as (Hcan & Hs & Hemp).
      destruct (extend_ok ns _ Hn Hne (Hcan (Hemp ts eq_refl))) as [Hext Hlook].
      split_and!; [intros _; exact Hext| |done]. intros k' Hk'. etransitivity; [apply Hlook|].
      by apply (sets_ext ns (x :: r)).
    + rewrite tdelete_ext_miss by done. split_and!; [intros _; by apply can_ext| |done].
      apply sets_miss; [done|]. by apply lookup_ext_other.
  - destruct k as [|x k]; [by apply path_nonempty in Hk|].
    destruct (tdelete_branch_ok ts x k) as [Hcan Hs]; [by apply can_branch|done| |].
    + intros t Hx Ht He. destruct (path_cons _ _ Hk) as [[? _]|[Hnx Hpk]]; [done|].
      destruct (IH (index x) t ltac:(unfold index, is_nibble in *; lia) Ht He k Hpk) as (? & ? & _). done.
    + split_and!; [by intros _|done|]. intros us _. by apply canonical_nonempty.
Qed.

(** ** Contents determine the tree *)

(** A value in a subtree. *)
Lemma canonical_inhabited t : canonical t → ∃ k v, path k ∧ tlookup t k = Some v.
Proof.
  induction 1 as [ns w Hn Hw|ns ts Hn Hne Hc (k & v & Hk & Hl)|ts Hlen Htwo Hch IH Hlast].
  - exists (ns ++ [16]), w. split; [by exists ns|apply lookup_ext_self].
  - exists (ns ++ k), v. split; [by apply path_app|]. by rewrite lookup_ext.
  - destruct Htwo as (i & _ & t & _ & _ & Ht & _ & He & _). pose proof (lookup_lt_Some _ _ _ Ht) as Hlt.
    destruct (decide (i = 16%nat)) as [->|Hi].
    + destruct (Hlast t Ht He) as (v & _ & ->). exists [16], v. split; [apply path_end|].
      rewrite lookup_branch. by change (index 16) with 16%nat; rewrite Ht.
    + destruct (IH i t ltac:(lia) Ht He) as (k & v & Hk & Hl). exists (Z.of_nat i :: k), v.
      split; [apply path_nibble; [unfold is_nibble; lia|done]|].
      rewrite lookup_branch. unfold index. by rewrite Nat2Z.id, Ht.
Qed.

(** The values of a branch at one of its children. *)
Lemma branch_inhabited ts i t :
  canonical (TBranch ts) → ts !! i = Some t → is_empty t = false →
  ∃ k v, path (Z.of_nat i :: k) ∧ tlookup (TBranch ts) (Z.of_nat i :: k) = Some v.
Proof.
  intros Hc Ht He. inversion Hc as [| |? Hlen _ Hch Hlast]; subst.
  pose proof (lookup_lt_Some _ _ _ Ht) as Hlt. setoid_rewrite lookup_branch. unfold index. setoid_rewrite Nat2Z.id.
  rewrite Ht. destruct (decide (i = 16%nat)) as [->|Hi].
  - destruct (Hlast t Ht He) as (v & _ & ->). exists [], v. split; [apply path_end|done].
  - destruct (canonical_inhabited t) as (k & v & Hk & Hl); [apply (Hch i); [lia|done|done]|].
    exists k, v. split; [apply path_nibble; [unfold is_nibble; lia|done]|done].
Qed.

(** The keys of a branch do not all start with the same nibble. *)
Lemma branch_two_keys ts x :
  canonical (TBranch ts) → ∃ y k v, y ≠ x ∧ path (y :: k) ∧ tlookup (TBranch ts) (y :: k) = Some v.
Proof.
  intros Hc. inversion Hc as [| |? Hlen Htwo _ _]; subst.
  destruct Htwo as (i & j & a & b & Hij & Ha & Hb & Ea & Eb).
  destruct (decide (Z.of_nat i = x)) as [<-|Hi].
  - destruct (branch_inhabited ts j b Hc Hb Eb) as (k & v & ? & ?). exists (Z.of_nat j), k, v.
    split_and!; [lia|done|done].
  - destruct (branch_inhabited ts i a Hc Ha Ea) as (k & v & ? & ?). by exists (Z.of_nat i), k, v.
Qed.

Definition same (t u : tree) : Prop := ∀ k, path k → tlookup t k = tlookup u k.

Lemma same_ext_branch key t us : key ≠ [] → canonical (TBranch us) → ¬ same (TExt key t) (TBranch us).
Proof.
  intros Hne Hc Hs. destruct key as [|x key]; [done|].
  destruct (branch_two_keys us x Hc) as (y & k & v & Hy & Hk & Hl). rewrite <- Hs in Hl by done.
  rewrite lookup_ext_other in Hl; [done|]. intros r. simpl. congruence.
Qed.

Lemma same_leaf_ext key v ms us :
  path key → are_nibbles ms → canonical (TBranch us) → ¬ same (TExt key (TLeaf v)) (TExt ms (TBranch us)).
Proof.
  intros Hk Hm Hc Hs.
  assert (Hone : ∀ k w, path k → tlookup (TExt ms (TBranch us)) k = Some w → k = key).
  { intros k w Hpk Hl. rewrite <- Hs in Hl by done. destruct (prefix_cases key k) as [[r ->]|Hno].
    - by rewrite (path_prefix key r), app_nil_r.
    - by rewrite lookup_ext_other in Hl. }
  destruct (branch_two_keys us 0 Hc) as (y & k & w & Hy & Hpk & Hl).
  destruct (branch_two_keys us y Hc) as (z & k' & w' & Hz & Hpk' & Hl').
  assert (ms ++ y :: k = ms ++ z :: k') as [= ? ?]%app_inv_head; [|congruence].
  rewrite (Hone (ms ++ y :: k) w), (Hone (ms ++ z :: k') w'); try done;
    rewrite ?lookup_ext; by try apply path_app.
Qed.

(** Extensions to branches with the same contents have the same key. *)
Lemma same_ext_key ns ts ms us :
  are_nibbles ns → canonical (TBranch ts) → are_nibbles ms → canonical (TBranch us) →
  same (TExt ns (TBranch ts)) (TExt ms (TBranch us)) → ∃ r, ms = ns ++ r.
Proof.
  intros Hn Hc Hm Hd Hs. destruct (prefixLen_view ms ns) as [(r & -> & _)|[(y & r & -> & _)|H]]; [by exists r|..].
  - exfalso. destruct (branch_two_keys us y Hd) as (z & k & v & Hz & Hk & Hl).
    assert (Hp : path (ms ++ z :: k)) by by apply path_app.
    rewrite <- (lookup_ext ms), <- Hs in Hl by done. rewrite lookup_ext_other in Hl; [done|].
    intros r'. rewrite <- app_assoc. simpl. intros [= ? ?]%app_inv_head. done.
  - exfalso. destruct H as (pre & x & kx & y & ky & -> & -> & Hxy & _).
    destruct (canonical_inhabited _ Hd) as (k & v & Hk & Hl).
    assert (Hp : path ((pre ++ x :: kx) ++ k)) by by apply path_app.
    rewrite <- (lookup_ext (pre ++ x :: kx)), <- Hs in Hl by done. rewrite lookup_ext_other in Hl; [done|].
    intros r'. rewrite <- !app_assoc. simpl. intros [= ? ?]%app_inv_head. done.
Qed.

Lemma canonical_unique t u : canonical t → canonical u → same t u → t = u.
Proof.
  intros Hc. revert u. induction Hc as [ns v Hn Hv|ns ts Hn Hne Hc IH|ts Hlen Htwo Hch IH Hlast]; intros u Hu Hs.
  - assert (Hp : path (ns ++ [16])) by by exists ns.
    destruct Hu as [ms w Hm Hw|ms us Hm Hmne Hd|us H1 H2 H3 H4].
    + assert (Hl := Hs (ns ++ [16]) Hp). rewrite lookup_ext_self in Hl.
      destruct (prefix_cases (ms ++ [16]) (ns ++ [16])) as [[r E]|Hno]; [|by rewrite lookup_ext_other in Hl].
      rewrite E, lookup_ext in Hl. simpl in Hl. injection Hl as <-.
      assert (r = []) as ->; [|rewrite app_nil_r in E; congruence].
      apply (path_prefix (ms ++ [16])); [by exists ms|by rewrite <- E].
    + exfalso. by eapply (same_leaf_ext (ns ++ [16]) v ms us).
    + exfalso. eapply (same_ext_branch (ns ++ [16]) (TLeaf v) us); [by destruct ns|by apply can_branch|done].
  - assert (Hs' : ∀ u, same u (TExt ns (TBranch ts)) ↔ same (TExt ns (TBranch ts)) u).
    { intros w. split; intros H k Hk; by rewrite H. }
    destruct Hu as [ms w Hm Hw|ms us Hm Hmne Hd|us H1 H2 H3 H4].
    + exfalso. apply Hs' in Hs. eapply (same_leaf_ext (ms ++ [16]) w ns ts); [by exists ms|done|done|done].
    + destruct (same_ext_key ns ts ms us) as [r Hr]; [done..|].
      destruct (same_ext_key ms us ns ts) as [r' Hr']; [done..|by apply Hs'|].
      assert (r = []) as ->. { rewrite Hr in Hr'. apply (f_equal length) in Hr'. rewrite !length_app in Hr'. destruct r; [done|]. simpl in Hr'. lia. }
      rewrite app_nil_r in Hr. subst ms. f_equal. apply IH; [done|]. intros k Hk.
      rewrite <- (lookup_ext ns (TBranch ts)), <- (lookup_ext ns (TBranch us)). apply Hs. by apply path_app.
    + exfalso. eapply (same_ext_branch ns (TBranch ts) us); [done|by apply can_branch|done].
  - destruct Hu as [ms w Hm Hw|ms us Hm Hmne Hd|us Hul Hut Huc Huv].
    + exfalso. eapply (same_ext_branch (ms ++ [16]) (TLeaf w) ts); [by destruct ms|by apply can_branch|].
      intros k Hk. by rewrite Hs.
    + exfalso. eapply (same_ext_branch ms (TBranch us) ts); [done|by apply can_branch|].
      intros k Hk. by rewrite Hs.
    + f_equal. apply list_eq_same_length with 17%nat; [done|done|]. intros i a b Hi Ha Hb.
      assert (Hk : ∀ k, path (Z.of_nat i :: k) → tlookup a k = tlookup b k).
      { intros k Hk. specialize (Hs _ Hk). rewrite !lookup_branch in Hs. unfold index in Hs.
        by rewrite Nat2Z.id, Ha, Hb in Hs. }
      assert (Hemp : ∀ ts a b, canonical (TBranch ts) → ts !! i = Some a → is_empty a = false →
        is_empty b = true → ∃ k, path (Z.of_nat i :: k) ∧ tlookup a k ≠ tlookup b k).
      { intros xs x y Hxs Hx Ex Ey. destruct (branch_inhabited xs i x Hxs Hx Ex) as (k & v & Hpk & Hl).
        exists k. split; [done|]. rewrite lookup_branch in Hl. unfold index in Hl. rewrite Nat2Z.id, Hx in Hl.
        rewrite Hl. by destruct y. }
      destruct (is_empty a) eqn:Ea, (is_empty b) eqn:Eb.
      * by destruct a, b.
      * destruct (Hemp us b a) as (k & Hpk & Hd); [by apply can_branch|done..|]. by rewrite Hk in Hd.
      * destruct (Hemp ts a b) as (k & Hpk & Hd); [by apply can_branch|done..|]. by rewrite Hk in Hd.
      * destruct (decide (i = 16%nat)) as [->|Hne].
        -- destruct (Hlast a Ha Ea) as (v & _ & ->), (Huv b Hb Eb) as (w & _ & ->).
           specialize (Hk [] path_end). simpl in Hk. congruence.
        -- apply (IH i); [lia|done|done|apply (Huc i); [lia|done|done]|]. intros k Hpk. apply Hk.
           apply path_nibble; [unfold is_nibble; lia|done].
Qed.
