(* ===== verification/TrieNode.v ===== *)
(** * Nodes of the trie and their store (trie/node.go, trie/database.go)

    A node of the trie in memory, its form in the store and its encoding. The
    store keeps nodes by hash, in memory as collapsed nodes, or as encoded bytes
    on the disk. *)

From stdpp Require Import base list gmap strings pretty.
From Stdlib Require Import ZArith Lia.
From S2P Require Import Prelude Bytes Keccak FsnTypes Rlp TrieEncoding.

#[local] Set Warnings "-register-all".

Record nodeFlag := mkFlag {
  fl_hash : option bytes;
  fl_gen : Z;
  fl_dirty : bool;
}.

(** The types that implement the interface [node]; [nilNode] is the nil
    interface. [rawNode], [rawFullNode] and [rawShortNode] are used in the store
    only. *)
Inductive node :=
| nilNode
| fullNode (Children : list node) (flags : nodeFlag)
| shortNode (Key : bytes) (Val : node) (flags : nodeFlag)
| hashNode (h : bytes)
| valueNode (v : bytes)
| rawNode (b : bytes)
| rawFullNode (Children : list node)
| rawShortNode (Key : bytes) (Val : node).

Definition is_nil (n : node) : bool := match n with nilNode => true | _ => false end.

(** [append] of results, the first panic ends it. *)
Definition omapM {A B} (f : A → outcome B) : list A → outcome (list B) :=
  fix go l :=
    match l with
    | [] => Done []
    | a :: l => let? b := f a in let? bs := go l in Done (b :: bs)
    end.

(** The same over the first elements of a list. *)
Definition omapM_upto {A B} (f : A → outcome B) : nat → list A → outcome (list B) :=
  fix go i l {struct l} :=
    match l, i with
    | a :: l, S i => let? b := f a in let? bs := go i l in Done (b :: bs)
    | _, _ => Done []
    end.

(** ** Encoding

    [rlp.Encode] picks the writer by the dynamic type of a node: the two fields
    of a short node, the byte string of a hash or a value, and the list of the
    children of a full node, where [EncodeRLP] puts an empty string for a child
    that is nil. A nil interface is an empty list. *)

Fixpoint node_rtype (n : node) : rtype :=
  match n with
  | nilNode => TStruct []
  | hashNode _ | valueNode _ | rawNode _ => TString
  | shortNode _ v _ | rawShortNode _ v => TStruct [TString; node_rtype v]
  | fullNode cs _ | rawFullNode cs =>
      TStruct (map (fun c => match c with nilNode => TString | _ => node_rtype c end) cs)
  end.
Fixpoint node_rval (n : node) : rval :=
  match n with
  | nilNode => VList []
  | hashNode b | valueNode b | rawNode b => VBytes b
  | shortNode k v _ | rawShortNode k v => VList [VBytes k; node_rval v]
  | fullNode cs _ | rawFullNode cs =>
      VList (map (fun c => match c with nilNode => VBytes [] | _ => node_rval c end) cs)
  end.
Definition node_Encode (n : node) : bytes + rlp_error := EncodeToBytes (node_rtype n) (node_rval n).

(** ** Decoding *)

Inductive node_fault :=
| ErrUnexpectedEOF
| ErrDecode (e : rlp_error)
| ErrElements (c : Z)
| ErrValueNode (e : rlp_error)
| ErrRlp (e : rlp_error)
| ErrOversized (size : Z)
| ErrRefSize (size : Z).
(** An error, and the path of the places it was found at ([decodeError]). *)
Record node_error := mkNodeError { what : node_fault; stack : list string }.
Definition fault (f : node_fault) : node_error := mkNodeError f [].
Definition wrapError {A} (r : A + node_error) (ctx : string) : A + node_error :=
  match r with inl a => inl a | inr e => inr (mkNodeError (what e) (stack e ++ [ctx])) end.

(** The functions that decode a node call each other on a part of their input;
    an embedded node is inside a list, so the length of the input is enough
    fuel. Running out of it, or a panic of [compactToHex], is no result. *)
Definition decodeShort (ref : bytes → outcome ((node * bytes) + node_error)) (flag : nodeFlag)
    (elems : bytes) : outcome (node + node_error) :=
  match SplitString elems with
  | inr e => Done (inr (fault (ErrRlp e)))
  | inl (kbuf, rest) =>
      let? key := compactToHex kbuf in
      if hasTerm key then
        match SplitString rest with
        | inr e => Done (inr (fault (ErrValueNode e)))
        | inl (val, _) => Done (inl (shortNode key (valueNode val) flag))
        end
      else
        let? r := ref rest in
        match wrapError r "val" with
        | inr e => Done (inr e)
        | inl (n, _) => Done (inl (shortNode key n flag))
        end
  end.

(** The name of a position, for the path of an error. *)
Definition position (i : nat) : string := String.append "[" (String.append (pretty i) "]").

Fixpoint decodeChildren (ref : bytes → outcome ((node * bytes) + node_error)) (n i : nat) (elems : bytes)
    : outcome ((list node * bytes) + node_error) :=
  match n with
  | O => Done (inl ([], elems))
  | S n =>
      let? r := ref elems in
      match wrapError r (position i) with
      | inr e => Done (inr e)
      | inl (c, rest) =>
          let? r := decodeChildren ref n (S i) rest in
          match r with
          | inr e => Done (inr e)
          | inl (cs, rest) => Done (inl (c :: cs, rest))
          end
      end
  end.

Definition decodeFull (ref : bytes → outcome ((node * bytes) + node_error)) (flag : nodeFlag)
    (elems : bytes) : outcome (node + node_error) :=
  let? r := decodeChildren ref 16 0 elems in
  match r with
  | inr e => Done (inr e)
  | inl (cs, elems) =>
      match SplitString elems with
      | inr e => Done (inr (fault (ErrRlp e)))
      | inl (val, _) =>
          Done (inl (fullNode (cs ++ [match val with [] => nilNode | _ => valueNode val end]) flag))
      end
  end.

Definition hashLen : Z := 32.

Definition decodeRef (decodeNode : bytes → outcome (node + node_error)) (buf : bytes)
    : outcome ((node * bytes) + node_error) :=
  match Split buf with
  | inr e => Done (inr (fault (ErrRlp e)))
  | inl (kind, val, rest) =>
      let len := Z.of_nat (length val) in
      if bool_decide (kind = List) then
        let size := Z.of_nat (length buf) - Z.of_nat (length rest) in
        if hashLen <? size then Done (inr (fault (ErrOversized size)))
        else
          let? r := decodeNode buf in
          match r with inr e => Done (inr e) | inl n => Done (inl (n, rest)) end
      else if bool_decide (kind = String) && (len =? 0) then Done (inl (nilNode, rest))
      else if bool_decide (kind = String) && (len =? 32) then Done (inl (hashNode val, rest))
      else Done (inr (fault (ErrRefSize len)))
  end.

Fixpoint decodeNode_loop (fuel : nat) (hash : option bytes) (buf : bytes) (cachegen : Z)
    : outcome (node + node_error) :=
  match fuel with
  | O => OutOfFuel
  | S fuel =>
      let ref := decodeRef (fun buf => decodeNode_loop fuel None buf cachegen) in
      let flag := mkFlag hash cachegen false in
      match buf with
      | [] => Done (inr (fault ErrUnexpectedEOF))
      | _ =>
          match SplitList buf with
          | inr e => Done (inr (fault (ErrDecode e)))
          | inl (elems, _) =>
              let c := match CountValues elems with inl c => c | inr _ => 0 end in
              if c =? 2 then let? r := decodeShort ref flag elems in Done (wrapError r "short")
              else if c =? 17 then let? r := decodeFull ref flag elems in Done (wrapError r "full")
              else Done (inr (fault (ErrElements c)))
          end
      end
  end.
Definition decodeNode (hash : option bytes) (buf : bytes) (cachegen : Z) : outcome (node + node_error) :=
  decodeNode_loop (S (length buf)) hash buf cachegen.

Definition mustDecodeNode (hash : option bytes) (buf : bytes) (cachegen : Z) : outcome node :=
  let? r := decodeNode hash buf cachegen in
  match r with inl n => Done n | inr _ => Panic "node %x: %v" end.

(** ** The store *)

Record cachedNode := mkCached {
  cn_node : node;
  cn_size : Z;
  cn_parents : Z;
  cn_children : gmap Hash Z;
  cn_flushPrev : Hash;
  cn_flushNext : Hash;
}.

(** [db_disk] is the database on the disk, by hash; the statistics of the code
    (times, sizes and numbers of nodes) are left out. *)
Record Database := mkDatabase {
  db_disk : Hash → option bytes;
  db_nodes : gmap Hash cachedNode;
  db_oldest : Hash;
  db_newest : Hash;
}.

Definition NewDatabase (disk : Hash → option bytes) : Database :=
  mkDatabase disk {[0 := mkCached nilNode 0 0 ∅ 0 0]} 0 0.

(** The nodes in an expanded node, without their flags. *)
Fixpoint simplifyNode (n : node) : outcome node :=
  match n with
  | shortNode k v _ => let? v := simplifyNode v in Done (rawShortNode k v)
  | fullNode cs _ =>
      let? cs := omapM (fun c => match c with nilNode => Done nilNode | _ => simplifyNode c end) cs in
      Done (rawFullNode cs)
  | valueNode _ | hashNode _ | rawNode _ => Done n
  | _ => Panic "unknown node type"
  end.

Fixpoint expandNode (hash : option bytes) (n : node) (cachegen : Z) : outcome node :=
  match n with
  | rawShortNode k v =>
      let? key := compactToHex k in
      let? v := expandNode None v cachegen in
      Done (shortNode key v (mkFlag hash cachegen false))
  | rawFullNode cs =>
      let? cs := omapM (fun c => match c with nilNode => Done nilNode | _ => expandNode None c cachegen end) cs in
      Done (fullNode cs (mkFlag hash cachegen false))
  | valueNode _ | hashNode _ => Done n
  | _ => Panic "unknown node type"
  end.

(** [obj]: the expanded node, from the collapsed one or from its encoding. *)
Definition cached_obj (c : cachedNode) (hash : Hash) (cachegen : Z) : outcome node :=
  match cn_node c with
  | rawNode b => mustDecodeNode (Some (Hash_Bytes hash)) b cachegen
  | n => expandNode (Some (Hash_Bytes hash)) n cachegen
  end.

(** The hashes of the children that are nodes of their own. *)
Fixpoint gatherChildren (n : node) : outcome (list Hash) :=
  match n with
  | rawShortNode _ v => gatherChildren v
  | rawFullNode cs => let? hs := omapM_upto gatherChildren 16 cs in Done (concat hs)
  | hashNode h => Done [BytesToHash h]
  | valueNode _ | nilNode => Done []
  | _ => Panic "unknown node type"
  end.

(** [childs]: the children outside of the node, and those inside. *)
Definition cached_childs (c : cachedNode) : outcome (list Hash) :=
  let? inner := match cn_node c with rawNode _ => Done [] | n => gatherChildren n end in
  Done ((map_to_list (cn_children c)).*1 ++ inner).

Definition u16 (z : Z) : Z := z mod 65536.
Definition set_parents (p : Z) (c : cachedNode) : cachedNode :=
  mkCached (cn_node c) (cn_size c) p (cn_children c) (cn_flushPrev c) (cn_flushNext c).
Definition set_flushNext (h : Hash) (c : cachedNode) : cachedNode :=
  mkCached (cn_node c) (cn_size c) (cn_parents c) (cn_children c) (cn_flushPrev c) h.

(** [insert]: nothing is done for a node that is there already. *)
Definition db_insert (db : Database) (hash : Hash) (blob : bytes) (n : node) : outcome Database :=
  match db_nodes db !! hash with
  | Some _ => Done db
  | None =>
      let? raw := simplifyNode n in
      let entry := mkCached raw (u16 (Z.of_nat (length blob))) 0 ∅ (db_newest db) 0 in
      let? childs := cached_childs entry in
      let nodes := foldl (fun ns child => alter (fun c => set_parents (u16 (cn_parents c + 1)) c) child ns)
                     (db_nodes db) childs in
      let nodes := <[hash := entry]> nodes in
      if db_oldest db =? 0 then Done (mkDatabase (db_disk db) nodes hash hash)
      else
        match nodes !! db_newest db with
        | None => Panic "nil pointer dereference"
        | Some c =>
            Done (mkDatabase (db_disk db) (<[db_newest db := set_flushNext hash c]> nodes) (db_oldest db) hash)
        end
  end.

(** [node]: the node with a hash, or nil. *)
Definition db_node (db : Database) (hash : Hash) (cachegen : Z) : outcome node :=
  match db_nodes db !! hash with
  | Some c => cached_obj c hash cachegen
  | None =>
      match db_disk db hash with
      | None => Done nilNode
      | Some enc => mustDecodeNode (Some (Hash_Bytes hash)) enc cachegen
      end
  end.

(** [reference]: one more reference from a parent to a child, that is counted
    once for a parent but any number of times for the meta root. *)
Definition set_children (m : gmap Hash Z) (c : cachedNode) : cachedNode :=
  mkCached (cn_node c) (cn_size c) (cn_parents c) m (cn_flushPrev c) (cn_flushNext c).
Definition db_reference (db : Database) (child parent : Hash) : outcome Database :=
  match db_nodes db !! child with
  | None => Done db
  | Some _ =>
      match db_nodes db !! parent with
      | None => Panic "nil pointer dereference"
      | Some p =>
          if bool_decide (is_Some (cn_children p !! child)) && negb (parent =? 0) then Done db
          else
            let count c := set_parents (u16 (cn_parents c + 1)) c in
            let link c := set_children (<[child := u16 (default 0 (cn_children c !! child) + 1)]> (cn_children c)) c in
            Done (mkDatabase (db_disk db) (alter link parent (alter count child (db_nodes db)))
                    (db_oldest db) (db_newest db))
      end
  end.
