(* ===== verification/TrieStore.v ===== *)
(** * Trees in the store

    What the store of nodes holds for a tree: every subtree as a collapsed node,
    where a child is replaced by its hash, or put inside of its parent when its
    encoding is shorter than a hash. The encoding of a collapsed node, read back,
    is the node, so that nodes in memory and on the disk are the same. *)

From stdpp Require Import base list gmap strings.
From Stdlib Require Import ZArith Lia.
From S2P Require Import Prelude Bytes Keccak KeccakFacts FsnTypes Rlp RlpFacts RlpSplit TrieEncoding TrieTree TrieNode.

(** ** The encoding of a node *)

Fixpoint nenc (n : node) : bytes :=
  match n with
  | nilNode => enc_list []
  | hashNode b | valueNode b | rawNode b => enc_string b
  | shortNode k v _ | rawShortNode k v => enc_list (enc_string k ++ nenc v)
  | fullNode cs _ | rawFullNode cs =>
      enc_list (concat (map (fun c => match c with nilNode => enc_string [] | _ => nenc c end) cs))
  end.

(** A child of a full node. *)
Definition cenc (n : node) : bytes := match n with nilNode => enc_string [] | _ => nenc n end.

Section node_ind.
Context (P : node → Prop).
Context (Hnil : P nilNode) (Hhash : ∀ h, P (hashNode h)) (Hvalue : ∀ v, P (valueNode v)) (Hraw : ∀ b, P (rawNode b))
  (Hshort : ∀ k v fl, P v → P (shortNode k v fl)) (Hrshort : ∀ k v, P v → P (rawShortNode k v))
  (Hfull : ∀ cs fl, Forall P cs → P (fullNode cs fl)) (Hrfull : ∀ cs, Forall P cs → P (rawFullNode cs)).

(** Induction over nodes, with the children of a full node. *)
Fixpoint node_ind' (n : node) : P n :=
  let children := fix go cs : Forall P cs :=
    match cs with [] => Forall_nil_2 P | c :: cs => Forall_cons_2 P c cs (node_ind' c) (go cs) end in
  match n with
  | nilNode => Hnil
  | hashNode h => Hhash h
  | valueNode v => Hvalue v
  | rawNode b => Hraw b
  | shortNode k v fl => Hshort k v fl (node_ind' v)
  | rawShortNode k v => Hrshort k v (node_ind' v)
  | fullNode cs fl => Hfull cs fl (children cs)
  | rawFullNode cs => Hrfull cs (children cs)
  end.
End node_ind.

(** All strings of a node are bytes. *)
Fixpoint node_bytes (n : node) : Prop :=
  match n with
  | nilNode => True
  | hashNode b | valueNode b | rawNode b => are_bytes b
  | shortNode k v _ | rawShortNode k v => are_bytes k ∧ node_bytes v
  | fullNode cs _ | rawFullNode cs => foldr (fun c P => node_bytes c ∧ P) True cs
  end.

Lemma node_bytes_children cs : foldr (fun c P => node_bytes c ∧ P) True cs ↔ Forall node_bytes cs.
Proof. induction cs; simpl; [by split|]. by rewrite Forall_cons, IHcs. Qed.

Lemma node_has_type n : node_bytes n → has_type (node_rtype n) (node_rval n).
Proof.
  induction n as [| | | |k v fl IH|k v IH|cs fl IH|cs IH] using node_ind'; cbn [node_bytes]; try done;
    rewrite ?node_bytes_children.
  1-2: (intros [Hk Hv]; simpl; auto).
  all: intros Hb; cbn [node_rtype node_rval has_type]; induction Hb as [|c cs Hc Hb IHcs]; [done|];
    apply Forall_cons in IH as [IH1 IH2]; simpl; split; [|by apply IHcs]; destruct c; try (by apply IH1); constructor.
Qed.

Lemma node_enc n : Rlp.enc (node_rtype n) (node_rval n) = inl (nenc n).
Proof.
  induction n as [| | | |k v fl IH|k v IH|cs fl IH|cs IH] using node_ind'; try done.
  1-2: (simpl; rewrite IH; simpl; by rewrite app_nil_r).
  all: cbn [node_rtype node_rval Rlp.enc nenc]; set (f := fun c => match c with nilNode => enc_string [] | _ => nenc c end);
    assert (enc_fields (map Rlp.enc (map (fun c => match c with nilNode => TString | _ => node_rtype c end) cs))
      (map (fun c => match c with nilNode => VBytes [] | _ => node_rval c end) cs) = inl (concat (map f cs))) as ->; [|done];
    induction IH as [|c cs Hc _ IHcs]; [done|]; cbn [map enc_fields concat]; rewrite IHcs;
    destruct c; try done; by rewrite Hc.
Qed.

(** The encoder writes the encoding. *)
Lemma node_Encode_ok n : node_bytes n → node_Encode n = inl (nenc n).
Proof. intros Hb. unfold node_Encode. rewrite EncodeToBytes_enc by by apply node_has_type. apply node_enc. Qed.

(** ** Collapsed nodes *)

Definition compact (k : bytes) : bytes := match hexToCompact k with Done c => c | _ => [] end.

(** A node as a child: by its hash, unless it is short. *)
Definition embed (n : node) : node :=
  match n with
  | nilNode | valueNode _ => n
  | _ => if (length (nenc n) <? 32)%nat then n else hashNode (Reference.keccak256 (nenc n))
  end.

Fixpoint collapsed (t : tree) : node :=
  match t with
  | TEmpty => nilNode
  | TLeaf v => valueNode v
  | TExt k t => rawShortNode (compact k) (embed (collapsed t))
  | TBranch ts => rawFullNode (map (fun t => embed (collapsed t)) ts)
  end.

(** The encoding of a tree, its hash, and whether it is a node of its own. *)
Definition tenc (t : tree) : bytes := nenc (collapsed t).
Definition thash (t : tree) : bytes := Reference.keccak256 (tenc t).
Definition long (t : tree) : bool := negb (length (tenc t) <? 32)%nat.
Definition is_inner (t : tree) : bool := match t with TExt _ _ | TBranch _ => true | _ => false end.

(** The expanded node of a tree, as it is read from the store. *)
Fixpoint live (h : option bytes) (gen : Z) (t : tree) : node :=
  let child t := if is_inner t && long t then hashNode (thash t) else live None gen t in
  match t with
  | TEmpty => nilNode
  | TLeaf v => valueNode v
  | TExt k t => shortNode k (child t) (mkFlag h gen false)
  | TBranch ts => fullNode (map child ts) (mkFlag h gen false)
  end.
Definition child_live (gen : Z) (t : tree) : node :=
  if is_inner t && long t then hashNode (thash t) else live None gen t.

Lemma embed_collapsed t : is_inner t = true →
  embed (collapsed t) = if long t then hashNode (thash t) else collapsed t.
Proof. intros Hi. unfold embed, long, thash, tenc. by destruct t; try done; destruct (_ <? _)%nat. Qed.

(** ** Well-formed trees *)

Inductive subtree (u : tree) : tree → Prop :=
| sub_refl : subtree u u
| sub_ext k t : subtree u t → subtree u (TExt k t)
| sub_branch ts i t : ts !! i = Some t → subtree u t → subtree u (TBranch ts).

#[export] Instance subtree_trans : Transitive subtree.
Proof. intros a b c Hab Hbc. induction Hbc; [done|by constructor|by eapply sub_branch]. Qed.

(** Sizes below which lengths fit into their fields. *)
Definition size_ok (u : tree) : Prop :=
  match u with
  | TLeaf v => are_bytes v ∧ Z.of_nat (length v) < 2 ^ 32
  | TExt k _ => hex_key k ∧ Z.of_nat (length k) < 2 ^ 32
  | TBranch ts => length ts = 17%nat
  | TEmpty => True
  end.
Definition sized (t : tree) : Prop := ∀ u, subtree u t → size_ok u.

Lemma sized_ext k t : sized (TExt k t) → sized t.
Proof. intros Hs u Hu. apply Hs. by constructor. Qed.
Lemma sized_child ts i t : sized (TBranch ts) → ts !! i = Some t → sized t.
Proof. intros Hs Ht u Hu. apply Hs. by eapply sub_branch. Qed.
Lemma sized_self t : sized t → size_ok t.
Proof. intros Hs. apply Hs. constructor. Qed.

Lemma compact_ok k : hex_key k →
  hexToCompact k = Done (compact k) ∧ are_bytes (compact k) ∧ compactToHex (compact k) = Done k.
Proof.
  intros Hk. assert (∃ c, hexToCompact k = Done c ∧ are_bytes c ∧ c ≠ [] ∧ compactToHex c = Done k)
    as (c & Hc & Hb & _ & Hx).
  { destruct Hk as [ns Hn|ns Hn]; [apply (compact_spec 0)|apply (compact_spec 1)]; auto. }
  unfold compact. by rewrite Hc.
Qed.

Section tree_ind.
Context (P : tree → Prop).
Context (Hempty : P TEmpty) (Hleaf : ∀ v, P (TLeaf v)) (Hext : ∀ k t, P t → P (TExt k t))
  (Hbranch : ∀ ts, Forall P ts → P (TBranch ts)).

Fixpoint tree_ind' (t : tree) : P t :=
  match t with
  | TEmpty => Hempty
  | TLeaf v => Hleaf v
  | TExt k t => Hext k t (tree_ind' t)
  | TBranch ts =>
      Hbranch ts ((fix go ts : Forall P ts :=
        match ts with [] => Forall_nil_2 P | t :: ts => Forall_cons_2 P t ts (tree_ind' t) (go ts) end) ts)
  end.
End tree_ind.

Lemma embed_bytes n : node_bytes n → node_bytes (embed n).
Proof. intros Hn. destruct n; try done; cbn [embed]; destruct (_ <? _)%nat; try done; apply keccak256_bytes. Qed.

Lemma collapsed_bytes t : sized t → node_bytes (collapsed t).
Proof.
  induction t as [|v|k t IH|ts IH] using tree_ind'; intros Hs.
  - done.
  - apply (sized_self _ Hs).
  - split; [apply compact_ok, (sized_self _ Hs)|]. apply embed_bytes, IH. by eapply sized_ext.
  - cbn [collapsed node_bytes]. apply node_bytes_children, Forall_map, Forall_forall. intros t Ht.
    apply list_elem_of_lookup in Ht as [i Hi]. rewrite Forall_lookup in IH.
    apply embed_bytes, (IH i t Hi). by eapply sized_child.
Qed.

Lemma collapsed_Encode t : sized t → node_Encode (collapsed t) = inl (tenc t).
Proof. intros Hs. by apply node_Encode_ok, collapsed_bytes. Qed.

(** ** Expanding a node of the memory *)

Lemma omapM_map {A B C} (f : B → outcome C) (g : A → B) (h : A → C) l :
  Forall (fun a => f (g a) = Done (h a)) l → omapM f (map g l) = Done (map h l).
Proof. induction 1 as [|a l Ha _ IH]; [done|]. cbn [map omapM]. rewrite Ha. cbn [obind]. by rewrite IH. Qed.

Lemma expand_child gen t : expandNode None (collapsed t) gen = Done (live None gen t) ∨ is_inner t = false →
  t ≠ TEmpty → expandNode None (embed (collapsed t)) gen = Done (child_live gen t).
Proof.
  intros Ht Hne. unfold child_live. destruct (is_inner t) eqn:Hi.
  - rewrite embed_collapsed by done. simpl. destruct (long t); [done|]. by destruct Ht.
  - by destruct t.
Qed.

Lemma expandNode_live h gen t : sized t → is_inner t = true → (∀ k, ¬ subtree (TExt k TEmpty) t) →
  expandNode h (collapsed t) gen = Done (live h gen t).
Proof.
  revert h. induction t as [|v|k t IH|ts IH] using tree_ind'; intros h Hs Hi Hne; try done.
  - cbn [collapsed expandNode]. destruct (compact_ok k) as (_ & _ & ->); [apply (sized_self _ Hs)|].
    cbn [obind]. rewrite expand_child; [done| |intros ->; by eapply Hne; constructor].
    destruct (is_inner t) eqn:Ht; [left|by right]. apply IH; [by eapply sized_ext|done|].
    intros k' Hk'. apply (Hne k'). by constructor.
  - cbn [collapsed expandNode]. rewrite (omapM_map _ _ (child_live gen)); [done|].
    rewrite Forall_lookup in IH |- *. intros i t Ht.
    assert (embed (collapsed t) = nilNode ∧ t = TEmpty ∨
      expandNode None (embed (collapsed t)) gen = Done (child_live gen t)) as [[-> ->]|He]; [|done|].
    + destruct (decide (is_empty t = true)) as [He|He]; [destruct t; try done; by left|].
      right. apply expand_child; [|by intros ->]. destruct (is_inner t) eqn:Hit; [left|by right].
      apply (IH i t Ht); [by eapply sized_child|done|]. intros k' Hk'. apply (Hne k'). by eapply sub_branch.
    + destruct (embed (collapsed t)); try done.
Qed.

(** ** Sizes *)

Lemma putint_length_bound i : (length (putint i) <= 8)%nat.
Proof. unfold putint. repeat case_match; rewrite length_be_bytes; lia. Qed.
Lemma puthead_length_bound small large size : (length (puthead small large size) <= 9)%nat.
Proof.
  unfold puthead. case_match; simpl; [lia|]. pose proof (putint_length_bound size). lia.
Qed.
Lemma enc_string_bound b : (length (enc_string b) <= 9 + length b)%nat.
Proof.
  destruct b as [|x [|y b]]; simpl; [lia| |].
  - case_match; simpl; lia.
  - rewrite length_app. pose proof (puthead_length_bound 128 183 (Z.of_nat (S (S (length b))))). simpl. lia.
Qed.

Lemma compact_length k : hex_key k → (length (compact k) <= S (length k))%nat.
Proof.
  intros (_ & _ & Hx)%compact_ok. unfold compactToHex in Hx.
  destruct (keybytesToHex (compact k)) as [|b base] eqn:E; [done|].
  assert (Hl : length (b :: base) = (2 * length (compact k) + 1)%nat).
  { rewrite <- E. unfold keybytesToHex. rewrite length_app, length_nibbles_of. done. }
  remember (b :: base) as bs. destruct (_ <? _)%nat eqn:Ec; [done|]. injection Hx as <-.
  rewrite length_drop. assert (Z.to_nat (2 - Z.land b 1) <= 2)%nat.
  { assert (0 <= Z.land b 1) by (apply Z.land_nonneg; lia). lia. }
  destruct (b <? 2); rewrite ?length_take; lia.
Qed.

(** The encoding of a child. *)
Definition ref_enc (t : tree) : bytes := cenc (embed (collapsed t)).

Lemma inner_not_nil t : is_inner t = true → cenc (embed (collapsed t)) = nenc (embed (collapsed t)).
Proof. intros Hi. rewrite embed_collapsed by done. destruct (long t), t; done. Qed.

Lemma ref_enc_inner t : is_inner t = true → ref_enc t = if long t then enc_string (thash t) else tenc t.
Proof. intros Hi. unfold ref_enc. rewrite inner_not_nil, embed_collapsed by done. by destruct (long t). Qed.

Lemma ref_length t : sized t → Z.of_nat (length (ref_enc t)) <= 2 ^ 32 + 9.
Proof.
  intros Hs. destruct (is_inner t) eqn:Hi.
  - rewrite ref_enc_inner by done. destruct (long t) eqn:El.
    + pose proof (enc_string_bound (thash t)) as Hb. unfold thash in Hb |- *.
      rewrite (proj1 (keccak256_bytes _)) in Hb. lia.
    + unfold long in El. apply negb_false_iff, Nat.ltb_lt in El. lia.
  - destruct t as [|v| |]; try done. pose proof (enc_string_bound v).
    apply sized_self in Hs as [_ ?]. unfold ref_enc. simpl. lia.
Qed.

(** The items of a node. *)
Definition items (t : tree) : list bytes :=
  match t with
  | TExt k t => [enc_string (compact k); ref_enc t]
  | TBranch ts => map ref_enc ts
  | _ => []
  end.

Lemma canonical_no_dangling t k : canonical t → ¬ subtree (TExt k TEmpty) t.
Proof.
  intros Hc Hsub. induction Hc as [ns v Hn Hv|ns ts Hn Hne Hc IH|ts Hlen Htwo Hch IH Hlast].
  - inversion Hsub as [|? ? Hs|]; subst. inversion Hs.
  - inversion Hsub as [|? ? Hs|]; subst. by apply IH.
  - inversion Hsub as [| |? i t Ht Hs]; subst. destruct (is_empty t) eqn:He; [destruct t; try done; inversion Hs|].
    pose proof (lookup_lt_Some _ _ _ Ht). destruct (decide (i = 16)%nat) as [->|].
    + destruct (Hlast t Ht He) as (v & _ & ->). inversion Hs.
    + apply (IH i t); [lia|done..].
Qed.

Lemma canonical_ext_child k t : canonical (TExt k t) → ref_enc t = nenc (embed (collapsed t)).
Proof.
  intros Hc. inversion Hc; subst; [done|]. by apply inner_not_nil.
Qed.

Lemma tenc_items t : canonical t → tenc t = enc_list (concat (items t)).
Proof.
  intros Hc. unfold tenc. destruct t as [|v|k t|ts]; try (by inversion Hc).
  - cbn [collapsed nenc items concat]. by rewrite app_nil_r, (canonical_ext_child k).
  - cbn [collapsed nenc items]. by rewrite map_map.
Qed.

Lemma length_concat_bound (es : list bytes) b :
  Forall (fun e => Z.of_nat (length e) <= b) es → Z.of_nat (length (concat es)) <= b * Z.of_nat (length es).
Proof. induction 1; simpl; [lia|]. rewrite length_app. lia. Qed.

Lemma items_fit t : sized t → fits (concat (items t)).
Proof.
  intros Hs. unfold fits, is_u64, two64. split; [lia|].
  assert (Forall (fun e => Z.of_nat (length e) <= 2 ^ 33) (items t) ∧ (length (items t) <= 17)%nat) as [Hb Hl].
  { destruct t as [|v|k t|ts]; simpl; try (by split; [|lia]).
    - split; [|lia]. destruct (sized_self _ Hs) as [Hk Hl]. pose proof (compact_length k Hk).
      pose proof (enc_string_bound (compact k)). pose proof (ref_length t (sized_ext _ _ Hs)).
      repeat constructor; lia.
    - rewrite length_map. pose proof (sized_self _ Hs : length ts = 17%nat). split; [|lia].
      apply Forall_map, Forall_forall. intros t [i Hi]%list_elem_of_lookup.
      pose proof (ref_length t (sized_child _ _ _ Hs Hi)). simpl. lia. }
  pose proof (length_concat_bound _ _ Hb). nia.
Qed.

(** Each is one value. *)
Lemma ref_item t : sized t → (is_inner t = true → canonical t) → ∃ k b, item k b (ref_enc t).
Proof.
  intros Hs Hc. destruct (is_inner t) eqn:Hi.
  - rewrite ref_enc_inner by done. destruct (long t).
    + exists String, (thash t). destruct (keccak256_bytes (tenc t)) as [Hl Hb]. constructor; [done| |].
      * unfold fits, thash. rewrite Hl. done.
      * unfold thash. intros x E. by rewrite E in Hl.
    + rewrite tenc_items by auto. exists List, (concat (items t)). constructor. by apply items_fit.
  - destruct t as [|v| |]; try done.
    + exists String, []. by constructor.
    + destruct (sized_self _ Hs) as [Hb Hl]. destruct (item_of_string v Hb) as (k & Hk & _); [|by exists k, v].
      unfold fits, is_u64, two64. lia.
Qed.

Lemma compact_item k : hex_key k → Z.of_nat (length k) < 2 ^ 32 → are_bytes (compact k) ∧ fits (compact k).
Proof.
  intros Hk Hl. pose proof (compact_length k Hk). split; [by apply compact_ok|].
  unfold fits, is_u64, two64. lia.
Qed.

(** ** Reading the encoding back *)

Section decode.
Context (gen : Z).

Lemma decodeRef_ok dec t rest :
  (long t = false → is_inner t = true → dec (tenc t ++ rest) = Done (inl (live None gen t))) →
  sized t → (is_empty t = false → canonical t) →
  decodeRef dec (ref_enc t ++ rest) = Done (inl (child_live gen t, rest)).
Proof.
  intros Hdec Hs Hc. unfold decodeRef, child_live. destruct (is_inner t) eqn:Hi; cbn [andb].
  - rewrite ref_enc_inner by done. assert (Hct : canonical t) by (apply Hc; by destruct t). destruct (long t) eqn:El.
    + destruct (keccak256_bytes (tenc t)) as [Hl Hb]. fold (thash t) in Hl, Hb.
      rewrite (Split_item String (thash t)).
      * by rewrite Hl.
      * constructor; [done|unfold fits; by rewrite Hl|]. intros x E. by rewrite E in Hl.
    + rewrite (tenc_items t Hct) in *. rewrite (Split_item List (concat (items t))) by (constructor; by apply items_fit).
      rewrite bool_decide_true by done. rewrite length_app. unfold long in El.
      apply negb_false_iff, Nat.ltb_lt in El. rewrite tenc_items in El by done. unfold hashLen.
      rewrite (proj2 (Z.ltb_ge _ _)) by lia. by rewrite Hdec.
  - destruct t as [|v| |]; try done; [|by specialize (Hc eq_refl); inversion Hc].
    rewrite (Split_item String []) by by constructor. done.
Qed.

Lemma decodeChildren_ok ref ts i rest :
  Forall (fun t => ∀ rest, ref (ref_enc t ++ rest) = Done (inl (child_live gen t, rest))) ts →
  decodeChildren ref (length ts) i (concat (map ref_enc ts) ++ rest) = Done (inl (map (child_live gen) ts, rest)).
Proof.
  intros Hall. revert i. induction Hall as [|t ts Ht _ IH]; intros i; [done|].
  cbn [length map concat decodeChildren]. rewrite <- app_assoc, Ht. cbn [obind wrapError]. by rewrite IH.
Qed.

(** The two kinds of node, given how their children are read. *)
Lemma decodeShort_leaf ref fl ns v :
  are_nibbles ns → are_bytes v → fits v → fits (compact (ns ++ [16])) →
  decodeShort ref fl (enc_string (compact (ns ++ [16])) ++ enc_string v ++ []) =
    Done (inl (shortNode (ns ++ [16]) (valueNode v) fl)).
Proof.
  intros Hn Hv Hfv Hfc. destruct (compact_ok (ns ++ [16])) as (_ & Hb & Hx); [by constructor|].
  unfold decodeShort. rewrite SplitString_enc_string, Hx by done. cbn [obind].
  by rewrite hasTerm_closed, SplitString_enc_string.
Qed.

Lemma decodeShort_ext ref fl ns t :
  are_nibbles ns → fits (compact ns) → ref (ref_enc t ++ []) = Done (inl (child_live gen t, [])) →
  decodeShort ref fl (enc_string (compact ns) ++ ref_enc t ++ []) = Done (inl (shortNode ns (child_live gen t) fl)).
Proof.
  intros Hn Hf Hr. destruct (compact_ok ns) as (_ & Hb & Hx); [by constructor|].
  unfold decodeShort. rewrite SplitString_enc_string, Hx by done. cbn [obind].
  by rewrite hasTerm_open, Hr.
Qed.

Lemma decodeFull_ok ref fl ts t :
  length ts = 16%nat →
  Forall (fun t => ∀ rest, ref (ref_enc t ++ rest) = Done (inl (child_live gen t, rest))) ts →
  t = TEmpty ∨ (∃ v, v ≠ [] ∧ t = TLeaf v ∧ are_bytes v ∧ fits v) →
  decodeFull ref fl (concat (map ref_enc (ts ++ [t]))) = Done (inl (fullNode (map (child_live gen) (ts ++ [t])) fl)).
Proof.
  intros Hl Hall Ht. unfold decodeFull. rewrite !map_app, concat_app, <- Hl, decodeChildren_ok by done.
  cbn [obind map concat]. destruct Ht as [->|(v & Hv & -> & Hb & Hf)].
  - change (ref_enc TEmpty) with (enc_string []). by rewrite SplitString_enc_string.
  - change (ref_enc (TLeaf v)) with (enc_string v). rewrite SplitString_enc_string by done. by destruct v.
Qed.

(** What remains once the list is opened and its values counted. *)
Lemma decodeNode_loop_items fuel h t rest :
  canonical t → sized t → Forall (fun e => ∃ k b, item k b e) (items t) →
  decodeNode_loop (S fuel) h (tenc t ++ rest) gen =
    let ref := decodeRef (fun buf => decodeNode_loop fuel None buf gen) in
    let flag := mkFlag h gen false in
    if (length (items t) =? 2)%nat then
      let? r := decodeShort ref flag (concat (items t)) in Done (wrapError r "short")
    else if (length (items t) =? 17)%nat then
      let? r := decodeFull ref flag (concat (items t)) in Done (wrapError r "full")
    else Done (inr (fault (ErrElements (Z.of_nat (length (items t)))))).
Proof.
  intros Hc Hs Hi. rewrite tenc_items by done. cbn [decodeNode_loop].
  destruct (enc_list (concat (items t)) ++ rest) as [|z zs] eqn:E.
  { apply app_nil in E as [E _]. by apply puthead_not_nil in E. }
  rewrite <- E, SplitList_enc_list, CountValues_items by (done || by apply items_fit).
  cbv zeta. set (n := length (items t)). clearbody n.
  destruct (Nat.eqb_spec n 2), (Z.eqb_spec (Z.of_nat n) 2); try lia; [done|].
  destruct (Nat.eqb_spec n 17), (Z.eqb_spec (Z.of_nat n) 17); try lia; done.
Qed.

Lemma sized_leaf v : sized (TLeaf v) → are_bytes v ∧ fits v.
Proof. intros [Hb Hl]%sized_self. split; [done|]. unfold fits, is_u64, two64. lia. Qed.

Lemma items_are_items t : canonical t → sized t → Forall (fun e => ∃ k b, item k b e) (items t).
Proof.
  intros Hc Hs. destruct t as [|v|k t|ts]; try (by constructor).
  - destruct (sized_self _ Hs) as [Hk Hl]. destruct (compact_item k Hk Hl) as [Hb Hf].
    destruct (item_of_string _ Hb Hf) as (q & Hq & _). repeat constructor; [by exists q, (compact k)|].
    apply ref_item; [by eapply sized_ext|]. inversion Hc; by subst.
  - apply Forall_map, Forall_lookup. intros i t Ht. apply ref_item; [by eapply sized_child|]. intros Hi.
    inversion Hc as [| |? Hlen _ Hch Hlast]; subst. pose proof (lookup_lt_Some _ _ _ Ht).
    assert (is_empty t = false) by by destruct t. destruct (decide (i = 16)%nat) as [->|].
    + destruct (Hlast t Ht) as (v & _ & ->); done.
    + apply (Hch i); [lia|done..].
Qed.

Lemma item_length ts i t : canonical (TBranch ts) → ts !! i = Some t → is_inner t = true → long t = false →
  (length (tenc t) < length (tenc (TBranch ts)))%nat.
Proof.
  intros Hc Ht Hi El. rewrite (tenc_items (TBranch ts)) by done. unfold enc_list. rewrite length_app. cbn [items].
  rewrite <- (take_drop_middle ts i t Ht), map_app, concat_app. cbn [map concat].
  rewrite ref_enc_inner, El, !length_app by done.
  match goal with |- context [puthead ?a ?b ?c] => pose proof (puthead_not_nil a b c []) as Hp end.
  rewrite app_nil_r in Hp. destruct (puthead _ _ _); [done|]. simpl. lia.
Qed.

Lemma decodeNode_live t : canonical t → sized t → ∀ fuel h rest, (length (tenc t) < fuel)%nat →
  decodeNode_loop fuel h (tenc t ++ rest) gen = Done (inl (live h gen t)).
Proof.
  induction 1 as [ns v Hn Hv|ns ts Hn Hne Hc IH|ts Hlen Htwo Hch IH Hlast]; intros Hs [|fuel] h rest Hf; try lia.
  - destruct (sized_leaf _ (sized_ext _ _ Hs)) as [Hb Hfv]. destruct (sized_self _ Hs) as [Hk Hl].
    assert (Hc : canonical (TExt (ns ++ [16]) (TLeaf v))) by by constructor.
    rewrite decodeNode_loop_items by (done || by apply items_are_items). cbv zeta. cbn [items length Nat.eqb concat].
    change (ref_enc (TLeaf v)) with (enc_string v). rewrite decodeShort_leaf; [done..|].
    by apply compact_item.
  - destruct (sized_self _ Hs) as [Hk Hl]. assert (Hce : canonical (TExt ns (TBranch ts))) by by constructor.
    rewrite decodeNode_loop_items by (done || by apply items_are_items). cbv zeta. cbn [items length Nat.eqb concat].
    rewrite decodeShort_ext; [done|done|by apply compact_item|].
    apply decodeRef_ok; [|by eapply sized_ext|done]. intros El Hi. apply IH; [by eapply sized_ext|].
    rewrite tenc_items in Hf by done. unfold enc_list in Hf. cbn [items concat] in Hf.
    rewrite ref_enc_inner, El, !length_app in Hf by done. pose proof (enc_string_not_nil (compact ns)).
    destruct (enc_string (compact ns)); [done|]. simpl in Hf. lia.
  - assert (Hcb : canonical (TBranch ts)) by by constructor.
    rewrite decodeNode_loop_items by (done || by apply items_are_items). cbv zeta. cbn [items].
    rewrite length_map, Hlen. cbn [Nat.eqb live].
    destruct (lookup_lt_is_Some_2 ts 16) as [t16 H16]; [lia|].
    assert (ts = take 16 ts ++ [t16]) as Ets by (rewrite <- (take_S_r ts 16), take_ge by (done || lia); done).
    assert (length (take 16 ts) = 16%nat) as Hl16 by (rewrite length_take; lia).
    rewrite Ets. rewrite decodeFull_ok; [done|done| |].
    + apply Forall_lookup. intros i t Ht rest'. pose proof (lookup_lt_Some _ _ _ Ht) as Hlt.
      rewrite lookup_take_lt in Ht by lia.
      apply decodeRef_ok; [|by eapply sized_child|apply (Hch i); [lia|done]].
      intros El Hi. apply (IH i); [lia|done|by destruct t|by eapply sized_child|].
      pose proof (item_length ts i t Hcb Ht Hi El). lia.
    + destruct (is_empty t16) eqn:He; [left; by destruct t16|right].
      destruct (Hlast t16 H16 He) as (v & Hv & ->). exists v.
      destruct (sized_leaf v) as [? ?]; [by eapply sized_child|done].
Qed.
End decode.

(** The encoding determines the node. *)
Lemma tenc_live t u h gen : canonical t → sized t → canonical u → sized u → tenc t = tenc u →
  live h gen t = live h gen u.
Proof.
  intros Hct Hst Hcu Hsu E. pose proof (decodeNode_live gen t Hct Hst (S (length (tenc t))) h [] ltac:(lia)) as Ht.
  rewrite E in Ht. rewrite (decodeNode_live gen u Hcu Hsu (S (length (tenc u))) h [] ltac:(lia)) in Ht. congruence.
Qed.

(** ** What the store holds of a tree *)

Definition tkey (t : tree) : Hash := keccak (tenc t).

Lemma keccak256_Hash m : Hash_Bytes (keccak m) = Reference.keccak256 m.
Proof.
  destruct (keccak256_bytes m) as [Hl Hb]. unfold keccak, BytesToHash, crop. rewrite Hl. simpl.
  unfold Hash_Bytes. change HashLength with 32%nat. rewrite <- Hl. by apply be_bytes_SetBytes.
Qed.

Definition entry (db : Database) (t : tree) : Prop :=
  ∀ gen, db_node db (tkey t) gen = Done (live (Some (thash t)) gen t).
(** All subtrees that are nodes of their own. *)
Definition kept (db : Database) (t : tree) : Prop :=
  ∀ u, subtree u t → is_inner u = true → long u = true → entry db u.
Definition saved (db : Database) (t : tree) : Prop := entry db t ∧ kept db t.

Lemma kept_sub db u t : subtree u t → kept db t → kept db u.
Proof. intros Hu Hk v Hv. apply Hk. by etransitivity. Qed.

(** ** Properties *)

(** The encoder writes a collapsed node without an error, and the decoder
    reads it back, whatever follows it, as the node that expanding the collapsed
    node gives: a node found on the disk is the node found in the memory. *)
Theorem trie_node_roundtrip t hash gen :
  canonical t → sized t →
  ∃ e, node_Encode (collapsed t) = inl e ∧ decodeNode hash e gen = Done (inl (live hash gen t)) ∧
    expandNode hash (collapsed t) gen = Done (live hash gen t).
Proof.
  intros Hc Hs. exists (tenc t). split_and!.
  - by apply collapsed_Encode.
  - unfold decodeNode. rewrite <- (app_nil_r (tenc t)) at 2. by apply decodeNode_live; [..|lia].
  - apply expandNode_live; [done|by destruct Hc|]. intros k. by apply canonical_no_dangling.
Qed.

Definition ex_tree : tree := TExt ([1; 2] ++ [16]) (TLeaf [5; 6]).
Lemma trie_node_roundtrip_witness :
  canonical ex_tree ∧ sized ex_tree ∧ live None 3 ex_tree = shortNode [1; 2; 16] (valueNode [5; 6]) (mkFlag None 3 false) ∧
  ∃ e, node_Encode (collapsed ex_tree) = inl e ∧ decodeNode None e 3 = Done (inl (live None 3 ex_tree)) ∧
    expandNode None (collapsed ex_tree) 3 = Done (live None 3 ex_tree).
Proof.
  assert (Hn : are_nibbles [1; 2]) by (repeat constructor; unfold is_nibble; lia).
  assert (Hb : are_bytes [5; 6]) by (repeat constructor; unfold is_byte; lia).
  assert (Hc : canonical ex_tree) by (by apply can_leaf).
  assert (Hs : sized ex_tree).
  { intros u Hu. inversion Hu as [|? ? Hu'|]; subst; [split; [by apply hex_closed|done]|].
    inversion Hu'; subst. by split. }
  split; [exact Hc|]. split; [exact Hs|]. split; [reflexivity|]. exact (trie_node_roundtrip ex_tree None 3 Hc Hs).
Defined.
