(* ===== verification/Trie.v ===== *)
(** * The Merkle Patricia trie (trie/trie.go, trie/hasher.go, trie/secure_trie.go)

    Lookup, insertion and deletion on nodes that are loaded from the store on
    demand, and the hashing that writes them back. The recursion of the code
    consumes the key; a hash is resolved once before that, so twice the length
    of the key is enough fuel. *)

From stdpp Require Import base list gmap strings.
From Stdlib Require Import ZArith Lia.
From S2P Require Import Prelude Bytes Keccak FsnTypes Rlp TrieEncoding TrieNode.

Record MissingNodeError := mkMissing { NodeHash : Hash; Path : bytes }.

Record Trie := mkTrie {
  t_root : node;
  t_originalRoot : Hash;
  t_cachegen : Z;
  t_cachelimit : Z;
}.

(** The hash of an empty trie, the Keccak-256 of the encoding 0x80. *)
Definition emptyRoot : Hash := 0x56e81f171bcc55a6ff8345e692c0f86e5b48e01b996cadc001622fb5e363b421.

Definition set_root (n : node) (t : Trie) : Trie :=
  mkTrie n (t_originalRoot t) (t_cachegen t) (t_cachelimit t).

(** A result or the error of a node that is not in the store. *)
Abbreviation tried A := (outcome (A + MissingNodeError)).
Definition tbind {A B} (m : tried A) (k : A → tried B) : tried B :=
  let? r := m in match r with inl a => k a | inr e => Done (inr e) end.
Notation "'try' x ':=' m 'in' k" := (tbind m (fun x => k))
  (at level 10, x pattern, m at level 100, k at level 200) : go_scope.

Section trie.
Context (db : Database) (cachegen : Z).

Definition newFlag : nodeFlag := mkFlag None cachegen true.

Definition resolveHash (h prefix : bytes) : tried node :=
  let hash := BytesToHash h in
  let? n := db_node db hash cachegen in
  if is_nil n then Done (inr (mkMissing hash prefix)) else Done (inl n).

Definition resolve (n : node) (prefix : bytes) : tried node :=
  match n with hashNode h => resolveHash h prefix | _ => Done (inl n) end.

Definition set_gen (fl : nodeFlag) : nodeFlag := mkFlag (fl_hash fl) cachegen (fl_dirty fl).

(** An element of the array of children. *)
Definition child_at (cs : list node) (x : Z) : outcome node :=
  match cs !! Z.to_nat x with
  | Some c => if x <? 0 then Panic "index out of range" else Done c
  | None => Panic "index out of range"
  end.
Definition key_at (key : bytes) (i : nat) : outcome Z :=
  match key !! i with Some x => Done x | None => Panic "index out of range" end.

(** ** Lookup

    The value, the node with what was loaded, and whether something was. *)
Fixpoint tryGet (fuel : nat) (origNode : node) (key : bytes) (pos : nat)
    : tried (option bytes * node * bool) :=
  match fuel with
  | O => OutOfFuel
  | S fuel =>
      match origNode with
      | nilNode => Done (inl (None, nilNode, false))
      | valueNode v => Done (inl (Some v, origNode, false))
      | shortNode k v fl =>
          if (length key - pos <? length k)%nat || negb (bool_decide (k = take (length k) (drop pos key)))
          then Done (inl (None, origNode, false))
          else
            try r := tryGet fuel v key (pos + length k) in
            let '(value, newnode, didResolve) := r in
            Done (inl (value, if didResolve : bool then shortNode k newnode (set_gen fl) else origNode, didResolve))
      | fullNode cs fl =>
          let? x := key_at key pos in
          let? c := child_at cs x in
          try r := tryGet fuel c key (pos + 1) in
          let '(value, newnode, didResolve) := r in
          Done (inl (value, if didResolve : bool then fullNode (<[Z.to_nat x := newnode]> cs) (set_gen fl) else origNode,
                     didResolve))
      | hashNode h =>
          try child := resolveHash h (take pos key) in
          try r := tryGet fuel child key pos in
          let '(value, newnode, _) := r in
          Done (inl (value, newnode, true))
      | _ => Panic "invalid node"
      end
  end.

(** ** Insertion

    Whether something changed, and the new node. *)
Fixpoint insert (fuel : nat) (n : node) (prefix key : bytes) (value : node) : tried (bool * node) :=
  match fuel with
  | O => OutOfFuel
  | S fuel =>
      match key with
      | [] =>
          match n, value with
          | valueNode v, valueNode w => Done (inl (negb (bool_decide (v = w)), value))
          | valueNode _, _ => Panic "interface conversion"
          | _, _ => Done (inl (true, value))
          end
      | x :: rest =>
          match n with
          | shortNode k v fl =>
              let matchlen := prefixLen key k in
              if (matchlen =? length k)%nat then
                try r := insert fuel v (prefix ++ take matchlen key) (drop matchlen key) value in
                let '(dirty, nn) := r in
                Done (inl (if dirty : bool then (true, shortNode k nn newFlag) else (false, n)))
              else
                let? a := key_at k matchlen in
                let? b := key_at key matchlen in
                try r1 := insert fuel nilNode (prefix ++ take (S matchlen) k) (drop (S matchlen) k) v in
                let? _ := child_at (replicate 17 nilNode) a in
                let cs := <[Z.to_nat a := r1.2]> (replicate 17 nilNode) in
                try r2 := insert fuel nilNode (prefix ++ take (S matchlen) key) (drop (S matchlen) key) value in
                let? _ := child_at (replicate 17 nilNode) b in
                let branch := fullNode (<[Z.to_nat b := r2.2]> cs) newFlag in
                Done (inl (true, match matchlen with
                                 | O => branch
                                 | _ => shortNode (take matchlen key) branch newFlag
                                 end))
          | fullNode cs fl =>
              let? c := child_at cs x in
              try r := insert fuel c (prefix ++ [x]) rest value in
              let '(dirty, nn) := r in
              Done (inl (if dirty : bool then (true, fullNode (<[Z.to_nat x := nn]> cs) newFlag) else (false, n)))
          | nilNode => Done (inl (true, shortNode key value newFlag))
          | hashNode h =>
              try rn := resolveHash h prefix in
              try r := insert fuel rn prefix key value in
              let '(dirty, nn) := r in
              Done (inl (if dirty : bool then (true, nn) else (false, rn)))
          | _ => Panic "invalid node"
          end
      end
  end.

(** ** Deletion *)

(** The loop that looks for the only child: [pos] is -1 before the first child
    and -2 when there are two. *)
Fixpoint only_entry (i pos : Z) (cs : list node) : Z :=
  match cs with
  | [] => pos
  | c :: cs =>
      if is_nil c then only_entry (i + 1) pos cs
      else if pos =? -1 then only_entry (i + 1) i cs else -2
  end.

(** A full node with the children [cs], reduced when it has one child. *)
Definition reduce (cs : list node) (prefix : bytes) : tried node :=
  let pos := only_entry 0 (-1) cs in
  if 0 <=? pos then
    let c := nth (Z.to_nat pos) cs nilNode in
    let one := shortNode [pos] c newFlag in
    if negb (pos =? 16) then
      try cnode := resolve c prefix in
      Done (inl (match cnode with
                 | shortNode k v _ => shortNode (pos :: k) v newFlag
                 | _ => one
                 end))
    else Done (inl one)
  else Done (inl (fullNode cs newFlag)).

Fixpoint delete (fuel : nat) (n : node) (prefix key : bytes) : tried (bool * node) :=
  match fuel with
  | O => OutOfFuel
  | S fuel =>
      match n with
      | shortNode k v fl =>
          let matchlen := prefixLen key k in
          if (matchlen <? length k)%nat then Done (inl (false, n))
          else if (matchlen =? length key)%nat then Done (inl (true, nilNode))
          else
            try r := delete fuel v (prefix ++ take (length k) key) (drop (length k) key) in
            let '(dirty, child) := r in
            Done (inl (if dirty : bool then
                         (true, match child with
                                | shortNode k' v' _ => shortNode (k ++ k') v' newFlag
                                | _ => shortNode k child newFlag
                                end)
                       else (false, n)))
      | fullNode cs fl =>
          let? x := key_at key 0 in
          let? c := child_at cs x in
          try r := delete fuel c (prefix ++ [x]) (drop 1 key) in
          let '(dirty, nn) := r in
          if dirty : bool then
            try n' := reduce (<[Z.to_nat x := nn]> cs) prefix in Done (inl (true, n'))
          else Done (inl (false, n))
      | valueNode _ => Done (inl (true, nilNode))
      | nilNode => Done (inl (false, nilNode))
      | hashNode h =>
          try rn := resolveHash h prefix in
          try r := delete fuel rn prefix key in
          let '(dirty, nn) := r in
          Done (inl (if dirty : bool then (true, nn) else (false, rn)))
      | _ => Panic "invalid node"
      end
  end.
End trie.

Definition fuel_for (key : bytes) : nat := S (S (2 * length key)).

(** ** The operations of a trie *)

Definition New (root : Hash) (db : Database) : tried Trie :=
  let t := mkTrie nilNode root 0 0 in
  if negb (root =? 0) && negb (root =? emptyRoot) then
    try rootnode := resolveHash db 0 (Hash_Bytes root) [] in Done (inl (set_root rootnode t))
  else Done (inl t).

Definition TryGet (db : Database) (t : Trie) (key : bytes) : tried (option bytes * Trie) :=
  let key := keybytesToHex key in
  try r := tryGet db (t_cachegen t) (fuel_for key) (t_root t) key 0 in
  let '(value, newroot, didResolve) := r in
  Done (inl (value, if didResolve : bool then set_root newroot t else t)).

Definition TryUpdate (db : Database) (t : Trie) (key value : bytes) : tried Trie :=
  let k := keybytesToHex key in
  match value with
  | [] => try r := delete db (t_cachegen t) (fuel_for k) (t_root t) [] k in Done (inl (set_root r.2 t))
  | _ => try r := insert db (t_cachegen t) (fuel_for k) (t_root t) [] k (valueNode value) in
         Done (inl (set_root r.2 t))
  end.

Definition TryDelete (db : Database) (t : Trie) (key : bytes) : tried Trie :=
  let k := keybytesToHex key in
  try r := delete db (t_cachegen t) (fuel_for k) (t_root t) [] k in Done (inl (set_root r.2 t)).
