(* ===== verification/TrieHash.v ===== *)
(** * Hashing and committing a trie (trie/hasher.go, trie/trie.go, trie/secure_trie.go)

    A pass over the nodes that have changed replaces each node by its hash, or
    leaves it inside of its parent when it is short, and with a store puts the
    hashed nodes there. No step of the pass can fail with an error; where the code
    has an error result it is always nil. *)

From stdpp Require Import base list gmap strings.
From Stdlib Require Import ZArith Lia.
From S2P Require Import Prelude Bytes Keccak FsnTypes Rlp TrieEncoding TrieNode Trie.

(** [cache] and [canUnload] of a node. *)
Definition node_cache (n : node) : outcome (option bytes * bool) :=
  match n with
  | fullNode _ fl | shortNode _ _ fl => Done (fl_hash fl, fl_dirty fl)
  | hashNode _ | valueNode _ => Done (None, true)
  | nilNode => Panic "nil pointer dereference"
  | rawNode _ | rawFullNode _ | rawShortNode _ _ => Panic "this should never end up in a live trie"
  end.
Definition flag_canUnload (fl : nodeFlag) (cachegen cachelimit : Z) : bool :=
  negb (fl_dirty fl) && (cachelimit <=? u16 (cachegen - fl_gen fl)).
Definition node_canUnload (n : node) (cachegen cachelimit : Z) : outcome bool :=
  match n with
  | fullNode _ fl | shortNode _ _ fl => Done (flag_canUnload fl cachegen cachelimit)
  | hashNode _ | valueNode _ => Done false
  | nilNode => Panic "nil pointer dereference"
  | rawNode _ | rawFullNode _ | rawShortNode _ _ => Panic "this should never end up in a live trie"
  end.

(** A callback on the leaves that are stored; its error is dropped. *)
Abbreviation LeafCallback := (bytes → Hash → Database → outcome Database).

(** The state of the keccak sponge is reset before each use. *)
Definition makeHashNode (data : bytes) : outcome bytes :=
  let? d := Write NewKeccak256 data in let? r := Read d 32 in Done r.1.

Section hasher.
Context (cachegen cachelimit : Z) (onleaf : option LeafCallback).

(** The leaves of the node with a hash, given to the callback. *)
Definition leaf_callback (hash : Hash) (child : node) (db : Database) : outcome Database :=
  match onleaf, child with
  | Some f, valueNode v => f v hash db
  | _, _ => Done db
  end.
Definition store_leaves (hash : Hash) (n : node) (db : Database) : outcome Database :=
  match n with
  | shortNode _ v _ => leaf_callback hash v db
  | fullNode cs _ =>
      foldl (fun (m : outcome Database) c => let? db := m in leaf_callback hash c db) (Done db) (take 16 cs)
  | _ => Done db
  end.

Definition store (n : node) (db : option Database) (force : bool) : outcome (node * option Database) :=
  match n with
  | nilNode | hashNode _ => Done (n, db)
  | _ =>
      match node_Encode n with
      | inr _ => Panic "encode error: "
      | inl tmp =>
          if (length tmp <? 32)%nat && negb force then Done (n, db)
          else
            let? c := node_cache n in
            let? hash := match c.1 with None => makeHashNode tmp | Some h => Done h end in
            match db with
            | None => Done (hashNode hash, None)
            | Some db =>
                let h := BytesToHash hash in
                let? db := db_insert db h tmp n in
                let? db := store_leaves h n db in
                Done (hashNode hash, Some db)
            end
      end
  end.

(** The flags of a node that was hashed. *)
Definition set_hashed (hashed : node) (stored : bool) (n : node) : node :=
  let h := match hashed with hashNode h => Some h | _ => None end in
  let upd fl := mkFlag h (fl_gen fl) (if stored then false else fl_dirty fl) in
  match n with
  | shortNode k v fl => shortNode k v (upd fl)
  | fullNode cs fl => fullNode cs (upd fl)
  | _ => n
  end.

Definition has_db (db : option Database) : bool := match db with Some _ => true | None => false end.

(** [hash], around the hashing of the children. *)
Definition hash_with (hashChildren : outcome (node * node * option Database)) (n : node)
    (db : option Database) (force : bool) : outcome (node * node * option Database) :=
  let walk :=
    let? r := hashChildren in
    let '(collapsed, cached, db') := r in
    let? s := store collapsed db' force in
    let '(hashed, db') := s in
    Done (hashed, set_hashed hashed (has_db db) cached, db') in
  let? c := node_cache n in
  let '(hash, dirty) := c in
  match hash with
  | None => walk
  | Some h =>
      match db with
      | None => Done (hashNode h, n, db)
      | Some _ =>
          let? unload := node_canUnload n cachegen cachelimit in
          if unload : bool then Done (hashNode h, hashNode h, db)
          else if negb dirty then Done (hashNode h, n, db)
          else walk
      end
  end.

(** The first sixteen children, with a function that hashes a child. *)
Definition hash_list (f : node → option Database → outcome (node * node * option Database))
    : nat → list node → option Database → outcome (list node * list node * option Database) :=
  fix go i cs db {struct cs} :=
    match cs, i with
    | c :: cs, S i =>
        let? r := (if is_nil c then Done (c, c, db) else f c db) in
        let '(h, k, db) := r in
        let? rs := go i cs db in
        let '(hs, ks, db) := rs in
        Done (h :: hs, k :: ks, db)
    | cs, _ => Done (cs, cs, db)
    end.

Fixpoint hash (n : node) (db : option Database) (force : bool) {struct n}
    : outcome (node * node * option Database) :=
  let hashChildren :=
    match n with
    | shortNode k v fl =>
        let? key := hexToCompact k in
        let? r := match v with valueNode _ => Done (v, v, db) | _ => hash v db false end in
        let '(h, c, db) := r in
        Done (shortNode key h fl, shortNode k c fl, db)
    | fullNode cs fl =>
        let? r := hash_list (fun c db => hash c db false) 16 cs db in
        let '(hs, ks, db) := r in
        Done (fullNode hs fl, fullNode ks fl, db)
    | _ => Done (n, n, db)
    end in
  hash_with hashChildren n db force.
End hasher.

(** ** Root hash and commit *)

Definition hashRoot (t : Trie) (db : option Database) (onleaf : option LeafCallback)
    : outcome (node * node * option Database) :=
  match t_root t with
  | nilNode => Done (hashNode (Hash_Bytes emptyRoot), nilNode, db)
  | _ => hash (t_cachegen t) (t_cachelimit t) onleaf (t_root t) db true
  end.

Definition trie_Hash (t : Trie) : outcome (Hash * Trie) :=
  let? r := hashRoot t None None in
  let '(h, cached, _) := r in
  match h with
  | hashNode h => Done (BytesToHash h, set_root cached t)
  | _ => Panic "interface conversion"
  end.

Definition trie_Commit (t : Trie) (db : Database) (onleaf : option LeafCallback)
    : outcome (Hash * Trie * Database) :=
  let? r := hashRoot t (Some db) onleaf in
  let '(h, cached, db') := r in
  match h, db' with
  | hashNode h, Some db' =>
      Done (BytesToHash h,
            mkTrie cached (t_originalRoot t) (u16 (t_cachegen t + 1)) (t_cachelimit t), db')
  | _, _ => Panic "interface conversion"
  end.

Definition SetCacheLimit (l : Z) (t : Trie) : Trie :=
  mkTrie (t_root t) (t_originalRoot t) (t_cachegen t) l.
