(* ===== verification/TrieFacts.v ===== *)
(** * The trie implements a radix tree, and so a map

    The nodes of a trie, with those that are still in the store, stand for a tree
    ([expands]). Lookup, insertion and deletion on nodes are [tlookup], [tinsert]
    and [tdelete] on the tree, whichever part of it is loaded; no node is missing
    and the fuel suffices. *)

From stdpp Require Import base list gmap strings.
From Stdlib Require Import ZArith Lia.
From S2P Require Import Prelude Bytes Keccak KeccakFacts FsnTypes Rlp TrieEncoding TrieTree TrieNode TrieStore Trie.

#[local] Set Warnings "-register-all".

(** ** Nodes as trees *)

(** A cached hash is the hash of the tree. Below the root only nodes of their own
    have one; and a node that is not dirty is in the store, by itself or inside
    of its parent. *)
Definition flag_ok (db : Database) (root : bool) (fl : nodeFlag) (t : tree) : Prop :=
  match fl_hash fl with
  | Some h => h = thash t ∧ (root = false → long t = true) ∧ (fl_dirty fl = false → saved db t)
  | None => fl_dirty fl = false → root = false ∧ long t = false
  end.

Inductive expands (db : Database) : bool → node → tree → Prop :=
| ex_nil r : expands db r nilNode TEmpty
| ex_value r v : expands db r (valueNode v) (TLeaf v)
| ex_short r k n t fl :
    expands db false n t → flag_ok db r fl (TExt k t) → expands db r (shortNode k n fl) (TExt k t)
| ex_full r cs ts fl :
    Forall2 (expands db false) cs ts → flag_ok db r fl (TBranch ts) → expands db r (fullNode cs fl) (TBranch ts)
| ex_hash r t :
    is_inner t = true → (r = false → long t = true) → saved db t → expands db r (hashNode (thash t)) t.

Definition is_hashNode (n : node) : bool := match n with hashNode _ => true | _ => false end.
Definition inner (n : node) : bool :=
  match n with shortNode _ _ _ | fullNode _ _ => true | _ => false end.

(** The fuel for a key, with one more for a hash. *)
Definition enough (fuel : nat) (n : node) (len : nat) : Prop :=
  (2 * len + (if is_hashNode n then 1 else 0) < fuel)%nat.

Section facts.
Context (db : Database) (gen : Z).

Lemma flag_new r t : flag_ok db r (newFlag gen) t.
Proof. done. Qed.
Lemma flag_gen r fl t : flag_ok db r fl t → flag_ok db r (set_gen gen fl) t.
Proof. done. Qed.
#[local] Hint Resolve flag_new flag_gen : core.

(** A node read from the store. *)
Lemma live_expands r h g t :
  kept db t → flag_ok db r (mkFlag h g false) t → expands db r (live h g t) t.
Proof.
  revert r h. induction t as [|v|k t IH|ts IH] using tree_ind'; intros r h Hk Hf.
  1-2: constructor.
  all: assert (Hchild : ∀ t, kept db t → (∀ r h, kept db t → flag_ok db r (mkFlag h g false) t → expands db r (live h g t) t) →
    expands db false (child_live g t) t) by (intros u Hu IHu; unfold child_live;
      destruct (is_inner u) eqn:Hi, (long u) eqn:El; simpl;
      [constructor; [done..|]; split; [apply Hu; [constructor|done..]|done]|by apply IHu| |]; destruct u; try done; constructor).
  - constructor; [|done]. apply Hchild; [|done]. eapply kept_sub; [|done]. repeat constructor.
  - constructor; [|done]. apply Forall2_fmap_l, Forall_Forall2_diag, Forall_lookup. intros i t Ht.
    rewrite Forall_lookup in IH. apply Hchild; [|by eapply IH]. eapply kept_sub; [|done].
    eapply sub_branch; [done|constructor].
Qed.

Lemma resolveHash_ok r h t prefix : expands db r (hashNode h) t →
  ∃ n, resolveHash db gen h prefix = Done (inl n) ∧ inner n = true ∧ expands db r n t.
Proof.
  inversion 1 as [| | | |? ? Hi Hl [He Hk]]; subst. exists (live (Some (thash t)) gen t).
  unfold resolveHash, thash. change (BytesToHash _) with (tkey t). rewrite He. cbn [obind].
  assert (inner (live (Some (thash t)) gen t) = true) by by destruct t.
  split_and!; [by destruct (live _ _ _)|done|]. by apply live_expands.
Qed.

Lemma inner_not_hash n : inner n = true → is_hashNode n = false.
Proof. by destruct n. Qed.

Lemma expands_empty r n t : expands db r n t → is_nil n = is_empty t.
Proof. inversion 1 as [| | | |? u Hi]; subst; try done. by destruct t. Qed.

Lemma child_at_ok cs ts x : Forall2 (expands db false) cs ts → length ts = 17%nat → is_child x →
  ∃ c t, child_at cs x = Done c ∧ cs !! index x = Some c ∧ ts !! index x = Some t ∧ expands db false c t.
Proof.
  intros Hall Hlen Hx. unfold is_child in Hx.
  destruct (lookup_lt_is_Some_2 ts (index x)) as [t Ht]; [unfold index; lia|].
  destruct (Forall2_lookup_r _ _ _ _ _ Hall Ht) as (c & Hc & He). exists c, t. split_and!; try done.
  unfold child_at. unfold index in Hc. rewrite Hc. by rewrite (proj2 (Z.ltb_ge x 0)) by lia.
Qed.

Lemma alter_same (f : tree → tree) (ts : list tree) i t : ts !! i = Some t → f t = t → alter f i ts = ts.
Proof.
  intros Ht Hf. rewrite (list_alter_ext f id ts ts i); [by apply list_alter_id| |done].
  intros u Hu. by simplify_eq.
Qed.

(** Replacing a child. *)
Lemma expands_insert cs ts x c f t :
  Forall2 (expands db false) cs ts → ts !! index x = Some t → expands db false c (f t) →
  Forall2 (expands db false) (<[Z.to_nat x := c]> cs) (alter f (index x) ts).
Proof.
  intros Hall Ht Hc. rewrite list_insert_alter. apply Forall2_alter; [done|].
  unfold index in *. intros y z _ Hz _. by simplify_eq.
Qed.

(** ** Where a key may meet a tree *)

Inductive sits : bytes → tree → Prop :=
| sits_empty k : sits k TEmpty
| sits_leaf v : sits [] (TLeaf v)
| sits_canonical k t : canonical t → path k → sits k t.

Lemma sits_nil t : sits [] t → t = TEmpty ∨ ∃ v, t = TLeaf v.
Proof. inversion 1; eauto. by destruct (path_nonempty []). Qed.

Lemma sits_ext key r t : sits (key ++ r) (TExt key t) → sits r t.
Proof.
  inversion 1 as [| |? ? Hc Hp]; subst. inversion Hc as [ns v Hn Hv|ns ts Hn Hne Hb|]; subst.
  - rewrite (path_prefix _ _ ltac:(by exists ns) Hp). constructor.
  - apply sits_canonical; [done|]. by eapply nibbles_not_path.
Qed.

Lemma sits_ext_key key k t : sits k (TExt key t) → key ≠ [].
Proof. inversion 1 as [| |? ? Hc Hp]; subst. inversion Hc as [[]| |]; by subst. Qed.

Lemma sits_extend key k t : sits k (TExt key t) → extend key t = TExt key t.
Proof. inversion 1 as [| |? ? Hc Hp]; subst. by inversion Hc. Qed.

Lemma sits_child x k ts t : sits (x :: k) (TBranch ts) → ts !! index x = Some t → sits k t.
Proof.
  inversion 1 as [| |? ? Hc Hp]; subst. inversion Hc as [| |? Hlen Htwo Hch Hlast]; subst. intros Ht.
  destruct (is_empty t) eqn:He; [destruct t; try done; constructor|].
  destruct (path_cons _ _ Hp) as [[-> ->]|[Hx Hk]].
  - destruct (Hlast t Ht He) as (v & _ & ->). constructor.
  - apply sits_canonical; [|done]. apply (Hch (index x)); try done. unfold index, is_nibble in *. lia.
Qed.

Lemma sits_branch x k ts : sits (x :: k) (TBranch ts) → length ts = 17%nat ∧ two ts ∧ is_child x.
Proof.
  inversion 1 as [| |? ? Hc Hp]; subst. inversion Hc; subst. split_and!; try done. by eapply path_child.
Qed.
Lemma sits_branch_nil ts : ¬ sits [] (TBranch ts).
Proof. inversion 1; subst. by destruct (path_nonempty []). Qed.

(** A key that leads past a node with a longer key, or away from it. *)
Lemma sits_not_shorter k key y r t : sits k (TExt key t) → key ≠ k ++ y :: r.
Proof.
  inversion 1 as [| |? ? Hc Hp]; subst. intros ->. inversion Hc as [ns v Hn Hv E|ns ts Hn Hne Hb|]; subst.
  - assert (path (k ++ y :: r)) as Hy by (rewrite <- E; by exists ns). by apply path_prefix in Hy.
  - destruct Hp as (ms & _ & ->). apply Forall_app in Hn as [Hn _].
    apply Forall_app in Hn as [_ Hn]. rewrite Forall_singleton in Hn. unfold is_nibble in Hn. lia.
Qed.

(** Where they part, both are positions of a branch. *)
Lemma sits_fork pre x kx y ky t : sits (pre ++ x :: kx) (TExt (pre ++ y :: ky) t) → is_child x ∧ is_child y.
Proof.
  inversion 1 as [| |? ? Hc Hp]; subst. destruct (path_app_inv _ _ Hp) as [_ Hx]; [done|].
  split; [by eapply path_child|]. inversion Hc as [ns v Hn Hv E|ns ts Hn Hne Hb|]; subst.
  - assert (path (pre ++ y :: ky)) as Hy by (rewrite <- E; by exists ns).
    apply path_app_inv in Hy as [_ Hy]; [by eapply path_child|done].
  - apply Forall_app in Hn as [_ [Hy _]%Forall_cons]. by apply nibble_child.
Qed.

(** ** Lookup *)

Lemma tryGet_ok fuel r n t pre k :
  expands db r n t → sits k t → enough fuel n (length k) →
  ∃ n' b, tryGet db gen fuel n (pre ++ k) (length pre) = Done (inl (tlookup t k, n', b)) ∧ expands db r n' t.
Proof.
  revert r n t pre k. induction fuel as [|fuel IH]; intros r n t pre k Hn Hs Hf; [unfold enough in Hf; lia|].
  destruct n as [|cs fl|key v fl|h|v| | |]; try (by inversion Hn).
  - inversion Hn; subst. by exists nilNode, false.
  - inversion Hn as [| | |? ? ts ? Hall Hfl|]; subst. destruct k as [|x k]; [by destruct (sits_branch_nil ts)|].
    destruct (sits_branch _ _ _ Hs) as (Hlen & _ & Hx).
    destruct (child_at_ok cs ts x Hall Hlen Hx) as (c & t & Hca & Hc & Ht & He).
    cbn [tryGet]. unfold key_at. rewrite list_lookup_middle by done. cbn [obind]. rewrite Hca. cbn [obind].
    destruct (IH false c t (pre ++ [x]) k He (sits_child _ _ _ _ Hs Ht)) as (n' & b & Hr & Hn').
    { unfold enough in *. simpl in *. destruct (is_hashNode c); lia. }
    rewrite <- app_assoc, length_app in Hr. simpl in Hr. rewrite Hr. cbn [tbind obind].
    rewrite lookup_branch, Ht. eexists _, b. split; [done|]. destruct b; [|done].
    constructor; [|by auto]. rewrite <- (list_alter_id id ts (index x)) by done. by eapply expands_insert.
  - inversion Hn as [| |? ? ? t' ? He Hfl| |]; subst. cbn [tryGet]. rewrite length_app, drop_app_length.
    replace (length pre + length k - length pre)%nat with (length k) by lia.
    destruct (prefix_cases key k) as [[q ->]|Hno].
    + rewrite length_app, take_app_length, bool_decide_true, lookup_ext by done.
      rewrite (proj2 (Nat.ltb_ge _ _)) by lia. cbn [orb negb].
      destruct (IH false v t' (pre ++ key) q He (sits_ext _ _ _ Hs)) as (n' & b & Hr & Hn').
      { apply sits_ext_key in Hs. rewrite length_app in Hf. unfold enough in *. simpl in *.
        destruct key; [done|]. simpl in Hf. destruct (is_hashNode v); lia. }
      rewrite <- app_assoc, length_app in Hr. rewrite Hr. cbn [tbind obind]. eexists _, b. split; [done|].
      destruct b; constructor; auto.
    + rewrite lookup_ext_other by done. exists (shortNode key v fl), false. split; [|done].
      destruct (Nat.ltb_spec (length k) (length key)); [done|]. rewrite bool_decide_false; [done|].
      intros E. apply (Hno (drop (length key) k)). rewrite E at 1. by rewrite take_drop.
  - destruct (resolveHash_ok r h t (take (length pre) (pre ++ k)) Hn) as (n' & Hr & Hi & He).
    cbn [tryGet]. rewrite Hr. cbn [tbind obind].
    destruct (IH r n' t pre k He Hs) as (n'' & b & Hg & He').
    { unfold enough in *. rewrite inner_not_hash by done. simpl in Hf. lia. }
    rewrite Hg. simpl. eauto.
  - inversion Hn; subst. exists (valueNode v), false. split; [done|constructor].
Qed.

(** ** Insertion *)

Lemma enough_child fuel n c x (k : bytes) : enough (S fuel) n (length (x :: k)) → enough fuel c (length k).
Proof. unfold enough. simpl. destruct (is_hashNode c); lia. Qed.
Lemma enough_ext fuel key v fl c (k : bytes) :
  key ≠ [] → enough (S fuel) (shortNode key v fl) (length (key ++ k)) → enough fuel c (length k).
Proof. unfold enough. rewrite length_app. destruct key; [done|]. simpl. destruct (is_hashNode c); lia. Qed.
Lemma enough_resolved fuel h n len : inner n = true → enough (S fuel) (hashNode h) len → enough fuel n len.
Proof. intros Hi. unfold enough. rewrite (inner_not_hash n Hi). simpl. lia. Qed.

Lemma insert_nil fuel prefix k n t : expands db false n t →
  ∃ n', insert db gen (S fuel) nilNode prefix k n = Done (inl (true, n')) ∧ expands db false n' (tshort k t).
Proof. intros Hn. destruct k; simpl; eexists; (split; [done|]); [done|constructor; auto]. Qed.

Lemma child_at_blank x : is_child x → child_at (replicate 17 nilNode) x = Done nilNode.
Proof.
  intros Hx. unfold is_child in Hx. unfold child_at. rewrite lookup_replicate_2 by lia.
  by rewrite (proj2 (Z.ltb_ge x 0)) by lia.
Qed.

Lemma expands_fork y ny ty x nx tx :
  expands db false ny ty → expands db false nx tx →
  Forall2 (expands db false) (<[Z.to_nat x := nx]> (<[Z.to_nat y := ny]> (replicate 17 nilNode))) (fork y ty x tx).
Proof.
  intros Hy Hx. unfold fork, index, no_children. repeat apply Forall2_insert; try done.
  apply Forall2_replicate. constructor.
Qed.

(** The branch where the key leaves the key of a short node. *)
Lemma insert_fork fuel r pre x kx y ky n t v fl prefix :
  expands db false n t → x ≠ y → is_child x → is_child y →
  ∃ n', insert db gen (S (S fuel)) (shortNode (pre ++ y :: ky) n fl) prefix (pre ++ x :: kx) (valueNode v) =
      Done (inl (true, n')) ∧
    expands db r n' (tshort pre (TBranch (fork y (tshort ky t) x (tshort kx (TLeaf v))))).
Proof.
  intros Hn Hxy Hx Hy. destruct (pre ++ x :: kx) as [|a k] eqn:E; [by apply app_nil in E as [_ ?]|].
  remember (S fuel) as fuel'. cbn [insert]. rewrite <- E, prefixLen_fork, length_app by done. simpl length.
  rewrite (proj2 (Nat.eqb_neq _ _)) by lia. unfold key_at. rewrite !list_lookup_middle by done. cbn [obind].
  rewrite !drop_fork, !take_app_length. subst fuel'.
  destruct (insert_nil fuel (prefix ++ take (S (length pre)) (pre ++ y :: ky)) ky n t Hn) as (n1 & -> & H1).
  cbn [tbind obind]. rewrite child_at_blank by done. cbn [obind].
  destruct (insert_nil fuel (prefix ++ take (S (length pre)) (pre ++ x :: kx)) kx (valueNode v) (TLeaf v))
    as (n2 & -> & H2); [constructor|].
  cbn [tbind obind]. rewrite child_at_blank by done. cbn [obind fst snd].
  eexists; split; [done|]. destruct pre; cbn [length tshort];
    [|constructor; [|auto]]; (constructor; [by apply expands_fork|auto]).
Qed.

Lemma insert_ok fuel r n t prefix k v :
  expands db r n t → sits k t → enough fuel n (length k) →
  ∃ b n', insert db gen fuel n prefix k (valueNode v) = Done (inl (b, n')) ∧
    expands db r n' (tinsert t k v) ∧ (b = false → tinsert t k v = t).
Proof.
  revert r n t prefix k. induction fuel as [|fuel IH]; intros r n t prefix k Hn Hs Hf; [unfold enough in Hf; lia|].
  destruct k as [|x k].
  { rewrite tinsert_nil. destruct (sits_nil t Hs) as [->|[w ->]]; inversion Hn as [| | | |? ? Hi]; subst; try done.
    - exists true, (valueNode v). split_and!; [done|constructor|done].
    - exists (negb (bool_decide (w = v))), (valueNode v). split_and!; [done|constructor|].
      destruct (decide (w = v)) as [->|?]; [done|]. by rewrite bool_decide_false. }
  destruct n as [|cs fl|key c fl|h|w| | |]; try (by inversion Hn).
  - inversion Hn; subst. eexists true, _. split_and!; [done|constructor; [constructor|auto]|done].
  - inversion Hn as [| | |? ? ts ? Hall Hfl|]; subst. destruct (sits_branch _ _ _ Hs) as (Hlen & _ & Hx).
    destruct (child_at_ok cs ts x Hall Hlen Hx) as (c & t & Hca & Hc & Ht & He).
    cbn [insert tinsert]. rewrite Hca. cbn [obind].
    destruct (IH false c t (prefix ++ [x]) k He (sits_child _ _ _ _ Hs Ht)) as (b & n' & -> & Hn' & Hb).
    { by eapply enough_child. }
    cbn [tbind obind]. destruct b; (eexists _, _; split; [done|]).
    + split; [|done]. constructor; [by eapply expands_insert|auto].
    + rewrite (alter_same _ ts (index x) t) by auto. by split.
  - inversion Hn as [| |? ? ? t' ? He Hfl| |]; subst. set (k' := x :: k) in *.
    destruct (prefixLen_view k' key)
      as [(q & E & Hl)|[(y & q & E & _)|(pre & a & ka & y & ky & E & Ek & Hxy & _)]].
    + cbn [insert]. fold k'. subst k'. rewrite E in *. rewrite Hl, Nat.eqb_refl, take_app_length, drop_app_length.
      rewrite tinsert_ext by (by rewrite <- E).
      destruct (IH false c t' (prefix ++ key) q He (sits_ext _ _ _ Hs)) as (b & n' & -> & Hn' & Hb).
      { eapply enough_ext; [by eapply sits_ext_key|done]. }
      rewrite <- E. cbn [tbind obind]. destruct b; (eexists _, _; split; [done|]); (split; [constructor; by auto|done]) || idtac.
      rewrite Hb by done. by split.
    + by destruct (sits_not_shorter k' key y q t').
    + rewrite E, Ek in *. rewrite tinsert_fork by done. assert (fuel = S (pred fuel)) as ->.
      { unfold enough in Hf. rewrite length_app in Hf. simpl in Hf. lia. }
      destruct (sits_fork _ _ _ _ _ _ Hs) as [Ha Hy].
      edestruct insert_fork as (n' & -> & Hn'); [done..|]. by exists true, n'.
  - destruct (resolveHash_ok r h t prefix Hn) as (rn & Hr & Hi & He).
    cbn [insert]. rewrite Hr. cbn [tbind obind].
    destruct (IH r rn t prefix (x :: k) He Hs) as (b & n' & -> & Hn' & Hb); [by eapply enough_resolved|].
    cbn [tbind obind]. destruct b; (eexists _, _; split; [done|]); [done|]. by rewrite Hb.
  - inversion Hn; subst. inversion Hs as [| |? ? Hc]; subst. inversion Hc.
Qed.

(** ** Deletion *)

Lemma only_entry_one i p cs ts : Forall2 (expands db false) cs ts → 0 <= p →
  only_entry i p cs = if forallb is_empty ts then p else -2.
Proof.
  intros Hall Hp. revert i. induction Hall as [|c t cs ts Hc _ IH]; intros i; [done|].
  simpl. rewrite (expands_empty _ _ _ Hc). destruct (is_empty t); simpl; [apply IH|].
  by rewrite (proj2 (Z.eqb_neq _ _)) by lia.
Qed.
Lemma only_entry_ok i cs ts : Forall2 (expands db false) cs ts →
  match only_child i ts with
  | Some p => only_entry (Z.of_nat i) (-1) cs = Z.of_nat p
  | None => only_entry (Z.of_nat i) (-1) cs < 0
  end.
Proof.
  intros Hall. revert i. induction Hall as [|c t cs ts Hc Hall IH]; intros i; [done|].
  simpl. rewrite (expands_empty _ _ _ Hc). destruct (is_empty t); simpl.
  - specialize (IH (S i)). by rewrite Nat2Z.inj_succ in IH.
  - rewrite (only_entry_one _ _ cs ts Hall) by lia. by destruct (forallb is_empty ts).
Qed.

Lemma resolve_ok r n t prefix : expands db r n t →
  ∃ n', resolve db gen n prefix = Done (inl n') ∧ expands db r n' t ∧ is_hashNode n' = false.
Proof.
  intros Hn. destruct (is_hashNode n) eqn:Eh; [|exists n; by destruct n]. destruct n; try done.
  destruct (resolveHash_ok _ _ _ prefix Hn) as (n' & Hr & Hi & He). exists n'. split_and!; try done.
  by apply inner_not_hash.
Qed.

Lemma reduce_ok r cs ts prefix : Forall2 (expands db false) cs ts →
  ∃ n, reduce db gen cs prefix = Done (inl n) ∧ expands db r n (collapse ts) ∧ is_hashNode n = false.
Proof.
  intros Hall. unfold reduce, collapse. pose proof (only_entry_ok 0 cs ts Hall) as Hp.
  pose proof (only_child_spec 0 ts) as Hs. change (Z.of_nat 0) with 0 in Hp. destruct (only_child 0 ts) as [p|]; cycle 1.
  { rewrite (proj2 (Z.leb_gt _ _)) by done. eexists. split_and!; [done|constructor; auto|done]. }
  rewrite Hp, (proj2 (Z.leb_le _ _)), Nat2Z.id by lia.
  destruct Hs as (_ & (t & Ht & _) & _). rewrite Nat.sub_0_r in Ht.
  destruct (Forall2_lookup_r _ _ _ _ _ Hall Ht) as (c & Hc & He).
  rewrite (nth_lookup_Some _ _ _ _ Ht), (nth_lookup_Some _ _ _ _ Hc).
  assert (expands db r (shortNode [Z.of_nat p] c (newFlag gen)) (TExt [Z.of_nat p] t)) as Hone by (constructor; auto).
  destruct (Z.eqb_spec (Z.of_nat p) 16) as [E|E]; cbn [negb].
  - eexists. split_and!; [done| |done]. unfold chain. rewrite (proj2 (Nat.eqb_eq p 16)) by lia.
    rewrite E in Hone. destruct t; simpl; by rewrite ?E.
  - destruct (resolve_ok false c t prefix He) as (c' & Hr & He' & Hh). rewrite Hr. cbn [tbind obind].
    eexists. split; [done|]. unfold chain. rewrite (proj2 (Nat.eqb_neq p 16)) by lia.
    destruct c'; inversion He'; subst; try done; (split; [|done]); try done. constructor; auto.
Qed.

Lemma collapse_two ts : two ts → collapse ts = TBranch ts.
Proof.
  intros (i & j & t & u & Hij & Ht & Hu & Et & Eu). unfold collapse. pose proof (only_child_spec 0 ts) as Hs.
  destruct (only_child 0 ts) as [p|]; [|done]. destruct Hs as (_ & _ & Hs).
  pose proof (Hs i t Ht Et). pose proof (Hs j u Hu Eu). lia.
Qed.

Lemma delete_ok fuel r n t prefix k :
  expands db r n t → sits k t → enough fuel n (length k) →
  ∃ b n', delete db gen fuel n prefix k = Done (inl (b, n')) ∧ expands db r n' (tdelete t k) ∧
    (if b then is_hashNode n' = false else tdelete t k = t).
Proof.
  revert r n t prefix k. induction fuel as [|fuel IH]; intros r n t prefix k Hn Hs Hf; [unfold enough in Hf; lia|].
  destruct n as [|cs fl|key c fl|h|w| | |]; try (by inversion Hn).
  - inversion Hn; subst. by exists false, nilNode.
  - inversion Hn as [| | |? ? ts ? Hall Hfl|]; subst. destruct k as [|x k]; [by destruct (sits_branch_nil ts)|].
    destruct (sits_branch _ _ _ Hs) as (Hlen & Htwo & Hx).
    destruct (child_at_ok cs ts x Hall Hlen Hx) as (c & t & Hca & Hc & Ht & He).
    cbn [delete tdelete]. unfold key_at. simpl lookup. cbn [obind]. rewrite Hca. cbn [obind]. change (drop 1 (x :: k)) with k.
    destruct (IH false c t (prefix ++ [x]) k He (sits_child _ _ _ _ Hs Ht)) as (b & n' & -> & Hn' & Hb).
    { by eapply enough_child. }
    cbn [tbind obind]. destruct b.
    + destruct (reduce_ok r _ _ prefix (expands_insert cs ts x n' (fun t => tdelete t k) t Hall Ht Hn')) as (n & -> & Hr & Hh). by exists true, n.
    + rewrite (alter_same _ ts (index x) t), collapse_two by auto. by eexists _, _.
  - inversion Hn as [| |? ? ? t' ? He Hfl| |]; subst. cbn [delete]. 
    destruct (prefix_cases key k) as [[q ->]|Hno].
    + rewrite tdelete_ext_hit, prefixLen_app, Nat.ltb_irrefl, length_app, take_app_length, drop_app_length.
      destruct q as [|x q]; simpl length.
      { rewrite Nat.add_0_r, Nat.eqb_refl. eexists true, _. split_and!; [done|constructor|done]. }
      rewrite (proj2 (Nat.eqb_neq _ _)) by lia.
      destruct (IH false c t' (prefix ++ key) (x :: q) He (sits_ext _ _ _ Hs)) as (b & n' & -> & Hn' & Hb).
      { eapply enough_ext; [by eapply sits_ext_key|done]. }
      cbn [tbind obind]. destruct b; (eexists _, _; split; [done|]).
      * generalize (tdelete t' (x :: q)) Hn'. intros u Hu.
        destruct n'; try done; inversion Hu; subst; cbn [extend]; split; try done; constructor; auto.
      * rewrite Hb, (sits_extend _ _ _ Hs) by done. by split.
    + rewrite tdelete_ext_miss by done. exists false, (shortNode key c fl). split; [|done].
      by rewrite (proj2 (Nat.ltb_lt _ _)) by by apply prefixLen_miss.
  - destruct (resolveHash_ok r h t prefix Hn) as (rn & Hr & Hi & He).
    cbn [delete]. rewrite Hr. cbn [tbind obind].
    destruct (IH r rn t prefix k He Hs) as (b & n' & -> & Hn' & Hb); [by eapply enough_resolved|].
    cbn [tbind obind]. destruct b; (eexists _, _; split; [done|]); [done|]. by rewrite Hb.
  - inversion Hn; subst. inversion Hs as [|?|? ? Hc]; subst; [|inversion Hc].
    eexists true, _. split_and!; [done|constructor|done].
Qed.

End facts.
