(* ===== verification/TrieHashFacts.v ===== *)
(** * Hashing computes the hash of the tree, committing saves it

    A pass of the hasher over nodes that stand for a tree returns the hash of the
    tree, whatever was cached, and leaves nodes that stand for the same tree; with
    a store, all nodes of the tree are there afterwards and nothing that was there
    is lost. The store keeps one node per hash, so this is proved for a universe
    of trees without collisions. *)

From stdpp Require Import base list gmap strings.
From Stdlib Require Import ZArith Lia.
From S2P Require Import Prelude Bytes Keccak KeccakFacts FsnTypes Rlp RlpFacts TrieEncoding TrieTree TrieNode TrieStore Trie TrieHash TrieFacts.

(** ** Simplified nodes *)

Lemma omapM_inv {A B} (f : A → outcome B) l r : omapM f l = Done r → Forall2 (fun a b => f a = Done b) l r.
Proof.
  revert r. induction l as [|a l IH]; intros r; cbn [omapM]; [intros [= <-]; constructor|].
  destruct (f a) as [b| |] eqn:E; cbn [obind]; try done.
  destruct (omapM f l) as [bs| |]; cbn [obind]; try done. intros [= <-]. constructor; [done|by apply IH].
Qed.

Lemma simplify_nil n : simplifyNode n ≠ Done nilNode.
Proof.
  destruct n; cbn [simplifyNode]; try done.
  - by destruct (omapM _ _).
  - by destruct (simplifyNode _).
Qed.

Definition simplify_child (c : node) : outcome node :=
  match c with nilNode => Done nilNode | _ => simplifyNode c end.
Definition same_enc (n m : node) : Prop := nenc n = nenc m ∧ (node_bytes m → node_bytes n).

Lemma simplify_child_enc c m :
  (∀ m, simplifyNode c = Done m → same_enc c m) → simplify_child c = Done m →
  cenc c = cenc m ∧ (node_bytes m → node_bytes c).
Proof.
  intros IH Hc. destruct (is_nil c) eqn:En; [destruct c; try done; by injection Hc as <-|].
  assert (simplifyNode c = Done m) as Hcm by (by destruct c). destruct (IH m Hcm) as [H1 H2]. split; [|done].
  assert (is_nil m = false) by (destruct m; try done; by apply simplify_nil in Hcm). unfold cenc. by destruct c, m.
Qed.

(** Simplifying does not change the encoding. *)
Lemma simplify_enc n m : simplifyNode n = Done m → same_enc n m.
Proof.
  revert m. induction n as [| | | |k v fl IH|k v IH|cs fl IH|cs IH] using node_ind'; intros m;
    cbn [simplifyNode]; try done; try (by intros [= <-]).
  - destruct (simplifyNode v) as [w| |] eqn:E; cbn [obind]; try done. intros [= <-].
    destruct (IH w eq_refl) as [He Hb]. unfold same_enc. cbn [nenc node_bytes]. rewrite He. naive_solver.
  - destruct (omapM simplify_child cs) as [ms| |] eqn:E; change (omapM _ cs) with (omapM simplify_child cs);
      rewrite E; cbn [obind]; try done.
    intros [= <-]. apply omapM_inv in E. unfold same_enc. cbn [nenc node_bytes]. rewrite !node_bytes_children.
    assert (map cenc cs = map cenc ms ∧ (Forall node_bytes ms → Forall node_bytes cs)) as [He Hb].
    { induction E as [|c m cs ms Hc _ IHE]; [done|]. apply Forall_cons in IH as [IHc IHcs].
      destruct (IHE IHcs) as [He Hb], (simplify_child_enc c m IHc Hc) as [Hc1 Hc2].
      simpl. rewrite Hc1, He, !Forall_cons. naive_solver. }
    split; [|done]. by apply (f_equal (fun l => enc_list (concat l))) in He.
Qed.

(** ** The store *)

(** Entries that differ in their counters and links only. *)
Definition same_nodes (ns ns' : gmap Hash cachedNode) : Prop :=
  ∀ h, cn_node <$> ns !! h = cn_node <$> ns' !! h.

#[export] Instance same_nodes_equiv : Equivalence same_nodes.
Proof.
  split; [done|by intros a b Hab h|]. intros a b c Hab Hbc h. by rewrite Hab.
Qed.

Lemma same_nodes_alter f h ns : (∀ c, cn_node (f c) = cn_node c) → same_nodes (alter f h ns) ns.
Proof.
  intros Hf h'. destruct (decide (h = h')) as [<-|Hne]; [|by rewrite lookup_alter_ne].
  rewrite lookup_alter_eq. destruct (ns !! h); [|done]. simpl. by rewrite Hf.
Qed.

#[export] Instance insert_same_nodes h c : Proper (same_nodes ==> same_nodes) (<[h := c]>).
Proof.
  intros a b Hab h'. destruct (decide (h = h')) as [<-|Hne]; [by rewrite !lookup_insert_eq|].
  rewrite !lookup_insert_ne by done. apply Hab.
Qed.

Lemma same_nodes_counted childs ns :
  same_nodes (foldl (fun ns child => alter (fun c => set_parents (u16 (cn_parents c + 1)) c) child ns) ns childs) ns.
Proof.
  revert ns. induction childs as [|h childs IH]; intros ns; [done|]. simpl. rewrite IH. by apply same_nodes_alter.
Qed.

Lemma db_node_same db db' h gen :
  db_disk db = db_disk db' → same_nodes (db_nodes db) (db_nodes db') → db_node db h gen = db_node db' h gen.
Proof.
  intros Hd Hn. specialize (Hn h). unfold db_node, cached_obj. rewrite Hd.
  destruct (db_nodes db !! h), (db_nodes db' !! h); simplify_eq/=; [by rewrite Hn|done].
Qed.

(** No child of a collapsed node is of an unknown type. *)
Lemma gather_embed n : (∃ hs, gatherChildren n = Done hs) → ∃ hs, gatherChildren (embed n) = Done hs.
Proof. intros Hn. destruct n; try done; cbn [embed]; destruct (_ <? _)%nat; eauto. Qed.

Lemma gather_upto l n : Forall (fun c => ∃ hs, gatherChildren c = Done hs) l →
  ∃ hss, omapM_upto gatherChildren n l = Done hss.
Proof.
  intros Hall. revert n. induction Hall as [|c l [hs Hc] _ IH]; intros [|n]; try (by exists []).
  cbn [omapM_upto]. rewrite Hc. cbn [obind]. destruct (IH n) as [hss ->]. by exists (hs :: hss).
Qed.

Lemma gather_collapsed t : ∃ hs, gatherChildren (collapsed t) = Done hs.
Proof.
  induction t as [|v|k t IH|ts IH] using tree_ind'; try (by exists []).
  - by apply gather_embed.
  - cbn [collapsed gatherChildren].
    destruct (gather_upto (map (fun t => embed (collapsed t)) ts) 16) as [hss ->]; [|by eexists].
    apply Forall_map. eapply Forall_impl; [exact IH|]. intros t. apply gather_embed.
Qed.

(** ** A universe of trees *)

Record universe (U : tree → Prop) : Prop := {
  u_canonical t : U t → canonical t;
  u_sized t : U t → sized t;
  u_injective t u : U t → U u → tkey t = tkey u → tenc t = tenc u;
  u_nonzero t : U t → tkey t ≠ 0;
}.

(** All nodes in the memory are nodes of the universe, but the meta root. *)
Record db_ok (U : tree → Prop) (db : Database) : Prop := {
  dk_newest : db_oldest db ≠ 0 → is_Some (db_nodes db !! db_newest db);
  dk_nodes h c : db_nodes db !! h = Some c → h ≠ 0 → ∃ u, U u ∧ tkey u = h ∧ cn_node c = collapsed u;
}.

Definition grows (U : tree → Prop) (db db' : Database) : Prop := ∀ u, U u → entry db u → entry db' u.

#[export] Instance grows_preorder U : PreOrder (grows U).
Proof. split; [by intros db u|]. intros a b c Hab Hbc u Hu He. by apply Hbc, Hab. Qed.

Section universe.
Context (U : tree → Prop) (HU : universe U).

Lemma canonical_inner t : canonical t → is_inner t = true.
Proof. by destruct 1. Qed.

(** A node of the memory is the entry of its tree. *)
Lemma entry_node db t c u :
  U t → U u → tkey u = tkey t → db_nodes db !! tkey t = Some c → cn_node c = collapsed u → entry db t.
Proof.
  intros Ht Hu E Hc Hn gen. unfold db_node, cached_obj. rewrite Hc, Hn.
  pose proof (u_injective U HU u t Hu Ht E) as Henc.
  replace (match collapsed u with rawNode b => _ | _ => _ end) with
    (expandNode (Some (Hash_Bytes (tkey t))) (collapsed u) gen) by (by destruct u).
  unfold tkey. rewrite keccak256_Hash. fold (thash t).
  destruct HU. rewrite expandNode_live; eauto using canonical_inner, canonical_no_dangling.
  f_equal. by apply tenc_live; auto.
Qed.

(** A map of nodes with one more, up to the counters and links. *)
Lemma grows_insert db db' t c :
  U t → cn_node c = collapsed t → db_disk db' = db_disk db →
  same_nodes (db_nodes db') (<[tkey t := c]> (db_nodes db)) → entry db' t ∧ grows U db db'.
Proof.
  intros Ht Hc Hd Hs.
  assert (Hentry : ∀ u, U u → tkey u = tkey t → entry db' u).
  { intros u Hu E. specialize (Hs (tkey u)). rewrite E, lookup_insert_eq in Hs.
    destruct (db_nodes db' !! tkey t) as [c'|] eqn:Hl; [|done]. injection Hs as Hs.
    rewrite <- E in Hl. eapply (entry_node db' u c' t); auto. congruence. }
  split; [by apply Hentry|]. intros u Hu He. destruct (decide (tkey u = tkey t)) as [E|Hne]; [by apply Hentry|].
  intros gen. rewrite <- He. specialize (Hs (tkey u)). rewrite lookup_insert_ne in Hs by done.
  unfold db_node, cached_obj. rewrite Hd.
  destruct (db_nodes db' !! tkey u), (db_nodes db !! tkey u); simplify_eq/=; [by rewrite Hs|done].
Qed.

Lemma inserted_ok db db' t c :
  db_ok U db → U t → cn_node c = collapsed t → db_disk db' = db_disk db →
  same_nodes (db_nodes db') (<[tkey t := c]> (db_nodes db)) → is_Some (db_nodes db' !! db_newest db') →
  db_ok U db' ∧ entry db' t ∧ grows U db db'.
Proof.
  intros [_ Hnodes] Ht Hc Hd Hs Hnew. split; [|by eapply grows_insert]. split; [done|].
  intros h c' Hc' Hh. specialize (Hs h). rewrite Hc' in Hs. destruct (decide (tkey t = h)) as [<-|Hne].
  - rewrite lookup_insert_eq in Hs. injection Hs as ->. by exists t.
  - rewrite lookup_insert_ne in Hs by done. destruct (db_nodes db !! h) as [c0|] eqn:Hc0; [|done].
    injection Hs as ->. by apply (Hnodes h c0).
Qed.

Lemma db_insert_ok db t n blob :
  db_ok U db → U t → simplifyNode n = Done (collapsed t) →
  ∃ db', db_insert db (tkey t) blob n = Done db' ∧ (db_ok U db' ∧ entry db' t ∧ grows U db db') ∧
    is_Some (db_nodes db' !! tkey t).
Proof.
  intros Hdb Ht Hn. unfold db_insert. destruct (db_nodes db !! tkey t) as [c|] eqn:Hl.
  { exists db. rewrite Hl. split_and!; [done|done| |reflexivity|done]. destruct Hdb as [_ Hnodes].
    destruct (Hnodes _ _ Hl (u_nonzero U HU t Ht)) as (u & Hu & E & Hc). by eapply entry_node. }
  rewrite Hn. cbn [obind]. unfold cached_childs. cbn [cn_node cn_children].
  set (inner := match collapsed t with rawNode _ => _ | _ => _ end).
  assert (∃ hs, inner = Done hs) as [hs ->].
  { subst inner. destruct (gather_collapsed t) as [hs Hhs]. exists hs. by destruct t. }
  cbn [obind]. set (entry := mkCached (collapsed t) _ _ _ _ _). set (childs := _ ++ hs).
  pose proof (same_nodes_counted childs (db_nodes db)) as Hs. set (ns := foldl _ _ childs) in *.
  destruct (Z.eqb_spec (db_oldest db) 0) as [E|E].
  - eexists. split; [done|]. cbn [db_nodes]. rewrite lookup_insert_eq. split; [|done].
    apply (inserted_ok db _ t entry); try done; cbn [db_nodes db_newest].
    + by rewrite Hs.
    + by rewrite lookup_insert_eq.
  - destruct (<[tkey t := entry]> ns !! db_newest db) as [c|] eqn:Hc.
    + assert (is_Some (<[db_newest db := set_flushNext (tkey t) c]> (<[tkey t := entry]> ns) !! tkey t)).
      { destruct (decide (db_newest db = tkey t)) as [->|Hne]; [by rewrite lookup_insert_eq|].
        by rewrite lookup_insert_ne, lookup_insert_eq. }
      eexists. split; [done|]. split; [|done]. apply (inserted_ok db _ t entry); try done; cbn [db_nodes db_newest].
      rewrite <- Hs. intros h. destruct (decide (db_newest db = h)) as [<-|Hne].
      * by rewrite lookup_insert_eq, Hc.
      * by rewrite lookup_insert_ne.
    + exfalso. destruct Hdb as [Hnew _]. destruct (Hnew E) as [c' Hc'].
      assert (tkey t ≠ db_newest db) by (intros F; rewrite F, Hc' in Hl; done).
      rewrite lookup_insert_ne in Hc by done. specialize (Hs (db_newest db)). by rewrite Hc, Hc' in Hs.
Qed.
End universe.

(** ** Growing stores *)

Definition inside (U : tree → Prop) (t : tree) : Prop := ∀ u, subtree u t → is_inner u = true → U u.

Lemma inside_ext U k t : inside U (TExt k t) → inside U t.
Proof. intros Hin u Hu. apply Hin. by constructor. Qed.
Lemma inside_child U ts i t : inside U (TBranch ts) → ts !! i = Some t → inside U t.
Proof. intros Hin Ht u Hu. apply Hin. by eapply sub_branch. Qed.
Lemma inside_self U t : inside U t → is_inner t = true → U t.
Proof. intros Hin. apply Hin. constructor. Qed.

Lemma kept_grows U db db' t : inside U t → grows U db db' → kept db t → kept db' t.
Proof. intros Hin Hg Hk u Hu Hi Hl. apply Hg; [by apply Hin|by apply Hk]. Qed.
Lemma saved_grows U db db' t : inside U t → is_inner t = true → grows U db db' → saved db t → saved db' t.
Proof. intros Hin Hi Hg [He Hk]. split; [apply Hg; [by apply inside_self|done]|by eapply kept_grows]. Qed.

Lemma flag_grows U db db' r fl t :
  inside U t → is_inner t = true → grows U db db' → flag_ok db r fl t → flag_ok db' r fl t.
Proof.
  intros Hin Hi Hg. unfold flag_ok. destruct (fl_hash fl); [|done]. intros (? & ? & Hs). split_and!; [done..|].
  intros Hd. eapply saved_grows; eauto.
Qed.

Lemma expands_grows U db db' r n t : inside U t → grows U db db' → expands db r n t → expands db' r n t.
Proof.
  intros Hin Hg. revert r n Hin. induction t as [|v|k t IH|ts IH] using tree_ind'; intros r n Hin Hn;
    inversion Hn as [| |? ? ? ? ? Hv Hf|? ? ? ? Hall Hf|? ? Hi Hl Hs]; subst;
    try (constructor; [done..|]; by eapply saved_grows); try constructor.
  - apply IH; [by eapply inside_ext|done].
  - by eapply flag_grows.
  - apply Forall2_same_length_lookup. split; [by eapply Forall2_length|]. intros i c t Hc Ht.
    rewrite Forall_lookup in IH. apply (IH i t Ht); [by eapply inside_child|].
    by eapply Forall2_lookup_lr.
  - by eapply flag_grows.
Qed.

Lemma makeHashNode_ok data : makeHashNode data = Done (Reference.keccak256 data).
Proof.
  unfold makeHashNode, Write. change (k_state NewKeccak256) with spongeAbsorbing. cbv iota.
  destruct (Write_loop_ok (length data) NewKeccak256 [] data absorbed_new) as (d & -> & Hd); [done|]. cbn [obind].
  pose proof (Sum_ok d data Hd) as Hs. unfold Sum in Hs. rewrite (ab_out d data Hd) in Hs.
  destruct (Read d 32) as [r| |]; cbn [obind] in *; try done.
Qed.

(** ** A pass of the hasher *)

Section hash.
Context (U : tree → Prop) (cachegen cachelimit : Z) (onleaf : option LeafCallback) (stored : bool).

(** A callback that keeps the store in order. *)
Definition callback_ok : Prop :=
  ∀ f v h db, onleaf = Some f → db_ok U db → is_Some (db_nodes db !! h) →
    ∃ db', f v h db = Done db' ∧ db_ok U db' ∧ grows U db db' ∧ is_Some (db_nodes db' !! h).

Context (HU : stored = true → universe U) (Hleaf : stored = true → callback_ok).

Definition mk (db : Database) : option Database := if stored then Some db else None.

(** What becomes of the store. *)
Definition goes (db db' : Database) : Prop :=
  grows U db db' ∧ (if stored then db_ok U db → db_ok U db' else db' = db).

Lemma goes_refl db : goes db db.
Proof using. split; [reflexivity|]. by case stored. Qed.
Lemma goes_trans a b c : goes a b → goes b c → goes a c.
Proof using.
  intros [Hg Ho] [Hg' Ho']. split; [by etransitivity|]. revert Ho Ho'. case stored; [auto|congruence].
Qed.

Lemma store_leaves_ok hash n db : stored = true → db_ok U db → is_Some (db_nodes db !! hash) →
  ∃ db', store_leaves onleaf hash n db = Done db' ∧ db_ok U db' ∧ grows U db db' ∧ is_Some (db_nodes db' !! hash).
Proof.
  intros Hst Hdb Hh. assert (Hone : ∀ c db, db_ok U db → is_Some (db_nodes db !! hash) →
    ∃ db', leaf_callback onleaf hash c db = Done db' ∧ db_ok U db' ∧ grows U db db' ∧ is_Some (db_nodes db' !! hash)).
  { intros c d Hd Hhd.
    assert (∃ db', Done d = Done db' ∧ db_ok U db' ∧ grows U d db' ∧ is_Some (db_nodes db' !! hash)) as Hid by (by exists d).
    unfold leaf_callback. destruct onleaf as [f|] eqn:Ef; [|done]. destruct c; try done. by eapply Hleaf. }
  destruct n as [|cs fl|k v fl| | | | |]; try (by exists db); [|by apply Hone].
  unfold store_leaves. generalize (take 16 cs). intros l. revert db Hdb Hh.
  induction l as [|c l IH]; intros db Hdb Hh; [by exists db|]. cbn [foldl obind].
  destruct (Hone c db Hdb Hh) as (db1 & -> & Hd1 & Hg1 & Hh1). destruct (IH db1 Hd1 Hh1) as (db2 & -> & Hd2 & Hg2 & Hh2).
  exists db2. split_and!; [done..|by etransitivity|done].
Qed.

Definition node_flag (n : node) : nodeFlag :=
  match n with shortNode _ _ fl | fullNode _ fl => fl | _ => mkFlag None 0 true end.

Lemma store_eq odb r n t :
  sized t → inner n = true → simplifyNode n = Done (collapsed t) →
  (∀ h, fl_hash (node_flag n) = Some h → h = thash t) →
  store onleaf n odb r =
    if r || long t then
      match odb with
      | None => Done (hashNode (thash t), None)
      | Some db =>
          let? db := db_insert db (tkey t) (tenc t) n in
          let? db := store_leaves onleaf (tkey t) n db in
          Done (hashNode (thash t), Some db)
      end
    else Done (n, odb).
Proof.
  intros Hs Hi Hn Hh. destruct (simplify_enc _ _ Hn) as [He Hb]. specialize (Hb (collapsed_bytes t Hs)).
  assert (match fl_hash (node_flag n) with None => makeHashNode (tenc t) | Some h => Done h end = Done (thash t)) as Hm.
  { destruct (fl_hash (node_flag n)) as [h|] eqn:Ef; [by rewrite (Hh h)|apply makeHashNode_ok]. }
  assert (∃ d, node_cache n = Done (fl_hash (node_flag n), d)) as [d Hcache] by (destruct n; try done; by eexists).
  unfold store. rewrite (node_Encode_ok n Hb), He, Hcache. fold (tenc t). cbn [obind fst]. rewrite Hm. cbn [obind].
  change (BytesToHash (thash t)) with (tkey t).
  assert ((length (tenc t) <? 32)%nat && negb r = negb (r || long t)) as ->.
  { unfold long. by destruct (length (tenc t) <? 32)%nat, r. }
  destruct n; try done; by destruct (r || long t).
Qed.

Lemma store_ok db r n t :
  (stored = true → db_ok U db) → U t → sized t →
  inner n = true → simplifyNode n = Done (collapsed t) →
  (∀ h, fl_hash (node_flag n) = Some h → h = thash t) →
  ∃ db', store onleaf n (mk db) r = Done (if r || long t then hashNode (thash t) else n, mk db') ∧
    goes db db' ∧ (stored = true → r || long t = true → entry db' t).
Proof.
  intros Hdb Ht Hs Hi Hn Hh. rewrite (store_eq _ r n t) by done.
  destruct (r || long t); [|exists db; split_and!; [done|apply goes_refl|done]].
  unfold goes, mk. case_eq stored; intros Est; [|by exists db].
  destruct (db_insert_ok U (HU Est) db t n (tenc t) (Hdb Est) Ht Hn) as (db1 & -> & (Hd1 & He1 & Hg1) & Hh1).
  cbn [obind]. destruct (store_leaves_ok (tkey t) n db1) as (db2 & -> & Hd2 & Hg2 & _); [done..|].
  exists db2. split_and!; [done|by etransitivity|done|]. intros _ _. by apply Hg2.
Qed.

(** The result of hashing a node that stands for a tree. *)
Record hashed (db db' : Database) (r : bool) (h c : node) (t : tree) : Prop := {
  hd_goes : goes db db';
  hd_hash : simplifyNode h = Done (if r then hashNode (thash t) else embed (collapsed t));
  hd_cached : expands db' r c t;
  hd_kept : stored = true → kept db' t;
  hd_entry : stored = true → r || long t = true → entry db' t;
}.

Definition with_flag (n : node) (fl : nodeFlag) : node :=
  match n with shortNode k v _ => shortNode k v fl | fullNode cs _ => fullNode cs fl | n => n end.

Lemma expands_flag db r n t : inner n = true → expands db r n t → flag_ok db r (node_flag n) t.
Proof. intros Hi Hn. by inversion Hn; subst. Qed.

Lemma simplify_result r n t : canonical t → simplifyNode n = Done (collapsed t) →
  simplifyNode (if r || long t then hashNode (thash t) else n) =
    Done (if r then hashNode (thash t) else embed (collapsed t)).
Proof.
  intros Hc Hn. rewrite embed_collapsed by by apply canonical_inner. destruct r; [done|]. by destruct (long t).
Qed.

(** The cached hash, when the pass ends at once. *)
Lemma hashed_cached db r h c t :
  canonical t → (r = false → long t = true) → h = thash t → expands db r c t →
  (stored = true → saved db t) → hashed db db r (hashNode h) c t.
Proof.
  intros Hc Hl -> He Hs. split; [apply goes_refl| |done|intros H; by destruct (Hs H)..].
  rewrite embed_collapsed by by apply canonical_inner. destruct r; [done|]. by rewrite Hl.
Qed.

(** Storing a node whose children are hashed. *)
Section walk.
Context (db db1 : Database) (r : bool) (n cn kn : node) (t : tree).
Context (Hin : inside U t) (Hc : canonical t) (Hs : sized t) (Hdb : stored = true → db_ok U db)
  (Hn : expands db r n t) (Hi : inner n = true) (Hgoes : goes db db1)
  (Hcn : inner cn = true ∧ node_flag cn = node_flag n ∧ simplifyNode cn = Done (collapsed t))
  (Hkn : inner kn = true ∧ node_flag kn = node_flag n)
  (Hexp : ∀ db2 fl, grows U db1 db2 → flag_ok db2 r fl t → expands db2 r (with_flag kn fl) t)
  (Hkept : stored = true → ∀ u, subtree u t → u = t ∨ (is_inner u = true → long u = true → entry db1 u)).

Lemma walk_ok : (stored = false → fl_hash (node_flag n) = None) →
  ∃ h db', store onleaf cn (mk db1) r = Done (h, mk db') ∧ hashed db db' r h (set_hashed h stored kn) t.
Proof.
  intros Hnone. destruct Hcn as (Hci & Hcf & Hcs), Hkn as [Hki Hkf]. pose proof (expands_flag _ _ _ _ Hi Hn) as Hfl.
  assert (HUt : U t) by (apply inside_self; [done|by apply canonical_inner]).
  destruct (store_ok db1 r cn t) as (db' & -> & Hgoes' & He); [|done..| |].
  { intros Est. destruct Hgoes as [_ Hok]. rewrite Est in Hok. auto. }
  { rewrite Hcf. unfold flag_ok in Hfl. intros h Eh. by rewrite Eh in Hfl; destruct Hfl as [-> _]. }
  assert (Hk : stored = true → kept db' t).
  { intros Est u Hu Hui Hul. destruct (Hkept Est u Hu) as [->|Hent]; [apply He; [done|by rewrite Hul, orb_true_r]|].
    apply Hgoes'; [by apply Hin|by apply Hent]. }
  eexists _, db'. split; [done|]. split; [by eapply goes_trans|by apply simplify_result| |done|done].
  assert (set_hashed (if r || long t then hashNode (thash t) else cn) stored kn =
    with_flag kn (mkFlag (if r || long t then Some (thash t) else None) (fl_gen (node_flag n))
      (if stored then false else fl_dirty (node_flag n)))) as ->.
  { rewrite <- Hkf. destruct (r || long t), kn; try done; by destruct cn. }
  apply Hexp; [apply Hgoes'|]. unfold flag_ok. cbn [fl_hash fl_dirty]. destruct (r || long t) eqn:Erl.
  - split_and!; [done|by intros ->|]. case_eq stored; intros Est Hd; [by split; [apply He|apply Hk]|].
    unfold flag_ok in Hfl. rewrite (Hnone Est) in Hfl. destruct (Hfl Hd) as [-> El]. by rewrite El in Erl.
  - intros _. by apply orb_false_iff.
Qed.

Lemma hash_with_ok :
  ∃ h c db', hash_with cachegen cachelimit onleaf (Done (cn, kn, mk db1)) n (mk db) r = Done (h, c, mk db') ∧
    hashed db db' r h c t.
Proof.
  pose proof (expands_flag _ _ _ _ Hi Hn) as Hfl. unfold hash_with.
  assert (node_cache n = Done (fl_hash (node_flag n), fl_dirty (node_flag n))) as -> by (by destruct n).
  assert (node_canUnload n cachegen cachelimit = Done (flag_canUnload (node_flag n) cachegen cachelimit)) as -> by (by destruct n).
  assert (has_db (mk db) = stored) as -> by (unfold mk; by destruct stored).
  pose proof walk_ok as Hwalk. cbn [obind]. unfold flag_ok in Hfl.
  destruct (fl_hash (node_flag n)) as [h|]; [destruct Hfl as (-> & Hl & Hsv)|].
  2: { destruct Hwalk as (h & db' & -> & Hh); [done|]. cbn [obind]. by eexists _, _, db'. }
  destruct (Bool.bool_dec stored true) as [Est|Est%not_true_is_false]; [assert (mk db = Some db) as -> by (unfold mk; by rewrite Est)|
    assert (mk db = None) as -> by (unfold mk; by rewrite Est)].
  - unfold flag_canUnload. destruct (fl_dirty (node_flag n)) eqn:Ed; cbn [negb andb].
    + destruct Hwalk as (h & db' & -> & Hh); [congruence|]. cbn [obind]. by eexists _, _, db'.
    + destruct (_ <=? _); eexists _, _, db; (split; [unfold mk; by rewrite Est|]); apply hashed_cached; auto.
      apply ex_hash; auto. by apply canonical_inner.
  - eexists _, _, db. split; [unfold mk; by rewrite Est|]. apply hashed_cached; auto. congruence.
Qed.
End walk.

(** ** All children *)

Definition hash_spec (r : bool) (f : node → option Database → outcome (node * node * option Database)) (t : tree) : Prop :=
  ∀ n db, (stored = true → db_ok U db) → expands db r n t →
    ∃ h c db', f n (mk db) = Done (h, c, mk db') ∧ hashed db db' r h c t.

Record hashed_list (db db' : Database) (hs ks : list node) (ts : list tree) : Prop := {
  hl_goes : goes db db';
  hl_hash : Forall2 (fun h t => simplify_child h = Done (embed (collapsed t))) hs ts;
  hl_cached : Forall2 (expands db' false) ks ts;
  hl_kept : stored = true → Forall (kept db') ts;
}.

(** A child that is empty or a value is left alone. *)
Lemma outer_child db c t : is_inner t = false → expands db false c t →
  simplify_child c = Done (embed (collapsed t)) ∧ (is_empty t = false → simplifyNode c = Done (collapsed t)).
Proof. intros Hi Hc. by inversion Hc as [| | | |? ? Hi']; subst; rewrite ?Hi' in Hi. Qed.

Lemma kept_outer db t : is_inner t = false → kept db t.
Proof. intros Hi u Hu Hui. destruct t; try done; inversion Hu; subst; done. Qed.

Lemma goes_ok db db' : goes db db' → (stored = true → db_ok U db) → stored = true → db_ok U db'.
Proof. intros [_ Hg] Hdb Est. rewrite Est in Hg. auto. Qed.

(** The rest of a list, after its first child. *)
Lemma hashed_list_cons db db1 db2 h c t hs ks ts :
  inside U t → goes db db1 → simplify_child h = Done (embed (collapsed t)) → expands db1 false c t →
  (stored = true → kept db1 t) → hashed_list db1 db2 hs ks ts → hashed_list db db2 (h :: hs) (c :: ks) (t :: ts).
Proof.
  intros Hin Hg Hh Hc Hk [Hg2 Hhs Hks Hkt]. split.
  - by eapply goes_trans.
  - by constructor.
  - constructor; [|done]. eapply expands_grows; [done|apply Hg2|done].
  - intros Est. constructor; [|by apply Hkt]. eapply kept_grows; [done|apply Hg2|by apply Hk].
Qed.

Lemma hash_list_cons f i c cs odb :
  hash_list f (S i) (c :: cs) odb =
    let? r := (if is_nil c then Done (c, c, odb) else f c odb) in
    let '(h, k, odb) := r in
    let? rs := hash_list f i cs odb in
    let '(hs, ks, odb) := rs in
    Done (h :: hs, k :: ks, odb).
Proof. done. Qed.

Lemma hash_list_ok f i cs ts db :
  (stored = true → db_ok U db) → Forall (inside U) ts → Forall2 (expands db false) cs ts →
  (∀ j t, ts !! j = Some t → if (j <? i)%nat then is_empty t = true ∨ hash_spec false f t else is_inner t = false) →
  ∃ hs ks db', hash_list f i cs (mk db) = Done (hs, ks, mk db') ∧ hashed_list db db' hs ks ts.
Proof.
  revert i cs db. induction ts as [|t ts IH]; intros i cs db Hdb Hin Hall Hch.
  { inversion Hall; subst. exists [], [], db. split; [by destruct i|].
    split; [apply goes_refl|constructor|constructor|by constructor]. }
  inversion Hall as [|c ? cs' ? Hc Hcs]; subst. apply Forall_cons in Hin as [Hin Hins].
  pose proof (Hch 0%nat t eq_refl) as Ht. destruct i as [|i].
  - destruct (IH 0%nat cs' db Hdb Hins Hcs) as (hs & ks & db' & E & Hl).
    { intros j u Hj. by apply (Hch (S j) u). }
    assert (hash_list f 0 cs' (mk db) = Done (cs', cs', mk db)) as E' by (by destruct cs').
    rewrite E in E'. simplify_eq. exists (c :: cs'), (c :: cs'), db'.
    split; [transitivity (Done (c :: cs', c :: cs', mk db)); [done|congruence]|].
    apply (hashed_list_cons db db); auto using goes_refl; [|intros _; by apply kept_outer].
    by destruct (outer_child db c t Ht Hc).
  - assert (Htail : ∀ db, (stored = true → db_ok U db) → Forall2 (expands db false) cs' ts →
      ∃ hs ks db', hash_list f i cs' (mk db) = Done (hs, ks, mk db') ∧ hashed_list db db' hs ks ts).
    { intros d Hd Hcs'. apply IH; auto. intros j u Hj. by apply (Hch (S j) u). }
    rewrite hash_list_cons, (expands_empty _ _ _ _ Hc). destruct (is_empty t) eqn:Ee.
    + cbn [obind]. destruct (Htail db Hdb Hcs) as (hs & ks & db' & -> & Hl). cbn [obind]. exists (c :: hs), (c :: ks), db'.
      split; [done|]. assert (is_inner t = false) by by destruct t.
      apply (hashed_list_cons db db); auto using goes_refl; [|intros _; by apply kept_outer].
      by destruct (outer_child db c t).
    + destruct Ht as [?|Ht]; [done|]. destruct (Ht c db Hdb Hc) as (h & k & db1 & -> & [Hg Hh Hk Hkt _]).
      cbn [obind]. destruct (Htail db1) as (hs & ks & db' & -> & Hl); [by eapply goes_ok| |].
      { apply Forall2_same_length_lookup. split; [by eapply Forall2_length|]. intros j a b Ha Hb.
        rewrite Forall_lookup in Hins. eapply expands_grows; [by eapply Hins|apply Hg|by eapply Forall2_lookup_lr]. }
      cbn [obind]. exists (h :: hs), (k :: ks), db'. split; [done|].
      apply (hashed_list_cons db db1); auto. by destruct h.
Qed.

(** ** The pass *)

Lemma hash_hash db r h t : canonical t → expands db r (hashNode h) t →
  ∃ h' c db', hash cachegen cachelimit onleaf (hashNode h) (mk db) r = Done (h', c, mk db') ∧ hashed db db' r h' c t.
Proof.
  intros Hc Hn. exists (hashNode h), (hashNode h), db. split; [done|].
  inversion Hn as [| | | |? ? Hi Hl Hs]; subst. by apply hashed_cached.
Qed.

(** A short node whose child is hashed. *)
Lemma hash_short db db1 r k v fl h c t :
  inside U (TExt k t) → canonical (TExt k t) → sized (TExt k t) → (stored = true → db_ok U db) →
  expands db r (shortNode k v fl) (TExt k t) → goes db db1 →
  simplifyNode h = Done (embed (collapsed t)) → expands db1 false c t → (stored = true → kept db1 t) →
  ∃ h' c' db', hash_with cachegen cachelimit onleaf (Done (shortNode (compact k) h fl, shortNode k c fl, mk db1))
    (shortNode k v fl) (mk db) r = Done (h', c', mk db') ∧ hashed db db' r h' c' (TExt k t).
Proof.
  intros Hin Hc Hs Hdb Hn Hg Hh Hcv Hk. apply hash_with_ok; try done.
  - split_and!; [done..|]. cbn [simplifyNode]. by rewrite Hh.
  - intros db2 fl' Hg' Hf. constructor; [|done]. eapply expands_grows; [by eapply inside_ext|done..].
  - intros Est u Hu. inversion Hu as [|? ? Hu'|]; subst; [by left|right]. intros Hi Hl. by apply Hk.
Qed.

Lemma hash_full db db1 r cs ts fl hs ks :
  inside U (TBranch ts) → canonical (TBranch ts) → sized (TBranch ts) → (stored = true → db_ok U db) →
  expands db r (fullNode cs fl) (TBranch ts) → hashed_list db db1 hs ks ts →
  ∃ h' c' db', hash_with cachegen cachelimit onleaf (Done (fullNode hs fl, fullNode ks fl, mk db1))
    (fullNode cs fl) (mk db) r = Done (h', c', mk db') ∧ hashed db db' r h' c' (TBranch ts).
Proof.
  intros Hin Hc Hs Hdb Hn [Hg Hhs Hks Hk]. apply hash_with_ok; try done.
  - split_and!; [done..|]. cbn [simplifyNode]. change (omapM _ hs) with (omapM simplify_child hs).
    assert (omapM simplify_child hs = Done (map (fun t => embed (collapsed t)) ts)) as ->; [|done].
    clear -Hhs. induction Hhs as [|h t hs ts Hh _ IH]; [done|]. cbn [omapM map]. rewrite Hh. cbn [obind]. by rewrite IH.
  - intros db2 fl' Hg' Hf. constructor; [|done]. apply Forall2_same_length_lookup.
    split; [by eapply Forall2_length|]. intros j a b Ha Hb.
    eapply expands_grows; [by eapply inside_child|done|by eapply Forall2_lookup_lr].
  - intros Est u Hu. inversion Hu as [| |? i t Ht Hu']; subst; [by left|right]. intros Hi Hl.
    specialize (Hk Est). rewrite Forall_lookup in Hk. by eapply Hk.
Qed.

Lemma hash_ok t : canonical t → inside U t → sized t → ∀ r,
  hash_spec r (fun n odb => hash cachegen cachelimit onleaf n odb r) t.
Proof.
  induction 1 as [ns w Hn Hw|ns ts Hn Hne Hc IH|ts Hlen Htwo Hch IH Hlast]; intros Hin Hs r n db Hdb He.
  - assert (Hc : canonical (TExt (ns ++ [16]) (TLeaf w))) by by constructor.
    inversion He as [| |? ? v ? fl Hv Hf| |]; subst; [|by apply hash_hash].
    inversion Hv as [| | | |? ? Hi]; subst; [|done]. cbn [hash].
    destruct (compact_ok (ns ++ [16])) as (-> & _); [by constructor|]. cbn [obind].
    apply hash_short; try done; [apply goes_refl|intros _; by apply kept_outer].
  - assert (Hce : canonical (TExt ns (TBranch ts))) by by constructor.
    inversion He as [| |? ? v ? fl Hv Hf| |]; subst; [|by apply hash_hash].
    destruct (IH (inside_ext _ _ _ Hin) (sized_ext _ _ Hs) false v db Hdb Hv) as (h & c & db1 & Hh & [Hg Hsh Hcv Hk _]).
    cbn [hash]. destruct (compact_ok ns) as (-> & _); [by constructor|]. cbn [obind].
    destruct v; try (by inversion Hv); rewrite Hh; cbn [obind]; by apply hash_short.
  - assert (Hcb : canonical (TBranch ts)) by by constructor.
    inversion He as [| | |? cs ? fl Hall Hf|]; subst; [|by apply hash_hash].
    cbn [hash]. destruct (hash_list_ok (fun c db => hash cachegen cachelimit onleaf c db false) 16 cs ts db)
      as (hs & ks & db1 & -> & Hl); [done| |done| |cbn [obind]; by apply hash_full].
    + apply Forall_lookup. intros i t Ht. by eapply inside_child.
    + intros i t Ht. destruct (Nat.ltb_spec i 16) as [Hi|Hi].
      * destruct (is_empty t) eqn:Ee; [by left|right].
        apply (IH i t Hi Ht Ee); [by eapply inside_child|by eapply sized_child].
      * pose proof (lookup_lt_Some _ _ _ Ht). assert (i = 16%nat) as -> by lia.
        destruct (is_empty t) eqn:Ee; [by destruct t|]. by destruct (Hlast t Ht Ee) as (v & _ & ->).
Qed.
End hash.
