(* ===== verification/TrieMap.v ===== *)
(** * Tries as maps

    The contents of a trie are a finite map from byte strings to byte strings. The
    operations of a trie act on it as those of a map, its root hash is a function
    of the map alone, and a trie opened at a committed root has the contents that
    were committed. *)

From stdpp Require Import base list gmap strings.
From Stdlib Require Import ZArith Lia.
From S2P Require Import Prelude Bytes Keccak KeccakFacts FsnTypes Rlp TrieEncoding TrieTree TrieNode TrieStore Trie TrieHash TrieFacts TrieHashFacts.

Abbreviation contents := (gmap bytes bytes).

(** Sizes that fit: less than 2^31 bytes of a key, 2^32 of a value. *)
Definition key_ok (key : bytes) : Prop := are_bytes key ∧ Z.of_nat (length key) < 2 ^ 31 - 1.
Definition val_ok (v : bytes) : Prop := are_bytes v ∧ Z.of_nat (length v) < 2 ^ 32.

(** A tree with the contents of a map. *)
Record holds (T : tree) (m : contents) : Prop := {
  ho_can : can T;
  ho_lookup key : are_bytes key → tlookup T (keybytesToHex key) = m !! key;
  ho_paths k v : path k → tlookup T k = Some v → ∃ key, are_bytes key ∧ k = keybytesToHex key;
  ho_sizes key v : m !! key = Some v → key_ok key ∧ val_ok v;
}.

Lemma keybytes_path key : are_bytes key → path (keybytesToHex key).
Proof. intros Hk. exists (nibbles_of key). split; [by apply nibbles_of_nibbles|done]. Qed.

Lemma holds_empty : holds TEmpty ∅.
Proof. split; try done. Qed.

Lemma holds_unique T T' m : holds T m → holds T' m → T = T'.
Proof.
  intros [Hc Hl Hp Hs] [Hc' Hl' Hp' Hs'].
  assert (Hsame : same T T').
  { intros k Hk. destruct (tlookup T k) as [v|] eqn:E.
    - destruct (Hp k v Hk E) as (key & Hb & ->). by rewrite Hl', <- Hl.
    - destruct (tlookup T' k) as [v|] eqn:E'; [|done].
      destruct (Hp' k v Hk E') as (key & Hb & ->). by rewrite Hl, <- Hl', E' in E. }
  destruct (is_empty T) eqn:Ee, (is_empty T') eqn:Ee'.
  - by destruct T, T'.
  - destruct (canonical_inhabited T' (Hc' Ee')) as (k & v & Hk & Hv). rewrite <- (Hsame k Hk) in Hv. by destruct T.
  - destruct (canonical_inhabited T (Hc Ee)) as (k & v & Hk & Hv). rewrite (Hsame k Hk) in Hv. by destruct T'.
  - apply canonical_unique; auto.
Qed.

(** What [sets] does to the contents. *)
Lemma holds_sets T T' m key o :
  holds T m → can T' → are_bytes key → sets (keybytesToHex key) o T T' →
  (∀ v, o = Some v → key_ok key ∧ val_ok v) → holds T' (partial_alter (fun _ => o) key m).
Proof.
  intros [Hc Hl Hp Hs] Hc' Hb Hsets Ho. split; [done|..].
  - intros key' Hb'. rewrite Hsets by by apply keybytes_path. destruct (decide (key' = key)) as [->|Hne].
    + by rewrite decide_True, lookup_partial_alter_eq.
    + rewrite decide_False, lookup_partial_alter_ne, Hl by congruence || (intros E%keybytesToHex_inj; done). done.
  - intros k v Hk Hv. rewrite Hsets in Hv by done. destruct (decide _) as [->|]; [by exists key|by eapply Hp].
  - intros key' v. destruct (decide (key' = key)) as [->|Hne].
    + rewrite lookup_partial_alter_eq. apply Ho.
    + rewrite lookup_partial_alter_ne by done. apply Hs.
Qed.

Lemma holds_insert T m key v : holds T m → key_ok key → val_ok v → v ≠ [] →
  holds (tinsert T (keybytesToHex key) v) (<[key := v]> m).
Proof.
  intros Hh Hk Hv Hne. pose proof (keybytes_path key (proj1 Hk)) as Hp.
  assert (can (tinsert T (keybytesToHex key) v) ∧ sets (keybytesToHex key) (Some v) T (tinsert T (keybytesToHex key) v)) as [Hc Hs].
  { destruct (is_empty T) eqn:Ee.
    - destruct T; try done. destruct (keybytesToHex key) as [|x k] eqn:E; [by apply path_nonempty in Hp|].
      cbn [tinsert]. rewrite <- E in *. split; [intros _|by apply sets_leaf]. destruct Hp as (ns & Hn & ->).
      by apply can_leaf.
    - destruct (tinsert_ok T (keybytesToHex key) v) as [? ?]; [by apply Hh|done|done|]. split; [by intros _|done]. }
  apply (holds_sets T _ m key (Some v)); try done; [apply Hk|]. by intros ? [= <-].
Qed.

Lemma holds_delete T m key : holds T m → are_bytes key →
  holds (tdelete T (keybytesToHex key)) (base.delete key m).
Proof.
  intros Hh Hb. pose proof (keybytes_path key Hb) as Hp.
  assert (can (tdelete T (keybytesToHex key)) ∧ sets (keybytesToHex key) None T (tdelete T (keybytesToHex key))) as [Hc Hs].
  { destruct (is_empty T) eqn:Ee; [destruct T; try done; split; [done|by intros k' _; destruct (decide _)]|].
    destruct (tdelete_ok T (keybytesToHex key)) as (? & ? & _); [by apply Hh|done|done]. }
  by apply (holds_sets T _ m key None).
Qed.

(** The sizes in a tree are those of its contents. *)
Lemma canonical_sized T : canonical T →
  (∀ k v, path k → tlookup T k = Some v → Z.of_nat (length k) < 2 ^ 32 ∧ val_ok v) → sized T.
Proof.
  induction 1 as [ns v Hn Hv|ns ts Hn Hne Hc IH|ts Hlen Htwo Hch IH Hlast]; intros Hb u Hu.
  - destruct (Hb (ns ++ [16]) v) as [Hl Hvok]; [by exists ns|apply lookup_ext_self|].
    inversion Hu as [|? ? Hu'|]; subst; [by split; [constructor|]|]. inversion Hu'; subst. done.
  - inversion Hu as [|? ? Hu'|]; subst.
    + destruct (canonical_inhabited _ Hc) as (k & v & Hk & Hl).
      destruct (Hb (ns ++ k) v) as [Hlt _]; [by apply path_app|by rewrite lookup_ext|].
      rewrite length_app in Hlt. split; [by constructor|lia].
    + apply IH; [|done]. intros k v Hk Hl. destruct (Hb (ns ++ k) v) as [Hlt ?]; [by apply path_app|by rewrite lookup_ext|].
      rewrite length_app in Hlt. split; [lia|done].
  - inversion Hu as [| |? i t Ht Hu']; subst; [done|]. pose proof (lookup_lt_Some _ _ _ Ht) as Hlt.
    destruct (is_empty t) eqn:Ee; [destruct t; try done; by inversion Hu'; subst|].
    destruct (decide (i = 16)%nat) as [->|Hi].
    + destruct (Hlast t Ht Ee) as (v & _ & ->). inversion Hu'; subst.
      destruct (Hb [16] v) as [_ ?]; [apply path_end| |done]. rewrite lookup_branch. change (index 16) with 16%nat. by rewrite Ht.
    + apply (IH i t); [lia|done..|intros k v Hk Hl|done].
      assert (is_nibble (Z.of_nat i)) by (unfold is_nibble; lia).
      destruct (Hb (Z.of_nat i :: k) v) as [Hl' ?]; [by apply path_nibble| |].
      * rewrite lookup_branch. unfold index. by rewrite Nat2Z.id, Ht.
      * cbn [length] in Hl'. split; [lia|done].
Qed.

Lemma holds_sized T m : holds T m → sized T.
Proof.
  intros [Hc Hl Hp Hs]. destruct (is_empty T) eqn:Ee; [destruct T; try done; by intros u Hu; inversion Hu; subst|].
  apply canonical_sized; [by apply Hc|]. intros k v Hk Hv. destruct (Hp k v Hk Hv) as (key & Hb & ->).
  rewrite Hl in Hv by done. destruct (Hs key v Hv) as [[_ Hlen] ?]. split; [|done].
  unfold keybytesToHex. rewrite length_app, length_nibbles_of. simpl. lia.
Qed.

(** ** The tree and the root hash of a map *)

Definition tree_of (m : contents) : tree :=
  map_fold (fun key v T => tinsert T (keybytesToHex key) v) TEmpty m.
Definition tree_root (T : tree) : Hash := match T with TEmpty => emptyRoot | _ => tkey T end.
Definition map_root (m : contents) : Hash := tree_root (tree_of m).

Lemma tree_root_inner T : is_inner T = true → tree_root T = tkey T.
Proof. destruct T; cbn [is_inner]; intros H; [discriminate H|discriminate H|reflexivity|reflexivity]. Qed.

(** Maps that a trie can hold. *)
Definition map_ok (m : contents) : Prop := ∀ key v, m !! key = Some v → key_ok key ∧ val_ok v ∧ v ≠ [].

Lemma tree_of_holds m : map_ok m → holds (tree_of m) m.
Proof.
  unfold tree_of. revert m. apply (map_fold_weak_ind (fun T m => map_ok m → holds T m)).
  - intros _. apply holds_empty.
  - intros key v m T Hk IH Hm. destruct (Hm key v) as (? & ? & ?); [by rewrite lookup_insert_eq|].
    apply holds_insert; try done. apply IH. intros key' v' Hk'. apply Hm.
    rewrite lookup_insert_ne; [done|]. intros ->. congruence.
Qed.

Lemma holds_tree_of T m : map_ok m → holds T m → T = tree_of m.
Proof. intros Hm Hh. eapply holds_unique; [done|by apply tree_of_holds]. Qed.

(** ** Operations *)

Inductive trie_op :=
| OpGet (key : bytes)
| OpUpdate (key value : bytes)
| OpDelete (key : bytes)
| OpHash
| OpCommit (onleaf : option LeafCallback)
| OpReopen (onleaf : option LeafCallback).

Inductive trie_result := RValue (v : option bytes) | RRoot (h : Hash) | RNone.

(** [OpReopen] commits, and goes on with a trie opened at the root. *)
Definition trie_step (limit : Z) (db : Database) (t : Trie) (op : trie_op)
    : tried (trie_result * Trie * Database) :=
  match op with
  | OpGet key => try r := TryGet db t key in Done (inl (RValue r.1, r.2, db))
  | OpUpdate key value => try t := TryUpdate db t key value in Done (inl (RNone, t, db))
  | OpDelete key => try t := TryDelete db t key in Done (inl (RNone, t, db))
  | OpHash => let? r := trie_Hash t in Done (inl (RRoot r.1, r.2, db))
  | OpCommit onleaf =>
      let? r := trie_Commit t db onleaf in
      let '(root, t, db) := r in Done (inl (RRoot root, t, db))
  | OpReopen onleaf =>
      let? r := trie_Commit t db onleaf in
      let '(root, _, db) := r in
      try t := New root db in Done (inl (RRoot root, SetCacheLimit limit t, db))
  end.

Fixpoint trie_run (limit : Z) (db : Database) (t : Trie) (ops : list trie_op)
    : tried (list trie_result * Trie * Database) :=
  match ops with
  | [] => Done (inl ([], t, db))
  | op :: ops =>
      try r := trie_step limit db t op in
      let '(x, t, db) := r in
      try rs := trie_run limit db t ops in
      let '(xs, t, db) := rs in Done (inl (x :: xs, t, db))
  end.

(** The same on a map. *)
Definition map_set (key value : bytes) (m : contents) : contents :=
  match value with [] => base.delete key m | _ => <[key := value]> m end.
Definition map_step (m : contents) (op : trie_op) : trie_result * contents :=
  match op with
  | OpGet key => (RValue (m !! key), m)
  | OpUpdate key value => (RNone, map_set key value m)
  | OpDelete key => (RNone, base.delete key m)
  | OpHash | OpCommit _ | OpReopen _ => (RRoot (map_root m), m)
  end.
Fixpoint map_run (m : contents) (ops : list trie_op) : list trie_result * contents :=
  match ops with
  | [] => ([], m)
  | op :: ops =>
      let '(x, m) := map_step m op in
      let '(xs, m) := map_run m ops in (x :: xs, m)
  end.

(** The maps that are committed. *)
Fixpoint commits (m : contents) (ops : list trie_op) : list contents :=
  match ops with
  | [] => []
  | op :: ops =>
      match op with OpCommit _ | OpReopen _ => [m] | _ => [] end ++ commits (map_step m op).2 ops
  end.

Definition op_sizes (op : trie_op) : Prop :=
  match op with
  | OpGet key | OpDelete key => are_bytes key
  | OpUpdate key value => key_ok key ∧ val_ok value
  | _ => True
  end.

(** The nodes of some maps, and no two of them with the same hash. *)
Definition nodes_of (ms : list contents) (u : tree) : Prop :=
  ∃ m, m ∈ ms ∧ subtree u (tree_of m) ∧ is_inner u = true.

Record no_collision (ms : list contents) : Prop := {
  nc_injective t u : nodes_of ms t → nodes_of ms u → tkey t = tkey u → tenc t = tenc u;
  nc_special t : nodes_of ms t → tkey t ≠ 0 ∧ tkey t ≠ emptyRoot;
}.

Lemma canonical_subtree T u : canonical T → subtree u T → is_inner u = true → canonical u.
Proof.
  induction 1 as [ns v Hn Hv|ns ts Hn Hne Hc IH|ts Hlen Htwo Hch IH Hlast]; intros Hu Hi.
  - inversion Hu as [|? ? Hu'|]; subst; [by constructor|]. by inversion Hu'; subst.
  - inversion Hu as [|? ? Hu'|]; subst; [by constructor|]. by apply IH.
  - inversion Hu as [| |? i t Ht Hu']; subst; [by constructor|].
    destruct (is_empty t) eqn:Ee; [destruct t; try done; by inversion Hu'; subst|].
    pose proof (lookup_lt_Some _ _ _ Ht). destruct (decide (i = 16)%nat) as [->|].
    + destruct (Hlast t Ht Ee) as (v & _ & ->). by inversion Hu'; subst.
    + apply (IH i t); [lia|done..].
Qed.

Lemma nodes_universe ms : Forall map_ok ms → no_collision ms → universe (nodes_of ms).
Proof.
  intros Hms [Hinj Hsp]. rewrite Forall_forall in Hms. split; [..|done|intros t Ht; by apply Hsp].
  - intros t (m & Hm & Hsub & Hi). destruct (tree_of_holds m (Hms m Hm)) as [Hc _ _ _].
    eapply canonical_subtree; [apply Hc|done..]. destruct (tree_of m); try done. by inversion Hsub; subst.
  - intros t (m & Hm & Hsub & Hi). pose proof (holds_sized _ _ (tree_of_holds m (Hms m Hm))) as Hs.
    intros u Hu. apply Hs. by etransitivity.
Qed.

(** ** One operation *)

Section step.
Context (db : Database) (t : Trie) (m : contents).
Context (Hm : map_ok m) (Ht : expands db true (t_root t) (tree_of m)).

Lemma tree_sits key : are_bytes key → sits (keybytesToHex key) (tree_of m).
Proof.
  intros Hk. destruct (tree_of_holds m Hm) as [Hc _ _ _]. destruct (is_empty (tree_of m)) eqn:Ee.
  - destruct (tree_of m); try done. constructor.
  - apply sits_canonical; [by apply Hc|by apply keybytes_path].
Qed.

Lemma fuel_enough n (k : bytes) : enough (fuel_for k) n (length k).
Proof. unfold enough, fuel_for. destruct (is_hashNode n); lia. Qed.

Lemma TryGet_ok key : are_bytes key →
  ∃ t', TryGet db t key = Done (inl (m !! key, t')) ∧ expands db true (t_root t') (tree_of m).
Proof.
  intros Hk. unfold TryGet.
  destruct (tryGet_ok db (t_cachegen t) (fuel_for (keybytesToHex key)) true (t_root t) (tree_of m) [] (keybytesToHex key))
    as (n' & b & Hr & Hn'); [done|by apply tree_sits|apply fuel_enough|].
  change ([] ++ keybytesToHex key) with (keybytesToHex key) in Hr. change (length []) with 0%nat in Hr.
  rewrite Hr. cbn [tbind obind]. rewrite (ho_lookup _ _ (tree_of_holds m Hm)) by done.
  eexists. split; [done|]. by destruct b.
Qed.

Lemma root_delete key : are_bytes key →
  ∃ b n', delete db (t_cachegen t) (fuel_for (keybytesToHex key)) (t_root t) [] (keybytesToHex key) = Done (inl (b, n')) ∧
    expands db true n' (tree_of (base.delete key m)).
Proof.
  intros Hk. destruct (delete_ok db (t_cachegen t) (fuel_for (keybytesToHex key)) true (t_root t) (tree_of m) [] (keybytesToHex key))
    as (b & n' & -> & Hn' & _); [done|by apply tree_sits|apply fuel_enough|].
  exists b, n'. split; [done|]. erewrite <- holds_tree_of; [exact Hn'|..].
  - intros key' v [_ Hv]%lookup_delete_Some. by apply Hm.
  - apply holds_delete; [by apply tree_of_holds|done].
Qed.

Lemma map_set_ok key value : key_ok key → val_ok value → map_ok (map_set key value m).
Proof.
  intros Hk Hv. unfold map_set. destruct value as [|x value].
  - intros key' v [_ Hl]%lookup_delete_Some. by apply Hm.
  - intros key' v [[<- <-]|[_ Hl]]%lookup_insert_Some; [done|by apply Hm].
Qed.

Lemma TryDelete_ok key : are_bytes key →
  ∃ t', TryDelete db t key = Done (inl t') ∧ expands db true (t_root t') (tree_of (base.delete key m)).
Proof.
  intros Hk. unfold TryDelete. destruct (root_delete key Hk) as (b & n' & -> & Hn'). cbn [tbind obind].
  by eexists.
Qed.

Lemma TryUpdate_ok key value : key_ok key → val_ok value →
  ∃ t', TryUpdate db t key value = Done (inl t') ∧ expands db true (t_root t') (tree_of (map_set key value m)).
Proof.
  intros Hk Hv. unfold TryUpdate. destruct value as [|x value].
  { destruct (root_delete key (proj1 Hk)) as (b & n' & -> & Hn'). cbn [tbind obind]. by eexists. }
  set (v := x :: value) in *.
  destruct (insert_ok db (t_cachegen t) (fuel_for (keybytesToHex key)) true (t_root t) (tree_of m) [] (keybytesToHex key) v)
    as (b & n' & -> & Hn' & _); [done|apply tree_sits, Hk|apply fuel_enough|].
  cbn [tbind obind]. eexists. split; [done|]. cbn [set_root t_root snd].
  erewrite <- holds_tree_of; [exact Hn'|by apply (map_set_ok key v)|]. by apply holds_insert; try apply tree_of_holds.
Qed.

Lemma simplify_hash n h : simplifyNode n = Done (hashNode h) → n = hashNode h.
Proof.
  destruct n; cbn [simplifyNode]; try done; try congruence.
  - by destruct (omapM _ _).
  - by destruct (simplifyNode _).
Qed.

Lemma emptyRoot_Bytes : BytesToHash (Hash_Bytes emptyRoot) = emptyRoot.
Proof. by vm_compute. Qed.

(** The root of an empty trie, or a pass of the hasher from the root. *)
Lemma hashRoot_ok U onleaf stored :
  (stored = true → universe U) → (stored = true → callback_ok U onleaf) → (stored = true → db_ok U db) →
  inside U (tree_of m) →
  ∃ h c db', hashRoot t (mk stored db) onleaf = Done (hashNode h, c, mk stored db') ∧
    BytesToHash h = map_root m ∧ expands db' true c (tree_of m) ∧ goes U stored db db' ∧
    (stored = true → is_empty (tree_of m) = false → saved db' (tree_of m)).
Proof.
  intros HU Hleaf Hdb Hin. unfold hashRoot, map_root. pose proof (expands_empty db _ _ _ Ht) as Hempty.
  destruct (is_empty (tree_of m)) eqn:Ee.
  { destruct (t_root t) eqn:Er; try done. eexists _, nilNode, db. split; [done|]. destruct (tree_of m) eqn:Et; try done.
    split_and!; [apply emptyRoot_Bytes|constructor|apply goes_refl|done]. }
  destruct (tree_of_holds m Hm) as [Hc _ _ _]. specialize (Hc Ee).
  destruct (hash_ok U (t_cachegen t) (t_cachelimit t) onleaf stored HU Hleaf (tree_of m) Hc Hin
    (holds_sized _ _ (tree_of_holds m Hm)) true (t_root t) db Hdb Ht) as (h & c & db' & Hr & [Hg Hh Hexp Hk He]).
  apply simplify_hash in Hh as ->. exists (thash (tree_of m)), c, db'.
  split_and!; [|rewrite (tree_root_inner _ (canonical_inner _ Hc)); reflexivity|done|done|].
  - destruct (t_root t); [discriminate Hempty|exact Hr..].
  - intros Est _. split; auto.
Qed.
End step.

(** ** Sessions *)

(** A callback that changes counters and links of the store only. *)
Definition keeps_store (f : LeafCallback) : Prop :=
  ∀ v h db, is_Some (db_nodes db !! h) →
    ∃ db', f v h db = Done db' ∧ db_disk db' = db_disk db ∧ same_nodes (db_nodes db') (db_nodes db) ∧
      db_oldest db' = db_oldest db ∧ db_newest db' = db_newest db.

Lemma same_nodes_Some ns ns' h : same_nodes ns ns' → is_Some (ns' !! h) → is_Some (ns !! h).
Proof. intros Hs [c Hc]. specialize (Hs h). rewrite Hc in Hs. by destruct (ns !! h). Qed.

Lemma keeps_callback U onleaf : (∀ f, onleaf = Some f → keeps_store f) → callback_ok U onleaf.
Proof.
  intros Hf f v h db Ef [Hnew Hnodes] Hh. destruct (Hf f Ef v h db Hh) as (db' & Hr & Hd & Hs & Ho & Hn).
  exists db'. split_and!; [done| | |by eapply same_nodes_Some].
  - split; [rewrite Ho, Hn; intros E; eapply same_nodes_Some; [done|auto]|].
    intros h' c Hc Hne. specialize (Hs h'). rewrite Hc in Hs.
    destruct (db_nodes db !! h') as [c0|] eqn:Hc0; [|done]. injection Hs as ->. by apply (Hnodes h' c0).
  - intros u _ He gen. rewrite <- He. by apply db_node_same.
Qed.

Definition op_ok (op : trie_op) : Prop :=
  op_sizes op ∧
  match op with OpCommit onleaf | OpReopen onleaf => ∀ f, onleaf = Some f → keeps_store f | _ => True end.

Section session.
Context (limit : Z) (ms : list contents).
Context (Hms : Forall map_ok ms) (Hnc : no_collision ms).

(** A trie with a store stands for a map. *)
Record represents (db : Database) (t : Trie) (m : contents) : Prop := {
  rp_map : map_ok m;
  rp_tree : expands db true (t_root t) (tree_of m);
  rp_store : db_ok (nodes_of ms) db;
}.

Lemma inside_nodes m : m ∈ ms → inside (nodes_of ms) (tree_of m).
Proof. intros Hm u Hu Hi. by exists m. Qed.

Lemma Commit_ok db t m onleaf : represents db t m → m ∈ ms → (∀ f, onleaf = Some f → keeps_store f) →
  ∃ t' db', trie_Commit t db onleaf = Done (map_root m, t', db') ∧ represents db' t' m ∧
    (is_empty (tree_of m) = false → saved db' (tree_of m)).
Proof.
  intros [Hm Ht Hdb] Hin Hf.
  destruct (hashRoot_ok db t m Hm Ht (nodes_of ms) onleaf true) as (h & c & db' & Hr & Hh & Hexp & [_ Hg] & Hs);
    [intros _; by apply nodes_universe|intros _; by apply keeps_callback|done|by apply inside_nodes|].
  unfold trie_Commit. cbn [mk] in Hr. rewrite Hr. cbn [obind]. rewrite Hh. eexists _, db'.
  split; [done|]. split; [|by apply Hs]. split; [done|done|by apply Hg].
Qed.

Lemma Hash_ok db t m : map_ok m → expands db true (t_root t) (tree_of m) →
  ∃ t', trie_Hash t = Done (map_root m, t') ∧ expands db true (t_root t') (tree_of m).
Proof.
  intros Hm Ht. destruct (hashRoot_ok db t m Hm Ht (fun _ => True) None false)
    as (h & c & db' & Hr & Hh & Hexp & [_ ->] & _); [done..|by intros u|].
  unfold trie_Hash. cbn [mk] in Hr. rewrite Hr. cbn [obind]. rewrite Hh. by eexists.
Qed.

Lemma New_ok db m : m ∈ ms → (is_empty (tree_of m) = false → saved db (tree_of m)) →
  ∃ t, New (map_root m) db = Done (inl t) ∧ expands db true (t_root t) (tree_of m).
Proof.
  intros Hin Hs. unfold New, map_root. destruct (is_empty (tree_of m)) eqn:Ee.
  { destruct (tree_of m); try done. cbn [tree_root]. eexists. split; [done|]. constructor. }
  assert (Hi : is_inner (tree_of m) = true).
  { rewrite Forall_forall in Hms. destruct (tree_of_holds m (Hms m Hin)) as [Hc _ _ _]. by apply canonical_inner, Hc. }
  rewrite (tree_root_inner _ Hi).
  destruct (nc_special ms Hnc (tree_of m)) as [H0 He]; [exists m; split_and!; [done|constructor|done]|].
  rewrite (proj2 (Z.eqb_neq _ _) H0), (proj2 (Z.eqb_neq _ _) He). cbn [negb andb].
  unfold tkey. rewrite keccak256_Hash. fold (thash (tree_of m)).
  destruct (resolveHash_ok db 0 true (thash (tree_of m)) (tree_of m) []) as (n & -> & _ & Hn).
  - apply ex_hash; [done|done|auto].
  - cbn [tbind obind]. by eexists.
Qed.

Lemma trie_step_ok db t m op : represents db t m → op_ok op → commits m [op] ⊆ ms →
  ∃ t' db', trie_step limit db t op = Done (inl ((map_step m op).1, t', db')) ∧ represents db' t' (map_step m op).2.
Proof.
  intros Hrep [Hsz Hcb] Hin. pose proof Hrep as [Hm Ht Hdb].
  destruct op as [key|key value|key| |onleaf|onleaf]; cbn [trie_step map_step fst snd commits] in *.
  - destruct (TryGet_ok db t m Hm Ht key Hsz) as (t' & -> & Ht'). cbn [tbind obind]. by eexists t', db.
  - destruct Hsz as [Hk Hv]. destruct (TryUpdate_ok db t m Hm Ht key value Hk Hv) as (t' & -> & Ht').
    cbn [tbind obind]. eexists t', db. split; [done|]. split; [by apply map_set_ok|done|done].
  - destruct (TryDelete_ok db t m Hm Ht key Hsz) as (t' & -> & Ht'). cbn [tbind obind]. eexists t', db. split; [done|].
    split; [|done|done]. intros key' v [_ Hv]%lookup_delete_Some. by apply Hm.
  - destruct (Hash_ok db t m Hm Ht) as (t' & -> & Ht'). cbn [obind]. by eexists t', db.
  - destruct (Commit_ok db t m onleaf Hrep) as (t' & db' & -> & Hrep' & _); [set_solver|done|].
    cbn [obind]. by eexists t', db'.
  - destruct (Commit_ok db t m onleaf Hrep) as (t' & db' & -> & [_ _ Hdb'] & Hs); [set_solver|done|]. cbn [obind].
    destruct (New_ok db' m) as (t'' & -> & Ht''); [set_solver|done|]. cbn [tbind obind].
    by eexists _, db'.
Qed.

Lemma trie_run_ok db t m ops : represents db t m → Forall op_ok ops → commits m ops ⊆ ms →
  ∃ t' db', trie_run limit db t ops = Done (inl ((map_run m ops).1, t', db')) ∧ represents db' t' (map_run m ops).2.
Proof.
  revert db t m. induction ops as [|op ops IH]; intros db t m Hrep Hall Hin; [by exists t, db|].
  apply Forall_cons in Hall as [Hop Hall]. cbn [trie_run map_run]. cbn [commits] in Hin.
  destruct (trie_step_ok db t m op Hrep Hop) as (t1 & db1 & -> & Hrep1); [cbn [commits]; set_solver|].
  cbn [tbind obind]. destruct (map_step m op) as [x m1]. cbn [fst snd] in *.
  destruct (IH db1 t1 m1 Hrep1 Hall) as (t2 & db2 & -> & Hrep2); [set_solver|].
  cbn [tbind obind]. destruct (map_run m1 ops) as [xs m2]. by eexists t2, db2.
Qed.
End session.

(** Committed maps are maps that fit. *)
Lemma commits_ok m ops : map_ok m → Forall op_ok ops → Forall map_ok (commits m ops).
Proof.
  revert m. induction ops as [|op ops IH]; intros m Hm Hall; [constructor|].
  apply Forall_cons in Hall as [[Hsz _] Hall]. cbn [commits]. apply Forall_app. split.
  - destruct op; simpl; rewrite ?Forall_singleton; done || constructor.
  - apply IH; [|done]. destruct op as [key|key value|key| |onleaf|onleaf]; cbn [map_step snd]; try done.
    + destruct Hsz. by apply map_set_ok.
    + intros key' v [_ Hv]%lookup_delete_Some. by apply Hm.
Qed.

Definition empty_trie (limit : Z) : Trie := mkTrie nilNode 0 0 limit.

Lemma represents_empty ms disk limit : represents ms (NewDatabase disk) (empty_trie limit) ∅.
Proof.
  split; [done|constructor|]. split; [done|]. intros h c Hc. cbn [NewDatabase db_nodes] in Hc.
  by apply lookup_singleton_Some in Hc as [<- _].
Qed.

(** ** Equal hashes *)

(** Two trees without a collision between their nodes. *)
Record comparable (t u : tree) : Prop := {
  cp_left a : subtree a t → is_inner a = true → canonical a ∧ sized a;
  cp_right b : subtree b u → is_inner b = true → canonical b ∧ sized b;
  cp_injective a b : subtree a t → subtree b u → is_inner a = true → is_inner b = true →
    tkey a = tkey b → tenc a = tenc b;
}.

Lemma comparable_sub t u t' u' : subtree t' t → subtree u' u → comparable t u → comparable t' u'.
Proof.
  intros Ht Hu [Hl Hr Hi]. split.
  - intros a Ha. apply Hl. by etransitivity.
  - intros b Hb. apply Hr. by etransitivity.
  - intros a b Ha Hb. apply Hi; by etransitivity.
Qed.

(** The same reference to a child is the same node. *)
Lemma child_live_eq t u : comparable t u → child_live 0 t = child_live 0 u → live None 0 t = live None 0 u.
Proof.
  intros [Hl Hr Hi]. unfold child_live.
  destruct (is_inner t) eqn:Et, (is_inner u) eqn:Eu; cbn [andb]; intros E; try done.
  - destruct (long t), (long u); try done; [|by destruct u|by destruct t].
    destruct (Hl t (sub_refl _) Et), (Hr u (sub_refl _) Eu). apply tenc_live; try done.
    apply Hi; try done; try apply sub_refl. injection E as E. unfold tkey, keccak. fold (thash t) (thash u). by rewrite E.
  - by destruct (long t), t, u.
  - by destruct (long u), t, u.
Qed.

(** Nodes read from the store are equal only for equal trees. *)
Lemma live_injective t : ∀ u, comparable t u → live None 0 t = live None 0 u → t = u.
Proof.
  induction t as [|v|k t IH|ts IH] using tree_ind'; intros [|w|k' u|us] Hc E; try done.
  - by injection E as <-.
  - injection E as <- E. fold (child_live 0 t) (child_live 0 u) in E.
    assert (Hc' : comparable t u) by (eapply comparable_sub; [..|exact Hc]; repeat constructor).
    f_equal. by apply IH, child_live_eq.
  - injection E as E. f_equal.
    assert (Hlen : length ts = length us) by (apply (f_equal length) in E; by rewrite !length_map in E).
    apply list_eq_same_length with (length us); [done|done|]. intros i t u _ Hti Hui.
    rewrite Forall_lookup in IH. apply (f_equal (.!! i)) in E. change (map ?f ?l) with (f <$> l) in E.
    rewrite !list_lookup_fmap, Hti, Hui in E. injection E as E.
    assert (Hc' : comparable t u) by (eapply comparable_sub; [..|exact Hc]; (eapply sub_branch; [done|constructor])).
    by apply (IH i t Hti), child_live_eq.
Qed.

Lemma tree_root_injective T1 T2 :
  can T1 → can T2 → comparable T1 T2 →
  (∀ T, T = T1 ∨ T = T2 → is_inner T = true → tkey T ≠ emptyRoot) → tree_root T1 = tree_root T2 → T1 = T2.
Proof.
  intros Hc1 Hc2 Hcmp Hsp E. pose proof Hcmp as [Hl Hr Hi].
  destruct (is_empty T1) eqn:E1, (is_empty T2) eqn:E2.
  - by destruct T1, T2.
  - pose proof (canonical_inner _ (Hc2 E2)) as Hi2. destruct (Hsp T2); [auto..|].
    rewrite (tree_root_inner T2 Hi2) in E. rewrite <- E. by destruct T1.
  - pose proof (canonical_inner _ (Hc1 E1)) as Hi1. destruct (Hsp T1); [auto..|].
    rewrite (tree_root_inner T1 Hi1) in E. rewrite E. by destruct T2.
  - pose proof (canonical_inner _ (Hc1 E1)). pose proof (canonical_inner _ (Hc2 E2)).
    apply live_injective; [done|].
    apply tenc_live; [auto|by apply Hl; [constructor|]|auto|by apply Hr; [constructor|]|].
    rewrite !tree_root_inner in E by done. by apply Hi; try constructor.
Qed.

(** The contents can be read off the tree. *)
Lemma tree_of_injective m1 m2 : map_ok m1 → map_ok m2 → tree_of m1 = tree_of m2 → m1 = m2.
Proof.
  intros H1 H2 E. apply map_eq. intros key.
  pose proof (tree_of_holds m1 H1) as Hh1. pose proof (tree_of_holds m2 H2) as Hh2.
  destruct (decide (are_bytes key)) as [Hb|Hb].
  - by rewrite <- (ho_lookup _ _ Hh1), <- (ho_lookup _ _ Hh2), E by done.
  - destruct (m1 !! key) as [v|] eqn:Ek; [by destruct (H1 _ _ Ek) as [[? _] _]|].
    destruct (m2 !! key) as [v|] eqn:Ek'; [by destruct (H2 _ _ Ek') as [[? _] _]|]. done.
Qed.

Lemma map_root_injective m1 m2 :
  map_ok m1 → map_ok m2 → no_collision [m1; m2] → map_root m1 = map_root m2 → m1 = m2.
Proof.
  intros H1 H2 Hnc E.
  assert (Hnode : ∀ m u, m = m1 ∨ m = m2 → subtree u (tree_of m) → is_inner u = true → nodes_of [m1; m2] u).
  { intros m u Hm Hu Hi. exists m. split; [set_solver|done]. }
  destruct (nodes_universe [m1; m2]) as [Hcan Hsz _ _]; [by rewrite !Forall_cons|done|]. destruct Hnc as [Hinj Hsp].
  apply tree_of_injective; [done..|]. apply tree_root_injective; try done.
  - apply (tree_of_holds m1 H1).
  - apply (tree_of_holds m2 H2).
  - split; [intros a Ha Hi; assert (nodes_of [m1; m2] a) by eauto; auto..|]. intros a b Ha Hb Hia Hib. apply Hinj; eauto.
  - intros T HT Hi. apply Hsp. destruct HT as [->| ->]; (eapply Hnode; [|apply sub_refl|done]); auto.
Qed.
