(* ===== verification/TrieSession.v ===== *)
(** * Sessions on a trie

    The main theorems on tries: a sequence of operations on a trie and its store
    is the sequence of operations on a map, commits and reopenings included; the
    root hash depends on the contents alone, and determines them. *)

From stdpp Require Import base list gmap strings.
From Stdlib Require Import ZArith Lia.
From S2P Require Import Prelude Bytes Keccak KeccakFacts FsnTypes Rlp Codec StateDB.
From S2P Require Import TrieEncoding TrieTree TrieNode TrieStore Trie TrieHash TrieFacts TrieHashFacts TrieMap.

(** ** The callback of the state

    [StateDB.Commit] references the storage trie and the code of an account from
    the node the account is in. *)

Definition emptyState : Hash := keccak [].
Definition emptyCode : Hash := keccak [].

Definition commit_leaf (leaf : bytes) (parent : Hash) (db : Database) : outcome Database :=
  match Unmarshal Account leaf with
  | (_, Some _) => Done db
  | (account, None) =>
      let? db := (if negb (Root account =? emptyState) then db_reference db (Root account) parent else Done db) in
      let code := BytesToHash (CodeHash account) in
      if negb (code =? emptyCode) then db_reference db code parent else Done db
  end.

(** Only counters and links change. *)
Definition counts (h : Hash) (db db' : Database) : Prop :=
  db_disk db' = db_disk db ∧ same_nodes (db_nodes db') (db_nodes db) ∧
  db_oldest db' = db_oldest db ∧ db_newest db' = db_newest db.

#[export] Instance counts_preorder h : PreOrder (counts h).
Proof.
  split; [done|]. intros a b c (D1 & N1 & O1 & L1) (D2 & N2 & O2 & L2).
  split_and!; [congruence|by etransitivity|congruence..].
Qed.

Lemma reference_counts db child parent : is_Some (db_nodes db !! parent) →
  ∃ db', db_reference db child parent = Done db' ∧ counts parent db db'.
Proof.
  intros [p Hp]. unfold db_reference. destruct (db_nodes db !! child) as [c|]; [|by exists db]. rewrite Hp.
  destruct (_ && _); [by exists db|]. eexists. split; [done|]. split_and!; try done. cbn [db_nodes].
  etransitivity; [by apply same_nodes_alter|]. by apply same_nodes_alter.
Qed.

Lemma commit_leaf_keeps : keeps_store commit_leaf.
Proof.
  intros v h db Hh. unfold commit_leaf. destruct (Unmarshal Account v) as [account [e|]]; [by exists db|].
  assert (Hcond : ∀ (b : bool) child db, is_Some (db_nodes db !! h) →
    ∃ db', (if b then db_reference db child h else Done db) = Done db' ∧ counts h db db').
  { intros [] child d Hd; [by apply reference_counts|by exists d]. }
  destruct (Hcond (negb (Root account =? emptyState)) (Root account) db Hh) as (db1 & -> & Hc1).
  cbn [obind]. assert (is_Some (db_nodes db1 !! h)) as Hh1 by (destruct Hc1 as (_ & Hs & _); by eapply same_nodes_Some).
  destruct (Hcond (negb (BytesToHash (CodeHash account) =? emptyCode)) (BytesToHash (CodeHash account)) db1 Hh1)
    as (db2 & -> & Hc2).
  exists db2. split; [done|]. exact (transitivity Hc1 Hc2).
Qed.

(** ** Checking an example for collisions *)

Fixpoint inner_subtrees (t : tree) : list tree :=
  match t with
  | TEmpty | TLeaf _ => []
  | TExt _ t' => t :: inner_subtrees t'
  | TBranch ts => t :: concat (map inner_subtrees ts)
  end.

Lemma inner_subtrees_ok u t : subtree u t → is_inner u = true → u ∈ inner_subtrees t.
Proof.
  induction 1 as [|k t Hu IH|ts i t Ht Hu IH]; intros Hi; cbn [inner_subtrees].
  - destruct u; try done; cbn [inner_subtrees]; apply list_elem_of_here.
  - apply list_elem_of_further; auto.
  - apply list_elem_of_further, list_elem_of_In, in_concat. exists (inner_subtrees t).
    split; [apply in_map, list_elem_of_In; by eapply list_elem_of_lookup_2|apply list_elem_of_In; auto].
Qed.

Definition keys_of (ms : list contents) : list (Hash * bytes) :=
  map (fun t => (tkey t, tenc t)) (concat (map (fun m => inner_subtrees (tree_of m)) ms)).
Definition no_collision_check (ks : list (Hash * bytes)) : bool :=
  forallb (fun '(h, e) => negb (h =? 0) && negb (h =? emptyRoot) &&
    forallb (fun '(h', e') => negb (h =? h') || bool_decide (e = e')) ks) ks.

Lemma no_collision_check_ok ms : no_collision_check (keys_of ms) = true → no_collision ms.
Proof.
  intros Hc. assert (Hin : ∀ u, nodes_of ms u → In (tkey u, tenc u) (keys_of ms)).
  { intros u (m & Hm & Hu & Hi). unfold keys_of. apply (in_map (fun t => (tkey t, tenc t))), in_concat.
    exists (inner_subtrees (tree_of m)). split; [apply (in_map (fun m => inner_subtrees (tree_of m)))|];
      apply list_elem_of_In; [done|by apply inner_subtrees_ok]. }
  unfold no_collision_check in Hc. rewrite forallb_forall in Hc. split.
  - intros t u Ht Hu E. specialize (Hc _ (Hin t Ht)). cbv beta iota in Hc. apply andb_true_iff in Hc as [_ Hc].
    rewrite forallb_forall in Hc. specialize (Hc _ (Hin u Hu)). cbv beta iota in Hc. rewrite E, Z.eqb_refl in Hc.
    by apply bool_decide_eq_true in Hc.
  - intros t Ht. specialize (Hc _ (Hin t Ht)). cbv beta iota in Hc.
    apply andb_true_iff in Hc as [[H1 H2]%andb_true_iff _].
    apply negb_true_iff, Z.eqb_neq in H1. by apply negb_true_iff, Z.eqb_neq in H2.
Qed.

(** ** Properties *)

(** C4: on an empty trie with a new store over any disk, every sequence of gets,
    updates, deletes, hashes, commits and reopenings at the committed root gives
    the results of the same sequence on a finite map, where an update with an empty
    value deletes and the root is the hash of the map's tree; no node is missing
    and nothing panics. For any cache limit, so whichever nodes are unloaded, and
    for callbacks that change reference counts only; the trees that are committed
    have no hash collision between their nodes. *)
Theorem trie_session_refines_map ops disk limit :
  Forall op_ok ops → no_collision (commits ∅ ops) →
  ∃ t db, trie_run limit (NewDatabase disk) (empty_trie limit) ops = Done (inl ((map_run ∅ ops).1, t, db)).
Proof.
  intros Hops Hnc. pose proof (commits_ok ∅ ops ltac:(done) Hops) as Hms.
  destruct (trie_run_ok limit (commits ∅ ops) Hms Hnc (NewDatabase disk) (empty_trie limit) ∅ ops)
    as (t & db & Hr & _); [apply represents_empty|done|done|]. by exists t, db.
Qed.

Lemma map_run_app m ops1 ops2 :
  map_run m (ops1 ++ ops2) =
    let '(xs, m1) := map_run m ops1 in let '(ys, m2) := map_run m1 ops2 in (xs ++ ys, m2).
Proof.
  revert m. induction ops1 as [|op ops1 IH]; intros m; cbn [app map_run]; [by destruct (map_run m ops2)|].
  destruct (map_step m op) as [x m1]. rewrite IH. destruct (map_run m1 ops1) as [xs m2]. by destruct (map_run m2 ops2).
Qed.
Lemma commits_app m ops1 ops2 : commits m (ops1 ++ ops2) = commits m ops1 ++ commits (map_run m ops1).2 ops2.
Proof.
  revert m. induction ops1 as [|op ops1 IH]; intros m; [done|]. cbn [app commits map_run]. rewrite IH, app_assoc.
  destruct (map_step m op) as [x m1]. cbn [snd]. by destruct (map_run m1 ops1).
Qed.
Lemma map_run_ok m ops : map_ok m → Forall op_ok ops → map_ok (map_run m ops).2.
Proof.
  intros Hm Hops. assert (Hc : Forall map_ok (commits m (ops ++ [OpCommit None]))).
  { apply commits_ok; [done|]. apply Forall_app. split; [done|]. rewrite Forall_singleton. by split. }
  rewrite commits_app in Hc. apply Forall_app in Hc as [_ Hc]. by apply Forall_cons in Hc as [? _].
Qed.

(** The hash at the end of a session that commits nothing. *)
Lemma session_hash ops disk limit : Forall op_ok ops → commits ∅ ops = [] →
  ∃ t db, trie_run limit (NewDatabase disk) (empty_trie limit) (ops ++ [OpHash]) =
    Done (inl ((map_run ∅ ops).1 ++ [RRoot (map_root (map_run ∅ ops).2)], t, db)).
Proof.
  intros Hops Hnone.
  assert (Hops' : Forall op_ok (ops ++ [OpHash])) by (apply Forall_app; split; [done|]; rewrite Forall_singleton; by split).
  assert (Hnone' : commits ∅ (ops ++ [OpHash]) = []) by (by rewrite commits_app, Hnone).
  destruct (trie_run_ok limit [] ltac:(constructor) (no_collision_check_ok [] eq_refl) (NewDatabase disk) (empty_trie limit) ∅
    (ops ++ [OpHash])) as (t & db & Hr & _); [apply represents_empty|done|by rewrite Hnone'|].
  exists t, db. rewrite Hr, map_run_app. by destruct (map_run ∅ ops).
Qed.

(** C13: two tries that were filled by different sequences of updates and deletes,
    in different orders and with other hashings in between, have the same root
    hash when their contents are the same. *)
Theorem root_hash_history_independent ops1 ops2 disk1 disk2 limit1 limit2 :
  Forall op_ok ops1 → Forall op_ok ops2 → commits ∅ ops1 = [] → commits ∅ ops2 = [] →
  (map_run ∅ ops1).2 = (map_run ∅ ops2).2 →
  ∃ h xs1 xs2 t1 t2 db1 db2,
    trie_run limit1 (NewDatabase disk1) (empty_trie limit1) (ops1 ++ [OpHash]) = Done (inl (xs1 ++ [RRoot h], t1, db1)) ∧
    trie_run limit2 (NewDatabase disk2) (empty_trie limit2) (ops2 ++ [OpHash]) = Done (inl (xs2 ++ [RRoot h], t2, db2)).
Proof.
  intros H1 H2 C1 C2 E. destruct (session_hash ops1 disk1 limit1 H1 C1) as (t1 & db1 & R1).
  destruct (session_hash ops2 disk2 limit2 H2 C2) as (t2 & db2 & R2).
  exists (map_root (map_run ∅ ops1).2), (map_run ∅ ops1).1, (map_run ∅ ops2).1, t1, t2, db1, db2.
  split; [done|]. by rewrite E.
Qed.

(** C14: two tries with the same root hash have the same contents, unless two of
    their nodes with different encodings have the same hash. *)
Theorem root_hash_binds_contents ops1 ops2 disk1 disk2 limit1 limit2 h xs1 xs2 t1 t2 db1 db2 :
  Forall op_ok ops1 → Forall op_ok ops2 → commits ∅ ops1 = [] → commits ∅ ops2 = [] →
  no_collision [(map_run ∅ ops1).2; (map_run ∅ ops2).2] →
  trie_run limit1 (NewDatabase disk1) (empty_trie limit1) (ops1 ++ [OpHash]) = Done (inl (xs1 ++ [RRoot h], t1, db1)) →
  trie_run limit2 (NewDatabase disk2) (empty_trie limit2) (ops2 ++ [OpHash]) = Done (inl (xs2 ++ [RRoot h], t2, db2)) →
  (map_run ∅ ops1).2 = (map_run ∅ ops2).2.
Proof.
  intros H1 H2 C1 C2 Hnc R1 R2.
  destruct (session_hash ops1 disk1 limit1 H1 C1) as (t1' & db1' & R1').
  destruct (session_hash ops2 disk2 limit2 H2 C2) as (t2' & db2' & R2').
  rewrite R1' in R1. rewrite R2' in R2. apply (f_equal (fun r => match r with Done (inl (xs, _, _)) => last xs | _ => None end)) in R1, R2.
  rewrite !last_snoc in R1, R2. injection R1 as R1. injection R2 as R2.
  apply map_root_injective; [by apply map_run_ok..|done|]. by rewrite R1, R2.
Qed.

(** ** Witnesses *)

Definition ex_value (x : Z) : bytes := replicate 40 x.
(** Two keys that part at their first nibble; both leaves are nodes of their own. *)
Definition ex_session : list trie_op :=
  [OpUpdate [1] (ex_value 7); OpUpdate [18] (ex_value 8); OpCommit (Some commit_leaf); OpGet [18];
   OpDelete [18]; OpReopen None; OpGet [18]; OpGet [1]].
Definition ex_fill1 : list trie_op := [OpUpdate [1] (ex_value 7)].
Definition ex_fill2 : list trie_op := [OpUpdate [18] (ex_value 8); OpHash; OpUpdate [1] (ex_value 7); OpUpdate [18] []].

Lemma ex_sizes key x value :
  0 <= key < 256 → 0 <= x < 256 → value = ex_value x ∨ value = [] → op_ok (OpUpdate [key] value) ∧ op_ok (OpGet [key]) ∧ op_ok (OpDelete [key]).
Proof.
  intros Hk Hx Hv. assert (are_bytes [key]) by (by constructor; [|constructor]).
  split_and!; split; try done. split; [by split|]. destruct Hv as [->| ->]; [|by split].
  split; [by apply Forall_replicate|]. done.
Qed.

Lemma ex_session_ok : Forall op_ok ex_session.
Proof.
  destruct (ex_sizes 1 7 (ex_value 7)) as (? & ? & ?), (ex_sizes 18 8 (ex_value 8)) as (? & ? & ?); try lia; auto.
  unfold ex_session. repeat (apply Forall_cons; split); try done; try apply Forall_nil_2.
  - split; [done|]. intros f [= <-]. apply commit_leaf_keeps.
Qed.
Lemma ex_fill_ok : Forall op_ok ex_fill1 ∧ Forall op_ok ex_fill2.
Proof.
  destruct (ex_sizes 1 7 (ex_value 7)) as (? & ? & ?), (ex_sizes 18 8 (ex_value 8)) as (? & ? & ?),
    (ex_sizes 18 8 []) as (? & ? & ?); try lia; auto.
  unfold ex_fill1, ex_fill2. split; repeat (apply Forall_cons; split); try done; by apply Forall_nil_2.
Qed.

Lemma ex_session_free : no_collision_check (keys_of (commits ∅ ex_session)) = true.
Proof. vm_compute. reflexivity. Qed.
Lemma ex_fill_free : no_collision_check (keys_of [(map_run ∅ ex_fill1).2; (map_run ∅ ex_fill2).2]) = true.
Proof. vm_compute. reflexivity. Qed.
Lemma ex_fill_same : (map_run ∅ ex_fill1).2 = (map_run ∅ ex_fill2).2.
Proof. reflexivity. Qed.

Lemma trie_session_refines_map_witness :
  (map_run ∅ ex_session).1 !! 6%nat = Some (RValue None) ∧
  (map_run ∅ ex_session).1 !! 7%nat = Some (RValue (Some (ex_value 7))) ∧
  ∃ t db, trie_run 120 (NewDatabase (fun _ => None)) (empty_trie 120) ex_session =
    Done (inl ((map_run ∅ ex_session).1, t, db)).
Proof.
  split; [reflexivity|]. split; [reflexivity|].
  apply (trie_session_refines_map ex_session (fun _ => None) 120);
    [exact ex_session_ok|exact (no_collision_check_ok _ ex_session_free)].
Defined.

Lemma root_hash_history_independent_witness :
  ∃ h xs1 xs2 t1 t2 db1 db2,
    trie_run 0 (NewDatabase (fun _ => None)) (empty_trie 0) (ex_fill1 ++ [OpHash]) = Done (inl (xs1 ++ [RRoot h], t1, db1)) ∧
    trie_run 3 (NewDatabase (fun _ => None)) (empty_trie 3) (ex_fill2 ++ [OpHash]) = Done (inl (xs2 ++ [RRoot h], t2, db2)).
Proof.
  destruct ex_fill_ok as [H1 H2].
  exact (root_hash_history_independent ex_fill1 ex_fill2 _ _ 0 3 H1 H2 eq_refl eq_refl ex_fill_same).
Defined.

Lemma root_hash_binds_contents_witness : (map_run ∅ ex_fill1).2 = (map_run ∅ ex_fill2).2.
Proof.
  destruct ex_fill_ok as [H1 H2].
  destruct (session_hash ex_fill1 (fun _ => None) 0 H1 eq_refl) as (t1 & db1 & R1).
  destruct (session_hash ex_fill2 (fun _ => None) 3 H2 eq_refl) as (t2 & db2 & R2).
  rewrite <- ex_fill_same in R2.
  exact (root_hash_binds_contents ex_fill1 ex_fill2 _ _ 0 3 _ _ _ _ _ _ _ H1 H2 eq_refl eq_refl
    (no_collision_check_ok _ ex_fill_free) R1 R2).
Defined.
