(* ===== verification/Hex.v ===== *)
(** * Hexadecimal strings (common/bytes.go, common/types.go)

    Strings are lists of character codes. [Address_Hex] is the mixed-case form of
    an address, whose letters carry a checksum; it is hashed in the order of the
    tickets and written into logs, from which the address is read back. *)

From stdpp Require Import base list gmap strings.
From Stdlib Require Import ZArith Lia.
From S2P Require Import Prelude Bytes Keccak KeccakFacts.

(** ** encoding/hex *)

Definition hex_digit (n : Z) : Z := if n <? 10 then 48 + n else 87 + n.
Definition hex_EncodeToString (b : bytes) : bytes :=
  concat (map (fun x => [hex_digit (x / 16); hex_digit (x mod 16)]) b).

Definition fromHexChar (c : Z) : option Z :=
  if (48 <=? c) && (c <=? 57) then Some (c - 48)
  else if (97 <=? c) && (c <=? 102) then Some (c - 97 + 10)
  else if (65 <=? c) && (c <=? 70) then Some (c - 65 + 10)
  else None.

(** The bytes before the first character that is no digit. *)
Fixpoint hex_DecodeString (s : bytes) : bytes :=
  match s with
  | a :: b :: s' =>
      match fromHexChar a, fromHexChar b with
      | Some x, Some y => x * 16 + y :: hex_DecodeString s'
      | _, _ => []
      end
  | _ => []
  end.

(** ** The package common *)

Definition Hex2Bytes (str : bytes) : bytes := hex_DecodeString str.

Definition FromHex (s : bytes) : bytes :=
  let s := match s with
           | 48 :: c :: s' => if (c =? 120) || (c =? 88) then s' else s
           | _ => s
           end in
  let s := if (length s mod 2 =? 1)%nat then 48 :: s else s in
  Hex2Bytes s.

Definition HexToHash (s : bytes) : Hash := BytesToHash (FromHex s).
Definition HexToAddress (s : bytes) : Address := BytesToAddress (FromHex s).

(** [hexutil.Encode] of the bytes. *)
Definition Hash_Hex (h : Hash) : bytes := 48 :: 120 :: hex_EncodeToString (Hash_Bytes h).

(** The character [i] of the result; [hash] is that of the whole string. *)
Definition checksum_char (hash : bytes) (i : nat) (c : Z) : Z :=
  let hashByte := nth (i / 2) hash 0 in
  let hashByte := if (i mod 2 =? 0)%nat then Z.shiftr hashByte 4 else Z.land hashByte 15 in
  if (57 <? c) && (7 <? hashByte) then c - 32 else c.

Definition Address_Hex (a : Address) : bytes :=
  let unchecksummed := hex_EncodeToString (Address_Bytes a) in
  let hash := Reference.keccak256 unchecksummed in
  48 :: 120 :: imap (checksum_char hash) unchecksummed.

(** ** Reading back *)

Lemma fromHexChar_digit n : 0 <= n < 16 → fromHexChar (hex_digit n) = Some n.
Proof.
  intros Hn. unfold hex_digit, fromHexChar. zcase; simpl; f_equal; lia.
Qed.

Lemma fromHexChar_checksum hash i n :
  0 <= n < 16 → fromHexChar (checksum_char hash i (hex_digit n)) = Some n.
Proof.
  intros Hn. unfold checksum_char. destruct (_ && _) eqn:E; [|by apply fromHexChar_digit].
  apply andb_true_iff in E as [E _]. apply Z.ltb_lt in E. unfold hex_digit in *.
  unfold fromHexChar. zcase; simpl; f_equal; lia.
Qed.

(** A string that reads like the encoding of [b], digit by digit. *)
Lemma hex_Decode_reads b s :
  are_bytes b → Forall2 (fun c c' => fromHexChar c' = fromHexChar c) (hex_EncodeToString b) s →
  hex_DecodeString s = b.
Proof.
  intros Hb. revert s. induction Hb as [|x b Hx Hb IH]; intros s Hs; simpl in Hs.
  - by apply Forall2_nil_inv_l in Hs as ->.
  - apply Forall2_cons_inv_l in Hs as (c1 & s1 & H1 & Hs & ->).
    apply Forall2_cons_inv_l in Hs as (c2 & s2 & H2 & Hs & ->). simpl. unfold is_byte in Hx.
    pose proof (Z.div_mod x 16 ltac:(lia)). pose proof (Z.mod_pos_bound x 16 ltac:(lia)).
    rewrite H1, H2, !fromHexChar_digit by (try apply Z.div_lt_upper_bound; lia).
    f_equal; [lia|]. by apply IH.
Qed.

Lemma hex_digits b : are_bytes b → Forall (fun c => ∃ n, 0 <= n < 16 ∧ c = hex_digit n) (hex_EncodeToString b).
Proof.
  induction 1 as [|x b Hx Hb IH]; [done|]. unfold is_byte in Hx. simpl. constructor; [|constructor; [|done]].
  - exists (x / 16). split; [|done]. split; [apply Z.div_pos; lia|apply Z.div_lt_upper_bound; lia].
  - exists (x mod 16). split; [apply Z.mod_pos_bound; lia|done].
Qed.

Lemma length_hex_Encode b : length (hex_EncodeToString b) = (2 * length b)%nat.
Proof. unfold hex_EncodeToString. induction b; simpl in *; lia. Qed.

Lemma FromHex_reads b s :
  are_bytes b → Forall2 (fun c c' => fromHexChar c' = fromHexChar c) (hex_EncodeToString b) s →
  FromHex (48 :: 120 :: s) = b.
Proof.
  intros Hb Hs. unfold FromHex. pose proof (Forall2_length _ _ _ Hs) as Hl.
  assert ((length s mod 2 =? 1)%nat = false) as E.
  { rewrite length_hex_Encode in Hl. rewrite <- Hl, Nat.mul_comm, Nat.Div0.mod_mul. done. }
  cbn [Z.eqb Pos.eqb orb]. rewrite E. by apply hex_Decode_reads.
Qed.

Lemma HexToAddress_Hex a : is_address a → HexToAddress (Address_Hex a) = a.
Proof.
  intros Ha. unfold HexToAddress, Address_Hex. pose proof (be_bytes_are_bytes AddressLength a) as Hb.
  rewrite (FromHex_reads (Address_Bytes a)); [|done|].
  - unfold BytesToAddress, crop, Address_Bytes, AddressLength.
    rewrite length_be_bytes, Nat.sub_diag, drop_0, SetBytes_be_bytes. by apply Z.mod_small.
  - apply Forall2_same_length_lookup. split; [by rewrite length_imap|]. intros i c c' Hc Hc'.
    rewrite list_lookup_imap, Hc in Hc'. injection Hc' as <-.
    destruct (Forall_lookup_1 _ _ _ _ (hex_digits _ Hb) Hc) as (n & Hn & ->).
    by rewrite fromHexChar_checksum, fromHexChar_digit.
Qed.

Lemma HexToHash_Hex h : is_hash h → HexToHash (Hash_Hex h) = h.
Proof.
  intros Hh. unfold HexToHash, Hash_Hex. rewrite (FromHex_reads (Hash_Bytes h)).
  - by apply BytesToHash_Bytes.
  - apply be_bytes_are_bytes.
  - by apply Forall_Forall2_diag, Forall_true.
Qed.
