(* ===== verification/Header.v ===== *)
(** * Block headers (core/types/block.go)

    The header of a block, its nonce and its hash. The header carries the ticket
    that was selected for the block and the tickets that were passed over; both
    are computed by the consensus engine, kept in the header object and not part
    of its encoding. *)

From stdpp Require Import base list gmap strings.
From Stdlib Require Import ZArith Lia.
From S2P Require Import Prelude Bytes Keccak KeccakFacts Ticket FsnTypes Rlp RlpFacts Codec.

(** ** Nonces *)

(** [BlockNonce]: eight bytes. *)
Definition EncodeNonce (i : Z) : bytes := be_bytes 8 i.
Definition Nonce_Uint64 (n : bytes) : Z := SetBytes n.

Lemma Nonce_roundtrip i : is_u64 i → Nonce_Uint64 (EncodeNonce i) = i.
Proof. intros Hi. unfold Nonce_Uint64, EncodeNonce. rewrite SetBytes_be_bytes. by apply Z.mod_small. Qed.

Lemma Nonce_Uint64_u64 n : are_bytes n → length n = 8%nat → is_u64 (Nonce_Uint64 n).
Proof. intros Hb Hl. pose proof (SetBytes_range n Hb) as H. by rewrite Hl in H. Qed.

Lemma EncodeNonce_Uint64 n : are_bytes n → length n = 8%nat → EncodeNonce (Nonce_Uint64 n) = n.
Proof. intros Hb Hl. unfold EncodeNonce, Nonce_Uint64. rewrite <- Hl. by apply be_bytes_SetBytes. Qed.

(** ** The header *)

Record Header := mkHeader {
  h_ParentHash : Hash;
  h_UncleHash : Hash;
  h_Coinbase : Address;
  h_Root : Hash;
  h_TxHash : Hash;
  h_ReceiptHash : Hash;
  h_Bloom : bytes;
  h_Difficulty : option Z;
  h_Number : option Z;
  h_GasLimit : Z;
  h_GasUsed : Z;
  h_Time : option Z;
  h_Extra : bytes;
  h_MixDigest : Hash;
  h_Nonce : bytes;
  h_selectedTicket : option Ticket;
  h_retreatTickets : list Ticket;
}.

Definition set_selected (t : option Ticket) (r : list Ticket) (h : Header) : Header :=
  mkHeader (h_ParentHash h) (h_UncleHash h) (h_Coinbase h) (h_Root h) (h_TxHash h)
    (h_ReceiptHash h) (h_Bloom h) (h_Difficulty h) (h_Number h) (h_GasLimit h) (h_GasUsed h)
    (h_Time h) (h_Extra h) (h_MixDigest h) (h_Nonce h) t r.
Definition set_Extra (e : bytes) (h : Header) : Header :=
  mkHeader (h_ParentHash h) (h_UncleHash h) (h_Coinbase h) (h_Root h) (h_TxHash h)
    (h_ReceiptHash h) (h_Bloom h) (h_Difficulty h) (h_Number h) (h_GasLimit h) (h_GasUsed h)
    (h_Time h) e (h_MixDigest h) (h_Nonce h) (h_selectedTicket h) (h_retreatTickets h).
(** The fields that [Prepare] decides. *)
Definition set_order (difficulty : option Z) (nonce : bytes) (h : Header) : Header :=
  mkHeader (h_ParentHash h) (h_UncleHash h) (h_Coinbase h) (h_Root h) (h_TxHash h)
    (h_ReceiptHash h) (h_Bloom h) difficulty (h_Number h) (h_GasLimit h) (h_GasUsed h)
    (h_Time h) (h_Extra h) (h_MixDigest h) nonce (h_selectedTicket h) (h_retreatTickets h).
Definition set_Time (t : option Z) (h : Header) : Header :=
  mkHeader (h_ParentHash h) (h_UncleHash h) (h_Coinbase h) (h_Root h) (h_TxHash h)
    (h_ReceiptHash h) (h_Bloom h) (h_Difficulty h) (h_Number h) (h_GasLimit h) (h_GasUsed h)
    t (h_Extra h) (h_MixDigest h) (h_Nonce h) (h_selectedTicket h) (h_retreatTickets h).
(** The fields that [Finalize] decides. *)
Definition set_MixDigest (m : Hash) (h : Header) : Header :=
  mkHeader (h_ParentHash h) (h_UncleHash h) (h_Coinbase h) (h_Root h) (h_TxHash h)
    (h_ReceiptHash h) (h_Bloom h) (h_Difficulty h) (h_Number h) (h_GasLimit h) (h_GasUsed h)
    (h_Time h) (h_Extra h) m (h_Nonce h) (h_selectedTicket h) (h_retreatTickets h).
Definition set_HeaderRoot (r : Hash) (h : Header) : Header :=
  mkHeader (h_ParentHash h) (h_UncleHash h) (h_Coinbase h) r (h_TxHash h)
    (h_ReceiptHash h) (h_Bloom h) (h_Difficulty h) (h_Number h) (h_GasLimit h) (h_GasUsed h)
    (h_Time h) (h_Extra h) (h_MixDigest h) (h_Nonce h) (h_selectedTicket h) (h_retreatTickets h).
(** The fields that a block derives from its body. *)
Definition set_body (tx receipt : Hash) (bloom : bytes) (uncle : Hash) (h : Header) : Header :=
  mkHeader (h_ParentHash h) uncle (h_Coinbase h) (h_Root h) tx receipt bloom (h_Difficulty h)
    (h_Number h) (h_GasLimit h) (h_GasUsed h) (h_Time h) (h_Extra h) (h_MixDigest h) (h_Nonce h)
    (h_selectedTicket h) (h_retreatTickets h).

(** [CopyHeader]: the integers are copied, with 0 for nil; the tickets are
    shared. *)
Definition CopyHeader (h : Header) : Header :=
  mkHeader (h_ParentHash h) (h_UncleHash h) (h_Coinbase h) (h_Root h) (h_TxHash h)
    (h_ReceiptHash h) (h_Bloom h) (Some (default 0 (h_Difficulty h)))
    (Some (default 0 (h_Number h))) (h_GasLimit h) (h_GasUsed h) (Some (default 0 (h_Time h)))
    (h_Extra h) (h_MixDigest h) (h_Nonce h) (h_selectedTicket h) (h_retreatTickets h).

(** ** Encoding *)

(** A byte array [[n]byte]. *)
Definition c_array (n : nat) : codec bytes :=
  mkCodec (TByteArray n) VBytes (fun v => match v with VBytes b => b | _ => replicate n 0 end)
    (fun b => (1 < n)%nat ∧ length b = n ∧ are_bytes b).
Lemma c_array_ok n : codec_ok (c_array n).
Proof. by intros b Hb. Qed.
#[export] Hint Resolve c_array_ok : codec.

Definition BloomByteLength : nat := 256.

Definition header_fields :=
  c_hash ::: c_hash ::: c_address ::: c_hash ::: c_hash ::: c_hash ::: c_array BloomByteLength
  ::: c_big ::: c_big ::: c_uint 64 ::: c_uint 64 ::: c_big ::: c_bytes ::: c_hash
  ::: c_array 8 ::: f_nil.

Definition header_into (h : Header) :=
  (h_ParentHash h, (h_UncleHash h, (h_Coinbase h, (h_Root h, (h_TxHash h, (h_ReceiptHash h,
  (h_Bloom h, (h_Difficulty h, (h_Number h, (h_GasLimit h, (h_GasUsed h, (h_Time h,
  (h_Extra h, (h_MixDigest h, (h_Nonce h, tt))))))))))))))).

(** A header as it comes over the wire: no ticket is selected yet. *)
Definition received (h : Header) : Header := set_selected None [] h.

#[export] Instance Header_rlp : Rlp Header :=
  mkCodec (TStruct (ftypes header_fields)) (fun h => VList (fto header_fields (header_into h)))
    (fun v => match fof header_fields (match v with VList l => l | _ => [] end) with
              | (p, (u, (c, (r, (t, (rc, (b, (d, (n, (gl, (gu, (tm, (e, (m, (nc, _))))))))))))))) =>
                  mkHeader p u c r t rc b d n gl gu tm e m nc None []
              end)
    (fun h => fwf header_fields (header_into h) ∧ received h = h).
#[export] Instance Header_rlp_ok : RlpOk Header.
Proof.
  unfold RlpOk, rlp, Header_rlp. intros h [Hf Hr].
  assert (fields_ok header_fields) as Hok by (unfold header_fields; eauto 30 with codec).
  destruct (Hok _ Hf) as [Hc Hof]. cbn [cwf ctype cto cof canon]. split; [done|]. rewrite Hof. by destruct h.
Qed.

(** [rlpHash]: an error of the encoder leaves nothing written. *)
Definition rlpHash (t : rtype) (v : rval) : Hash :=
  match EncodeToBytes t v with inl b => keccak b | inr _ => keccak [] end.

Lemma rlpHash_is_hash t v : is_hash (rlpHash t v).
Proof. unfold rlpHash. destruct (EncodeToBytes t v); apply keccak_is_hash. Qed.

Definition header_Hash (h : Header) : Hash := rlpHash (ctype Header_rlp) (cto Header_rlp h).

Definition CalcUncleHash (uncles : list Header) : Hash :=
  rlpHash (TSlice (TPtr (ctype Header_rlp)))
    (VList (map (fun h => VPtr (Some (cto Header_rlp h))) uncles)).
Definition EmptyUncleHash : Hash := CalcUncleHash [].

(** The tickets of a header are no part of its hash. *)
Lemma header_Hash_selected t r h : header_Hash (set_selected t r h) = header_Hash h.
Proof. done. Qed.

(** A header that is encoded and decoded, with the tickets forgotten. *)
Lemma header_roundtrip h :
  fwf header_fields (header_into h) →
  ∃ b, Marshal h = inl b ∧ (fits b → Unmarshal Header b = (received h, None)).
Proof.
  intros Hf. assert (Marshal h = Marshal (received h)) as -> by done.
  apply (Unmarshal_Marshal (received h)). by split.
Qed.
