(* ===== verification/Snapshot.v ===== *)
(** * Snapshots of the tickets of a block (consensus/datong/snapshot.go)

    The part of the extra data of a header that says which ticket was selected for
    the block, which tickets were passed over, and how many tickets there are. *)

From stdpp Require Import base list gmap strings.
From Stdlib Require Import ZArith Lia.
From S2P Require Import Prelude Bytes Keccak KeccakFacts FsnTypes Header.

Definition extraVanity : nat := 32.
Definition extraSeal : nat := 65.

(** [ticketLogType] is a byte. *)
Definition ticketSelect : Z := 1.
Definition ticketRetreat : Z := 2.

Record ticketLog := mkTicketLog { TicketID : Hash; log_Type : Z }.
Record snapshot := mkSnapshot { snap_logs : list ticketLog; ticketNumber : Z }.
Record Snapshot := mkShown { Selected : Hash; Retreat : list Hash; TicketNumber : Z }.

#[export] Instance ticketLog_eq_dec : EqDecision ticketLog.
Proof. solve_decision. Defined.

Definition newSnapshot : snapshot := mkSnapshot [] 0.

Definition GetVoteTicket (snap : snapshot) : Hash :=
  match snap_logs snap with
  | l :: _ => if log_Type l =? ticketSelect then TicketID l else 0
  | [] => 0
  end.

Definition snapshot_AddLog (log : ticketLog) (snap : snapshot) : snapshot :=
  mkSnapshot (snap_logs snap ++ [log]) (ticketNumber snap).
Definition SetTicketNumber (n : Z) (snap : snapshot) : snapshot := mkSnapshot (snap_logs snap) n.

(** The first byte of the hash. *)
Definition calcCheck (data : bytes) : Z := nth 0 (Hash_Bytes (keccak data)) 0.

Definition logLength : nat := HashLength + 1.

Definition log_of (realData : bytes) (i : nat) : ticketLog :=
  let base := (logLength * i)%nat in
  mkTicketLog (BytesToHash (take (logLength - 1) (drop base realData)))
    (nth (logLength + base - 1) realData 0).

(** [realData[:4]] reaches into the capacity of the slice, [realData[4:]] is out
    of range when there are fewer than four bytes. *)
Definition snapshot_SetBytes (snap : snapshot) (data : bytes) : outcome (option error * snapshot) :=
  if (length data <=? 0)%nat then Done (Some (New "Empty data"), snap)
  else
    let realData := take (length data - 1) data in
    let check := nth (length data - 1) data 0 in
    if negb (calcCheck realData =? check) then Done (Some (New "check error"), snap)
    else if (length realData <? 4)%nat then Panic "slice bounds out of range"
    else
      let snap := SetTicketNumber (BytesToInt (take 4 realData)) snap in
      let realData := drop 4 realData in
      let dataLength := length realData in
      if negb (dataLength mod logLength =? 0)%nat then Done (Some (New "data length error"), snap)
      else
        let count := (dataLength / logLength)%nat in
        Done (None, mkSnapshot (map (log_of realData) (seq 0 count)) (ticketNumber snap)).

Definition log_bytes (l : ticketLog) : bytes := Hash_Bytes (TicketID l) ++ [log_Type l].

Definition snapshot_Bytes (snap : snapshot) : bytes :=
  let data := IntToBytes (ticketNumber snap) ++ concat (map log_bytes (snap_logs snap)) in
  data ++ [calcCheck data].

Definition newSnapshotWithData (data : bytes) : outcome (snapshot + error) :=
  let? (err, snap) := snapshot_SetBytes newSnapshot data in
  Done (match err with Some err => inr err | None => inl snap end).

Definition getSnapData (data : bytes) : bytes :=
  let extraSuffix := Z.of_nat (length data) - Z.of_nat extraSeal in
  if extraSuffix <? Z.of_nat extraVanity then []
  else take (Z.to_nat extraSuffix - extraVanity) (drop extraVanity data).

Definition getSnapDataByHeader (header : Header) : bytes := getSnapData (h_Extra header).

Definition ToShow (snap : snapshot) : Snapshot :=
  mkShown (GetVoteTicket snap)
    (map TicketID (filter (fun l => log_Type l = ticketRetreat) (tail (snap_logs snap))))
    (ticketNumber snap).

Definition NewSnapshotFromHeader (header : Header) : outcome (Snapshot + error) :=
  let? r := newSnapshotWithData (getSnapDataByHeader header) in
  Done (match r with inl snap => inl (ToShow snap) | inr err => inr err end).

(** [copy] into the vanity of 32 zero bytes. *)
Definition GenerateGenesisExtraData (old : bytes) (number : Z) : bytes :=
  let snapBytes := snapshot_Bytes (SetTicketNumber number newSnapshot) in
  let vanity := take extraVanity old ++ replicate (extraVanity - length old) 0 in
  vanity ++ snapBytes ++
    (if (extraVanity + extraSeal <=? length old)%nat then drop (length old - extraSeal) old
     else replicate extraSeal 0).

(** ** Round trip *)

Definition log_ok (l : ticketLog) : Prop := is_hash (TicketID l).

Lemma BytesToInt_int32 n : BytesToInt (IntToBytes n) = int32 n.
Proof.
  assert (is_int32 (int32 n)) as Hi.
  { unfold is_int32, int32. pose proof (Z.mod_pos_bound (n + 2 ^ 31) (2 ^ 32) ltac:(done)). lia. }
  pose proof (BytesToInt_IntToBytes (int32 n) [] Hi) as E. rewrite app_nil_r in E. rewrite <- E.
  unfold IntToBytes. by rewrite (int32_id (int32 n)).
Qed.

Lemma length_log_bytes l : length (log_bytes l) = logLength.
Proof. unfold log_bytes. by rewrite length_app, Hash_Bytes_length. Qed.

Lemma length_logs ls : length (concat (map log_bytes ls)) = (logLength * length ls)%nat.
Proof.
  induction ls as [|l ls IH]; [done|]. cbn [map concat length]. rewrite length_app, length_log_bytes, IH. lia.
Qed.

Lemma log_of_head l ls : log_ok l → log_of (log_bytes l ++ ls) 0 = l.
Proof.
  intros Hl. unfold log_of. rewrite Nat.mul_0_r, drop_0. change (logLength + 0 - 1)%nat with 32%nat.
  change (logLength - 1)%nat with 32%nat. unfold log_bytes. rewrite <- app_assoc.
  rewrite take_app_length', app_nth2 by (rewrite Hash_Bytes_length; lia).
  rewrite Hash_Bytes_length, BytesToHash_Bytes by done. simpl. by destruct l.
Qed.

Lemma log_of_tail l d i : log_of (log_bytes l ++ d) (S i) = log_of d i.
Proof.
  unfold log_of. f_equal.
  - do 2 f_equal. rewrite drop_app_ge by (rewrite length_log_bytes; lia). f_equal. rewrite length_log_bytes. lia.
  - rewrite app_nth2 by (rewrite length_log_bytes; unfold logLength, HashLength; lia).
    f_equal. rewrite length_log_bytes. unfold logLength, HashLength. lia.
Qed.

Lemma logs_roundtrip ls : Forall log_ok ls →
  map (log_of (concat (map log_bytes ls))) (seq 0 (length ls)) = ls.
Proof.
  induction 1 as [|l ls Hl _ IH]; [done|]. cbn [map concat length seq]. rewrite log_of_head by done. f_equal.
  rewrite <- seq_shift, map_map. rewrite <- IH at 2. apply map_ext. intros i. apply log_of_tail.
Qed.

(** The number of tickets is kept as an [int32]. *)
Lemma SetBytes_Bytes snap0 snap :
  Forall log_ok (snap_logs snap) →
  snapshot_SetBytes snap0 (snapshot_Bytes snap) =
    Done (None, mkSnapshot (snap_logs snap) (int32 (ticketNumber snap))).
Proof.
  intros Hl. unfold snapshot_SetBytes, snapshot_Bytes.
  set (logs := concat (map log_bytes (snap_logs snap))). set (d := IntToBytes _ ++ logs).
  rewrite !length_app. cbn [length].
  destruct (Nat.leb_spec (length d + 1) 0); [lia|]. rewrite Nat.add_sub.
  rewrite take_app_length, app_nth2, Nat.sub_diag by lia. cbn [nth]. rewrite Z.eqb_refl. cbn [negb].
  assert (Hd : length d = (4 + length logs)%nat) by (unfold d; by rewrite length_app, IntToBytes_length).
  destruct (Nat.ltb_spec (length d) 4); [lia|].
  assert (drop 4 d = logs) as -> by (apply drop_app_length'; by rewrite IntToBytes_length).
  assert (take 4 d = IntToBytes (ticketNumber snap)) as ->
    by (apply take_app_length'; by rewrite IntToBytes_length).
  assert (Hll : length logs = (length (snap_logs snap) * logLength)%nat)
    by (unfold logs; rewrite length_logs; lia).
  rewrite Hll, Nat.Div0.mod_mul, Nat.div_mul by done. cbn [negb Nat.eqb].
  unfold logs. rewrite logs_roundtrip by done. unfold SetTicketNumber. cbn [ticketNumber].
  by rewrite BytesToInt_int32.
Qed.

(** The snapshot in the extra data of a sealed header. *)
Lemma getSnapData_sealed vanity data seal :
  length vanity = extraVanity → length seal = extraSeal →
  getSnapData (vanity ++ data ++ seal) = data.
Proof.
  intros Hv Hs. unfold getSnapData. rewrite !length_app, Hv, Hs.
  destruct (Z.ltb_spec (Z.of_nat (extraVanity + (length data + extraSeal)) - Z.of_nat extraSeal) (Z.of_nat extraVanity));
    [lia|].
  rewrite drop_app_length' by done. apply take_app_length'. lia.
Qed.

Lemma snapshot_Bytes_length snap :
  length (snapshot_Bytes snap) = (5 + logLength * length (snap_logs snap))%nat.
Proof. unfold snapshot_Bytes. rewrite !length_app, IntToBytes_length, length_logs. simpl. lia. Qed.
