(* ===== verification/Receipt.v ===== *)
(** * Logs, receipts and bloom filters (core/types/log.go, receipt.go, bloom9.go)

    The results of a transaction, in the encoding that blocks commit to and in the
    one that is stored, and the filter over the addresses and topics of the logs of
    a block. *)

From stdpp Require Import base list gmap strings.
From Stdlib Require Import ZArith Lia.
From S2P Require Import Prelude Bytes Keccak KeccakFacts Ticket FsnTypes Rlp RlpFacts Codec StateDB Header.

(** ** Bloom filters *)

(** The bit for the bytes [i] and [i+1] of a hash. *)
Definition bloom_bit (b : bytes) (i : nat) : Z :=
  Z.land (nth (i + 1) b 0 + Z.shiftl (nth i b 0) 8) 2047.

Definition bloom9 (b : bytes) : Z :=
  let b := Reference.keccak256 b in
  foldl (fun r i => Z.lor r (Z.shiftl 1 (bloom_bit b i))) 0 [0; 2; 4]%nat.

Definition Bloom_SetBytes (b d : bytes) : outcome bytes :=
  if (length b <? length d)%nat then Panic "bloom bytes too big"
  else Done (take (BloomByteLength - length d) b ++ d).
Definition BytesToBloom (d : bytes) : outcome bytes := Bloom_SetBytes (replicate BloomByteLength 0) d.
Definition Bloom_Add (b : bytes) (d : Z) : outcome bytes :=
  let bin := Z.lor (SetBytes b) (bloom9 (Int_Bytes d)) in Bloom_SetBytes b (Int_Bytes bin).

Definition LogsBloom (logs : list Log) : Z :=
  foldl (fun bin log =>
    let bin := Z.lor bin (bloom9 (Address_Bytes (log_Address log))) in
    foldl (fun bin b => Z.lor bin (bloom9 (Hash_Bytes b))) bin (log_Topics log)) 0 logs.

Definition BloomLookup (bin : bytes) (topic : bytes) : bool :=
  let cmp := bloom9 topic in Z.land (SetBytes bin) cmp =? cmp.

(** ** Receipts *)

Record Receipt := mkReceipt {
  rc_PostState : bytes;
  rc_Status : Z;
  rc_CumulativeGasUsed : Z;
  rc_Bloom : bytes;
  rc_Logs : list Log;
  rc_TxHash : Hash;
  rc_ContractAddress : Address;
  rc_GasUsed : Z;
}.

Definition ReceiptStatusFailed : Z := 0.
Definition ReceiptStatusSuccessful : Z := 1.
Definition receiptStatusFailedRLP : bytes := [].
Definition receiptStatusSuccessfulRLP : bytes := [1].

Definition NewReceipt (root : bytes) (failed : bool) (cumulativeGasUsed : Z) : Receipt :=
  mkReceipt root (if failed then ReceiptStatusFailed else ReceiptStatusSuccessful) cumulativeGasUsed
    (replicate BloomByteLength 0) [] 0 0 0.

Definition CreateBloom (receipts : list Receipt) : outcome bytes :=
  BytesToBloom (Int_Bytes (foldl (fun bin r => Z.lor bin (LogsBloom (rc_Logs r))) 0 receipts)).

Definition statusEncoding (r : Receipt) : bytes :=
  if (length (rc_PostState r) =? 0)%nat then
    if rc_Status r =? ReceiptStatusFailed then receiptStatusFailedRLP else receiptStatusSuccessfulRLP
  else rc_PostState r.

(** The status and the post state that the encoded field stands for. *)
Definition setStatus (r : Receipt) (postStateOrStatus : bytes) : Receipt + error :=
  if bool_decide (postStateOrStatus = receiptStatusSuccessfulRLP) then
    inl (mkReceipt (rc_PostState r) ReceiptStatusSuccessful (rc_CumulativeGasUsed r) (rc_Bloom r)
           (rc_Logs r) (rc_TxHash r) (rc_ContractAddress r) (rc_GasUsed r))
  else if bool_decide (postStateOrStatus = receiptStatusFailedRLP) then
    inl (mkReceipt (rc_PostState r) ReceiptStatusFailed (rc_CumulativeGasUsed r) (rc_Bloom r)
           (rc_Logs r) (rc_TxHash r) (rc_ContractAddress r) (rc_GasUsed r))
  else if (length postStateOrStatus =? 32)%nat then
    inl (mkReceipt postStateOrStatus (rc_Status r) (rc_CumulativeGasUsed r) (rc_Bloom r)
           (rc_Logs r) (rc_TxHash r) (rc_ContractAddress r) (rc_GasUsed r))
  else inr (New "invalid receipt status %x").

(** ** Encodings *)

(** [rlpLog] and [rlpStorageLog]. *)
Definition rlpLog : codec Log :=
  mkCodec (TStruct (ftypes (c_address ::: c_slice c_hash ::: c_bytes ::: f_nil)))
    (fun l => VList (fto (c_address ::: c_slice c_hash ::: c_bytes ::: f_nil)
                       (log_Address l, (log_Topics l, (log_Data l, tt)))))
    (fun v => let '(a, (t, (d, _))) := fof (c_address ::: c_slice c_hash ::: c_bytes ::: f_nil)
                (match v with VList l => l | _ => [] end) in mkLog a t d 0 0 0 0 0)
    (fun l => fwf (c_address ::: c_slice c_hash ::: c_bytes ::: f_nil)
                (log_Address l, (log_Topics l, (log_Data l, tt))) ∧
              l = mkLog (log_Address l) (log_Topics l) (log_Data l) 0 0 0 0 0).

Definition rlpStorageLog : codec Log :=
  c_struct (c_address ::: c_slice c_hash ::: c_bytes ::: c_uint 64 ::: c_hash ::: c_uint 64
            ::: c_hash ::: c_uint 64 ::: f_nil)
    (fun l => (log_Address l, (log_Topics l, (log_Data l, (log_BlockNumber l, (log_TxHash l,
       (log_TxIndex l, (log_BlockHash l, (log_Index l, tt)))))))))
    (fun '(a, (t, (d, (n, (h, (i, (bh, (x, _)))))))) => mkLog a t d n h i bh x).

(** [receiptRLP]: the status field, the gas, the bloom and the logs. *)
Definition receiptRLP : codec (bytes * (Z * (bytes * (list Log * unit)))) :=
  c_struct (c_bytes ::: c_uint 64 ::: c_array BloomByteLength ::: c_slice (c_ref rlpLog) ::: f_nil)
    id id.

Definition receiptStorageRLP : codec (bytes * (Z * (bytes * (Hash * (Address * (list Log * (Z * unit))))))) :=
  c_struct (c_bytes ::: c_uint 64 ::: c_array BloomByteLength ::: c_hash ::: c_address
            ::: c_slice (c_ref rlpStorageLog) ::: c_uint 64 ::: f_nil) id id.

(** [rlp.DecodeBytes] of a codec into a fresh variable. *)
Definition decode_with {A} (c : codec A) (b : bytes) : A * option rlp_error :=
  let '(v, err) := DecodeBytes (ctype c) (zero (ctype c)) b in (cof c v, err).

Definition receipt_fields (r : Receipt) : bytes * (Z * (bytes * (list Log * unit))) :=
  (statusEncoding r, (rc_CumulativeGasUsed r, (rc_Bloom r, (rc_Logs r, tt)))).
Definition receipt_EncodeRLP (r : Receipt) : bytes + rlp_error :=
  EncodeToBytes (ctype receiptRLP) (cto receiptRLP (receipt_fields r)).

Definition new_receipt : Receipt := mkReceipt [] 0 0 (replicate BloomByteLength 0) [] 0 0 0.

Definition receipt_DecodeRLP (b : bytes) : Receipt + error :=
  match decode_with receiptRLP b with
  | (_, Some _) => inr (New "rlp")
  | ((status, (gas, (bloom, (logs, _)))), None) =>
      match setStatus new_receipt status with
      | inr err => inr err
      | inl r => inl (mkReceipt (rc_PostState r) (rc_Status r) gas bloom logs (rc_TxHash r)
                        (rc_ContractAddress r) (rc_GasUsed r))
      end
  end.

Definition storage_EncodeRLP (r : Receipt) : bytes + rlp_error :=
  EncodeToBytes (ctype receiptStorageRLP) (cto receiptStorageRLP
    (statusEncoding r, (rc_CumulativeGasUsed r, (rc_Bloom r, (rc_TxHash r, (rc_ContractAddress r,
      (rc_Logs r, (rc_GasUsed r, tt)))))))).

Definition storage_DecodeRLP (b : bytes) : Receipt + error :=
  match decode_with receiptStorageRLP b with
  | (_, Some _) => inr (New "rlp")
  | ((status, (gas, (bloom, (tx, (contract, (logs, (used, _))))))), None) =>
      match setStatus new_receipt status with
      | inr err => inr err
      | inl r => inl (mkReceipt (rc_PostState r) (rc_Status r) gas bloom logs tx contract used)
      end
  end.

(** [Receipts.GetRlp] *)
Definition receipt_GetRlp (r : Receipt) : outcome bytes :=
  match receipt_EncodeRLP r with inl b => Done b | inr _ => Panic "rlp" end.

(** ** The filter has no false negatives *)

(** The bits of [x] are bits of [a]. *)
Definition has_bits (a x : Z) : Prop := Z.land a x = x.

Lemma has_bits_refl x : has_bits x x.
Proof. apply Z.land_diag. Qed.
Lemma has_bits_lor_l a b x : has_bits a x → has_bits (Z.lor a b) x.
Proof.
  unfold has_bits. intros H. rewrite Z.land_lor_distr_l, H. apply Z.bits_inj'. intros n Hn.
  rewrite Z.lor_spec, Z.land_spec. by destruct (Z.testbit x n), (Z.testbit b n).
Qed.
Lemma has_bits_lor_r a b x : has_bits b x → has_bits (Z.lor a b) x.
Proof. rewrite Z.lor_comm. apply has_bits_lor_l. Qed.

Definition below (n a : Z) : Prop := 0 <= a < 2 ^ n.
Lemma below_lor n a b : 0 <= n → below n a → below n b → below n (Z.lor a b).
Proof.
  unfold below. intros Hn Ha Hb. pose proof (Z.pow_pos_nonneg 2 n ltac:(lia) Hn).
  assert (0 <= Z.lor a b) by (apply Z.lor_nonneg; lia).
  assert (Z.lor a b / 2 ^ n = 0) as Hd.
  { rewrite <- Z.shiftr_div_pow2, Z.shiftr_lor, !Z.shiftr_div_pow2, !Z.div_small by lia. done. }
  apply Z.div_small_iff in Hd; lia.
Qed.

Lemma bloom_bit_range b i : 0 <= bloom_bit b i < 2048.
Proof. unfold bloom_bit. change 2047 with (Z.ones 11). rewrite Z.land_ones by lia. apply Z.mod_pos_bound. lia. Qed.

Lemma bloom9_below b : below 2048 (bloom9 b).
Proof.
  unfold bloom9. set (h := Reference.keccak256 b). clearbody h. cbn [foldl].
  assert (Hb : ∀ i, below 2048 (Z.shiftl 1 (bloom_bit h i))).
  { intros i. pose proof (bloom_bit_range h i). rewrite Z.shiftl_1_l. split; [lia|].
    apply Z.pow_lt_mono_r; lia. }
  repeat (apply below_lor; [lia| |done]). by split.
Qed.

(** What a fold of unions has: each of its parts, within the bound. *)
Lemma foldl_lor {A} (f : A → Z) (l : list A) acc :
  (∀ x, x ∈ l → below 2048 (f x)) → below 2048 acc →
  below 2048 (foldl (fun bin x => Z.lor bin (f x)) acc l) ∧
  (∀ x, has_bits acc x → has_bits (foldl (fun bin x => Z.lor bin (f x)) acc l) x) ∧
  (∀ y x, y ∈ l → has_bits (f y) x → has_bits (foldl (fun bin x => Z.lor bin (f x)) acc l) x).
Proof.
  revert acc. induction l as [|a l IH]; intros acc Hf Hacc; cbn [foldl].
  - split_and!; [done|done|]. intros y x Hy. by apply elem_of_nil in Hy.
  - destruct (IH (Z.lor acc (f a))) as (H1 & H2 & H3); [set_solver|by apply below_lor; [lia|done|apply Hf; set_solver]|].
    split_and!; [done|intros x Hx; by apply H2, has_bits_lor_l|].
    intros y x [->|Hy]%elem_of_cons Hx; [by apply H2, has_bits_lor_r|by eapply H3].
Qed.

(** What a log is looked up by. *)
Definition log_keys (l : Log) : list bytes := Address_Bytes (log_Address l) :: map Hash_Bytes (log_Topics l).

Lemma LogsBloom_flat logs : LogsBloom logs = foldl (fun bin k => Z.lor bin (bloom9 k)) 0 (concat (map log_keys logs)).
Proof.
  unfold LogsBloom. generalize 0 as acc. induction logs as [|l logs IH]; intros acc; [done|].
  cbn [map concat foldl]. rewrite IH. unfold log_keys. cbn [app foldl]. rewrite foldl_app. f_equal.
  generalize (Z.lor acc (bloom9 (Address_Bytes (log_Address l)))). induction (log_Topics l) as [|t ts IHt]; intros a; [done|].
  cbn [map foldl]. by rewrite IHt.
Qed.

Lemma LogsBloom_ok logs :
  below 2048 (LogsBloom logs) ∧ ∀ l k, l ∈ logs → k ∈ log_keys l → has_bits (LogsBloom logs) (bloom9 k).
Proof.
  rewrite LogsBloom_flat.
  destruct (foldl_lor bloom9 (concat (map log_keys logs)) 0) as (H1 & _ & H3); [intros; apply bloom9_below|by split|].
  split; [done|]. intros l k Hl Hk. apply (H3 k); [|apply has_bits_refl].
  apply list_elem_of_In, in_concat. exists (log_keys l). split; [apply in_map|]; by apply list_elem_of_In.
Qed.

Lemma byte_len_below z : 0 < z < 2 ^ 2048 → (byte_len z <= 256)%nat.
Proof.
  intros Hz. unfold byte_len. assert (Z.log2 z < 2048) by (apply Z.log2_lt_pow2; lia).
  pose proof (Z.log2_nonneg z). assert ((Z.log2 z + 8) / 8 < 257) by (apply Z.div_lt_upper_bound; lia). lia.
Qed.

Lemma Int_Bytes_below z : below 2048 z → (length (Int_Bytes z) <= 256)%nat.
Proof.
  intros Hz. unfold Int_Bytes, below in *. destruct (Z.eqb_spec z 0); [simpl; lia|].
  rewrite length_be_bytes. apply byte_len_below. lia.
Qed.

Lemma BytesToBloom_ok z : below 2048 z →
  ∃ b, BytesToBloom (Int_Bytes z) = Done b ∧ length b = BloomByteLength ∧ SetBytes b = z.
Proof.
  intros Hz. pose proof (Int_Bytes_below z Hz) as Hl. unfold BytesToBloom, Bloom_SetBytes, BloomByteLength in *.
  rewrite length_replicate. destruct (Nat.ltb_spec 256 (length (Int_Bytes z))); [lia|].
  eexists. split; [done|]. rewrite take_replicate. split.
  - rewrite length_app, length_replicate. lia.
  - rewrite SetBytes_zeros. apply Int_Bytes_SetBytes. apply Hz.
Qed.

Lemma CreateBloom_ok receipts :
  ∃ b, CreateBloom receipts = Done b ∧ length b = BloomByteLength ∧
    ∀ r l k, r ∈ receipts → l ∈ rc_Logs r → k ∈ log_keys l → BloomLookup b k = true.
Proof.
  destruct (foldl_lor (fun r => LogsBloom (rc_Logs r)) receipts 0) as (H1 & _ & H3);
    [intros; apply LogsBloom_ok|by split|].
  unfold CreateBloom. destruct (BytesToBloom_ok _ H1) as (b & -> & Hl & Hb). exists b. split_and!; [done|done|].
  intros r l k Hr Hlg Hk. unfold BloomLookup. rewrite Hb. apply Z.eqb_eq.
  apply (H3 r _ Hr). by apply (proj2 (LogsBloom_ok (rc_Logs r)) l).
Qed.

(** And no other bits: a bit of the filter is one of a key of a log. *)
Lemma foldl_lor_bit {A} (f : A → Z) (l : list A) acc i :
  Z.testbit (foldl (fun bin x => Z.lor bin (f x)) acc l) i = true ↔
  Z.testbit acc i = true ∨ ∃ x, x ∈ l ∧ Z.testbit (f x) i = true.
Proof.
  revert acc. induction l as [|a l IH]; intros acc; cbn [foldl]; [set_solver|].
  rewrite IH, Z.lor_spec, orb_true_iff. set_solver.
Qed.

Lemma LogsBloom_bit logs i :
  Z.testbit (LogsBloom logs) i = true ↔ ∃ l k, l ∈ logs ∧ k ∈ log_keys l ∧ Z.testbit (bloom9 k) i = true.
Proof.
  rewrite LogsBloom_flat, foldl_lor_bit, Z.testbit_0_l. split.
  - intros [|(k & Hk & Hb)]; [done|]. apply list_elem_of_In, in_concat in Hk as (ks & Hks & Hk).
    apply in_map_iff in Hks as (l & <- & Hl). exists l, k. by rewrite !list_elem_of_In.
  - intros (l & k & Hl & Hk & Hb). right. exists k. split; [|done]. apply list_elem_of_In, in_concat.
    exists (log_keys l). split; [apply in_map|]; by apply list_elem_of_In.
Qed.

(** The filter of some receipts, exactly. *)
Definition filter_of (receipts : list Receipt) (b : bytes) : Prop :=
  length b = BloomByteLength ∧ ∀ i, Z.testbit (SetBytes b) i = true ↔
    ∃ r l k, r ∈ receipts ∧ l ∈ rc_Logs r ∧ k ∈ log_keys l ∧ Z.testbit (bloom9 k) i = true.

Lemma CreateBloom_exact receipts : ∃ b, CreateBloom receipts = Done b ∧ filter_of receipts b.
Proof.
  destruct (foldl_lor (fun r => LogsBloom (rc_Logs r)) receipts 0) as (H1 & _ & _);
    [intros; apply LogsBloom_ok|by split|].
  unfold CreateBloom. destruct (BytesToBloom_ok _ H1) as (b & -> & Hl & Hb). exists b. split; [done|].
  split; [done|]. intros i. rewrite Hb, foldl_lor_bit, Z.testbit_0_l. setoid_rewrite LogsBloom_bit. naive_solver.
Qed.

(** ** Round trips *)

Definition status_ok (r : Receipt) : Prop :=
  (rc_PostState r = [] ∧ (rc_Status r = 0 ∨ rc_Status r = 1)) ∨
  (length (rc_PostState r) = 32%nat ∧ rc_Status r = 0).

Lemma setStatus_encoding r : status_ok r →
  setStatus new_receipt (statusEncoding r) =
    inl (mkReceipt (rc_PostState r) (rc_Status r) 0 (replicate BloomByteLength 0) [] 0 0 0).
Proof.
  unfold statusEncoding, setStatus. intros [[-> [-> | ->]]|[Hl ->]]; [done|done|].
  rewrite Hl. cbn [Nat.eqb]. rewrite !bool_decide_eq_false_2; [by rewrite Hl|..]; intros E; by rewrite E in Hl.
Qed.

Lemma rlpLog_ok : codec_ok rlpLog.
Proof.
  intros l [Hf Hl]. assert (fields_ok (c_address ::: c_slice c_hash ::: c_bytes ::: f_nil)) as Hok by eauto 30 with codec.
  destruct (Hok _ Hf) as [Hc Hof]. cbn [rlpLog cwf ctype cto cof canon]. split; [done|]. rewrite Hof. done.
Qed.
Lemma rlpStorageLog_ok : codec_ok rlpStorageLog.
Proof. unfold rlpStorageLog. solve_codec. Qed.
#[export] Hint Resolve rlpLog_ok rlpStorageLog_ok : codec.

Lemma receiptRLP_ok : codec_ok receiptRLP.
Proof. apply c_struct_ok; [eauto 30 with codec|done]. Qed.
Lemma receiptStorageRLP_ok : codec_ok receiptStorageRLP.
Proof. apply c_struct_ok; [eauto 30 with codec|done]. Qed.

Lemma decode_with_encoded {A} (c : codec A) (a : A) : codec_ok c → cwf c a →
  ∃ b, EncodeToBytes (ctype c) (cto c a) = inl b ∧ (fits b → decode_with c b = (a, None)).
Proof.
  intros Hc Ha. destruct (@Unmarshal_Marshal A c Hc a Ha) as (b & Hb & Hr). by exists b.
Qed.

Definition storable (r : Receipt) : Prop :=
  status_ok r ∧ cwf receiptStorageRLP (statusEncoding r, (rc_CumulativeGasUsed r, (rc_Bloom r,
    (rc_TxHash r, (rc_ContractAddress r, (rc_Logs r, (rc_GasUsed r, tt))))))).

Lemma storage_roundtrip r : storable r →
  ∃ b, storage_EncodeRLP r = inl b ∧ (fits b → storage_DecodeRLP b = inl r).
Proof.
  intros [Hs Hr]. destruct (decode_with_encoded _ _ receiptStorageRLP_ok Hr) as (b & Hb & Hd).
  exists b. split; [done|]. intros Hfit. unfold storage_DecodeRLP. rewrite (Hd Hfit), setStatus_encoding by done.
  by destruct r.
Qed.

(** The fields that blocks commit to. *)
Definition consensus_part (r : Receipt) : Receipt :=
  mkReceipt (rc_PostState r) (rc_Status r) (rc_CumulativeGasUsed r) (rc_Bloom r) (rc_Logs r) 0 0 0.

Lemma receipt_roundtrip r : status_ok r → cwf receiptRLP (receipt_fields r) →
  ∃ b, receipt_EncodeRLP r = inl b ∧ (fits b → receipt_DecodeRLP b = inl (consensus_part r)).
Proof.
  intros Hs Hr. destruct (decode_with_encoded _ _ receiptRLP_ok Hr) as (b & Hb & Hd).
  exists b. split; [done|]. intros Hfit. unfold receipt_DecodeRLP. rewrite (Hd Hfit). unfold receipt_fields.
  by rewrite setStatus_encoding.
Qed.
