(* ===== verification/Transaction.v ===== *)
(** * Transactions and their signatures (core/types/transaction.go, transaction_signing.go)

    Transactions, the hashes that are signed, and the recovery of the sender under
    the rules of the three signers. Recovery of a public key from a signature is
    the curve library's, a parameter; [signs_for] is what signing promises of it. *)

From stdpp Require Import base list gmap strings.
From Stdlib Require Import ZArith Lia.
From S2P Require Import Prelude Bytes Keccak KeccakFacts TimeLock Ticket FsnTypes Rlp RlpFacts Codec StateDB.
From S2P Require Import StateTransition Header.

(** ** The curve *)

Class Curve := { Ecrecover : bytes → bytes → bytes + error }.

Definition secp256k1N : Z := 0xfffffffffffffffffffffffffffffffebaaedce6af48a03bbfd25e8cd0364141.
Definition secp256k1halfN : Z := secp256k1N / 2.

Definition ValidateSignatureValues (v r s : Z) (homestead : bool) : bool :=
  if (bigCmp r 1 <? 0) || (bigCmp s 1 <? 0) then false
  else if homestead && (0 <? bigCmp s secp256k1halfN) then false
  else (bigCmp r secp256k1N <? 0) && (bigCmp s secp256k1N <? 0) && ((v =? 0) || (v =? 1)).

(** [crypto.Keccak256(pub[1:])[12:]] as an address. *)
Definition pub_address (pub : bytes) : Address := SetBytes (drop 12 (Reference.keccak256 (tail pub))).

(** ** Transactions *)

(** The integers of a transaction are never nil: [newTransaction] and the decoder
    allocate them. *)
Record txdata := mkTxdata {
  AccountNonce : Z;
  Price : Z;
  GasLimit : Z;
  Recipient : option Address;
  Amount : Z;
  Payload : bytes;
  tx_V : Z;
  tx_R : Z;
  tx_S : Z;
}.

Inductive Signer := EIP155Signer (chainId : Z) | HomesteadSigner | FrontierSigner.

Definition Signer_Equal (s s2 : Signer) : bool :=
  match s, s2 with
  | EIP155Signer c, EIP155Signer c2 => c2 =? c
  | HomesteadSigner, HomesteadSigner => true
  | FrontierSigner, FrontierSigner => true
  | _, _ => false
  end.

(** [tx_from] is the cached sender, with the signer that it was derived with. *)
Record Transaction := mkTransaction { tx_data : txdata; tx_from : option (Signer * Address) }.

Definition newTransaction (nonce : Z) (to : option Address) (amount : option Z) (gasLimit : Z)
    (gasPrice : option Z) (data : bytes) : Transaction :=
  mkTransaction (mkTxdata nonce (default 0 gasPrice) gasLimit to (default 0 amount) data 0 0 0) None.

Definition isProtectedV (V : Z) : bool :=
  if BitLen V <=? 8 then let v := bigUint64 V in negb (v =? 27) && negb (v =? 28) else true.
Definition Protected (tx : Transaction) : bool := isProtectedV (tx_V (tx_data tx)).

Definition deriveChainId (v : Z) : Z :=
  if BitLen v <=? 64 then
    let v := bigUint64 v in
    if (v =? 27) || (v =? 28) then 0 else u64 (v - 35) / 2
  else (v - 35) / 2.
Definition tx_ChainId (tx : Transaction) : Z := deriveChainId (tx_V (tx_data tx)).

(** The fields that are signed. *)
Definition core_types : list rtype := [TUint 64; TBigInt; TUint 64; TPtr (TByteArray 20); TBigInt; TString].
Definition core_values (d : txdata) : list rval :=
  [VUint (AccountNonce d); VBigInt (Some (Price d)); VUint (GasLimit d);
   VPtr ((fun a => VBytes (Address_Bytes a)) <$> Recipient d); VBigInt (Some (Amount d)); VBytes (Payload d)].

(** The encoding of a transaction, and its hash. *)
Definition tx_EncodeRLP (tx : Transaction) : bytes + rlp_error :=
  let d := tx_data tx in
  EncodeToBytes (TStruct (core_types ++ [TBigInt; TBigInt; TBigInt]))
    (VList (core_values d ++ [VBigInt (Some (tx_V d)); VBigInt (Some (tx_R d)); VBigInt (Some (tx_S d))])).
Definition tx_GetRlp (tx : Transaction) : bytes :=
  match tx_EncodeRLP tx with inl b => b | inr _ => [] end.
Definition tx_Hash (tx : Transaction) : Hash :=
  match tx_EncodeRLP tx with inl b => keccak b | inr _ => keccak [] end.

Definition Signer_Hash (s : Signer) (tx : Transaction) : Hash :=
  match s with
  | EIP155Signer chainId =>
      rlpHash (TStruct (core_types ++ [TBigInt; TUint 64; TUint 64]))
        (VList (core_values (tx_data tx) ++ [VBigInt (Some chainId); VUint 0; VUint 0]))
  | HomesteadSigner | FrontierSigner => rlpHash (TStruct core_types) (VList (core_values (tx_data tx)))
  end.

Definition ErrInvalidSig : error := New "invalid transaction v, r, s values".
Definition ErrInvalidChainId : error := New "invalid chain id for signer".

Section signing.
Context `{CU : Curve}.

(** Copying into the 65 bytes pads on the left. *)
Definition pad32 (b : bytes) : bytes := replicate (32 - length b) 0 ++ b.

Definition recoverPlain (sighash : Hash) (R S Vb : Z) (homestead : bool) : Address + error :=
  if 8 <? BitLen Vb then inr ErrInvalidSig
  else
    let V := u64 (bigUint64 Vb - 27) mod 256 in
    if negb (ValidateSignatureValues V R S homestead) then inr ErrInvalidSig
    else
      let sig := pad32 (Int_Bytes R) ++ pad32 (Int_Bytes S) ++ [V] in
      match Ecrecover (Hash_Bytes sighash) sig with
      | inr err => inr err
      | inl pub =>
          match pub with
          | 4 :: _ => inl (pub_address pub)
          | _ => inr (New "invalid public key")
          end
      end.

Definition Homestead_Sender (tx : Transaction) : Address + error :=
  let d := tx_data tx in recoverPlain (Signer_Hash HomesteadSigner tx) (tx_R d) (tx_S d) (tx_V d) true.

Definition Signer_Sender (s : Signer) (tx : Transaction) : Address + error :=
  let d := tx_data tx in
  match s with
  | EIP155Signer chainId =>
      if negb (Protected tx) then Homestead_Sender tx
      else if negb (tx_ChainId tx =? chainId) then inr ErrInvalidChainId
      else recoverPlain (Signer_Hash s tx) (tx_R d) (tx_S d) (tx_V d - chainId * 2 - 8) true
  | HomesteadSigner => Homestead_Sender tx
  | FrontierSigner => recoverPlain (Signer_Hash s tx) (tx_R d) (tx_S d) (tx_V d) false
  end.

(** [Sender], with the transaction as its cache leaves it. *)
Definition Sender (signer : Signer) (tx : Transaction) : (Address + error) * Transaction :=
  match tx_from tx with
  | Some (s, from) =>
      if Signer_Equal s signer then (inl from, tx)
      else match Signer_Sender signer tx with
           | inr err => (inr err, tx)
           | inl addr => (inl addr, mkTransaction (tx_data tx) (Some (signer, addr)))
           end
  | None =>
      match Signer_Sender signer tx with
      | inr err => (inr err, tx)
      | inl addr => (inl addr, mkTransaction (tx_data tx) (Some (signer, addr)))
      end
  end.

(** [SignatureValues]: the values r, s and v of a signature of 65 bytes. *)
Definition Frontier_SignatureValues (sig : bytes) : outcome (Z * Z * Z) :=
  if negb (length sig =? 65)%nat then Panic "wrong size for signature: got %d, want 65"
  else Done (SetBytes (take 32 sig), SetBytes (take 32 (drop 32 sig)), (nth 64 sig 0 + 27) mod 256).
Definition SignatureValues (s : Signer) (sig : bytes) : outcome (Z * Z * Z) :=
  let? (r, s', v) := Frontier_SignatureValues sig in
  Done (r, s', match s with
               | EIP155Signer chainId =>
                   if negb (bigSign chainId =? 0) then (nth 64 sig 0 + 35) mod 256 + chainId * 2 else v
               | _ => v
               end).

Definition WithSignature (tx : Transaction) (signer : Signer) (sig : bytes) : outcome Transaction :=
  let d := tx_data tx in
  let? (r, s, v) := SignatureValues signer sig in
  Done (mkTransaction (mkTxdata (AccountNonce d) (Price d) (GasLimit d) (Recipient d) (Amount d)
                         (Payload d) v r s) None).

(** [SignTx] with the signature function of a key. *)
Definition SignTx (tx : Transaction) (s : Signer) (sign : bytes → bytes) : outcome Transaction :=
  WithSignature tx s (sign (Hash_Bytes (Signer_Hash s tx))).

(** [AsMessage]: the message has the zero address when the sender is unknown. *)
Definition AsMessage (tx : Transaction) (s : Signer) : (Message * option error) * Transaction :=
  let d := tx_data tx in
  let '(r, tx') := Sender s tx in
  let msg from := mkMessage from (Recipient d) (Price d) (GasLimit d) (Amount d) (AccountNonce d) true
                    (Payload d) (tx_Hash tx) in
  (match r with inl from => (msg from, None) | inr err => (msg 0, Some err) end, tx').

Definition Cost (tx : Transaction) : Z :=
  let d := tx_data tx in Price d * GasLimit d + Amount d.

Definition IsBuyTicketTx (tx : Transaction) : bool :=
  Func (Unmarshal FSNCallParam (Payload (tx_data tx))).1 =? BuyTicketFunc.

(** ** What signing promises *)

(** A signature function of the key of an address: its signatures are well formed,
    with s in the lower half, and the address is recovered from them. *)
Definition signs_for (sign : bytes → bytes) (addr : Address) : Prop :=
  ∀ hash, length hash = 32%nat → are_bytes hash →
  let sig := sign hash in
  length sig = 65%nat ∧ are_bytes sig ∧
  1 <= SetBytes (take 32 sig) < secp256k1N ∧
  1 <= SetBytes (take 32 (drop 32 sig)) <= secp256k1halfN ∧
  (nth 64 sig 0 = 0 ∨ nth 64 sig 0 = 1) ∧
  ∃ pub, Ecrecover hash sig = inl (4 :: pub) ∧ pub_address (4 :: pub) = addr.

Lemma pad32_SetBytes b : are_bytes b → length b = 32%nat → pad32 (Int_Bytes (SetBytes b)) = b.
Proof.
  intros Hb Hl. pose proof (SetBytes_range b Hb) as Hr. rewrite Hl in Hr.
  assert (Hlen : (length (Int_Bytes (SetBytes b)) <= 32)%nat).
  { unfold Int_Bytes. destruct (Z.eqb_spec (SetBytes b) 0); [simpl; lia|]. rewrite length_be_bytes. unfold byte_len.
    assert (Z.log2 (SetBytes b) < 256) by (apply Z.log2_lt_pow2; [lia|]; change (2 ^ 256) with (256 ^ Z.of_nat 32); lia).
    assert ((Z.log2 (SetBytes b) + 8) / 8 < 33) by (apply Z.div_lt_upper_bound; lia). lia. }
  set (c := pad32 (Int_Bytes (SetBytes b))).
  assert (Hc : length c = 32%nat) by (unfold c, pad32; rewrite length_app, length_replicate; lia).
  assert (Hcb : are_bytes c).
  { unfold c, pad32. apply Forall_app_2; [apply Forall_replicate; unfold is_byte; lia|apply Int_Bytes_are_bytes]. }
  rewrite <- (be_bytes_SetBytes b Hb), <- (be_bytes_SetBytes c Hcb), Hl, Hc. f_equal. unfold c, pad32.
  rewrite SetBytes_app. assert (Hz : ∀ n, SetBytes (replicate n 0) = 0).
  { induction n as [|n IH]; [done|]. change (replicate (S n) 0) with ([0] ++ replicate n 0). rewrite SetBytes_app, IH. done. }
  rewrite Hz, Int_Bytes_SetBytes by lia. lia.
Qed.

(** A signature is put together again from its values. *)
Lemma sig_split sig v : are_bytes sig → length sig = 65%nat → v = nth 64 sig 0 →
  pad32 (Int_Bytes (SetBytes (take 32 sig))) ++ pad32 (Int_Bytes (SetBytes (take 32 (drop 32 sig)))) ++ [v] = sig.
Proof.
  intros Hb Hl ->. rewrite !pad32_SetBytes;
    [|by apply Forall_take, Forall_drop|rewrite length_take, length_drop; lia|by apply Forall_take|rewrite length_take; lia].
  rewrite <- (take_drop 32 sig) at 4. f_equal. rewrite <- (take_drop 32 (drop 32 sig)) at 2. f_equal.
  rewrite drop_drop. change (32 + 32)%nat with 64%nat.
  assert (Hd : length (drop 64 sig) = 1%nat) by (rewrite length_drop; lia).
  rewrite <- (take_drop 64 sig) at 1. rewrite app_nth2; rewrite length_take_le by lia; [|lia].
  rewrite Nat.sub_diag. destruct (drop 64 sig) as [|x [|]]; done.
Qed.

Lemma Validate_low v r s : 1 <= r < secp256k1N → 1 <= s <= secp256k1halfN → v = 0 ∨ v = 1 →
  ∀ homestead, ValidateSignatureValues v r s homestead = true.
Proof.
  intros Hr Hs Hv homestead. unfold ValidateSignatureValues.
  assert (secp256k1halfN < secp256k1N) by done.
  assert ((bigCmp r 1 <? 0) = false ∧ (bigCmp s 1 <? 0) = false ∧ (0 <? bigCmp s secp256k1halfN) = false ∧
          (bigCmp r secp256k1N <? 0) = true ∧ (bigCmp s secp256k1N <? 0) = true) as (-> & -> & -> & -> & ->).
  { split_and!; apply Z.ltb_ge || apply Z.ltb_lt; unfold bigCmp; zcase. }
  destruct homestead, Hv as [-> | ->]; done.
Qed.

Lemma recoverPlain_signed sign addr hash v homestead :
  signs_for sign addr → is_hash hash →
  let sig := sign (Hash_Bytes hash) in
  v = nth 64 sig 0 + 27 →
  recoverPlain hash (SetBytes (take 32 sig)) (SetBytes (take 32 (drop 32 sig))) v homestead = inl addr.
Proof.
  intros Hs Hh sig Hv. destruct (Hs (Hash_Bytes hash)) as (Hl & Hb & Hr & HS & Hn & pub & He & Ha);
    [apply Hash_Bytes_length|apply be_bytes_are_bytes|]. fold sig in Hl, Hb, Hr, HS, Hn, He. unfold recoverPlain.
  assert (is_u64 v ∧ BitLen v <= 8) as [Hu Hbl].
  { split; [unfold is_u64, two64; lia|]. apply BitLen_le; lia. }
  destruct (Z.ltb_spec 8 (BitLen v)); [lia|]. rewrite bigUint64_id by done.
  assert (u64 (v - 27) mod 256 = nth 64 sig 0) as ->.
  { rewrite u64_id by (unfold is_u64, two64; lia). rewrite Z.mod_small; lia. }
  rewrite Validate_low by done. cbn [negb]. rewrite sig_split by done. by rewrite He, Ha.
Qed.

Lemma Signer_Hash_is_hash s tx : is_hash (Signer_Hash s tx).
Proof. destruct s; apply rlpHash_is_hash. Qed.

(** The chain of a signature value. *)
Lemma deriveChainId_of c b : 0 < c → b = 0 ∨ b = 1 → deriveChainId (b + 35 + c * 2) = c.
Proof.
  intros Hc Hb. unfold deriveChainId. assert (Hd : (b + 35 + c * 2 - 35) / 2 = c).
  { replace (b + 35 + c * 2 - 35) with (c * 2 + b) by lia. rewrite Z.div_add_l by lia.
    destruct Hb as [-> | ->]; [change (0 / 2) with 0|change (1 / 2) with 0]; lia. }
  destruct (Z.leb_spec (BitLen (b + 35 + c * 2)) 64) as [Hle|]; [|done].
  apply BitLen_le in Hle; [|lia..]. assert (is_u64 (b + 35 + c * 2)) by (unfold is_u64, two64; lia).
  rewrite bigUint64_id by done. rewrite u64_id by (unfold is_u64, two64 in *; lia). zcase.
Qed.

Lemma isProtectedV_of v : 28 < v → isProtectedV v = true.
Proof.
  intros Hv. unfold isProtectedV. destruct (Z.leb_spec (BitLen v) 8) as [Hle|]; [|done].
  apply BitLen_le in Hle; [|lia..]. rewrite bigUint64_id by (unfold is_u64, two64; lia). zcase.
Qed.

(** The transaction with the signature of a key for a chain. *)
Lemma SignTx_EIP155 tx c sign addr :
  0 < c → signs_for sign addr →
  ∃ tx', SignTx tx (EIP155Signer c) sign = Done tx' ∧ Signer_Sender (EIP155Signer c) tx' = inl addr ∧
    tx_ChainId tx' = c ∧ Protected tx' = true ∧ tx_from tx' = None.
Proof.
  intros Hc Hs. unfold SignTx, WithSignature, SignatureValues, Frontier_SignatureValues.
  set (h := Signer_Hash (EIP155Signer c) tx). set (sig := sign (Hash_Bytes h)).
  destruct (Hs (Hash_Bytes h)) as (Hl & Hb & Hr & HS & Hn & _); [apply Hash_Bytes_length|apply be_bytes_are_bytes|].
  fold sig in Hl, Hb, Hr, HS, Hn. rewrite Hl. cbn [Nat.eqb negb obind].
  unfold bigSign. rewrite Z.sgn_pos by done. cbn [Z.eqb negb]. rewrite (Z.mod_small (nth 64 sig 0 + 35)) by lia.
  eexists. split; [done|]. unfold tx_ChainId, Protected. cbn [tx_data tx_V tx_from].
  assert (Hp : isProtectedV (nth 64 sig 0 + 35 + c * 2) = true) by (apply isProtectedV_of; lia).
  rewrite deriveChainId_of by done. split_and!; [|done|done|done].
  unfold Signer_Sender, Protected, tx_ChainId. cbn [tx_data tx_V tx_R tx_S]. rewrite Hp, deriveChainId_of, Z.eqb_refl by done. cbn [negb].
  apply recoverPlain_signed; [done|apply Signer_Hash_is_hash|]. fold sig. lia.
Qed.
End signing.

(** ** Properties *)

(** C19: a transaction that is signed by the key of an address for a chain has that
    address as its sender on the chain, whatever its contents, and on every other
    chain it is refused with the error for a wrong chain, so it cannot be replayed
    there. Signing returns a transaction, without panic. *)
Theorem signed_transaction_sender `{CU : Curve} (tx : Transaction) (chainId : Z) (sign : bytes → bytes)
    (addr : Address) :
  0 < chainId → signs_for sign addr →
  ∃ tx', SignTx tx (EIP155Signer chainId) sign = Done tx' ∧
    (Sender (EIP155Signer chainId) tx').1 = inl addr ∧
    ∀ other, other ≠ chainId → (Sender (EIP155Signer other) tx').1 = inr ErrInvalidChainId.
Proof.
  intros Hc Hs. destruct (SignTx_EIP155 tx chainId sign addr Hc Hs) as (tx' & Hsig & Hsend & Hid & Hp & Hfrom).
  exists tx'. split; [done|]. unfold Sender. rewrite Hfrom, Hsend. split; [done|]. intros other Ho.
  unfold Signer_Sender. rewrite Hp, Hid. cbn [negb].
  destruct (Z.eqb_spec chainId other); [congruence|done].
Qed.

(** A curve with one public key, which every signature recovers. *)
Definition toy_curve : Curve := {| Ecrecover := fun _ _ => inl (4 :: replicate 64 7) |}.
Definition toy_sign (hash : bytes) : bytes := be_bytes 32 5 ++ be_bytes 32 9 ++ [1].
Definition toy_address : Address := pub_address (4 :: replicate 64 7).
Definition toy_tx : Transaction := newTransaction 3 (Some 77) (Some 1000) 90000 (Some 2) [1; 2; 3].

Lemma toy_signs : signs_for (CU := toy_curve) toy_sign toy_address.
Proof.
  intros hash _ _. unfold toy_sign. split; [reflexivity|]. split.
  { apply Forall_app_2; [apply be_bytes_are_bytes|]. apply Forall_app_2; [apply be_bytes_are_bytes|].
    rewrite Forall_singleton. unfold is_byte. lia. }
  split; [vm_compute; by split|]. split; [vm_compute; by split|]. split; [by right|].
  exists (replicate 64 7). split; [reflexivity|]. exact (eq_refl (pub_address (4 :: replicate 64 7))).
Qed.

Lemma signed_transaction_sender_witness :
  ∃ tx', SignTx toy_tx (EIP155Signer 32659) toy_sign = Done tx' ∧
    (Sender (CU := toy_curve) (EIP155Signer 32659) tx').1 = inl toy_address ∧
    ∀ other, other ≠ 32659 → (Sender (CU := toy_curve) (EIP155Signer other) tx').1 = inr ErrInvalidChainId.
Proof. apply (signed_transaction_sender (CU := toy_curve)); [lia|exact toy_signs]. Defined.
