(* ===== verification/Block.v ===== *)
(** * Blocks (core/types/block.go, derive_sha.go)

    A block and the root hashes of its transactions and receipts: [DeriveSha] fills
    a trie with the items of a list under their encoded positions and hashes it. *)

From stdpp Require Import base list gmap strings.
From Stdlib Require Import ZArith Lia.
From S2P Require Import Prelude Bytes Keccak KeccakFacts Ticket FsnTypes Rlp RlpFacts Codec.
From S2P Require Import StateDB Header Receipt Transaction.
From S2P Require Import TrieEncoding TrieTree TrieNode TrieStore Trie TrieHash TrieFacts TrieHashFacts TrieMap TrieSession.

(** ** Lists under a root *)

(** The key of position [i]. *)
Definition index_key (i : Z) : bytes :=
  match EncodeToBytes (TUint 64) (VUint i) with inl b => b | inr _ => [] end.

(** A trie of [new(trie.Trie)] has no store; it holds no hash nodes, so the store
    is not read. *)
Definition no_store : Database := NewDatabase (fun _ => None).

(** [trie.Update] drops the error. *)
Fixpoint DeriveSha_loop (i : Z) (t : Trie) (list : list bytes) : outcome Trie :=
  match list with
  | [] => Done t
  | v :: rest =>
      let? r := TryUpdate no_store t (index_key i) v in
      DeriveSha_loop (i + 1) (match r with inl t' => t' | inr _ => t end) rest
  end.

Definition DeriveSha (list : list bytes) : outcome Hash :=
  let? t := DeriveSha_loop 0 (empty_trie 0) list in
  let? r := trie_Hash t in Done r.1.

Definition EmptyRootHash : outcome Hash := DeriveSha [].

(** ** Blocks *)

Record Block := mkBlock {
  b_header : Header;
  b_uncles : list Header;
  b_transactions : list Transaction;
}.

Fixpoint GetRlps (receipts : list Receipt) : outcome (list bytes) :=
  match receipts with
  | [] => Done []
  | r :: rest => let? b := receipt_GetRlp r in let? bs := GetRlps rest in Done (b :: bs)
  end.

Definition NewBlock (header : Header) (txs : list Transaction) (uncles : list Header)
    (receipts : list Receipt) : outcome Block :=
  let h := CopyHeader header in
  let? tx := (match txs with [] => EmptyRootHash | _ => DeriveSha (map tx_GetRlp txs) end) in
  let? (receipt, bloom) :=
    (match receipts with
     | [] => let? r := EmptyRootHash in Done (r, h_Bloom h)
     | _ => let? bs := GetRlps receipts in
            let? r := DeriveSha bs in
            let? b := CreateBloom receipts in Done (r, b)
     end) in
  let uncle := match uncles with [] => EmptyUncleHash | _ => CalcUncleHash uncles end in
  Done (mkBlock (set_body tx receipt bloom uncle h) (map CopyHeader uncles) txs).

Definition NewBlockWithHeader (header : Header) : Block := mkBlock (CopyHeader header) [] [].
Definition Block_Header (b : Block) : Header := CopyHeader (b_header b).
Definition RawHeader (b : Block) : Header := b_header b.
Definition WithSeal (b : Block) (header : Header) : Block :=
  mkBlock header (b_uncles b) (b_transactions b).
Definition WithBody (b : Block) (transactions : list Transaction) (uncles : list Header) : Block :=
  mkBlock (CopyHeader (b_header b)) (map CopyHeader uncles) transactions.
Definition Block_Hash (b : Block) : Hash := header_Hash (b_header b).

(** ** The root of a list *)

Lemma index_key_enc i : is_u64 i → index_key i = enc_string (uint_bytes i).
Proof.
  intros Hi. unfold index_key. rewrite EncodeToBytes_enc; [done|]. apply canon_has_type. simpl.
  split; [auto|]. apply Hi.
Qed.

Lemma index_key_length i : is_u64 i → (length (index_key i) <= 9)%nat ∧ are_bytes (index_key i).
Proof.
  intros Hi. rewrite index_key_enc by done.
  destruct (uint_bytes_spec 64 i) as [_ Hl]; [auto|apply Hi|]. change (64 / 8) with 8 in Hl.
  assert (Hb : are_bytes (uint_bytes i)).
  { unfold uint_bytes. destruct (i =? 0); [done|by apply putint_are_bytes]. }
  assert (fits (uint_bytes i)) by (unfold fits, is_u64, two64; lia). split; [|by apply enc_string_are_bytes].
  unfold enc_string. destruct (uint_bytes i) as [|x [|y l]] eqn:E; [simpl; lia|destruct (_ <=? _); simpl; lia|].
  rewrite puthead_small by (cbn [length] in *; lia). cbn [app length] in *. lia.
Qed.

Lemma index_key_ok i : is_u64 i → key_ok (index_key i).
Proof. intros Hi. destruct (index_key_length i Hi). split; [done|lia]. Qed.

Lemma index_key_inj i j : is_u64 i → is_u64 j → index_key i = index_key j → i = j.
Proof.
  assert (Hdec : ∀ i, is_u64 i → DecodeBytes (TUint 64) (zero (TUint 64)) (index_key i) = (VUint i, None)).
  { intros k Hk. destruct (index_key_length k Hk) as [Hl _].
    apply DecodeBytes_EncodeToBytes; [by simpl; split; [auto|]| |unfold fits, is_u64, two64; lia].
    unfold index_key. destruct (EncodeToBytes _ _) eqn:E; [done|]. exfalso.
    rewrite EncodeToBytes_enc in E; [done|]. apply canon_has_type. simpl. split; [auto|apply Hk]. }
  intros Hi Hj E. pose proof (Hdec i Hi) as Ei. rewrite E, (Hdec j Hj) in Ei. congruence.
Qed.

(** The map from positions to items. *)
Fixpoint index_map (i : Z) (list : list bytes) (m : contents) : contents :=
  match list with
  | [] => m
  | v :: rest => index_map (i + 1) rest (<[index_key i := v]> m)
  end.

Definition item_fits (v : bytes) : Prop := val_ok v ∧ v ≠ [].

Lemma index_map_lookup list : ∀ i m j,
  0 <= i → i + Z.of_nat (length list) <= two64 → is_u64 j →
  index_map i list m !! index_key j =
    if (i <=? j) && (j <? i + Z.of_nat (length list)) then list !! Z.to_nat (j - i) else m !! index_key j.
Proof.
  induction list as [|v rest IH]; intros i m j Hi Hlen Hj; cbn [index_map length] in *.
  - destruct (Z.leb_spec i j), (Z.ltb_spec j (i + Z.of_nat 0)); simpl; done || lia.
  - rewrite IH by (done || lia). destruct (Z.leb_spec (i + 1) j), (Z.leb_spec i j), (Z.ltb_spec j (i + 1 + Z.of_nat (length rest))),
      (Z.ltb_spec j (i + Z.of_nat (S (length rest)))); cbn [andb]; try lia.
    + by replace (Z.to_nat (j - i)) with (S (Z.to_nat (j - (i + 1)))) by lia.
    + rewrite lookup_insert_ne; [done|]. intros E%index_key_inj; [lia|unfold is_u64 in *; lia..].
    + replace j with i by lia. rewrite lookup_insert_eq, Z.sub_diag. done.
    + rewrite lookup_insert_ne; [done|]. intros E%index_key_inj; [lia|unfold is_u64 in *; lia..].
Qed.

Lemma index_map_ok list : ∀ i m,
  0 <= i → i + Z.of_nat (length list) <= two64 → Forall item_fits list → map_ok m → map_ok (index_map i list m).
Proof.
  induction list as [|v rest IH]; intros i m Hi Hlen Hl Hm; cbn [index_map length] in *; [done|].
  apply Forall_cons in Hl as [[Hv Hne] Hl]. apply IH; [lia|lia|done|].
  intros key v' [[<- <-]|[_ Hk]]%lookup_insert_Some; [|by apply Hm].
  split_and!; [apply index_key_ok; unfold is_u64; lia|done|done].
Qed.

Lemma DeriveSha_loop_ok list : ∀ i t m,
  0 <= i → i + Z.of_nat (length list) <= two64 → Forall item_fits list → map_ok m →
  expands no_store true (t_root t) (tree_of m) →
  ∃ t', DeriveSha_loop i t list = Done t' ∧ expands no_store true (t_root t') (tree_of (index_map i list m)).
Proof.
  induction list as [|v rest IH]; intros i t m Hi Hlen Hl Hm Ht; cbn [DeriveSha_loop index_map length] in *; [eauto|].
  apply Forall_cons in Hl as [[Hv Hne] Hl].
  assert (Hk : key_ok (index_key i)) by (apply index_key_ok; unfold is_u64; lia).
  destruct (TryUpdate_ok no_store t m Hm Ht (index_key i) v Hk Hv) as (t' & -> & Ht'). cbn [obind].
  pose proof (map_set_ok m Hm (index_key i) v Hk Hv) as Hm'. unfold map_set in Ht', Hm'. destruct v as [|x v]; [done|].
  by apply IH; [lia|lia|..].
Qed.

Lemma DeriveSha_ok list : Z.of_nat (length list) <= two64 → Forall item_fits list →
  DeriveSha list = Done (map_root (index_map 0 list ∅)).
Proof.
  intros Hlen Hl. unfold DeriveSha.
  destruct (DeriveSha_loop_ok list 0 (empty_trie 0) ∅) as (t & -> & Ht); [lia|lia|done|done|constructor|].
  cbn [obind]. destruct (Hash_ok no_store t (index_map 0 list ∅)) as (t' & -> & _); [|done|done].
  apply index_map_ok; [lia|lia|done|done].
Qed.

Lemma index_map_inj l1 l2 : Z.of_nat (length l1) <= two64 → Z.of_nat (length l2) <= two64 →
  index_map 0 l1 ∅ = index_map 0 l2 ∅ → l1 = l2.
Proof.
  intros H1 H2 E. assert (Hlook : ∀ l j, Z.of_nat (length l) <= two64 → is_u64 (Z.of_nat j) →
    index_map 0 l ∅ !! index_key (Z.of_nat j) = l !! j).
  { intros l j Hl Hj. rewrite index_map_lookup by (done || lia). rewrite Z.sub_0_r, Nat2Z.id.
    destruct (Z.leb_spec 0 (Z.of_nat j)); [|lia]. cbn [andb].
    destruct (Z.ltb_spec (Z.of_nat j) (0 + Z.of_nat (length l))); [done|].
    rewrite lookup_empty. symmetry. apply lookup_ge_None_2. lia. }
  apply list_eq. intros j. destruct (Z.lt_ge_cases (Z.of_nat j) two64) as [Hj|Hj].
  - assert (is_u64 (Z.of_nat j)) by (unfold is_u64; lia). by rewrite <- (Hlook l1), <- (Hlook l2), E.
  - rewrite !lookup_ge_None_2 by lia. done.
Qed.

(** ** Blocks commit to their bodies *)

Lemma GetRlps_ok receipts bs :
  Forall2 (fun r b => receipt_EncodeRLP r = inl b) receipts bs → GetRlps receipts = Done bs.
Proof.
  induction 1 as [|r b receipts bs Hr _ IH]; [done|]. cbn [GetRlps]. unfold receipt_GetRlp. rewrite Hr, IH. done.
Qed.

Lemma DeriveSha_nil : EmptyRootHash = Done (map_root (index_map 0 [] ∅)).
Proof. apply DeriveSha_ok; [done|constructor]. Qed.

(** ** Properties *)

(** C20: the root hash of a list. [DeriveSha] returns, without panic, a hash that
    two lists of fewer than 2^64 non-empty items share exactly when they are equal,
    in items and in order, unless two different nodes of their tries have the same
    hash. *)
Theorem derive_sha_binds_list (l1 l2 : list bytes) :
  Z.of_nat (length l1) <= two64 → Z.of_nat (length l2) <= two64 →
  Forall item_fits l1 → Forall item_fits l2 → no_collision [index_map 0 l1 ∅; index_map 0 l2 ∅] →
  ∃ h1 h2, DeriveSha l1 = Done h1 ∧ DeriveSha l2 = Done h2 ∧ (h1 = h2 ↔ l1 = l2).
Proof.
  intros Hn1 Hn2 H1 H2 Hnc. exists (map_root (index_map 0 l1 ∅)), (map_root (index_map 0 l2 ∅)).
  split_and!; [by apply DeriveSha_ok..|]. split; [|by intros ->]. intros E. apply index_map_inj; [done..|].
  apply map_root_injective; [apply index_map_ok; (done || lia)..|done|done].
Qed.

(** C21: a block assembled from transactions, uncles and receipts, where those can be
    encoded. The call returns, without panic, a block with the transactions and
    copies of the uncles, whose header has the root of the list of transactions, the
    root of the list of receipts and the hash of the list of uncles. With receipts,
    the filter has exactly the bits of the addresses and the topics of their logs,
    so that looking one up never misses it; without receipts the filter is the one
    of the header that was given, although the comment of the function says that it
    is ignored. Everything else of the header is as it was given. *)
Theorem new_block_commits (header : Header) (txs : list Transaction) (uncles : list Header)
    (receipts : list Receipt) (bs : list bytes) :
  Z.of_nat (length txs) <= two64 → Forall item_fits (map tx_GetRlp txs) →
  Z.of_nat (length bs) <= two64 → Forall item_fits bs →
  Forall2 (fun r b => receipt_EncodeRLP r = inl b) receipts bs →
  ∃ b bloom, NewBlock header txs uncles receipts = Done b ∧
    b_header b = set_body (map_root (index_map 0 (map tx_GetRlp txs) ∅)) (map_root (index_map 0 bs ∅))
                   bloom (CalcUncleHash uncles) (CopyHeader header) ∧
    b_transactions b = txs ∧ b_uncles b = map CopyHeader uncles ∧
    match receipts with
    | [] => bloom = h_Bloom header
    | _ => filter_of receipts bloom ∧
        ∀ r l k, r ∈ receipts → l ∈ rc_Logs r → k ∈ log_keys l → BloomLookup bloom k = true
    end.
Proof.
  intros Hn Ht Hnb Hb Hrs. unfold NewBlock.
  assert ((match txs with [] => EmptyRootHash | _ :: _ => DeriveSha (map tx_GetRlp txs) end) =
          Done (map_root (index_map 0 (map tx_GetRlp txs) ∅))) as ->.
  { destruct txs; [apply DeriveSha_nil|apply DeriveSha_ok; [by rewrite length_map|done]]. }
  assert ((match uncles with [] => EmptyUncleHash | _ => CalcUncleHash uncles end) = CalcUncleHash uncles) as ->
    by by destruct uncles.
  cbn [obind]. destruct Hrs as [|r b0 receipts bs Hr Hrs].
  - rewrite DeriveSha_nil. cbn [obind]. eexists _, _. split; [done|]. by split_and!.
  - assert (Hall : Forall2 (λ r b, receipt_EncodeRLP r = inl b) (r :: receipts) (b0 :: bs)) by by constructor.
    rewrite (GetRlps_ok _ _ Hall). cbn [obind]. rewrite DeriveSha_ok by done. cbn [obind].
    destruct (CreateBloom_ok (r :: receipts)) as (bloom & Hc & _ & Hbl).
    destruct (CreateBloom_exact (r :: receipts)) as (bloom' & Hc' & Hx). assert (bloom' = bloom) as -> by congruence.
    rewrite Hc. cbn [obind]. eexists _, bloom. split; [done|]. by split_and!.
Qed.

(** ** Witnesses *)

Definition ex_items1 : list bytes := [replicate 40 1].
Definition ex_items2 : list bytes := [replicate 40 2].
Lemma ex_item_fits x : 0 <= x < 256 → item_fits (replicate 40 x).
Proof. intros Hx. split; [|done]. split; [by apply Forall_replicate|done]. Qed.
Lemma ex_items_fit : Forall item_fits ex_items1 ∧ Forall item_fits ex_items2.
Proof. split; (apply Forall_cons; split; [apply ex_item_fits; lia|constructor]). Qed.
Lemma ex_items_free : no_collision_check (keys_of [index_map 0 ex_items1 ∅; index_map 0 ex_items2 ∅]) = true.
Proof. vm_compute. reflexivity. Qed.

Lemma derive_sha_binds_list_witness :
  ∃ h1 h2, DeriveSha ex_items1 = Done h1 ∧ DeriveSha ex_items2 = Done h2 ∧ (h1 = h2 ↔ ex_items1 = ex_items2).
Proof.
  destruct ex_items_fit as [H1 H2]. apply derive_sha_binds_list;
    [done|done|exact H1|exact H2|exact (no_collision_check_ok _ ex_items_free)].
Defined.

Definition ex_log : Log := mkLog 5 [7; 8] [1; 2] 0 0 0 0 0.
Definition ex_receipt : Receipt := mkReceipt [] 1 21000 (replicate 256 0) [ex_log] 0 0 0.
Definition ex_receipt_rlp : bytes :=
  Eval vm_compute in match receipt_EncodeRLP ex_receipt with inl b => b | inr _ => [] end.
Definition ex_header : Header :=
  mkHeader 1 2 3 4 5 6 (replicate 256 0) (Some 1) (Some 1) 8000000 0 (Some 100) [] 0 (EncodeNonce 0) None [].

Lemma ex_receipt_fits : Forall item_fits [ex_receipt_rlp].
Proof.
  apply Forall_cons. split; [|constructor]. split; [split|done]; [|done].
  apply (Forall_impl (fun z => Is_true ((0 <=? z) && (z <? 256)))); [|intros z Hz].
  - apply forallb_True. by vm_compute.
  - unfold is_byte. destruct (Z.leb_spec 0 z), (Z.ltb_spec z 256); simpl in Hz; lia || done.
Qed.

Lemma new_block_commits_witness :
  ∃ b bloom, NewBlock ex_header [] [ex_header] [ex_receipt] = Done b ∧
    b_header b = set_body (map_root (index_map 0 [] ∅)) (map_root (index_map 0 [ex_receipt_rlp] ∅))
                   bloom (CalcUncleHash [ex_header]) (CopyHeader ex_header) ∧
    b_transactions b = [] ∧ b_uncles b = [CopyHeader ex_header] ∧
    filter_of [ex_receipt] bloom ∧
    ∀ r l k, r ∈ [ex_receipt] → l ∈ rc_Logs r → k ∈ log_keys l → BloomLookup bloom k = true.
Proof.
  apply (new_block_commits ex_header [] [ex_header] [ex_receipt] [ex_receipt_rlp]).
  - done.
  - constructor.
  - done.
  - exact ex_receipt_fits.
  - repeat constructor.
Defined.
