(* ===== verification/Datong.v ===== *)
(** * The DaTong consensus engine (consensus/datong/consensus.go)

    The engine decides who may make the next block: every owner of tickets enters
    with the ticket of theirs that is closest to the hash of the parent, the owners
    are put in order, and the order of the coinbase among them decides the
    difficulty and the time of the block. [verifyHeader] checks a header,
    [Prepare] fills in the header of a new block, [Finalize] takes the tickets out
    of the state and pays the reward, [Seal] signs.

    The header object and the cache of ticket sets are the state of the engine
    ([E]): both keep what was computed, also when an error is returned. The clock,
    the chain, the stored receipts and the curve are arguments. *)

From stdpp Require Import base list gmap strings sorting.
From Stdlib Require Import ZArith Lia.
From S2P Require Import Prelude Bytes Keccak KeccakFacts TimeLock Ticket FsnTypes Rlp RlpFacts Codec CallParams.
From S2P Require Import StateDB StateRecords StateTransition Hex Header Snapshot Receipt Transaction Block.

(** ** Constants *)

Definition delayTimeModifier : Z := 15.
Definition adjustIntervalBlocks : Z := 10.
Definition maxNumberOfDeletedTickets : nat := 7.
Definition MinBlockTime : Z := 7.
Definition maxBlockTime : Z := 600.

Definition errUnknownBlock : error := New "unknown block".
Definition errCoinbase : error := New "error coinbase".
Definition errMissingVanity : error := New "extra-data 32 byte vanity prefix missing".
Definition errMissingSignature : error := New "extra-data 65 byte suffix signature missing".
Definition errInvalidUncleHash : error := New "non empty uncle hash".
Definition ErrNoTicket : error := New "Miner doesn't have ticket".
Definition ErrUnknownAncestor : error := New "unknown ancestor".
Definition ErrFutureBlock : error := New "block in the future".

(** ** The surroundings of the engine *)

(** [consensus.ChainReader] *)
Record ChainReader := mkChainReader {
  GetHeader : Hash → Z → option Header;
  GetHeaderByNumber : Z → option Header;
  IsEIP158 : Z → bool;
}.

(** The chain database, as far as the engine reads it: [rawdb.ReadHeaderNumber] and
    the logs of [rawdb.ReadReceipts], receipt by receipt. *)
Record chaindb := mkChaindb {
  ReadHeaderNumber : Hash → option Z;
  ReadReceipts : Hash → Z → list (list Log);
}.

Record DaTong := mkDaTong {
  Period : Z;
  dt_db : chaindb;
  dt_stateCache : Database;
  dt_signer : Address;
  dt_signFn : Address → bytes → bytes + error;
}.

(** A value of a JSON object: a string, or anything else. *)
Inductive json := JString (s : bytes) | JOther.
(** [json.Unmarshal] into a map from keys to values. *)
Class Json := { json_Unmarshal : bytes → gmap string json + error }.

(** ** encoding/base64: the standard alphabet with padding *)

Definition base64_value (c : Z) : option Z :=
  if (65 <=? c) && (c <=? 90) then Some (c - 65)
  else if (97 <=? c) && (c <=? 122) then Some (c - 97 + 26)
  else if (48 <=? c) && (c <=? 57) then Some (c - 48 + 52)
  else if c =? 43 then Some 62
  else if c =? 47 then Some 63
  else None.

Definition base64_pad : Z := 61.

Fixpoint base64_quanta (s : bytes) : option bytes :=
  match s with
  | [] => Some []
  | a :: b :: c :: d :: rest =>
      a ← base64_value a; b ← base64_value b;
      let x := a * 4 + b / 16 in
      if c =? base64_pad then
        if (d =? base64_pad) && (length rest =? 0)%nat then Some [x] else None
      else
        c ← base64_value c;
        let y := b mod 16 * 16 + c / 4 in
        if d =? base64_pad then if (length rest =? 0)%nat then Some [x; y] else None
        else
          d ← base64_value d;
          r ← base64_quanta rest;
          Some (x :: y :: c mod 4 * 64 + d :: r)
  | _ => None
  end.
(** Line breaks are skipped. *)
Definition base64_DecodeString (s : bytes) : option bytes :=
  base64_quanta (filter (fun c => c ≠ 10 ∧ c ≠ 13) s).

(** ** The state of the engine *)

Record env := mkEnv { e_header : Header; e_cache : CachedTicketSlice }.

Definition E (A : Type) : Type := env → outcome ((A + error) * env).

#[export] Instance E_ret : MRet E := fun A a e => Done (inl a, e).
#[export] Instance E_bind : MBind E := fun A B k m e =>
  let? (r, e) := m e in
  match r with inl a => k a e | inr err => Done (inr err, e) end.

(** [return err] *)
Definition e_fail {A} (err : error) : E A := fun e => Done (inr err, e).
Definition e_lift {A} (o : outcome A) : E A := fun e => let? a := o in Done (inl a, e).
Definition e_try {A} (o : outcome (A + error)) : E A := fun e => let? r := o in Done (r, e).
(** A nil pointer is dereferenced. *)
Definition ptr {A} (o : option A) : outcome A :=
  match o with Some a => Done a | None => Panic "invalid memory address or nil pointer dereference" end.
Definition the_header : E Header := fun e => Done (inl (e_header e), e).
Definition set_the_header (f : Header → Header) : E unit :=
  fun e => Done (inl tt, mkEnv (f (e_header e)) (e_cache e)).

(** ** Hashes of a header *)

Definition header_rlp_values (h : Header) (extra : bytes) : rval := cto Header_rlp (set_Extra extra h).

(** The header without the signature in its extra data. *)
Definition sigHash (header : Header) : outcome Hash :=
  let n := length (h_Extra header) in
  if (n <? extraSeal)%nat then Panic "slice bounds out of range"
  else Done (rlpHash (ctype Header_rlp) (header_rlp_values header (take (n - extraSeal) (h_Extra header)))).

(** Nor the vanity of the miner. *)
Definition posHash (header : Header) : outcome Hash :=
  let n := length (h_Extra header) in
  if (n <? extraVanity + extraSeal)%nat then Panic "slice bounds out of range"
  else Done (rlpHash (ctype Header_rlp) (header_rlp_values header
               (take (n - extraSeal - extraVanity) (drop extraVanity (h_Extra header))))).

Definition SealHash (header : Header) : outcome Hash :=
  if (length (h_Extra header) <? extraVanity)%nat then Panic "slice bounds out of range"
  else
    Done (rlpHash (TStruct [TByteArray 32; TByteArray 32; TByteArray 20; TByteArray 32; TByteArray 32;
                     TByteArray 32; TByteArray 256; TBigInt; TBigInt; TUint 64; TUint 64; TString;
                     TByteArray 32; TByteArray 8])
            (VList [VBytes (Hash_Bytes (h_ParentHash header)); VBytes (Hash_Bytes (h_UncleHash header));
                    VBytes (Address_Bytes (h_Coinbase header)); VBytes (Hash_Bytes (h_Root header));
                    VBytes (Hash_Bytes (h_TxHash header)); VBytes (Hash_Bytes (h_ReceiptHash header));
                    VBytes (h_Bloom header); VBigInt (h_Difficulty header); VBigInt (h_Number header);
                    VUint (h_GasLimit header); VUint (h_GasUsed header);
                    VBytes (take extraVanity (h_Extra header)); VBytes (Hash_Bytes (h_MixDigest header));
                    VBytes (h_Nonce header)])).

(** ** Rewards *)

Fixpoint halve (n : nat) (reward : Z) : Z :=
  match n with O => reward | S n => halve n (reward / 2) end.

Definition calcRewards (height : Z) : Z :=
  let reward := 25 * 100000000000000000 in
  let segment := height / 4915200 in
  halve (Z.to_nat (bigInt64 segment)) reward.

(** ** The order of the owners *)

(** The best ticket of an owner and its distance; an owner without tickets has
    none. *)
Record DisInfo := mkDisInfo { di_tk : Ticket; di_res : option Z }.

(** The distance of a ticket from the parent: its age and its place in the hash. *)
Definition distance (posHash : Hash) (number : Z) (owner : Address) (t : TicketBody) : Z :=
  let w := u64 (number - tk_Height t + 1) in
  let id := SetBytes (Reference.keccak256 (concat [Hash_Bytes posHash; Hash_Bytes (tk_ID t); Address_Hex owner])) in
  w * w + id * id.

(** The loop of [calcDisInfo]: the first ticket at the least distance. *)
Fixpoint minTicket (dist : TicketBody → Z) (ts : list TicketBody) (best : option (TicketBody * Z))
    : option (TicketBody * Z) :=
  match ts with
  | [] => best
  | t :: ts =>
      let s := dist t in
      minTicket dist ts
        (match best with
         | None => Some (t, s)
         | Some (_, minDist) => if bigCmp s minDist <? 0 then Some (t, s) else best
         end)
  end.

Definition calcDisInfo (tickets : TicketsData) (parent : Header) : outcome DisInfo :=
  let? pos := posHash parent in
  let owner := Owner tickets in
  match Tickets tickets with
  | [] => Done (mkDisInfo (mkTicket owner (mkBody 0 0 0 0)) None)
  | _ =>
      let? number := ptr (h_Number parent) in
      match minTicket (distance pos (bigUint64 number) owner) (Tickets tickets) None with
      | Some (t, d) => Done (mkDisInfo (mkTicket owner t) (Some d))
      | None => Done (mkDisInfo (mkTicket owner (mkBody 0 0 0 0)) None)
      end
  end.

(** The goroutines send their results with the position of the owner; the list is
    filled in the order of arrival. *)
Fixpoint collect {A} (arrived : list (nat * A)) (l : list (option A)) : list (option A) :=
  match arrived with
  | [] => l
  | (index, info) :: rest => collect rest (<[index := Some info]> l)
  end.

Fixpoint omap_all {A B} (f : A → outcome B) (l : list A) : outcome (list B) :=
  match l with
  | [] => Done []
  | a :: l => let? b := f a in let? bs := omap_all f l in Done (b :: bs)
  end.

(** [sort.Sort]. It compares every element of a list of two or more, which panics
    on a nil distance. The order of equal distances is left open by package sort;
    here it is the order in the list. *)
Definition di_le (a b : DisInfo) : Prop := default 0 (di_res a) <= default 0 (di_res b).
#[export] Instance di_le_dec a b : Decision (di_le a b).
Proof. unfold di_le. apply _. Defined.
Definition sort_DistanceSlice (l : list DisInfo) : outcome (list DisInfo) :=
  if (2 <=? length l)%nat && existsb (fun d => match di_res d with None => true | _ => false end) l
  then Panic "invalid memory address or nil pointer dereference"
  else Done (merge_sort di_le l).

(** The loop over the sorted owners: the tickets that come before the one of the
    coinbase, and their number. *)
Fixpoint select_loop (coinbase : Address) (i : nat) (l : list DisInfo) (selectedTime : Z)
    (retreat : list Ticket) : option Ticket * Z * list Ticket :=
  match l with
  | [] => (None, selectedTime, retreat)
  | t :: l =>
      if tk_Owner (di_tk t) =? coinbase then (Some (di_tk t), selectedTime, retreat)
      else select_loop coinbase (S i) l (u64 (selectedTime + 1))
             (if (i <? maxNumberOfDeletedTickets)%nat then retreat ++ [di_tk t] else retreat)
  end.

(** The difficulty of the owner number [selectedTime] in the order. *)
Definition order_difficulty (ticketsTotalAmount numberOfticketOwners selectedTime : Z) : Z :=
  let difficulty := u64 (ticketsTotalAmount - selectedTime) in
  let difficulty :=
    if 0 <? selectedTime then
      let exponent := i64 selectedTime in
      let exponent := if 50 <? exponent then 50 else exponent in
      let d := difficulty * 10 ^ exponent / 16 ^ exponent in
      if bigCmp d 1 <? 0 then 1 else d
    else difficulty in
  difficulty + u64 (numberOfticketOwners - selectedTime).

Section engine.
Context `{SP : StateParams} `{CU : Curve} `{JS : Json}.
Context (dt : DaTong) (chain : ChainReader).

(** ** The tickets at a block *)

(** [state.New] and [AllTickets] on it. *)
Definition state_tickets (header : Header) : E (option TicketsDataSlice) :=
  fun e =>
    match NewStateDB (h_Root header) (h_MixDigest header) (dt_stateCache dt) (e_cache e) with
    | None => Done (inl None, e)
    | Some s =>
        let? (r, s) := AllTickets s in
        let e := mkEnv (e_header e) (cached s) in
        Done (match r with inl ts => inl (Some ts) | inr err => inr err end, e)
    end.

Definition missingState : error := New "missing trie node".

(** The loop over the ancestors: [parents] are the headers without a state, the
    youngest first. *)
Fixpoint past_state (fuel : nat) (parent : Header) (parents : list Header)
    : E (TicketsDataSlice * list Header) :=
  match fuel with
  | O => fun _ => OutOfFuel
  | S fuel =>
      number ← e_lift (ptr (h_Number parent));
      match GetHeader chain (h_ParentHash parent) (u64 (bigUint64 number - 1)) with
      | None => fun _ => Panic "invalid memory address or nil pointer dereference"
      | Some parent =>
          r ← state_tickets parent;
          match r with
          | Some tickets => mret (tickets, parents)
          | None =>
              number ← e_lift (ptr (h_Number parent));
              if bigUint64 number =? 0 then e_fail missingState
              else past_state fuel parent (parents ++ [parent])
          end
      end
  end.

Definition json_string (maps : gmap string json) (key : string) : option bytes :=
  match maps !! key with Some (JString s) => Some s | _ => None end.

Definition ticketError : error := New "ticket".

(** A ticket that was bought, as its log says. *)
Definition processLog (tickets : TicketsDataSlice) (l : Log) : TicketsDataSlice + error :=
  if negb (bool_decide (log_Topics l = [BuyTicketFunc])) then inl tickets
  else
    match json_Unmarshal (log_Data l) with
    | inr err => inr err
    | inl maps =>
        match maps !! "Error"%string with
        | Some _ => inl tickets
        | None =>
            match json_string maps "TicketID", json_string maps "TicketOwner", json_string maps "Base" with
            | Some idstr, Some ownerstr, Some datastr =>
                match base64_DecodeString datastr with
                | None => inr (New "illegal base64 data at input byte")
                | Some data =>
                    let p := (Unmarshal BuyTicketParam data).1 in
                    let ticket := mkTicket (HexToAddress ownerstr)
                      (mkBody (HexToHash idstr) (log_BlockNumber l) (bt_Start p) (bt_End p)) in
                    match AddTicket tickets ticket with
                    | (_, Some _) => inr ticketError
                    | (tickets, None) => inl tickets
                    end
                end
            | _, _, _ => inr (New "buy ticket log has wrong data")
            end
        end
    end.

Fixpoint processLogs (tickets : TicketsDataSlice) (ls : list Log) : TicketsDataSlice + error :=
  match ls with
  | [] => inl tickets
  | l :: ls => match processLog tickets l with inl tickets => processLogs tickets ls | inr err => inr err end
  end.

Fixpoint removeTickets (tickets : TicketsDataSlice) (ids : list Hash) : TicketsDataSlice + error :=
  match ids with
  | [] => inl tickets
  | id :: ids => match RemoveTicket tickets id with
                 | (_, Some _) => inr ticketError
                 | (tickets, None) => removeTickets tickets ids
                 end
  end.

(** The tickets that were used up, as the snapshot says. *)
Definition processSnap (tickets : TicketsDataSlice) (h : Header) : outcome (TicketsDataSlice + error) :=
  let? r := NewSnapshotFromHeader h in
  match r with
  | inr err => Done (inr err)
  | inl snap => Done (removeTickets tickets (Selected snap :: Retreat snap))
  end.

(** [parents] from the oldest to the youngest. *)
Fixpoint replay (tickets : TicketsDataSlice) (parents : list Header)
    : outcome (TicketsDataSlice + error) :=
  match parents with
  | [] => Done (inl tickets)
  | h :: rest =>
      let hash := header_Hash h in
      let logs := match ReadHeaderNumber (dt_db dt) hash with
                  | Some number => concat (ReadReceipts (dt_db dt) hash number)
                  | None => []
                  end in
      match processLogs tickets logs with
      | inr err => Done (inr err)
      | inl tickets =>
          let? r := processSnap tickets h in
          match r with inr err => Done (inr err) | inl tickets => replay tickets rest end
      end
  end.

Definition getAllTickets (header : Header) : E TicketsDataSlice :=
  fun e =>
    match cts_Get (e_cache e) (h_MixDigest header) with
    | Some ts => Done (inl ts, e)
    | None =>
        (r ← state_tickets header;
         match r with
         | Some ts => mret ts
         | None =>
             number ← e_lift (ptr (h_Number header));
             if bigUint64 number =? 0 then e_fail missingState
             else
               past ← past_state (S (Z.to_nat (bigUint64 number))) header [header];
               tickets ← e_try (replay past.1 (reverse past.2));
               time ← e_lift (ptr (h_Time header));
               match ClearExpiredTickets tickets (bigUint64 time) with
               | (_, Some _) => e_fail ticketError
               | (tickets, None) =>
                   fun e => match AddCachedTickets (e_cache e) (h_MixDigest header) tickets with
                            | (cache, Some err) => Done (inr err, mkEnv (e_header e) cache)
                            | (cache, None) => Done (inl tickets, mkEnv (e_header e) cache)
                            end
               end
         end : E TicketsDataSlice) e
    end.

(** ** The place of a block in the order *)

(** The owners with their distances in order, and the place of the coinbase. *)
Definition calcBlockDifficulty (parent : Header)
    : E (option Z * Ticket * Z * list Ticket) :=
  header ← the_header;
  match h_selectedTicket header with
  | Some selected =>
      mret (h_Difficulty header, selected, Nonce_Uint64 (h_Nonce header), h_retreatTickets header)
  | None =>
      parentTickets ← getAllTickets parent;
      if negb (existsb (fun v => Owner v =? h_Coinbase header) parentTickets) then e_fail ErrNoTicket
      else
        let '(ticketsTotalAmount, numberOfticketOwners) := NumberOfTicketsAndOwners parentTickets in
        infos ← e_lift (omap_all (fun v => calcDisInfo v parent) parentTickets);
        let arrived := imap pair infos in
        l ← e_lift (omap_all ptr (collect arrived (replicate (Z.to_nat numberOfticketOwners) None)));
        l ← e_lift (sort_DistanceSlice l);
        let '(selected, selectedTime, retreat) := select_loop (h_Coinbase header) 0 l 0 [] in
        match selected with
        | None => e_fail (New "myself tickets not selected in maxBlockTime")
        | Some selected =>
            let difficulty := order_difficulty ticketsTotalAmount numberOfticketOwners selectedTime in
            _ ← set_the_header (set_selected (Some selected) retreat);
            mret (Some difficulty, selected, selectedTime, retreat)
        end
  end.

(** ** Verification *)

Definition getParent (header : Header) (parents : list Header) : outcome (Header + error) :=
  let? number := ptr (h_Number header) in
  let number := bigUint64 number in
  let parent := match last parents with
                | Some p => Some p
                | None => GetHeader chain (h_ParentHash header) (u64 (number - 1))
                end in
  match parent with
  | None => Done (inr ErrUnknownAncestor)
  | Some p =>
      let? pn := ptr (h_Number p) in
      if negb (bigUint64 pn =? u64 (number - 1)) || negb (header_Hash p =? h_ParentHash header)
      then Done (inr ErrUnknownAncestor) else Done (inl p)
  end.

Definition checkTicketInfo (header : Header) (ticket : Ticket) : outcome (option error) :=
  let t := tk_Body ticket in
  let? number := ptr (h_Number header) in
  if 0 <=? bigCmp (BlockHeight t) number
  then Done (Some (New "checkTicketInfo ticket height mismatch"))
  else
    let? time := ptr (h_Time header) in
    if (tk_ExpireTime t <=? tk_StartTime t)
       || (tk_ExpireTime t <? u64 (tk_StartTime t + 30 * 24 * 3600))
       || (tk_ExpireTime t <? bigUint64 time)
    then Done (Some (New "checkTicketInfo ticket ExpireTime mismatch")) else Done None.

(** The times after which the block of an owner is accepted. *)
Definition maxDelaySeconds : Z := i64 (u64 (maxBlockTime + Period dt)).
Definition expectTime (order : Z) : Z := i64 (u64 (Period dt + u64 (order * delayTimeModifier))).

Definition checkBlockTime (header parent : Header) : outcome (option error) :=
  let list := Nonce_Uint64 (h_Nonce header) in
  if list <=? 0 then Done None
  else
    let? time := ptr (h_Time header) in
    let? ptime := ptr (h_Time parent) in
    let recvTime := i64 (bigInt64 time - bigInt64 ptime) in
    if (recvTime <? maxDelaySeconds) && (recvTime <? expectTime list)
    then Done (Some (Errorf "block time mismatch: order: %v, receive: %v, expect: %v."
                       [list; recvTime; expectTime list]))
    else Done None.

Definition e_check (o : outcome (option error)) : E unit :=
  e_try (let? r := o in Done (match r with None => inl tt | Some err => inr err end)).

(** The comparison of the header with what was computed for it. *)
Definition difficultyMismatch : error := New "verifySeal difficulty mismatch, have %v, want %v".

Definition verifySeal (parent : Header) : E unit :=
  header ← the_header;
  snap ← e_try (newSnapshotWithData (getSnapDataByHeader header));
  let ticketID := GetVoteTicket snap in
  r ← calcBlockDifficulty parent;
  let '(diff, tk, listSq, _) := r in
  if negb (tk_Owner tk =? h_Coinbase header)
  then e_fail (New "Coinbase is not the voted ticket owner")
  else if negb (tk_ID (tk_Body tk) =? ticketID)
  then e_fail (Errorf "verifySeal ticketID mismatch, have %v, want %v" [ticketID; tk_ID (tk_Body tk)])
  else
    _ ← e_check (checkTicketInfo header tk);
    if negb (bool_decide (h_Nonce header = EncodeNonce listSq))
    then e_fail (Errorf "verifySeal ticket order mismatch, have %v, want %v"
                   [Nonce_Uint64 (h_Nonce header); listSq])
    else
      diff ← e_lift (ptr diff);
      have ← e_lift (ptr (h_Difficulty header));
      if negb (bigCmp diff have =? 0) then e_fail difficultyMismatch else mret tt.

(** The address that signed the header. *)
Definition recoverSigner (header : Header) : outcome (Address + error) :=
  let n := length (h_Extra header) in
  let signature := drop (n - extraSeal) (h_Extra header) in
  let? h := sigHash header in
  match Ecrecover (Hash_Bytes h) signature with
  | inr err => Done (inr err)
  | inl [] => Panic "slice bounds out of range"
  | inl pubkey => Done (inl (pub_address pubkey))
  end.

(** [now] is [time.Now().Unix()]. *)
Definition verifyHeader (now : Z) (parents : list Header) : E unit :=
  header ← the_header;
  match h_Number header with
  | None => e_fail errUnknownBlock
  | Some number =>
      if bigSign number =? 0 then e_fail errUnknownBlock
      else if h_Coinbase header =? 0 then e_fail errCoinbase
      else if (length (h_Extra header) <? extraVanity)%nat then e_fail errMissingVanity
      else if (length (h_Extra header) <? extraVanity + extraSeal)%nat then e_fail errMissingSignature
      else if negb (h_UncleHash header =? EmptyUncleHash) then e_fail errInvalidUncleHash
      else
        time ← e_lift (ptr (h_Time header));
        if 0 <? bigCmp time now then e_fail ErrFutureBlock
        else
          parent ← e_try (getParent header parents);
          ptime ← e_lift (ptr (h_Time parent));
          if i64 (bigInt64 time - bigInt64 ptime) <? MinBlockTime
          then e_fail (Errorf "block %v header.Time:%v < parent.Time:%v + %v Second"
                         [number; bigInt64 time; bigInt64 ptime; MinBlockTime])
          else
            signer ← e_try (recoverSigner header);
            if negb (h_Coinbase header =? signer) then e_fail (New "Coinbase is not the signer")
            else
              _ ← e_check (checkBlockTime header parent);
              verifySeal parent
  end.

(** [VerifyHeaders]: one header after the other, each with those before it. The
    results in the order in which they are sent. *)
Fixpoint VerifyHeaders (now : Z) (before headers : list Header) (cache : CachedTicketSlice)
    : outcome (list (option error) * list Header * CachedTicketSlice) :=
  match headers with
  | [] => Done ([], before, cache)
  | h :: rest =>
      let? (r, e) := verifyHeader now before (mkEnv h cache) in
      let? (rs, hs, cache) := VerifyHeaders now (before ++ [e_header e]) rest (e_cache e) in
      Done (match r with inl _ => None | inr err => Some err end :: rs, hs, cache)
  end.

(** ** Making a block *)

(** [bytes.Repeat] and the seal that is not there yet. *)
Definition prepare_extra (extra : bytes) : bytes :=
  take extraVanity (extra ++ replicate (extraVanity - length extra) 0) ++ replicate extraSeal 0.

Definition Prepare : E unit :=
  header ← the_header;
  number ← e_lift (ptr (h_Number header));
  match GetHeader chain (h_ParentHash header) (u64 (bigUint64 number - 1)) with
  | None => e_fail ErrUnknownAncestor
  | Some parent =>
      _ ← set_the_header (set_Extra (prepare_extra (h_Extra header)));
      r ← calcBlockDifficulty parent;
      let '(difficulty, _, order, _) := r in
      _ ← set_the_header (set_order difficulty (EncodeNonce order));
      if 0 <? order then
        time ← e_lift (ptr (h_Time header));
        ptime ← e_lift (ptr (h_Time parent));
        let recvTime := i64 (bigInt64 time - bigInt64 ptime) in
        if (recvTime <? maxDelaySeconds) && (recvTime <? expectTime order) then
          let expect := if maxDelaySeconds <? expectTime order then maxDelaySeconds else expectTime order in
          set_the_header (set_Time (Some (i64 (bigInt64 ptime + expect))))
        else mret tt
      else mret tt
  end.

(** ** Finalizing a block *)

(** A computation of the engine on a header, with the cache of the state. *)
Definition run_engine {A} (m : E A) (header : Header) : M ((A + error) * Header) :=
  s ← get;
  r ← lift (m (mkEnv header (cached s)));
  let '(a, e) := r in
  _ ← modify (fun s => set_tickets (tickets s) (e_cache e) s);
  mret (a, e_header e).

(** What is left of a ticket goes back to its owner. *)
Definition returnTicket (header : Header) (ticket : Ticket) : M unit :=
  let t := tk_Body ticket in
  time ← lift (ptr (h_Time header));
  if tk_ExpireTime t <=? bigUint64 time then mret ()
  else AddTimeLockBalance (tk_Owner ticket) SystemAssetID
         (oneItem (tk_StartTime t) (tk_ExpireTime t) (Ticket_Value t)) (bigUint64 time).

(** The error of [RemoveTicket] is dropped. *)
Definition deleteTicket (header : Header) (ticket : Ticket) (logType : Z) (returnBack : bool)
    (snap : snapshot) : M snapshot :=
  let id := tk_ID (tk_Body ticket) in
  _ ← db_RemoveTicket id;
  let snap := snapshot_AddLog (mkTicketLog id logType) snap in
  _ ← (if returnBack then returnTicket header ticket else mret ());
  mret snap.

(** The tickets that were passed over; the first of them is lost. *)
Fixpoint deleteRetreat (header : Header) (i : nat) (retreat : list Ticket) (snap : snapshot)
    : M snapshot :=
  match retreat with
  | [] => mret snap
  | t :: retreat =>
      snap ← deleteTicket header t ticketRetreat (negb (IsInGenesis (tk_Body t) || (i =? 0)%nat)) snap;
      deleteRetreat header (S i) retreat snap
  end.

(** The tickets of the header, or those that are computed now. *)
Definition finalTickets (header parent : Header) : M ((Ticket * list Ticket + error) * Header) :=
  match h_selectedTicket header with
  | Some selected => mret (inl (selected, h_retreatTickets header), header)
  | None =>
      if DebugMode
      then panic "Finalize shouldn't calc difficulty, as it's done in VerifyHeader or Prepare"
      else
        r ← run_engine (calcBlockDifficulty parent) header;
        let '(a, header) := r in
        mret (match a with inl (_, selected, _, retreat) => inl (selected, retreat) | inr err => inr err end,
              header)
  end.

(** The changes of the state, but for the root: the tickets, the snapshot of them
    in the header and the reward. The header, or an error and the header as it was
    left. *)
Definition finalizeState (parents : list Header) (header : Header) : M ((unit + error) * Header) :=
  p ← lift (getParent header parents);
  match p with
  | inr err => mret (inr err, header)
  | inl parent =>
      r ← finalTickets header parent;
      let '(chosen, header) := r in
      match chosen with
      | inr err => mret (inr err, header)
      | inl (selected, retreat) =>
          let isInMining := h_MixDigest header =? 0 in
          r ← AllTickets;
          match r with
          | inr err => mret (inr err, header)
          | inl ts =>
              if NumberOfTickets ts <=? 1
              then mret (inr (New "Next block doesn't have ticket, wait buy ticket"), header)
              else
                snap ← deleteTicket header selected ticketSelect (negb (IsInGenesis (tk_Body selected))) newSnapshot;
                snap ← deleteRetreat header 0 retreat snap;
                ptime ← lift (ptr (h_Time parent));
                r ← UpdateTickets (bigUint64 ptime);
                match r with
                | inr _ => mret (inr (New "UpdateTickets failed: "), header)
                | inl hash =>
                    if negb isInMining && negb (h_MixDigest header =? hash)
                    then mret (inr (Errorf "MixDigest mismatch, have:%v, want:%v" [h_MixDigest header; hash]), header)
                    else
                      let header := if isInMining then set_MixDigest hash header else header in
                      n ← TotalNumberOfTickets;
                      let snapBytes := snapshot_Bytes (SetTicketNumber n snap) in
                      if (length (h_Extra header) <? extraVanity)%nat then panic "slice bounds out of range"
                      else
                        let header := set_Extra (take extraVanity (h_Extra header) ++ snapBytes
                                                 ++ replicate extraSeal 0) header in
                        number ← lift (ptr (h_Number header));
                        _ ← AddBalance (h_Coinbase header) SystemAssetID (calcRewards number);
                        mret (inl tt, header)
                end
          end
      end
  end.

(** The block or the error, and the header as it is left. *)
Definition Finalize (parents : list Header) (header : Header) (txs : list Transaction)
    (receipts : list Receipt) : M ((Block + error) * Header) :=
  r ← finalizeState parents header;
  let '(res, header) := r in
  match res with
  | inr err => mret (inr err, header)
  | inl _ =>
      number ← lift (ptr (h_Number header));
      root ← IntermediateRoot (IsEIP158 chain number);
      let header := set_HeaderRoot root header in
      b ← lift (NewBlock header txs [] receipts);
      mret (inl b, header)
  end.

(** ** Sealing *)

(** Durations are in nanoseconds; [Sub] of package time saturates. *)
Definition second : Z := 1000000000.
Definition time_Sub (t u : Z) : Z := Z.max (- 2 ^ 63) (Z.min (2 ^ 63 - 1) (t - u)).
(** The quotient of Go is rounded towards zero. *)
Definition div0 (a b : Z) : Z := Z.quot a b.

(** [now] is the clock in nanoseconds. *)
Definition calcDelayTime (now : Z) (header : Header) : outcome Z :=
  let list := Nonce_Uint64 (h_Nonce header) in
  let? time := ptr (h_Time header) in
  if 0 <? list then Done (time_Sub (bigInt64 time * second) now)
  else
    let? number := ptr (h_Number header) in
    let number := bigUint64 number in
    let parent := GetHeaderByNumber chain (u64 (number - 1)) in
    let endTime := time + u64 (u64 (u64 (list * delayTimeModifier) + Period dt) - 2) in
    let delayTime := time_Sub (bigInt64 endTime * second) now in
    let delayTime :=
      if maxBlockTime <? bigUint64 (endTime - time) then
        let endTime := time + u64 (u64 (u64 (maxBlockTime + Period dt) - 2) + list) in
        time_Sub (bigInt64 endTime * second) now
      else delayTime in
    if adjustIntervalBlocks + 1 <? number then
      let gparent := GetHeaderByNumber chain (u64 (u64 (number - 1) - adjustIntervalBlocks)) in
      let? parent := ptr parent in
      let? gparent := ptr gparent in
      let? ptime := ptr (h_Time parent) in
      let? gptime := ptr (h_Time gparent) in
      let adjust :=
        div0 (i64 (div0 (time_Sub (bigInt64 ptime * second) (bigInt64 gptime * second)) adjustIntervalBlocks
                   - i64 (i64 (Period dt) * second))) adjustIntervalBlocks in
      let stampSecond := 2 * second in
      let adjust := if stampSecond <? adjust then stampSecond
                    else if adjust <? - stampSecond then - stampSecond else adjust in
      Done (i64 (delayTime - adjust))
    else Done delayTime.

(** The sealed block, and how long it is held back. *)
Definition Seal (now : Z) (block : Block) : outcome ((Block * Z) + error) :=
  let header := Block_Header block in
  let? number := ptr (h_Number header) in
  if bigUint64 number =? 0 then Done (inr errUnknownBlock)
  else if negb (dt_signer dt =? h_Coinbase header) then Done (inr (New "Mismatched Signer and Coinbase"))
  else
    let? delay := calcDelayTime now header in
    let? h := sigHash header in
    match dt_signFn dt (h_Coinbase header) (Hash_Bytes h) with
    | inr err => Done (inr err)
    | inl sighash =>
        let n := length (h_Extra header) in
        let seal := take extraSeal sighash ++ drop (length sighash) (drop (n - extraSeal) (h_Extra header)) in
        let header := set_Extra (take (n - extraSeal) (h_Extra header) ++ seal) header in
        Done (inl (WithSeal block header, delay))
    end.
End engine.
