(* ===== verification/DatongOrder.v ===== *)
(** * The order of the owners of tickets

    [order_of] is the order as a function of the tickets and the parent;
    [calcBlockDifficulty] finds the coinbase in it, for every arrival of the
    results of its goroutines. *)

From stdpp Require Import base list gmap strings sorting.
From Stdlib Require Import ZArith Lia.
From S2P Require Import Prelude Bytes Keccak KeccakFacts TimeLock Ticket FsnTypes Rlp RlpFacts Codec CallParams.
From S2P Require Import StateDB StateRecords StateTransition Hex Header Snapshot Receipt Transaction Block Datong DatongFacts.

(** ** The results of the goroutines *)

Lemma collect_lookup {A} (arrived : list (nat * A)) : ∀ l i,
  NoDup arrived.*1 → (∀ j x, (j, x) ∈ arrived → (j < length l)%nat) →
  (∀ x, (i, x) ∈ arrived → collect arrived l !! i = Some (Some x)) ∧
  (i ∉ arrived.*1 → collect arrived l !! i = l !! i).
Proof.
  induction arrived as [|[j y] rest IH]; intros l i Hnd Hlt; cbn [collect].
  - split; [by intros x Hx%elem_of_nil|done].
  - apply NoDup_cons in Hnd as [Hj Hnd]. assert (Hjl : (j < length l)%nat) by (eapply Hlt; left).
    destruct (IH (<[j:=Some y]> l) i Hnd) as [H1 H2].
    { intros j' x Hx. rewrite length_insert. eapply Hlt. by right. }
    split.
    + intros x [[= -> ->]|Hx]%elem_of_cons; [|auto]. rewrite H2 by done. by apply list_lookup_insert_eq.
    + intros Hi. cbn [fmap list_fmap fst] in Hi. apply not_elem_of_cons in Hi as [Hne Hi].
      rewrite H2 by done. by apply list_lookup_insert_ne.
Qed.

Lemma collect_length {A} (arrived : list (nat * A)) l : length (collect arrived l) = length l.
Proof. revert l. induction arrived as [|[j y] rest IH]; intros l; cbn [collect]; [done|]. by rewrite IH, length_insert. Qed.

Lemma imap_pair_fst {A} (l : list A) : (imap pair l).*1 = seq 0 (length l).
Proof.
  apply list_eq. intros i. rewrite list_lookup_fmap, list_lookup_imap. destruct (l !! i) as [x|] eqn:E; simpl.
  - pose proof (lookup_lt_Some _ _ _ E). by rewrite lookup_seq_lt.
  - rewrite lookup_seq_ge; [done|]. by apply lookup_ge_None.
Qed.

(** Whatever the order of arrival, each result is at the place of its owner. *)
Lemma collect_any_order {A} (infos : list A) arrived :
  arrived ≡ₚ imap pair infos → collect arrived (replicate (length infos) None) = map Some infos.
Proof.
  intros Hp. assert (Hnd : NoDup arrived.*1).
  { rewrite Hp, imap_pair_fst. apply NoDup_seq. }
  assert (Hin : ∀ j x, (j, x) ∈ arrived ↔ infos !! j = Some x).
  { intros j x. rewrite Hp. rewrite elem_of_lookup_imap. split; [by intros (? & ? & [= -> ->] & ?)|eauto]. }
  apply list_eq. intros i. change (map Some infos) with (Some <$> infos). rewrite list_lookup_fmap.
  destruct (collect_lookup arrived (replicate (length infos) None) i) as [H1 H2]; [done|..].
  { intros j x Hx. rewrite length_replicate. apply lookup_lt_is_Some. exists x. by apply Hin. }
  destruct (infos !! i) as [x|] eqn:E; [by apply H1, Hin|]. rewrite H2.
  - apply lookup_ge_None. rewrite length_replicate. by apply lookup_ge_None.
  - rewrite Hp, imap_pair_fst. rewrite elem_of_seq. apply lookup_ge_None in E. lia.
Qed.

Lemma omap_all_Some {A} (l : list A) : omap_all ptr (map Some l) = Done l.
Proof. induction l as [|a l IH]; [done|]. cbn [map omap_all ptr obind]. by rewrite IH. Qed.

(** ** Sorting *)

#[export] Instance di_le_total : Total di_le.
Proof. intros a b. unfold di_le. lia. Qed.
#[export] Instance di_le_trans : Transitive di_le.
Proof. intros a b c. unfold di_le. lia. Qed.

(** Lists without equal distances have one sorted form. *)
Lemma sorted_unique l1 l2 :
  NoDup (map di_res l1) → Forall (fun d => is_Some (di_res d)) l1 →
  Sorted di_le l1 → Sorted di_le l2 → l1 ≡ₚ l2 → l1 = l2.
Proof.
  intros Hnd Hs H1 H2 Hp. apply (StronglySorted_unique_strong di_le); try done; try by apply Sorted_StronglySorted; [apply _|].
  intros a b Ha Hb Hab Hba. rewrite <- Hp in Hb. rewrite Forall_forall in Hs.
  destruct (Hs a Ha) as [x Hx], (Hs b Hb) as [y Hy]. unfold di_le in Hab, Hba. rewrite Hx, Hy in Hab, Hba. simpl in Hab, Hba.
  apply list_elem_of_lookup in Ha as [i Hi], Hb as [j Hj].
  assert (i = j) as ->; [|congruence].
  apply (NoDup_lookup (map di_res l1) i j (Some x) Hnd); change (map ?f ?l) with (f <$> l); rewrite list_lookup_fmap.
  - rewrite Hi. simpl. by rewrite Hx.
  - rewrite Hj. simpl. rewrite Hy. f_equal. f_equal. unfold id in *. lia.
Qed.

(** ** The best ticket of an owner *)

Lemma minTicket_ok dist ts best :
  (∀ t d, best = Some (t, d) → d = dist t) →
  match minTicket dist ts best with
  | Some (t, d) => d = dist t ∧ ((∃ d', best = Some (t, d')) ∨ t ∈ ts) ∧
                   (∀ t', t' ∈ ts → d <= dist t') ∧ (∀ t' d', best = Some (t', d') → d <= d')
  | None => ts = [] ∧ best = None
  end.
Proof.
  revert best. induction ts as [|t ts IH]; intros best Hb; cbn [minTicket].
  - destruct best as [[t d]|]; [|done]. split_and!; [by apply Hb|left; eauto|by intros t' Ht'%elem_of_nil|].
    intros t' d' [= <- <-]. lia.
  - set (best' := match best with None => Some (t, dist t) | Some (_, m) => if bigCmp (dist t) m <? 0 then Some (t, dist t) else best end).
    assert (Hcase : (best' = Some (t, dist t) ∧ ∀ t' d', best = Some (t', d') → dist t <= d') ∨
                    (∃ t' d', best = Some (t', d') ∧ best' = best ∧ d' <= dist t)).
    { unfold best'. destruct best as [[t0 d0]|]; [|left; by split].
      pose proof (bigCmp_lt (dist t) d0). destruct (Z.ltb_spec (bigCmp (dist t) d0) 0).
      - left. split; [done|]. intros t' d' [= <- <-]. lia.
      - right. exists t0, d0. split_and!; [done|done|lia]. }
    specialize (IH best'). destruct (minTicket dist ts best') as [[t1 d1]|].
    + destruct IH as (H1 & H2 & H3 & H4).
      { intros t0 d0 E. destruct Hcase as [[Hb' _]|(t' & d' & Hb1 & Hb2 & _)]; [|apply Hb; congruence].
        rewrite Hb' in E. by injection E as <- <-. }
      split; [done|]. destruct Hcase as [[Hb' Hle]|(t' & d' & Hb1 & Hb2 & Hle)].
      * split_and!.
        -- destruct H2 as [[d' E]|Hin]; [|right; by right]. rewrite Hb' in E. injection E as -> _. right. by left.
        -- intros t' [->|Ht']%elem_of_cons; [by apply (H4 t (dist t))|auto].
        -- intros t' d' E. transitivity (dist t); [by apply (H4 t)|by eapply Hle].
      * rewrite Hb2 in *. split_and!.
        -- destruct H2 as [?|?]; [by left|right; by right].
        -- intros t0 [->|Ht0]%elem_of_cons; [|auto]. transitivity d'; [by eapply H4|done].
        -- done.
    + destruct IH as [_ E]; [|].
      { intros t0 d0 E. destruct Hcase as [[Hb' _]|(t' & d' & Hb1 & Hb2 & _)]; [|apply Hb; congruence].
        rewrite Hb' in E. by injection E as <- <-. }
      destruct Hcase as [[Hb' _]|(t' & d' & Hb1 & Hb2 & _)]; congruence.
Qed.

(** The entry of an owner: the closest ticket. *)
Definition info_of (pos : Hash) (n : Z) (v : TicketsData) : DisInfo :=
  match minTicket (distance pos n (Owner v)) (Tickets v) None with
  | Some (t, d) => mkDisInfo (mkTicket (Owner v) t) (Some d)
  | None => mkDisInfo (mkTicket (Owner v) (mkBody 0 0 0 0)) None
  end.

Lemma info_of_ok pos n v : Tickets v ≠ [] →
  ∃ t, info_of pos n v = mkDisInfo (mkTicket (Owner v) t) (Some (distance pos n (Owner v) t)) ∧ t ∈ Tickets v ∧
    ∀ t', t' ∈ Tickets v → distance pos n (Owner v) t <= distance pos n (Owner v) t'.
Proof.
  intros Hne. unfold info_of. pose proof (minTicket_ok (distance pos n (Owner v)) (Tickets v) None ltac:(done)) as H.
  destruct (minTicket _ _ None) as [[t d]|]; [|by destruct H].
  destruct H as (-> & [[? ?]|Hin] & Hmin & _); [done|]. by exists t.
Qed.

Lemma calcDisInfo_ok v parent pos n :
  posHash parent = Done pos → h_Number parent = Some n → Tickets v ≠ [] →
  calcDisInfo v parent = Done (info_of pos (bigUint64 n) v).
Proof.
  intros Hp Hn Hne. unfold calcDisInfo, info_of. rewrite Hp, Hn. cbn [obind ptr].
  destruct (Tickets v) as [|t ts] eqn:E; [done|]. rewrite <- E. by destruct (minTicket _ _ _) as [[? ?]|].
Qed.

(** ** The order *)

Definition order_of (pos : Hash) (n : Z) (ts : TicketsDataSlice) : list DisInfo :=
  merge_sort di_le (map (info_of pos n) ts).

Lemma order_of_perm pos n ts : order_of pos n ts ≡ₚ map (info_of pos n) ts.
Proof. apply merge_sort_Permutation. Qed.

Lemma info_owner pos n v : tk_Owner (di_tk (info_of pos n v)) = Owner v.
Proof. unfold info_of. by destruct (minTicket _ _ _) as [[? ?]|]. Qed.

Lemma order_owners pos n ts : map (fun d => tk_Owner (di_tk d)) (order_of pos n ts) ≡ₚ map Owner ts.
Proof.
  rewrite order_of_perm, map_map. erewrite map_ext; [done|]. intros v. apply info_owner.
Qed.

(** The owner [d] comes after the owners [pre], none of which is the same. *)
Record placed (coinbase : Address) (order pre : list DisInfo) (d : DisInfo) : Prop := {
  pl_split : ∃ post, order = pre ++ d :: post;
  pl_owner : tk_Owner (di_tk d) = coinbase;
  pl_before : Forall (fun x => tk_Owner (di_tk x) ≠ coinbase) pre;
}.

Lemma placed_exists coinbase order :
  coinbase ∈ map (fun d => tk_Owner (di_tk d)) order → ∃ pre d, placed coinbase order pre d.
Proof.
  induction order as [|x order IH]; intros Hin; [by apply elem_of_nil in Hin|]. cbn [map] in Hin.
  destruct (decide (tk_Owner (di_tk x) = coinbase)) as [E|Hne].
  - exists [], x. split; [by exists order|done|constructor].
  - apply elem_of_cons in Hin as [|Hin]; [congruence|]. destruct (IH Hin) as (pre & d & [[post ->] Ho Hb]).
    exists (x :: pre), d. split; [by exists post|done|by constructor].
Qed.

Lemma select_loop_ok coinbase pre d post : ∀ i k retreat,
  tk_Owner (di_tk d) = coinbase → Forall (fun x => tk_Owner (di_tk x) ≠ coinbase) pre →
  0 <= k → k + Z.of_nat (length pre) < two64 →
  select_loop coinbase i (pre ++ d :: post) k retreat =
    (Some (di_tk d), k + Z.of_nat (length pre), retreat ++ take (7 - i) (map di_tk pre)).
Proof.
  induction pre as [|x pre IH]; intros i k retreat Ho Hb Hk Hlen; cbn [app select_loop map length].
  - rewrite Ho, Z.eqb_refl, take_nil, app_nil_r, Z.add_0_r. done.
  - apply Forall_cons in Hb as [Hx Hb]. destruct (Z.eqb_spec (tk_Owner (di_tk x)) coinbase); [done|].
    cbn [length] in Hlen. rewrite u64_id by (unfold is_u64; lia). rewrite IH by (done || lia). f_equal; [f_equal; lia|].
    unfold maxNumberOfDeletedTickets. destruct (Nat.ltb_spec i 7).
    + replace (7 - i)%nat with (S (7 - S i)) by lia. cbn [take]. by rewrite <- app_assoc.
    + replace (7 - S i)%nat with 0%nat by lia. replace (7 - i)%nat with 0%nat by lia. done.
Qed.

Section engine.
Context `{SP : StateParams} `{CU : Curve} `{JS : Json}.
Context (dt : DaTong) (chain : ChainReader).

(** Looking the tickets up leaves the header alone. *)
Lemma state_tickets_header h e r e' : state_tickets dt h e = Done (r, e') → e_header e' = e_header e.
Proof.
  unfold state_tickets. destruct (NewStateDB _ _ _ _) as [s|]; [|by intros [= _ <-]].
  destruct (AllTickets s) as [[? s']| |]; cbn [obind]; [|done|done]. by intros [= _ <-].
Qed.

Lemma past_state_header fuel : ∀ h hs e r e',
  past_state dt chain fuel h hs e = Done (r, e') → e_header e' = e_header e.
Proof.
  induction fuel as [|fuel IH]; intros h hs e r e'; cbn [past_state]; [done|].
  unfold mbind, E_bind, e_lift, e_fail, mret, E_ret. destruct (h_Number h) as [n|]; cbn [ptr obind]; [|done].
  destruct (GetHeader _ _ _) as [p|]; [|done].
  destruct (state_tickets dt p e) as [[r1 e1]| |] eqn:Es; cbn [obind]; [|done|done].
  apply state_tickets_header in Es. destruct r1 as [[ts|]|err]; [by intros [= _ <-]| |by intros [= _ <-]].
  destruct (h_Number p) as [m|]; cbn [ptr obind]; [|done]. destruct (_ =? 0); [by intros [= _ <-]|].
  intros H%IH. congruence.
Qed.

Lemma getAllTickets_header h e r e' : getAllTickets dt chain h e = Done (r, e') → e_header e' = e_header e.
Proof.
  unfold getAllTickets. destruct (cts_Get _ _); [by intros [= _ <-]|].
  unfold mbind, E_bind, e_lift, e_try, e_fail, mret, E_ret.
  destruct (state_tickets dt h e) as [[r1 e1]| |] eqn:Es; cbn [obind]; [|done|done].
  apply state_tickets_header in Es. destruct r1 as [[ts|]|err]; [by intros [= _ <-]| |by intros [= _ <-]].
  destruct (h_Number h) as [n|]; cbn [ptr obind]; [|done]. destruct (_ =? 0); [by intros [= _ <-]|].
  destruct (past_state _ _ _ _ _ _) as [[r2 e2]| |] eqn:Ep; cbn [obind]; [|done|done].
  apply past_state_header in Ep. destruct r2 as [[ts hs]|err]; [|intros [= _ <-]; congruence].
  destruct (replay _ _ _) as [[ts'|err]| |]; cbn [obind]; [|intros [= _ <-]; congruence|done|done].
  destruct (h_Time h) as [t|]; cbn [ptr obind]; [|done].
  destruct (ClearExpiredTickets _ _) as [ts2 [err|]]; [intros [= _ <-]; congruence|].
  destruct (AddCachedTickets _ _ _) as [c [err|]]; intros [= _ <-]; cbn [e_header]; congruence.
Qed.

(** Tickets of a chain: well formed, fewer than 2^63. *)
Definition tickets_fit (ts : TicketsDataSlice) : Prop := wf_tickets ts ∧ NumberOfTickets ts < 2 ^ 63.

Lemma owners_le_tickets ts : wf_tickets ts → Z.of_nat (length ts) <= NumberOfTickets ts.
Proof.
  intros [_ Hr _]. rewrite NumberOfTickets_length, ToTicketSlice_concat. clear - Hr.
  induction Hr as [|v ts Hv _ IH]; [done|]. cbn [map concat length]. rewrite length_app.
  unfold TicketsData_ToTicketSlice at 1. rewrite length_map. destruct (Tickets v); [done|]. cbn [length]. lia.
Qed.

Lemma infos_ok parent pos n ts :
  posHash parent = Done pos → h_Number parent = Some n → Forall (fun v => Tickets v ≠ []) ts →
  omap_all (fun v => calcDisInfo v parent) ts = Done (map (info_of pos (bigUint64 n)) ts).
Proof.
  intros Hp Hn. induction 1 as [|v ts Hv _ IH]; [done|]. cbn [omap_all map].
  rewrite (calcDisInfo_ok v parent pos n) by done. cbn [obind]. by rewrite IH.
Qed.

Lemma sort_ok pos n ts : Forall (fun v => Tickets v ≠ []) ts →
  sort_DistanceSlice (map (info_of pos n) ts) = Done (order_of pos n ts).
Proof.
  intros Hr. unfold sort_DistanceSlice. assert (existsb (fun d => match di_res d with None => true | _ => false end)
    (map (info_of pos n) ts) = false) as ->; [|by rewrite andb_false_r].
  induction Hr as [|v ts Hv _ IH]; [done|]. cbn [map existsb]. rewrite IH.
  destruct (info_of_ok pos n v Hv) as (t & -> & _). done.
Qed.

(** The place of the coinbase in the order decides the block. *)
Lemma calcBlockDifficulty_fresh parent pos n ts e e1 :
  h_selectedTicket (e_header e) = None →
  getAllTickets dt chain parent e = Done (inl ts, e1) → tickets_fit ts →
  posHash parent = Done pos → h_Number parent = Some n →
  h_Coinbase (e_header e) ∈ map Owner ts →
  ∃ pre d, placed (h_Coinbase (e_header e)) (order_of pos (bigUint64 n) ts) pre d ∧
    let k := Z.of_nat (length pre) in
    let retreat := take 7 (map di_tk pre) in
    0 <= k < NumberOfOwners ts ∧
    calcBlockDifficulty dt chain parent e =
      Done (inl (Some (order_difficulty (NumberOfTickets ts) (NumberOfOwners ts) k), di_tk d, k, retreat),
            mkEnv (set_selected (Some (di_tk d)) retreat (e_header e)) (e_cache e1)).
Proof.
  intros Hsel Hts [Hwf Hlt] Hpos Hn Hin. pose proof (owners_le_tickets ts Hwf).
  destruct (placed_exists (h_Coinbase (e_header e)) (order_of pos (bigUint64 n) ts)) as (pre & d & Hpl).
  { by rewrite order_owners. }
  exists pre, d. split; [done|]. destruct Hpl as [[post Ho] Hd Hb]. cbv zeta.
  assert (Hlen : (length pre < length ts)%nat).
  { pose proof (Permutation_length (order_of_perm pos (bigUint64 n) ts)) as Hl.
    rewrite Ho, length_app, length_map in Hl. cbn [length] in Hl. lia. }
  split; [unfold NumberOfOwners; lia|].
  unfold calcBlockDifficulty, mbind, E_bind, the_header. cbn [obind]. rewrite Hsel, Hts. cbn [obind].
  assert (existsb (fun v => Owner v =? h_Coinbase (e_header e)) ts = true) as ->.
  { apply existsb_exists. apply list_elem_of_In, in_map_iff in Hin as (v & <- & Hv). exists v. by rewrite Z.eqb_refl. }
  cbn [negb NumberOfTicketsAndOwners]. unfold NumberOfTicketsAndOwners. cbv beta iota. unfold e_lift.
  rewrite (infos_ok parent pos n ts) by (done || apply Hwf). cbn [obind].
  assert (Hc : collect (imap pair (map (info_of pos (bigUint64 n)) ts)) (replicate (Z.to_nat (NumberOfOwners ts)) None) =
          map Some (map (info_of pos (bigUint64 n)) ts)).
  { unfold NumberOfOwners. rewrite Nat2Z.id. rewrite <- (length_map (info_of pos (bigUint64 n)) ts). by apply collect_any_order. }
  rewrite Hc, omap_all_Some. cbn [obind]. rewrite sort_ok by apply Hwf. cbn [obind]. rewrite Ho.
  rewrite (select_loop_ok _ pre d post 0 0 []) by (done || unfold two64; lia). cbn [app].
  unfold set_the_header, mret, E_ret. cbn [obind]. rewrite (getAllTickets_header _ _ _ _ Hts), Z.add_0_l. done.
Qed.

(** A header that knows its tickets already. *)
Lemma calcBlockDifficulty_cached parent e t :
  h_selectedTicket (e_header e) = Some t →
  calcBlockDifficulty dt chain parent e =
    Done (inl (h_Difficulty (e_header e), t, Nonce_Uint64 (h_Nonce (e_header e)), h_retreatTickets (e_header e)), e).
Proof. intros Ht. unfold calcBlockDifficulty, mbind, E_bind, the_header. cbn [obind]. by rewrite Ht. Qed.
End engine.

(** ** Properties *)

(** C22: the order of the miners decides between their blocks. Two miners with
    tickets at the same parent get places in the same order of owners, by the
    distances of their tickets from the parent; the places differ, each difficulty is
    positive, and the miner who comes first has the greater difficulty. What the
    engine returns with it, and keeps in the header, are the ticket at the place and
    the first seven tickets before it. *)
Theorem first_miner_has_greater_difficulty `{SP : StateParams} `{JS : Json} (dt : DaTong) (chain : ChainReader)
    (parent : Header) (pos : Hash) (n : Z) (ts : TicketsDataSlice) (a b a' b' : env) :
  h_selectedTicket (e_header a) = None → h_selectedTicket (e_header b) = None →
  getAllTickets dt chain parent a = Done (inl ts, a') → getAllTickets dt chain parent b = Done (inl ts, b') →
  tickets_fit ts → posHash parent = Done pos → h_Number parent = Some n →
  h_Coinbase (e_header a) ∈ map Owner ts → h_Coinbase (e_header b) ∈ map Owner ts →
  h_Coinbase (e_header a) ≠ h_Coinbase (e_header b) →
  ∃ pa da pb db difa difb,
    placed (h_Coinbase (e_header a)) (order_of pos (bigUint64 n) ts) pa da ∧
    placed (h_Coinbase (e_header b)) (order_of pos (bigUint64 n) ts) pb db ∧
    calcBlockDifficulty dt chain parent a =
      Done (inl (Some difa, di_tk da, Z.of_nat (length pa), take 7 (map di_tk pa)),
            mkEnv (set_selected (Some (di_tk da)) (take 7 (map di_tk pa)) (e_header a)) (e_cache a')) ∧
    calcBlockDifficulty dt chain parent b =
      Done (inl (Some difb, di_tk db, Z.of_nat (length pb), take 7 (map di_tk pb)),
            mkEnv (set_selected (Some (di_tk db)) (take 7 (map di_tk pb)) (e_header b)) (e_cache b')) ∧
    length pa ≠ length pb ∧ 0 < difa ∧ 0 < difb ∧ ((length pa < length pb)%nat ↔ difb < difa).
Proof.
  intros Ha Hb Hga Hgb Hfit Hpos Hn Hina Hinb Hne. assert (Hle : NumberOfOwners ts <= NumberOfTickets ts) by exact (owners_le_tickets ts (proj1 Hfit)).
  destruct (calcBlockDifficulty_fresh dt chain parent pos n ts a a') as (pa & da & Hpa & Hka & Hca); [done..|].
  destruct (calcBlockDifficulty_fresh dt chain parent pos n ts b b') as (pb & db & Hpb & Hkb & Hcb); [done..|].
  assert (Hdiff : length pa ≠ length pb).
  { intros E. apply Hne. destruct Hpa as [[xa Ea] <- _], Hpb as [[xb Eb] <- _].
    rewrite Ea in Eb. by apply app_inj_1 in Eb as [_ [= -> _]]. }
  do 6 eexists. split; [exact Hpa|]. split; [exact Hpb|]. split; [exact Hca|]. split; [exact Hcb|]. split; [exact Hdiff|].
  pose proof (order_difficulty_decreases (NumberOfTickets ts) (NumberOfOwners ts)) as Hdec. destruct Hfit as [_ Hfit].
  destruct (Nat.lt_ge_cases (length pa) (length pb)).
  - pose proof (Hdec (Z.of_nat (length pa)) (Z.of_nat (length pb)) ltac:(lia) ltac:(lia) ltac:(lia)). lia.
  - pose proof (Hdec (Z.of_nat (length pb)) (Z.of_nat (length pa)) ltac:(lia) ltac:(lia) ltac:(lia)). lia.
Qed.
