(* ===== verification/DatongSeal.v ===== *)
(** * Honest blocks are accepted

    A block that a miner prepares, finalizes and seals passes the verification of
    every node that has the parent, from the moment the miner releases it. *)

From stdpp Require Import base list gmap strings sorting.
From Stdlib Require Import ZArith Lia.
From S2P Require Import Prelude Bytes Keccak KeccakFacts TimeLock Ticket FsnTypes Rlp RlpFacts Codec CallParams.
From S2P Require Import StateDB StateRecords StateTransition Hex Header Snapshot Receipt Transaction Block Datong.
From S2P Require Import DatongFacts DatongOrder.

Lemma E_bind_ok {A B} (m : E A) (k : A → E B) e a e1 : m e = Done (inl a, e1) → (m ≫= k) e = k a e1.
Proof. intros H. unfold mbind, E_bind. by rewrite H. Qed.
Lemma E_bind_header {B} (k : Header → E B) e : (the_header ≫= k) e = k (e_header e) e.
Proof. done. Qed.
Lemma E_bind_ptr {A B} (a : A) (k : A → E B) e : (e_lift (ptr (Some a)) ≫= k) e = k a e.
Proof. done. Qed.
Lemma E_bind_try {A B} (o : outcome (A + error)) (k : A → E B) e a : o = Done (inl a) → (e_try o ≫= k) e = k a e.
Proof. intros ->. done. Qed.
Lemma E_bind_check {B} (o : outcome (option error)) (k : unit → E B) e : o = Done None → (e_check o ≫= k) e = k tt e.
Proof. intros ->. done. Qed.

(** No hash is computed in these proofs. *)
#[local] Opaque Reference.keccak256 keccak rlpHash.

(** Only the first place counts. *)
Lemma placed_unique c order pre d pre' d' :
  placed c order pre d → placed c order pre' d' → pre = pre' ∧ d = d'.
Proof.
  intros [[post ->] Ho Hb] [[post' E] Ho' Hb']. revert pre' E Hb'. induction Hb as [|x pre Hx _ IH]; intros pre' E Hb'.
  - destruct Hb' as [|y pre' Hy _]; [by injection E as -> _|]. injection E as -> _. done.
  - destruct Hb' as [|y pre' Hy Hb']; [injection E as -> _; done|]. injection E as -> E.
    destruct (IH pre' E Hb') as [-> ->]. done.
Qed.

Section seal.
Context `{SP : StateParams} `{CU : Curve} `{JS : Json}.
Context (dt : DaTong) (chain : ChainReader).

(** The tickets that a node with this cache finds at a block. *)
Definition tickets_at (block : Header) (cache : CachedTicketSlice) (ts : TicketsDataSlice)
    (cache' : CachedTicketSlice) : Prop :=
  ∀ h, getAllTickets dt chain block (mkEnv h cache) = Done (inl ts, mkEnv h cache').

(** A parent as the chain has it. *)
Record parent_ok (parent : Header) (n tp : Z) (pos : Hash) : Prop := {
  po_number : h_Number parent = Some n;
  po_range : 0 <= n < two64 - 1;
  po_time : h_Time parent = Some tp;
  po_time_range : 0 <= tp < 2 ^ 32;
  po_pos : posHash parent = Done pos;
  po_chain : GetHeader chain (header_Hash parent) n = Some parent;
}.

(** A ticket that a block of this number and time may use. *)
Definition usable (n t : Z) (b : TicketBody) : Prop :=
  tk_Height b <= n ∧ 0 <= tk_StartTime b ∧ tk_StartTime b + 30 * 24 * 3600 <= tk_ExpireTime b < two64 ∧
  t <= tk_ExpireTime b.

Definition few_tickets (ts : TicketsDataSlice) : Prop := wf_tickets ts ∧ NumberOfTickets ts < 2 ^ 31.

(** The times of a block at place [k]. *)
Definition in_time (k tp t : Z) : Prop :=
  MinBlockTime <= t - tp ∧ (0 < k → maxBlockTime + Period dt <= t - tp ∨ Period dt + k * 15 <= t - tp).

(** A header that says what it should, with the difficulty [diff]. *)
Record made (parent : Header) (n tp : Z) (pos : Hash) (ts : TicketsDataSlice) (pre : list DisInfo)
    (d : DisInfo) (t diff : Z) (h : Header) : Prop := {
  md_number : h_Number h = Some (n + 1);
  md_parent : h_ParentHash h = header_Hash parent;
  md_coinbase : h_Coinbase h ≠ 0;
  md_uncle : h_UncleHash h = EmptyUncleHash;
  md_time : h_Time h = Some t;
  md_in_time : in_time (Z.of_nat (length pre)) tp t;
  md_range : t < 2 ^ 33;
  md_placed : placed (h_Coinbase h) (order_of pos n ts) pre d;
  md_nonce : h_Nonce h = EncodeNonce (Z.of_nat (length pre));
  md_difficulty : h_Difficulty h = Some diff;
  md_usable : usable n t (tk_Body (di_tk d));
  md_extra : ∃ vanity logs number seal,
    h_Extra h = vanity ++ snapshot_Bytes (mkSnapshot logs number) ++ seal ∧
    length vanity = extraVanity ∧ length seal = extraSeal ∧ Forall log_ok logs ∧
    head logs = Some (mkTicketLog (tk_ID (tk_Body (di_tk d))) ticketSelect);
}.

Context (Hperiod : 0 <= Period dt < 2 ^ 31).

Lemma maxDelay_ok : maxDelaySeconds dt = maxBlockTime + Period dt.
Proof.
  unfold maxDelaySeconds, maxBlockTime. rewrite u64_id by (unfold is_u64, two64; lia). apply i64_id. lia.
Qed.
Lemma expectTime_ok k : 0 <= k < 2 ^ 31 → expectTime dt k = Period dt + k * 15.
Proof.
  intros Hk. unfold expectTime, delayTimeModifier.
  rewrite !u64_id by (rewrite ?u64_id; unfold is_u64, two64; lia). apply i64_id. lia.
Qed.

Lemma place_bound c pos n ts pre d : few_tickets ts → placed c (order_of pos n ts) pre d →
  0 <= Z.of_nat (length pre) < 2 ^ 31.
Proof.
  intros [Hwf Hn] [[post Ho] _ _]. pose proof (owners_le_tickets ts Hwf).
  pose proof (Permutation_length (order_of_perm pos n ts)) as Hl.
  rewrite Ho, length_app, length_map in Hl. cbn [length] in Hl. lia.
Qed.

Lemma recv_time t tp : 0 <= tp < 2 ^ 32 → tp <= t < 2 ^ 33 → i64 (bigInt64 t - bigInt64 tp) = t - tp.
Proof. intros Htp Ht. rewrite !bigInt64_id by lia. apply i64_id. lia. Qed.

Lemma getParent_ok parent n tp pos h :
  parent_ok parent n tp pos → h_Number h = Some (n + 1) → h_ParentHash h = header_Hash parent →
  getParent chain h [] = Done (inl parent).
Proof.
  intros [Hn Hr _ _ _ Hc] Hh Hp. unfold getParent. rewrite Hh. cbn [ptr obind last].
  rewrite bigUint64_id by (unfold is_u64 in *; lia). replace (n + 1 - 1) with n by lia.
  rewrite (u64_id n) by (unfold is_u64; lia). rewrite Hp, Hc, Hn. cbn [ptr obind].
  rewrite bigUint64_id, !Z.eqb_refl by (unfold is_u64; lia). done.
Qed.

Lemma checkBlockTime_ok parent n tp pos ts pre d t diff h :
  parent_ok parent n tp pos → few_tickets ts → made parent n tp pos ts pre d t diff h →
  checkBlockTime dt h parent = Done None.
Proof.
  intros [_ _ Ht Htr _ _] Hts [_ _ _ _ Hht [Hmin Hin] Hrange Hpl Hnc _ _ _].
  pose proof (place_bound _ _ _ _ _ _ Hts Hpl) as Hk. unfold checkBlockTime.
  rewrite Hnc, Nonce_roundtrip by (unfold is_u64, two64; lia).
  destruct (Z.leb_spec (Z.of_nat (length pre)) 0); [done|]. rewrite Hht, Ht. cbn [ptr obind].
  unfold MinBlockTime in Hmin. rewrite recv_time, maxDelay_ok, expectTime_ok by lia.
  destruct (Hin ltac:(lia));
    destruct (Z.ltb_spec (t - tp) (maxBlockTime + Period dt)), (Z.ltb_spec (t - tp) (Period dt + Z.of_nat (length pre) * 15));
    cbn [andb]; done || lia.
Qed.

Lemma checkTicketInfo_ok n t h tk :
  h_Number h = Some (n + 1) → h_Time h = Some t → is_u64 t → usable n t (tk_Body tk) →
  checkTicketInfo h tk = Done None.
Proof.
  intros Hn Ht Hu (H1 & H2 & H3 & H4). unfold checkTicketInfo. rewrite Hn, Ht. cbn [ptr obind].
  pose proof (bigCmp_lt (BlockHeight (tk_Body tk)) (n + 1)) as Hlt. unfold BlockHeight in *.
  destruct (Z.leb_spec 0 (bigCmp (tk_Height (tk_Body tk)) (n + 1))); [lia|].
  rewrite (u64_id (_ + _)) by (unfold is_u64; lia). rewrite bigUint64_id by done.
  destruct (Z.leb_spec (tk_ExpireTime (tk_Body tk)) (tk_StartTime (tk_Body tk))); [lia|].
  destruct (Z.ltb_spec (tk_ExpireTime (tk_Body tk)) (tk_StartTime (tk_Body tk) + 30 * 24 * 3600)); [lia|].
  destruct (Z.ltb_spec (tk_ExpireTime (tk_Body tk)) t); [lia|]. done.
Qed.

Lemma vote_ok h vanity logs number seal id :
  h_Extra h = vanity ++ snapshot_Bytes (mkSnapshot logs number) ++ seal →
  length vanity = extraVanity → length seal = extraSeal → Forall log_ok logs →
  head logs = Some (mkTicketLog id ticketSelect) →
  ∃ snap, newSnapshotWithData (getSnapDataByHeader h) = Done (inl snap) ∧ GetVoteTicket snap = id.
Proof.
  intros He Hv Hs Hl Hh. unfold newSnapshotWithData, getSnapDataByHeader.
  rewrite He, getSnapData_sealed, SetBytes_Bytes by done. cbn [obind]. eexists. split; [done|].
  unfold GetVoteTicket. cbn [snap_logs]. destruct logs as [|l logs]; [done|]. injection Hh as ->. done.
Qed.

Lemma bigCmp_eqb a b : (bigCmp a b =? 0) = (a =? b).
Proof.
  pose proof (bigCmp_eq a b). destruct (Z.eqb_spec (bigCmp a b) 0), (Z.eqb_spec a b); tauto || reflexivity.
Qed.

(** The difficulty at a place. *)
Definition place_difficulty (ts : TicketsDataSlice) (pre : list DisInfo) : Z :=
  order_difficulty (NumberOfTickets ts) (NumberOfOwners ts) (Z.of_nat (length pre)).

(** All but the difficulty of such a header is right. *)
Definition verdict (ts : TicketsDataSlice) (pre : list DisInfo) (diff : Z) : unit + error :=
  if place_difficulty ts pre =? diff then inl tt else inr difficultyMismatch.

Lemma verifySeal_ok parent n tp pos ts pre d t diff cache cache' h :
  parent_ok parent n tp pos → few_tickets ts → tickets_at parent cache ts cache' →
  made parent n tp pos ts pre d t diff h → h_selectedTicket h = None →
  verifySeal dt chain parent (mkEnv h cache) =
    Done (verdict ts pre diff, mkEnv (set_selected (Some (di_tk d)) (take 7 (map di_tk pre)) h) cache').
Proof.
  intros Hp Hts Hat Hmd Hsel. pose proof Hp as [Hn Hr Ht Htr Hpos Hc].
  pose proof Hmd as [Hhn Hhp Hhc Hhu Hht [Hmin Hin] Hrange Hpl Hnc Hdf Hus (vanity & logs & number & seal & He & Hv & Hs & Hl & Hh)].
  destruct Hts as [Hwf Hlt].
  destruct (calcBlockDifficulty_fresh dt chain parent pos n ts (mkEnv h cache) (mkEnv h cache'))
    as (pre' & d' & Hpl' & Hk & Hcalc); [exact Hsel|exact (Hat h)|split; [done|lia]|exact Hpos|exact Hn|..].
  { destruct Hpl as [[post Ho] Hd _]. cbn [e_header]. rewrite <- Hd, <- order_owners, Ho.
    apply list_elem_of_In, in_map_iff. exists d. split; [reflexivity|]. apply in_elt. }
  rewrite (bigUint64_id n) in Hpl' by (unfold is_u64; lia).
  destruct (placed_unique _ _ _ _ _ _ Hpl' Hpl) as [-> ->]. cbn [e_header e_cache] in Hcalc.
  destruct (vote_ok h vanity logs number seal _ He Hv Hs Hl Hh) as (snap & Hsnap & Hvote).
  unfold verifySeal. rewrite E_bind_header. cbn [e_header]. rewrite (E_bind_try _ _ _ _ Hsnap). cbv zeta.
  rewrite (E_bind_ok _ _ _ _ _ Hcalc). cbv beta iota zeta.
  rewrite (pl_owner _ _ _ _ Hpl), Z.eqb_refl, Hvote, Z.eqb_refl. cbn [negb].
  unfold MinBlockTime in Hmin.
  rewrite E_bind_check by (apply (checkTicketInfo_ok n t); [exact Hhn|exact Hht|unfold is_u64, two64; lia|exact Hus]).
  rewrite bool_decide_eq_true_2 by done. cbn [negb]. rewrite E_bind_ptr.
  rewrite Hdf, E_bind_ptr.
  fold (place_difficulty ts pre). unfold verdict. rewrite bigCmp_eqb.
  destruct (place_difficulty ts pre =? diff); reflexivity.
Qed.

(** The fields that are verified before the seal. *)
Record plausible (parent : Header) (n tp t : Z) (h : Header) : Prop := {
  pb_number : h_Number h = Some (n + 1);
  pb_parent : h_ParentHash h = header_Hash parent;
  pb_coinbase : h_Coinbase h ≠ 0;
  pb_uncle : h_UncleHash h = EmptyUncleHash;
  pb_time : h_Time h = Some t;
  pb_min : MinBlockTime <= t - tp;
  pb_range : t < 2 ^ 33;
  pb_extra : (extraVanity + extraSeal <= length (h_Extra h))%nat;
  pb_block_time : checkBlockTime dt h parent = Done None;
}.

(** Of a header with these fields, signed by its coinbase and not from the future,
    only the seal is left to verify. *)
Lemma verifyHeader_plausible parent n tp pos t cache h now :
  parent_ok parent n tp pos → plausible parent n tp t h →
  recoverSigner h = Done (inl (h_Coinbase h)) → t <= now →
  verifyHeader dt chain now [] (mkEnv h cache) = verifySeal dt chain parent (mkEnv h cache).
Proof.
  intros Hp [Hhn Hhp Hhc Hhu Hht Hmin Hrange Hlen Hbt] Hsig Hnow. pose proof Hp as [Hn Hr Ht Htr Hpos Hc].
  unfold verifyHeader. rewrite E_bind_header. cbn [e_header]. rewrite Hhn.
  destruct (Z.eqb_spec (bigSign (n + 1)) 0) as [E|_]; [unfold bigSign in E; apply Z.sgn_null_iff in E; lia|].
  destruct (Z.eqb_spec (h_Coinbase h) 0) as [E|_]; [case (Hhc E)|].
  destruct (Nat.ltb_spec (length (h_Extra h)) extraVanity); [lia|].
  destruct (Nat.ltb_spec (length (h_Extra h)) (extraVanity + extraSeal)); [lia|].
  rewrite Hhu, Z.eqb_refl. cbn [negb]. rewrite Hht, E_bind_ptr.
  destruct (Z.ltb_spec 0 (bigCmp t now)) as [Hgt|_]; [apply (proj1 (bigCmp_gt t now)) in Hgt; lia|].
  rewrite (E_bind_try _ _ _ _ (getParent_ok parent n tp pos h Hp Hhn Hhp)).
  unfold MinBlockTime in Hmin. rewrite Ht, E_bind_ptr, recv_time by lia.
  unfold MinBlockTime. destruct (Z.ltb_spec (t - tp) 7); [lia|].
  rewrite (E_bind_try _ _ _ _ Hsig), Z.eqb_refl. cbn [negb].
  rewrite E_bind_check by (exact Hbt). reflexivity.
Qed.

Lemma verifyHeader_seal parent n tp pos ts pre d t diff cache h now :
  parent_ok parent n tp pos → few_tickets ts → made parent n tp pos ts pre d t diff h →
  recoverSigner h = Done (inl (h_Coinbase h)) → t <= now →
  verifyHeader dt chain now [] (mkEnv h cache) = verifySeal dt chain parent (mkEnv h cache).
Proof.
  intros Hp Hts Hmd Hsig Hnow.
  pose proof Hmd as [Hhn Hhp Hhc Hhu Hht [Hmin Hin] Hrange Hpl Hnc Hdf Hus (vanity & logs & number & seal & He & Hv & Hs & Hl & Hh)].
  apply (verifyHeader_plausible parent n tp pos t); [exact Hp| |exact Hsig|exact Hnow].
  split; [exact Hhn|exact Hhp|exact Hhc|exact Hhu|exact Hht|exact Hmin|exact Hrange|rewrite He, !length_app; lia|].
  exact (checkBlockTime_ok parent n tp pos ts pre d t diff h Hp Hts Hmd).
Qed.

(** Such a header is judged by its difficulty. *)
Lemma verifyHeader_ok parent n tp pos ts pre d t diff cache cache' h now :
  parent_ok parent n tp pos → few_tickets ts → tickets_at parent cache ts cache' →
  made parent n tp pos ts pre d t diff h → h_selectedTicket h = None →
  recoverSigner h = Done (inl (h_Coinbase h)) → t <= now →
  verifyHeader dt chain now [] (mkEnv h cache) =
    Done (verdict ts pre diff, mkEnv (set_selected (Some (di_tk d)) (take 7 (map di_tk pre)) h) cache').
Proof.
  intros Hp Hts Hat Hmd Hsel Hsig Hnow.
  rewrite (verifyHeader_seal parent n tp pos ts pre d t diff) by assumption.
  exact (verifySeal_ok parent n tp pos ts pre d t diff cache cache' h Hp Hts Hat Hmd Hsel).
Qed.

(** The place of a block that the engine keeps in the header changes nothing that
    is verified. *)
Lemma made_selected parent n tp pos ts pre d t diff sel retreat h :
  made parent n tp pos ts pre d t diff h → made parent n tp pos ts pre d t diff (set_selected sel retreat h).
Proof. intros [H1 H2 H3 H4 H5 H6 H7 H8 H9 H10 H11 H12]. exact (Build_made _ _ _ _ _ _ _ _ _ (set_selected sel retreat h) H1 H2 H3 H4 H5 H6 H7 H8 H9 H10 H11 H12). Qed.

Lemma recoverSigner_selected sel retreat h : recoverSigner (set_selected sel retreat h) = recoverSigner h.
Proof. destruct h. reflexivity. Qed.

(** Once the engine has kept it, the header is compared with itself. *)
Lemma verifySeal_again parent n tp pos ts pre d t diff cache h :
  parent_ok parent n tp pos → few_tickets ts → made parent n tp pos ts pre d t diff h →
  h_selectedTicket h = Some (di_tk d) →
  verifySeal dt chain parent (mkEnv h cache) = Done (inl tt, mkEnv h cache).
Proof.
  intros Hp Hts [Hhn Hhp Hhc Hhu Hht [Hmin Hin] Hrange Hpl Hnc Hdf Hus (vanity & logs & number & seal & He & Hv & Hs & Hl & Hh)] Hsel.
  pose proof (place_bound _ _ _ _ _ _ Hts Hpl) as Hk. pose proof (po_time_range _ _ _ _ Hp) as Htr.
  destruct (vote_ok h vanity logs number seal _ He Hv Hs Hl Hh) as (snap & Hsnap & Hvote).
  unfold verifySeal. rewrite E_bind_header. cbn [e_header]. rewrite (E_bind_try _ _ _ _ Hsnap). cbv zeta.
  rewrite (E_bind_ok _ _ _ _ _ (calcBlockDifficulty_cached dt chain parent (mkEnv h cache) _ Hsel)). cbv beta iota zeta.
  cbn [e_header]. rewrite (pl_owner _ _ _ _ Hpl), Z.eqb_refl, Hvote, Z.eqb_refl. cbn [negb]. unfold MinBlockTime in Hmin.
  rewrite E_bind_check by (apply (checkTicketInfo_ok n t); [exact Hhn|exact Hht|unfold is_u64, two64; lia|exact Hus]).
  rewrite Hnc, Nonce_roundtrip by (unfold is_u64, two64; lia).
  rewrite bool_decide_eq_true_2 by reflexivity. cbn [negb]. rewrite Hdf, !E_bind_ptr, bigCmp_eqb, Z.eqb_refl. reflexivity.
Qed.

(** ** The miner *)

Lemma set_Time_same h : set_Time (h_Time h) h = h.
Proof. by destruct h. Qed.

Definition prepared (pre : list DisInfo) (d : DisInfo) (ts : TicketsDataSlice) (t : Z) (h : Header) : Header :=
  let k := Z.of_nat (length pre) in
  set_Time (Some t)
    (set_order (Some (order_difficulty (NumberOfTickets ts) (NumberOfOwners ts) k)) (EncodeNonce k)
       (set_selected (Some (di_tk d)) (take 7 (map di_tk pre)) (set_Extra (prepare_extra (h_Extra h)) h))).

Lemma Prepare_ok parent n tp pos ts cache cache' h t0 :
  parent_ok parent n tp pos → few_tickets ts → tickets_at parent cache ts cache' →
  h_selectedTicket h = None → h_Number h = Some (n + 1) → h_ParentHash h = header_Hash parent →
  h_Time h = Some t0 → tp + MinBlockTime <= t0 < 2 ^ 32 → h_Coinbase h ∈ map Owner ts →
  ∃ pre d t, placed (h_Coinbase h) (order_of pos n ts) pre d ∧
    in_time (Z.of_nat (length pre)) tp t ∧ t <= Z.max t0 (tp + maxBlockTime + Period dt) ∧
    Prepare dt chain (mkEnv h cache) = Done (inl tt, mkEnv (prepared pre d ts t h) cache').
Proof.
  intros Hp Hts Hat Hsel Hhn Hhp Hht Ht0 Hin. pose proof Hp as [Hn Hr Ht Htr Hpos Hc]. unfold MinBlockTime in Ht0.
  set (h' := set_Extra (prepare_extra (h_Extra h)) h).
  destruct (calcBlockDifficulty_fresh dt chain parent pos n ts (mkEnv h' cache) (mkEnv h' cache'))
    as (pre & d & Hpl & Hk & Hcalc);
    [exact Hsel|exact (Hat h')|destruct Hts; split; [done|lia]|exact Hpos|exact Hn|exact Hin|].
  rewrite (bigUint64_id n) in Hpl by (unfold is_u64; lia). cbn [e_header e_cache] in Hcalc, Hpl.
  change (h_Coinbase h') with (h_Coinbase h) in Hpl. pose proof (place_bound _ _ _ _ _ _ Hts Hpl) as Hkb.
  exists pre, d. unfold Prepare. set (k := Z.of_nat (length pre)) in *.
  rewrite E_bind_header. cbn [e_header]. rewrite Hhn, E_bind_ptr, (bigUint64_id (n + 1)) by (unfold is_u64; lia).
  replace (n + 1 - 1) with n by lia. rewrite (u64_id n) by (unfold is_u64; lia). rewrite Hhp, Hc.
  rewrite (E_bind_ok _ _ _ tt (mkEnv h' cache)) by reflexivity.
  rewrite (E_bind_ok _ _ _ _ _ Hcalc). cbv beta iota zeta.
  set (h1 := set_selected (Some (di_tk d)) (take 7 (map di_tk pre)) h') in *.
  set (diff := order_difficulty (NumberOfTickets ts) (NumberOfOwners ts) k).
  rewrite (E_bind_ok _ _ _ tt (mkEnv (set_order (Some diff) (EncodeNonce k) h1) cache')) by reflexivity.
  assert (Hkeep : set_order (Some diff) (EncodeNonce k) h1 = prepared pre d ts t0 h).
  { unfold prepared. fold k diff h' h1. rewrite <- Hht. by destruct h. }
  assert (Hstay : in_time k tp t0 → ∃ t, placed (h_Coinbase h) (order_of pos n ts) pre d ∧ in_time k tp t ∧
    t <= Z.max t0 (tp + maxBlockTime + Period dt) ∧
    (mret tt : E unit) (mkEnv (set_order (Some diff) (EncodeNonce k) h1) cache') = Done (inl tt, mkEnv (prepared pre d ts t h) cache')).
  { intros Hit. exists t0. split; [done|]. split; [done|]. split; [lia|]. rewrite Hkeep. reflexivity. }
  unfold in_time, MinBlockTime, maxBlockTime in *.
  destruct (Z.ltb_spec 0 k) as [Hk0|Hk0]; [|apply Hstay; lia].
  rewrite Hht, Ht, !E_bind_ptr, recv_time, maxDelay_ok, expectTime_ok by lia. unfold maxBlockTime.
  destruct (Z.ltb_spec (t0 - tp) (600 + Period dt)), (Z.ltb_spec (t0 - tp) (Period dt + k * 15)); cbn [andb];
    try (apply Hstay; lia).
  set (ex := if _ <? _ then _ else _).
  assert (Hex : ex = Z.min (Period dt + k * 15) (600 + Period dt)) by (unfold ex; zcase).
  exists (tp + ex). split; [done|]. split; [lia|]. split; [lia|].
  unfold set_the_header. cbn [e_header e_cache]. rewrite (bigInt64_id tp), i64_id by lia. reflexivity.
Qed.

(** ** Finalizing leaves the snapshot in the header *)

Lemma M_bind_inv {A B} (m : M A) (k : A → M B) s r :
  (m ≫= k) s = Done r → ∃ a s1, m s = Done (a, s1) ∧ k a s1 = Done r.
Proof.
  unfold mbind, M_bind. destruct (m s) as [[a s1]| |]; cbn [obind]; [|done|done]. intros H. by exists a, s1.
Qed.
Lemma M_ret_inv {A} (a : A) s r : (mret a : M A) s = Done r → r = (a, s).
Proof. by intros [= <-]. Qed.

Definition used_log (typ : Z) (t : Ticket) : ticketLog := mkTicketLog (tk_ID (tk_Body t)) typ.

Lemma deleteTicket_inv h t typ b snap s snap' s' :
  deleteTicket h t typ b snap s = Done (snap', s') → snap' = snapshot_AddLog (used_log typ t) snap.
Proof.
  unfold deleteTicket. intros (e & s1 & _ & H)%M_bind_inv. cbv zeta in H.
  apply M_bind_inv in H as (u & s2 & _ & H). by apply M_ret_inv in H as [= -> _].
Qed.

Lemma deleteRetreat_inv h retreat : ∀ i snap s snap' s',
  deleteRetreat h i retreat snap s = Done (snap', s') →
  snap' = mkSnapshot (snap_logs snap ++ map (used_log ticketRetreat) retreat) (ticketNumber snap).
Proof.
  induction retreat as [|t retreat IH]; intros i snap s snap' s'; cbn [deleteRetreat map].
  - intros [= <- <-]. rewrite app_nil_r. by destruct snap.
  - intros (sn & s1 & H1 & H2)%M_bind_inv. apply deleteTicket_inv in H1 as ->. apply IH in H2 as ->.
    cbn [snapshot_AddLog snap_logs ticketNumber]. by rewrite <- app_assoc.
Qed.

Definition with_snapshot (logs : list ticketLog) (number : Z) (hash : Hash) (h : Header) : Header :=
  set_Extra (take extraVanity (h_Extra h) ++ snapshot_Bytes (mkSnapshot logs number) ++ replicate extraSeal 0)
    (set_MixDigest hash h).

Lemma finalizeState_inv parents h sel s h2 s' :
  h_selectedTicket h = Some sel → h_MixDigest h = 0 →
  finalizeState dt chain parents h s = Done ((inl tt, h2), s') →
  (extraVanity <= length (h_Extra h))%nat ∧ ∃ number hash,
    h2 = with_snapshot (used_log ticketSelect sel :: map (used_log ticketRetreat) (h_retreatTickets h)) number hash h.
Proof.
  intros Hsel Hmix. unfold finalizeState. intros (p & s1 & _ & H)%M_bind_inv.
  destruct p as [parent|err]; [|by apply M_ret_inv in H].
  apply M_bind_inv in H as ([chosen h0] & s2 & Hfin & H). unfold finalTickets in Hfin. rewrite Hsel in Hfin.
  apply M_ret_inv in Hfin as [= -> -> ->]. cbv beta iota zeta in H.
  apply M_bind_inv in H as ([ts|err] & s3 & _ & H); [|by apply M_ret_inv in H].
  destruct (_ <=? 1); [by apply M_ret_inv in H|].
  apply M_bind_inv in H as (sn1 & s4 & Hd1 & H). apply deleteTicket_inv in Hd1 as ->.
  apply M_bind_inv in H as (sn2 & s5 & Hd2 & H). apply deleteRetreat_inv in Hd2 as ->.
  apply M_bind_inv in H as (ptime & s6 & _ & H). apply M_bind_inv in H as ([hash|err] & s7 & _ & H); [|by apply M_ret_inv in H].
  rewrite Hmix in H. cbn [Z.eqb negb andb] in H. apply M_bind_inv in H as (number & s8 & _ & H).
  cbv zeta in H. destruct (Nat.ltb_spec (length (h_Extra (set_MixDigest hash h))) extraVanity) as [|Hle]; [done|].
  apply M_bind_inv in H as (num & s9 & _ & H). apply M_bind_inv in H as (u & s10 & _ & H).
  apply M_ret_inv, (f_equal (fun r => r.1.2)) in H. cbn [fst snd] in H.
  split; [exact Hle|]. exists number, hash. exact H.
Qed.

Lemma NewBlock_header h txs receipts b :
  NewBlock h txs [] receipts = Done b →
  ∃ tx receipt bloom, b_header b = set_body tx receipt bloom EmptyUncleHash (CopyHeader h).
Proof.
  unfold NewBlock. destruct (match txs with [] => _ | _ => _ end) as [tx| |]; cbn [obind]; [|done|done].
  destruct (match receipts with [] => _ | _ => _ end) as [[receipt bloom]| |]; cbn [obind]; [|done|done].
  intros [= <-]. by exists tx, receipt, bloom.
Qed.

Lemma Finalize_inv parents h sel txs receipts s b h2 s' :
  h_selectedTicket h = Some sel → h_MixDigest h = 0 →
  Finalize dt chain parents h txs receipts s = Done ((inl b, h2), s') →
  (extraVanity <= length (h_Extra h))%nat ∧ ∃ number hash root tx receipt bloom,
    b_header b = set_body tx receipt bloom EmptyUncleHash (CopyHeader (set_HeaderRoot root
      (with_snapshot (used_log ticketSelect sel :: map (used_log ticketRetreat) (h_retreatTickets h)) number hash h))).
Proof.
  intros Hsel Hmix. unfold Finalize. intros ([res h1] & s1 & Hst & H)%M_bind_inv. cbv beta iota zeta in H.
  destruct res as [[]|err]; [|by apply M_ret_inv in H].
  destruct (finalizeState_inv parents h sel s h1 s1 Hsel Hmix Hst) as (Hle & number & hash & ->). split; [done|].
  apply M_bind_inv in H as (num & s2 & _ & H). apply M_bind_inv in H as (root & s3 & _ & H). cbv zeta in H.
  apply M_bind_inv in H as (b' & s4 & Hb & H). apply M_ret_inv in H as [= <- _ _].
  unfold lift in Hb. destruct (NewBlock _ _ _ _) as [b0| |] eqn:En; cbn [obind] in Hb; [|done|done].
  injection Hb as -> _. destruct (NewBlock_header _ _ _ _ En) as (tx & receipt & bloom & ->).
  by exists number, hash, root, tx, receipt, bloom.
Qed.

(** ** Sealing *)

(** The headers of the chain by number, with their times. *)
Definition chain_known (n : Z) : Prop :=
  ∀ m, 0 <= m <= n → ∃ g tg, GetHeaderByNumber chain m = Some g ∧ h_Time g = Some tg ∧ 0 <= tg < 2 ^ 32.

Lemma time_Sub_exact a b : 0 <= a < 2 ^ 63 → 0 <= b < 2 ^ 63 → time_Sub a b = a - b.
Proof. intros Ha Hb. unfold time_Sub. lia. Qed.

(** The first in the order: the end of the wait before the adjustment. *)
Lemma first_end t now : 4 <= Period dt < 2 ^ 20 → 0 <= t < 2 ^ 33 - 2 ^ 21 → 0 <= now < 2 ^ 62 →
  let endTime := t + u64 (u64 (u64 (0 * delayTimeModifier) + Period dt) - 2) in
  ∃ e, Period dt - 2 <= e < 2 ^ 21 ∧
    (if maxBlockTime <? bigUint64 (endTime - t)
     then time_Sub (bigInt64 (t + u64 (u64 (u64 (maxBlockTime + Period dt) - 2) + 0)) * second) now
     else time_Sub (bigInt64 endTime * second) now) = (t + e) * second - now.
Proof.
  intros HP Ht Hnow. change (u64 (0 * delayTimeModifier)) with 0. rewrite Z.add_0_l. unfold maxBlockTime, second.
  rewrite (u64_id (Period dt)), (u64_id (Period dt - 2)), (u64_id (600 + Period dt)),
    (u64_id (600 + Period dt - 2)), Z.add_0_r, (u64_id (600 + Period dt - 2)) by (unfold is_u64, two64; lia). cbv zeta.
  replace (t + (Period dt - 2) - t) with (Period dt - 2) by lia.
  rewrite (bigUint64_id (Period dt - 2)) by (unfold is_u64, two64; lia).
  destruct (Z.ltb_spec 600 (Period dt - 2)).
  - exists (600 + Period dt - 2). split; [lia|]. by rewrite bigInt64_id, time_Sub_exact by lia.
  - exists (Period dt - 2). split; [lia|]. by rewrite bigInt64_id, time_Sub_exact by lia.
Qed.

(** The block is held back until its time has come. *)
Lemma calcDelayTime_ok n k t now h :
  4 <= Period dt < 2 ^ 20 → chain_known n → 0 <= n < two64 - 1 → 0 <= t < 2 ^ 33 - 2 ^ 21 → 0 <= now < 2 ^ 62 →
  h_Number h = Some (n + 1) → h_Time h = Some t → h_Nonce h = EncodeNonce k → is_u64 k →
  ∃ delay, calcDelayTime dt chain now h = Done delay ∧ t * second <= now + Z.max 0 delay.
Proof.
  intros HP Hch Hn Ht Hnow Hhn Hht Hnc Hk. unfold calcDelayTime. rewrite Hht, Hhn, Hnc, Nonce_roundtrip by done.
  cbn [ptr obind]. destruct (Z.ltb_spec 0 k) as [|Hz].
  { eexists. split; [done|]. unfold second. rewrite bigInt64_id, time_Sub_exact by lia. lia. }
  assert (k = 0) as -> by (unfold is_u64 in Hk; lia).
  destruct (first_end t now HP Ht Hnow) as (e & He & E). cbv zeta in E |- *. rewrite E. clear E.
  rewrite (bigUint64_id (n + 1)) by (unfold is_u64; lia). unfold adjustIntervalBlocks.
  destruct (Z.ltb_spec (10 + 1) (n + 1)) as [Hlt|Hge]; [|eexists; split; [done|]; unfold second; lia].
  replace (n + 1 - 1) with n by lia. rewrite (u64_id n), (u64_id (n - 10)) by (unfold is_u64, two64 in *; lia).
  destruct (Hch n) as (g1 & t1 & -> & Hg1 & _); [lia|]. destruct (Hch (n - 10)) as (g2 & t2 & -> & Hg2 & _); [lia|].
  cbn [ptr obind]. rewrite Hg1, Hg2. cbn [ptr obind].
  set (adj := div0 _ 10). set (a := if _ <? adj then _ else _).
  assert (- (2 * second) <= a <= 2 * second) by (unfold a, second; clearbody adj; clear -adj; zcase).
  eexists. split; [done|]. unfold second in *. rewrite i64_id by lia. lia.
Qed.

Lemma sigHash_prefix h p s s' : length s = extraSeal → length s' = extraSeal →
  h_Extra h = p ++ s → sigHash (set_Extra (p ++ s') h) = sigHash h ∧ ∃ x, sigHash h = Done x ∧ is_hash x.
Proof.
  intros Hs Hs' He. unfold sigHash, header_rlp_values. cbn [h_Extra set_Extra]. rewrite He, !length_app, Hs, Hs'.
  destruct (Nat.ltb_spec (length p + extraSeal) extraSeal); [lia|]. rewrite !Nat.add_sub, !take_app_length.
  split; [reflexivity|]. eexists. split; [reflexivity|]. apply rlpHash_is_hash.
Qed.

(** The seal is the signature of the coinbase. *)
Lemma Seal_ok n k t now b p sign :
  4 <= Period dt < 2 ^ 20 → chain_known n → 0 <= n < two64 - 1 → 0 <= t < 2 ^ 33 - 2 ^ 21 → 0 <= now < 2 ^ 62 →
  h_Number (b_header b) = Some (n + 1) → h_Time (b_header b) = Some t → h_Nonce (b_header b) = EncodeNonce k → is_u64 k →
  dt_signer dt = h_Coinbase (b_header b) → (∀ x, dt_signFn dt (dt_signer dt) x = inl (sign x)) →
  signs_for sign (dt_signer dt) → h_Extra (b_header b) = p ++ replicate extraSeal 0 →
  ∃ seal delay, length seal = extraSeal ∧
    let h := set_Extra (p ++ seal) (CopyHeader (b_header b)) in
    Seal dt chain now b = Done (inl (WithSeal b h, delay)) ∧ t * second <= now + Z.max 0 delay ∧
    recoverSigner h = Done (inl (h_Coinbase h)).
Proof.
  intros HP Hch Hn Ht Hnow Hhn Hht Hnc Hk Hco Hfn Hsign He. unfold Seal. set (h0 := Block_Header b).
  assert (Hh0n : h_Number h0 = Some (n + 1)) by (cbn; by rewrite Hhn).
  assert (Hh0t : h_Time h0 = Some t) by (cbn; by rewrite Hht).
  destruct (calcDelayTime_ok n k t now h0 HP Hch Hn Ht Hnow Hh0n Hh0t Hnc Hk) as (delay & Hdelay & Hle).
  destruct (sigHash_prefix h0 p (replicate extraSeal 0) (replicate extraSeal 0)) as (_ & x & Hx & Hxh);
    [by rewrite length_replicate..|exact He|].
  destruct (Hsign (Hash_Bytes x)) as (Hl & _ & _ & _ & _ & pub & Hec & Hpub);
    [apply Hash_Bytes_length|apply be_bytes_are_bytes|].
  exists (sign (Hash_Bytes x)), delay. split; [exact Hl|]. cbv zeta. rewrite Hh0n. cbn [ptr obind].
  rewrite bigUint64_id by (unfold is_u64; lia). destruct (Z.eqb_spec (n + 1) 0); [lia|].
  change (h_Coinbase h0) with (h_Coinbase (b_header b)). rewrite <- Hco, Z.eqb_refl. cbn [negb].
  rewrite Hdelay. cbn [obind]. rewrite Hx. cbn [obind]. rewrite Hfn.
  change (h_Extra h0) with (h_Extra (b_header b)). rewrite He, length_app, length_replicate, Nat.add_sub.
  rewrite take_app_length, drop_app_length, take_ge, drop_ge, app_nil_r by (rewrite ?length_replicate, Hl; done).
  split; [reflexivity|]. split; [exact Hle|].
  unfold recoverSigner. change (CopyHeader (b_header b)) with h0.
  destruct (sigHash_prefix h0 p (replicate extraSeal 0) (sign (Hash_Bytes x))) as [-> _];
    [by rewrite length_replicate|exact Hl|exact He|].
  rewrite Hx. cbn [obind h_Extra set_Extra]. rewrite length_app, Hl, Nat.add_sub, drop_app_length, Hec, Hpub, Hco.
  reflexivity.
Qed.

(** ** From the new work to the sealed block *)

(** The header that a miner starts from. *)
Record new_work (parent : Header) (n tp t0 : Z) (ts : TicketsDataSlice) (h : Header) : Prop := {
  nw_number : h_Number h = Some (n + 1);
  nw_parent : h_ParentHash h = header_Hash parent;
  nw_time : h_Time h = Some t0;
  nw_min : tp + MinBlockTime <= t0 < 2 ^ 32;
  nw_fresh : h_selectedTicket h = None;
  nw_mix : h_MixDigest h = 0;
  nw_coinbase : h_Coinbase h = dt_signer dt ∧ h_Coinbase h ≠ 0;
  nw_owner : h_Coinbase h ∈ map Owner ts;
}.

(** The tickets have hashes as IDs, and those of the miner may be used until [t]. *)
Definition tickets_usable (c : Address) (n t : Z) (ts : TicketsDataSlice) : Prop :=
  ∀ v b, v ∈ ts → b ∈ Tickets v → is_hash (tk_ID b) ∧ (Owner v = c → usable n t b).

Lemma order_ticket pos n ts d : Forall (fun v => Tickets v ≠ []) ts → d ∈ order_of pos n ts →
  ∃ v, v ∈ ts ∧ Owner v = tk_Owner (di_tk d) ∧ tk_Body (di_tk d) ∈ Tickets v.
Proof.
  intros Hr Hd. rewrite order_of_perm in Hd. apply list_elem_of_In, in_map_iff in Hd as (v & <- & Hv%list_elem_of_In).
  rewrite Forall_forall in Hr. destruct (info_of_ok pos n v (Hr v Hv)) as (t & -> & Ht & _). by exists v.
Qed.

Lemma usable_mono n t t' b : t' <= t → usable n t b → usable n t' b.
Proof. unfold usable. lia. Qed.

Definition miner_logs (pre : list DisInfo) (d : DisInfo) : list ticketLog :=
  used_log ticketSelect (di_tk d) :: map (used_log ticketRetreat) (take 7 (map di_tk pre)).

Lemma miner_logs_ok c n t pos ts pre d :
  few_tickets ts → tickets_usable c n t ts → placed c (order_of pos n ts) pre d →
  Forall log_ok (miner_logs pre d) ∧ usable n t (tk_Body (di_tk d)).
Proof.
  intros [Hwf _] Hu [[post Ho] Hd _]. pose proof (wt_rows _ Hwf) as Hr.
  assert (Hid : ∀ x, x ∈ order_of pos n ts → is_hash (tk_ID (tk_Body (di_tk x)))).
  { intros x Hx. destruct (order_ticket pos n ts x Hr Hx) as (v & Hv & _ & Hb). by apply (Hu v). }
  assert (Hdin : d ∈ order_of pos n ts) by (rewrite Ho; set_solver). split.
  - constructor; [by apply Hid|]. apply Forall_map, Forall_take, Forall_map, Forall_forall. intros x Hx.
    apply Hid. rewrite Ho. set_solver.
  - destruct (order_ticket pos n ts d Hr Hdin) as (v & Hv & Ho' & Hb). apply (Hu v); [done|done|congruence].
Qed.

Lemma prepare_extra_length e : length (prepare_extra e) = (extraVanity + extraSeal)%nat.
Proof.
  unfold prepare_extra. rewrite length_app, length_take, length_app, !length_replicate. lia.
Qed.

Lemma recoverSigner_received h : recoverSigner (received h) = recoverSigner h.
Proof. reflexivity. Qed.

(** The header of the block that finalizing the prepared header gives. *)
Definition mined (pre : list DisInfo) (d : DisInfo) (ts : TicketsDataSlice) (t : Z) (h : Header)
    (number : Z) (hash root tx receipt : Hash) (bloom : bytes) : Header :=
  set_body tx receipt bloom EmptyUncleHash (CopyHeader (set_HeaderRoot root
    (with_snapshot (miner_logs pre d) number hash (prepared pre d ts t h)))).

Lemma Finalize_prepared pre d ts t h txs receipts s b h2 s' :
  h_MixDigest h = 0 → Finalize dt chain [] (prepared pre d ts t h) txs receipts s = Done ((inl b, h2), s') →
  ∃ number hash root tx receipt bloom, b_header b = mined pre d ts t h number hash root tx receipt bloom.
Proof.
  intros Hmix Hfin. destruct (Finalize_inv [] (prepared pre d ts t h) (di_tk d) txs receipts s b h2 s')
    as (_ & number & hash & root & tx & receipt & bloom & Hb); [reflexivity|exact Hmix|exact Hfin|].
  exists number, hash, root, tx, receipt, bloom. exact Hb.
Qed.

Definition mined_prefix (pre : list DisInfo) (d : DisInfo) (h : Header) (number : Z) : bytes :=
  take extraVanity (prepare_extra (h_Extra h)) ++ snapshot_Bytes (mkSnapshot (miner_logs pre d) number).

Lemma mined_fields pre d ts t h number hash root tx receipt bloom :
  let hb := mined pre d ts t h number hash root tx receipt bloom in
  h_Number hb = Some (default 0 (h_Number h)) ∧ h_Time hb = Some t ∧
  h_Nonce hb = EncodeNonce (Z.of_nat (length pre)) ∧ h_Coinbase hb = h_Coinbase h ∧
  h_Extra hb = mined_prefix pre d h number ++ replicate extraSeal 0.
Proof.
  cbv zeta. unfold mined_prefix. rewrite <- app_assoc. unfold mined, with_snapshot.
  split; [reflexivity|]. split; [reflexivity|]. split; [reflexivity|]. split; reflexivity.
Qed.

(** What is sealed is a header that says what it should. *)
Lemma sealed_made parent n tp pos ts pre d t h number hash root tx receipt bloom seal :
  few_tickets ts → h_Number h = Some (n + 1) → h_ParentHash h = header_Hash parent → h_Coinbase h ≠ 0 →
  in_time (Z.of_nat (length pre)) tp t → t < 2 ^ 33 → placed (h_Coinbase h) (order_of pos n ts) pre d →
  tickets_usable (h_Coinbase h) n t ts → length seal = extraSeal →
  made parent n tp pos ts pre d t (place_difficulty ts pre) (received (set_Extra (mined_prefix pre d h number ++ seal)
    (CopyHeader (mined pre d ts t h number hash root tx receipt bloom)))).
Proof.
  intros Hts Hhn Hhp Hhc Hin Ht Hpl Hu Hseal. destruct (miner_logs_ok _ _ _ _ _ _ _ Hts Hu Hpl) as [Hlogs Hus].
  split; [|exact Hhp|exact Hhc|reflexivity|reflexivity|exact Hin|exact Ht|exact Hpl|reflexivity|reflexivity|exact Hus|].
  - cbn. by rewrite Hhn.
  - exists (take extraVanity (prepare_extra (h_Extra h))), (miner_logs pre d), number, seal.
    split; [cbn [h_Extra received set_selected set_Extra]; unfold mined_prefix; by rewrite <- app_assoc|].
    split; [rewrite length_take, prepare_extra_length; unfold extraVanity, extraSeal; lia|].
    split; [exact Hseal|]. split; [exact Hlogs|]. reflexivity.
Qed.
End seal.

Lemma made_same_period dt dtv parent n tp pos ts pre d t diff h :
  Period dtv = Period dt → made dt parent n tp pos ts pre d t diff h → made dtv parent n tp pos ts pre d t diff h.
Proof. intros HP []. split; try assumption. unfold in_time in *. rewrite HP. assumption. Qed.

(** ** Properties *)

(** C3: the block of an honest miner is accepted. A miner who owns a ticket at the
    parent prepares a header, which succeeds; the block that finalizing returns is
    sealed, which succeeds; and from the moment at which the miner releases it, on
    every node with the same period that knows the parent and finds the same
    tickets at it, the header passes verification. The tickets of the miner do not
    run out before the block, and the key of the miner signs for their address. *)
Theorem honest_block_accepted `{SP : StateParams} `{CU : Curve} `{JS : Json} (dt dtv : DaTong)
    (chain chainv : ChainReader) (sign : bytes → bytes) (parent h : Header) (n tp t0 : Z) (pos : Hash)
    (ts : TicketsDataSlice) (cache cache' vcache vcache' : CachedTicketSlice) :
  4 <= Period dt < 2 ^ 20 → Period dtv = Period dt →
  parent_ok chain parent n tp pos → parent_ok chainv parent n tp pos → chain_known chain n →
  few_tickets ts → tickets_at dt chain parent cache ts cache' → tickets_at dtv chainv parent vcache ts vcache' →
  new_work dt parent n tp t0 ts h →
  tickets_usable (h_Coinbase h) n (Z.max t0 (tp + maxBlockTime + Period dt)) ts →
  (∀ x, dt_signFn dt (dt_signer dt) x = inl (sign x)) → signs_for sign (dt_signer dt) →
  ∃ h1, Prepare dt chain (mkEnv h cache) = Done (inl tt, mkEnv h1 cache') ∧
  ∀ txs receipts s b h2 s' now,
    Finalize dt chain [] h1 txs receipts s = Done ((inl b, h2), s') → 0 <= now < 2 ^ 62 →
  ∃ sealed delay, Seal dt chain now b = Done (inl (sealed, delay)) ∧
  ∀ clock, now + Z.max 0 delay <= clock →
    ∃ h3, verifyHeader dtv chainv (clock / second) [] (mkEnv (received (b_header sealed)) vcache) =
          Done (inl tt, mkEnv h3 vcache').
Proof.
  intros HP HPv Hpar Hparv Hch Hts Hat Hatv [Hhn Hhp Hht Ht0 Hfresh Hmix [Hco Hc0] How] Hus Hfn Hsign.
  destruct (Prepare_ok dt chain ltac:(lia) parent n tp pos ts cache cache' h t0)
    as (pre & d & t & Hpl & Hin & Htm & Hprep); [done..|].
  exists (prepared pre d ts t h). split; [exact Hprep|]. intros txs receipts s b h2 s' now Hfin Hnow.
  destruct (Finalize_prepared dt chain pre d ts t h txs receipts s b h2 s' Hmix Hfin)
    as (number & hash & root & tx & receipt & bloom & Hb).
  pose proof (po_range _ _ _ _ _ Hpar) as Hn. pose proof (po_time_range _ _ _ _ _ Hpar) as Htp.
  assert (Htr : 0 <= t < 2 ^ 33 - 2 ^ 21) by (unfold in_time, MinBlockTime, maxBlockTime in *; lia).
  pose proof (place_bound _ _ _ _ _ _ Hts Hpl) as Hk.
  destruct (mined_fields pre d ts t h number hash root tx receipt bloom) as (F1 & F2 & F3 & F4 & F5).
  rewrite Hhn in F1. cbn [default] in F1. rewrite <- Hb in F1, F2, F3, F4, F5.
  destruct (Seal_ok dt chain ltac:(lia) n (Z.of_nat (length pre)) t now b (mined_prefix pre d h number) sign
    HP Hch Hn Htr Hnow F1 F2 F3 ltac:(unfold is_u64, two64; lia) ltac:(congruence) Hfn Hsign F5)
    as (seal & delay & Hseal & Hs & Hdelay & Hrec).
  eexists _, delay. split; [exact Hs|]. intros clock Hclock. cbn [b_header WithSeal].
  rewrite <- recoverSigner_received in Hrec. set (hs := received _) in Hrec |- *.
  assert (Hmade : made dtv parent n tp pos ts pre d t (place_difficulty ts pre) hs).
  { apply (made_same_period dt); [exact HPv|]. unfold hs. rewrite Hb.
    apply (sealed_made dt ltac:(lia)); [exact Hts|exact Hhn|exact Hhp|exact Hc0|exact Hin|lia|exact Hpl| |exact Hseal].
    intros v x Hv Hx. destruct (Hus v x Hv Hx) as [Hid Hu]. split; [exact Hid|].
    intros Ho. eapply usable_mono; [|exact (Hu Ho)]. lia. }
  assert (Hclk : t <= clock / second) by (apply Z.div_le_lower_bound; unfold second in *; lia).
  eexists. assert (verdict ts pre (place_difficulty ts pre) = inl tt) as <- by (unfold verdict; by rewrite Z.eqb_refl).
  exact (verifyHeader_ok dtv chainv ltac:(lia) parent n tp pos ts pre d t (place_difficulty ts pre) vcache vcache' hs (clock / second)
    Hparv Hts Hatv Hmade eq_refl Hrec Hclk).
Qed.

(** C26: verification is not repeatable. A header that is right but for its
    difficulty is rejected for it; the engine has then kept the place of the block
    in the header object, compares the header with itself, and accepts the same
    object when it is verified again. *)
Theorem rejected_header_then_accepted `{SP : StateParams} `{CU : Curve} `{JS : Json} (dt : DaTong)
    (chain : ChainReader) (parent h : Header) (n tp t diff now now' : Z) (pos : Hash) (ts : TicketsDataSlice)
    (pre : list DisInfo) (d : DisInfo) (cache cache' : CachedTicketSlice) :
  0 <= Period dt < 2 ^ 31 → parent_ok chain parent n tp pos → few_tickets ts →
  tickets_at dt chain parent cache ts cache' →
  made dt parent n tp pos ts pre d t diff h → diff ≠ place_difficulty ts pre → h_selectedTicket h = None →
  recoverSigner h = Done (inl (h_Coinbase h)) → t <= now → t <= now' →
  ∃ e, verifyHeader dt chain now [] (mkEnv h cache) = Done (inr difficultyMismatch, e) ∧
       verifyHeader dt chain now' [] e = Done (inl tt, e).
Proof.
  intros HP Hp Hts Hat Hmd Hne Hsel Hsig Hnow Hnow'.
  pose proof (verifyHeader_ok dt chain HP parent n tp pos ts pre d t diff cache cache' h now Hp Hts Hat Hmd Hsel Hsig Hnow) as Hv.
  unfold verdict in Hv. destruct (Z.eqb_spec (place_difficulty ts pre) diff); [congruence|].
  eexists. split; [exact Hv|]. set (h' := set_selected _ _ h).
  pose proof (made_selected dt parent n tp pos ts pre d t diff (Some (di_tk d)) (take 7 (map di_tk pre)) h Hmd) as Hmd'.
  fold h' in Hmd'. rewrite (verifyHeader_seal dt chain HP parent n tp pos ts pre d t diff) by
    (assumption || (unfold h'; rewrite recoverSigner_selected; exact Hsig)).
  exact (verifySeal_again dt chain HP parent n tp pos ts pre d t diff cache' h' Hp Hts Hmd' eq_refl).
Qed.

(** C25: a header with too little snapshot data crashes the verifier. The extra data
    of the header carries one to four bytes between the vanity and the seal, the last
    of which is the check byte of the others. Such a header passes every check before
    the seal, and reading its snapshot is out of range. Its sender needs a key to sign
    it, and no ticket. *)
Theorem short_snapshot_crashes_verification `{SP : StateParams} `{CU : Curve} `{JS : Json} (dt : DaTong)
    (chain : ChainReader) (parent h : Header) (n tp t now : Z) (pos : Hash) (vanity data seal : bytes)
    (cache : CachedTicketSlice) :
  parent_ok chain parent n tp pos → plausible dt parent n tp t h →
  h_Extra h = vanity ++ (data ++ [calcCheck data]) ++ seal → length vanity = extraVanity → length seal = extraSeal →
  (length data < 4)%nat → recoverSigner h = Done (inl (h_Coinbase h)) → t <= now →
  verifyHeader dt chain now [] (mkEnv h cache) = Panic "slice bounds out of range".
Proof.
  intros Hp Hpl He Hv Hs Hd Hsig Hnow. rewrite (verifyHeader_plausible dt chain parent n tp pos t) by assumption.
  unfold verifySeal. rewrite E_bind_header. cbn [e_header]. unfold getSnapDataByHeader, newSnapshotWithData.
  rewrite He, getSnapData_sealed by assumption. unfold snapshot_SetBytes. rewrite length_app. cbn [length].
  destruct (Nat.leb_spec (length data + 1) 0); [lia|]. rewrite Nat.add_sub.
  rewrite take_app_length, app_nth2, Nat.sub_diag by lia. cbn [nth]. rewrite Z.eqb_refl. cbn [negb].
  destruct (Nat.ltb_spec (length data) 4); [reflexivity|lia].
Qed.

(** ** Examples *)

(** One owner with two tickets, on a node that has the tickets of the parent. *)
Definition toy_tickets : TicketsDataSlice :=
  [mkTicketsData toy_address [mkBody 70 3 0 9000000; mkBody 71 4 100 9000000]].
Definition toy_parent : Header :=
  mkHeader 1 0 77 2 3 4 (replicate 256 0) (Some 5) (Some 5) 8000000 0 (Some 1000) (replicate 97 0) 99
    (replicate 8 0) None [].
Definition toy_pos : Hash :=
  rlpHash (ctype Header_rlp) (header_rlp_values toy_parent (take (97 - extraSeal - extraVanity) (drop extraVanity (replicate 97 0)))).
Definition toy_chain : ChainReader := mkChainReader (fun _ _ => Some toy_parent) (fun _ => Some toy_parent) (fun _ => true).
Definition toy_params : StateParams :=
  {| DebugMode := false; trie_Hash t := Z.of_nat (size t); gzip b := b; gunzip b := Some b |}.
Definition toy_json : Json := {| json_Unmarshal _ := inr (New "unexpected end of JSON input") |}.
Definition toy_engine : DaTong :=
  mkDaTong 15 (mkChaindb (fun _ => None) (fun _ _ => [])) (mkDatabase ∅ ∅) toy_address (fun _ x => inl (toy_sign x)).
Definition toy_cache : CachedTicketSlice := cts_Add emptyTicketCache 99 toy_tickets.
Definition toy_work : Header :=
  mkHeader (header_Hash toy_parent) 0 toy_address 0 0 0 (replicate 256 0) None (Some 6) 8000000 0 (Some 1015)
    [] 0 (replicate 8 0) None [].

Lemma toy_parent_ok : parent_ok toy_chain toy_parent 5 1000 toy_pos.
Proof. split; try reflexivity; unfold two64; lia. Qed.
Lemma toy_few : few_tickets toy_tickets.
Proof.
  split; [split|by vm_compute].
  - repeat constructor; set_solver.
  - by repeat constructor.
  - cbn. apply NoDup_cons_2; [set_solver|]. apply NoDup_cons_2; [set_solver|]. constructor.
Qed.
Lemma toy_tickets_at : tickets_at (SP := toy_params) (JS := toy_json) toy_engine toy_chain toy_parent toy_cache toy_tickets toy_cache.
Proof. intros h. reflexivity. Qed.
Lemma toy_address_set : toy_address ≠ 0.
Proof. vm_compute. discriminate. Qed.
Lemma toy_usable t : 0 <= t <= 9000000 → tickets_usable toy_address 5 t toy_tickets.
Proof.
  intros Ht v b ->%list_elem_of_singleton Hb. cbn [Tickets Owner] in *.
  apply elem_of_cons in Hb as [-> | ->%list_elem_of_singleton]; unfold usable, is_hash, two64; cbn; lia.
Qed.

Lemma honest_block_accepted_witness :
  ∃ h1, Prepare (SP := toy_params) (JS := toy_json) toy_engine toy_chain (mkEnv toy_work toy_cache) = Done (inl tt, mkEnv h1 toy_cache) ∧
  ∀ txs receipts s b h2 s' now,
    Finalize (SP := toy_params) (JS := toy_json) toy_engine toy_chain [] h1 txs receipts s = Done ((inl b, h2), s') →
    0 <= now < 2 ^ 62 →
  ∃ sealed delay, Seal toy_engine toy_chain now b = Done (inl (sealed, delay)) ∧
  ∀ clock, now + Z.max 0 delay <= clock →
    ∃ h3, verifyHeader (SP := toy_params) (CU := toy_curve) (JS := toy_json) toy_engine toy_chain (clock / second) []
            (mkEnv (received (b_header sealed)) toy_cache) = Done (inl tt, mkEnv h3 toy_cache).
Proof.
  apply (honest_block_accepted (SP := toy_params) (CU := toy_curve) (JS := toy_json) toy_engine toy_engine
           toy_chain toy_chain toy_sign toy_parent toy_work 5 1000 1015 toy_pos toy_tickets).
  - cbn [Period toy_engine]. lia.
  - reflexivity.
  - exact toy_parent_ok.
  - exact toy_parent_ok.
  - intros m _. exists toy_parent, 1000. split; [reflexivity|]. split; [reflexivity|lia].
  - exact toy_few.
  - exact toy_tickets_at.
  - exact toy_tickets_at.
  - split; [reflexivity|reflexivity|reflexivity|unfold MinBlockTime; lia|reflexivity|reflexivity| |].
    + split; [reflexivity|exact toy_address_set].
    + cbn [toy_work h_Coinbase toy_tickets map Owner]. apply list_elem_of_singleton. reflexivity.
  - apply toy_usable. unfold maxBlockTime. cbn [Period toy_engine]. lia.
  - reflexivity.
  - exact toy_signs.
Defined.

(** A header of the owner that claims the difficulty 1. *)
Definition toy_place : DisInfo := info_of toy_pos 5 (mkTicketsData toy_address [mkBody 70 3 0 9000000]).
Definition toy_rows : TicketsDataSlice := [mkTicketsData toy_address [mkBody 70 3 0 9000000]].
Definition toy_claim : Header :=
  mkHeader (header_Hash toy_parent) EmptyUncleHash toy_address 0 0 0 (replicate 256 0) (Some 1) (Some 6) 8000000 0
    (Some 1015) (replicate 32 0 ++ snapshot_Bytes (mkSnapshot [mkTicketLog 70 ticketSelect] 0) ++ replicate 65 0) 0
    (EncodeNonce 0) None [].

Lemma toy_claim_made : made toy_engine toy_parent 5 1000 toy_pos toy_rows [] toy_place 1015 1 toy_claim.
Proof.
  split; try reflexivity.
  - exact toy_address_set.
  - split; [unfold MinBlockTime; lia|cbn [length]; lia].
  - split; [exists []; reflexivity|reflexivity|constructor].
  - unfold usable, two64. cbn. lia.
  - exists (replicate 32 0), [mkTicketLog 70 ticketSelect], 0, (replicate 65 0).
    split; [reflexivity|]. split; [reflexivity|]. split; [reflexivity|]. split; [|reflexivity].
    repeat constructor; cbn; lia.
Qed.

Lemma rejected_header_then_accepted_witness :
  let verify := verifyHeader (SP := toy_params) (CU := toy_curve) (JS := toy_json) toy_engine toy_chain in
  ∃ e, verify 1015 [] (mkEnv toy_claim (cts_Add emptyTicketCache 99 toy_rows)) = Done (inr difficultyMismatch, e) ∧
       verify 2000 [] e = Done (inl tt, e).
Proof.
  apply (rejected_header_then_accepted (SP := toy_params) (CU := toy_curve) (JS := toy_json) toy_engine toy_chain toy_parent
    toy_claim 5 1000 1015 1 1015 2000 toy_pos toy_rows [] toy_place _ (cts_Add emptyTicketCache 99 toy_rows)).
  - cbn [Period toy_engine]. lia.
  - exact toy_parent_ok.
  - split; [split|by vm_compute]; [repeat constructor; set_solver|by repeat constructor|].
    cbn. apply NoDup_cons_2; [set_solver|constructor].
  - intros h. reflexivity.
  - exact toy_claim_made.
  - vm_compute. discriminate.
  - reflexivity.
  - reflexivity.
  - lia.
  - lia.
Defined.

(** Three bytes of data from a sender without a ticket. *)
Definition toy_short : Header :=
  mkHeader (header_Hash toy_parent) EmptyUncleHash toy_address 0 0 0 (replicate 256 0) (Some 1) (Some 6) 8000000 0
    (Some 1015) (replicate 32 0 ++ ([1; 2; 3] ++ [calcCheck [1; 2; 3]]) ++ replicate 65 0) 0 (EncodeNonce 0) None [].

Lemma short_snapshot_crashes_verification_witness :
  verifyHeader (SP := toy_params) (CU := toy_curve) (JS := toy_json) toy_engine toy_chain 1015 []
    (mkEnv toy_short emptyTicketCache) = Panic "slice bounds out of range".
Proof.
  apply (short_snapshot_crashes_verification (SP := toy_params) (CU := toy_curve) (JS := toy_json) toy_engine toy_chain toy_parent
    toy_short 5 1000 1015 1015 toy_pos (replicate 32 0) [1; 2; 3] (replicate 65 0)).
  - exact toy_parent_ok.
  - split; [reflexivity|reflexivity|exact toy_address_set|reflexivity|reflexivity|unfold MinBlockTime; lia|lia| |reflexivity].
    apply Nat.leb_le. reflexivity.
  - reflexivity.
  - reflexivity.
  - reflexivity.
  - cbn [length]. lia.
  - reflexivity.
  - lia.
Defined.

(** Two owners at the same parent. *)
Definition toy_pair : TicketsDataSlice := [mkTicketsData 5 [mkBody 70 3 0 9000000]; mkTicketsData 6 [mkBody 71 4 100 9000000]].
Definition toy_miner (coinbase : Address) : env :=
  mkEnv (mkHeader (header_Hash toy_parent) 0 coinbase 0 0 0 (replicate 256 0) None (Some 6) 8000000 0 (Some 1015)
           [] 0 (replicate 8 0) None []) (cts_Add emptyTicketCache 99 toy_pair).

Lemma first_miner_has_greater_difficulty_witness :
  let calc := calcBlockDifficulty (SP := toy_params) (JS := toy_json) toy_engine toy_chain toy_parent in
  let order := order_of toy_pos (bigUint64 5) toy_pair in
  ∃ pa da pb db difa difb,
    placed 5 order pa da ∧ placed 6 order pb db ∧
    calc (toy_miner 5) = Done (inl (Some difa, di_tk da, Z.of_nat (length pa), take 7 (map di_tk pa)),
      mkEnv (set_selected (Some (di_tk da)) (take 7 (map di_tk pa)) (e_header (toy_miner 5))) (e_cache (toy_miner 5))) ∧
    calc (toy_miner 6) = Done (inl (Some difb, di_tk db, Z.of_nat (length pb), take 7 (map di_tk pb)),
      mkEnv (set_selected (Some (di_tk db)) (take 7 (map di_tk pb)) (e_header (toy_miner 6))) (e_cache (toy_miner 6))) ∧
    length pa ≠ length pb ∧ 0 < difa ∧ 0 < difb ∧ ((length pa < length pb)%nat ↔ difb < difa).
Proof.
  apply (first_miner_has_greater_difficulty (SP := toy_params) (JS := toy_json) toy_engine toy_chain toy_parent toy_pos 5
    toy_pair (toy_miner 5) (toy_miner 6)); try reflexivity.
  - split; [split|by vm_compute]; [repeat constructor; set_solver|by repeat constructor|].
    cbn. apply NoDup_cons_2; [set_solver|]. apply NoDup_cons_2; [set_solver|constructor].
  - by left.
  - right. by left.
  - discriminate.
Defined.
