(* ===== verification/TicketLedger.v ===== *)
(** * The ledger and the tickets

    A ticket is an interval of the system asset that its owner gave up. Here the
    tickets count with what the accounts hold: buying a ticket
    (core/state_transition.go, [BuyTicketFunc]) moves an amount from the buyer
    into the tickets. The rules for the tickets of the state are shared with the
    end of a block, DatongLedger.v. *)

From stdpp Require Import base list gmap strings.
From Stdlib Require Import ZArith Lia.
From S2P Require Import Prelude Bytes Keccak KeccakFacts TimeLock TimeLockFacts Ticket FsnTypes.
From S2P Require Import Rlp RlpFacts Codec CallParams StateDB StateRecords StateFacts StateRevert.
From S2P Require Import StateInterface StateWorld Ledger StateTransition CallFacts.

(** The interval that a ticket stands for, and what all tickets stand for at a time. *)
Definition ticket_item (t : Ticket) : TimeLockItem :=
  mkItem (tk_StartTime (tk_Body t)) (tk_ExpireTime (tk_Body t)) (Ticket_Value (tk_Body t)).
Definition staked (ts : TicketsDataSlice) (t : Z) : Z :=
  sumZ (fun k => itemAt (ticket_item k) t) (ToTicketSlice ts).

(** What the accounts [l] can spend of an asset at a time, and the tickets. *)
Definition supply_with (w : World) (ts : TicketsDataSlice) (l : list Address) (h : Hash) (t : Z) : Z :=
  sumZ (fun a => spendable w a h t) l + (if h =? SystemAssetID then staked ts t else 0).

(** The frame of an operation that may change the tickets. *)
Record tframe (s s' : StateDB) : Prop := {
  tf_db : db s' = db s;
  tf_trie : trie s' = trie s;
  tf_refund : refund s' = refund s;
  tf_tx : thash s' = thash s ∧ bhash s' = bhash s ∧ txIndex s' = txIndex s;
  tf_hash : ticketsHash s' = ticketsHash s;
}.
#[export] Instance tframe_preorder : PreOrder tframe.
Proof.
  split; [by split|]. intros s1 s2 s3 [? ? ? (?&?&?) ?] [? ? ? (?&?&?) ?].
  split; try congruence; split_and!; congruence.
Qed.
Lemma frame_tframe s s' : frame s s' → tframe s s'.
Proof. intros [? ? ? ? (? & ? & ?)]. by split. Qed.

Lemma rep_set_tickets ts c s w : rep s w → rep (set_tickets ts c s) w.
Proof. intros [[? ? ? ? ?] Hw]. by split. Qed.
Lemma tframe_set_tickets ts c s : tframe s (set_tickets ts c s).
Proof. by split. Qed.

Lemma frame_tickets s s' : frame s s' → tickets s' = tickets s.
Proof. by intros [_ _ _ _ (? & _)]. Qed.

(** The frame along a sequence of states, tickets aside. *)
Ltac solve_tframe :=
  match goal with
  | |- tframe ?s ?s' =>
      first [ assumption | reflexivity
            | apply frame_tframe; solve_frame
            | match goal with H : tframe s ?s1 |- _ => transitivity s1; [exact H|clear H; solve_tframe] end
            | match goal with H : frame s ?s1 |- _ =>
                transitivity s1; [exact (frame_tframe _ _ H)|clear H; solve_tframe] end ]
  end.

Section tickets.
Context `{SP : StateParams}.

(** The tickets that a state has: in memory, in the cache under their hash, or
    in the data of the ticket account. *)
Definition loads (s : StateDB) (w : World) (ts : TicketsDataSlice) : Prop :=
  ts ≠ [] ∧
  match tickets s with
  | [] =>
      match cts_Get (cached s) (ticketsHash s) with
      | Some c => c = ts
      | None => ∃ x blob d, v_code (w TicketKeyAddress) = Some (x :: blob) ∧
                  gunzip (x :: blob) = Some d ∧ Unmarshal TicketsDataSlice d = (ts, None)
      end
  | loaded => loaded = ts
  end.

Lemma loads_memory s w ts : ts ≠ [] → tickets s = ts → loads s w ts.
Proof. intros Hn Hs. split; [done|]. rewrite Hs. by destruct ts. Qed.

Lemma wp_modify f (Q : unit → StateDB → Prop) s : Q tt (f s) → wp (modify f) Q s.
Proof. intros HQ. by eexists _, _. Qed.

Lemma wp_GetData w s a Q :
  rep s w → (∀ s', rep s' w → frame s s' → Q (v_code (w a)) s') → wp (GetData a) Q s.
Proof.
  intros Hr HQ. apply (wp_with_object a s w); [done| |].
  - intros s1 H1. apply (wp_updates a s s1 (w a) id v_code); [done|apply obj_Code_updates|by intros ? ?|].
    intros s' v0 Hv0 H'. rewrite (ve_code _ _ Hv0). destruct (at_obj_same a s s' w Hr H'). by apply HQ.
  - intros Hv. assert (v_code (w a) = None) as <- by (rewrite (ve_code _ _ Hv); by vm_compute). by apply HQ.
Qed.

Lemma wp_AllTickets w s ts (Q : TicketsDataSlice + error → StateDB → Prop) :
  rep s w → loads s w ts →
  (∀ s', rep s' w → tframe s s' → tickets s' = ts → Q (inl ts) s') → wp AllTickets Q s.
Proof.
  intros Hr [Hn Hl] HQ. apply wp_bind, wp_get. destruct (tickets s) as [|v l] eqn:E; simpl.
  2: { apply wp_ret. rewrite Hl. apply HQ; [done|done|congruence]. }
  destruct (cts_Get (cached s) (ticketsHash s)) as [c|] eqn:Ec.
  { subst c. apply wp_bind, wp_modify, wp_ret, HQ;
      [by apply rep_set_tickets|apply tframe_set_tickets|done]. }
  destruct Hl as (x & blob & d & Hc & Hz & Hu). apply wp_bind, (wp_GetData w); [done|].
  intros s1 Hr1 Hf1. rewrite Hc. apply wp_bind, wp_get. rewrite Hz, Hu.
  apply wp_bind, wp_modify, wp_ret, HQ; [by apply rep_set_tickets| |done].
  transitivity s1; [by apply frame_tframe|apply tframe_set_tickets].
Qed.

Lemma wp_IsTicketExist w s ts id (Q : bool → StateDB → Prop) :
  rep s w → loads s w ts →
  (∀ s', rep s' w → tframe s s' → tickets s' = ts →
     Q (bool_decide (id ∈ map ticket_id (ToTicketSlice ts))) s') → wp (IsTicketExist id) Q s.
Proof.
  intros Hr Hl HQ. apply wp_bind, (wp_AllTickets w s ts); [done..|]. intros s' Hr' Hf Ht. apply wp_ret.
  destruct (Get ts id) as [t|e] eqn:E; [rewrite <- (bool_decide_eq_true_2 (id ∈ map ticket_id (ToTicketSlice ts)))
    |rewrite <- (bool_decide_eq_false_2 (id ∈ map ticket_id (ToTicketSlice ts)))]; [by apply HQ| |by apply HQ|].
  - destruct (Get_Some _ _ _ E) as [Ht' <-]. by apply list_elem_of_fmap_2.
  - apply Get_None. by exists e.
Qed.

Lemma wp_db_AddTicket w s ts t (Q : option error → StateDB → Prop) :
  rep s w → loads s w ts → wf_tickets ts → ticket_id t ∉ map ticket_id (ToTicketSlice ts) →
  (∀ s' ts', rep s' w → tframe s s' → tickets s' = ts' → wf_tickets ts' →
     ToTicketSlice ts' ≡ₚ t :: ToTicketSlice ts → Q None s') → wp (db_AddTicket t) Q s.
Proof.
  intros Hr Hl Hwf Hid HQ. apply wp_bind, (wp_AllTickets w s ts); [done..|]. intros s' Hr' Hf Ht.
  destruct (AddTicket_fresh ts t Hid) as [ts' Hadd]. rewrite Hadd.
  apply wp_bind, wp_modify, wp_ret. apply (HQ _ ts');
    [by apply rep_set_tickets| |done|by eapply AddTicket_wf|by apply AddTicket_perm].
  transitivity s'; [done|apply tframe_set_tickets].
Qed.

Lemma wp_db_RemoveTicket w s ts id (Q : option error → StateDB → Prop) :
  rep s w → loads s w ts → wf_tickets ts → id ∈ map ticket_id (ToTicketSlice ts) →
  (∀ s' ts' t, rep s' w → tframe s s' → tickets s' = ts' → wf_tickets ts' → ticket_id t = id →
     ToTicketSlice ts ≡ₚ t :: ToTicketSlice ts' → Q None s') → wp (db_RemoveTicket id) Q s.
Proof.
  intros Hr Hl Hwf Hid HQ. apply wp_bind, (wp_AllTickets w s ts); [done..|]. intros s' Hr' Hf Ht.
  destruct (RemoveTicket_ok ts id Hwf Hid) as (ts' & t & -> & Hti & Hp & Hw).
  apply wp_bind, wp_modify, wp_ret. apply (HQ _ ts' t); [by apply rep_set_tickets| |done..].
  transitivity s'; [done|apply tframe_set_tickets].
Qed.

Lemma staked_add ts ts' t x :
  ToTicketSlice ts' ≡ₚ t :: ToTicketSlice ts → staked ts' x = itemAt (ticket_item t) x + staked ts x.
Proof. intros Hp. unfold staked. by rewrite (sumZ_perm _ _ _ Hp). Qed.
End tickets.

Section buying.
Context `{SP : StateParams} `{TP : TransitionParams}.
Context (msg : Message) (ctx : Context).

Let from := msg_From msg.
Let ts := ParentTime ctx.
Hypothesis Hts : 0 < ts < two64.

(** The interval that the price is taken from, and the new ticket. *)
Definition buy_item (p : BuyTicketParam) : TimeLockItem :=
  need ts (bt_Start p) (bt_End p) (TicketPrice (BlockNumber ctx)).
Definition buy_id : Hash :=
  keccak (Address_Bytes from ++ Hash_Bytes (GetHash ctx (u64 (u64 (BlockNumber ctx) - 1)))).
Definition new_ticket (p : BuyTicketParam) : Ticket :=
  mkTicket from (mkBody buy_id (u64 (BlockNumber ctx)) (bt_Start p) (bt_End p)).

Definition cannotPay : error := New "not enough time lock or asset balance".

(** The buyer has the price in the time lock over the interval, or in the balance. *)
Definition can_pay (w : World) (item : TimeLockItem) : Prop :=
  coversTL (tl w from SystemAssetID) item ∨ Value item <= bal w from SystemAssetID.

(** What paying moves, seen from the accounts together. *)
Definition pays (item : TimeLockItem) (d : delta) : Prop :=
  ∀ l h t, NoDup l → from ∈ l → ts <= t <= TimeLockForever →
    dsum l d h t = if h =? SystemAssetID then - itemAt item t else 0.

Lemma pays_locked item : pays item (dneg (gain from SystemAssetID (locked (itemAt item)))).
Proof.
  intros l h t Hl Hf Ht. autorewrite with dsum. rewrite dsum_gain, (Z.eqb_sym h) by done.
  unfold spend, locked. destruct (SystemAssetID =? h); lia.
Qed.

Lemma payTicket_spec s w item :
  rep s w → item_ok item → ts <= StartTime item →
  ∃ e d, (can_pay w item ∧ e = None ∨ ¬ can_pay w item ∧ e = Some cannotPay) ∧ pays item d ∧
    wp (payTicket msg ctx (Value item) (single item)) (yields nowhere s w ts e d) s.
Proof.
  intros Hr Hi Hs. destruct (rep_tl s w from SystemAssetID Hr) as [_ Hwf].
  destruct (coversTL_dec _ _ Hwf Hi ltac:(lia)) as [Hcov|Hn].
  { exists None, (dneg (gain from SystemAssetID (locked (itemAt item)))). split; [left; by split; [left|]|]. split.
    { apply pays_locked. }
    apply wp_bind, (wp_timeLockCmp w); [done|done|lia|]. intros c s1 Hr1 Hf1 Hc.
    destruct (Z.ltb_spec c 0); [by apply Hc in Hcov|].
    apply wp_bind, (wp_SubTimeLock_moves nowhere ts w); [done|done|lia|done|]. intros s2 w2 Hr2 Hf2 Hm2.
    apply wp_ret, (yields_nil _ _ _ _ w2); [done|solve_frame|done]. }
  assert (Hv : 0 < Value item) by apply Hi.
  destruct (Z.lt_ge_cases (bal w from SystemAssetID) (Value item)) as [Hlt|Hge].
  { exists (Some cannotPay), (dneg (gain from SystemAssetID (locked (itemAt item)))). split.
    { right. split; [|done]. intros [|]; [done|lia]. }
    split; [apply pays_locked|].
    apply wp_bind, (wp_timeLockCmp w); [done|done|lia|]. intros c s1 Hr1 Hf1 Hc.
    destruct (Z.ltb_spec c 0); [|exfalso; apply Hc in Hn; lia].
    apply wp_bind, (wp_balanceCmp w); [done|]. intros c' s2 Hr2 Hf2 Hc'. fold from in Hc'.
    destruct (Z.ltb_spec c' 0); [|lia]. apply wp_ret. apply yields_error; [done|solve_frame]. }
  destruct (whole_Sub msg ctx Hts item (Value item) Hi Hs eq_refl) as (z & Hz & Hwz & Hat).
  exists None, (dadd (dneg (gain from SystemAssetID (coins (Value item)))) (gain from SystemAssetID (locked (amountAt z)))).
  split; [left; split; [right; lia|done]|]. split.
  { intros l h t Hl Hf Ht. autorewrite with dsum. rewrite !dsum_gain, (Z.eqb_sym h) by done.
    unfold spend, coins, locked. rewrite Hat. unfold itemAt at 1, whole. cbn [StartTime EndTime Value].
    rewrite ival_in by (unfold ts in *; lia). destruct (SystemAssetID =? h); lia. }
  apply wp_bind, (wp_timeLockCmp w); [done|done|lia|]. intros c s1 Hr1 Hf1 Hc.
  destruct (Z.ltb_spec c 0); [|exfalso; apply Hc in Hn; lia].
  apply wp_bind, (wp_balanceCmp w); [done|]. intros c' s2 Hr2 Hf2 Hc'. fold from in Hc'.
  destruct (Z.ltb_spec c' 0); [lia|].
  apply wp_bind, (wp_SubBalance_moves nowhere ts w); [done|]. intros s3 w3 Hr3 Hf3 Hm3.
  rewrite (proj2 (oneItem_single (ParentTime ctx) TimeLockForever (Value item) ltac:(lia))).
  apply wp_bind, (wp_lift _ z); [exact Hz|]. apply wp_bind, (wp_AddSurplus msg ctx w3); [done|done|].
  intros s4 w4 Hr4 Hf4 Hm4. apply wp_ret, (yields_nil _ _ _ _ w4); [done|solve_frame|].
  exact (moves_trans _ _ _ _ _ _ _ Hm3 Hm4).
Qed.

(** The error that the call returns, with the tickets [tk]. *)
Definition BuyTicket_result (w : World) (tk : TicketsDataSlice) (p : BuyTicketParam) (e : option error) : Prop :=
  if bool_decide (buy_id ∈ map ticket_id (ToTicketSlice tk)) then e = Some (Errorf "%s Ticket already exist" [buy_id])
  else
    match BuyTicketParam_Check p 0 0, TimeLock_IsValid (single (buy_item p)) with
    | Some err, _ => e = Some err
    | None, Some err => e = Some (tl_error err)
    | None, None => can_pay w (buy_item p) ∧ e = None ∨ ¬ can_pay w (buy_item p) ∧ e = Some cannotPay
    end.

(** What the call leaves: nothing but a log, or the price moved into a ticket. *)
Definition bought (s : StateDB) (w : World) (tk : TicketsDataSlice) (p : BuyTicketParam) (e r : option error)
    (s' : StateDB) : Prop :=
  r = e ∧ ∃ w' tk', rep s' w' ∧ tframe s s' ∧ tickets s' = tk' ∧ wf_tickets tk' ∧
  match e with
  | Some _ => tk' = tk ∧ moves nowhere ts dzero w w'
  | None => ToTicketSlice tk' ≡ₚ new_ticket p :: ToTicketSlice tk ∧
            ∃ d, pays (buy_item p) d ∧ moves nowhere ts d w w'
  end.

Lemma bought_error s s' w w' tk p err :
  rep s' w' → moves nowhere ts dzero w w' → tframe s s' → tickets s' = tk → wf_tickets tk →
  bought s w tk p (Some err) (Some err) s'.
Proof. intros Hr Hm Hf Ht Hwf. split; [done|]. exists w', tk. by split_and!. Qed.

Lemma buy_item_ok p : is_u64 (bt_Start p) → is_u64 (bt_End p) →
  TimeLock_IsValid (single (buy_item p)) = None → item_ok (buy_item p).
Proof.
  intros H1 H2 H. apply TimeLock_IsValid_wf in H; [by apply H|]. constructor; [|constructor].
  unfold in_range, buy_item, need, is_u64, ts, TicketPrice in *. cbn [StartTime EndTime Value]. lia.
Qed.

Lemma handleBuyTicket_spec s w tk param :
  rep s w → loads s w tk → wf_tickets tk → are_bytes (fp_Data param) →
  let p := (Unmarshal BuyTicketParam (fp_Data param)).1 in
  ∃ e, BuyTicket_result w tk p e ∧ wp (handleBuyTicket msg ctx param) (bought s w tk p e) s.
Proof.
  intros Hr Hl Hwf Hb p. destruct (BuyTicketParam_typed (fp_Data param) Hb) as [Hst Hen]. fold p in Hst, Hen.
  assert (Henter : ∀ e m, (∀ s1, rep s1 w → tframe s s1 → tickets s1 = tk →
      wp (m (bool_decide (buy_id ∈ map ticket_id (ToTicketSlice tk)))) (bought s w tk p e) s1) →
    wp (IsTicketExist buy_id ≫= m) (bought s w tk p e) s).
  { intros e m Hm. apply wp_bind, (wp_IsTicketExist w s tk); assumption. }
  assert (Hfail : ∀ s1 s2 err, rep s2 w → frame s1 s2 → tframe s s1 → tickets s1 = tk →
    bought s w tk p (Some err) (Some err) s2).
  { intros s1 s2 err Hr2 Hf2 Hf1 Ht1. apply (bought_error _ _ _ w); [done|apply moves_refl|solve_tframe| |done].
    by rewrite (frame_tickets _ _ Hf2). }
  unfold BuyTicket_result. destruct (bool_decide _) eqn:Eid.
  { eexists. split; [reflexivity|]. apply Henter. intros s1 Hr1 Hf1 Ht1. apply (wp_fail ctx w); [done|]. eauto. }
  destruct (BuyTicketParam_Check p 0 0) as [err|] eqn:Ec.
  { eexists. split; [reflexivity|]. apply Henter. intros s1 Hr1 Hf1 Ht1. cbv beta iota zeta. fold p. rewrite Ec.
    apply (wp_failure ctx w); [done|]. eauto. }
  assert (Hprice : 0 <= TicketPrice (BlockNumber ctx)) by (unfold TicketPrice; lia).
  assert (Hone : oneItem (MaxUint64 (bt_Start p) ts) (bt_End p) (TicketPrice (BlockNumber ctx)) = single (buy_item p)).
  { rewrite MaxUint64_max. by apply oneItem_single. }
  destruct (TimeLock_IsValid (single (buy_item p))) as [err|] eqn:Ev.
  { eexists. split; [reflexivity|]. apply Henter. intros s1 Hr1 Hf1 Ht1. cbv beta iota zeta. fold p ts. rewrite Ec, Hone, Ev.
    apply (wp_failure ctx w); [done|]. eauto. }
  pose proof (buy_item_ok p Hst Hen Ev) as Hi. apply bool_decide_eq_false in Eid.
  assert (Hsi : ts <= StartTime (buy_item p)) by (unfold buy_item, need; cbn [StartTime]; lia).
  destruct (payTicket_spec s w (buy_item p) Hr Hi Hsi) as (e & _ & He & _ & _).
  exists e. split; [exact He|]. apply Henter. intros s1 Hr1 Hf1 Ht1. cbv beta iota zeta. fold p ts.
  rewrite Ec, Hone, Ev. destruct (payTicket_spec s1 w (buy_item p) Hr1 Hi Hsi) as (e' & d & He' & Hd & Hpay).
  assert (e' = e) as -> by naive_solver. apply wp_bind. eapply wp_mono; [exact Hpay|].
  intros r s2 [-> (w2 & Hr2 & Hf2 & Hm2)]. assert (Ht2 : tickets s2 = tk) by (by rewrite (frame_tickets _ _ Hf2)).
  destruct e as [err|].
  { apply (wp_failure ctx w2); [done|]. intros s3 Hr3 Hf3. apply (bought_error _ _ _ w2); [done|done|solve_tframe| |done].
    by rewrite (frame_tickets _ _ Hf3). }
  apply wp_bind, (wp_db_AddTicket w2 s2 tk); [done|by apply loads_memory; [apply Hl|]|done|done|].
  intros s3 tk3 Hr3 Hf3 Ht3 Hwf3 Hp3. apply (wp_success ctx w2); [done|]. intros s4 Hr4 Hf4.
  split; [done|]. exists w2, tk3. split_and!; [done|solve_tframe|by rewrite (frame_tickets _ _ Hf4)|done|done|].
  by exists d.
Qed.
End buying.

Lemma buy_item_ticket msg ctx p t : ParentTime ctx <= t →
  itemAt (ticket_item (new_ticket msg ctx p)) t = itemAt (buy_item ctx p) t.
Proof.
  intros Ht. unfold itemAt, ival, ticket_item, new_ticket, buy_item, need, Ticket_Value, TicketPrice.
  cbn [StartTime EndTime Value tk_Body tk_StartTime tk_ExpireTime].
  destruct (Z.leb_spec (bt_Start p) t), (Z.leb_spec (Z.max (bt_Start p) (ParentTime ctx)) t); done || lia.
Qed.

(** C11: buying a ticket. The call returns, without panic: with the error for an ID
    that is taken, for an interval that is too short or over, or for a buyer who
    has the price neither in the time lock over the interval nor in the balance,
    and then no account and no ticket changed; or with nil, and then the tickets
    are the old ones and the new ticket. Either way what the accounts can spend at
    any time from the parent block on, together with what the tickets stand for,
    is the same as before, for every asset. *)
Theorem buy_ticket_call `{SP : StateParams} `{TP : TransitionParams} (msg : Message) (ctx : Context)
    (param : FSNCallParam) (s : StateDB) (w : World) (tk : TicketsDataSlice) :
  0 < ParentTime ctx < two64 → rep s w → loads s w tk → wf_tickets tk → are_bytes (fp_Data param) →
  let p := (Unmarshal BuyTicketParam (fp_Data param)).1 in
  ∃ e, BuyTicket_result msg ctx w tk p e ∧
  wp (handleBuyTicket msg ctx param)
     (fun r s' => r = e ∧ ∃ w' tk', rep s' w' ∧ tframe s s' ∧ tickets s' = tk' ∧ wf_tickets tk' ∧
        match e with
        | Some _ => tk' = tk ∧ moves nowhere (ParentTime ctx) dzero w w'
        | None => ToTicketSlice tk' ≡ₚ new_ticket msg ctx p :: ToTicketSlice tk
        end ∧
        ∀ l h t, NoDup l → msg_From msg ∈ l → ParentTime ctx <= t <= TimeLockForever →
          supply_with w' tk' l h t = supply_with w tk l h t) s.
Proof.
  intros Hts Hr Hl Hwf Hb p. destruct (handleBuyTicket_spec msg ctx Hts s w tk param Hr Hl Hwf Hb) as (e & He & H).
  exists e. split; [exact He|]. eapply wp_mono; [exact H|]. intros r s' [-> (w' & tk' & Hr' & Hf & Ht & Hwf' & Hc)].
  split; [done|]. exists w', tk'. split_and!; [done|done|done|done|by destruct e; [|destruct Hc]|].
  intros l h t Hnd Hin Hrange. unfold supply_with. destruct e as [err|].
  - destruct Hc as [-> Hm]. rewrite (spendable_sum _ _ _ _ _ l h t Hm), dsum_zero by lia. lia.
  - destruct Hc as (Hp & d & Hd & Hm). rewrite (spendable_sum _ _ _ _ _ l h t Hm), (Hd l h t Hnd Hin Hrange) by lia.
    rewrite (staked_add _ _ _ t Hp), buy_item_ticket by lia. fold p. destruct (h =? SystemAssetID); lia.
Qed.

(** ** Example *)

(** Account 5 has the price of a ticket and more; account 9 has a ticket. *)
Definition ex_stake : StateDB :=
  set_tickets [mkTicketsData 9 [mkBody 70 3 0 9000000]] emptyTicketCache
    (after (AddBalance 5 SystemAssetID (6000 * 10 ^ 18)) ex_state).
Definition ex_buy : FSNCallParam := ex_call BuyTicketFunc (mkBuyTicketParam 100 9000000).

Lemma ex_stake_rep : rep ex_stake (world ex_stake).
Proof.
  apply (rep_set_tickets _ _ _ (world ex_stake)).
  assert (H : wp (AddBalance 5 SystemAssetID (6000 * 10 ^ 18)) (fun _ s => wf_db s) ex_state).
  { apply (wp_AddBalance_moves nowhere 0 (world ex_state)); [split; [apply wf_ex_state|done]|]. by intros s w [? _]. }
  destruct (wp_after _ _ _ H) as [_ Hwf]. by split.
Qed.

Lemma buy_ticket_call_witness :
  let tk := [mkTicketsData 9 [mkBody 70 3 0 9000000]] in
  let p := (Unmarshal BuyTicketParam (fp_Data ex_buy)).1 in
  ∃ e, BuyTicket_result (ex_msg 5 1) (ex_ctx 100) (world ex_stake) tk p e ∧
  wp (handleBuyTicket (ex_msg 5 1) (ex_ctx 100) ex_buy)
     (fun r s' => r = e ∧ ∃ w' tk', rep s' w' ∧ tframe ex_stake s' ∧ tickets s' = tk' ∧ wf_tickets tk' ∧
        match e with
        | Some _ => tk' = tk ∧ moves nowhere 100 dzero (world ex_stake) w'
        | None => ToTicketSlice tk' ≡ₚ new_ticket (ex_msg 5 1) (ex_ctx 100) p :: ToTicketSlice tk
        end ∧
        ∀ l h t, NoDup l → 5 ∈ l → 100 <= t <= TimeLockForever →
          supply_with w' tk' l h t = supply_with (world ex_stake) tk l h t) ex_stake.
Proof.
  apply (buy_ticket_call (ex_msg 5 1) (ex_ctx 100) ex_buy ex_stake (world ex_stake)).
  - by vm_compute.
  - exact ex_stake_rep.
  - by apply loads_memory.
  - split; [repeat constructor; set_solver|by repeat constructor|]. apply NoDup_cons_2; [set_solver|constructor].
  - vm_compute. repeat constructor; discriminate.
Defined.
