(* ===== verification/DatongLedger.v ===== *)
(** * The ledger at the end of a block

    What finalizing a block (consensus/datong/consensus.go, [Finalize]) does to the
    accounts and the tickets: the tickets that were used or passed over leave the
    store, most of them go back to their owners as time locks, and the miner is
    paid. *)

From stdpp Require Import base list gmap strings sorting.
From Stdlib Require Import ZArith Lia.
From S2P Require Import Prelude Bytes Keccak KeccakFacts TimeLock TimeLockFacts Ticket FsnTypes.
From S2P Require Import Rlp RlpFacts Codec CallParams StateDB StateRecords StateFacts StateRevert.
From S2P Require Import StateInterface StateWorld Ledger StateTransition CallFacts TicketLedger.
From S2P Require Import Hex Header Snapshot Receipt Transaction Block Datong DatongFacts DatongOrder DatongSeal.

(** ** What a block settles *)

(** The holdings from a time on change by [d]; of the rest, only the data of the
    ticket account may change. *)
Record settles (ts : Z) (d : delta) (w w' : World) : Prop := {
  se_holding : ∀ a h k, from_time ts k → holding w' a h k = holding w a h k + d a h k;
  se_nonce : ∀ a, nonce w' a = nonce w a;
  se_notation : ∀ a, notation w' a = notation w a;
  se_slot : ∀ a k, slot w' a k = slot w a k;
  se_suicided : ∀ a, v_suicided (w' a) = v_suicided (w a);
  se_code : ∀ a, a ≠ TicketKeyAddress → v_code (w' a) = v_code (w a) ∧ v_codehash (w' a) = v_codehash (w a);
}.

Lemma settles_moves ts d w w' : moves nowhere ts d w w' → settles ts d w w'.
Proof. intros [Hm [? ? ? ? ? ? ? ?]]. split; auto; intros; apply kp_nonce || apply kp_slot; by intros []. Qed.
Lemma settles_refl ts w : settles ts dzero w w.
Proof. apply settles_moves, moves_refl. Qed.
Lemma settles_trans ts d e w1 w2 w3 : settles ts d w1 w2 → settles ts e w2 w3 → settles ts (dadd d e) w1 w3.
Proof.
  intros [H1 N1 T1 S1 U1 C1] [H2 N2 T2 S2 U2 C2]. split; intros; try congruence.
  - unfold dadd. rewrite H2, H1 by done. lia.
  - destruct (C1 a), (C2 a); auto. split; congruence.
Qed.
Lemma settles_proper ts d d' w w' : d ≡ d' → settles ts d w w' → settles ts d' w w'.
Proof. intros Hd [H N T S U C]. split; auto. intros a h k Hk. by rewrite <- (Hd a h k), H. Qed.

Lemma settles_sum ts d w w' l h t : settles ts d w w' → ts <= t →
  sumZ (fun a => spendable w' a h t) l = sumZ (fun a => spendable w a h t) l + dsum l d h t.
Proof.
  intros [Hm _ _ _ _ _] Ht. unfold dsum. rewrite <- sumZ_add. apply sumZ_ext. intros a _. unfold spendable.
  rewrite (Hm a h Free I), (Hm a h (At t) Ht). lia.
Qed.

(** What is left of a ticket at the time of the block, given to its owner. *)
Definition refund_of (time : Z) (t : Ticket) : delta :=
  gain (tk_Owner t) SystemAssetID
    (locked (fun x => if tk_ExpireTime (tk_Body t) <=? time then 0 else itemAt (ticket_item t) x)).
Definition refunds (time : Z) (l : list Ticket) : delta := foldr (fun t d => dadd (refund_of time t) d) dzero l.

(** The tickets that come back, and those that are lost: those of the genesis block
    and the first that was passed over. *)
Definition not_genesis (t : Ticket) : Prop := IsInGenesis (tk_Body t) = false.
#[export] Instance not_genesis_dec t : Decision (not_genesis t).
Proof. unfold not_genesis. apply _. Defined.
Definition returned (selected : Ticket) (retreat : list Ticket) : list Ticket :=
  filter not_genesis (selected :: drop 1 retreat).
Definition forfeited (selected : Ticket) (retreat : list Ticket) : list Ticket :=
  filter (fun t => ¬ not_genesis t) (selected :: drop 1 retreat) ++ take 1 retreat.

Lemma filter_split {A} (P : A → Prop) `{!∀ x, Decision (P x)} (l : list A) :
  l ≡ₚ filter P l ++ filter (fun x => ¬ P x) l.
Proof.
  induction l as [|a l IH]; [done|]. rewrite !filter_cons. destruct (decide (P a)) as [Ha|Ha].
  - rewrite (decide_False (P := ¬ P a)) by auto. cbn [app]. by rewrite <- IH.
  - rewrite (decide_True (P := ¬ P a)) by done. rewrite <- Permutation_middle. by rewrite <- IH.
Qed.

Lemma returned_forfeited selected retreat :
  selected :: retreat ≡ₚ returned selected retreat ++ forfeited selected retreat.
Proof.
  unfold returned, forfeited. rewrite app_assoc, <- filter_split.
  rewrite <- (take_drop 1 retreat) at 1. rewrite <- app_comm_cons. by rewrite (Permutation_app_comm (drop 1 retreat)).
Qed.

(** A ticket as it is kept: its fields in range, its interval not empty. *)
Definition ticket_typed (t : Ticket) : Prop :=
  is_address (tk_Owner t) ∧ is_hash (ticket_id t) ∧ is_u64 (tk_Height (tk_Body t)) ∧ item_ok (ticket_item t).

Lemma tickets_rlp ts : wf_tickets ts → Forall ticket_typed (ToTicketSlice ts) → rlp_wf ts.
Proof.
  intros [_ Hr _] Ht. apply Forall_forall. intros v Hv. rewrite Forall_forall in Hr. rewrite Forall_forall in Ht.
  assert (Hb : ∀ b, b ∈ Tickets v → ticket_typed (mkTicket (Owner v) b)).
  { intros b Hb. apply Ht. rewrite ToTicketSlice_concat. apply list_elem_of_In, in_concat.
    exists (TicketsData_ToTicketSlice v). split; [by apply in_map, list_elem_of_In|].
    unfold TicketsData_ToTicketSlice. by apply in_map, list_elem_of_In. }
  split; [|split; [|done]].
  - specialize (Hr v Hv). destruct (Tickets v) as [|b l]; [done|]. apply (Hb b). by left.
  - apply Forall_forall. intros b Hin. destruct (Hb b Hin) as (_ & Hid & Hh & (H1 & H2 & _)).
    unfold is_u64, two64, ticket_item in *. cbn in *. unfold is_hash, ticket_id in Hid. cbn in Hid. split_and!; auto; lia.
Qed.

(** ** The steps *)

Section steps.
Context `{SP : StateParams}.

Lemma wp_SetData w s a b (Q : Hash → StateDB → Prop) :
  rep s w →
  (∀ s', rep s' (wset a (vset_code (Hash_Bytes (keccak b)) (Some b) (w a)) w) → frame s s' → Q (keccak b) s') →
  wp (SetData a b) Q s.
Proof.
  intros Hr HQ. unfold SetData. apply (wp_GetOrNew a s w); [done|]. intros s1 H1.
  apply wp_bind. unfold obj_SetCode. apply wp_bind.
  apply (wp_updates a s s1 (w a) id v_code); [done|apply obj_Code_updates|by intros ? ?|]. intros s2 v0 _ H2.
  apply wp_bind, (wp_deref a s s2 (w a)); [done|]. intros o _.
  apply (wp_write a s s2 (w a) (vset_code (Hash_Bytes (keccak b)) (Some b)));
    [done|apply setCode_updates|apply _|]. intros s3 H3. apply wp_ret.
  destruct (at_obj_rep a s s3 _ w Hr H3). by apply HQ.
Qed.

Lemma settles_data ts h b w :
  settles ts dzero w (wset TicketKeyAddress (vset_code h (Some b) (w TicketKeyAddress)) w).
Proof.
  split.
  - intros a x [|t] _; unfold holding, bal, tl, wset, upd, dzero; destruct (Z.eqb_spec TicketKeyAddress a) as [<-|];
      cbn [v_bal v_tl vset_code]; lia.
  - intros a. unfold nonce, wset, upd. by destruct (Z.eqb_spec TicketKeyAddress a) as [<-|].
  - intros a. unfold notation, wset, upd. by destruct (Z.eqb_spec TicketKeyAddress a) as [<-|].
  - intros a k. unfold slot, wset, upd. by destruct (Z.eqb_spec TicketKeyAddress a) as [<-|].
  - intros a. unfold wset, upd. by destruct (Z.eqb_spec TicketKeyAddress a) as [<-|].
  - intros a Ha. unfold wset, upd. by destruct (Z.eqb_spec TicketKeyAddress a) as [<-|].
Qed.

Lemma wp_returnTicket w s header time t Q :
  rep s w → h_Time header = Some time → is_u64 time → ticket_typed t →
  (∀ s' w', rep s' w' → tframe s s' → tickets s' = tickets s → settles time (refund_of time t) w w' → Q tt s') →
  wp (returnTicket header t) Q s.
Proof.
  intros Hr Ht Hu (_ & _ & _ & Hi) HQ. unfold returnTicket. rewrite Ht. apply wp_bind, (wp_lift _ time); [done|].
  rewrite bigUint64_id by done. destruct (Z.leb_spec (tk_ExpireTime (tk_Body t)) time) as [Hle|Hgt].
  - apply wp_ret, (HQ s w); [done|done|done|]. apply (settles_proper _ dzero); [|apply settles_refl].
    intros a h k. unfold refund_of, gain, locked, dzero. rewrite (proj2 (Z.leb_le _ _) Hle). by destruct (_ && _), k.
  - rewrite (proj2 (oneItem_single _ _ (Ticket_Value (tk_Body t)) ltac:(unfold Ticket_Value, TicketPrice; lia))).
    apply (wp_AddTimeLock_moves nowhere time w); [done|by apply wf_single|]. intros s' w' Hr' Hf Hm.
    apply (HQ s' w'); [done|by apply frame_tframe|by apply frame_tickets|]. apply settles_moves.
    eapply moves_proper; [|exact Hm]. intros a h k. unfold refund_of, gain, locked.
    rewrite (proj2 (Z.leb_gt _ _) Hgt). destruct (_ && _), k; try done. by rewrite amountAt_single.
Qed.

Lemma same_ticket ts t u : wf_tickets ts → t ∈ ToTicketSlice ts → u ∈ ToTicketSlice ts → ticket_id t = ticket_id u → t = u.
Proof.
  intros [_ _ Hnd] Ht Hu He. apply list_elem_of_lookup in Ht as [i Hi], Hu as [j Hj].
  assert (i = j) as ->; [|congruence].
  eapply (NoDup_lookup _ i j (ticket_id t) Hnd); change (map ?f ?l) with (f <$> l);
    rewrite list_lookup_fmap, ?Hi, ?Hj; cbn; congruence.
Qed.

(** Taking one ticket out, with its refund when [back]. *)
Lemma wp_deleteTicket w s tk header time t typ (back : bool) snap (Q : snapshot → StateDB → Prop) :
  rep s w → loads s w tk → wf_tickets tk → t ∈ ToTicketSlice tk →
  h_Time header = Some time → is_u64 time → ticket_typed t →
  (∀ s' w' tk' snap', rep s' w' → tframe s s' → tickets s' = tk' → wf_tickets tk' →
     ToTicketSlice tk ≡ₚ t :: ToTicketSlice tk' →
     settles time (if back then refund_of time t else dzero) w w' → Q snap' s') →
  wp (deleteTicket header t typ back snap) Q s.
Proof.
  intros Hr Hl Hwf Hin Ht Hu Hty HQ. apply wp_bind, (wp_db_RemoveTicket w s tk); [done|done|done|by apply (list_elem_of_fmap_2 ticket_id)|].
  intros s1 tk1 u Hr1 Hf1 Ht1 Hwf1 Hid Hp.
  assert (u = t) as ->. { apply (same_ticket tk); [done| |done|done]. rewrite Hp. by left. }
  apply wp_bind. destruct back.
  - apply (wp_returnTicket w s1 header time); [done..|]. intros s2 w2 Hr2 Hf2 Ht2 Hs. apply wp_ret.
    apply (HQ s2 w2 tk1); [done|solve_tframe|congruence|done|done|done].
  - apply wp_ret, wp_ret, (HQ s1 w tk1); [done|done|done|done|done|apply settles_refl].
Qed.

(** The refunds of the tickets from the place [i] on. *)
Fixpoint retreat_refunds (time : Z) (i : nat) (l : list Ticket) : delta :=
  match l with
  | [] => dzero
  | t :: l => dadd (if negb (IsInGenesis (tk_Body t) || (i =? 0)%nat) then refund_of time t else dzero)
                   (retreat_refunds time (S i) l)
  end.

Lemma wp_deleteRetreat header time (Ht : h_Time header = Some time) (Hu : is_u64 time) retreat :
  ∀ i w s tk snap (Q : snapshot → StateDB → Prop),
  rep s w → tickets s = tk → wf_tickets tk → (∃ rest, ToTicketSlice tk ≡ₚ retreat ++ rest) → Forall ticket_typed retreat →
  (∀ s' w' tk' snap', rep s' w' → tframe s s' → tickets s' = tk' → wf_tickets tk' →
     ToTicketSlice tk ≡ₚ retreat ++ ToTicketSlice tk' →
     settles time (retreat_refunds time i retreat) w w' → Q snap' s') →
  wp (deleteRetreat header i retreat snap) Q s.
Proof.
  induction retreat as [|t retreat IH]; intros i w s tk snap Q Hr Hs Hwf [rest Hp] Hty HQ; cbn [deleteRetreat].
  { apply wp_ret, (HQ s w tk); [done|done|done|done|done|apply settles_refl]. }
  apply Forall_cons in Hty as [Hty1 Hty].
  assert (Hin : t ∈ ToTicketSlice tk) by (rewrite Hp; by left).
  apply wp_bind, (wp_deleteTicket w s tk header time); [done| |done|done|done|done|done|].
  { apply loads_memory; [|done]. intros ->. by apply elem_of_nil in Hin. }
  intros s1 w1 tk1 snap1 Hr1 Hf1 Ht1 Hwf1 Hp1 Hs1. apply (IH (S i) w1 s1 tk1); [done|done|done| |done|].
  { exists rest. apply (Permutation_cons_inv (a := t)). by rewrite <- Hp1, Hp. }
  intros s2 w2 tk2 snap2 Hr2 Hf2 Ht2 Hwf2 Hp2 Hs2. apply (HQ s2 w2 tk2); [done|solve_tframe|done|done| |].
  - by rewrite Hp1, Hp2.
  - exact (settles_trans _ _ _ _ _ _ Hs1 Hs2).
Qed.

Definition put_tickets (data : bytes) (w : World) : World :=
  wset TicketKeyAddress (vset_code (Hash_Bytes (keccak data)) (Some data) (w TicketKeyAddress)) w.

Lemma wp_UpdateTickets w s tk ptime (Q : Hash + error → StateDB → Prop) :
  rep s w → tickets s = tk → wf_tickets tk → Forall ticket_typed (ToTicketSlice tk) →
  (∃ t, t ∈ ToTicketSlice tk ∧ unexpired ptime t) →
  (∀ s' tk' data, rep s' (put_tickets data w) → tframe s s' → tickets s' = tk' → wf_tickets tk' →
     ToTicketSlice tk' ≡ₚ filter (unexpired ptime) (ToTicketSlice tk) →
     calcTicketsStorageData tk' = inl data → Q (inl (keccak data)) s') →
  wp (UpdateTickets ptime) Q s.
Proof.
  intros Hr Hs Hwf Hty Hex HQ. apply wp_bind, wp_get. rewrite Hs.
  destruct (ClearExpiredTickets_ok tk ptime Hwf Hex) as (tk' & -> & Hwf' & Hp).
  assert (Hty' : Forall ticket_typed (ToTicketSlice tk')).
  { rewrite Hp. apply Forall_forall. intros t [_ Ht]%list_elem_of_filter. rewrite Forall_forall in Hty. auto. }
  destruct (Unmarshal_Marshal tk' (tickets_rlp tk' Hwf' Hty')) as (blob & Hb & _).
  assert (Hc : calcTicketsStorageData tk' = inl (gzip blob)) by (unfold calcTicketsStorageData; by rewrite Hb).
  apply wp_bind, wp_modify. rewrite Hc. apply wp_bind, (wp_SetData w); [by apply rep_set_tickets|].
  intros s1 Hr1 Hf1. apply wp_bind, wp_modify, wp_ret. apply (HQ _ tk' (gzip blob));
    [by apply rep_set_tickets| |done|done|done|done].
  transitivity (set_tickets tk' (cached s) s); [apply tframe_set_tickets|].
  transitivity s1; [by apply frame_tframe|apply tframe_set_tickets].
Qed.
End steps.

(** ** Sums *)

Lemma retreat_refunds_filter time i l : retreat_refunds time (S i) l ≡ refunds time (filter not_genesis l).
Proof.
  revert i. induction l as [|t l IH]; intros i; cbn [retreat_refunds]; [done|]. rewrite filter_cons, (IH (S i)).
  rewrite orb_false_r. destruct (decide (not_genesis t)) as [E|E]; unfold not_genesis in E.
  - by rewrite E.
  - apply not_false_is_true in E. rewrite E. intros a h k. unfold dadd, dzero. cbn [negb]. lia.
Qed.

Lemma refunds_returned time selected retreat :
  dadd (if negb (IsInGenesis (tk_Body selected)) then refund_of time selected else dzero)
       (retreat_refunds time 0 retreat) ≡ refunds time (returned selected retreat).
Proof.
  assert (Hr : retreat_refunds time 0 retreat ≡ refunds time (filter not_genesis (drop 1 retreat))).
  { destruct retreat as [|t l]; [done|]. cbn [retreat_refunds drop]. rewrite orb_true_r. cbn [negb].
    rewrite retreat_refunds_filter. intros a h k. unfold dadd, dzero. rewrite drop_0. lia. }
  rewrite Hr. unfold returned. rewrite filter_cons.
  destruct (decide (not_genesis selected)) as [E|E]; unfold not_genesis in E.
  - by rewrite E.
  - apply not_false_is_true in E. rewrite E. intros a h k. unfold dadd, dzero. cbn [negb]. lia.
Qed.

(** What tickets stand for at a time. *)
Definition worth (l : list Ticket) (t : Z) : Z := sumZ (fun k => itemAt (ticket_item k) t) l.

Lemma dsum_refunds l time R h t : NoDup l → Forall (fun k => tk_Owner k ∈ l) R → time < t →
  dsum l (refunds time R) h t = if h =? SystemAssetID then worth R t else 0.
Proof.
  intros Hl HR Ht. induction HR as [|k R Hk _ IH].
  { unfold refunds, worth. cbn [foldr sumZ]. rewrite dsum_zero. by destruct (h =? SystemAssetID). }
  cbn [refunds foldr]. fold (refunds time R). rewrite dsum_add, IH. unfold refund_of. rewrite dsum_gain, (Z.eqb_sym h) by done.
  unfold worth. cbn [sumZ]. fold (worth R t). unfold spend, locked. destruct (SystemAssetID =? h); [|lia].
  destruct (Z.leb_spec (tk_ExpireTime (tk_Body k)) time); [|lia].
  unfold itemAt, ticket_item. cbn [StartTime EndTime Value]. rewrite ival_out by lia. lia.
Qed.

Lemma worth_unexpired ptime l t : ptime < t → worth (filter (unexpired ptime) l) t = worth l t.
Proof.
  intros Ht. induction l as [|k l IH]; [done|]. rewrite filter_cons. unfold worth in *. cbn [sumZ].
  destruct (decide (unexpired ptime k)) as [Hk|Hk]; cbn [sumZ]; rewrite IH; [lia|].
  unfold unexpired in Hk. unfold itemAt, ticket_item. cbn [StartTime EndTime Value]. rewrite ival_out by lia. lia.
Qed.

Lemma worth_app l1 l2 t : worth (l1 ++ l2) t = worth l1 t + worth l2 t.
Proof. apply sumZ_app. Qed.
Lemma worth_perm l1 l2 t : l1 ≡ₚ l2 → worth l1 t = worth l2 t.
Proof. apply sumZ_perm. Qed.

(** ** Finalizing *)

Section finalize.
Context `{SP : StateParams} `{CU : Curve} `{JS : Json}.
Context (dt : DaTong) (chain : ChainReader).

(** A header that is ready to be finalized over the tickets [tk]: its parent is
    known, its place was computed, the tickets it uses are there, and one that has
    not expired is left. *)
Record ready (parents : list Header) (header parent : Header) (ptime time number : Z) (selected : Ticket)
    (tk : TicketsDataSlice) (rest : list Ticket) : Prop := {
  rd_parent : getParent chain header parents = Done (inl parent);
  rd_ptime : h_Time parent = Some ptime ∧ is_u64 ptime;
  rd_time : h_Time header = Some time ∧ is_u64 time ∧ ptime <= time;
  rd_number : h_Number header = Some number;
  rd_selected : h_selectedTicket header = Some selected;
  rd_extra : (extraVanity <= length (h_Extra header))%nat;
  rd_wf : wf_tickets tk;
  rd_typed : Forall ticket_typed (ToTicketSlice tk);
  rd_split : ToTicketSlice tk ≡ₚ (selected :: h_retreatTickets header) ++ rest;
  rd_left : ∃ t, t ∈ rest ∧ unexpired ptime t;
}.

Definition mixMismatch (have want : Hash) : error := Errorf "MixDigest mismatch, have:%v, want:%v" [have; want].

(** What finalizing leaves. *)
Definition finalized (header : Header) (ptime time number : Z) (selected : Ticket) (rest : list Ticket)
    (w : World) (r : (unit + error) * Header) (s' : StateDB) : Prop :=
  ∃ w' tk' data, rep s' w' ∧ tickets s' = tk' ∧ wf_tickets tk' ∧
    ToTicketSlice tk' ≡ₚ filter (unexpired ptime) rest ∧ calcTicketsStorageData tk' = inl data ∧
    if (h_MixDigest header =? 0) || (h_MixDigest header =? keccak data) then
      r.1 = inl tt ∧ h_MixDigest r.2 = keccak data ∧ v_code (w' TicketKeyAddress) = Some data ∧
      settles time (dadd (refunds time (returned selected (h_retreatTickets header)))
                         (gain (h_Coinbase header) SystemAssetID (coins (calcRewards number)))) w w'
    else r.1 = inr (mixMismatch (h_MixDigest header) (keccak data)).

Lemma finalizeState_spec parents header parent ptime time number selected tk rest s w :
  rep s w → loads s w tk → ready parents header parent ptime time number selected tk rest →
  wp (finalizeState dt chain parents header) (finalized header ptime time number selected rest w) s.
Proof.
  intros Hr Hl [Hpar [Hpt Hpu] (Ht & Hu & Hle) Hnum Hsel Hex Hwf Hty Hsplit (left & Hleft & Hunx)].
  apply wp_bind, (wp_lift _ (inl parent)); [done|].
  apply wp_bind. unfold finalTickets. rewrite Hsel. apply wp_ret.
  apply wp_bind, (wp_AllTickets w s tk); [done|done|]. intros s1 Hr1 Hf1 Ht1.
  assert (Hn : 1 < NumberOfTickets tk).
  { rewrite NumberOfTickets_length, Hsplit. cbn [app length]. rewrite length_app.
    destruct rest; [by apply elem_of_nil in Hleft|]. cbn [length]. lia. }
  destruct (Z.leb_spec (NumberOfTickets tk) 1); [lia|].
  assert (Htyr : Forall ticket_typed (h_retreatTickets header ++ rest) ∧ ticket_typed selected).
  { rewrite Hsplit in Hty. cbn [app] in Hty. apply Forall_cons in Hty. tauto. }
  destruct Htyr as [[Htyr Htyrest]%Forall_app Htys].
  assert (Hin : selected ∈ ToTicketSlice tk) by (rewrite Hsplit; by left).
  apply wp_bind, (wp_deleteTicket w s1 tk header time); [done| |done|done|done|done|done|].
  { apply loads_memory; [apply Hl|done]. }
  intros s2 w2 tk2 snap2 Hr2 Hf2 Ht2 Hwf2 Hp2 Hs2.
  assert (Hp2' : ToTicketSlice tk2 ≡ₚ h_retreatTickets header ++ rest).
  { apply (Permutation_cons_inv (a := selected)). by rewrite <- Hp2, Hsplit. }
  apply wp_bind, (wp_deleteRetreat header time Ht Hu _ 0 w2 s2 tk2); [done|done|done|by exists rest|done|].
  intros s3 w3 tk3 snap3 Hr3 Hf3 Ht3 Hwf3 Hp3 Hs3.
  assert (Hp3' : ToTicketSlice tk3 ≡ₚ rest).
  { apply (Permutation_app_inv_l (h_retreatTickets header)). by rewrite <- Hp3, Hp2'. }
  apply wp_bind, (wp_lift _ ptime); [by rewrite Hpt|]. rewrite bigUint64_id by done.
  apply wp_bind, (wp_UpdateTickets w3 s3 tk3 ptime); [done|done|done|by rewrite Hp3'|exists left; by rewrite Hp3'|].
  intros s4 tk4 data Hr4 Hf4 Ht4 Hwf4 Hp4 Hdata. rewrite Hp3' in Hp4.
  assert (Hset : settles time (refunds time (returned selected (h_retreatTickets header))) w (put_tickets data w3)).
  { eapply settles_proper; [apply refunds_returned|].
    eapply settles_proper; [|exact (settles_trans _ _ _ _ _ _ (settles_trans _ _ _ _ _ _ Hs2 Hs3) (settles_data time _ data w3))].
    intros a h k. unfold dadd, dzero. lia. }
  clear Hs2 Hs3. unfold finalized.
  destruct (negb (h_MixDigest header =? 0) && negb (h_MixDigest header =? keccak data)) eqn:Em.
  { apply wp_ret. exists (put_tickets data w3), tk4, data. split_and!; try done. by rewrite <- negb_orb, negb_true_iff in Em; rewrite Em. }
  rewrite <- negb_orb, negb_false_iff in Em.
  set (header1 := if h_MixDigest header =? 0 then set_MixDigest (keccak data) header else header).
  assert (H1 : h_MixDigest header1 = keccak data ∧ h_Extra header1 = h_Extra header ∧ h_Number header1 = Some number ∧
    h_Coinbase header1 = h_Coinbase header).
  { unfold header1. destruct (Z.eqb_spec (h_MixDigest header) 0); cbn in Em |- *; [done|]. by apply Z.eqb_eq in Em. }
  clearbody header1. destruct H1 as (Hm1 & He1 & Hn1 & Hc1).
  apply wp_bind, wp_gets. rewrite He1. destruct (Nat.ltb_spec (length (h_Extra header)) extraVanity); [lia|].
  apply wp_bind, (wp_lift _ number); [cbn [h_Number set_Extra]; by rewrite Hn1|].
  apply wp_bind, (wp_AddBalance_moves nowhere time (put_tickets data w3)); [done|]. intros s5 w5 Hr5 Hf5 Hm5.
  apply wp_ret. exists w5, tk4, data. rewrite Em. split_and!; try done.
  - by rewrite (frame_tickets _ _ Hf5).
  - rewrite (kp_code _ _ _ (mv_keeps _ _ _ _ _ Hm5)). unfold put_tickets, wset, upd. by rewrite Z.eqb_refl.
  - apply settles_moves in Hm5. cbn [h_Coinbase set_Extra] in Hm5. rewrite Hc1 in Hm5. exact (settles_trans _ _ _ _ _ _ Hset Hm5).
Qed.
End finalize.

Lemma spendable_equiv w w' a h t : w ≡ w' → spendable w a h t = spendable w' a h t.
Proof. intros Hw. unfold spendable, holding. by rewrite Hw. Qed.

(** C5: finalizing a block settles the ledger. On a header whose place was computed
    over the tickets of the state, with a ticket left that has not expired,
    finalizing returns, without panic. The tickets that stay are those that the
    block neither used nor passed over and that had not expired at the parent, and
    their hash is the digest of the header, or the header is refused for another
    digest. When it is accepted, the tickets that the block used go back to their
    owners, the miner has the reward, and no other holding, nonce, notation, slot or
    code changed. From then on, what the accounts can spend together with what the
    tickets stand for has grown by the reward, less the tickets that are lost: those
    of the genesis block and the first one that was passed over. *)
Theorem finalize_settles `{SP : StateParams} `{CU : Curve} `{JS : Json} (dt : DaTong) (chain : ChainReader)
    (parents : list Header) (header parent : Header) (ptime time number : Z) (selected : Ticket)
    (tk : TicketsDataSlice) (rest : list Ticket) (s : StateDB) (w : World) :
  rep s w → loads s w tk → ready chain parents header parent ptime time number selected tk rest →
  wp (finalizeState dt chain parents header)
     (fun r s' => finalized header ptime time number selected rest w r s' ∧
        (r.1 = inl tt → ∀ l h t, NoDup l → h_Coinbase header ∈ l →
           Forall (fun k => tk_Owner k ∈ l) (returned selected (h_retreatTickets header)) → time < t →
           supply_with (world s') (tickets s') l h t = supply_with w tk l h t +
             if h =? SystemAssetID
             then calcRewards number - worth (forfeited selected (h_retreatTickets header)) t else 0)) s.
Proof.
  intros Hr Hl Hrd. eapply wp_mono; [exact (finalizeState_spec dt chain _ _ _ _ _ _ _ _ _ _ _ Hr Hl Hrd)|].
  intros r s' Hfin. split; [exact Hfin|]. intros Hok l h t Hnd Hc Hown Ht.
  destruct Hfin as (w' & tk' & data & [_ Hw] & <- & _ & Hp & _ & Hres). destruct (_ || _); [|congruence].
  destruct Hres as (_ & _ & _ & Hset). destruct Hrd as [_ _ (_ & _ & Hle) _ _ _ _ _ Hsplit _].
  unfold supply_with. rewrite (sumZ_ext _ (fun a => spendable w' a h t)) by (intros; by apply spendable_equiv).
  rewrite (settles_sum _ _ _ _ l h t Hset), dsum_add, dsum_refunds, dsum_gain, (Z.eqb_sym SystemAssetID) by (done || lia).
  unfold staked. fold (worth (ToTicketSlice (tickets s')) t) (worth (ToTicketSlice tk) t).
  rewrite (worth_perm _ _ t Hp), worth_unexpired by lia. rewrite (worth_perm _ _ t Hsplit), worth_app.
  rewrite (worth_perm _ _ t (returned_forfeited selected (h_retreatTickets header))), worth_app.
  unfold spend, coins. destruct (h =? SystemAssetID); lia.
Qed.

(** ** Example *)

(** Three owners with a ticket each; the block uses the first and passes over the second. *)
Definition ex_used : Ticket := mkTicket 5 (mkBody 71 3 0 9000000).
Definition ex_passed : Ticket := mkTicket 6 (mkBody 72 3 0 9000000).
Definition ex_rows : TicketsDataSlice :=
  [mkTicketsData 5 [tk_Body ex_used]; mkTicketsData 6 [tk_Body ex_passed]; mkTicketsData 9 [mkBody 73 4 0 9000000]].
Definition ex_final : Header :=
  mkHeader (header_Hash toy_parent) 0 5 0 0 0 (replicate 256 0) (Some 3) (Some 6) 8000000 0 (Some 1030)
    (replicate 97 0) 0 (EncodeNonce 1) (Some ex_used) [ex_passed].
Definition ex_before : StateDB := set_tickets ex_rows emptyTicketCache ex_state.

Lemma ex_ready : ready toy_chain [] ex_final toy_parent 1000 1030 6 ex_used ex_rows [mkTicket 9 (mkBody 73 4 0 9000000)].
Proof.
  split.
  - unfold getParent. cbn [ex_final h_Number ptr obind last h_ParentHash GetHeader toy_chain toy_parent].
    change (negb (bigUint64 5 =? u64 (bigUint64 6 - 1))) with false. cbn [orb].
    change (h_ParentHash ex_final) with (header_Hash toy_parent).
    rewrite Z.eqb_refl. reflexivity.
  - split; [done|by split].
  - split; [done|]. split; [by split|lia].
  - done.
  - done.
  - apply Nat.leb_le. vm_compute. reflexivity.
  - split; [repeat constructor; set_solver|by repeat constructor|].
    change (NoDup [71; 72; 73]). repeat constructor; set_solver.
  - repeat constructor; cbn; lia.
  - done.
  - eexists. split; [by left|]. by vm_compute.
Qed.

Lemma finalize_settles_witness :
  wp (finalizeState (SP := toy_params) (JS := toy_json) toy_engine toy_chain [] ex_final)
     (fun r s' => finalized (SP := toy_params) ex_final 1000 1030 6 ex_used [mkTicket 9 (mkBody 73 4 0 9000000)] (world ex_before) r s' ∧
        (r.1 = inl tt → ∀ l h t, NoDup l → 5 ∈ l →
           Forall (fun k => tk_Owner k ∈ l) (returned ex_used [ex_passed]) → 1030 < t →
           supply_with (world s') (tickets s') l h t = supply_with (world ex_before) ex_rows l h t +
             if h =? SystemAssetID then calcRewards 6 - worth (forfeited ex_used [ex_passed]) t else 0)) ex_before.
Proof.
  apply (finalize_settles (SP := toy_params) (CU := toy_curve) (JS := toy_json) toy_engine toy_chain [] ex_final toy_parent
    1000 1030 6 ex_used ex_rows [mkTicket 9 (mkBody 73 4 0 9000000)] ex_before).
  - apply rep_set_tickets. split; [apply wf_ex_state|reflexivity].
  - apply loads_memory; [discriminate|reflexivity].
  - exact ex_ready.
Defined.
