(* ===== verification/DatongTickets.v ===== *)
(** * The tickets of a block and its digest

    A header commits to the tickets after its block by the hash in its MixDigest.
    A node finds the tickets of a block in the cache, in a state or by a replay of
    past blocks (consensus/datong/consensus.go, [getAllTickets]). Here: whatever way
    it finds them, their hash is the digest, as long as the states that it opens
    belong to the headers it opens them for; and what happens when they do not. *)

From stdpp Require Import base list gmap strings sorting.
From Stdlib Require Import ZArith Lia.
From S2P Require Import Prelude Bytes Keccak KeccakFacts TimeLock TimeLockFacts Ticket FsnTypes.
From S2P Require Import Rlp RlpFacts Codec CallParams StateDB StateRecords StateFacts StateRevert.
From S2P Require Import StateInterface StateWorld Ledger StateTransition CallFacts TicketLedger.
From S2P Require Import Hex Header Snapshot Receipt Transaction Block Datong DatongFacts DatongOrder DatongSeal.

(** ** The ring of cached tickets *)

Record ring_ok (c : CachedTicketSlice) : Prop := {
  ri_length : length (cts_tickets c) = 101%nat;
  ri_start : 0 <= cts_start c < 101;
  ri_end : 0 <= cts_end c < 101;
}.

(** How many entries lie from [i] to the end, and the one at a place after [i]. *)
Definition span (c : CachedTicketSlice) (i : Z) : Z := (cts_end c - i) mod 101.
Definition entry_at (c : CachedTicketSlice) (i : Z) (j : Z) : option CachedTickets :=
  cts_tickets c !! Z.to_nat ((i + j) mod 101).

Lemma entry_some c i j : ring_ok c → ∃ v, entry_at c i j = Some v.
Proof.
  intros [Hl _ _]. apply lookup_lt_is_Some. rewrite Hl. pose proof (Z.mod_pos_bound (i + j) 101 ltac:(lia)). lia.
Qed.

Lemma entry_next c i j : 0 <= i < 101 → entry_at c ((i + 1) mod 101) j = entry_at c i (1 + j).
Proof. intros Hi. unfold entry_at. rewrite Zplus_mod_idemp_l. by replace (i + 1 + j) with (i + (1 + j)) by lia. Qed.
Lemma entry_first c i : 0 <= i < 101 → entry_at c i 0 = cts_tickets c !! Z.to_nat i.
Proof. intros Hi. unfold entry_at. by rewrite Z.add_0_r, Z.mod_small. Qed.
Lemma span_next c i : ring_ok c → 0 <= i < 101 → i ≠ cts_end c → span c ((i + 1) mod 101) = span c i - 1.
Proof. intros [_ _ He] Hi Hne. unfold span. Z.to_euclidean_division_equations; lia. Qed.
Lemma span_zero c i : ring_ok c → 0 <= i < 101 → i = cts_end c ↔ span c i = 0.
Proof.
  intros [_ _ He] Hi. unfold span. split; [intros ->; by rewrite Z.sub_diag|].
  intros E. Z.to_euclidean_division_equations; lia.
Qed.

Lemma loop_none c hash fuel : ring_ok c → ∀ i, 0 <= i < 101 → span c i <= Z.of_nat fuel →
  cts_Get_loop fuel c i hash = None → ∀ j, 0 <= j < span c i → ∀ v, entry_at c i j = Some v → ct_hash v ≠ hash.
Proof.
  intros Hc. induction fuel as [|fuel IH]; intros i Hi Hf Hg j Hj v Hv; [lia|]. cbn [cts_Get_loop] in Hg.
  destruct (Z.eqb_spec i (cts_end c)) as [E|Hne]; [apply (span_zero c i Hc Hi) in E; lia|].
  destruct (entry_some c i 0 Hc) as [v0 H0]. rewrite <- entry_first, H0 in Hg by done.
  destruct (Z.eqb_spec (ct_hash v0) hash) as [|Hh]; [done|].
  destruct (Z.eq_dec j 0) as [->|Hj0]; [congruence|].
  pose proof (Z.mod_pos_bound (i + 1) 101 ltac:(lia)) as Hi'. pose proof (span_next c i Hc Hi Hne) as Hs.
  apply (IH ((i + 1) mod 101) Hi' ltac:(lia) Hg (j - 1) ltac:(lia)). rewrite entry_next by done. by replace (1 + (j - 1)) with j by lia.
Qed.

Lemma loop_found c hash ts fuel : ring_ok c → ∀ i k, 0 <= i < 101 → 0 <= k < span c i → span c i <= Z.of_nat fuel →
  entry_at c i k = Some (mkCachedTickets hash ts) →
  (∀ j v, 0 <= j < k → entry_at c i j = Some v → ct_hash v ≠ hash) → cts_Get_loop fuel c i hash = Some ts.
Proof.
  intros Hc. induction fuel as [|fuel IH]; intros i k Hi Hk Hf He Hb; [lia|]. cbn [cts_Get_loop].
  destruct (Z.eqb_spec i (cts_end c)) as [E|Hne]; [apply (span_zero c i Hc Hi) in E; lia|].
  rewrite <- entry_first by done. destruct (Z.eq_dec k 0) as [->|Hk0].
  { rewrite He. cbn [ct_hash ct_tickets]. by rewrite Z.eqb_refl. }
  destruct (entry_some c i 0 Hc) as [v0 H0]. rewrite H0.
  destruct (Z.eqb_spec (ct_hash v0) hash) as [E|_]; [case (Hb 0 v0 ltac:(lia) H0 E)|].
  pose proof (Z.mod_pos_bound (i + 1) 101 ltac:(lia)) as Hi'. pose proof (span_next c i Hc Hi Hne) as Hs.
  apply (IH ((i + 1) mod 101) (k - 1)); [exact Hi'|rewrite Hs; lia|rewrite Hs; lia| |].
  - rewrite entry_next by done. by replace (1 + (k - 1)) with k by lia.
  - intros j v Hj Hv. rewrite entry_next in Hv by done. apply (Hb (1 + j)); [lia|done].
Qed.

Lemma ring_add c hash ts : ring_ok c → ring_ok (cts_Add c hash ts).
Proof.
  intros Hc. pose proof Hc as [Hl Hs He]. unfold cts_Add. destruct (cts_Get c hash); [done|]. unfold maxCachedTicketsCount.
  split; cbn [cts_tickets cts_start cts_end]; [by rewrite length_insert| |apply Z.mod_pos_bound; lia].
  destruct (_ =? _); [apply Z.mod_pos_bound; lia|done].
Qed.

(** What is added is found. *)
Lemma cts_Get_Add c hash ts : ring_ok c → hash ≠ 0 → cts_Get c hash = None → cts_Get (cts_Add c hash ts) hash = Some ts.
Proof.
  intros Hc H0 Hn. pose proof (ring_add c hash ts Hc) as Hc'. pose proof Hc as [Hl Hs He].
  unfold cts_Get in *. destruct (Z.eqb_spec hash 0) as [|_]; [done|].
  assert (Hsp : 0 <= span c (cts_start c) < 101) by (unfold span; apply Z.mod_pos_bound; lia).
  pose proof (loop_none c hash 101 Hc _ Hs ltac:(lia) Hn) as Hnone.
  assert (Hend : (cts_start c + span c (cts_start c)) mod 101 = cts_end c).
  { unfold span. rewrite Zplus_mod_idemp_r. replace (cts_start c + (cts_end c - cts_start c)) with (cts_end c) by lia. by apply Z.mod_small. }
  set (n := span c (cts_start c)) in *.
  assert (Hother : ∀ i j, (i + j) mod 101 ≠ cts_end c → 0 <= i < 101 →
    entry_at (cts_Add c hash ts) i j = entry_at c i j).
  { intros i j Hne Hi. unfold entry_at, cts_Add, cts_Get. destruct (Z.eqb_spec hash 0) as [|_]; [done|]. rewrite Hn.
    cbn [cts_tickets]. apply list_lookup_insert_ne. pose proof (Z.mod_pos_bound (i + j) 101 ltac:(lia)). lia. }
  assert (Hnew : ∀ i j, (i + j) mod 101 = cts_end c → entry_at (cts_Add c hash ts) i j = Some (mkCachedTickets hash ts)).
  { intros i j E. unfold entry_at. rewrite E. unfold cts_Add, cts_Get. destruct (Z.eqb_spec hash 0) as [|_]; [done|]. rewrite Hn.
    cbn [cts_tickets]. apply list_lookup_insert_eq. lia. }
  assert (Hst : (cts_start (cts_Add c hash ts) = cts_start c ∧ span (cts_Add c hash ts) (cts_start c) = n + 1) ∨
    (n = 100 ∧ cts_start (cts_Add c hash ts) = (cts_start c + 1) mod 101 ∧
     span (cts_Add c hash ts) ((cts_start c + 1) mod 101) = 100)).
  { unfold cts_Add, cts_Get. destruct (Z.eqb_spec hash 0) as [|_]; [done|]. rewrite Hn. unfold span, n, span, maxCachedTicketsCount. cbn [cts_start cts_end].
    destruct (Z.eqb_spec ((cts_end c + 1) mod 101) (cts_start c)); [right|left]; Z.to_euclidean_division_equations; lia. }
  destruct Hst as [[-> Hspan]|(Hn100 & -> & Hspan)].
  - apply (loop_found _ _ _ _ Hc' _ n); [done|lia|lia|by apply Hnew|]. intros j v Hj Hv. rewrite Hother in Hv.
    + apply (Hnone j); [lia|done].
    + rewrite <- Hend. Z.to_euclidean_division_equations; lia.
    + done.
  - pose proof (Z.mod_pos_bound (cts_start c + 1) 101 ltac:(lia)).
    apply (loop_found _ _ _ _ Hc' _ 99); [done|lia|lia| |].
    + apply Hnew. rewrite <- Hend, Hn100. Z.to_euclidean_division_equations; lia.
    + intros j v Hj Hv. rewrite Hother, entry_next in Hv; [|done| |done].
      * apply (Hnone (1 + j)); [lia|done].
      * rewrite <- Hend, Hn100. Z.to_euclidean_division_equations; lia.
Qed.

(** ** The digest *)

(** What the code relies on of package gzip: what was compressed is read back, and
    a stream has a header. *)
Class GzipLaws `{StateParams} : Prop := {
  gunzip_gzip b : gunzip (gzip b) = Some b;
  gzip_header b : gzip b ≠ [];
}.

Section digest.
Context `{SP : StateParams}.

Definition tickets_digest (ts : TicketsDataSlice) : option Hash :=
  match calcTicketsStorageData ts with inl d => Some (keccak d) | inr _ => None end.

Definition cache_honest (c : CachedTicketSlice) : Prop :=
  Forall (fun v => ct_hash v = 0 ∨ tickets_digest (ct_tickets v) = Some (ct_hash v)) (cts_tickets c).

Lemma loop_honest c hash fuel i ts : cache_honest c → hash ≠ 0 →
  cts_Get_loop fuel c i hash = Some ts → tickets_digest ts = Some hash.
Proof.
  intros Hc H0. revert i. induction fuel as [|fuel IH]; intros i; cbn [cts_Get_loop]; destruct (i =? cts_end c); try done.
  destruct (cts_tickets c !! Z.to_nat i) as [v|] eqn:E; [|done].
  destruct (Z.eqb_spec (ct_hash v) hash) as [<-|]; [|apply IH]. intros [= <-].
  unfold cache_honest in Hc. rewrite Forall_lookup in Hc. by destruct (Hc _ _ E).
Qed.

Lemma cache_get c hash ts : cache_honest c → hash ≠ 0 → cts_Get c hash = Some ts → tickets_digest ts = Some hash.
Proof. intros Hc H0. unfold cts_Get. destruct (Z.eqb_spec hash 0); [done|]. by apply loop_honest. Qed.

Lemma cache_add c hash ts : cache_honest c → tickets_digest ts = Some hash → cache_honest (cts_Add c hash ts).
Proof.
  intros Hc Hd. unfold cts_Add. destruct (cts_Get c hash); [done|]. unfold cache_honest. cbn [cts_tickets].
  apply Forall_insert; [done|]. by right.
Qed.

Lemma emptyTicketCache_honest : cache_honest emptyTicketCache ∧ ring_ok emptyTicketCache.
Proof.
  split; [|by split]. unfold cache_honest, emptyTicketCache. cbn [cts_tickets]. apply Forall_replicate. by left.
Qed.

(** The stored data of these two lists of tickets differ and have one hash. *)
Definition tickets_collide (ts1 ts2 : TicketsDataSlice) : Prop :=
  ∃ d1 d2, calcTicketsStorageData ts1 = inl d1 ∧ calcTicketsStorageData ts2 = inl d2 ∧ d1 ≠ d2 ∧ keccak d1 = keccak d2.

(** Equal digests mean equal tickets, unless these collide. *)

Lemma digest_inj `{!GzipLaws} ts1 ts2 h :
  tickets_digest ts1 = Some h → tickets_digest ts2 = Some h →
  tickets_collide ts1 ts2 ∨ ∃ b, Marshal ts1 = inl b ∧ Marshal ts2 = inl b.
Proof.
  unfold tickets_digest, tickets_collide, calcTicketsStorageData.
  destruct (Marshal ts1) as [b1|] eqn:E1; [|done]. destruct (Marshal ts2) as [b2|] eqn:E2; [|done].
  intros [= <-] Heq. injection Heq as Heq. destruct (decide (gzip b1 = gzip b2)) as [Hg|Hg].
  - right. exists b1. split; [done|]. apply (f_equal gunzip) in Hg. rewrite !gunzip_gzip in Hg. congruence.
  - left. by exists (gzip b1), (gzip b2).
Qed.

(** ** Opening a state *)

(** The data of the ticket account in a state: tickets as [UpdateTickets] wrote them. *)
Record kept (s : StateDB) (tk : TicketsDataSlice) (data : bytes) : Prop := {
  ke_wf : wf_db s;
  ke_code : v_code (world s TicketKeyAddress) = Some data;
  ke_data : calcTicketsStorageData tk = inl data;
  ke_typed : rlp_wf tk;
  ke_fits : ∀ b, Marshal tk = inl b → fits b;
}.

Lemma AllTickets_opened `{!GzipLaws} s tk data : kept s tk data → tickets s = [] → cts_Get (cached s) (ticketsHash s) = None →
  ∃ s', AllTickets s = Done (inl tk, s') ∧ cached s' = cts_Add (cached s) (ticketsHash s) tk.
Proof.
  intros [Hwf Hcode Hdata Hty Hfit] Ht Hc.
  destruct (Unmarshal_Marshal tk Hty) as (b & Hb & Hu). specialize (Hu (Hfit b Hb)).
  assert (data = gzip b) as -> by (unfold calcTicketsStorageData in Hdata; rewrite Hb in Hdata; congruence).
  destruct (gzip b) as [|x z] eqn:Ez; [by destruct (gzip_header b)|].
  enough (wp AllTickets (fun r s' => r = inl tk ∧ cached s' = cts_Add (cached s) (ticketsHash s) tk) s) as (r & s' & Hrun & -> & ?)
    by by exists s'.
  apply wp_bind, wp_get. rewrite Ht. cbn [length Nat.eqb negb]. rewrite Hc.
  apply wp_bind, (wp_GetData (world s)); [by split|]. intros s1 Hr1 Hf1. rewrite Hcode.
  apply wp_bind, wp_get. rewrite <- Ez, gunzip_gzip, Hu. apply wp_bind, wp_modify, wp_ret. split; [done|].
  cbn [cached set_tickets]. by destruct Hf1 as [_ _ _ _ (_ & _ & ->)].
Qed.

Lemma AllTickets_hit s c : tickets s = [] → cts_Get (cached s) (ticketsHash s) = Some c →
  AllTickets s = Done (inl c, set_tickets c (cached s) s).
Proof. intros Ht Hc. unfold AllTickets, mbind, M_bind, get. cbn [obind fst snd]. rewrite Ht. cbn [length Nat.eqb negb]. by rewrite Hc. Qed.
End digest.

Section engine.
Context `{SP : StateParams} `{JS : Json} `{!GzipLaws}.
Context (dt : DaTong) (chain : ChainReader).

(** A header whose state, if the node has it, holds the tickets of its digest. *)
Definition own_state (header : Header) : Prop :=
  ∀ cache s, NewStateDB (h_Root header) (h_MixDigest header) (dt_stateCache dt) cache = Some s →
  ∃ tk data, kept s tk data ∧ keccak data = h_MixDigest header.

Lemma NewStateDB_fields root mix d cache s : NewStateDB root mix d cache = Some s →
  tickets s = [] ∧ cached s = cache ∧ ticketsHash s = mix.
Proof. unfold NewStateDB. destruct (OpenTrie d root); [|done]. by intros [= <-]. Qed.

Lemma state_tickets_digest header e r e' : own_state header → cache_honest (e_cache e) →
  state_tickets dt header e = Done (inl r, e') →
  cache_honest (e_cache e') ∧ ∀ ts, r = Some ts → h_MixDigest header ≠ 0 → tickets_digest ts = Some (h_MixDigest header).
Proof.
  intros Hown Hc. unfold state_tickets.
  destruct (NewStateDB _ _ _ _) as [s|] eqn:Es; [|intros [= <- <-]; done].
  destruct (NewStateDB_fields _ _ _ _ _ Es) as (Ht & Hca & Hh).
  destruct (cts_Get (e_cache e) (h_MixDigest header)) as [c|] eqn:Eg.
  - rewrite (AllTickets_hit s c) by congruence. cbn [obind]. intros [= <- <-]. cbn [e_cache cached set_tickets].
    rewrite Hca. split; [done|]. intros ts [= <-] H0. by apply (cache_get (e_cache e)).
  - destruct (Hown _ _ Es) as (tk & data & Hk & Hd).
    destruct (AllTickets_opened s tk data Hk Ht ltac:(congruence)) as (s' & -> & Hc'). cbn [obind]. intros [= <- <-].
    assert (Hdig : tickets_digest tk = Some (h_MixDigest header)) by (unfold tickets_digest; by rewrite (ke_data _ _ _ Hk), Hd).
    cbn [e_cache]. rewrite Hc', Hca, Hh. split; [by apply cache_add|]. by intros ts [= <-] _.
Qed.

Lemma past_state_honest fuel : (∀ hash n g, GetHeader chain hash n = Some g → own_state g) →
  ∀ h hs e r e', cache_honest (e_cache e) →
  past_state dt chain fuel h hs e = Done (inl r, e') → cache_honest (e_cache e').
Proof.
  intros Hown. induction fuel as [|fuel IH]; intros h hs e r e' Hc; cbn [past_state]; [done|].
  unfold mbind, E_bind, e_lift, e_fail, mret, E_ret. destruct (h_Number h) as [n|]; cbn [ptr obind]; [|done].
  destruct (GetHeader _ _ _) as [p|] eqn:Eh; [|done].
  destruct (state_tickets dt p e) as [[[r1|err] e1]| |] eqn:Es; cbn [obind]; [|done|done|done].
  apply (state_tickets_digest p) in Es as [Hc1 _]; [|by apply (Hown _ _ _ Eh)|done].
  destruct r1 as [ts|]; [intros [= _ <-]; exact Hc1|].
  destruct (h_Number p) as [m|]; cbn [ptr obind]; [|done]. destruct (_ =? 0); [done|]. by apply IH.
Qed.

Lemma getAllTickets_digest header e ts e' : h_MixDigest header ≠ 0 → own_state header →
  (∀ hash n g, GetHeader chain hash n = Some g → own_state g) → cache_honest (e_cache e) →
  getAllTickets dt chain header e = Done (inl ts, e') →
  tickets_digest ts = Some (h_MixDigest header) ∧ cache_honest (e_cache e').
Proof.
  intros H0 Hown Hall Hc. unfold getAllTickets.
  destruct (cts_Get _ _) as [c|] eqn:Eg; [intros [= <- <-]; split; [by apply (cache_get (e_cache e))|done]|].
  unfold mbind, E_bind, e_lift, e_try, e_fail, mret, E_ret.
  destruct (state_tickets dt header e) as [[[r1|err] e1]| |] eqn:Es; cbn [obind]; [|done|done|done].
  apply (state_tickets_digest header) in Es as [Hc1 Hd]; [|done|done].
  destruct r1 as [tk|]; [intros [= <- <-]; auto|].
  destruct (h_Number header) as [n|]; cbn [ptr obind]; [|done]. destruct (_ =? 0); [done|].
  destruct (past_state _ _ _ _ _ _) as [[[[ts1 hs]|err] e2]| |] eqn:Ep; cbn [obind]; [|done|done|done].
  apply past_state_honest in Ep; [|done|done].
  destruct (replay _ _ _) as [[ts2|err]| |]; cbn [obind]; [|done|done|done].
  destruct (h_Time header) as [t|]; cbn [ptr obind]; [|done].
  destruct (ClearExpiredTickets _ _) as [ts3 [err|]]; [done|]. unfold AddCachedTickets.
  destruct (calcTicketsStorageData ts3) as [d|] eqn:Ed; [|done].
  destruct (Z.eqb_spec (h_MixDigest header) (keccak d)) as [Hm|]; cbn [negb]; [|done]. intros [= <- <-].
  assert (tickets_digest ts3 = Some (h_MixDigest header)) by (unfold tickets_digest; by rewrite Ed, Hm).
  split; [done|]. cbn [e_cache]. by apply cache_add.
Qed.
End engine.

(** ** Properties *)

(** C12: nodes agree on the tickets of a block. Two nodes that find tickets for the
    same header, each in its cache, in a state or by a replay of past blocks, find
    tickets with the same encoding, unless the stored data of the tickets that the
    one found and of those that the other found are different byte strings with the
    same hash. The caches are honest, that is, each entry hashes to its key,
    and finding the tickets keeps them honest; the states that the nodes have for
    the headers of their chains hold the tickets of the digest, as a block that was
    finalized leaves them. *)
Theorem nodes_agree_on_tickets `{SP : StateParams} `{JS : Json} `{GZ : !GzipLaws} (dt1 dt2 : DaTong)
    (chain1 chain2 : ChainReader) (header : Header) (e1 e2 e1' e2' : env) (ts1 ts2 : TicketsDataSlice) :
  h_MixDigest header ≠ 0 → own_state dt1 header → own_state dt2 header →
  (∀ hash n g, GetHeader chain1 hash n = Some g → own_state dt1 g) →
  (∀ hash n g, GetHeader chain2 hash n = Some g → own_state dt2 g) →
  cache_honest (e_cache e1) → cache_honest (e_cache e2) →
  getAllTickets dt1 chain1 header e1 = Done (inl ts1, e1') → getAllTickets dt2 chain2 header e2 = Done (inl ts2, e2') →
  cache_honest (e_cache e1') ∧ cache_honest (e_cache e2') ∧
  (tickets_collide ts1 ts2 ∨ (∃ b, Marshal ts1 = inl b ∧ Marshal ts2 = inl b) ∧
     (rlp_wf ts1 → rlp_wf ts2 → (∀ b, Marshal ts1 = inl b → fits b) → ts1 = ts2)).
Proof.
  intros H0 Ho1 Ho2 Ha1 Ha2 Hc1 Hc2 Hg1 Hg2.
  destruct (getAllTickets_digest dt1 chain1 header e1 ts1 e1' H0 Ho1 Ha1 Hc1 Hg1) as [Hd1 Hc1'].
  destruct (getAllTickets_digest dt2 chain2 header e2 ts2 e2' H0 Ho2 Ha2 Hc2 Hg2) as [Hd2 Hc2'].
  split; [done|]. split; [done|]. destruct (digest_inj ts1 ts2 _ Hd1 Hd2) as [|(b & Hb1 & Hb2)]; [by left|right].
  split; [by exists b|]. intros Hw1 Hw2 Hfit.
  destruct (Unmarshal_Marshal ts1 Hw1) as (b1 & E1 & Hu1). destruct (Unmarshal_Marshal ts2 Hw2) as (b2 & E2 & Hu2).
  assert (b1 = b) as -> by congruence. assert (b2 = b) as -> by congruence.
  specialize (Hu1 (Hfit b E1)). specialize (Hu2 (Hfit b E1)). congruence.
Qed.

(** C24: the ticket cache can be poisoned. The digest of a header is a claim of its
    sender until the block is finalized. On a header that claims the root of a state
    that the node has and any digest that is not in the cache, the engine returns the
    tickets of that state and caches them under the claimed digest, unchecked; from
    then on they are the tickets of every header with that digest. *)
Theorem ticket_cache_poisoned `{SP : StateParams} `{JS : Json} `{GZ : !GzipLaws} (dt : DaTong) (chain : ChainReader)
    (header victim : Header) (e : env) (s : StateDB) (tk : TicketsDataSlice) (data : bytes) :
  ring_ok (e_cache e) → h_MixDigest header ≠ 0 → cts_Get (e_cache e) (h_MixDigest header) = None →
  NewStateDB (h_Root header) (h_MixDigest header) (dt_stateCache dt) (e_cache e) = Some s → kept s tk data →
  h_MixDigest victim = h_MixDigest header →
  ∃ e', getAllTickets dt chain header e = Done (inl tk, e') ∧
        getAllTickets dt chain victim e' = Done (inl tk, e').
Proof.
  intros Hr H0 Hg Hs Hk Hv. destruct (NewStateDB_fields _ _ _ _ _ Hs) as (Ht & Hca & Hh).
  destruct (AllTickets_opened s tk data Hk Ht ltac:(congruence)) as (s' & Hrun & Hc').
  exists (mkEnv (e_header e) (cached s')). split.
  - unfold getAllTickets. rewrite Hg. unfold mbind, E_bind, state_tickets. rewrite Hs, Hrun. reflexivity.
  - unfold getAllTickets. cbn [e_cache]. by rewrite Hv, Hc', Hca, Hh, cts_Get_Add.
Qed.

(** ** Examples *)

(** A stream is the data behind one byte. *)
Definition gz_params : StateParams :=
  {| DebugMode := false; trie_Hash t := Z.of_nat (size t); gzip b := 31 :: b;
     gunzip b := match b with 31 :: b => Some b | _ => None end |}.
Lemma gz_laws : GzipLaws (H := gz_params).
Proof. by split. Qed.

(** A node that has the state of root 1234, with the tickets of an owner. *)
Definition gz_rows : TicketsDataSlice := [mkTicketsData 9 [mkBody 70 3 0 9000000]; mkTicketsData 5 [mkBody 71 3 0 9000000]].
Definition gz_data : bytes := Eval vm_compute in 31 :: encoded gz_rows.
Definition gz_digest : Hash := Eval vm_compute in keccak gz_data.
Definition gz_account : bytes := Eval vm_compute in encoded (mkAccount 0 0 [] [] [] [] 0 (Hash_Bytes gz_digest)).
Definition gz_trie : Trie := {[TicketKeyAddress := gz_account]}.
Definition gz_engine : DaTong :=
  mkDaTong 15 (mkChaindb (fun _ => None) (fun _ _ => [])) (mkDatabase {[1234 := gz_trie]} {[gz_digest := gz_data]})
    toy_address (fun _ x => inl (toy_sign x)).
(** A header of that state with a digest. *)
Definition gz_header (mix : Hash) : Header :=
  mkHeader 1 0 77 1234 3 4 (replicate 256 0) (Some 5) (Some 5) 8000000 0 (Some 1000) (replicate 97 0) mix
    (replicate 8 0) None [].
Definition gz_state (mix : Hash) (cache : CachedTicketSlice) : StateDB :=
  mkStateDB (dt_stateCache gz_engine) gz_trie ∅ ∅ None 0 0 0 0 ∅ 0 ∅ newJournal [] 0 mix [] cache.

Lemma gz_digest_data : keccak gz_data = gz_digest.
Proof. by vm_compute. Qed.
Lemma gz_open mix cache : NewStateDB 1234 mix (dt_stateCache gz_engine) cache = Some (gz_state mix cache).
Proof.
  unfold NewStateDB. assert (OpenTrie (dt_stateCache gz_engine) 1234 = Some gz_trie) as -> by (by vm_compute). reflexivity.
Qed.

Lemma gz_kept mix cache : kept (SP := gz_params) (gz_state mix cache) gz_rows gz_data.
Proof.
  split.
  - split; [done| |done|done|by split].
    intros a d Ha. unfold acct_at in Ha. cbn [trie gz_state] in Ha. unfold gz_trie in Ha.
    destruct (decide (TicketKeyAddress = a)) as [<-|Hne]; [|by rewrite lookup_singleton_ne in Ha].
    rewrite lookup_singleton_eq in Ha.
    assert (d = mkAccount 0 0 [] [] [] [] 0 (Hash_Bytes gz_digest)) as -> by (vm_compute in Ha; injection Ha as <-; by vm_compute).
    split; [reflexivity|reflexivity|constructor|constructor|constructor|constructor|].
    split; [apply length_be_bytes|apply be_bytes_are_bytes].
  - by vm_compute.
  - by vm_compute.
  - repeat constructor; cbn; lia.
  - intros b Hb. vm_compute in Hb. injection Hb as <-. by vm_compute.
Qed.

Lemma own_state_unknown dt header : OpenTrie (dt_stateCache dt) (h_Root header) = None → own_state (SP := gz_params) dt header.
Proof. intros Ho cache s. unfold NewStateDB. by rewrite Ho. Qed.
Lemma toy_parent_unknown dt : OpenTrie (dt_stateCache dt) 2 = None →
  ∀ hash n g, GetHeader toy_chain hash n = Some g → own_state (SP := gz_params) dt g.
Proof. intros Ho hash n g [= <-]. by apply own_state_unknown. Qed.

(** One node has the tickets in its cache, the other the state. *)
Lemma nodes_agree_on_tickets_witness :
  let e := mkEnv toy_work emptyTicketCache in
  let e1 := mkEnv toy_work (cts_Add emptyTicketCache gz_digest gz_rows) in
  cache_honest (SP := gz_params) (e_cache e1) ∧ cache_honest (SP := gz_params) (e_cache e1) ∧
  (tickets_collide (SP := gz_params) gz_rows gz_rows ∨ (∃ b, Marshal gz_rows = inl b ∧ Marshal gz_rows = inl b) ∧
     (rlp_wf gz_rows → rlp_wf gz_rows → (∀ b, Marshal gz_rows = inl b → fits b) → gz_rows = gz_rows)).
Proof.
  intros e e1.
  apply (nodes_agree_on_tickets (SP := gz_params) (JS := toy_json) (GZ := gz_laws) toy_engine gz_engine toy_chain toy_chain
    (gz_header gz_digest) e1 e).
  - by vm_compute.
  - apply own_state_unknown. by vm_compute.
  - intros cache s Hs. cbn [h_Root h_MixDigest gz_header] in Hs. rewrite gz_open in Hs. injection Hs as <-.
    exists gz_rows, gz_data. split; [apply gz_kept|apply gz_digest_data].
  - apply toy_parent_unknown. by vm_compute.
  - apply toy_parent_unknown. by vm_compute.
  - apply cache_add; [apply emptyTicketCache_honest|by vm_compute].
  - apply emptyTicketCache_honest.
  - by vm_compute.
  - by vm_compute.
Defined.

(** The digest 666 is claimed for the state of root 1234. *)
Lemma ticket_cache_poisoned_witness :
  ∃ e', getAllTickets (SP := gz_params) (JS := toy_json) gz_engine toy_chain (gz_header 666) (mkEnv toy_work emptyTicketCache)
          = Done (inl gz_rows, e') ∧
        getAllTickets (SP := gz_params) (JS := toy_json) gz_engine toy_chain
          (mkHeader 9 0 77 4321 3 4 [] (Some 5) (Some 7) 8000000 0 (Some 1100) (replicate 97 0) 666 (replicate 8 0) None []) e'
          = Done (inl gz_rows, e').
Proof.
  apply (ticket_cache_poisoned (SP := gz_params) (JS := toy_json) (GZ := gz_laws) gz_engine toy_chain (gz_header 666) _ _
    (gz_state 666 emptyTicketCache) gz_rows gz_data).
  - apply emptyTicketCache_honest.
  - discriminate.
  - by vm_compute.
  - apply gz_open.
  - apply gz_kept.
  - reflexivity.
Defined.
