(* ===== verification/EvmWord.v ===== *)
(** * The words of the EVM (common/math, core/vm/common.go)

    A word is a number below 2^256. The arithmetic of the instructions goes
    through [U256] and [S256], which move between a word and the number that it
    stands for in two's complement, and through [Exp], [Byte] and [ReadBits],
    which work on the 64-bit limbs of a [big.Int]. Each of them is shown to be
    the function that it means to be. *)

From stdpp Require Import base list.
From Stdlib Require Import ZArith Lia Zpow_facts.
From S2P Require Import Prelude Bytes.

(** ** common/math *)

Definition tt255 : Z := 2 ^ 255.
Definition tt256 : Z := 2 ^ 256.
Definition tt256m1 : Z := tt256 - 1.

(** [And] of math/big reads a negative number as an infinite two's complement,
    as [Z.land] does. *)
Definition U256 (x : Z) : Z := Z.land x tt256m1.
Definition S256 (x : Z) : Z := if bigCmp x tt255 <? 0 then x else x - tt256.

Definition BigMax (x y : Z) : Z := if bigCmp x y <? 0 then y else x.
Definition BigMin (x y : Z) : Z := if 0 <? bigCmp x y then y else x.

(** [Bits] of math/big: the 64-bit limbs of the absolute value, the lowest first. *)
Definition limb (z : Z) (i : nat) : Z := Z.abs z / two64 ^ Z.of_nat i mod two64.
Definition Bits (z : Z) : list Z := limb z <$> seq 0 (Z.to_nat ((BitLen z + 63) / 64)).

(** The inner loop of [Exp], with [n] bits of the limb left. *)
Fixpoint Exp_word (n : nat) (word base result : Z) : Z * Z :=
  match n with
  | O => (base, result)
  | S n =>
      let result := if Z.land word 1 =? 1 then U256 (result * base) else result in
      Exp_word n (Z.shiftr word 1) (U256 (base * base)) result
  end.
Fixpoint Exp_loop (words : list Z) (base result : Z) : Z :=
  match words with
  | [] => result
  | word :: words => let '(base, result) := Exp_word 64 word base result in Exp_loop words base result
  end.
Definition Exp (base exponent : Z) : Z := Exp_loop (Bits exponent) base 1.

Definition bigEndianByteAt (bigint : Z) (n : Z) : Z :=
  match Bits bigint !! Z.to_nat (n / 8) with
  | None => 0
  | Some word => Z.shiftr word (8 * (n mod 8)) mod 256
  end.
Definition Byte (bigint padlength n : Z) : Z :=
  if padlength <=? n then 0 else bigEndianByteAt bigint (padlength - 1 - n).

(** The loops of [ReadBits]; [i] is where the next byte goes, from the right. *)
Fixpoint ReadBits_word (j : nat) (d : Z) (i : nat) (buf : bytes) : nat * bytes :=
  match j, i with
  | S j, S i => ReadBits_word j (Z.shiftr d 8) i (<[i := d mod 256]> buf)
  | _, _ => (i, buf)
  end.
Fixpoint ReadBits_loop (words : list Z) (i : nat) (buf : bytes) : bytes :=
  match words with
  | [] => buf
  | d :: words => let '(i, buf) := ReadBits_word 8 d i buf in ReadBits_loop words i buf
  end.
Definition ReadBits (bigint : Z) (buf : bytes) : bytes :=
  ReadBits_loop (Bits bigint) (length buf) buf.

(** The result, and whether it overflowed. *)
Definition SafeAdd (x y : Z) : Z * bool := (u64 (x + y), max_u64 - x <? y).
Definition SafeMul (x y : Z) : Z * bool :=
  if (x =? 0) || (y =? 0) then (0, false) else (u64 (x * y), max_u64 / x <? y).

(** ** Words *)

Definition word (x : Z) : Prop := 0 <= x < tt256.

Lemma tt256_val : tt256 = 2 ^ 256.
Proof. reflexivity. Qed.

Lemma U256_mod x : U256 x = x mod tt256.
Proof.
  unfold U256, tt256m1, tt256. replace (2 ^ 256 - 1) with (Z.ones 256) by reflexivity.
  by rewrite Z.land_ones by lia.
Qed.
Lemma U256_word x : word (U256 x).
Proof. rewrite U256_mod. apply Z.mod_pos_bound. reflexivity. Qed.
Lemma U256_id x : word x → U256 x = x.
Proof. rewrite U256_mod. apply Z.mod_small. Qed.

(** [S256] gives the number of which a word is the two's complement. *)
Lemma S256_spec x : word x → - tt255 <= S256 x < tt255 ∧ U256 (S256 x) = x.
Proof.
  intros Hx. pose proof (bigCmp_lt x tt255) as Hc. rewrite U256_mod. unfold S256, word in *.
  assert (tt256 = 2 * tt255) by reflexivity.
  destruct (Z.ltb_spec (bigCmp x tt255) 0).
  - split; [lia|]. apply Z.mod_small. lia.
  - split; [lia|]. rewrite <- (Z.mod_small x tt256) at 2 by lia.
    rewrite <- (Z_mod_plus_full (x - tt256) 1 tt256). f_equal. lia.
Qed.
Lemma S256_U256 v : - tt255 <= v < tt255 → S256 (U256 v) = v.
Proof.
  intros Hv. pose proof (S256_spec (U256 v) (U256_word v)) as [Hr He].
  revert Hr He. generalize (S256 (U256 v)). rewrite !U256_mod. intros r Hr. rewrite U256_mod. intros He.
  pose proof (Z.div_mod r tt256 ltac:(done)). pose proof (Z.div_mod v tt256 ltac:(done)).
  unfold tt256, tt255 in *. lia.
Qed.

Lemma BigMax_max x y : BigMax x y = Z.max x y.
Proof. unfold BigMax. pose proof (bigCmp_lt x y). destruct (Z.ltb_spec (bigCmp x y) 0); lia. Qed.
Lemma BigMin_min x y : BigMin x y = Z.min x y.
Proof. unfold BigMin. pose proof (bigCmp_gt x y). destruct (Z.ltb_spec 0 (bigCmp x y)); lia. Qed.

Lemma SafeAdd_spec x y : is_u64 x → is_u64 y →
  SafeAdd x y = (u64 (x + y), negb (x + y <? two64)).
Proof.
  intros Hx Hy. unfold SafeAdd, max_u64. f_equal. unfold is_u64, two64 in *.
  destruct (Z.ltb_spec (18446744073709551615 - x) y), (Z.ltb_spec (x + y) 18446744073709551616);
    simpl; lia.
Qed.
Lemma SafeMul_spec x y : is_u64 x → is_u64 y →
  SafeMul x y = (u64 (x * y), negb (x * y <? two64)).
Proof.
  intros Hx Hy. unfold SafeMul. destruct (Z.eqb_spec x 0) as [->|]; [by rewrite Z.mul_0_l|].
  destruct (Z.eqb_spec y 0) as [->|]; [by rewrite Z.mul_0_r|]. simpl. f_equal.
  unfold is_u64, max_u64, two64 in *.
  pose proof (Z.div_mod 18446744073709551615 x ltac:(lia)).
  pose proof (Z.mod_pos_bound 18446744073709551615 x ltac:(lia)).
  destruct (Z.ltb_spec (18446744073709551615 / x) y), (Z.ltb_spec (x * y) 18446744073709551616);
    simpl; nia.
Qed.

(** ** Limbs *)

Definition limbs (z : Z) (n : nat) : list Z := limb z <$> seq 0 n.
Fixpoint limbs_value (ws : list Z) : Z :=
  match ws with [] => 0 | w :: ws => w + two64 * limbs_value ws end.

Lemma limbs_S z n : 0 <= z → limbs z (S n) = z mod two64 :: limbs (z / two64) n.
Proof.
  intros Hz. unfold limbs. cbn [seq fmap list_fmap]. f_equal.
  { unfold limb. by rewrite Z.abs_eq, Z.div_1_r by done. }
  rewrite <- fmap_S_seq, <- list_fmap_compose. apply list_fmap_ext. intros _ i _. unfold compose, limb.
  assert (0 <= z / two64) by (by apply Z.div_pos). rewrite !Z.abs_eq by done. f_equal.
  rewrite Zdiv_Zdiv by (done || by apply Z.pow_nonneg). f_equal. rewrite Nat2Z.inj_succ, Z.pow_succ_r by lia. done.
Qed.

Lemma limbs_value_mod n z : 0 <= z → limbs_value (limbs z n) = z mod two64 ^ Z.of_nat n.
Proof.
  revert z. induction n as [|n IH]; intros z Hz; [by rewrite Z.mod_1_r|].
  rewrite limbs_S by done. cbn [limbs_value]. rewrite IH by (by apply Z.div_pos).
  rewrite Nat2Z.inj_succ, Z.pow_succ_r by lia. rewrite Z.rem_mul_r by (unfold two64; lia). lia.
Qed.

Lemma limbs_bounds n z : Forall is_u64 (limbs z n).
Proof. apply Forall_fmap, Forall_true. intros i. apply Z.mod_pos_bound. reflexivity. Qed.

Lemma Bits_count z : 0 <= z → z < two64 ^ Z.of_nat (Z.to_nat ((BitLen z + 63) / 64)).
Proof.
  intros Hz. replace two64 with (2 ^ 64) by reflexivity.
  assert (0 <= BitLen z) by (unfold BitLen; destruct (_ =? _); pose proof (Z.log2_nonneg (Z.abs z)); lia).
  rewrite Z2Nat.id by (apply Z.div_pos; lia). rewrite <- Z.pow_mul_r by (try apply Z.div_pos; lia).
  destruct (Z.eq_dec z 0) as [->|]; [by vm_compute|].
  apply Z.lt_le_trans with (2 ^ BitLen z); [apply BitLen_le; [|done|done]; unfold BitLen in *|].
  { destruct (Z.eqb_spec z 0); [done|]. pose proof (Z.log2_nonneg (Z.abs z)). lia. }
  apply Z.pow_le_mono_r; [lia|]. pose proof (Z.div_mod (BitLen z + 63) 64 ltac:(lia)).
  pose proof (Z.mod_pos_bound (BitLen z + 63) 64 ltac:(lia)). lia.
Qed.

Lemma Bits_value z : 0 <= z → limbs_value (Bits z) = z.
Proof.
  intros Hz. unfold Bits. fold (limbs z (Z.to_nat ((BitLen z + 63) / 64))).
  rewrite limbs_value_mod by done. apply Z.mod_small. split; [done|]. by apply Bits_count.
Qed.

(** ** Exponentiation *)

Lemma land_1 w : Z.land w 1 = w mod 2.
Proof. apply (Z.land_ones w 1). lia. Qed.

Lemma Exp_word_spec n : ∀ w b r, 0 <= w → word r →
  ∃ b' r', Exp_word n w b r = (b', r') ∧ word r' ∧ b' mod tt256 = b ^ 2 ^ Z.of_nat n mod tt256 ∧
    r' mod tt256 = r * b ^ (w mod 2 ^ Z.of_nat n) mod tt256.
Proof.
  induction n as [|n IH]; intros w b r Hw Hr; cbn [Exp_word].
  { exists b, r. rewrite Z.mod_1_r, Z.pow_0_r, Z.pow_1_r, Z.mul_1_r. done. }
  set (r1 := if Z.land w 1 =? 1 then _ else _).
  assert (Hr1 : word r1 ∧ r1 mod tt256 = r * b ^ (w mod 2) mod tt256).
  { unfold r1. rewrite land_1. pose proof (Z.mod_pos_bound w 2 ltac:(lia)).
    destruct (Z.eqb_spec (w mod 2) 1) as [E|]; [rewrite E|replace (w mod 2) with 0 by lia].
    - split; [apply U256_word|]. by rewrite Z.pow_1_r, U256_mod, Zmod_mod.
    - by rewrite Z.pow_0_r, Z.mul_1_r. }
  destruct Hr1 as [Hr1 Er1].
  assert (Hs : Z.shiftr w 1 = w / 2) by (by rewrite Z.shiftr_div_pow2).
  destruct (IH (Z.shiftr w 1) (U256 (b * b)) r1) as (b' & r' & -> & Hr' & Hb & He);
    [rewrite Hs; by apply Z.div_pos|done|].
  exists b', r'. split_and!; [done|done| |].
  - rewrite Hb, U256_mod, Nat2Z.inj_succ, Z.pow_succ_r by lia. rewrite Z.pow_mul_r by lia.
    rewrite <- (Z.pow_2_r b). symmetry. apply Zpower_mod. reflexivity.
  - rewrite He, Hs, U256_mod, Nat2Z.inj_succ, Z.pow_succ_r, (Z.rem_mul_r w) by lia.
    assert (0 <= w mod 2 /\ 0 <= w / 2 mod 2 ^ Z.of_nat n) as [??].
    { split; apply Z.mod_pos_bound; [lia|by apply Z.pow_pos_nonneg; lia]. }
    rewrite Z.pow_add_r, Z.pow_mul_r, Z.mul_assoc by lia. rewrite <- (Z.pow_2_r b).
    rewrite <- Zmult_mod_idemp_l, Er1, Zmult_mod_idemp_l.
    rewrite <- Zmult_mod_idemp_r, <- Zpower_mod, Zmult_mod_idemp_r by reflexivity. done.
Qed.

Lemma Exp_loop_spec ws : ∀ b r, Forall is_u64 ws → word r →
  Exp_loop ws b r = r * b ^ limbs_value ws mod tt256.
Proof.
  induction ws as [|w ws IH]; intros b r Hws Hr; cbn [Exp_loop limbs_value].
  { by rewrite Z.pow_0_r, Z.mul_1_r, Z.mod_small. }
  apply Forall_cons in Hws as [Hw Hws].
  destruct (Exp_word_spec 64 w b r) as (b' & r' & -> & Hr' & Hb & He); [apply Hw|done|].
  assert (0 <= limbs_value ws).
  { clear -Hws. induction Hws as [|w ws [Hw _] Hws IH]; cbn [limbs_value]; unfold two64; lia. }
  rewrite IH by done. change (2 ^ Z.of_nat 64) with two64 in *.
  rewrite (Z.mod_small w) in He by done. unfold is_u64, two64 in Hw.
  rewrite Z.pow_add_r, Z.pow_mul_r, Z.mul_assoc by (unfold two64; lia).
  rewrite <- Zmult_mod_idemp_l, He, Zmult_mod_idemp_l.
  rewrite <- Zmult_mod_idemp_r, Zpower_mod, Hb, <- Zpower_mod, Zmult_mod_idemp_r by reflexivity. done.
Qed.

Lemma Exp_correct b e : 0 <= e → Exp b e = b ^ e mod tt256.
Proof.
  intros He. unfold Exp. rewrite Exp_loop_spec, Bits_value, Z.mul_1_l; [done|done|apply limbs_bounds|done].
Qed.

(** ** Bytes of a word *)

Lemma be_bytes_unique n z l :
  are_bytes l → length l = n → SetBytes l = z mod 256 ^ Z.of_nat n → be_bytes n z = l.
Proof.
  intros Hl <- Hz. rewrite <- (be_bytes_SetBytes l Hl) at 2. rewrite Hz, <- SetBytes_be_bytes.
  pose proof (be_bytes_SetBytes _ (be_bytes_are_bytes (length l) z)) as E.
  by rewrite length_be_bytes in E.
Qed.

Lemma be_bytes_app a b x y : 0 <= x < 256 ^ Z.of_nat b →
  be_bytes (a + b) (x + 256 ^ Z.of_nat b * y) = be_bytes a y ++ be_bytes b x.
Proof.
  intros Hx. assert (Hp : 0 < 256 ^ Z.of_nat a) by (apply Z.pow_pos_nonneg; lia). apply be_bytes_unique.
  - apply Forall_app. split; apply be_bytes_are_bytes.
  - by rewrite length_app, !length_be_bytes.
  - rewrite SetBytes_app, length_be_bytes, !SetBytes_be_bytes, (Z.mod_small x) by done.
    rewrite Nat2Z.inj_add, Z.pow_add_r, (Z.mul_comm (256 ^ Z.of_nat a)), Z.rem_mul_r by lia.
    rewrite (Z.mul_comm _ y), Z_mod_plus_full, Z_div_plus_full, (Z.div_small x), (Z.mod_small x) by lia. rewrite Z.add_0_l. ring.
Qed.

Lemma be_bytes_pad n k z : (k <= n)%nat → 0 <= z < 256 ^ Z.of_nat k →
  be_bytes n z = replicate (n - k) 0 ++ be_bytes k z.
Proof.
  intros Hk Hz. apply be_bytes_unique.
  - apply Forall_app. split; [|apply be_bytes_are_bytes]. by apply Forall_replicate.
  - rewrite length_app, length_replicate, length_be_bytes. lia.
  - rewrite SetBytes_zeros, SetBytes_be_bytes, !Z.mod_small; [done| |done].
    split; [lia|]. eapply Z.lt_le_trans; [apply Hz|]. apply Z.pow_le_mono_r; lia.
Qed.

Lemma mod_div_byte q p r : 0 < p → 0 < r → q mod (p * (256 * r)) / p mod 256 = q / p mod 256.
Proof.
  intros Hp Hr. rewrite (Z.rem_mul_r q p), (Z.rem_mul_r (q / p) 256) by lia.
  rewrite (Z.mul_comm p), Z_div_plus_full, (Z.div_small (q mod p)) by (try apply Z.mod_pos_bound; lia).
  rewrite Z.add_0_l, (Z.mul_comm 256), Z_mod_plus_full. apply Zmod_mod.
Qed.

Lemma bigEndianByteAt_spec z n : 0 <= z → 0 <= n → bigEndianByteAt z n = z / 256 ^ n mod 256.
Proof.
  intros Hz Hn. unfold bigEndianByteAt, Bits. pose proof (Bits_count z Hz) as Hc.
  pose proof (Z.div_mod n 8 ltac:(lia)) as Hd. pose proof (Z.mod_pos_bound n 8 ltac:(lia)) as Hm.
  assert (0 <= n / 8) by (by apply Z.div_pos).
  replace (256 ^ n) with (two64 ^ (n / 8) * 256 ^ (n mod 8)); last first.
  { change two64 with (256 ^ 8). rewrite <- Z.pow_mul_r, <- Z.pow_add_r by lia. f_equal. lia. }
  rewrite <- Zdiv_Zdiv by (apply Z.pow_nonneg; done).
  destruct (decide (Z.to_nat (n / 8) < Z.to_nat ((BitLen z + 63) / 64))%nat) as [Hl|Hl].
  - rewrite list_lookup_fmap, lookup_seq_lt by done. cbn [fmap option_fmap option_map]. unfold limb.
    rewrite Nat.add_0_l, Z2Nat.id, Z.abs_eq, Z.shiftr_div_pow2 by lia.
    rewrite Z.pow_mul_r by lia. change (2 ^ 8) with 256. set (q := z / two64 ^ (n / 8)).
    replace two64 with (256 ^ (n mod 8) * (256 * 256 ^ (7 - n mod 8))); last first.
    { rewrite <- Z.pow_succ_r, <- Z.pow_add_r by lia. change two64 with (256 ^ 8). f_equal. lia. }
    apply mod_div_byte; apply Z.pow_pos_nonneg; lia.
  - rewrite list_lookup_fmap, lookup_seq_ge by lia. simpl. rewrite (Z.div_small z).
    { rewrite Z.div_0_l; [done|]. apply Z.pow_nonzero; lia. }
    split; [done|]. eapply Z.lt_le_trans; [exact Hc|]. apply Z.pow_le_mono_r; [done|lia].
Qed.

Lemma Byte_spec z n : word z → 0 <= n → Byte z 32 n = if n <? 32 then z / 256 ^ (31 - n) mod 256 else 0.
Proof.
  intros [Hz _] Hn. unfold Byte. destruct (Z.leb_spec 32 n), (Z.ltb_spec n 32); try lia.
  rewrite bigEndianByteAt_spec by lia. by replace (32 - 1 - n) with (31 - n) by lia.
Qed.

Lemma ReadBits_word_spec j : ∀ d i buf, (i <= length buf)%nat → 0 <= d →
  let k := (i `min` j)%nat in
  ReadBits_word j d i buf = ((i - k)%nat, take (i - k) buf ++ be_bytes k d ++ drop i buf).
Proof.
  induction j as [|j IH]; intros d [|i] buf Hi Hd; cbn [ReadBits_word].
  - by rewrite take_0, drop_0.
  - rewrite Nat.min_0_r, Nat.sub_0_r. simpl. by rewrite take_drop.
  - by rewrite take_0, drop_0.
  - rewrite IH; [|by rewrite length_insert; lia|by apply Z.shiftr_nonneg].
    rewrite Z.shiftr_div_pow2 by lia. change (2 ^ 8) with 256. cbn [Nat.min be_bytes Nat.sub]. f_equal.
    rewrite take_insert_ge by lia. f_equal. rewrite <- app_assoc. f_equal.
    rewrite (drop_S _ (d mod 256)) by (by apply list_lookup_insert_eq). simpl. f_equal.
    by rewrite drop_insert_lt by lia.
Qed.

Lemma limbs_value_bound ws : Forall is_u64 ws → 0 <= limbs_value ws < 256 ^ Z.of_nat (8 * length ws).
Proof.
  induction 1 as [|w ws [Hw1 Hw2] Hws IH]; [done|]. cbn [limbs_value length].
  replace (Z.of_nat (8 * S (length ws))) with (8 + Z.of_nat (8 * length ws)) by lia.
  rewrite Z.pow_add_r by lia. change (256 ^ 8) with two64. nia.
Qed.

Lemma be_bytes_low k z w : 0 <= w < two64 → (k <= 8)%nat → be_bytes k (w + two64 * z) = be_bytes k w.
Proof.
  intros Hw Hk. apply be_bytes_unique; [apply be_bytes_are_bytes|apply length_be_bytes|].
  rewrite SetBytes_be_bytes.
  replace two64 with (256 ^ Z.of_nat k * 256 ^ Z.of_nat (8 - k)).
  - by rewrite (Z.mul_comm (256 ^ Z.of_nat k)), <- Z.mul_assoc, (Z.mul_comm (256 ^ Z.of_nat k)), Z.mul_assoc, Z_mod_plus_full.
  - rewrite <- Z.pow_add_r by lia. change two64 with (256 ^ 8). f_equal. lia.
Qed.

Lemma ReadBits_loop_spec ws : ∀ i buf, Forall is_u64 ws → (i <= length buf)%nat →
  let k := (i `min` (8 * length ws))%nat in
  ReadBits_loop ws i buf = take (i - k) buf ++ be_bytes k (limbs_value ws) ++ drop i buf.
Proof.
  induction ws as [|w ws IH]; intros i buf Hws Hi; cbn [ReadBits_loop limbs_value length].
  { rewrite Nat.mul_0_r, Nat.min_0_r, Nat.sub_0_r. simpl. by rewrite take_drop. }
  apply Forall_cons in Hws as [Hw Hws]. rewrite ReadBits_word_spec by (done || apply Hw).
  set (k1 := (i `min` 8)%nat). set (buf1 := take (i - k1) buf ++ _).
  assert (Hl : length (take (i - k1) buf) = (i - k1)%nat) by (rewrite length_take; lia).
  assert (Hl1 : length buf1 = length buf).
  { unfold buf1. rewrite !length_app, Hl, length_be_bytes, length_drop. lia. }
  rewrite IH by (done || lia). set (k2 := ((i - k1) `min` (8 * length ws))%nat).
  assert (Ht : take (i - k1 - k2) buf1 = take (i - (k2 + k1)) buf).
  { unfold buf1. rewrite take_app_le by lia. rewrite take_take. f_equal. lia. }
  assert (Hd : drop (i - k1) buf1 = be_bytes k1 w ++ drop i buf).
  { unfold buf1. by rewrite drop_app_length' by lia. }
  replace (i `min` (8 * S (length ws)))%nat with (k2 + k1)%nat by lia.
  rewrite Ht, Hd. f_equal. rewrite app_assoc. f_equal. symmetry.
  destruct (decide (8 <= i)%nat).
  - replace k1 with 8%nat by lia. change two64 with (256 ^ Z.of_nat 8). by apply be_bytes_app.
  - replace k2 with 0%nat by lia. simpl. apply be_bytes_low; [done|lia].
Qed.

(** A word is written with its bytes, the highest first. *)
Lemma ReadBits_zeros z n : 0 <= z < 256 ^ Z.of_nat n → ReadBits z (replicate n 0) = be_bytes n z.
Proof.
  intros Hz. unfold ReadBits. rewrite ReadBits_loop_spec by (by rewrite ?length_replicate || apply limbs_bounds).
  rewrite length_replicate, Bits_value by lia. rewrite (drop_ge (replicate n 0)), app_nil_r by (by rewrite length_replicate).
  rewrite take_replicate, Nat.min_l by lia.
  destruct (decide (8 * length (Bits z) <= n)%nat).
  - rewrite Nat.min_r by done. symmetry. apply be_bytes_pad; [done|].
    pose proof (limbs_value_bound (Bits z) (limbs_bounds _ _)) as Hb. by rewrite Bits_value in Hb by lia.
  - rewrite Nat.min_l by lia. by rewrite Nat.sub_diag.
Qed.
