(* ===== verification/EvmAnalysis.v ===== *)
(** * Jump destinations (core/vm/analysis.go)

    Code and the data of its PUSH instructions are mixed; a jump may only go to a
    JUMPDEST that is an instruction. [codeBitmap] marks the positions that are
    data, eight at a time, in a bit vector that is kept for the hash of the code.
    [data_mask] is the scan, one position after another, that it stands for. *)

From stdpp Require Import base list gmap strings.
From Stdlib Require Import ZArith Lia.
From S2P Require Import Prelude Bytes.

Definition PUSH1 : Z := 0x60.
Definition PUSH32 : Z := 0x7f.
Definition JUMPDEST : Z := 0x5b.

(** ** The bit vector *)

Abbreviation bitvec := bytes (only parsing).

(** [bits[i] |= m] *)
Definition or_at (bits : bitvec) (i m : Z) : outcome bitvec :=
  match bits !! Z.to_nat i with
  | Some b => Done (<[Z.to_nat i := Z.lor b m]> bits)
  | None => Panic "index out of range"
  end.
Definition bits_set (bits : bitvec) (pos : Z) : outcome bitvec :=
  or_at bits (pos / 8) (Z.shiftr 0x80 (pos mod 8)).
Definition bits_set8 (bits : bitvec) (pos : Z) : outcome bitvec :=
  let? bits := or_at bits (pos / 8) (Z.shiftr 0xff (pos mod 8)) in
  or_at bits (pos / 8 + 1) (255 - Z.shiftr 0xff (pos mod 8)).

Definition codeSegment (bits : bitvec) (pos : Z) : outcome bool :=
  match bits !! Z.to_nat (pos / 8) with
  | Some b => Done (Z.land b (Z.shiftr 0x80 (pos mod 8)) =? 0)
  | None => Panic "index out of range"
  end.

(** The two loops over the data of a PUSH, and the loop over the code. *)
Fixpoint codeBitmap_set8 (fuel : nat) (numbits pc : Z) (bits : bitvec) : outcome (Z * Z * bitvec) :=
  if 8 <=? numbits then
    match fuel with
    | O => OutOfFuel
    | S fuel => let? bits := bits_set8 bits pc in codeBitmap_set8 fuel (numbits - 8) (u64 (pc + 8)) bits
    end
  else Done (numbits, pc, bits).
Fixpoint codeBitmap_set (fuel : nat) (numbits pc : Z) (bits : bitvec) : outcome (Z * bitvec) :=
  if 0 <? numbits then
    match fuel with
    | O => OutOfFuel
    | S fuel => let? bits := bits_set bits pc in codeBitmap_set fuel (numbits - 1) (u64 (pc + 1)) bits
    end
  else Done (pc, bits).
Fixpoint codeBitmap_loop (fuel : nat) (code : bytes) (pc : Z) (bits : bitvec) : outcome bitvec :=
  match code !! Z.to_nat pc with
  | None => Done bits
  | Some op =>
      match fuel with
      | O => OutOfFuel
      | S fuel =>
          if (PUSH1 <=? op) && (op <=? PUSH32) then
            let? (numbits, pc, bits) := codeBitmap_set8 4 (op - PUSH1 + 1) (u64 (pc + 1)) bits in
            let? (pc, bits) := codeBitmap_set 7 numbits pc bits in
            codeBitmap_loop fuel code pc bits
          else codeBitmap_loop fuel code (u64 (pc + 1)) bits
      end
  end.
Definition codeBitmap (code : bytes) : outcome bitvec :=
  codeBitmap_loop (length code) code 0 (replicate (length code / 8 + 1 + 4) 0).

(** [destinations]: the analysed code by its hash. *)
Abbreviation destinations := (gmap Z bitvec).

Definition has (d : destinations) (codehash : Z) (code : bytes) (dest : Z)
    : outcome (bool * destinations) :=
  let udest := bigUint64 dest in
  if (63 <=? BitLen dest) || (Z.of_nat (length code) <=? udest) then Done (false, d)
  else
    let? (m, d) := match d !! codehash with
                   | Some m => Done (m, d)
                   | None => let? m := codeBitmap code in Done (m, <[codehash := m]> d)
                   end in
    match code !! Z.to_nat udest with
    | None => Panic "index out of range"
    | Some op =>
        if op =? JUMPDEST then let? b := codeSegment m udest in Done (b, d) else Done (false, d)
    end.

(** ** The reference *)

(** How many bytes of data follow an instruction. *)
Definition data_len (op : Z) : nat :=
  if (PUSH1 <=? op) && (op <=? PUSH32) then Z.to_nat (op - PUSH1 + 1) else O.

(** Which positions are data, when [skip] bytes of data are still to come. *)
Fixpoint data_mask (skip : nat) (code : bytes) : list bool :=
  match code with
  | [] => []
  | op :: code =>
      match skip with
      | S skip => true :: data_mask skip code
      | O => false :: data_mask (data_len op) code
      end
  end.

(** A position that a jump may go to. *)
Definition jumpable (code : bytes) (pos : nat) : bool :=
  bool_decide (code !! pos = Some JUMPDEST) && bool_decide (data_mask 0 code !! pos = Some false).

(** ** Bits *)

Definition bit (bits : bitvec) (pos : Z) : bool :=
  Z.testbit (default 0 (bits !! Z.to_nat (pos / 8))) (7 - pos mod 8).

Lemma or_at_ok bits i m : 0 <= i < Z.of_nat (length bits) →
  ∃ bits', or_at bits i m = Done bits' ∧ length bits' = length bits ∧
    ∀ pos, 0 <= pos → bit bits' pos = bit bits pos || ((pos / 8 =? i) && Z.testbit m (7 - pos mod 8)).
Proof.
  intros Hi. unfold or_at. destruct (lookup_lt_is_Some_2 bits (Z.to_nat i)) as [b Hb]; [lia|].
  rewrite Hb. eexists. split_and!; [done|apply length_insert|]. intros pos Hpos. unfold bit.
  assert (0 <= pos / 8) by (by apply Z.div_pos). destruct (Z.eqb_spec (pos / 8) i) as [->|].
  - rewrite list_lookup_insert_eq by lia. rewrite Hb. simpl. apply Z.lor_spec.
  - rewrite list_lookup_insert_ne by lia. by rewrite orb_false_r.
Qed.

Lemma mod8_cases z : z mod 8 ∈ [0; 1; 2; 3; 4; 5; 6; 7].
Proof.
  pose proof (Z.mod_pos_bound z 8 ltac:(lia)) as H. revert H. generalize (z mod 8). intros r H.
  assert (r = 0 ∨ r = 1 ∨ r = 2 ∨ r = 3 ∨ r = 4 ∨ r = 5 ∨ r = 6 ∨ r = 7) by lia. set_solver.
Qed.

(** The three masks, for every pair of remainders. *)
Lemma mask_bits :
  Forall (fun a => Forall (fun b =>
    Z.testbit (Z.shiftr 0x80 a) (7 - b) = (b =? a) ∧
    Z.testbit (Z.shiftr 0xff a) (7 - b) = (a <=? b) ∧
    Z.testbit (255 - Z.shiftr 0xff a) (7 - b) = (b <? a)) [0; 1; 2; 3; 4; 5; 6; 7]) [0; 1; 2; 3; 4; 5; 6; 7].
Proof. repeat constructor. Qed.

Lemma mask_bit x y :
  Z.testbit (Z.shiftr 0x80 (x mod 8)) (7 - y mod 8) = (y mod 8 =? x mod 8) ∧
  Z.testbit (Z.shiftr 0xff (x mod 8)) (7 - y mod 8) = (x mod 8 <=? y mod 8) ∧
  Z.testbit (255 - Z.shiftr 0xff (x mod 8)) (7 - y mod 8) = (y mod 8 <? x mod 8).
Proof.
  pose proof mask_bits as H. rewrite Forall_forall in H. specialize (H _ (mod8_cases x)).
  rewrite Forall_forall in H. exact (H _ (mod8_cases y)).
Qed.

Lemma bits_set_ok bits x : 0 <= x < 8 * Z.of_nat (length bits) →
  ∃ bits', bits_set bits x = Done bits' ∧ length bits' = length bits ∧
    ∀ pos, 0 <= pos → bit bits' pos = bit bits pos || (pos =? x).
Proof.
  intros Hx. pose proof (Z.div_mod x 8 ltac:(lia)). pose proof (Z.mod_pos_bound x 8 ltac:(lia)).
  destruct (or_at_ok bits (x / 8) (Z.shiftr 0x80 (x mod 8))) as (bits' & Hr & Hl & Hb); [lia|].
  exists bits'. split_and!; [done|done|]. intros pos Hpos. rewrite Hb by done. f_equal.
  rewrite (proj1 (mask_bit x pos)).
  pose proof (Z.div_mod pos 8 ltac:(lia)). pose proof (Z.mod_pos_bound pos 8 ltac:(lia)).
  destruct (Z.eqb_spec (pos / 8) (x / 8)), (Z.eqb_spec (pos mod 8) (x mod 8)), (Z.eqb_spec pos x);
    simpl; try done; lia.
Qed.

Lemma bits_set8_ok bits x : 0 <= x < 8 * Z.of_nat (length bits) - 8 →
  ∃ bits', bits_set8 bits x = Done bits' ∧ length bits' = length bits ∧
    ∀ pos, 0 <= pos → bit bits' pos = bit bits pos || ((x <=? pos) && (pos <? x + 8)).
Proof.
  intros Hx. pose proof (Z.div_mod x 8 ltac:(lia)). pose proof (Z.mod_pos_bound x 8 ltac:(lia)).
  destruct (or_at_ok bits (x / 8) (Z.shiftr 0xff (x mod 8))) as (b1 & Hr1 & Hl1 & Hb1); [lia|].
  destruct (or_at_ok b1 (x / 8 + 1) (255 - Z.shiftr 0xff (x mod 8))) as (b2 & Hr2 & Hl2 & Hb2); [lia|].
  exists b2. unfold bits_set8. rewrite Hr1. simpl. split_and!; [done|lia|]. intros pos Hpos.
  rewrite Hb2, Hb1, <- orb_assoc by done. f_equal. destruct (mask_bit x pos) as (_ & -> & ->).
  pose proof (Z.div_mod pos 8 ltac:(lia)). pose proof (Z.mod_pos_bound pos 8 ltac:(lia)).
  destruct (Z.eqb_spec (pos / 8) (x / 8)), (Z.eqb_spec (pos / 8) (x / 8 + 1)), (Z.leb_spec (x mod 8) (pos mod 8)),
    (Z.ltb_spec (pos mod 8) (x mod 8)), (Z.leb_spec x pos), (Z.ltb_spec pos (x + 8)); simpl; try done; lia.
Qed.

Lemma codeBitmap_set8_ok fuel : ∀ numbits pc bits,
  0 <= numbits < 8 * (Z.of_nat fuel + 1) → 0 <= pc → pc + numbits < 8 * Z.of_nat (length bits) →
  pc + numbits < two64 →
  ∃ n' pc' bits', codeBitmap_set8 fuel numbits pc bits = Done (n', pc', bits') ∧
    0 <= n' < 8 ∧ pc <= pc' ∧ pc' + n' = pc + numbits ∧ length bits' = length bits ∧
    ∀ pos, 0 <= pos → bit bits' pos = bit bits pos || ((pc <=? pos) && (pos <? pc')).
Proof.
  induction fuel as [|fuel IH]; intros numbits pc bits Hn Hpc Hlen H64; cbn [codeBitmap_set8];
    destruct (Z.leb_spec 8 numbits); try lia.
  1, 3: exists numbits, pc, bits; split_and!; [done|lia|lia|lia|lia|done|]; intros pos Hpos;
    destruct (Z.leb_spec pc pos), (Z.ltb_spec pos pc); try lia; by rewrite orb_false_r.
  destruct (bits_set8_ok bits pc) as (b1 & -> & Hl1 & Hb1); [lia|]. simpl.
  rewrite u64_id by (unfold is_u64; lia).
  destruct (IH (numbits - 8) (pc + 8) b1) as (n' & pc' & b' & -> & Hn' & Hle & Hs & Hl' & Hb'); [lia..|].
  exists n', pc', b'. split_and!; [done|lia|lia|lia|lia|lia|]. intros pos Hpos.
  rewrite Hb', Hb1, <- orb_assoc by done. f_equal.
  destruct (Z.leb_spec pc pos), (Z.ltb_spec pos (pc + 8)), (Z.leb_spec (pc + 8) pos), (Z.ltb_spec pos pc');
    simpl; try done; lia.
Qed.

Lemma codeBitmap_set_ok fuel : ∀ numbits pc bits,
  0 <= numbits <= Z.of_nat fuel → 0 <= pc → pc + numbits <= 8 * Z.of_nat (length bits) →
  pc + numbits < two64 →
  ∃ bits', codeBitmap_set fuel numbits pc bits = Done (pc + numbits, bits') ∧ length bits' = length bits ∧
    ∀ pos, 0 <= pos → bit bits' pos = bit bits pos || ((pc <=? pos) && (pos <? pc + numbits)).
Proof.
  induction fuel as [|fuel IH]; intros numbits pc bits Hn Hpc Hlen H64; cbn [codeBitmap_set];
    destruct (Z.ltb_spec 0 numbits); try lia.
  1, 3: exists bits; split_and!; [by replace (pc + numbits) with pc by lia|done|]; intros pos Hpos;
    destruct (Z.leb_spec pc pos), (Z.ltb_spec pos (pc + numbits)); try lia; by rewrite orb_false_r.
  destruct (bits_set_ok bits pc) as (b1 & -> & Hl1 & Hb1); [lia|]. simpl.
  rewrite u64_id by (unfold is_u64; lia).
  destruct (IH (numbits - 1) (pc + 1) b1) as (b' & -> & Hl' & Hb'); [lia..|].
  exists b'. split_and!; [do 2 f_equal; lia|lia|]. intros pos Hpos. rewrite Hb', Hb1, <- orb_assoc by done. f_equal.
  destruct (Z.leb_spec pc pos), (Z.eqb_spec pos pc), (Z.leb_spec (pc + 1) pos), (Z.ltb_spec pos (pc + numbits)),
    (Z.ltb_spec pos (pc + 1 + (numbits - 1))); simpl; try done; lia.
Qed.

(** ** The scan *)

Lemma data_mask_skip k code i : (i < length code)%nat →
  data_mask k code !! i = if decide (i < k)%nat then Some true else data_mask 0 (drop k code) !! (i - k)%nat.
Proof.
  revert k i. induction code as [|op code IH]; intros [|k] i Hi; cbn [data_mask length drop] in *.
  - lia.
  - lia.
  - rewrite decide_False, Nat.sub_0_r by lia. done.
  - destruct i as [|i]; [by rewrite decide_True by lia|]. cbn [lookup list_lookup]. change (list_lookup i ?l) with (l !! i).
    rewrite IH by lia. destruct (decide (i < k)%nat), (decide (S i < S k)%nat); try lia; [done|].
    by rewrite Nat.sub_succ.
Qed.

Lemma data_mask_is_Some skip code i : is_Some (data_mask skip code !! i) ↔ (i < length code)%nat.
Proof.
  revert skip i. induction code as [|op code IH]; intros skip i; cbn [data_mask length].
  { rewrite lookup_nil. split; [by intros []|lia]. }
  destruct skip, i; cbn [lookup list_lookup]; try (split; [lia|by eauto]).
  all: change (list_lookup i ?l) with (l !! i); rewrite IH; lia.
Qed.

(** Whether a position is data, seen from a position [pc] where an instruction
    starts. *)
Definition data_from (code : bytes) (pc : nat) (pos : Z) : bool :=
  (Z.of_nat pc <=? pos) && bool_decide (data_mask 0 (drop pc code) !! (Z.to_nat pos - pc)%nat = Some true).

Lemma data_from_step code pc op pos : code !! pc = Some op → 0 <= pos < Z.of_nat (length code) →
  data_from code pc pos =
    ((Z.of_nat pc + 1 <=? pos) && (pos <? Z.of_nat pc + 1 + Z.of_nat (data_len op)))
    || data_from code (pc + 1 + data_len op) pos.
Proof.
  intros Hop Hpos. pose proof (lookup_lt_Some _ _ _ Hop). unfold data_from.
  rewrite (drop_S code op pc Hop). set (k := data_len op).
  replace (drop (pc + 1 + k) code) with (drop k (drop (S pc) code)) by (rewrite drop_drop; f_equal; lia).
  destruct (Z.leb_spec (Z.of_nat pc) pos) as [Hle|]; simpl; last first.
  { destruct (Z.leb_spec (Z.of_nat pc + 1) pos), (Z.leb_spec (Z.of_nat (pc + 1 + k)) pos); lia || done. }
  destruct (Z.to_nat pos - pc)%nat as [|i] eqn:Ei.
  { rewrite bool_decide_false by done.
    destruct (Z.leb_spec (Z.of_nat pc + 1) pos), (Z.leb_spec (Z.of_nat (pc + 1 + k)) pos); simpl; lia || done. }
  cbn [lookup list_lookup data_mask]. change (list_lookup i ?l) with (l !! i). fold k.
  rewrite data_mask_skip by (rewrite length_drop; lia).
  destruct (decide (i < k)%nat), (Z.leb_spec (Z.of_nat pc + 1) pos), (Z.ltb_spec pos (Z.of_nat pc + 1 + Z.of_nat k)),
    (Z.leb_spec (Z.of_nat (pc + 1 + k)) pos); try lia; simpl.
  - done.
  - by replace (Z.to_nat pos - (pc + 1 + k))%nat with (i - k)%nat by lia.
Qed.

Lemma data_from_end code pc pos : (length code <= pc)%nat → pos < Z.of_nat (length code) → data_from code pc pos = false.
Proof. intros Hpc Hpos. unfold data_from. destruct (Z.leb_spec (Z.of_nat pc) pos); [lia|done]. Qed.

Lemma data_len_le op : (data_len op <= 32)%nat.
Proof.
  unfold data_len, PUSH1, PUSH32. destruct (Z.leb_spec 96 op), (Z.leb_spec op 127); simpl; lia.
Qed.

Lemma codeBitmap_loop_ok code : Z.of_nat (length code) < 2 ^ 62 → ∀ fuel pc bits,
  (length code <= fuel + pc)%nat → Z.of_nat pc < Z.of_nat (length code) + 33 →
  Z.of_nat (length code) + 32 < 8 * Z.of_nat (length bits) →
  ∃ bits', codeBitmap_loop fuel code (Z.of_nat pc) bits = Done bits' ∧ length bits' = length bits ∧
    ∀ pos, 0 <= pos < Z.of_nat (length code) → bit bits' pos = bit bits pos || data_from code pc pos.
Proof.
  intros Hc. induction fuel as [|fuel IH]; intros pc bits Hf Hpc Hb; cbn [codeBitmap_loop]; rewrite Nat2Z.id;
    destruct (code !! pc) as [op|] eqn:Hop.
  1: { apply lookup_lt_Some in Hop. lia. }
  1, 3: apply lookup_ge_None in Hop; exists bits; split_and!; [done|done|]; intros pos Hpos;
    by rewrite data_from_end, orb_false_r by lia.
  pose proof (lookup_lt_Some _ _ _ Hop) as Hlt. rewrite u64_id by (unfold is_u64, two64; lia).
  pose proof (data_len_le op) as Hk. pose proof (data_from_step code pc op) as Hstep.
  assert (Hdl : data_len op = data_len op) by done. unfold data_len in Hdl at 2.
  destruct ((PUSH1 <=? op) && (op <=? PUSH32)) eqn:E.
  - apply andb_true_iff in E as [E1%Z.leb_le E2%Z.leb_le].
    replace (op - PUSH1 + 1) with (Z.of_nat (data_len op)) by (rewrite Hdl; lia).
    destruct (codeBitmap_set8_ok 4 (Z.of_nat (data_len op)) (Z.of_nat pc + 1) bits)
      as (n' & pc' & b1 & -> & Hn' & Hle & Hs & Hl1 & Hb1); [lia|lia|lia|unfold two64; lia|]. cbn [obind].
    destruct (codeBitmap_set_ok 7 n' pc' b1) as (b2 & -> & Hl2 & Hb2); [lia|lia|lia|unfold two64; lia|]. cbn [obind].
    replace (pc' + n') with (Z.of_nat (pc + 1 + data_len op)) by lia.
    destruct (IH (pc + 1 + data_len op)%nat b2) as (b3 & -> & Hl3 & Hb3); [lia..|].
    exists b3. split_and!; [done|lia|]. intros pos Hpos.
    rewrite Hb3, Hb2, Hb1, Hstep, !orb_assoc by (done || lia). f_equal. rewrite <- !orb_assoc. f_equal.
    destruct (Z.leb_spec (Z.of_nat pc + 1) pos), (Z.ltb_spec pos pc'), (Z.leb_spec pc' pos), (Z.ltb_spec pos (pc' + n')),
      (Z.ltb_spec pos (Z.of_nat pc + 1 + Z.of_nat (data_len op))); simpl; try done; lia.
  - replace (Z.of_nat pc + 1) with (Z.of_nat (pc + 1)) by lia.
    destruct (IH (pc + 1)%nat bits) as (b1 & -> & Hl1 & Hb1); [lia..|].
    exists b1. split_and!; [done|done|]. intros pos Hpos. rewrite Hb1, Hstep, Hdl, Nat.add_0_r by done. f_equal.
    destruct (Z.leb_spec (Z.of_nat pc + 1) pos), (Z.ltb_spec pos (Z.of_nat pc + 1 + Z.of_nat 0)); simpl; try done; lia.
Qed.

Lemma land_pow2 b n : 0 <= n → (Z.land b (2 ^ n) =? 0) = negb (Z.testbit b n).
Proof.
  intros Hn. apply eq_true_iff_eq. rewrite Z.eqb_eq, negb_true_iff. split; intros E.
  - apply (f_equal (fun z => Z.testbit z n)) in E.
    by rewrite Z.land_spec, Z.bits_0, Z.pow2_bits_true, andb_true_r in E.
  - apply Z.bits_inj'. intros m Hm. rewrite Z.land_spec, Z.bits_0, Z.pow2_bits_eqb by done.
    destruct (Z.eqb_spec n m) as [->|]; [by rewrite E|apply andb_false_r].
Qed.

Lemma codeSegment_bit bits pos : 0 <= pos < 8 * Z.of_nat (length bits) →
  codeSegment bits pos = Done (negb (bit bits pos)).
Proof.
  intros Hpos. pose proof (Z.div_mod pos 8 ltac:(lia)). pose proof (Z.mod_pos_bound pos 8 ltac:(lia)).
  unfold codeSegment, bit. destruct (lookup_lt_is_Some_2 bits (Z.to_nat (pos / 8))) as [b ->]; [lia|].
  rewrite <- land_pow2 by lia. do 3 f_equal.
  rewrite Z.shiftr_div_pow2 by lia. change 0x80 with (2 ^ 7). by rewrite Z.pow_sub_r by lia.
Qed.

Lemma bit_zeros n pos : bit (replicate n 0) pos = false.
Proof.
  unfold bit. destruct (replicate n 0 !! _) as [b|] eqn:E; [|apply Z.bits_0].
  apply lookup_replicate in E as [-> _]. apply Z.bits_0.
Qed.

(** The bit vector marks what the scan finds to be data. *)
Lemma codeBitmap_ok code : Z.of_nat (length code) < 2 ^ 62 →
  ∃ bits, codeBitmap code = Done bits ∧
    ∀ pos, (pos < length code)%nat →
      codeSegment bits (Z.of_nat pos) = Done (bool_decide (data_mask 0 code !! pos = Some false)).
Proof.
  intros Hc. unfold codeBitmap. set (b0 := replicate _ 0).
  assert (Hb0 : Z.of_nat (length code) + 32 < 8 * Z.of_nat (length b0)).
  { unfold b0. rewrite length_replicate. pose proof (Nat.div_mod (length code) 8 ltac:(lia)).
    pose proof (Nat.mod_upper_bound (length code) 8 ltac:(lia)). lia. }
  destruct (codeBitmap_loop_ok code Hc (length code) 0 b0) as (bits & Hr & Hl & Hb); [lia..|].
  exists bits. split; [exact Hr|]. intros pos Hpos. rewrite codeSegment_bit, Hb by lia. f_equal.
  unfold b0, data_from. rewrite bit_zeros. destruct (Z.leb_spec (Z.of_nat 0) (Z.of_nat pos)); [|lia].
  rewrite Nat2Z.id, Nat.sub_0_r, drop_0. destruct (proj2 (data_mask_is_Some 0 code pos) Hpos) as [[] ->]; done.
Qed.

(** The cache has, for the hash of a code, the vector of that code. *)
Definition cache_ok (d : destinations) (codehash : Z) (code : bytes) : Prop :=
  ∀ m, d !! codehash = Some m → codeBitmap code = Done m.

Lemma has_ok d codehash code dest :
  Z.of_nat (length code) < 2 ^ 62 → 0 <= dest → cache_ok d codehash code →
  ∃ d', has d codehash code dest = Done (bool_decide (dest < two64) && jumpable code (Z.to_nat dest), d') ∧
    cache_ok d' codehash code ∧ ∀ h, h ≠ codehash → d' !! h = d !! h.
Proof.
  intros Hc Hd Hok. destruct (codeBitmap_ok code Hc) as (bits & Hbm & Hseg).
  assert (Hjump : ∀ n, jumpable code n = true → (n < length code)%nat).
  { unfold jumpable. intros n [H _]%andb_true_iff. apply bool_decide_eq_true in H. by eapply lookup_lt_Some. }
  unfold has. pose proof (BitLen_le dest 62 ltac:(lia) Hd) as Hbl.
  destruct (Z.leb_spec 63 (BitLen dest)) as [H63|H63].
  { assert (2 ^ 62 <= dest) by lia. exists d. split_and!; [|done|done]. simpl. do 2 f_equal. symmetry.
    apply andb_false_iff. right. destruct (jumpable _ _) eqn:E; [|done]. apply Hjump in E. lia. }
  rewrite bigUint64_id by (unfold is_u64, two64; lia). rewrite bool_decide_true by (unfold two64; lia).
  destruct (Z.leb_spec (Z.of_nat (length code)) dest) as [Hle|Hlt]; simpl.
  { exists d. split_and!; [|done|done]. do 2 f_equal. destruct (jumpable _ _) eqn:E; [|done]. apply Hjump in E. lia. }
  assert (Hm : ∃ d', match d !! codehash with
                     | Some m => Done (m, d)
                     | None => let? m := codeBitmap code in Done (m, <[codehash := m]> d)
                     end = Done (bits, d') ∧ cache_ok d' codehash code ∧ ∀ h, h ≠ codehash → d' !! h = d !! h).
  { destruct (d !! codehash) as [m|] eqn:E.
    - pose proof (Hok m E) as Hmm. rewrite Hbm in Hmm. injection Hmm as <-. by exists d.
    - rewrite Hbm. simpl. eexists. split_and!; [done| |intros h Hh; by rewrite lookup_insert_ne].
      intros m. rewrite lookup_insert_eq. by intros [= <-]. }
  destruct Hm as (d' & -> & Hok' & Hd'). simpl.
  destruct (lookup_lt_is_Some_2 code (Z.to_nat dest)) as [op Hop]; [lia|]. rewrite Hop.
  exists d'. split; [|done]. unfold jumpable. rewrite Hop.
  destruct (Z.eqb_spec op JUMPDEST) as [->|Hne].
  - rewrite <- (Z2Nat.id dest) at 1 by done. rewrite Hseg by lia. cbn [obind]. by rewrite (bool_decide_true (Some JUMPDEST = _)) by done.
  - by rewrite (bool_decide_false (Some op = _)) by congruence.
Qed.
