(* ===== verification/ChainConfig.v ===== *)
(** * The chain configuration (params/config.go, params/gas_table.go)

    Which rules hold at which block, and the prices of the gas that go with them.
    Prices that are the same at every block are those of params/protocol_params.go. *)

From stdpp Require Import base list.
From Stdlib Require Import ZArith Lia.
From S2P Require Import Prelude.

(** ** params/protocol_params.go *)

Definition CallValueTransferGas : Z := 9000.
Definition CallNewAccountGas : Z := 25000.
Definition QuadCoeffDiv : Z := 512.
Definition LogDataGas : Z := 8.
Definition CallStipend : Z := 2300.
Definition Sha3Gas : Z := 30.
Definition Sha3WordGas : Z := 6.
Definition SstoreSetGas : Z := 20000.
Definition SstoreResetGas : Z := 5000.
Definition SstoreClearGas : Z := 5000.
Definition SstoreRefundGas : Z := 15000.
Definition NetSstoreNoopGas : Z := 200.
Definition NetSstoreInitGas : Z := 20000.
Definition NetSstoreCleanGas : Z := 5000.
Definition NetSstoreDirtyGas : Z := 200.
Definition NetSstoreClearRefund : Z := 15000.
Definition NetSstoreResetRefund : Z := 4800.
Definition NetSstoreResetClearRefund : Z := 19800.
Definition JumpdestGas : Z := 1.
Definition CreateDataGas : Z := 200.
Definition CallCreateDepth : Z := 1024.
Definition LogGas : Z := 375.
Definition CopyGas : Z := 3.
Definition StackLimit : Z := 1024.
Definition LogTopicGas : Z := 375.
Definition CreateGas : Z := 32000.
Definition Create2Gas : Z := 32000.
Definition SuicideRefundGas : Z := 24000.
Definition MemoryGas : Z := 3.
Definition MaxCodeSize : Z := 24576.

(** ** params/gas_table.go *)

Record GasTable := mkGasTable {
  gt_ExtcodeSize : Z;
  gt_ExtcodeCopy : Z;
  gt_ExtcodeHash : Z;
  gt_Balance : Z;
  gt_SLoad : Z;
  gt_Calls : Z;
  gt_Suicide : Z;
  gt_ExpByte : Z;
  gt_CreateBySuicide : Z;
}.

Definition GasTableHomestead : GasTable := mkGasTable 20 20 0 20 50 40 0 10 0.
Definition GasTableEIP150 : GasTable := mkGasTable 700 700 0 400 200 700 5000 10 25000.
Definition GasTableEIP158 : GasTable := mkGasTable 700 700 0 400 200 700 5000 50 25000.
Definition GasTableConstantinople : GasTable := mkGasTable 700 700 400 400 200 700 5000 50 25000.

(** ** params/config.go *)

(** The blocks at which the rules of a fork begin; [None] is nil. *)
Record ChainConfig := mkChainConfig {
  HomesteadBlock : option Z;
  EIP150Block : option Z;
  EIP158Block : option Z;
  ByzantiumBlock : option Z;
  ConstantinopleBlock : option Z;
}.

Definition isForked (s : option Z) (head : Z) : bool :=
  match s with None => false | Some s => bigCmp s head <=? 0 end.

Definition IsHomestead (c : ChainConfig) (num : Z) : bool := isForked (HomesteadBlock c) num.
Definition IsEIP150 (c : ChainConfig) (num : Z) : bool := isForked (EIP150Block c) num.
Definition IsEIP158 (c : ChainConfig) (num : Z) : bool := isForked (EIP158Block c) num.
Definition IsByzantium (c : ChainConfig) (num : Z) : bool := isForked (ByzantiumBlock c) num.
Definition IsConstantinople (c : ChainConfig) (num : Z) : bool := isForked (ConstantinopleBlock c) num.

Definition config_GasTable (c : ChainConfig) (num : Z) : GasTable :=
  if IsConstantinople c num then GasTableConstantinople
  else if IsEIP158 c num then GasTableEIP158
  else if IsEIP150 c num then GasTableEIP150
  else GasTableHomestead.

Definition MainnetChainConfig : ChainConfig := mkChainConfig (Some 0) (Some 0) (Some 0) (Some 0) None.

(** ** Facts *)


Definition prices_ok (gt : GasTable) : Prop :=
  1 <= gt_ExtcodeSize gt <= 700 ∧ 1 <= gt_ExtcodeCopy gt <= 700 ∧ 0 <= gt_ExtcodeHash gt <= 400 ∧
  1 <= gt_Balance gt <= 400 ∧ 1 <= gt_SLoad gt <= 200 ∧ 40 <= gt_Calls gt <= 700 ∧
  0 <= gt_Suicide gt <= 5000 ∧ 1 <= gt_ExpByte gt <= 50 ∧ 0 <= gt_CreateBySuicide gt <= 25000.

Lemma config_prices_ok c num : prices_ok (config_GasTable c num).
Proof. unfold config_GasTable, prices_ok. repeat case_match; simpl; lia. Qed.
