(* ===== verification/EvmMachine.v ===== *)
(** * The machine of the EVM (core/vm)

    The stack (stack.go), the memory (memory.go), contracts (contract.go) and the
    helpers of common.go and gas.go. [StateOps] is the interface StateDB of
    interface.go, through which the EVM works on the state; [EVM] is what the calls
    of one transaction share, [VM] adds the frame of one call, and [V] and [I] are
    the monads of the code that works on them.

    A stack item is a [*big.Int] that the stack owns, so it is a number here; the
    pool that items are taken from and put back to is not modelled. *)

From stdpp Require Import base list gmap strings.
From Stdlib Require Import ZArith Lia.
From S2P Require Import Prelude Bytes Keccak KeccakFacts FsnTypes Rlp StateDB StateInterface.
From S2P Require Import EvmWord EvmAnalysis ChainConfig.

(** ** common.go *)

Definition calcMemSize (off l : Z) : Z := if bigSign l =? 0 then 0 else off + l.

(** common.RightPadBytes *)
Definition RightPadBytes (slice : bytes) (l : Z) : bytes :=
  if l <=? Z.of_nat (length slice) then slice
  else slice ++ replicate (Z.to_nat l - length slice) 0.
Definition LeftPadBytes (slice : bytes) (l : Z) : bytes :=
  if l <=? Z.of_nat (length slice) then slice
  else replicate (Z.to_nat l - length slice) 0 ++ slice.

(** [data[lo:hi]] *)
Definition slice (data : bytes) (lo hi : Z) : outcome bytes :=
  if (0 <=? lo) && (lo <=? hi) && (hi <=? Z.of_nat (length data))
  then Done (take (Z.to_nat (hi - lo)) (drop (Z.to_nat lo) data))
  else Panic "slice bounds out of range".

Definition getData (data : bytes) (start size : Z) : outcome bytes :=
  let len := Z.of_nat (length data) in
  let start := if len <? start then len else start in
  let end_ := u64 (start + size) in
  let end_ := if len <? end_ then len else end_ in
  let? d := slice data start end_ in Done (RightPadBytes d (i64 size)).

Definition getDataBig (data : bytes) (start size : Z) : outcome bytes :=
  let dlen := Z.of_nat (length data) in
  let s := BigMin start dlen in
  let e := BigMin (s + size) dlen in
  let? d := slice data (bigUint64 s) (bigUint64 e) in Done (RightPadBytes d (i64 (bigUint64 size))).

Definition vm_bigUint64 (v : Z) : Z * bool := (bigUint64 v, 64 <? BitLen v).

Definition toWordSize (size : Z) : Z :=
  if max_u64 - 31 <? size then max_u64 / 32 + 1 else u64 (size + 31) / 32.

Definition allZero (b : bytes) : bool := forallb (fun x => x =? 0) b.

(** ** memory.go *)

Record Memory := mkMemory { mem_store : bytes; lastGasCost : Z }.
Definition NewMemory : Memory := mkMemory [] 0.

Definition mem_Len (m : Memory) : Z := Z.of_nat (length (mem_store m)).

(** [copy(store[off:], value)] for a value that fits. *)
Definition splice (off : nat) (value store : bytes) : bytes :=
  take off store ++ value ++ drop (off + length value) store.

Definition mem_Set (offset size : Z) (value : bytes) (m : Memory) : outcome Memory :=
  if 0 <? size then
    if mem_Len m <? u64 (offset + size) then Panic "invalid memory: store empty"
    else if u64 (offset + size) <? offset then Panic "slice bounds out of range"
    else Done (mkMemory (splice (Z.to_nat offset) (take (Z.to_nat size) value) (mem_store m)) (lastGasCost m))
  else Done m.

(** The area is zeroed before the bits are read into it. *)
Definition mem_Set32 (offset : Z) (val : Z) (m : Memory) : outcome Memory :=
  if mem_Len m <? u64 (offset + 32) then Panic "invalid memory: store empty"
  else if u64 (offset + 32) <? offset then Panic "slice bounds out of range"
  else Done (mkMemory (splice (Z.to_nat offset) (ReadBits val (replicate 32 0)) (mem_store m)) (lastGasCost m)).

Definition mem_Resize (size : Z) (m : Memory) : Memory :=
  if mem_Len m <? size
  then mkMemory (mem_store m ++ replicate (Z.to_nat (size - mem_Len m)) 0) (lastGasCost m)
  else m.

(** A slice of the store may reach over its length, up to the capacity that the
    runtime chose; [slice] does not let it. *)
Definition mem_Get (offset size : Z) (m : Memory) : outcome bytes :=
  if size =? 0 then Done []
  else if offset <? mem_Len m then
    if size <? 0 then Panic "makeslice: len out of range" else slice (mem_store m) offset (i64 (offset + size))
  else Done [].
Definition mem_GetPtr (offset size : Z) (m : Memory) : outcome bytes :=
  if size =? 0 then Done []
  else if offset <? mem_Len m then slice (mem_store m) offset (i64 (offset + size))
  else Done [].

(** ** contract.go *)

(** [jumpdests] is a map that a contract shares with its caller; it is a part of
    [EVM] below. [ct_value] is nil until [AsDelegate] sets it. *)
Record Contract := mkContract {
  CallerAddress : Address;
  ct_self : Address;
  ct_Code : bytes;
  ct_CodeHash : Hash;
  ct_CodeAddr : option Address;
  ct_Input : bytes;
  ct_Gas : Z;
  ct_value : option Z;
}.

(** The callers: an account, or a contract. *)
Inductive ContractRef := AccountRef (a : Address) | ContractOf (c : Contract).
Definition ref_Address (r : ContractRef) : Address :=
  match r with AccountRef a => a | ContractOf c => ct_self c end.

Definition NewContract (caller : ContractRef) (object : Address) (value : option Z) (gas : Z) : Contract :=
  mkContract (ref_Address caller) object [] 0 None [] gas value.

(** [caller] is the field of the contract, which nothing else reads. *)
Definition AsDelegate (caller : ContractRef) (c : Contract) : outcome Contract :=
  match caller with
  | AccountRef _ => Panic "interface conversion: ContractRef is not *Contract"
  | ContractOf parent =>
      Done (mkContract (CallerAddress parent) (ct_self c) (ct_Code c) (ct_CodeHash c) (ct_CodeAddr c)
              (ct_Input c) (ct_Gas c) (ct_value parent))
  end.

Definition SetCallCode (addr : option Address) (hash : Hash) (code : bytes) (c : Contract) : Contract :=
  mkContract (CallerAddress c) (ct_self c) code hash addr (ct_Input c) (ct_Gas c) (ct_value c).
Definition set_Input (input : bytes) (c : Contract) : Contract :=
  mkContract (CallerAddress c) (ct_self c) (ct_Code c) (ct_CodeHash c) (ct_CodeAddr c) input (ct_Gas c) (ct_value c).
Definition set_Gas (gas : Z) (c : Contract) : Contract :=
  mkContract (CallerAddress c) (ct_self c) (ct_Code c) (ct_CodeHash c) (ct_CodeAddr c) (ct_Input c) gas (ct_value c).

Definition GetByte (c : Contract) (n : Z) : Z :=
  match ct_Code c !! Z.to_nat n with Some b => b | None => 0 end.
Definition GetOp (c : Contract) (n : Z) : Z := GetByte c n.

(** [None] when there is not enough. *)
Definition UseGas (gas : Z) (c : Contract) : option Contract :=
  if ct_Gas c <? gas then None else Some (set_Gas (ct_Gas c - gas) c).

(** ** gas.go *)

Definition GasQuickStep : Z := 2.
Definition GasFastestStep : Z := 3.
Definition GasFastStep : Z := 5.
Definition GasMidStep : Z := 8.
Definition GasSlowStep : Z := 10.
Definition GasExtStep : Z := 20.

Definition errGasUintOverflow : error := New "gas uint64 overflow".

Definition callGas (gasTable : GasTable) (availableGas base callCost : Z) : Z + error :=
  let gas := u64 (u64 (availableGas - base) - u64 (availableGas - base) / 64) in
  if (0 <? gt_CreateBySuicide gasTable) && ((64 <? BitLen callCost) || (gas <? bigUint64 callCost))
  then inl gas
  else if 64 <? BitLen callCost then inr errGasUintOverflow
  else inl (bigUint64 callCost).

(** ** The state of the EVM *)

(** StateDB of interface.go: the methods of [iface], and the three that are none
    of its clients'. *)
Class StateOps := {
  sdb : Type;
  method : ∀ {A}, iface A → sdb → outcome (A * sdb);
  sdb_Suicide : Address → sdb → outcome (bool * sdb);
  sdb_Snapshot : sdb → outcome (Z * sdb);
  sdb_RevertToSnapshot : Z → sdb → outcome (unit * sdb);
}.

(** What the calls of a transaction share: fields of [EVM] and of
    [EVMInterpreter]. *)
Record EVM `{StateOps} := mkEVM {
  evm_db : sdb;
  evm_depth : Z;
  callGasTemp : Z;
  in_readOnly : bool;
  in_returnData : bytes;
  evm_jumpdests : destinations;
}.

(** The frame of a call: the variables of [Run], and its contract. *)
Record VM `{StateOps} := mkVM {
  vm_evm : EVM;
  vm_pc : Z;
  vm_contract : Contract;
  vm_mem : Memory;
  vm_stack : list Z;
}.

Arguments mkEVM {_}.
Arguments mkVM {_}.

Section machine.
Context `{SO : StateOps}.

Definition set_edb (d : sdb) (e : EVM) : EVM :=
  mkEVM d (evm_depth e) (callGasTemp e) (in_readOnly e) (in_returnData e) (evm_jumpdests e).
Definition set_depth (n : Z) (e : EVM) : EVM :=
  mkEVM (evm_db e) n (callGasTemp e) (in_readOnly e) (in_returnData e) (evm_jumpdests e).
Definition set_callGasTemp (n : Z) (e : EVM) : EVM :=
  mkEVM (evm_db e) (evm_depth e) n (in_readOnly e) (in_returnData e) (evm_jumpdests e).
Definition set_readOnly (b : bool) (e : EVM) : EVM :=
  mkEVM (evm_db e) (evm_depth e) (callGasTemp e) b (in_returnData e) (evm_jumpdests e).
Definition set_returnData (b : bytes) (e : EVM) : EVM :=
  mkEVM (evm_db e) (evm_depth e) (callGasTemp e) (in_readOnly e) b (evm_jumpdests e).
Definition set_jumpdests (d : destinations) (e : EVM) : EVM :=
  mkEVM (evm_db e) (evm_depth e) (callGasTemp e) (in_readOnly e) (in_returnData e) d.

Definition set_evm (e : EVM) (v : VM) : VM := mkVM e (vm_pc v) (vm_contract v) (vm_mem v) (vm_stack v).
Definition set_pc (pc : Z) (v : VM) : VM := mkVM (vm_evm v) pc (vm_contract v) (vm_mem v) (vm_stack v).
Definition set_contract (c : Contract) (v : VM) : VM := mkVM (vm_evm v) (vm_pc v) c (vm_mem v) (vm_stack v).
Definition set_mem (m : Memory) (v : VM) : VM := mkVM (vm_evm v) (vm_pc v) (vm_contract v) m (vm_stack v).
Definition set_stack (s : list Z) (v : VM) : VM := mkVM (vm_evm v) (vm_pc v) (vm_contract v) (vm_mem v) s.

(** ** The monads *)

Definition V (A : Type) : Type := EVM → outcome (A * EVM).
#[export] Instance V_ret : MRet V := fun A a e => Done (a, e).
#[export] Instance V_bind : MBind V := fun A B k m e => let? r := m e in k r.1 r.2.

Definition I (A : Type) : Type := VM → outcome (A * VM).
#[export] Instance I_ret : MRet I := fun A a v => Done (a, v).
#[export] Instance I_bind : MBind I := fun A B k m v => let? r := m v in k r.1 r.2.

Definition v_gets {A} (f : EVM → A) : V A := fun e => Done (f e, e).
Definition v_modify (f : EVM → EVM) : V unit := fun e => Done (tt, f e).
Definition v_lift {A} (o : outcome A) : V A := fun e => let? a := o in Done (a, e).
Definition i_gets {A} (f : VM → A) : I A := fun v => Done (f v, v).
Definition i_modify (f : VM → VM) : I unit := fun v => Done (tt, f v).
Definition i_lift {A} (o : outcome A) : I A := fun v => let? a := o in Done (a, v).
Definition i_evm {A} (m : V A) : I A := fun v => let? r := m (vm_evm v) in Done (r.1, set_evm r.2 v).

(** A method of the state. *)
Definition v_state {A} (m : sdb → outcome (A * sdb)) : V A :=
  fun e => let? r := m (evm_db e) in Done (r.1, set_edb r.2 e).
Definition v_db {A} (op : iface A) : V A := v_state (method op).
Definition i_db {A} (op : iface A) : I A := i_evm (v_db op).

(** ** stack.go *)

(** The top of the stack is the head of the list. *)
Definition pop : I Z := fun v =>
  match vm_stack v with
  | x :: s => Done (x, set_stack s v)
  | [] => Panic "index out of range"
  end.
Definition push (d : Z) : I unit := i_modify (fun v => set_stack (d :: vm_stack v) v).
Definition Back (n : nat) : I Z := fun v =>
  match vm_stack v !! n with Some x => Done (x, v) | None => Panic "index out of range" end.
Definition peek : I Z := Back 0.
(** Writing to the number that [peek] returned. *)
Definition set_peek (d : Z) : I unit := fun v =>
  match vm_stack v with
  | _ :: s => Done (tt, set_stack (d :: s) v)
  | [] => Panic "index out of range"
  end.

Definition stack_swap (n : nat) : I unit := fun v =>
  match vm_stack v !! (n - 1)%nat, vm_stack v with
  | Some y, x :: _ => Done (tt, set_stack (<[0%nat := y]> (<[(n - 1)%nat := x]> (vm_stack v))) v)
  | _, _ => Panic "index out of range"
  end.
Definition stack_dup (n : nat) : I unit := x ← Back (n - 1); push x.

(** ** Memory and gas of the frame *)

Definition memory_Set (offset size : Z) (value : bytes) : I unit := fun v =>
  let? m := mem_Set offset size value (vm_mem v) in Done (tt, set_mem m v).
Definition memory_Set32 (offset val : Z) : I unit := fun v =>
  let? m := mem_Set32 offset val (vm_mem v) in Done (tt, set_mem m v).
Definition memory_Get (offset size : Z) : I bytes := fun v =>
  let? b := mem_Get offset size (vm_mem v) in Done (b, v).
Definition memory_GetPtr (offset size : Z) : I bytes := fun v =>
  let? b := mem_GetPtr offset size (vm_mem v) in Done (b, v).

(** [contract.UseGas], with its result; [contract.Gas += gas]. *)
Definition contract_UseGas (gas : Z) : I bool := fun v =>
  match UseGas gas (vm_contract v) with
  | Some c => Done (true, set_contract c v)
  | None => Done (false, v)
  end.
Definition contract_AddGas (gas : Z) : I unit :=
  i_modify (fun v => set_contract (set_Gas (u64 (ct_Gas (vm_contract v) + gas)) (vm_contract v)) v).

(** ** stack_table.go *)

Definition require (s : list Z) (n : nat) : option error :=
  if (length s <? n)%nat
  then Some (Errorf "stack underflow (%d <=> %d)" [Z.of_nat (length s); Z.of_nat n]) else None.
Definition makeStackFunc (pop push : nat) (s : list Z) : option error :=
  match require s pop with
  | Some err => Some err
  | None =>
      if StackLimit <? Z.of_nat (length s) + Z.of_nat push - Z.of_nat pop
      then Some (Errorf "stack limit reached %d (%d)" [Z.of_nat (length s); StackLimit]) else None
  end.
Definition makeDupStackFunc (n : nat) : list Z → option error := makeStackFunc n (n + 1).
Definition makeSwapStackFunc (n : nat) : list Z → option error := makeStackFunc n n.

(** ** memory_table.go *)

Definition memorySha3 : I Z := a ← Back 0; b ← Back 1; mret (calcMemSize a b).
Definition memoryCallDataCopy : I Z := a ← Back 0; b ← Back 2; mret (calcMemSize a b).
Definition memoryReturnDataCopy : I Z := a ← Back 0; b ← Back 2; mret (calcMemSize a b).
Definition memoryCodeCopy : I Z := a ← Back 0; b ← Back 2; mret (calcMemSize a b).
Definition memoryExtCodeCopy : I Z := a ← Back 1; b ← Back 3; mret (calcMemSize a b).
Definition memoryMLoad : I Z := a ← Back 0; mret (calcMemSize a 32).
Definition memoryMStore8 : I Z := a ← Back 0; mret (calcMemSize a 1).
Definition memoryMStore : I Z := a ← Back 0; mret (calcMemSize a 32).
Definition memoryCreate : I Z := a ← Back 1; b ← Back 2; mret (calcMemSize a b).
Definition memoryCreate2 : I Z := a ← Back 1; b ← Back 2; mret (calcMemSize a b).
Definition memoryCall : I Z :=
  a ← Back 5; b ← Back 6; c ← Back 3; d ← Back 4;
  mret (BigMax (calcMemSize a b) (calcMemSize c d)).
Definition memoryDelegateCall : I Z :=
  a ← Back 4; b ← Back 5; c ← Back 2; d ← Back 3;
  mret (BigMax (calcMemSize a b) (calcMemSize c d)).
Definition memoryStaticCall : I Z :=
  a ← Back 4; b ← Back 5; c ← Back 2; d ← Back 3;
  mret (BigMax (calcMemSize a b) (calcMemSize c d)).
Definition memoryReturn : I Z := a ← Back 0; b ← Back 1; mret (calcMemSize a b).
Definition memoryRevert : I Z := a ← Back 0; b ← Back 1; mret (calcMemSize a b).
Definition memoryLog : I Z := b ← Back 1; a ← Back 0; mret (calcMemSize a b).
End machine.
