(* ===== verification/EvmGas.v ===== *)
(** * The prices of the instructions (core/vm/gas_table.go)

    A gas function returns the price of an instruction before it runs, or an error
    where the price does not fit a [uint64]. It may change the state: the refund
    counter, the gas that a call will get ([callGasTemp]) and the price that the
    memory has been paid for ([lastGasCost]). [G] is the monad of this code. *)

From stdpp Require Import base list gmap strings.
From Stdlib Require Import ZArith Lia.
From S2P Require Import Prelude Bytes Keccak KeccakFacts FsnTypes StateDB StateInterface.
From S2P Require Import EvmWord EvmAnalysis ChainConfig EvmMachine.

(** common.BigToAddress *)
Definition BigToAddress (b : Z) : Address := BytesToAddress (Int_Bytes b).

(** The configuration of an EVM: [Context], [chainConfig] and [vmConfig]. The jump
    table is separate, since its entries work on this. *)
Record Context := mkContext {
  ctx_GetHash : Z → Hash;
  ctx_Origin : Address;
  ctx_GasPrice : Z;
  ctx_Coinbase : Address;
  ctx_GasLimit : Z;
  ctx_BlockNumber : Z;
  ctx_Time : Z;
  ctx_Difficulty : Z;
  ctx_chainConfig : ChainConfig;
  ctx_NoRecursion : bool;
  ctx_EnablePreimageRecording : bool;
}.

Section gas.
Context `{SO : StateOps} (ctx : Context).

Let eip150 : bool := IsEIP150 (ctx_chainConfig ctx) (ctx_BlockNumber ctx).
Let eip158 : bool := IsEIP158 (ctx_chainConfig ctx) (ctx_BlockNumber ctx).
Let constantinople : bool := IsConstantinople (ctx_chainConfig ctx) (ctx_BlockNumber ctx).

(** ** The monad *)

Definition G (A : Type) : Type := VM → outcome ((A + error) * VM).
#[export] Instance G_ret : MRet G := fun A a v => Done (inl a, v).
#[export] Instance G_bind : MBind G := fun A B k m v =>
  let? r := m v in match r.1 with inl a => k a r.2 | inr err => Done (inr err, r.2) end.
Definition g_fail {A} (err : error) : G A := fun v => Done (inr err, v).
Definition g_try {A} (r : A + error) : G A := fun v => Done (r, v).
Definition g_lift {A} (m : I A) : G A := fun v => let? r := m v in Done (inl r.1, r.2).

(** An addition or a multiplication whose overflow is an error. *)
Definition g_add (x y : Z) : G Z :=
  let '(r, overflow) := SafeAdd x y in if overflow then g_fail errGasUintOverflow else mret r.
Definition g_mul (x y : Z) : G Z :=
  let '(r, overflow) := SafeMul x y in if overflow then g_fail errGasUintOverflow else mret r.
Definition g_bigUint64 (x : Z) : G Z :=
  let '(r, overflow) := vm_bigUint64 x in if overflow then g_fail errGasUintOverflow else mret r.

(** ** gas_table.go *)

Definition memoryGasCost (newMemSize : Z) : G Z := fun v =>
  let mem := vm_mem v in
  if newMemSize =? 0 then Done (inl 0, v)
  else if 0xffffffffe0 <? newMemSize then Done (inr errGasUintOverflow, v)
  else
    let newMemSizeWords := toWordSize newMemSize in
    let newMemSize := u64 (newMemSizeWords * 32) in
    if mem_Len mem <? newMemSize then
      let square := u64 (newMemSizeWords * newMemSizeWords) in
      let linCoef := u64 (newMemSizeWords * MemoryGas) in
      let quadCoef := square / QuadCoeffDiv in
      let newTotalFee := u64 (linCoef + quadCoef) in
      let fee := u64 (newTotalFee - lastGasCost mem) in
      Done (inl fee, set_mem (mkMemory (mem_store mem) newTotalFee) v)
    else Done (inl 0, v).

Definition constGasFunc (gas : Z) (memorySize : Z) : G Z := mret gas.

(** The price of a copy of [back] bytes. *)
Definition copyGas (base : Z) (back : nat) (memorySize : Z) : G Z :=
  gas ← memoryGasCost memorySize;
  gas ← g_add gas base;
  size ← g_lift (Back back);
  words ← g_bigUint64 size;
  words ← g_mul (toWordSize words) CopyGas;
  g_add gas words.

Definition gasCallDataCopy (gt : GasTable) : Z → G Z := copyGas GasFastestStep 2.
Definition gasReturnDataCopy (gt : GasTable) : Z → G Z := copyGas GasFastestStep 2.
Definition gasCodeCopy (gt : GasTable) : Z → G Z := copyGas GasFastestStep 2.
Definition gasExtCodeCopy (gt : GasTable) : Z → G Z := copyGas (gt_ExtcodeCopy gt) 3.

Definition contract_Address : I Address := i_gets (fun v => ct_self (vm_contract v)).

(** The rules before Constantinople. *)
Definition gasSStore_legacy (current y : Z) : G Z :=
  if (current =? 0) && negb (bigSign y =? 0) then mret SstoreSetGas
  else if negb (current =? 0) && (bigSign y =? 0) then
    _ ← g_lift (i_db (IAddRefund SstoreRefundGas)); mret SstoreClearGas
  else mret SstoreResetGas.

(** The refunds of a slot that was changed before. *)
Definition sstore_dirty (original current value : Z) : I unit :=
  _ ← (if negb (original =? 0) then
         if current =? 0 then i_db (ISubRefund NetSstoreClearRefund)
         else if value =? 0 then i_db (IAddRefund NetSstoreClearRefund)
         else mret ()
       else mret ());
  if original =? value then
    if original =? 0 then i_db (IAddRefund NetSstoreResetClearRefund)
    else i_db (IAddRefund NetSstoreResetRefund)
  else mret ().

Definition gasSStore (gt : GasTable) (memorySize : Z) : G Z :=
  y ← g_lift (Back 1); x ← g_lift (Back 0);
  address ← g_lift contract_Address;
  current ← g_lift (i_db (IGetState address (BigToHash x)));
  if negb constantinople then gasSStore_legacy current y
  else
    let value := BigToHash y in
    if current =? value then mret NetSstoreNoopGas
    else
      original ← g_lift (i_db (IGetCommittedState address (BigToHash x)));
      if original =? current then
        if original =? 0 then mret NetSstoreInitGas
        else
          _ ← g_lift (if value =? 0 then i_db (IAddRefund NetSstoreClearRefund) else mret ());
          mret NetSstoreCleanGas
      else
        _ ← g_lift (sstore_dirty original current value);
        mret NetSstoreDirtyGas.

Definition makeGasLog (n : Z) (gt : GasTable) (memorySize : Z) : G Z :=
  size ← g_lift (Back 1);
  requestedSize ← g_bigUint64 size;
  gas ← memoryGasCost memorySize;
  gas ← g_add gas LogGas;
  gas ← g_add gas (u64 (n * LogTopicGas));
  memorySizeGas ← g_mul requestedSize LogDataGas;
  g_add gas memorySizeGas.

Definition gasSha3 (gt : GasTable) (memorySize : Z) : G Z :=
  gas ← memoryGasCost memorySize;
  gas ← g_add gas Sha3Gas;
  size ← g_lift (Back 1);
  wordGas ← g_bigUint64 size;
  wordGas ← g_mul (toWordSize wordGas) Sha3WordGas;
  g_add gas wordGas.

(** The memory and a fixed price. *)
Definition memoryAnd (base : Z) (memorySize : Z) : G Z :=
  gas ← memoryGasCost memorySize; g_add gas base.

Definition gasExtCodeHash (gt : GasTable) (memorySize : Z) : G Z := mret (gt_ExtcodeHash gt).
Definition gasMLoad (gt : GasTable) : Z → G Z := memoryAnd GasFastestStep.
Definition gasMStore8 (gt : GasTable) : Z → G Z := memoryAnd GasFastestStep.
Definition gasMStore (gt : GasTable) : Z → G Z := memoryAnd GasFastestStep.
Definition gasCreate (gt : GasTable) : Z → G Z := memoryAnd CreateGas.
Definition gasCreate2 (gt : GasTable) : Z → G Z := memoryAnd Create2Gas.
Definition gasBalance (gt : GasTable) (memorySize : Z) : G Z := mret (gt_Balance gt).
Definition gasExtCodeSize (gt : GasTable) (memorySize : Z) : G Z := mret (gt_ExtcodeSize gt).
Definition gasSLoad (gt : GasTable) (memorySize : Z) : G Z := mret (gt_SLoad gt).
Definition gasPush (gt : GasTable) (memorySize : Z) : G Z := mret GasFastestStep.
Definition gasSwap (gt : GasTable) (memorySize : Z) : G Z := mret GasFastestStep.
Definition gasDup (gt : GasTable) (memorySize : Z) : G Z := mret GasFastestStep.
Definition gasReturn (gt : GasTable) : Z → G Z := memoryGasCost.
Definition gasRevert (gt : GasTable) : Z → G Z := memoryGasCost.

Definition gasExp (gt : GasTable) (memorySize : Z) : G Z :=
  exponent ← g_lift (Back 1);
  let expByteLen := (BitLen exponent + 7) / 8 in
  g_add (u64 (expByteLen * gt_ExpByte gt)) GasSlowStep.

(** What all the calls end with: the gas that the callee gets is added. *)
Definition withCallGas (gt : GasTable) (gas : Z) : G Z :=
  available ← g_lift (i_gets (fun v => ct_Gas (vm_contract v)));
  callCost ← g_lift (Back 0);
  let r := callGas gt available gas callCost in
  _ ← g_lift (i_evm (v_modify (set_callGasTemp (match r with inl temp => temp | inr _ => 0 end))));
  temp ← g_try r;
  g_add gas temp.

Definition gasCall (gt : GasTable) (memorySize : Z) : G Z :=
  value ← g_lift (Back 2);
  addr ← g_lift (Back 1);
  let transfersValue := negb (bigSign value =? 0) in
  let address := BigToAddress addr in
  newAccount ← g_lift (if eip158 then
                         if transfersValue then i_db (IEmpty address) else mret false
                       else exist ← i_db (IExist address); mret (negb exist));
  let gas := gt_Calls gt in
  let gas := if newAccount : bool then u64 (gas + CallNewAccountGas) else gas in
  let gas := if transfersValue then u64 (gas + CallValueTransferGas) else gas in
  memoryGas ← memoryGasCost memorySize;
  gas ← g_add gas memoryGas;
  withCallGas gt gas.

Definition gasCallCode (gt : GasTable) (memorySize : Z) : G Z :=
  value ← g_lift (Back 2);
  let gas := gt_Calls gt in
  let gas := if negb (bigSign value =? 0) then u64 (gas + CallValueTransferGas) else gas in
  memoryGas ← memoryGasCost memorySize;
  gas ← g_add gas memoryGas;
  withCallGas gt gas.

Definition gasDelegateCall (gt : GasTable) (memorySize : Z) : G Z :=
  gas ← memoryGasCost memorySize;
  gas ← g_add gas (gt_Calls gt);
  withCallGas gt gas.
Definition gasStaticCall (gt : GasTable) (memorySize : Z) : G Z :=
  gas ← memoryGasCost memorySize;
  gas ← g_add gas (gt_Calls gt);
  withCallGas gt gas.

(** A [*big.Int] that must not be nil. *)
Definition i_ptr (x : option Z) : I Z :=
  match x with Some x => mret x | None => i_lift (Panic "nil pointer dereference") end.

(** Whether the beneficiary has to be created. *)
Definition suicide_creates (contractAddr address : Address) : I bool :=
  if eip158 then
    empty ← i_db (IEmpty address);
    if empty : bool then
      b ← i_db (IGetBalance SystemAssetID contractAddr);
      b ← i_ptr b;
      mret (negb (bigSign b =? 0))
    else mret false
  else exist ← i_db (IExist address); mret (negb exist).

Definition gasSuicide (gt : GasTable) (memorySize : Z) : G Z :=
  contractAddr ← g_lift contract_Address;
  gas ← (if eip150 then
           addr ← g_lift (Back 0);
           creates ← g_lift (suicide_creates contractAddr (BigToAddress addr));
           mret (if creates : bool then u64 (gt_Suicide gt + gt_CreateBySuicide gt) else gt_Suicide gt)
         else mret 0);
  suicided ← g_lift (i_db (IHasSuicided contractAddr));
  _ ← g_lift (if suicided : bool then mret () else i_db (IAddRefund SuicideRefundGas));
  mret gas.
End gas.
