(* ===== verification/EvmCall.v ===== *)
(** * Calls and creations (core/vm/evm.go, core/evm.go)

    [Call], [CallCode], [DelegateCall], [StaticCall] and [create]: each takes a
    snapshot, runs a contract and reverts when the contract fails. Running a
    contract is the interpreter's, which makes calls itself; here it is the
    variable [run], and Evm ties the knot. *)

From stdpp Require Import base list gmap strings.
From Stdlib Require Import ZArith Lia.
From S2P Require Import Prelude Bytes Keccak KeccakFacts FsnTypes Rlp Codec StateDB StateInterface.
From S2P Require Import EvmWord EvmAnalysis ChainConfig EvmMachine EvmGas.

(** ** Errors *)

Definition ErrOutOfGas : error := New "out of gas".
Definition ErrCodeStoreOutOfGas : error := New "contract creation code storage out of gas".
Definition ErrDepth : error := New "max call depth exceeded".
Definition ErrInsufficientBalance : error := New "insufficient balance for transfer".
Definition ErrContractAddressCollision : error := New "contract address collision".
Definition errWriteProtection : error := New "evm: write protection".
Definition errReturnDataOutOfBounds : error := New "evm: return data out of bounds".
Definition errExecutionReverted : error := New "evm: execution reverted".
Definition errMaxCodeSizeExceeded : error := New "evm: max code size exceeded".

Definition is_err (err : option error) (e : error) : bool := bool_decide (err = Some e).
Definition no_err (err : option error) : bool := match err with None => true | Some _ => false end.

(** ** crypto.CreateAddress, crypto.CreateAddress2 *)

(** [[]interface{}{b, nonce}] is encoded as a struct of the two. *)
Definition createData : Rlp (Address * Z) :=
  c_struct (c_address ::: c_uint 64 ::: f_nil) (fun p => (p.1, (p.2, tt))) (fun '(a, (n, _)) => (a, n)).
Definition CreateAddress (b : Address) (nonce : Z) : Address :=
  let data := match @Marshal _ createData (b, nonce) with inl data => data | inr _ => [] end in
  BytesToAddress (drop 12 (Hash_Bytes (keccak data))).
Definition CreateAddress2 (b : Address) (salt : Hash) (code : bytes) : Address :=
  BytesToAddress (drop 12 (Hash_Bytes
    (keccak (0xff :: Address_Bytes b ++ Hash_Bytes salt ++ Hash_Bytes (keccak code))))).

(** ** Precompiled contracts *)

(** PrecompiledContract of contracts.go. The two tables are in EvmPrecompiled; here
    they are any. *)
Record PrecompiledContract := mkPrecompiled {
  RequiredGas : bytes → outcome Z;
  precompiled_Run : bytes → outcome (bytes * option error);
}.
Class Precompiles := {
  PrecompiledContractsHomestead : Address → option PrecompiledContract;
  PrecompiledContractsByzantium : Address → option PrecompiledContract;
}.

Section calls.
Context `{SO : StateOps} `{PC : Precompiles} (ctx : Context).

Let homestead : bool := IsHomestead (ctx_chainConfig ctx) (ctx_BlockNumber ctx).
Let eip158 : bool := IsEIP158 (ctx_chainConfig ctx) (ctx_BlockNumber ctx).
Let byzantium : bool := IsByzantium (ctx_chainConfig ctx) (ctx_BlockNumber ctx).

Definition precompiles (addr : Address) : option PrecompiledContract :=
  if byzantium then PrecompiledContractsByzantium addr else PrecompiledContractsHomestead addr.

(** ** core/evm.go *)

Definition v_ptr (x : option Z) : V Z :=
  match x with Some x => mret x | None => v_lift (Panic "nil pointer dereference") end.

Definition CanTransfer (addr : Address) (amount : Z) : V bool :=
  b ← v_db (IGetBalance SystemAssetID addr);
  b ← v_ptr b;
  mret (0 <=? bigCmp b amount).
Definition Transfer (sender recipient : Address) (amount : Z) : V unit :=
  _ ← v_db (ISubBalance sender SystemAssetID amount);
  v_db (IAddBalance recipient SystemAssetID amount).

(** ** evm.go *)

(** What running a contract returns: the output, the error and the gas that the
    contract has left. *)
Definition ran : Type := bytes * option error * Z.
(** What a call returns. *)
Definition called : Type := bytes * Z * option error.

Definition RunPrecompiledContract (p : PrecompiledContract) (input : bytes) (c : Contract) : V ran :=
  gas ← v_lift (RequiredGas p input);
  match UseGas gas c with
  | Some c => r ← v_lift (precompiled_Run p input); mret (r.1, r.2, ct_Gas c)
  | None => mret ([], Some ErrOutOfGas, ct_Gas c)
  end.

(** The interpreter: [Run] of interpreter.go. *)
Variable interpreter_Run : Contract → bytes → bool → V ran.

Definition run (c : Contract) (input : bytes) (readOnly : bool) : V ran :=
  match ct_CodeAddr c with
  | Some addr =>
      match precompiles addr with
      | Some p => RunPrecompiledContract p input c
      | None => interpreter_Run c input readOnly
      end
  | None => interpreter_Run c input readOnly
  end.

(** The map of jump destinations is new unless the caller is a contract. *)
Definition newJumpdests (caller : ContractRef) : V unit :=
  match caller with
  | ContractOf _ => mret ()
  | AccountRef _ => v_modify (set_jumpdests ∅)
  end.

(** [SetCallCode(&addr, GetCodeHash(addr), GetCode(addr))] *)
Definition withCode (addr : Address) (c : Contract) : V Contract :=
  hash ← v_db (IGetCodeHash addr);
  code ← v_db (IGetCode addr);
  mret (SetCallCode (Some addr) hash (default [] code) c).

(** The end of the calls: an error reverts, and takes the gas unless the contract
    asked for the revert. *)
Definition finish (snapshot : Z) (r : ran) : V called :=
  let '(ret, err, gas) := r in
  match err with
  | None => mret (ret, gas, None)
  | Some e =>
      _ ← v_state (sdb_RevertToSnapshot snapshot);
      mret (ret, if bool_decide (e = errExecutionReverted) then gas else 0, err)
  end.

(** The account that is called, when there is none yet: [false] if the call ends. *)
Definition prepareAccount (addr : Address) (value : Z) : V bool :=
  exist ← v_db (IExist addr);
  if exist : bool then mret true
  else if (match precompiles addr with None => true | Some _ => false end) && eip158 && (bigSign value =? 0)
  then mret false
  else _ ← v_db (ICreateAccount addr); mret true.

Definition Call (caller : ContractRef) (addr : Address) (input : bytes) (gas value : Z) : V called :=
  depth ← v_gets evm_depth;
  if ctx_NoRecursion ctx && (0 <? depth) then mret ([], gas, None)
  else if CallCreateDepth <? depth then mret ([], gas, Some ErrDepth)
  else
    can ← CanTransfer (ref_Address caller) value;
    if negb can then mret ([], gas, Some ErrInsufficientBalance)
    else
      snapshot ← v_state sdb_Snapshot;
      go ← prepareAccount addr value;
      if negb go then mret ([], gas, None)
      else
        _ ← Transfer (ref_Address caller) addr value;
        _ ← newJumpdests caller;
        c ← withCode addr (NewContract caller addr (Some value) gas);
        r ← run c input false;
        finish snapshot r.

Definition CallCode (caller : ContractRef) (addr : Address) (input : bytes) (gas value : Z) : V called :=
  depth ← v_gets evm_depth;
  if ctx_NoRecursion ctx && (0 <? depth) then mret ([], gas, None)
  else if CallCreateDepth <? depth then mret ([], gas, Some ErrDepth)
  else
    can ← CanTransfer (ref_Address caller) value;
    if negb can then mret ([], gas, Some ErrInsufficientBalance)
    else
      snapshot ← v_state sdb_Snapshot;
      _ ← newJumpdests caller;
      c ← withCode addr (NewContract caller (ref_Address caller) (Some value) gas);
      r ← run c input false;
      finish snapshot r.

Definition DelegateCall (caller : ContractRef) (addr : Address) (input : bytes) (gas : Z) : V called :=
  depth ← v_gets evm_depth;
  if ctx_NoRecursion ctx && (0 <? depth) then mret ([], gas, None)
  else if CallCreateDepth <? depth then mret ([], gas, Some ErrDepth)
  else
    snapshot ← v_state sdb_Snapshot;
    _ ← newJumpdests caller;
    c ← v_lift (AsDelegate caller (NewContract caller (ref_Address caller) None gas));
    c ← withCode addr c;
    r ← run c input false;
    finish snapshot r.

Definition StaticCall (caller : ContractRef) (addr : Address) (input : bytes) (gas : Z) : V called :=
  depth ← v_gets evm_depth;
  if ctx_NoRecursion ctx && (0 <? depth) then mret ([], gas, None)
  else if CallCreateDepth <? depth then mret ([], gas, Some ErrDepth)
  else
    snapshot ← v_state sdb_Snapshot;
    _ ← newJumpdests caller;
    c ← withCode addr (NewContract caller addr (Some 0) gas);
    r ← run c input true;
    finish snapshot r.

(** The code that the creation returned is stored, if it can be paid for. *)
Definition storeCode (address : Address) (ret : bytes) (gas : Z) : V (option error * Z) :=
  let createDataGas := u64 (Z.of_nat (length ret) * CreateDataGas) in
  if gas <? createDataGas then mret (Some ErrCodeStoreOutOfGas, gas)
  else _ ← v_db (ISetCode address ret); mret (None, gas - createDataGas).

(** What [create] does with the outcome of the creation code. *)
Definition finishCreate (snapshot : Z) (address : Address) (r : ran) : V called :=
  let '(ret, err, gas) := r in
  let maxCodeSizeExceeded := eip158 && (MaxCodeSize <? Z.of_nat (length ret)) in
  s ← (if no_err err && negb maxCodeSizeExceeded then storeCode address ret gas else mret (err, gas));
  let '(err, gas) := s in
  if maxCodeSizeExceeded || (negb (no_err err) && (homestead || negb (is_err err ErrCodeStoreOutOfGas))) then
    _ ← v_state (sdb_RevertToSnapshot snapshot);
    mret (ret, if negb (is_err err errExecutionReverted) then 0 else gas,
          if maxCodeSizeExceeded && no_err err then Some errMaxCodeSizeExceeded else err)
  else mret (ret, gas, err).

(** The address is returned beside the result. *)
Definition create (caller : ContractRef) (code : bytes) (gas value : Z) (address : Address)
    : V (called * Address) :=
  depth ← v_gets evm_depth;
  if CallCreateDepth <? depth then mret ([], gas, Some ErrDepth, 0)
  else
    can ← CanTransfer (ref_Address caller) value;
    if negb can then mret ([], gas, Some ErrInsufficientBalance, 0)
    else
      nonce ← v_db (IGetNonce (ref_Address caller));
      _ ← v_db (ISetNonce (ref_Address caller) (u64 (nonce + 1)));
      contractHash ← v_db (IGetCodeHash address);
      nonce ← v_db (IGetNonce address);
      if negb (nonce =? 0) || (negb (contractHash =? 0) && negb (contractHash =? keccak []))
      then mret ([], 0, Some ErrContractAddressCollision, 0)
      else
        snapshot ← v_state sdb_Snapshot;
        _ ← v_db (ICreateAccount address);
        _ ← (if eip158 then v_db (ISetNonce address 1) else mret ());
        _ ← Transfer (ref_Address caller) address value;
        _ ← newJumpdests caller;
        let c := SetCallCode (Some address) (keccak code) code (NewContract caller address (Some value) gas) in
        if ctx_NoRecursion ctx && (0 <? depth) then mret ([], gas, None, address)
        else
          r ← run c [] false;
          res ← finishCreate snapshot address r;
          mret (res, address).

Definition Create (caller : ContractRef) (code : bytes) (gas value : Z) : V (called * Address) :=
  nonce ← v_db (IGetNonce (ref_Address caller));
  create caller code gas value (CreateAddress (ref_Address caller) nonce).
Definition Create2 (caller : ContractRef) (code : bytes) (gas endowment salt : Z) : V (called * Address) :=
  create caller code gas endowment (CreateAddress2 (ref_Address caller) (BigToHash salt) code).
End calls.
