(* ===== verification/EvmPrecompiled.v ===== *)
(** * The precompiled contracts (core/vm/contracts.go)

    The eight contracts that are written in Go. The recovery of public keys, the
    operations on the curve of crypto/bn256 and the hash RIPEMD-160 are parameters;
    SHA-256 of the standard library is defined here. *)

From stdpp Require Import base list gmap strings.
From Stdlib Require Import ZArith Zpow_facts Lia.
From S2P Require Import Prelude Bytes Keccak KeccakFacts FsnTypes Rlp Codec Transaction StateDB StateInterface.
From S2P Require Import EvmWord EvmAnalysis ChainConfig EvmMachine EvmGas EvmCall.

(** ** SHA-256 *)

Module Sha256.
Definition w32 (x : Z) : Z := x mod 2 ^ 32.
Definition rotr (n x : Z) : Z := Z.lor (Z.shiftr x n) (w32 (Z.shiftl x (32 - n))).

(** The constants of FIPS 180-4 are not listed but computed from what they are: the
    first 32 bits of the fractional parts of the cube roots of the first 64 primes,
    and of the square roots of the first 8. *)
Definition primes : list Z :=
  let ns := Z.of_nat <$> seq 2 310 in
  filter (fun n => forallb (fun d => (n <=? d) || negb (n mod d =? 0)) ns = true) ns.

(** The integer cube root, of [bits] bits, from the highest bit down. *)
Fixpoint cbrt (bits : nat) (n root : Z) : Z :=
  match bits with
  | O => root
  | S bits => let r := root + 2 ^ Z.of_nat bits in cbrt bits n (if r ^ 3 <=? n then r else root)
  end.

Definition constants : list Z :=
  Eval vm_compute in (fun p => w32 (cbrt 36 (p * 2 ^ 96) 0)) <$> primes.
Definition initial : list Z :=
  Eval vm_compute in (fun p => w32 (Z.sqrt (p * 2 ^ 64))) <$> take 8 primes.

Definition pad (m : bytes) : bytes :=
  m ++ [0x80] ++ replicate ((119 - length m mod 64) mod 64) 0 ++ be_bytes 8 (8 * Z.of_nat (length m)).

Fixpoint words (n : nat) (b : bytes) : list Z :=
  match n with O => [] | S n => SetBytes (take 4 b) :: words n (drop 4 b) end.

(** The words of the schedule, the newest first. *)
Fixpoint schedule (n : nat) (w : list Z) : list Z :=
  match n with
  | O => w
  | S n =>
      let x := nth 1 w 0 in let y := nth 14 w 0 in
      let s1 := Z.lxor (Z.lxor (rotr 17 x) (rotr 19 x)) (Z.shiftr x 10) in
      let s0 := Z.lxor (Z.lxor (rotr 7 y) (rotr 18 y)) (Z.shiftr y 3) in
      schedule n (w32 (s1 + nth 6 w 0 + s0 + nth 15 w 0) :: w)
  end.

Definition round (st : list Z) (kw : Z * Z) : list Z :=
  match st with
  | [a; b; c; d; e; f; g; h] =>
      let t1 := h + Z.lxor (Z.lxor (rotr 6 e) (rotr 11 e)) (rotr 25 e)
                + Z.lxor (Z.land e f) (Z.land (Z.lxor e (2 ^ 32 - 1)) g) + kw.1 + kw.2 in
      let t2 := Z.lxor (Z.lxor (rotr 2 a) (rotr 13 a)) (rotr 22 a)
                + Z.lxor (Z.lxor (Z.land a b) (Z.land a c)) (Z.land b c) in
      [w32 (t1 + t2); a; b; c; w32 (d + t1); e; f; g]
  | _ => st
  end.

Definition block (st : list Z) (b : bytes) : list Z :=
  let w := rev (schedule 48 (rev (words 16 b))) in
  zip_with (fun x y => w32 (x + y)) st (fold_left round (zip constants w) st).

Fixpoint blocks (n : nat) (st : list Z) (b : bytes) : list Z :=
  match n with O => st | S n => blocks n (block st (take 64 b)) (drop 64 b) end.

Definition Sum256 (m : bytes) : bytes :=
  let p := pad m in concat (map (be_bytes 4) (blocks (length p / 64) initial p)).
End Sha256.

(** ** Parameters *)

(** golang.org/x/crypto/ripemd160 and crypto/bn256. *)
Class Hashing := { ripemd160 : bytes → bytes }.
Class Bn256 := {
  G1 : Type; G2 : Type;
  G1_Unmarshal : bytes → G1 + error;
  G2_Unmarshal : bytes → G2 + error;
  G1_Add : G1 → G1 → G1;
  G1_ScalarMult : G1 → Z → G1;
  G1_Marshal : G1 → bytes;
  PairingCheck : list G1 → list G2 → bool;
}.

Definition EcrecoverGas : Z := 3000.
Definition Sha256BaseGas : Z := 60.
Definition Sha256PerWordGas : Z := 12.
Definition Ripemd160BaseGas : Z := 600.
Definition Ripemd160PerWordGas : Z := 120.
Definition IdentityBaseGas : Z := 15.
Definition IdentityPerWordGas : Z := 3.
Definition ModExpQuadCoeffDiv : Z := 20.
Definition Bn256AddGas : Z := 500.
Definition Bn256ScalarMulGas : Z := 40000.
Definition Bn256PairingBaseGas : Z := 100000.
Definition Bn256PairingPerPointGas : Z := 80000.

Section contracts.
Context `{CU : Curve} `{HA : Hashing} `{BN : Bn256}.

Definition fixedGas (gas : Z) (input : bytes) : outcome Z := Done gas.
(** [uint64(len(input)+31)/32*perWord + base] *)
Definition wordGas (perWord base : Z) (input : bytes) : outcome Z :=
  Done (u64 (u64 (i64 (Z.of_nat (length input) + 31)) / 32 * perWord + base)).

(** The output, and the input as the call leaves it: where the input is longer than
    128 bytes, [append(input[64:128], v)] writes [v] over its byte 128. *)
Definition ecrecover_Run (input : bytes) : outcome (bytes * option error * bytes) :=
  let padded := RightPadBytes input 128 in
  let r := SetBytes (take 32 (drop 64 padded)) in
  let s := SetBytes (take 32 (drop 96 padded)) in
  let v := (nth 63 padded 0 - 27) mod 256 in
  if negb (allZero (take 31 (drop 32 padded))) || negb (ValidateSignatureValues v r s false) then Done ([], None, input)
  else
    let after := if 128 <? Z.of_nat (length input) then <[128%nat := v]> input else input in
    match Ecrecover (take 32 padded) (take 64 (drop 64 padded) ++ [v]) with
    | inr _ => Done ([], None, after)
    | inl [] => Panic "slice bounds out of range"
    | inl (_ :: pub) => Done (LeftPadBytes (drop 12 (Hash_Bytes (keccak pub))) 32, None, after)
    end.

Definition sha256hash_Run (input : bytes) : outcome (bytes * option error) := Done (Sha256.Sum256 input, None).
Definition ripemd160hash_Run (input : bytes) : outcome (bytes * option error) :=
  Done (LeftPadBytes (ripemd160 input) 32, None).
Definition dataCopy_Run (input : bytes) : outcome (bytes * option error) := Done (input, None).

(** *** bigModExp *)

Definition afterHeader (input : bytes) : bytes :=
  if 96 <? Z.of_nat (length input) then drop 96 input else [].

(** The three lengths at the start of the input. *)
Definition modExpLens (input : bytes) : outcome (Z * Z * Z) :=
  let? b := getData input 0 32 in
  let? e := getData input 32 32 in
  let? m := getData input 64 32 in
  Done (SetBytes b, SetBytes e, SetBytes m).

Definition multComplexity (x : Z) : Z :=
  if x <=? 64 then x * x
  else if x <=? 1024 then x * x / 4 + (96 * x - 3072)
  else x * x / 16 + (480 * x - 199680).

Definition bigModExp_RequiredGas (input : bytes) : outcome Z :=
  let? (baseLen, expLen, modLen) := modExpLens input in
  let input := afterHeader input in
  let? expHead := (if Z.of_nat (length input) <=? baseLen then Done 0
                   else
                     let? d := getData input (bigUint64 baseLen) (if 32 <? expLen then 32 else bigUint64 expLen) in
                     Done (SetBytes d)) in
  let msb := if 0 <? BitLen expHead then BitLen expHead - 1 else 0 in
  let adjExpLen := (if 32 <? expLen then 8 * (expLen - 32) else 0) + msb in
  let gas := multComplexity (BigMax modLen baseLen) * BigMax adjExpLen 1 / ModExpQuadCoeffDiv in
  Done (if 64 <? BitLen gas then max_u64 else bigUint64 gas).

Definition bigModExp_Run (input : bytes) : outcome (bytes * option error) :=
  let? (baseLen, expLen, modLen) := modExpLens input in
  let '(baseLen, expLen, modLen) := (bigUint64 baseLen, bigUint64 expLen, bigUint64 modLen) in
  let input := afterHeader input in
  if (baseLen =? 0) && (modLen =? 0) then Done ([], None)
  else
    let? base := getData input 0 baseLen in
    let? exp := getData input baseLen expLen in
    let? md := getData input (u64 (baseLen + expLen)) modLen in
    if BitLen (SetBytes md) =? 0 then Done (LeftPadBytes [] (i64 modLen), None)
    else Done (LeftPadBytes (Int_Bytes (Zpow_mod (SetBytes base) (SetBytes exp) (SetBytes md))) (i64 modLen), None).

(** *** bn256 *)

Definition bn256Add_Run (input : bytes) : outcome (bytes * option error) :=
  let? bx := getData input 0 64 in
  match G1_Unmarshal bx with
  | inr err => Done ([], Some err)
  | inl x =>
      let? by_ := getData input 64 64 in
      match G1_Unmarshal by_ with
      | inr err => Done ([], Some err)
      | inl y => Done (G1_Marshal (G1_Add x y), None)
      end
  end.

Definition bn256ScalarMul_Run (input : bytes) : outcome (bytes * option error) :=
  let? bp := getData input 0 64 in
  match G1_Unmarshal bp with
  | inr err => Done ([], Some err)
  | inl p =>
      let? k := getData input 64 32 in
      Done (G1_Marshal (G1_ScalarMult p (SetBytes k)), None)
  end.

Definition bn256Pairing_RequiredGas (input : bytes) : outcome Z :=
  Done (u64 (Bn256PairingBaseGas + Z.of_nat (length input) / 192 * Bn256PairingPerPointGas)).

(** The points of the input, 192 bytes for each pair. *)
Fixpoint pairing_points (n : nat) (input : bytes) (cs : list G1) (ts : list G2) : (list G1 * list G2) + error :=
  match n with
  | O => inl (cs, ts)
  | S n =>
      match G1_Unmarshal (take 64 input) with
      | inr err => inr err
      | inl c =>
          match G2_Unmarshal (take 128 (drop 64 input)) with
          | inr err => inr err
          | inl t => pairing_points n (drop 192 input) (cs ++ [c]) (ts ++ [t])
          end
      end
  end.

Definition errBadPairingInput : error := New "bad elliptic curve pairing size".
Definition true32Byte : bytes := be_bytes 32 1.
Definition false32Byte : bytes := be_bytes 32 0.

Definition bn256Pairing_Run (input : bytes) : outcome (bytes * option error) :=
  if (0 <? length input mod 192)%nat then Done ([], Some errBadPairingInput)
  else
    match pairing_points (length input / 192) input [] [] with
    | inr err => Done ([], Some err)
    | inl (cs, ts) => Done (if PairingCheck cs ts then true32Byte else false32Byte, None)
    end.

(** ** The tables *)

(** The EVM reads the input of a contract no more after the call: it is a copy of
    the memory of the caller, or the data of the message. So the tables leave out
    what [ecrecover_Run] did to it. *)

Definition contractsHomestead (a : Address) : option PrecompiledContract :=
  if a =? 1 then Some (mkPrecompiled (fixedGas EcrecoverGas) (fun input => let? r := ecrecover_Run input in Done r.1))
  else if a =? 2 then Some (mkPrecompiled (wordGas Sha256PerWordGas Sha256BaseGas) sha256hash_Run)
  else if a =? 3 then Some (mkPrecompiled (wordGas Ripemd160PerWordGas Ripemd160BaseGas) ripemd160hash_Run)
  else if a =? 4 then Some (mkPrecompiled (wordGas IdentityPerWordGas IdentityBaseGas) dataCopy_Run)
  else None.
Definition contractsByzantium (a : Address) : option PrecompiledContract :=
  if a =? 5 then Some (mkPrecompiled bigModExp_RequiredGas bigModExp_Run)
  else if a =? 6 then Some (mkPrecompiled (fixedGas Bn256AddGas) bn256Add_Run)
  else if a =? 7 then Some (mkPrecompiled (fixedGas Bn256ScalarMulGas) bn256ScalarMul_Run)
  else if a =? 8 then Some (mkPrecompiled bn256Pairing_RequiredGas bn256Pairing_Run)
  else contractsHomestead a.

#[export] Instance contracts : Precompiles := {|
  PrecompiledContractsHomestead := contractsHomestead;
  PrecompiledContractsByzantium := contractsByzantium;
|}.
End contracts.
