(* ===== verification/EvmOps.v ===== *)
(** * The instructions (core/vm/instructions.go)

    One definition for each instruction. An instruction returns its output and an
    error; most return neither ([done]). What goes back to the pool of integers is
    left out. *)

From stdpp Require Import base list gmap strings.
From Stdlib Require Import ZArith Lia.
From S2P Require Import Prelude Bytes Keccak KeccakFacts FsnTypes StateDB StateInterface.
From S2P Require Import EvmWord EvmAnalysis ChainConfig EvmMachine EvmGas EvmCall.

Section instructions.
Context `{SO : StateOps} `{PC : Precompiles} (ctx : Context).
Context (interpreter_Run : Contract → bytes → bool → V ran).

Let config := ctx_chainConfig ctx.
Let number := ctx_BlockNumber ctx.

Definition instruction : Type := I (bytes * option error).
Definition nothing : instruction := mret ([], None).

(** The number 1 or 0 of a condition. *)
Definition flag (b : bool) : Z := if b then 1 else 0.

(** ** Arithmetic *)

Definition opAdd : instruction := x ← pop; y ← peek; _ ← set_peek (U256 (x + y)); nothing.
Definition opSub : instruction := x ← pop; y ← peek; _ ← set_peek (U256 (x - y)); nothing.
Definition opMul : instruction := x ← pop; y ← pop; _ ← push (U256 (x * y)); nothing.

(** [Div] and [Mod] of math/big are Euclidean; on these operands, which are not
    negative, they are those of [Z]. *)
Definition opDiv : instruction :=
  x ← pop; y ← peek;
  _ ← set_peek (if negb (bigSign y =? 0) then U256 (x / y) else 0); nothing.

Definition opSdiv : instruction :=
  x ← pop; y ← pop;
  let x := S256 x in let y := S256 y in
  _ ← push (if (bigSign y =? 0) || (bigSign x =? 0) then 0
            else if negb (bigSign x =? bigSign y) then U256 (- (Z.abs x / Z.abs y))
            else U256 (Z.abs x / Z.abs y));
  nothing.

Definition opMod : instruction :=
  x ← pop; y ← pop;
  _ ← push (if bigSign y =? 0 then 0 else U256 (x mod y)); nothing.

Definition opSmod : instruction :=
  x ← pop; y ← pop;
  let x := S256 x in let y := S256 y in
  _ ← push (if bigSign y =? 0 then 0
            else if bigSign x <? 0 then U256 (- (Z.abs x mod Z.abs y))
            else U256 (Z.abs x mod Z.abs y));
  nothing.

Definition opExp : instruction := base ← pop; exponent ← pop; _ ← push (Exp base exponent); nothing.

Definition opSignExtend : instruction :=
  back ← pop;
  if bigCmp back 31 <? 0 then
    let bit := u64 (bigUint64 back * 8 + 7) in
    num ← pop;
    let mask := Z.shiftl 1 bit - 1 in
    _ ← push (U256 (if Z.testbit num bit then Z.lor num (Z.lnot mask) else Z.land num mask));
    nothing
  else nothing.

Definition opNot : instruction := x ← peek; _ ← set_peek (U256 (Z.lnot x)); nothing.

(** ** Comparisons and bits *)

Definition opLt : instruction := x ← pop; y ← peek; _ ← set_peek (flag (bigCmp x y <? 0)); nothing.
Definition opGt : instruction := x ← pop; y ← peek; _ ← set_peek (flag (0 <? bigCmp x y)); nothing.

Definition opSlt : instruction :=
  x ← pop; y ← peek;
  let xSign := bigCmp x tt255 in
  let ySign := bigCmp y tt255 in
  _ ← set_peek (if (0 <=? xSign) && (ySign <? 0) then 1
                else if (xSign <? 0) && (0 <=? ySign) then 0
                else flag (bigCmp x y <? 0));
  nothing.
Definition opSgt : instruction :=
  x ← pop; y ← peek;
  let xSign := bigCmp x tt255 in
  let ySign := bigCmp y tt255 in
  _ ← set_peek (if (0 <=? xSign) && (ySign <? 0) then 0
                else if (xSign <? 0) && (0 <=? ySign) then 1
                else flag (0 <? bigCmp x y));
  nothing.

Definition opEq : instruction := x ← pop; y ← peek; _ ← set_peek (flag (bigCmp x y =? 0)); nothing.
Definition opIszero : instruction := x ← peek; _ ← set_peek (if 0 <? bigSign x then 0 else 1); nothing.
Definition opAnd : instruction := x ← pop; y ← pop; _ ← push (Z.land x y); nothing.
Definition opOr : instruction := x ← pop; y ← peek; _ ← set_peek (Z.lor x y); nothing.
Definition opXor : instruction := x ← pop; y ← peek; _ ← set_peek (Z.lxor x y); nothing.

Definition opByte : instruction :=
  th ← pop; val ← peek;
  _ ← set_peek (if bigCmp th 32 <? 0 then Byte val 32 (bigInt64 th) else 0); nothing.

Definition opAddmod : instruction :=
  x ← pop; y ← pop; z ← pop;
  _ ← push (if 0 <? bigCmp z 0 then U256 ((x + y) mod z) else 0); nothing.
Definition opMulmod : instruction :=
  x ← pop; y ← pop; z ← pop;
  _ ← push (if 0 <? bigCmp z 0 then U256 ((x * y) mod z) else 0); nothing.

Definition opSHL : instruction :=
  shift ← pop; value ← peek;
  let shift := U256 shift in let value := U256 value in
  _ ← set_peek (if 0 <=? bigCmp shift 256 then 0 else U256 (Z.shiftl value (bigUint64 shift))); nothing.
Definition opSHR : instruction :=
  shift ← pop; value ← peek;
  let shift := U256 shift in let value := U256 value in
  _ ← set_peek (if 0 <=? bigCmp shift 256 then 0 else U256 (Z.shiftr value (bigUint64 shift))); nothing.
Definition opSAR : instruction :=
  shift ← pop; value ← pop;
  let shift := U256 shift in let value := S256 value in
  _ ← push (if 0 <=? bigCmp shift 256 then U256 (if 0 <=? bigSign value then 0 else -1)
            else U256 (Z.shiftr value (bigUint64 shift)));
  nothing.

(** ** The environment *)

Definition opSha3 : instruction :=
  offset ← pop; size ← pop;
  data ← memory_Get (bigInt64 offset) (bigInt64 size);
  let hash := keccak data in
  _ ← (if ctx_EnablePreimageRecording ctx then i_db (IAddPreimage hash data) else mret ());
  _ ← push hash; nothing.

Definition this : I Contract := i_gets vm_contract.

Definition opAddress : instruction := c ← this; _ ← push (ct_self c); nothing.
Definition opBalance : instruction :=
  slot ← peek;
  b ← i_db (IGetBalance SystemAssetID (BigToAddress slot));
  b ← i_ptr b;
  _ ← set_peek b; nothing.
Definition opOrigin : instruction := _ ← push (ctx_Origin ctx); nothing.
Definition opCaller : instruction := c ← this; _ ← push (CallerAddress c); nothing.
Definition opCallValue : instruction := c ← this; value ← i_ptr (ct_value c); _ ← push value; nothing.
Definition opCallDataLoad : instruction :=
  c ← this; start ← pop;
  d ← i_lift (getDataBig (ct_Input c) start 32);
  _ ← push (SetBytes d); nothing.
Definition opCallDataSize : instruction := c ← this; _ ← push (Z.of_nat (length (ct_Input c))); nothing.
Definition opCallDataCopy : instruction :=
  c ← this;
  memOffset ← pop; dataOffset ← pop; len ← pop;
  d ← i_lift (getDataBig (ct_Input c) dataOffset len);
  _ ← memory_Set (bigUint64 memOffset) (bigUint64 len) d; nothing.

Definition returnData : I bytes := i_gets (fun v => in_returnData (vm_evm v)).
Definition opReturnDataSize : instruction := d ← returnData; _ ← push (Z.of_nat (length d)); nothing.
Definition opReturnDataCopy : instruction :=
  memOffset ← pop; dataOffset ← pop; len ← pop;
  let end_ := dataOffset + len in
  d ← returnData;
  if (64 <? BitLen end_) || (Z.of_nat (length d) <? bigUint64 end_)
  then mret ([], Some errReturnDataOutOfBounds)
  else
    d ← i_lift (slice d (bigUint64 dataOffset) (bigUint64 end_));
    _ ← memory_Set (bigUint64 memOffset) (bigUint64 len) d; nothing.

Definition opExtCodeSize : instruction :=
  slot ← peek; n ← i_db (IGetCodeSize (BigToAddress slot)); _ ← set_peek n; nothing.
Definition opCodeSize : instruction := c ← this; _ ← push (Z.of_nat (length (ct_Code c))); nothing.
Definition opCodeCopy : instruction :=
  c ← this;
  memOffset ← pop; codeOffset ← pop; len ← pop;
  d ← i_lift (getDataBig (ct_Code c) codeOffset len);
  _ ← memory_Set (bigUint64 memOffset) (bigUint64 len) d; nothing.
Definition opExtCodeCopy : instruction :=
  addr ← pop; memOffset ← pop; codeOffset ← pop; len ← pop;
  code ← i_db (IGetCode (BigToAddress addr));
  d ← i_lift (getDataBig (default [] code) codeOffset len);
  _ ← memory_Set (bigUint64 memOffset) (bigUint64 len) d; nothing.
Definition opExtCodeHash : instruction :=
  slot ← peek; h ← i_db (IGetCodeHash (BigToAddress slot)); _ ← set_peek h; nothing.

Definition opGasprice : instruction := _ ← push (ctx_GasPrice ctx); nothing.
Definition opBlockhash : instruction :=
  num ← pop;
  let n := number - 257 in
  _ ← push (if (0 <? bigCmp num n) && (bigCmp num number <? 0) then ctx_GetHash ctx (bigUint64 num) else 0);
  nothing.
Definition opCoinbase : instruction := _ ← push (ctx_Coinbase ctx); nothing.
Definition opTimestamp : instruction := _ ← push (U256 (ctx_Time ctx)); nothing.
Definition opNumber : instruction := _ ← push (U256 number); nothing.
Definition opDifficulty : instruction := _ ← push (U256 (ctx_Difficulty ctx)); nothing.
Definition opGasLimit : instruction := _ ← push (U256 (ctx_GasLimit ctx)); nothing.

(** ** Memory, storage and control *)

Definition opPop : instruction := _ ← pop; nothing.
Definition opMload : instruction :=
  offset ← pop; d ← memory_Get (bigInt64 offset) 32; _ ← push (SetBytes d); nothing.
Definition opMstore : instruction :=
  mStart ← pop; val ← pop; _ ← memory_Set32 (bigUint64 mStart) val; nothing.
Definition opMstore8 : instruction :=
  off ← pop; val ← pop;
  let off := bigInt64 off in
  m ← i_gets vm_mem;
  if (off <? 0) || (mem_Len m <=? off) then i_lift (Panic "index out of range")
  else
    _ ← i_modify (set_mem (mkMemory (<[Z.to_nat off := Z.land (bigInt64 val) 0xff]> (mem_store m)) (lastGasCost m)));
    nothing.

Definition opSload : instruction :=
  loc ← peek; c ← this;
  val ← i_db (IGetState (ct_self c) (BigToHash loc));
  _ ← set_peek val; nothing.
Definition opSstore : instruction :=
  loc ← pop; val ← pop; c ← this;
  _ ← i_db (ISetState (ct_self c) (BigToHash loc) (BigToHash val)); nothing.

(** [contract.jumpdests.has(contract.CodeHash, contract.Code, pos)] *)
Definition validJump (pos : Z) : I bool :=
  c ← this;
  d ← i_gets (fun v => evm_jumpdests (vm_evm v));
  r ← i_lift (has d (ct_CodeHash c) (ct_Code c) pos);
  _ ← i_evm (v_modify (set_jumpdests r.2));
  mret r.1.
Definition jumpTo (pos : Z) : instruction :=
  ok ← validJump pos;
  if negb ok then
    c ← this;
    mret ([], Some (Errorf "invalid jump destination (%v) %v" [GetOp c (bigUint64 pos); pos]))
  else _ ← i_modify (set_pc (bigUint64 pos)); nothing.

Definition opJump : instruction := pos ← pop; jumpTo pos.
Definition opJumpi : instruction :=
  pos ← pop; cond ← pop;
  if negb (bigSign cond =? 0) then jumpTo pos
  else _ ← i_modify (fun v => set_pc (u64 (vm_pc v + 1)) v); nothing.
Definition opJumpdest : instruction := nothing.
Definition opPc : instruction := pc ← i_gets vm_pc; _ ← push pc; nothing.
Definition opMsize : instruction := m ← i_gets vm_mem; _ ← push (mem_Len m); nothing.
Definition opGas : instruction := c ← this; _ ← push (ct_Gas c); nothing.

(** ** Calls *)

(** [contract.UseGas(gas)], its result dropped. *)
Definition use_gas (gas : Z) : I unit := _ ← contract_UseGas gas; mret ().

Definition opCreate : instruction :=
  value ← pop; offset ← pop; size ← pop;
  input ← memory_Get (bigInt64 offset) (bigInt64 size);
  c ← this;
  let gas := ct_Gas c in
  let gas := if IsEIP150 config number then u64 (gas - gas / 64) else gas in
  _ ← use_gas gas;
  c ← this;
  r ← i_evm (Create ctx interpreter_Run (ContractOf c) input gas value);
  let '(res, returnGas, suberr, addr) := r in
  _ ← push (if IsHomestead config number && is_err suberr ErrCodeStoreOutOfGas then 0
            else if negb (no_err suberr) && negb (is_err suberr ErrCodeStoreOutOfGas) then 0
            else addr);
  _ ← contract_AddGas returnGas;
  mret (if is_err suberr errExecutionReverted then res else [], None).

Definition opCreate2 : instruction :=
  endowment ← pop; offset ← pop; size ← pop; salt ← pop;
  input ← memory_Get (bigInt64 offset) (bigInt64 size);
  c ← this;
  let gas := u64 (ct_Gas c - ct_Gas c / 64) in
  _ ← use_gas gas;
  c ← this;
  r ← i_evm (Create2 ctx interpreter_Run (ContractOf c) input gas endowment salt);
  let '(res, returnGas, suberr, addr) := r in
  _ ← push (if no_err suberr then addr else 0);
  _ ← contract_AddGas returnGas;
  mret (if is_err suberr errExecutionReverted then res else [], None).

(** What the calls do with the result. *)
Definition callResult (retOffset retSize : Z) (r : called) : instruction :=
  let '(ret, returnGas, err) := r in
  _ ← push (if no_err err then 1 else 0);
  _ ← (if no_err err || is_err err errExecutionReverted
       then memory_Set (bigUint64 retOffset) (bigUint64 retSize) ret else mret ());
  _ ← contract_AddGas returnGas;
  mret (ret, None).

Definition callTemp : I Z := i_gets (fun v => callGasTemp (vm_evm v)).

Definition opCall : instruction :=
  _ ← pop; gas ← callTemp;
  addr ← pop; value ← pop; inOffset ← pop; inSize ← pop; retOffset ← pop; retSize ← pop;
  let value := U256 value in
  args ← memory_Get (bigInt64 inOffset) (bigInt64 inSize);
  let gas := if negb (bigSign value =? 0) then u64 (gas + CallStipend) else gas in
  c ← this;
  r ← i_evm (Call ctx interpreter_Run (ContractOf c) (BigToAddress addr) args gas value);
  callResult retOffset retSize r.

Definition opCallCode : instruction :=
  _ ← pop; gas ← callTemp;
  addr ← pop; value ← pop; inOffset ← pop; inSize ← pop; retOffset ← pop; retSize ← pop;
  let value := U256 value in
  args ← memory_Get (bigInt64 inOffset) (bigInt64 inSize);
  let gas := if negb (bigSign value =? 0) then u64 (gas + CallStipend) else gas in
  c ← this;
  r ← i_evm (CallCode ctx interpreter_Run (ContractOf c) (BigToAddress addr) args gas value);
  callResult retOffset retSize r.

Definition opDelegateCall : instruction :=
  _ ← pop; gas ← callTemp;
  addr ← pop; inOffset ← pop; inSize ← pop; retOffset ← pop; retSize ← pop;
  args ← memory_Get (bigInt64 inOffset) (bigInt64 inSize);
  c ← this;
  r ← i_evm (DelegateCall ctx interpreter_Run (ContractOf c) (BigToAddress addr) args gas);
  callResult retOffset retSize r.

Definition opStaticCall : instruction :=
  _ ← pop; gas ← callTemp;
  addr ← pop; inOffset ← pop; inSize ← pop; retOffset ← pop; retSize ← pop;
  args ← memory_Get (bigInt64 inOffset) (bigInt64 inSize);
  c ← this;
  r ← i_evm (StaticCall ctx interpreter_Run (ContractOf c) (BigToAddress addr) args gas);
  callResult retOffset retSize r.

(** ** Halting *)

Definition opReturn : instruction :=
  offset ← pop; size ← pop; ret ← memory_GetPtr (bigInt64 offset) (bigInt64 size); mret (ret, None).
Definition opRevert : instruction :=
  offset ← pop; size ← pop; ret ← memory_GetPtr (bigInt64 offset) (bigInt64 size); mret (ret, None).
Definition opStop : instruction := nothing.
Definition opSuicide : instruction :=
  c ← this;
  balance ← i_db (IGetBalance SystemAssetID (ct_self c));
  beneficiary ← pop;
  balance ← i_ptr balance;
  _ ← i_db (IAddBalance (BigToAddress beneficiary) SystemAssetID balance);
  _ ← i_evm (v_state (sdb_Suicide (ct_self c)));
  nothing.

(** ** Families *)

Fixpoint pop_topics (n : nat) : I (list Hash) :=
  match n with
  | O => mret []
  | S n => x ← pop; rest ← pop_topics n; mret (BigToHash x :: rest)
  end.
(** The fields of the log that AddLog sets are zero. *)
Definition makeLog (size : nat) : instruction :=
  mStart ← pop; mSize ← pop;
  topics ← pop_topics size;
  d ← memory_Get (bigInt64 mStart) (bigInt64 mSize);
  c ← this;
  _ ← i_db (IAddLog (mkLog (ct_self c) topics d (bigUint64 number) 0 0 0 0));
  nothing.

Definition makePush (size pushByteSize : Z) : instruction :=
  c ← this; pc ← i_gets vm_pc;
  let codeLen := Z.of_nat (length (ct_Code c)) in
  let next := i64 (u64 (pc + 1)) in
  let startMin := if next <? codeLen then next else codeLen in
  let endMin := if startMin + pushByteSize <? codeLen then startMin + pushByteSize else codeLen in
  d ← i_lift (slice (ct_Code c) startMin endMin);
  _ ← push (SetBytes (RightPadBytes d pushByteSize));
  _ ← i_modify (set_pc (u64 (pc + size)));
  nothing.

Definition makeDup (size : nat) : instruction := _ ← stack_dup size; nothing.
Definition makeSwap (size : nat) : instruction := _ ← stack_swap (size + 1); nothing.
End instructions.
