(* ===== verification/Evm.v ===== *)
(** * The interpreter (core/vm/jump_table.go, core/vm/interpreter.go)

    The tables of the instructions, the loop that runs them and the calls that
    they make. Calls nest at most 1025 deep, since [Call] refuses to go deeper, and
    every instruction but those that halt costs gas, so the fuel of the recursion
    is [maxNesting] and that of the loop the gas of the contract. *)

From stdpp Require Import base list gmap strings.
From Stdlib Require Import ZArith Lia.
From S2P Require Import Prelude Bytes Keccak KeccakFacts FsnTypes StateDB StateInterface.
From S2P Require Import EvmWord EvmAnalysis ChainConfig EvmMachine EvmGas EvmCall EvmOps.

(** ** opcodes.go *)

Module OpCode.
Definition STOP : Z := 0x00.
Definition ADD : Z := 0x01.
Definition MUL : Z := 0x02.
Definition SUB : Z := 0x03.
Definition DIV : Z := 0x04.
Definition SDIV : Z := 0x05.
Definition MOD : Z := 0x06.
Definition SMOD : Z := 0x07.
Definition ADDMOD : Z := 0x08.
Definition MULMOD : Z := 0x09.
Definition EXP : Z := 0x0a.
Definition SIGNEXTEND : Z := 0x0b.
Definition LT : Z := 0x10.
Definition GT : Z := 0x11.
Definition SLT : Z := 0x12.
Definition SGT : Z := 0x13.
Definition EQ : Z := 0x14.
Definition ISZERO : Z := 0x15.
Definition AND : Z := 0x16.
Definition OR : Z := 0x17.
Definition XOR : Z := 0x18.
Definition NOT : Z := 0x19.
Definition BYTE : Z := 0x1a.
Definition SHL : Z := 0x1b.
Definition SHR : Z := 0x1c.
Definition SAR : Z := 0x1d.
Definition SHA3 : Z := 0x20.
Definition ADDRESS : Z := 0x30.
Definition BALANCE : Z := 0x31.
Definition ORIGIN : Z := 0x32.
Definition CALLER : Z := 0x33.
Definition CALLVALUE : Z := 0x34.
Definition CALLDATALOAD : Z := 0x35.
Definition CALLDATASIZE : Z := 0x36.
Definition CALLDATACOPY : Z := 0x37.
Definition CODESIZE : Z := 0x38.
Definition CODECOPY : Z := 0x39.
Definition GASPRICE : Z := 0x3a.
Definition EXTCODESIZE : Z := 0x3b.
Definition EXTCODECOPY : Z := 0x3c.
Definition RETURNDATASIZE : Z := 0x3d.
Definition RETURNDATACOPY : Z := 0x3e.
Definition EXTCODEHASH : Z := 0x3f.
Definition BLOCKHASH : Z := 0x40.
Definition COINBASE : Z := 0x41.
Definition TIMESTAMP : Z := 0x42.
Definition NUMBER : Z := 0x43.
Definition DIFFICULTY : Z := 0x44.
Definition GASLIMIT : Z := 0x45.
Definition POP : Z := 0x50.
Definition MLOAD : Z := 0x51.
Definition MSTORE : Z := 0x52.
Definition MSTORE8 : Z := 0x53.
Definition SLOAD : Z := 0x54.
Definition SSTORE : Z := 0x55.
Definition JUMP : Z := 0x56.
Definition JUMPI : Z := 0x57.
Definition PC : Z := 0x58.
Definition MSIZE : Z := 0x59.
Definition GAS : Z := 0x5a.
Definition JUMPDEST : Z := 0x5b.
Definition PUSH1 : Z := 0x60.
Definition DUP1 : Z := 0x80.
Definition SWAP1 : Z := 0x90.
Definition LOG0 : Z := 0xa0.
Definition CREATE : Z := 0xf0.
Definition CALL : Z := 0xf1.
Definition CALLCODE : Z := 0xf2.
Definition RETURN : Z := 0xf3.
Definition DELEGATECALL : Z := 0xf4.
Definition CREATE2 : Z := 0xf5.
Definition STATICCALL : Z := 0xfa.
Definition REVERT : Z := 0xfd.
Definition SELFDESTRUCT : Z := 0xff.
End OpCode.

(** ** jump_table.go *)

Record operation `{StateOps} := mkOp {
  execute : instruction;
  gasCost : Z → G Z;
  validateStack : list Z → option error;
  memorySize : option (I Z);
  halts : bool;
  jumps : bool;
  writes : bool;
  reverts : bool;
  returns : bool;
}.
Arguments mkOp {_}.

Section interpreter.
Context `{SO : StateOps} `{PC : Precompiles} (ctx : Context).

Let gt : GasTable := config_GasTable (ctx_chainConfig ctx) (ctx_BlockNumber ctx).

(** A table: the entries that are not in it are not valid. *)
Definition JumpTable : Type := list (Z * operation).
Fixpoint table_get (t : JumpTable) (op : Z) : option operation :=
  match t with
  | [] => None
  | (k, o) :: t => if k =? op then Some o else table_get t op
  end.

(** An instruction that only computes; one that touches memory. *)
Definition plain (e : instruction) (gas : Z → G Z) (pop push : nat) : operation :=
  mkOp e gas (makeStackFunc pop push) None false false false false false.
Definition onMemory (e : instruction) (gas : Z → G Z) (pop push : nat) (mem : I Z) : operation :=
  mkOp e gas (makeStackFunc pop push) (Some mem) false false false false false.

Section table.
Context (interpreter_Run : Contract → bytes → bool → V ran).

Definition pushes : JumpTable :=
  (fun n => (OpCode.PUSH1 + Z.of_nat n - 1,
     plain (makePush (Z.of_nat n) (Z.of_nat n)) (gasPush gt) 0 1)) <$> seq 1 32.
Definition dups : JumpTable :=
  (fun n => (OpCode.DUP1 + Z.of_nat n - 1,
     mkOp (makeDup n) (gasDup gt) (makeDupStackFunc n) None false false false false false)) <$> seq 1 16.
Definition swaps : JumpTable :=
  (fun n => (OpCode.SWAP1 + Z.of_nat n - 1,
     mkOp (makeSwap n) (gasSwap gt) (makeSwapStackFunc (n + 1)) None false false false false false)) <$> seq 1 16.
Definition logs_ : JumpTable :=
  (fun n => (OpCode.LOG0 + Z.of_nat n,
     mkOp (makeLog ctx n) (makeGasLog (Z.of_nat n) gt) (makeStackFunc (n + 2) 0) (Some memoryLog)
       false false true false false)) <$> seq 0 5.

Definition newFrontierInstructionSet : JumpTable :=
  [(OpCode.STOP, mkOp opStop (constGasFunc 0) (makeStackFunc 0 0) None true false false false false);
   (OpCode.ADD, plain opAdd (constGasFunc GasFastestStep) 2 1);
   (OpCode.MUL, plain opMul (constGasFunc GasFastStep) 2 1);
   (OpCode.SUB, plain opSub (constGasFunc GasFastestStep) 2 1);
   (OpCode.DIV, plain opDiv (constGasFunc GasFastStep) 2 1);
   (OpCode.SDIV, plain opSdiv (constGasFunc GasFastStep) 2 1);
   (OpCode.MOD, plain opMod (constGasFunc GasFastStep) 2 1);
   (OpCode.SMOD, plain opSmod (constGasFunc GasFastStep) 2 1);
   (OpCode.ADDMOD, plain opAddmod (constGasFunc GasMidStep) 3 1);
   (OpCode.MULMOD, plain opMulmod (constGasFunc GasMidStep) 3 1);
   (OpCode.EXP, plain opExp (gasExp gt) 2 1);
   (OpCode.SIGNEXTEND, plain opSignExtend (constGasFunc GasFastStep) 2 1);
   (OpCode.LT, plain opLt (constGasFunc GasFastestStep) 2 1);
   (OpCode.GT, plain opGt (constGasFunc GasFastestStep) 2 1);
   (OpCode.SLT, plain opSlt (constGasFunc GasFastestStep) 2 1);
   (OpCode.SGT, plain opSgt (constGasFunc GasFastestStep) 2 1);
   (OpCode.EQ, plain opEq (constGasFunc GasFastestStep) 2 1);
   (OpCode.ISZERO, plain opIszero (constGasFunc GasFastestStep) 1 1);
   (OpCode.AND, plain opAnd (constGasFunc GasFastestStep) 2 1);
   (OpCode.XOR, plain opXor (constGasFunc GasFastestStep) 2 1);
   (OpCode.OR, plain opOr (constGasFunc GasFastestStep) 2 1);
   (OpCode.NOT, plain opNot (constGasFunc GasFastestStep) 1 1);
   (OpCode.BYTE, plain opByte (constGasFunc GasFastestStep) 2 1);
   (OpCode.SHA3, onMemory (opSha3 ctx) (gasSha3 gt) 2 1 memorySha3);
   (OpCode.ADDRESS, plain opAddress (constGasFunc GasQuickStep) 0 1);
   (OpCode.BALANCE, plain opBalance (gasBalance gt) 1 1);
   (OpCode.ORIGIN, plain (opOrigin ctx) (constGasFunc GasQuickStep) 0 1);
   (OpCode.CALLER, plain opCaller (constGasFunc GasQuickStep) 0 1);
   (OpCode.CALLVALUE, plain opCallValue (constGasFunc GasQuickStep) 0 1);
   (OpCode.CALLDATALOAD, plain opCallDataLoad (constGasFunc GasFastestStep) 1 1);
   (OpCode.CALLDATASIZE, plain opCallDataSize (constGasFunc GasQuickStep) 0 1);
   (OpCode.CALLDATACOPY, onMemory opCallDataCopy (gasCallDataCopy gt) 3 0 memoryCallDataCopy);
   (OpCode.CODESIZE, plain opCodeSize (constGasFunc GasQuickStep) 0 1);
   (OpCode.CODECOPY, onMemory opCodeCopy (gasCodeCopy gt) 3 0 memoryCodeCopy);
   (OpCode.GASPRICE, plain (opGasprice ctx) (constGasFunc GasQuickStep) 0 1);
   (OpCode.EXTCODESIZE, plain opExtCodeSize (gasExtCodeSize gt) 1 1);
   (OpCode.EXTCODECOPY, onMemory opExtCodeCopy (gasExtCodeCopy gt) 4 0 memoryExtCodeCopy);
   (OpCode.BLOCKHASH, plain (opBlockhash ctx) (constGasFunc GasExtStep) 1 1);
   (OpCode.COINBASE, plain (opCoinbase ctx) (constGasFunc GasQuickStep) 0 1);
   (OpCode.TIMESTAMP, plain (opTimestamp ctx) (constGasFunc GasQuickStep) 0 1);
   (OpCode.NUMBER, plain (opNumber ctx) (constGasFunc GasQuickStep) 0 1);
   (OpCode.DIFFICULTY, plain (opDifficulty ctx) (constGasFunc GasQuickStep) 0 1);
   (OpCode.GASLIMIT, plain (opGasLimit ctx) (constGasFunc GasQuickStep) 0 1);
   (OpCode.POP, plain opPop (constGasFunc GasQuickStep) 1 0);
   (OpCode.MLOAD, onMemory opMload (gasMLoad gt) 1 1 memoryMLoad);
   (OpCode.MSTORE, onMemory opMstore (gasMStore gt) 2 0 memoryMStore);
   (OpCode.MSTORE8, onMemory opMstore8 (gasMStore8 gt) 2 0 memoryMStore8);
   (OpCode.SLOAD, plain opSload (gasSLoad gt) 1 1);
   (OpCode.SSTORE, mkOp opSstore (gasSStore ctx gt) (makeStackFunc 2 0) None false false true false false);
   (OpCode.JUMP, mkOp opJump (constGasFunc GasMidStep) (makeStackFunc 1 0) None false true false false false);
   (OpCode.JUMPI, mkOp opJumpi (constGasFunc GasSlowStep) (makeStackFunc 2 0) None false true false false false);
   (OpCode.PC, plain opPc (constGasFunc GasQuickStep) 0 1);
   (OpCode.MSIZE, plain opMsize (constGasFunc GasQuickStep) 0 1);
   (OpCode.GAS, plain opGas (constGasFunc GasQuickStep) 0 1);
   (OpCode.JUMPDEST, plain opJumpdest (constGasFunc JumpdestGas) 0 0)]
  ++ pushes ++ dups ++ swaps ++ logs_ ++
  [(OpCode.CREATE, mkOp (opCreate ctx interpreter_Run) (gasCreate gt) (makeStackFunc 3 1) (Some memoryCreate)
            false false true false true);
   (OpCode.CALL, mkOp (opCall ctx interpreter_Run) (gasCall ctx gt) (makeStackFunc 7 1) (Some memoryCall)
            false false false false true);
   (OpCode.CALLCODE, mkOp (opCallCode ctx interpreter_Run) (gasCallCode gt) (makeStackFunc 7 1) (Some memoryCall)
            false false false false true);
   (OpCode.RETURN, mkOp opReturn (gasReturn gt) (makeStackFunc 2 0) (Some memoryReturn) true false false false false);
   (OpCode.SELFDESTRUCT, mkOp opSuicide (gasSuicide ctx gt) (makeStackFunc 1 0) None true false true false false)].

Definition newHomesteadInstructionSet : JumpTable :=
  (OpCode.DELEGATECALL, mkOp (opDelegateCall ctx interpreter_Run) (gasDelegateCall gt) (makeStackFunc 6 1)
           (Some memoryDelegateCall) false false false false true)
  :: newFrontierInstructionSet.

Definition newByzantiumInstructionSet : JumpTable :=
  [(OpCode.STATICCALL, mkOp (opStaticCall ctx interpreter_Run) (gasStaticCall gt) (makeStackFunc 6 1)
            (Some memoryStaticCall) false false false false true);
   (OpCode.RETURNDATASIZE, plain opReturnDataSize (constGasFunc GasQuickStep) 0 1);
   (OpCode.RETURNDATACOPY, onMemory opReturnDataCopy (gasReturnDataCopy gt) 3 0 memoryReturnDataCopy);
   (OpCode.REVERT, mkOp opRevert (gasRevert gt) (makeStackFunc 2 0) (Some memoryRevert) false false false true true)]
  ++ newHomesteadInstructionSet.

Definition newConstantinopleInstructionSet : JumpTable :=
  [(OpCode.SHL, plain opSHL (constGasFunc GasFastestStep) 2 1);
   (OpCode.SHR, plain opSHR (constGasFunc GasFastestStep) 2 1);
   (OpCode.SAR, plain opSAR (constGasFunc GasFastestStep) 2 1);
   (OpCode.EXTCODEHASH, plain opExtCodeHash (gasExtCodeHash gt) 1 1);
   (OpCode.CREATE2, mkOp (opCreate2 ctx interpreter_Run) (gasCreate2 gt) (makeStackFunc 4 1) (Some memoryCreate2)
            false false true false true)]
  ++ newByzantiumInstructionSet.

(** The table that [NewEVMInterpreter] chooses. *)
Definition instructionSet : JumpTable :=
  if IsConstantinople (ctx_chainConfig ctx) (ctx_BlockNumber ctx) then newConstantinopleInstructionSet
  else if IsByzantium (ctx_chainConfig ctx) (ctx_BlockNumber ctx) then newByzantiumInstructionSet
  else if IsHomestead (ctx_chainConfig ctx) (ctx_BlockNumber ctx) then newHomesteadInstructionSet
  else newFrontierInstructionSet.
End table.

(** ** interpreter.go *)

(** [cfg.JumpTable]: all of the set, unless the configuration leaves some out. *)
Context (allowed : Z → bool).

Section run.
Context (interpreter_Run : Contract → bytes → bool → V ran).

Definition operation_at (op : Z) : option operation :=
  if allowed op then table_get (instructionSet interpreter_Run) op else None.

Definition enforceRestrictions (op : Z) (o : operation) : I (option error) :=
  readOnly ← i_gets (fun v => in_readOnly (vm_evm v));
  if IsByzantium (ctx_chainConfig ctx) (ctx_BlockNumber ctx) && readOnly then
    if writes o then mret (Some errWriteProtection)
    else if op =? OpCode.CALL then
      value ← Back 2;
      mret (if 0 <? BitLen value then Some errWriteProtection else None)
    else mret None
  else mret None.

(** The memory that the instruction needs, in bytes of whole words. *)
Definition newMemorySize (o : operation) : I (Z + error) :=
  match memorySize o with
  | None => mret (inl 0)
  | Some f =>
      size ← f;
      let '(memSize, overflow) := vm_bigUint64 size in
      if overflow : bool then mret (inr errGasUintOverflow)
      else
        let '(size, overflow) := SafeMul (toWordSize memSize) 32 in
        mret (if overflow : bool then inr errGasUintOverflow else inl size)
  end.

(** The price is paid: [false] if it cannot be. *)
Definition pay (o : operation) (size : Z) : I bool :=
  cost ← gasCost o size;
  match cost with
  | inr _ => mret false
  | inl cost => contract_UseGas cost
  end.

(** Running the instruction and what follows: the result of the loop, or [None]
    if it goes on. *)
Definition perform_op (o : operation) : I (option (bytes * option error)) :=
  r ← execute o;
  let '(res, err) := r in
  _ ← (if returns o then i_evm (v_modify (set_returnData res)) else mret ());
  match err with
  | Some e => mret (Some ([], Some e))
  | None =>
      if reverts o then mret (Some (res, Some errExecutionReverted))
      else if halts o then mret (Some (res, None))
      else
        _ ← (if jumps o then mret () else i_modify (fun v => set_pc (u64 (vm_pc v + 1)) v));
        mret None
  end.

(** One round of the loop of [Run]. *)
Definition step : I (option (bytes * option error)) :=
  c ← i_gets vm_contract; pc ← i_gets vm_pc;
  let op := GetOp c pc in
  match operation_at op with
  | None => mret (Some ([], Some (Errorf "invalid opcode 0x%x" [op])))
  | Some o =>
      s ← i_gets vm_stack;
      match validateStack o s with
      | Some err => mret (Some ([], Some err))
      | None =>
          restricted ← enforceRestrictions op o;
          match restricted with
          | Some err => mret (Some ([], Some err))
          | None =>
              size ← newMemorySize o;
              match size with
              | inr err => mret (Some ([], Some err))
              | inl size =>
                  paid ← pay o size;
                  if negb paid then mret (Some ([], Some ErrOutOfGas))
                  else
                    _ ← (if 0 <? size then i_modify (fun v => set_mem (mem_Resize size (vm_mem v)) v) else mret ());
                    perform_op o
              end
          end
      end
  end.

Fixpoint loop (fuel : nat) : I (bytes * option error) :=
  match fuel with
  | O => fun _ => OutOfFuel
  | S fuel => r ← step; match r with Some res => mret res | None => loop fuel end
  end.

(** [abort] is never set: [Cancel] is for calls that do not make blocks. *)
Definition run_frame (c : Contract) (input : bytes) : V ran := fun e =>
  let? r := loop (S (Z.to_nat (ct_Gas c))) (mkVM e 0 (set_Input input c) NewMemory []) in
  let '(res, v) := r in
  Done (res, ct_Gas (vm_contract v), vm_evm v).

Definition Run_body (c : Contract) (input : bytes) (readOnly : bool) : V ran :=
  depth ← v_gets evm_depth;
  was ← v_gets in_readOnly;
  _ ← v_modify (set_depth (depth + 1));
  _ ← (if readOnly && negb was then v_modify (set_readOnly true) else mret ());
  _ ← v_modify (set_returnData []);
  r ← (if (length (ct_Code c) =? 0)%nat then mret ([], None, ct_Gas c) else run_frame c input);
  _ ← v_modify (fun e => set_depth (evm_depth e - 1) e);
  _ ← (if readOnly && negb was then v_modify (set_readOnly false) else mret ());
  mret r.
End run.

(** How deep interpreters can nest. *)
Definition maxNesting : nat := Z.to_nat (CallCreateDepth + 2).

Fixpoint Run_nested (fuel : nat) (c : Contract) (input : bytes) (readOnly : bool) : V ran :=
  match fuel with
  | O => fun _ => OutOfFuel
  | S fuel => Run_body (Run_nested fuel) c input readOnly
  end.
Definition Run : Contract → bytes → bool → V ran := Run_nested maxNesting.

(** The entry points of the EVM, on the state. *)
Definition newEVM (d : sdb) : EVM := mkEVM d 0 0 false [] ∅.
Definition evmCall (caller addr : Address) (input : bytes) (gas value : Z) (d : sdb) : outcome (called * sdb) :=
  let? r := Call ctx Run (AccountRef caller) addr input gas value (newEVM d) in Done (r.1, evm_db r.2).
Definition evmCreate (caller : Address) (code : bytes) (gas value : Z) (d : sdb) : outcome (called * Address * sdb) :=
  let? r := Create ctx Run (AccountRef caller) code gas value (newEVM d) in Done (r.1, evm_db r.2).
End interpreter.
