(* ===== verification/EvmArith.v ===== *)
(** * The arithmetic of the instructions

    The instructions that take two or three numbers from the stack and leave one:
    what each computes, as a function of the words, or of the signed numbers that
    the words stand for in two's complement. *)

From stdpp Require Import base list gmap strings.
From Stdlib Require Import ZArith Lia.
From S2P Require Import Prelude Bytes Keccak KeccakFacts FsnTypes StateDB StateInterface.
From S2P Require Import EvmWord EvmAnalysis ChainConfig EvmMachine EvmGas EvmCall EvmOps.

(** ** Instructions on the stack alone *)

Section shape.
Context `{SO : StateOps}.

(** The instruction replaces the topmost items by a function of them. *)
Definition unop (e : instruction) (f : Z → Z) : Prop :=
  ∀ v x s, vm_stack v = x :: s → e v = Done ([], None, set_stack (f x :: s) v).
Definition binop (e : instruction) (f : Z → Z → Z) : Prop :=
  ∀ v x y s, vm_stack v = x :: y :: s → e v = Done ([], None, set_stack (f x y :: s) v).
Definition triop (e : instruction) (f : Z → Z → Z → Z) : Prop :=
  ∀ v x y z s, vm_stack v = x :: y :: z :: s → e v = Done ([], None, set_stack (f x y z :: s) v).
Definition nullop (e : instruction) (f : VM → Z) : Prop :=
  ∀ v, e v = Done ([], None, set_stack (f v :: vm_stack v) v).
End shape.

(** Runs an instruction whose items are known. *)
Ltac run_op :=
  intros [? ? ? ? ?]; intros; cbn [vm_stack] in *; subst; reflexivity.

Section ops.
Context `{SO : StateOps} `{PC : Precompiles} (ctx : Context).

Lemma opAdd_fun : binop opAdd (fun x y => U256 (x + y)).
Proof. run_op. Qed.
Lemma opSub_fun : binop opSub (fun x y => U256 (x - y)).
Proof. run_op. Qed.
Lemma opMul_fun : binop opMul (fun x y => U256 (x * y)).
Proof. run_op. Qed.
Lemma opDiv_fun : binop opDiv (fun x y => if negb (bigSign y =? 0) then U256 (x / y) else 0).
Proof. run_op. Qed.
Lemma opSdiv_fun : binop opSdiv (fun x y =>
  if (bigSign (S256 y) =? 0) || (bigSign (S256 x) =? 0) then 0
  else if negb (bigSign (S256 x) =? bigSign (S256 y)) then U256 (- (Z.abs (S256 x) / Z.abs (S256 y)))
  else U256 (Z.abs (S256 x) / Z.abs (S256 y))).
Proof. run_op. Qed.
Lemma opMod_fun : binop opMod (fun x y => if bigSign y =? 0 then 0 else U256 (x mod y)).
Proof. run_op. Qed.
Lemma opSmod_fun : binop opSmod (fun x y =>
  if bigSign (S256 y) =? 0 then 0
  else if bigSign (S256 x) <? 0 then U256 (- (Z.abs (S256 x) mod Z.abs (S256 y)))
  else U256 (Z.abs (S256 x) mod Z.abs (S256 y))).
Proof. run_op. Qed.
Lemma opExp_fun : binop opExp Exp.
Proof. run_op. Qed.
Lemma opSignExtend_fun : binop opSignExtend (fun x y =>
  if bigCmp x 31 <? 0 then
    let bit := u64 (bigUint64 x * 8 + 7) in
    let mask := Z.shiftl 1 bit - 1 in
    U256 (if Z.testbit y bit then Z.lor y (Z.lnot mask) else Z.land y mask)
  else y).
Proof.
  intros v x y s E. unfold opSignExtend, pop, mbind, I_bind. rewrite E. cbn [obind fst snd].
  destruct (bigCmp x 31 <? 0); [done|]. by destruct v.
Qed.
Lemma opLt_fun : binop opLt (fun x y => flag (bigCmp x y <? 0)).
Proof. run_op. Qed.
Lemma opGt_fun : binop opGt (fun x y => flag (0 <? bigCmp x y)).
Proof. run_op. Qed.
Lemma opSlt_fun : binop opSlt (fun x y =>
  if (0 <=? bigCmp x tt255) && (bigCmp y tt255 <? 0) then 1
  else if (bigCmp x tt255 <? 0) && (0 <=? bigCmp y tt255) then 0 else flag (bigCmp x y <? 0)).
Proof. run_op. Qed.
Lemma opSgt_fun : binop opSgt (fun x y =>
  if (0 <=? bigCmp x tt255) && (bigCmp y tt255 <? 0) then 0
  else if (bigCmp x tt255 <? 0) && (0 <=? bigCmp y tt255) then 1 else flag (0 <? bigCmp x y)).
Proof. run_op. Qed.
Lemma opEq_fun : binop opEq (fun x y => flag (bigCmp x y =? 0)).
Proof. run_op. Qed.
Lemma opAnd_fun : binop opAnd Z.land.
Proof. run_op. Qed.
Lemma opOr_fun : binop opOr Z.lor.
Proof. run_op. Qed.
Lemma opXor_fun : binop opXor Z.lxor.
Proof. run_op. Qed.
Lemma opByte_fun : binop opByte (fun x y => if bigCmp x 32 <? 0 then Byte y 32 (bigInt64 x) else 0).
Proof. run_op. Qed.
Lemma opSHL_fun : binop opSHL (fun x y =>
  if 0 <=? bigCmp (U256 x) 256 then 0 else U256 (Z.shiftl (U256 y) (bigUint64 (U256 x)))).
Proof. run_op. Qed.
Lemma opSHR_fun : binop opSHR (fun x y =>
  if 0 <=? bigCmp (U256 x) 256 then 0 else U256 (Z.shiftr (U256 y) (bigUint64 (U256 x)))).
Proof. run_op. Qed.
Lemma opSAR_fun : binop opSAR (fun x y =>
  if 0 <=? bigCmp (U256 x) 256 then U256 (if 0 <=? bigSign (S256 y) then 0 else -1)
  else U256 (Z.shiftr (S256 y) (bigUint64 (U256 x)))).
Proof. run_op. Qed.
Lemma opNot_fun : unop opNot (fun x => U256 (Z.lnot x)).
Proof. run_op. Qed.
Lemma opIszero_fun : unop opIszero (fun x => if 0 <? bigSign x then 0 else 1).
Proof. run_op. Qed.
Lemma opAddmod_fun : triop opAddmod (fun x y z => if 0 <? bigCmp z 0 then U256 ((x + y) mod z) else 0).
Proof. run_op. Qed.
Lemma opMulmod_fun : triop opMulmod (fun x y z => if 0 <? bigCmp z 0 then U256 ((x * y) mod z) else 0).
Proof. run_op. Qed.

(** ** Instructions that push *)

Lemma opAddress_fun : nullop opAddress (fun v => ct_self (vm_contract v)).
Proof. run_op. Qed.
Lemma opOrigin_fun : nullop (opOrigin ctx) (fun _ => ctx_Origin ctx).
Proof. run_op. Qed.
Lemma opCaller_fun : nullop opCaller (fun v => CallerAddress (vm_contract v)).
Proof. run_op. Qed.
Lemma opCallDataSize_fun : nullop opCallDataSize (fun v => Z.of_nat (length (ct_Input (vm_contract v)))).
Proof. run_op. Qed.
Lemma opCodeSize_fun : nullop opCodeSize (fun v => Z.of_nat (length (ct_Code (vm_contract v)))).
Proof. run_op. Qed.
Lemma opReturnDataSize_fun : nullop opReturnDataSize (fun v => Z.of_nat (length (in_returnData (vm_evm v)))).
Proof. run_op. Qed.
Lemma opGasprice_fun : nullop (opGasprice ctx) (fun _ => ctx_GasPrice ctx).
Proof. run_op. Qed.
Lemma opCoinbase_fun : nullop (opCoinbase ctx) (fun _ => ctx_Coinbase ctx).
Proof. run_op. Qed.
Lemma opTimestamp_fun : nullop (opTimestamp ctx) (fun _ => U256 (ctx_Time ctx)).
Proof. run_op. Qed.
Lemma opNumber_fun : nullop (opNumber ctx) (fun _ => U256 (ctx_BlockNumber ctx)).
Proof. run_op. Qed.
Lemma opDifficulty_fun : nullop (opDifficulty ctx) (fun _ => U256 (ctx_Difficulty ctx)).
Proof. run_op. Qed.
Lemma opGasLimit_fun : nullop (opGasLimit ctx) (fun _ => U256 (ctx_GasLimit ctx)).
Proof. run_op. Qed.
Lemma opPc_fun : nullop opPc vm_pc.
Proof. run_op. Qed.
Lemma opMsize_fun : nullop opMsize (fun v => mem_Len (vm_mem v)).
Proof. run_op. Qed.
Lemma opGas_fun : nullop opGas (fun v => ct_Gas (vm_contract v)).
Proof. run_op. Qed.
Lemma opBlockhash_fun : unop (opBlockhash ctx) (fun x =>
  if (0 <? bigCmp x (ctx_BlockNumber ctx - 257)) && (bigCmp x (ctx_BlockNumber ctx) <? 0)
  then ctx_GetHash ctx (bigUint64 x) else 0).
Proof. run_op. Qed.
End ops.

(** ** What they compute *)

(** The word of a number, in two's complement. *)
Definition encode (v : Z) : Z := v mod tt256.

Definition sdiv (x y : Z) : Z := encode (Z.quot (S256 x) (S256 y)).
Definition smod (x y : Z) : Z := if S256 y =? 0 then 0 else encode (Z.rem (S256 x) (S256 y)).
(** The number of which [m] is the two's complement of [n] bits. *)
Definition signed (n m : Z) : Z := if m <? 2 ^ (n - 1) then m else m - 2 ^ n.
Definition signextend (x y : Z) : Z :=
  if x <? 31 then encode (signed (8 * (x + 1)) (y mod 2 ^ (8 * (x + 1)))) else y.
Definition byte_at (x y : Z) : Z := if x <? 32 then y / 256 ^ (31 - x) mod 256 else 0.

Lemma bigSign_eqb y : (bigSign y =? 0) = (y =? 0).
Proof. unfold bigSign. destruct y; done. Qed.
Lemma cmp_ltb x y : (bigCmp x y <? 0) = (x <? y).
Proof. pose proof (bigCmp_lt x y). destruct (Z.ltb_spec (bigCmp x y) 0), (Z.ltb_spec x y); lia. Qed.
Lemma cmp_gtb x y : (0 <? bigCmp x y) = (y <? x).
Proof. pose proof (bigCmp_gt x y). destruct (Z.ltb_spec 0 (bigCmp x y)), (Z.ltb_spec y x); lia. Qed.
Lemma cmp_geb x y : (0 <=? bigCmp x y) = (y <=? x).
Proof. pose proof (bigCmp_lt x y). destruct (Z.leb_spec 0 (bigCmp x y)), (Z.leb_spec y x); lia. Qed.
Lemma cmp_eqb x y : (bigCmp x y =? 0) = (x =? y).
Proof. pose proof (bigCmp_eq x y). destruct (Z.eqb_spec (bigCmp x y) 0), (Z.eqb_spec x y); lia. Qed.

Lemma div_word x y : word x → word y → (if negb (bigSign y =? 0) then U256 (x / y) else 0) = x / y.
Proof.
  intros [Hx0 Hx] [Hy0 Hy]. rewrite bigSign_eqb. destruct (Z.eqb_spec y 0) as [->|Hne]; simpl; [by rewrite Zdiv_0_r|].
  apply U256_id. split; [apply Z.div_pos; lia|]. apply Z.le_lt_trans with x; [apply Z.div_le_upper_bound; nia|done].
Qed.
Lemma mod_word x y : word x → word y → (if bigSign y =? 0 then 0 else U256 (x mod y)) = if y =? 0 then 0 else x mod y.
Proof.
  intros [Hx0 Hx] [Hy0 Hy]. rewrite bigSign_eqb. destruct (Z.eqb_spec y 0) as [->|Hne]; [done|].
  apply U256_id. pose proof (Z.mod_pos_bound x y ltac:(lia)). split; lia.
Qed.

Lemma quot_abs x y : x ≠ 0 → y ≠ 0 →
  Z.quot x y = if Z.sgn x =? Z.sgn y then Z.abs x / Z.abs y else - (Z.abs x / Z.abs y).
Proof. intros Hx Hy. rewrite Z.quot_div by done. destruct x, y; simpl; lia || done. Qed.
Lemma rem_abs x y : y ≠ 0 → Z.rem x y = if Z.sgn x <? 0 then - (Z.abs x mod Z.abs y) else Z.abs x mod Z.abs y.
Proof.
  intros Hy. rewrite Z.rem_mod by done. destruct (Z.ltb_spec (Z.sgn x) 0).
  - replace (Z.sgn x) with (-1) by lia. lia.
  - destruct (Z.eq_dec x 0) as [->|]; [by rewrite Zmod_0_l|]. replace (Z.sgn x) with 1 by lia. lia.
Qed.

Lemma sdiv_word x y : 
  (if (bigSign (S256 y) =? 0) || (bigSign (S256 x) =? 0) then 0
   else if negb (bigSign (S256 x) =? bigSign (S256 y)) then U256 (- (Z.abs (S256 x) / Z.abs (S256 y)))
   else U256 (Z.abs (S256 x) / Z.abs (S256 y))) = sdiv x y.
Proof.
  rewrite !bigSign_eqb. unfold sdiv, encode, bigSign. generalize (S256 x) (S256 y). intros a b.
  destruct (Z.eqb_spec b 0) as [->|Hb]; [by destruct a|].
  destruct (Z.eqb_spec a 0) as [->|Ha]; [simpl; by rewrite Z.quot_0_l|]. simpl.
  rewrite quot_abs by done. destruct (Z.sgn a =? Z.sgn b); simpl; by rewrite U256_mod.
Qed.
Lemma smod_word x y :
  (if bigSign (S256 y) =? 0 then 0
   else if bigSign (S256 x) <? 0 then U256 (- (Z.abs (S256 x) mod Z.abs (S256 y)))
   else U256 (Z.abs (S256 x) mod Z.abs (S256 y))) = smod x y.
Proof.
  rewrite bigSign_eqb. unfold smod, encode, bigSign. generalize (S256 x) (S256 y). intros a b.
  destruct (Z.eqb_spec b 0); [done|]. rewrite rem_abs by done. destruct (Z.sgn a <? 0); by rewrite U256_mod.
Qed.

(** Setting or clearing the bits above the sign. *)
Lemma signextend_word x y : word x → word y →
  (if bigCmp x 31 <? 0 then
     let bit := u64 (bigUint64 x * 8 + 7) in
     let mask := Z.shiftl 1 bit - 1 in
     U256 (if Z.testbit y bit then Z.lor y (Z.lnot mask) else Z.land y mask)
   else y) = signextend x y.
Proof.
  intros [Hx0 Hx] [Hy0 Hy]. rewrite cmp_ltb. unfold signextend. destruct (Z.ltb_spec x 31) as [Hlt|]; [|done].
  rewrite bigUint64_id, u64_id by (unfold is_u64, two64; lia). cbv zeta.
  replace (Z.shiftl 1 (x * 8 + 7) - 1) with (Z.ones (x * 8 + 7)) by (rewrite Z.ones_equiv, Z.shiftl_1_l; lia).
  set (k := x * 8 + 7). replace (8 * (x + 1)) with (k + 1) by (unfold k; lia). assert (0 <= k) by (unfold k; lia).
  rewrite U256_mod. unfold encode, signed. replace (k + 1 - 1) with k by lia.
  assert (Hm : y mod 2 ^ (k + 1) = y mod 2 ^ k + 2 ^ k * (if Z.testbit y k then 1 else 0)).
  { rewrite Z.pow_add_r, Z.pow_1_r, Z.rem_mul_r by (try apply Z.pow_nonzero; lia). f_equal. f_equal.
    rewrite <- Z.shiftr_div_pow2, <- (Z.land_ones _ 1) by lia. change (Z.ones 1) with 1.
    rewrite <- (Z.add_0_r k) at 2. rewrite Z.add_comm, <- Z.shiftr_spec by lia.
    change 1 with (Z.ones 1) at 1. rewrite Z.land_ones, Z.pow_1_r, Zmod_odd, Z.bit0_odd by lia. done. }
  pose proof (Z.mod_pos_bound y (2 ^ k) ltac:(apply Z.pow_pos_nonneg; lia)) as Hb. rewrite Hm.
  destruct (Z.testbit y k) eqn:Et.
  - destruct (Z.ltb_spec (y mod 2 ^ k + 2 ^ k * 1) (2 ^ k)); [lia|]. f_equal. rewrite Z.mul_1_r.
    rewrite Z.pow_add_r by lia. replace (y mod 2 ^ k + 2 ^ k - 2 ^ k * 2 ^ 1) with (y mod 2 ^ k - 2 ^ k) by lia.
    rewrite <- Z.land_ones by lia.
    assert (Hl : Z.lor y (Z.lnot (Z.ones k)) = Z.lor (Z.land y (Z.ones k)) (Z.lnot (Z.ones k))).
    { apply Z.bits_inj'. intros n Hn. rewrite !Z.lor_spec, Z.land_spec, Z.lnot_spec by done.
      destruct (Z.testbit y n), (Z.testbit (Z.ones k) n); done. }
    rewrite Hl, <- Z.add_nocarry_lor.
    + unfold Z.lnot. rewrite Z.ones_equiv. lia.
    + apply Z.bits_inj'. intros n Hn. rewrite !Z.land_spec, Z.lnot_spec, Z.bits_0 by done.
      destruct (Z.testbit y n), (Z.testbit (Z.ones k) n); done.
  - destruct (Z.ltb_spec (y mod 2 ^ k + 2 ^ k * 0) (2 ^ k)); [|lia]. f_equal. rewrite Z.land_ones by lia. lia.
Qed.

Lemma slt_word x y : word x → word y →
  (if (0 <=? bigCmp x tt255) && (bigCmp y tt255 <? 0) then 1
   else if (bigCmp x tt255 <? 0) && (0 <=? bigCmp y tt255) then 0 else flag (bigCmp x y <? 0)) = flag (S256 x <? S256 y).
Proof.
  intros [Hx0 Hx] [Hy0 Hy]. rewrite !cmp_geb, !cmp_ltb. unfold S256, flag. rewrite !cmp_ltb.
  assert (tt256 = 2 * tt255) by reflexivity.
  destruct (Z.leb_spec tt255 x), (Z.ltb_spec x tt255), (Z.leb_spec tt255 y), (Z.ltb_spec y tt255); try lia; simpl;
    repeat match goal with |- context [?a <? ?b] => destruct (Z.ltb_spec a b) end; lia.
Qed.
Lemma sgt_word x y : word x → word y →
  (if (0 <=? bigCmp x tt255) && (bigCmp y tt255 <? 0) then 0
   else if (bigCmp x tt255 <? 0) && (0 <=? bigCmp y tt255) then 1 else flag (0 <? bigCmp x y)) = flag (S256 y <? S256 x).
Proof.
  intros [Hx0 Hx] [Hy0 Hy]. rewrite !cmp_geb, !cmp_ltb, cmp_gtb. unfold S256, flag. rewrite !cmp_ltb.
  assert (tt256 = 2 * tt255) by reflexivity.
  destruct (Z.leb_spec tt255 x), (Z.ltb_spec x tt255), (Z.leb_spec tt255 y), (Z.ltb_spec y tt255); try lia; simpl;
    repeat match goal with |- context [?a <? ?b] => destruct (Z.ltb_spec a b) end; lia.
Qed.

Lemma byte_word x y : word x → word y → (if bigCmp x 32 <? 0 then Byte y 32 (bigInt64 x) else 0) = byte_at x y.
Proof.
  intros [Hx0 Hx] Hy. rewrite cmp_ltb. unfold byte_at. destruct (Z.ltb_spec x 32); [|done].
  rewrite bigInt64_id, Byte_spec by (done || lia). by destruct (Z.ltb_spec x 32); [|lia].
Qed.

Lemma pow_256 x : 256 <= x → ∃ k, 2 ^ x = tt256 * k ∧ 0 < k.
Proof.
  intros H. exists (2 ^ (x - 256)). split; [|apply Z.pow_pos_nonneg; lia].
  unfold tt256. rewrite <- Z.pow_add_r by lia. f_equal. lia.
Qed.
Lemma shl_word x y : word x → word y →
  (if 0 <=? bigCmp (U256 x) 256 then 0 else U256 (Z.shiftl (U256 y) (bigUint64 (U256 x)))) = encode (y * 2 ^ x).
Proof.
  intros Hx Hy. rewrite !(U256_id x), (U256_id y), cmp_geb by done. destruct Hx as [Hx0 Hx], Hy as [Hy0 Hy]. unfold encode.
  destruct (Z.leb_spec 256 x) as [Hle|Hlt].
  - destruct (pow_256 x Hle) as (k & -> & _). rewrite Z.mul_assoc, (Z.mul_comm y), <- Z.mul_assoc, Z.mul_comm.
    symmetry. apply Z_mod_mult.
  - by rewrite bigUint64_id, Z.shiftl_mul_pow2, U256_mod by (unfold is_u64, two64; lia).
Qed.
Lemma shr_word x y : word x → word y →
  (if 0 <=? bigCmp (U256 x) 256 then 0 else U256 (Z.shiftr (U256 y) (bigUint64 (U256 x)))) = y / 2 ^ x.
Proof.
  intros Hx Hy. rewrite !(U256_id x), (U256_id y), cmp_geb by done. destruct Hx as [Hx0 Hx], Hy as [Hy0 Hy].
  destruct (Z.leb_spec 256 x) as [Hle|Hlt].
  - destruct (pow_256 x Hle) as (k & -> & ?). symmetry. apply Z.div_small. nia.
  - rewrite bigUint64_id, Z.shiftr_div_pow2 by (unfold is_u64, two64; lia). apply U256_id.
    assert (0 < 2 ^ x) by (apply Z.pow_pos_nonneg; lia).
    split; [by apply Z.div_pos|]. apply Z.le_lt_trans with y; [apply Z.div_le_upper_bound; nia|done].
Qed.
Lemma sar_word x y : word x → word y →
  (if 0 <=? bigCmp (U256 x) 256 then U256 (if 0 <=? bigSign (S256 y) then 0 else -1)
   else U256 (Z.shiftr (S256 y) (bigUint64 (U256 x)))) = encode (S256 y / 2 ^ x).
Proof.
  intros Hx Hy. rewrite !(U256_id x), cmp_geb by done. destruct (S256_spec y Hy) as [Hs _]. destruct Hx as [Hx0 Hx].
  rewrite !U256_mod. unfold encode. assert (tt256 = 2 * tt255) by reflexivity.
  destruct (Z.leb_spec 256 x) as [Hle|Hlt].
  - f_equal. destruct (pow_256 x Hle) as (k & -> & ?). unfold bigSign.
    destruct (Z.leb_spec 0 (Z.sgn (S256 y))).
    + symmetry. apply Z.div_small. nia.
    + apply Z.div_unique with (S256 y + tt256 * k); [left; nia|lia].
  - by rewrite bigUint64_id, Z.shiftr_div_pow2 by (unfold is_u64, two64; lia).
Qed.

(** ** The instructions and their functions *)

Lemma encode_word v : word (encode v).
Proof. apply Z.mod_pos_bound. reflexivity. Qed.
Lemma flag_word b : word (flag b).
Proof. destruct b; split; done || lia. Qed.

Definition bitwise_word (f : Z → Z → Z) : Prop := ∀ x y, word x → word y → word (f x y).

Lemma word_bits x : 0 <= x → (∀ n, 256 <= n → Z.testbit x n = false) → word x.
Proof.
  intros Hx Hb. split; [done|]. destruct (Z.lt_ge_cases x tt256) as [|Hge]; [done|].
  exfalso. assert (0 < x) by (unfold tt256 in Hge; lia).
  pose proof (Z.bit_log2 x ltac:(done)) as Ht. rewrite Hb in Ht; [done|].
  apply Z.log2_le_pow2; [done|exact Hge].
Qed.
Lemma word_high x n : word x → 256 <= n → Z.testbit x n = false.
Proof.
  intros [Hx0 Hx] Hn. destruct (Z.eq_dec x 0) as [->|]; [apply Z.bits_0|].
  apply Z.bits_above_log2; [done|]. apply Z.log2_lt_pow2; [lia|].
  apply Z.lt_le_trans with tt256; [done|]. apply Z.pow_le_mono_r; lia.
Qed.
Lemma land_word : bitwise_word Z.land.
Proof.
  intros x y Hx Hy. apply word_bits; [apply Z.land_nonneg; left; apply Hx|].
  intros n Hn. by rewrite Z.land_spec, (word_high x).
Qed.
Lemma lor_word : bitwise_word Z.lor.
Proof.
  intros x y Hx Hy. apply word_bits; [apply Z.lor_nonneg; split; [apply Hx|apply Hy]|].
  intros n Hn. by rewrite Z.lor_spec, (word_high x), (word_high y).
Qed.
Lemma lxor_word : bitwise_word Z.lxor.
Proof.
  intros x y Hx Hy. apply word_bits; [apply Z.lxor_nonneg; split; intros; [apply Hy|apply Hx]|].
  intros n Hn. by rewrite Z.lxor_spec, (word_high x), (word_high y).
Qed.

(** The instructions of one argument. *)
Definition unary_instructions `{SO : StateOps} : list (instruction * (Z → Z)) :=
  [(opNot, fun x => tt256 - 1 - x);
   (opIszero, fun x => flag (x =? 0))].

(** Those of two, the topmost first. *)
Definition binary_instructions `{SO : StateOps} : list (instruction * (Z → Z → Z)) :=
  [(opAdd, fun x y => encode (x + y));
   (opSub, fun x y => encode (x - y));
   (opMul, fun x y => encode (x * y));
   (opDiv, fun x y => x / y);
   (opSdiv, sdiv);
   (opMod, fun x y => if y =? 0 then 0 else x mod y);
   (opSmod, smod);
   (opExp, fun x y => encode (x ^ y));
   (opSignExtend, signextend);
   (opLt, fun x y => flag (x <? y));
   (opGt, fun x y => flag (y <? x));
   (opSlt, fun x y => flag (S256 x <? S256 y));
   (opSgt, fun x y => flag (S256 y <? S256 x));
   (opEq, fun x y => flag (x =? y));
   (opAnd, Z.land);
   (opOr, Z.lor);
   (opXor, Z.lxor);
   (opByte, byte_at);
   (opSHL, fun x y => encode (y * 2 ^ x));
   (opSHR, fun x y => y / 2 ^ x);
   (opSAR, fun x y => encode (S256 y / 2 ^ x))].

(** And those of three. *)
Definition ternary_instructions `{SO : StateOps} : list (instruction * (Z → Z → Z → Z)) :=
  [(opAddmod, fun x y z => if z =? 0 then 0 else (x + y) mod z);
   (opMulmod, fun x y z => if z =? 0 then 0 else (x * y) mod z)].

Definition computes1 `{SO : StateOps} (p : instruction * (Z → Z)) : Prop :=
  ∀ v x s, vm_stack v = x :: s → word x →
    p.1 v = Done ([], None, set_stack (p.2 x :: s) v) ∧ word (p.2 x).
Definition computes2 `{SO : StateOps} (p : instruction * (Z → Z → Z)) : Prop :=
  ∀ v x y s, vm_stack v = x :: y :: s → word x → word y →
    p.1 v = Done ([], None, set_stack (p.2 x y :: s) v) ∧ word (p.2 x y).
Definition computes3 `{SO : StateOps} (p : instruction * (Z → Z → Z → Z)) : Prop :=
  ∀ v x y z s, vm_stack v = x :: y :: z :: s → word x → word y → word z →
    p.1 v = Done ([], None, set_stack (p.2 x y z :: s) v) ∧ word (p.2 x y z).

Section correct.
Context `{SO : StateOps}.

(** An instruction whose function is, on words, the one that it should be. *)
Lemma computes_by e f g : binop e f → (∀ x y, word x → word y → f x y = g x y) →
  (∀ x y, word x → word y → word (g x y)) → computes2 (e, g).
Proof. intros He Hf Hg v x y s E Hx Hy. simpl. rewrite (He v x y s E), Hf by done. auto. Qed.
Lemma computes_by3 e f g : triop e f → (∀ x y z, word x → word y → word z → f x y z = g x y z) →
  (∀ x y z, word x → word y → word z → word (g x y z)) → computes3 (e, g).
Proof. intros He Hf Hg v x y z s E Hx Hy Hz. simpl. rewrite (He v x y z s E), Hf by done. auto. Qed.

Lemma unary_instructions_ok : Forall computes1 unary_instructions.
Proof.
  repeat (apply Forall_cons; split); [..|by apply Forall_nil]; intros v x s E Hx; cbn [fst snd].
  - assert (word (tt256 - 1 - x)) by (destruct Hx; split; lia). split; [|done]. rewrite (opNot_fun v x s E).
    do 3 f_equal. rewrite U256_mod. unfold Z.lnot, encode.
    replace (Z.pred (- x)) with ((tt256 - 1 - x) + -1 * tt256) by lia. by rewrite Z.mod_add, Z.mod_small by done.
  - split; [|apply flag_word]. rewrite (opIszero_fun v x s E). do 3 f_equal. unfold flag, bigSign. destruct Hx.
    destruct (Z.ltb_spec 0 (Z.sgn x)), (Z.eqb_spec x 0); done || lia.
Qed.

Lemma shr_is_word x y : word x → word y → word (y / 2 ^ x).
Proof.
  intros Hx Hy. rewrite <- shr_word by done. destruct (0 <=? _); [split; done || lia|apply U256_word].
Qed.
Lemma signextend_is_word x y : word x → word y → word (signextend x y).
Proof. intros Hx Hy. unfold signextend. destruct (x <? 31); [apply encode_word|done]. Qed.
Lemma byte_is_word x y : word x → word y → word (byte_at x y).
Proof.
  intros Hx Hy. unfold byte_at. destruct (x <? 32); [|split; done || lia].
  pose proof (Z.mod_pos_bound (y / 256 ^ (31 - x)) 256 ltac:(lia)). split; [lia|]. unfold tt256. lia.
Qed.
Lemma mod_is_word x y : word y → word (if y =? 0 then 0 else x mod y).
Proof.
  intros [Hy0 Hy]. destruct (Z.eqb_spec y 0); [split; done || lia|].
  pose proof (Z.mod_pos_bound x y ltac:(lia)). split; lia.
Qed.

Lemma binary_instructions_ok : Forall computes2 binary_instructions.
Proof.
  repeat (apply Forall_cons; split); [..|by apply Forall_nil].
  - eapply computes_by; [apply opAdd_fun|intros; apply U256_mod|intros; apply encode_word].
  - eapply computes_by; [apply opSub_fun|intros; apply U256_mod|intros; apply encode_word].
  - eapply computes_by; [apply opMul_fun|intros; apply U256_mod|intros; apply encode_word].
  - eapply computes_by; [apply opDiv_fun|apply div_word|].
    intros x y Hx Hy. rewrite <- div_word by done. destruct (negb _); [apply U256_word|split; done || lia].
  - eapply computes_by; [apply opSdiv_fun|intros; apply sdiv_word|intros; apply encode_word].
  - eapply computes_by; [apply opMod_fun|apply mod_word|intros; by apply mod_is_word].
  - eapply computes_by; [apply opSmod_fun|intros; apply smod_word|].
    intros. unfold smod. destruct (_ =? _); [split; done || lia|apply encode_word].
  - eapply computes_by; [apply opExp_fun|intros x y _ Hy; apply Exp_correct, Hy|intros; apply encode_word].
  - eapply computes_by; [apply opSignExtend_fun|apply signextend_word|apply signextend_is_word].
  - eapply computes_by; [apply opLt_fun|intros; cbv beta; by rewrite cmp_ltb|intros; apply flag_word].
  - eapply computes_by; [apply opGt_fun|intros; cbv beta; by rewrite cmp_gtb|intros; apply flag_word].
  - eapply computes_by; [apply opSlt_fun|apply slt_word|intros; apply flag_word].
  - eapply computes_by; [apply opSgt_fun|apply sgt_word|intros; apply flag_word].
  - eapply computes_by; [apply opEq_fun|intros; cbv beta; by rewrite cmp_eqb|intros; apply flag_word].
  - eapply computes_by; [apply opAnd_fun|done|apply land_word].
  - eapply computes_by; [apply opOr_fun|done|apply lor_word].
  - eapply computes_by; [apply opXor_fun|done|apply lxor_word].
  - eapply computes_by; [apply opByte_fun|apply byte_word|apply byte_is_word].
  - eapply computes_by; [apply opSHL_fun|apply shl_word|intros; apply encode_word].
  - eapply computes_by; [apply opSHR_fun|apply shr_word|apply shr_is_word].
  - eapply computes_by; [apply opSAR_fun|apply sar_word|intros; apply encode_word].
Qed.

Lemma addmod_word z n : word z → (if 0 <? bigCmp z 0 then U256 (n mod z) else 0) = if z =? 0 then 0 else n mod z.
Proof.
  intros Hz. rewrite cmp_gtb. pose proof (mod_is_word n z Hz) as Hw. destruct Hz as [Hz0 Hz].
  destruct (Z.ltb_spec 0 z), (Z.eqb_spec z 0); try lia. by apply U256_id.
Qed.

Lemma ternary_instructions_ok : Forall computes3 ternary_instructions.
Proof.
  repeat (apply Forall_cons; split); [..|by apply Forall_nil].
  - eapply computes_by3; [apply opAddmod_fun|intros; by apply addmod_word|intros; by apply mod_is_word].
  - eapply computes_by3; [apply opMulmod_fun|intros; by apply addmod_word|intros; by apply mod_is_word].
Qed.
End correct.

(** ** Properties *)

(** C15: the arithmetic instructions compute what they are named after. On words
    ADD, SUB, MUL and EXP are arithmetic modulo 2^256; DIV and MOD are those of
    natural numbers and give 0 for the divisor 0; SDIV, SMOD, SLT, SGT and SAR work
    on the numbers that the words stand for in two's complement, rounding a
    quotient to zero and a shift down; SIGNEXTEND reads the low bytes as a two's
    complement; ISZERO and the comparisons give 1 or 0; BYTE, the shifts and the
    bitwise instructions pick and move bits, and NOT flips all 256 of them;
    ADDMOD and MULMOD do not wrap before they reduce. Each takes its arguments
    from the stack, leaves a word in their place and changes nothing else. *)
Theorem arithmetic_instructions `{SO : StateOps} :
  Forall computes1 unary_instructions ∧ Forall computes2 binary_instructions ∧
  Forall computes3 ternary_instructions.
Proof. split_and!; [apply unary_instructions_ok|apply binary_instructions_ok|apply ternary_instructions_ok]. Qed.
