(* ===== verification/EvmLaws.v ===== *)
(** * What the EVM relies on, and what it keeps

    [StateLaws] is the contract of the state interface: on a good state every
    method that the EVM uses returns, a good state again, whose changes a snapshot
    can undo. [frame_ok] and [evm_good] are the invariants of a frame and of the
    EVM, [ends_well] is total correctness, and the lemmas are the rules of the
    monads for it. *)

From stdpp Require Import base list gmap strings.
From Stdlib Require Import ZArith Lia.
From S2P Require Import Prelude Bytes Keccak KeccakFacts FsnTypes StateDB StateInterface.
From S2P Require Import EvmWord EvmAnalysis ChainConfig EvmMachine EvmGas EvmCall EvmOps Evm.

(** Data that fits a machine. *)
Definition data_ok (b : bytes) : Prop := are_bytes b ∧ Z.of_nat (length b) < 2 ^ 62.

(** ** The contract of the state *)

(** What a method may be asked in a state, and what it returns. [bal] is the
    balance of the system asset, [exists_] whether there is an account, [code] the
    code and its hash. *)
Section contract.
Context {S : Type} (bal : S → Address → Z) (exists_ : S → Address → bool) (codes : bytes → Prop).

Definition read_ok (s : S) {A} (op : iface A) : A → Prop :=
  match op in iface A return A → Prop with
  | IGetBalance h a => fun r => h = SystemAssetID → r = Some (bal s a) ∧ 0 <= bal s a
  | IGetNonce a => fun r => is_u64 r
  | IGetCodeHash a => fun r => 0 <= r
  | IGetCode a => fun r => data_ok (default [] r) ∧ codes (default [] r)
  | IGetCodeSize a => fun r => 0 <= r
  | IGetState a k => fun r => 0 <= r
  | IHasSuicided a => fun r => True
  | IExist a => fun r => r = exists_ s a
  | IEmpty a => fun r => True
  | _ => fun _ => False
  end.

Definition is_read {A} (op : iface A) : bool :=
  match op with
  | IGetBalance _ _ | IGetNonce _ | IGetCodeHash _ | IGetCode _ | IGetCodeSize _ | IGetState _ _
  | IHasSuicided _ | IExist _ | IEmpty _ => true
  | _ => false
  end.

Definition write_pre (s : S) {A} (op : iface A) : Prop :=
  match op with
  | ICreateAccount a => True
  | ISubBalance a h v => h = SystemAssetID ∧ 0 <= v <= bal s a
  | IAddBalance a h v => h = SystemAssetID ∧ 0 <= v
  | ISetNonce a n => is_u64 n
  | ISetCode a b => data_ok b ∧ codes b
  | IAddRefund g => 0 <= g
  | ISetState a k x => 0 <= x
  | IAddLog _ | IAddPreimage _ _ => True
  | _ => False
  end.

(** Writes that leave what accounts hold as it is. *)
Definition no_change (s : S) {A} (op : iface A) : Prop :=
  match op with
  | ICreateAccount a => exists_ s a = false
  | ISubBalance _ _ v | IAddBalance _ _ v => v = 0
  | IAddPreimage _ _ => True
  | _ => False
  end.

Definition write_bal (s : S) {A} (op : iface A) (s' : S) : Prop :=
  match op with
  | ISubBalance a _ v | IAddBalance a _ v => True
  | _ => ∀ a, bal s' a = bal s a
  end.
End contract.

(** [st_ext]: the second state was reached from the first by changes that can be
    undone. [st_same]: no client can tell the states apart. [st_still]: accounts
    may have been created, but nothing was changed. [st_codes]: the code that is
    in play. *)
Class StateLaws `{SO : StateOps} := {
  st_ok : sdb → Prop;
  st_bal : sdb → Address → Z;
  st_exists : sdb → Address → bool;
  st_codes : bytes → Prop;
  st_ext : sdb → sdb → Prop;
  st_same : sdb → sdb → Prop;
  st_still : sdb → sdb → Prop;
  law_ext_refl s : st_ok s → st_ext s s;
  law_ext_trans s1 s2 s3 : st_ext s1 s2 → st_ext s2 s3 → st_ext s1 s3;
  law_same_refl s : st_same s s;
  law_same_trans s1 s2 s3 : st_same s1 s2 → st_same s2 s3 → st_same s1 s3;
  law_still_trans s1 s2 s3 : st_still s1 s2 → st_still s2 s3 → st_still s1 s3;
  law_same_still s s' : st_same s s' → st_still s s';
  law_read {A} (op : iface A) s : is_read op = true → st_ok s →
    ∃ r s', method op s = Done (r, s') ∧ st_ok s' ∧ st_ext s s' ∧ st_same s s' ∧
      read_ok st_bal st_exists st_codes s op r ∧ (∀ a, st_bal s' a = st_bal s a) ∧ (∀ a, st_exists s' a = st_exists s a);
  law_write (op : iface unit) s : write_pre st_bal st_codes s op → st_ok s →
    ∃ s', method op s = Done (tt, s') ∧ st_ok s' ∧ st_ext s s' ∧ write_bal st_bal s op s' ∧
      (no_change st_exists s op → st_still s s');
  law_code_hash a s h s1 c s2 : st_ok s → method (IGetCodeHash a) s = Done (h, s1) →
    method (IGetCode a) s1 = Done (c, s2) → default [] c = [] ∨ h = keccak (default [] c);
  law_snapshot s : st_ok s →
    ∃ id s1, sdb_Snapshot s = Done (id, s1) ∧ st_ok s1 ∧ st_ext s s1 ∧ st_same s s1 ∧
      (∀ a, st_bal s1 a = st_bal s a) ∧ (∀ a, st_exists s1 a = st_exists s a) ∧
      ∀ s2, st_ok s2 → st_ext s1 s2 →
        ∃ s3, sdb_RevertToSnapshot id s2 = Done (tt, s3) ∧ st_ok s3 ∧ st_ext s s3 ∧ st_same s s3;
}.

(** ** Good outcomes *)

(** Two codes with the same hash: then the vector of jump destinations of one may
    be used for the other. *)
Definition collision (U : bytes → Prop) : Prop :=
  ∃ c1 c2, U c1 ∧ U c2 ∧ c1 ≠ c2 ∧ keccak c1 = keccak c2.

(** The code returns, and the result is as it should be. *)
Definition ends_well {A} (U : bytes → Prop) (o : outcome A) (Q : A → Prop) : Prop :=
  match o with
  | Done r => Q r
  | Panic _ => collision U
  | OutOfFuel => False
  end.

Lemma ends_well_mono {A} U (o : outcome A) (Q Q' : A → Prop) :
  ends_well U o Q → (∀ r, Q r → Q' r) → ends_well U o Q'.
Proof. destruct o; simpl; auto. Qed.
Lemma ends_well_obind {A B} U (o : outcome A) (k : A → outcome B) Q :
  ends_well U o (fun a => ends_well U (k a) Q) → ends_well U (obind o k) Q.
Proof. by destruct o. Qed.

Section rules.
Context `{SO : StateOps} (U : bytes → Prop).

Definition wpV {A} (m : V A) (Q : A → EVM → Prop) (e : EVM) : Prop :=
  ends_well U (m e) (fun r => Q r.1 r.2).
Definition wpI {A} (m : I A) (Q : A → VM → Prop) (v : VM) : Prop :=
  ends_well U (m v) (fun r => Q r.1 r.2).
Definition wpG {A} (m : G A) (Q : A + error → VM → Prop) (v : VM) : Prop :=
  ends_well U (m v) (fun r => Q r.1 r.2).

Lemma wpV_ret {A} (a : A) Q e : Q a e → wpV (mret a) Q e.
Proof. done. Qed.
Lemma wpV_bind {A B} (m : V A) (k : A → V B) Q e :
  wpV m (fun a e1 => wpV (k a) Q e1) e → wpV (m ≫= k) Q e.
Proof. apply ends_well_obind. Qed.
Lemma wpV_mono {A} (m : V A) Q Q' e : wpV m Q e → (∀ a e', Q a e' → Q' a e') → wpV m Q' e.
Proof. intros H HQ. eapply ends_well_mono; [exact H|]. intros [a e']. apply HQ. Qed.
Lemma wpV_gets {A} (f : EVM → A) Q e : Q (f e) e → wpV (v_gets f) Q e.
Proof. done. Qed.
Lemma wpV_modify f Q e : Q tt (f e) → wpV (v_modify f) Q e.
Proof. done. Qed.
Lemma wpV_lift {A} (o : outcome A) Q e : ends_well U o (fun a => Q a e) → wpV (v_lift o) Q e.
Proof. intros H. apply ends_well_obind. by eapply ends_well_mono. Qed.

Lemma wpI_ret {A} (a : A) Q v : Q a v → wpI (mret a) Q v.
Proof. done. Qed.
Lemma wpI_bind {A B} (m : I A) (k : A → I B) Q v :
  wpI m (fun a v1 => wpI (k a) Q v1) v → wpI (m ≫= k) Q v.
Proof. apply ends_well_obind. Qed.
Lemma wpI_mono {A} (m : I A) Q Q' v : wpI m Q v → (∀ a v', Q a v' → Q' a v') → wpI m Q' v.
Proof. intros H HQ. eapply ends_well_mono; [exact H|]. intros [a v']. apply HQ. Qed.
Lemma wpI_gets {A} (f : VM → A) Q v : Q (f v) v → wpI (i_gets f) Q v.
Proof. done. Qed.
Lemma wpI_modify f Q v : Q tt (f v) → wpI (i_modify f) Q v.
Proof. done. Qed.
Lemma wpI_lift {A} (o : outcome A) Q v : ends_well U o (fun a => Q a v) → wpI (i_lift o) Q v.
Proof. intros H. apply ends_well_obind. by eapply ends_well_mono. Qed.
Lemma wpI_evm {A} (m : V A) Q v :
  wpV m (fun a e => Q a (set_evm e v)) (vm_evm v) → wpI (i_evm m) Q v.
Proof. intros H. apply ends_well_obind. eapply ends_well_mono; [exact H|]. by intros []. Qed.

Lemma wpG_ret {A} (a : A) Q v : Q (inl a) v → wpG (mret a) Q v.
Proof. done. Qed.
Lemma wpG_bind {A B} (m : G A) (k : A → G B) Q v :
  wpG m (fun r v1 => match r with inl a => wpG (k a) Q v1 | inr err => Q (inr err) v1 end) v →
  wpG (m ≫= k) Q v.
Proof.
  intros H. apply ends_well_obind. eapply ends_well_mono; [exact H|]. by intros [[a|err] v1].
Qed.
Lemma wpG_mono {A} (m : G A) Q Q' v : wpG m Q v → (∀ a v', Q a v' → Q' a v') → wpG m Q' v.
Proof. intros H HQ. eapply ends_well_mono; [exact H|]. intros [a v']. apply HQ. Qed.
Lemma wpG_lift {A} (m : I A) Q v : wpI m (fun a v' => Q (inl a) v') v → wpG (g_lift m) Q v.
Proof. intros H. apply ends_well_obind. eapply ends_well_mono; [exact H|]. by intros []. Qed.
Lemma wpG_fail {A} err (Q : A + error → VM → Prop) v : Q (inr err) v → wpG (g_fail err) Q v.
Proof. done. Qed.
Lemma wpG_try {A} (r : A + error) Q v : Q r v → wpG (g_try r) Q v.
Proof. done. Qed.
End rules.

(** ** Invariants *)

Definition nonneg (x : Z) : Prop := 0 <= x.

(** The memory has whole words, no more than [memoryGasCost] lets it have. *)
Record mem_ok (m : Memory) : Prop := {
  mo_bytes : are_bytes (mem_store m);
  mo_words : (32 | mem_Len m);
  mo_max : mem_Len m <= 0xffffffffe0;
  mo_cost : is_u64 (lastGasCost m);
}.

(** An access to memory that is inside; [acc] below are pairs of an offset and a
    length. *)
Definition fits (m : Memory) (a : Z * Z) : Prop := a.2 = 0 ∨ a.1 + a.2 <= mem_Len m.

(** As much gas as a block can have, and far less than what wraps: the bound that
    the precompiled contracts need. *)
Definition maxGas : Z := 2 ^ 62.
Definition gas_fits (g : Z) : Prop := 0 <= g <= maxGas.

Record contract_ok (codes : bytes → Prop) (c : Contract) : Prop := {
  co_code : data_ok (ct_Code c);
  co_codes : codes (ct_Code c);
  co_hash : ct_Code c = [] ∨ ct_CodeHash c = keccak (ct_Code c);
  co_input : data_ok (ct_Input c);
  co_gas : gas_fits (ct_Gas c);
  co_value : ∃ x, ct_value c = Some x ∧ 0 <= x;
  co_self : 0 <= ct_self c;
  co_caller : 0 <= CallerAddress c;
}.

(** The vectors of jump destinations are those of code that is in play. *)
Definition jumpdests_ok (codes : bytes → Prop) (d : destinations) : Prop :=
  ∀ h m, d !! h = Some m → ∃ c, codes c ∧ keccak c = h ∧ codeBitmap c = Done m.

Section invariants.
Context `{SL : StateLaws}.

Record evm_good (e : EVM) : Prop := {
  eg_db : st_ok (evm_db e);
  eg_return : data_ok (in_returnData e);
  eg_temp : is_u64 (callGasTemp e);
  eg_depth : 0 <= evm_depth e <= CallCreateDepth + 1;
  eg_jumpdests : jumpdests_ok st_codes (evm_jumpdests e);
}.

(** What code that runs in the EVM guarantees: the changes can be undone, and in
    read-only mode nothing changes. [byz] is whether that mode is enforced. *)
Record evm_ext (byz : bool) (e e' : EVM) : Prop := {
  ee_good : evm_good e';
  ee_ext : st_ext (evm_db e) (evm_db e');
  ee_depth : evm_depth e' = evm_depth e;
  ee_readOnly : in_readOnly e' = in_readOnly e;
  ee_still : byz = true → in_readOnly e = true → st_still (evm_db e) (evm_db e');
}.

Lemma evm_ext_refl byz e : evm_good e → evm_ext byz e e.
Proof.
  intros He. split; try done.
  - apply law_ext_refl, He.
  - intros _ _. apply law_same_still, law_same_refl.
Qed.
Lemma evm_ext_trans byz e1 e2 e3 : evm_ext byz e1 e2 → evm_ext byz e2 e3 → evm_ext byz e1 e3.
Proof.
  intros [G1 X1 D1 R1 S1] [G2 X2 D2 R2 S2]. split; try congruence.
  - by eapply law_ext_trans.
  - intros Hb Hr. eapply law_still_trans; [by apply S1|]. apply S2; congruence.
Qed.

Record frame_ok (v : VM) : Prop := {
  fo_evm : evm_good (vm_evm v);
  fo_contract : contract_ok st_codes (vm_contract v);
  fo_mem : mem_ok (vm_mem v);
  fo_stack : Forall nonneg (vm_stack v);
  fo_pc : 0 <= vm_pc v <= Z.of_nat (length (ct_Code (vm_contract v))) + 33;
}.

(** The contract keeps all but its gas. *)
Definition same_contract (c c' : Contract) : Prop := c' = set_Gas (ct_Gas c') c.

Lemma same_contract_refl c : same_contract c c.
Proof. by destruct c. Qed.
Lemma same_contract_trans c1 c2 c3 : same_contract c1 c2 → same_contract c2 c3 → same_contract c1 c3.
Proof. unfold same_contract. intros H1 H2. rewrite H2 at 1. rewrite H1. by destruct c1. Qed.
Lemma same_contract_ok codes c c' :
  same_contract c c' → contract_ok codes c → gas_fits (ct_Gas c') → contract_ok codes c'.
Proof. intros -> [] Hg. by split. Qed.
End invariants.
