(* ===== verification/EvmSafe.v ===== *)
(** * Every instruction is safe

    An instruction that the interpreter runs has the stack items that it pops, the
    memory that it asks for and the gas that it costs. [op_ok] says what the
    entries of the jump table promise on that: the price is at least one unit more
    than what the instruction may give back, the memory that is asked for covers
    every access, and the instruction returns with the stack that the table
    announces, in a frame that is good again. *)

From stdpp Require Import base list gmap strings.
From Stdlib Require Import ZArith Lia.
From S2P Require Import Prelude Bytes Keccak KeccakFacts FsnTypes StateDB StateInterface.
From S2P Require Import EvmWord EvmAnalysis ChainConfig EvmMachine EvmGas EvmCall EvmOps Evm EvmArith EvmLaws.

(** ** Memory *)

Lemma data_ok_nil : data_ok [].
Proof. split; [done|]. simpl. lia. Qed.

Lemma mem_len_bound m : mem_ok m → 0 <= mem_Len m < 2 ^ 40.
Proof. intros H. pose proof (mo_max _ H). unfold mem_Len in *. lia. Qed.

Lemma fits_cases m off len : fits m (off, len) → len = 0 ∨ off + len <= mem_Len m.
Proof. done. Qed.

Lemma slice_ok data lo hi : 0 <= lo <= hi → hi <= Z.of_nat (length data) →
  slice data lo hi = Done (take (Z.to_nat (hi - lo)) (drop (Z.to_nat lo) data)).
Proof.
  intros H1 H2. unfold slice. destruct (Z.leb_spec 0 lo), (Z.leb_spec lo hi), (Z.leb_spec hi (Z.of_nat (length data))); by try lia.
Qed.

Lemma slice_data_ok data lo hi : data_ok data → 0 <= lo <= hi → hi <= Z.of_nat (length data) →
  ∃ d, slice data lo hi = Done d ∧ data_ok d ∧ Z.of_nat (length d) = hi - lo.
Proof.
  intros [Hb Hl] H1 H2. rewrite slice_ok by done. eexists. split; [done|].
  assert (Z.of_nat (length (take (Z.to_nat (hi - lo)) (drop (Z.to_nat lo) data))) = hi - lo) as Hlen.
  { rewrite length_take, length_drop. lia. }
  split; [|done]. split; [by apply Forall_take, Forall_drop|]. lia.
Qed.

Lemma mem_data_ok m : mem_ok m → data_ok (mem_store m).
Proof. intros H. split; [apply H|]. pose proof (mem_len_bound m H). unfold mem_Len in *. lia. Qed.

Lemma mem_Get_ok m off len : mem_ok m → 0 <= off → 0 <= len → fits m (off, len) →
  ∃ d, mem_Get (bigInt64 off) (bigInt64 len) m = Done d ∧ data_ok d.
Proof.
  intros Hm Hoff Hlen [-> | Hf]%fits_cases; [exists []; split; [done|apply data_ok_nil]|].
  pose proof (mem_len_bound m Hm). rewrite !bigInt64_id by lia. unfold mem_Get.
  destruct (Z.eqb_spec len 0); [exists []; split; [done|apply data_ok_nil]|].
  destruct (Z.ltb_spec off (mem_Len m)); [|exists []; split; [done|apply data_ok_nil]].
  destruct (Z.ltb_spec len 0); [lia|]. rewrite i64_id by lia.
  destruct (slice_data_ok (mem_store m) off (off + len)) as (d & Hd & Hok & _); [by apply mem_data_ok|lia|done|].
  by exists d.
Qed.

Lemma mem_GetPtr_ok m off len : mem_ok m → 0 <= off → 0 <= len → fits m (off, len) →
  ∃ d, mem_GetPtr (bigInt64 off) (bigInt64 len) m = Done d ∧ data_ok d.
Proof.
  intros Hm Hoff Hlen Hf. destruct (mem_Get_ok m off len Hm Hoff Hlen Hf) as (d & Hd & Hok).
  exists d. split; [|done]. revert Hd. unfold mem_Get, mem_GetPtr.
  repeat case_match; try done.
Qed.

Lemma splice_ok off value store :
  are_bytes value → are_bytes store → (off + length value <= length store)%nat →
  are_bytes (splice off value store) ∧ length (splice off value store) = length store.
Proof.
  intros Hv Hs Hl. unfold splice. split.
  - apply Forall_app. split; [by apply Forall_take|]. apply Forall_app. split; [done|by apply Forall_drop].
  - rewrite !length_app, length_take, length_drop. lia.
Qed.

(** The memory with another content of the same length. *)
Lemma mem_ok_store m s : mem_ok m → are_bytes s → length s = length (mem_store m) → mem_ok (mkMemory s (lastGasCost m)).
Proof.
  intros [H1 H2 H3 H4] Hs Hl. split; unfold mem_Len in *; simpl in *; [done|by rewrite Hl|by rewrite Hl|done].
Qed.

Lemma mem_Set_ok m off len value : mem_ok m → are_bytes value → 0 <= off → 0 <= len → fits m (off, len) →
  ∃ m', mem_Set (bigUint64 off) (bigUint64 len) value m = Done m' ∧ mem_ok m' ∧ mem_Len m' = mem_Len m.
Proof.
  intros Hm Hv Hoff Hlen [-> | Hf]%fits_cases; [by exists m|]. pose proof (mem_len_bound m Hm).
  rewrite !bigUint64_id by (unfold is_u64, two64; lia). unfold mem_Set.
  destruct (Z.ltb_spec 0 len); [|by exists m]. rewrite u64_id by (unfold is_u64, two64; lia).
  destruct (Z.ltb_spec (mem_Len m) (off + len)); [lia|]. destruct (Z.ltb_spec (off + len) off); [lia|].
  destruct (splice_ok (Z.to_nat off) (take (Z.to_nat len) value) (mem_store m)) as [Hb Hl];
    [by apply Forall_take|apply Hm|rewrite length_take; unfold mem_Len in *; lia|].
  eexists. split; [done|]. split; [by apply mem_ok_store|]. unfold mem_Len. cbn [mem_store]. by rewrite Hl.
Qed.

Lemma ReadBits_length z n : length (ReadBits z (replicate n 0)) = n ∧ are_bytes (ReadBits z (replicate n 0)).
Proof.
  unfold ReadBits. rewrite ReadBits_loop_spec by (by rewrite ?length_replicate || apply limbs_bounds).
  rewrite length_replicate. set (k := (_ `min` _)%nat). assert (k <= n)%nat by (unfold k; lia).
  rewrite drop_ge, app_nil_r by (by rewrite length_replicate). split.
  - rewrite length_app, length_take, length_replicate, length_be_bytes. lia.
  - apply Forall_app. split; [|apply be_bytes_are_bytes]. by apply Forall_take, Forall_replicate.
Qed.

Lemma mem_Set32_ok m off val : mem_ok m → 0 <= off → fits m (off, 32) →
  ∃ m', mem_Set32 (bigUint64 off) val m = Done m' ∧ mem_ok m' ∧ mem_Len m' = mem_Len m.
Proof.
  intros Hm Hoff [|Hf]%fits_cases; [done|]. pose proof (mem_len_bound m Hm).
  rewrite bigUint64_id by (unfold is_u64, two64; lia). unfold mem_Set32. rewrite u64_id by (unfold is_u64, two64; lia).
  destruct (Z.ltb_spec (mem_Len m) (off + 32)); [lia|]. destruct (Z.ltb_spec (off + 32) off); [lia|].
  destruct (ReadBits_length val 32) as [Hrl Hrb].
  destruct (splice_ok (Z.to_nat off) (ReadBits val (replicate 32 0)) (mem_store m)) as [Hb Hl];
    [done|apply Hm|rewrite Hrl; unfold mem_Len in *; lia|].
  eexists. split; [done|]. split; [by apply mem_ok_store|]. unfold mem_Len. cbn [mem_store]. by rewrite Hl.
Qed.

Lemma RightPadBytes_ok d l : are_bytes d → Z.of_nat (length d) <= l →
  are_bytes (RightPadBytes d l) ∧ Z.of_nat (length (RightPadBytes d l)) = l.
Proof.
  intros Hd Hl. unfold RightPadBytes. destruct (Z.leb_spec l (Z.of_nat (length d))); [split; [done|lia]|].
  split; [apply Forall_app; split; [done|by apply Forall_replicate]|].
  rewrite length_app, length_replicate. lia.
Qed.

Lemma getDataBig_ok data start size : data_ok data → 0 <= start → 0 <= size < 2 ^ 40 →
  ∃ d, getDataBig data start size = Done d ∧ data_ok d ∧ Z.of_nat (length d) = size.
Proof.
  intros Hd Hs Hz. pose proof Hd as [Hb Hl]. unfold getDataBig. rewrite !BigMin_min.
  rewrite !bigUint64_id by (unfold is_u64, two64; lia). rewrite (i64_id size) by lia.
  destruct (slice_data_ok data (start `min` Z.of_nat (length data))
    ((start `min` Z.of_nat (length data) + size) `min` Z.of_nat (length data))) as (d & -> & [Hdb _] & Hdl); [done|lia|lia|].
  simpl. destruct (RightPadBytes_ok d size Hdb) as [Hpb Hpl]; [lia|]. eexists. split; [done|].
  split; [split; [done|lia]|done].
Qed.

Lemma fits_len m off len : mem_ok m → 0 <= off → 0 <= len → fits m (off, len) → len < 2 ^ 40.
Proof. intros Hm Hoff Hlen [H|H]; simpl in H; [lia|]. pose proof (mem_len_bound m Hm). lia. Qed.

Lemma SetBytes_nonneg b : are_bytes b → 0 <= SetBytes b.
Proof. intros H. by apply SetBytes_range. Qed.
Lemma BytesToAddress_nonneg b : are_bytes b → 0 <= BytesToAddress b.
Proof. intros H. by apply SetBytes_nonneg, Forall_drop. Qed.
Lemma BigToAddress_nonneg x : 0 <= BigToAddress x.
Proof. apply BytesToAddress_nonneg, Int_Bytes_are_bytes. Qed.
Lemma BigToHash_nonneg x : 0 <= BigToHash x.
Proof. apply SetBytes_nonneg, Forall_drop, Int_Bytes_are_bytes. Qed.
Lemma keccak_nonneg b : 0 <= keccak b.
Proof. apply keccak_is_hash. Qed.
Lemma U256_nonneg x : 0 <= U256 x.
Proof. apply U256_word. Qed.

(** ** What the entries promise *)

(** The block and the message have addresses, a gas price and hashes that are not
    negative. *)
Record ctx_ok (ctx : Context) : Prop := {
  cx_origin : 0 <= ctx_Origin ctx;
  cx_price : 0 <= ctx_GasPrice ctx;
  cx_coinbase : 0 <= ctx_Coinbase ctx;
  cx_hash : ∀ n, 0 <= ctx_GetHash ctx n;
}.

Section promises.
Context `{SL : StateLaws} (ctx : Context) (dmin : Z).

Definition byz : bool := IsByzantium (ctx_chainConfig ctx) (ctx_BlockNumber ctx).

(** Read-only mode is enforced in this frame. *)
Definition protected (v : VM) : Prop := byz = true ∧ in_readOnly (vm_evm v) = true.

Definition code_len (v : VM) : Z := Z.of_nat (length (ct_Code (vm_contract v))).

(** [rb]: how much gas the instruction may give back. *)
Record exec_post (pops pushes : nat) (rb : VM → Z) (v : VM) (r : bytes * option error) (v' : VM) : Prop := {
  xp_res : data_ok r.1;
  xp_evm : evm_ext byz (vm_evm v) (vm_evm v');
  xp_contract : same_contract (vm_contract v) (vm_contract v');
  xp_gas : 0 <= ct_Gas (vm_contract v') <= ct_Gas (vm_contract v) + rb v;
  xp_mem : mem_ok (vm_mem v');
  xp_mem_len : mem_Len (vm_mem v') = mem_Len (vm_mem v);
  xp_stack : Forall nonneg (vm_stack v');
  xp_len : r.2 = None → (length (vm_stack v') + pops = length (vm_stack v) + pushes)%nat;
  xp_pc : 0 <= vm_pc v' <= code_len v + 32;
}.

(** [acc]: the accesses to memory; [wr]: whether the instruction writes. The calls
    that an instruction makes are understood from the depth [dmin] on. *)
Definition exec_ok (e : instruction) (pops pushes : nat) (acc : list Z → list (Z * Z)) (rb : VM → Z)
    (wr : VM → Prop) : Prop :=
  ∀ v, frame_ok v → (pops <= length (vm_stack v))%nat → vm_pc v < code_len v →
    Forall (fits (vm_mem v)) (acc (vm_stack v)) → rb v + ct_Gas (vm_contract v) <= maxGas →
    (protected v → ¬ wr v) → dmin <= evm_depth (vm_evm v) → wpI st_codes e (exec_post pops pushes rb v) v.

Record gas_post (size : Z) (free : bool) (rb : VM → Z) (v : VM) (r : Z + error) (v' : VM) : Prop := {
  gp_evm : evm_ext byz (vm_evm v) (vm_evm v');
  gp_pc : vm_pc v' = vm_pc v;
  gp_contract : vm_contract v' = vm_contract v;
  gp_stack : vm_stack v' = vm_stack v;
  gp_store : mem_store (vm_mem v') = mem_store (vm_mem v);
  gp_cost : ∀ cost, r = inl cost → is_u64 cost ∧ (free = false → rb v' + 1 <= cost) ∧
    mem_ok (mem_Resize size (vm_mem v'));
}.

Definition gas_ok (g : Z → G Z) (pops : nat) (free : bool) (rb : VM → Z) (wr : VM → Prop) : Prop :=
  ∀ v size, frame_ok v → (pops <= length (vm_stack v))%nat → is_u64 size → (32 | size) →
    (protected v → ¬ wr v) → wpG st_codes (g size) (gas_post size free rb v) v.

(** The gas function does not look at the memory. *)
Definition gas_ok_none (g : Z → G Z) (pops : nat) (free : bool) (rb : VM → Z) (wr : VM → Prop) : Prop :=
  ∀ v, frame_ok v → (pops <= length (vm_stack v))%nat → (protected v → ¬ wr v) →
    wpG st_codes (g 0) (gas_post 0 free rb v) v.

Record op_ok (op : Z) (o : operation) (pops pushes : nat) (acc : list Z → list (Z * Z)) (rb : VM → Z)
    (wr : VM → Prop) : Prop := {
  oo_stack : validateStack o = makeStackFunc pops pushes;
  oo_mem : match memorySize o with
           | None => ∀ s, acc s = []
           | Some f => ∀ v, (pops <= length (vm_stack v))%nat → Forall nonneg (vm_stack v) →
               ∃ n, f v = Done (n, v) ∧ 0 <= n ∧ Forall (fun a => calcMemSize a.1 a.2 <= n) (acc (vm_stack v))
           end;
  oo_acc : ∀ s, Forall nonneg s → Forall (fun a => 0 <= a.1 ∧ 0 <= a.2) (acc s);
  oo_gas : match memorySize o with
           | None => gas_ok_none (gasCost o) pops (halts o || reverts o) rb wr
           | Some _ => gas_ok (gasCost o) pops (halts o || reverts o) rb wr
           end;
  oo_exec : exec_ok (execute o) pops pushes acc rb wr;
  oo_writes : writes o = true ∨ (∀ v, ¬ wr v) ∨
    (op = OpCode.CALL ∧ ∀ v, wr v → ∃ x, vm_stack v !! 2%nat = Some x ∧ x ≠ 0);
  oo_call : op = OpCode.CALL → (3 <= pops)%nat;
  oo_free : (∀ v, rb v = 0) ∨ halts o || reverts o = false;
  oo_rb : ∀ v c m, rb (mkVM (vm_evm v) (vm_pc v) c m (vm_stack v)) = rb v;
  oo_wr : ∀ v v', vm_stack v' = vm_stack v → wr v' → wr v;
}.

Definition no_acc : list Z → list (Z * Z) := fun _ => [].
Definition no_rb : VM → Z := fun _ => 0.
Definition no_wr : VM → Prop := fun _ => False.
Definition all_wr : VM → Prop := fun _ => True.

(** ** Instructions that work on the stack alone *)

Lemma frame_stack v s : frame_ok v → Forall nonneg s → frame_ok (set_stack s v).
Proof. intros [] Hs. by split. Qed.

Lemma exec_post_stack pops pushes v s :
  frame_ok v → vm_pc v < code_len v → Forall nonneg s →
  (length s + pops = length (vm_stack v) + pushes)%nat →
  exec_post pops pushes no_rb v ([], None) (set_stack s v).
Proof.
  intros Hv Hpc Hs Hl. destruct Hv as [He Hc Hm Hst Hp]. pose proof (co_gas _ _ Hc) as Hg.
  split; simpl; try done; [by apply evm_ext_refl|apply same_contract_refl| |lia].
  unfold gas_fits, no_rb in *. lia.
Qed.

Lemma unop_ok e f : unop e f → (∀ x, 0 <= x → 0 <= f x) → exec_ok e 1 1 no_acc no_rb no_wr.
Proof.
  intros He Hf v Hv Hl Hpc _ _ _ _. pose proof (fo_stack _ Hv) as Hs. destruct (vm_stack v) as [|x s] eqn:E; simpl in Hl; [lia|].
  unfold wpI. rewrite (He v x s E). simpl. apply Forall_cons in Hs as [Hx Hs].
  apply exec_post_stack; [done|done| |by rewrite E]. constructor; [by apply Hf|done].
Qed.
Lemma binop_ok e f : binop e f → (∀ x y, 0 <= x → 0 <= y → 0 <= f x y) → exec_ok e 2 1 no_acc no_rb no_wr.
Proof.
  intros He Hf v Hv Hl Hpc _ _ _ _. pose proof (fo_stack _ Hv) as Hs.
  destruct (vm_stack v) as [|x [|y s]] eqn:E; simpl in Hl; [lia..|].
  unfold wpI. rewrite (He v x y s E). simpl. apply Forall_cons in Hs as [Hx Hs]. apply Forall_cons in Hs as [Hy Hs].
  apply exec_post_stack; [done|done| |rewrite E; simpl; lia]. constructor; [by apply Hf|done].
Qed.
Lemma triop_ok e f : triop e f → (∀ x y z, 0 <= x → 0 <= y → 0 <= z → 0 <= f x y z) → exec_ok e 3 1 no_acc no_rb no_wr.
Proof.
  intros He Hf v Hv Hl Hpc _ _ _ _. pose proof (fo_stack _ Hv) as Hs.
  destruct (vm_stack v) as [|x [|y [|z s]]] eqn:E; simpl in Hl; [lia..|].
  unfold wpI. rewrite (He v x y z s E). simpl.
  apply Forall_cons in Hs as [Hx Hs]. apply Forall_cons in Hs as [Hy Hs]. apply Forall_cons in Hs as [Hz Hs].
  apply exec_post_stack; [done|done| |rewrite E; simpl; lia]. constructor; [by apply Hf|done].
Qed.
Lemma nullop_ok e f : nullop e f → (∀ v, frame_ok v → 0 <= f v) → exec_ok e 0 1 no_acc no_rb no_wr.
Proof.
  intros He Hf v Hv Hl Hpc _ _ _ _. unfold wpI. rewrite He. simpl.
  apply exec_post_stack; [done|done| |simpl; lia]. constructor; [by apply Hf|apply Hv].
Qed.
End promises.

(** ** Rules for the steps of instructions *)

Section steps.
Context `{SL : StateLaws} (ctx : Context).
Local Notation wpV := (wpV st_codes).
Local Notation wpI := (wpI st_codes).
Local Notation byz := (byz ctx).

Lemma wpI_pop Q v x s : vm_stack v = x :: s → Q x (set_stack s v) → wpI pop Q v.
Proof. intros E HQ. unfold EvmLaws.wpI, pop. by rewrite E. Qed.
Lemma wpI_push Q v d : Q tt (set_stack (d :: vm_stack v) v) → wpI (push d) Q v.
Proof. done. Qed.
Lemma wpI_Back Q v n x : vm_stack v !! n = Some x → Q x v → wpI (Back n) Q v.
Proof. intros E HQ. unfold EvmLaws.wpI, Back. by rewrite E. Qed.
Lemma wpI_set_peek Q v d x s : vm_stack v = x :: s → Q tt (set_stack (d :: s) v) → wpI (set_peek d) Q v.
Proof. intros E HQ. unfold EvmLaws.wpI, set_peek. by rewrite E. Qed.
Lemma wpI_ptr Q v x y : x = Some y → Q y v → wpI (i_ptr x) Q v.
Proof. by intros ->. Qed.

Lemma wpI_memory_Get Q v off len :
  mem_ok (vm_mem v) → 0 <= off → 0 <= len → fits (vm_mem v) (off, len) →
  (∀ d, data_ok d → Q d v) → wpI (memory_Get (bigInt64 off) (bigInt64 len)) Q v.
Proof.
  intros Hm Ho Hl Hf HQ. destruct (mem_Get_ok _ _ _ Hm Ho Hl Hf) as (d & Hd & Hok).
  unfold EvmLaws.wpI, memory_Get. rewrite Hd. by apply HQ.
Qed.
Lemma wpI_memory_GetPtr Q v off len :
  mem_ok (vm_mem v) → 0 <= off → 0 <= len → fits (vm_mem v) (off, len) →
  (∀ d, data_ok d → Q d v) → wpI (memory_GetPtr (bigInt64 off) (bigInt64 len)) Q v.
Proof.
  intros Hm Ho Hl Hf HQ. destruct (mem_GetPtr_ok _ _ _ Hm Ho Hl Hf) as (d & Hd & Hok).
  unfold EvmLaws.wpI, memory_GetPtr. rewrite Hd. by apply HQ.
Qed.
Lemma wpI_memory_Set Q v off len value :
  mem_ok (vm_mem v) → are_bytes value → 0 <= off → 0 <= len → fits (vm_mem v) (off, len) →
  (∀ m, mem_ok m → mem_Len m = mem_Len (vm_mem v) → Q tt (set_mem m v)) →
  wpI (memory_Set (bigUint64 off) (bigUint64 len) value) Q v.
Proof.
  intros Hm Hv Ho Hl Hf HQ. destruct (mem_Set_ok _ _ _ value Hm Hv Ho Hl Hf) as (m & Hr & Hok & Hlen).
  unfold EvmLaws.wpI, memory_Set. rewrite Hr. by apply HQ.
Qed.
Lemma wpI_memory_Set32 Q v off val :
  mem_ok (vm_mem v) → 0 <= off → fits (vm_mem v) (off, 32) →
  (∀ m, mem_ok m → mem_Len m = mem_Len (vm_mem v) → Q tt (set_mem m v)) →
  wpI (memory_Set32 (bigUint64 off) val) Q v.
Proof.
  intros Hm Ho Hf HQ. destruct (mem_Set32_ok _ _ val Hm Ho Hf) as (m & Hr & Hok & Hlen).
  unfold EvmLaws.wpI, memory_Set32. rewrite Hr. by apply HQ.
Qed.

(** *** Methods of the state *)

Lemma evm_good_db e s : evm_good e → st_ok s → evm_good (set_edb s e).
Proof. intros [] Hs. by split. Qed.

Lemma wpV_read {A} (op : iface A) Q e :
  is_read op = true → evm_good e →
  (∀ r s, evm_ext byz e (set_edb s e) → st_same (evm_db e) s → read_ok st_bal st_exists st_codes (evm_db e) op r →
     (∀ a, st_bal s a = st_bal (evm_db e) a) → (∀ a, st_exists s a = st_exists (evm_db e) a) → Q r (set_edb s e)) →
  wpV (v_db op) Q e.
Proof.
  intros Hop He HQ. destruct (law_read op (evm_db e) Hop (eg_db _ He)) as (r & s & Hr & Hok & Hx & Hs & Hread & Hb & Hex).
  unfold EvmLaws.wpV, v_db, v_state. rewrite Hr. simpl. apply HQ; [|done..].
  split; simpl; [by apply evm_good_db|done|done|done|]. intros _ _. by apply law_same_still.
Qed.

Lemma wpV_write (op : iface unit) Q e :
  write_pre st_bal st_codes (evm_db e) op → evm_good e →
  (byz = true → in_readOnly e = true → no_change st_exists (evm_db e) op) →
  (∀ s, evm_ext byz e (set_edb s e) → write_bal st_bal (evm_db e) op s → Q tt (set_edb s e)) →
  wpV (v_db op) Q e.
Proof.
  intros Hop He Hro HQ. destruct (law_write op (evm_db e) Hop (eg_db _ He)) as (s & Hr & Hok & Hx & Hb & Hs).
  unfold EvmLaws.wpV, v_db, v_state. rewrite Hr. simpl. apply HQ; [|done].
  split; simpl; [by apply evm_good_db|done|done|done|]. intros H1 H2. by apply Hs, Hro.
Qed.

(** *** The end of an instruction *)

Lemma exec_post_mk pops pushes rb v r e' pc' m' s' :
  frame_ok v → 0 <= rb v → data_ok r.1 → evm_ext byz (vm_evm v) e' → mem_ok m' →
  mem_Len m' = mem_Len (vm_mem v) → Forall nonneg s' →
  (r.2 = None → (length s' + pops = length (vm_stack v) + pushes)%nat) → 0 <= pc' <= code_len v + 32 →
  exec_post ctx pops pushes rb v r (mkVM e' pc' (vm_contract v) m' s').
Proof.
  intros Hv Hrb Hd He Hm Hml Hs Hl Hpc. pose proof (co_gas _ _ (fo_contract _ Hv)) as Hg. unfold gas_fits in Hg.
  split; simpl; try done; [apply same_contract_refl|lia].
Qed.
End steps.
