(* ===== verification/EvmExec.v ===== *)
(** * The instructions keep the invariant

    [exec_ok] for each instruction but the calls: it returns, pops and pushes what
    the table says, stays inside the memory and gives no gas back. *)

From stdpp Require Import base list gmap strings.
From Stdlib Require Import ZArith Lia.
From S2P Require Import Prelude Bytes Keccak KeccakFacts FsnTypes StateDB StateInterface.
From S2P Require Import EvmWord EvmAnalysis ChainConfig EvmMachine EvmGas EvmCall EvmOps Evm EvmArith EvmLaws EvmSafe.

(** The hypotheses of [exec_ok], for a frame of its parts. *)
Ltac exec_start :=
  let v := fresh "v" in
  intros v Hv Hl Hpc Hacc Hrb Hwr Hdm;
  destruct v as [e pc c m st];
  pose proof (fo_stack _ Hv) as Hst; pose proof (fo_mem _ Hv) as Hm; pose proof (fo_evm _ Hv) as He;
  pose proof (fo_contract _ Hv) as Hc; pose proof (fo_pc _ Hv) as Hp;
  cbv beta iota delta [vm_evm vm_pc vm_contract vm_mem vm_stack code_len] in Hl, Hpc, Hacc, Hrb, Hdm, Hst, Hm, He, Hc, Hp.

(** Takes the topmost item of the stack, which is not negative. *)
Tactic Notation "item" ident(x) :=
  let Hx := fresh "H" x in
  match goal with
  | H : Forall nonneg ?s |- _ =>
      is_var s; destruct s as [|x s]; [exfalso; simpl in *; lia|];
      apply Forall_cons in H as [Hx H]; unfold nonneg in Hx
  end.

(** One step of the program, by the rule for its first operation. *)
Ltac wp_step :=
  lazymatch goal with
  | |- wpI _ (_ ≫= _) _ _ => apply wpI_bind
  | |- wpI _ (mret _) _ _ => apply wpI_ret
  | |- wpI _ nothing _ _ => apply wpI_ret
  | |- wpI _ pop _ _ => eapply wpI_pop; [reflexivity|]
  | |- wpI _ (push _) _ _ => apply wpI_push
  | |- wpI _ peek _ _ => eapply wpI_Back; [reflexivity|]
  | |- wpI _ (Back _) _ _ => eapply wpI_Back; [reflexivity|]
  | |- wpI _ (set_peek _) _ _ => eapply wpI_set_peek; [reflexivity|]
  | |- wpI _ (i_gets _) _ _ => apply wpI_gets
  | |- wpI _ (i_modify _) _ _ => apply wpI_modify
  | |- wpI _ this _ _ => apply wpI_gets
  | |- wpI _ returnData _ _ => apply wpI_gets
  | |- wpI _ (i_lift _) _ _ => apply wpI_lift
  | |- wpI _ (i_evm _) _ _ => apply wpI_evm
  | |- wpI _ (i_db _) _ _ => apply wpI_evm
  end; cbv beta iota delta [vm_evm vm_pc vm_contract vm_mem vm_stack set_evm set_pc set_mem set_stack set_contract].
Ltac wp_steps := repeat wp_step.

(** The frame at the end. *)
Ltac exec_end :=
  cbv beta iota delta [vm_evm vm_pc vm_contract vm_mem vm_stack set_evm set_pc set_mem set_stack set_contract];
  apply exec_post_mk; cbn [fst snd vm_evm vm_pc vm_contract vm_mem vm_stack];
  [done|done|try apply data_ok_nil|first [assumption | by apply evm_ext_refl | idtac]|try done|try done|repeat constructor; try done|
   intros _; simpl in *; try lia|cbv beta iota delta [code_len vm_contract]; try lia].

(** The accesses of an instruction: the items with the offset and the length, or
    the offset and a length that is fixed. *)
Definition acc_at (i j : nat) (s : list Z) : list (Z * Z) :=
  match s !! i, s !! j with Some a, Some b => [(a, b)] | _, _ => [] end.
Definition acc_fix (i : nat) (n : Z) (s : list Z) : list (Z * Z) :=
  match s !! i with Some a => [(a, n)] | None => [] end.

(** The access of the instruction is inside the memory. *)
Ltac access :=
  match goal with
  | H : Forall (fits _) _ |- _ => unfold acc_at, acc_fix in H; simpl in H; apply Forall_inv in H
  end.

(** Jumping to a place that is no destination fails; looking the destinations up
    goes wrong only when two codes have the same hash. *)
Lemma has_ends_well (U : bytes → Prop) d h code dest :
  data_ok code → U code → code = [] ∨ h = keccak code → jumpdests_ok U d → 0 <= dest →
  ends_well U (has d h code dest) (fun r => jumpdests_ok U r.2 ∧ (r.1 = true → dest < Z.of_nat (length code))).
Proof.
  intros [Hb Hl] HU Hh Hd Hdest. destruct (codeBitmap_ok code Hl) as (bits & Hbm & Hseg). unfold has.
  pose proof (BitLen_le dest 62 ltac:(lia) Hdest) as Hbl.
  destruct (Z.leb_spec 63 (BitLen dest)) as [H63|H63]; [by simpl|].
  rewrite bigUint64_id by (unfold is_u64, two64; lia).
  destruct (Z.leb_spec (Z.of_nat (length code)) dest) as [Hle|Hlt]; simpl; [done|].
  destruct Hh as [-> | ->]; [simpl in Hlt; lia|].
  destruct (lookup_lt_is_Some_2 code (Z.to_nat dest)) as [op Hop]; [lia|].
  specialize (Hseg (Z.to_nat dest) ltac:(lia)). rewrite Z2Nat.id in Hseg by done.
  destruct (d !! keccak code) as [m|] eqn:Ed; simpl.
  - rewrite Hop. destruct (op =? JUMPDEST); [|done].
    destruct (Hd _ _ Ed) as (c & Hc & Hk & Hbc).
    destruct (decide (c = code)) as [-> | Hne]; [|destruct (codeSegment m dest) eqn:Es; simpl; [done|by exists c, code|]].
    + rewrite Hbm in Hbc. injection Hbc as <-. by rewrite Hseg.
    + unfold codeSegment in Es. by destruct (m !! _).
  - rewrite Hbm. simpl. rewrite Hop.
    assert (jumpdests_ok U (<[keccak code:=bits]> d)).
    { intros h m Hm. destruct (decide (h = keccak code)) as [-> | ].
      - rewrite lookup_insert_eq in Hm. injection Hm as <-. by exists code.
      - rewrite lookup_insert_ne in Hm by done. by apply Hd. }
    destruct (op =? JUMPDEST); [|done]. by rewrite Hseg.
Qed.

Section exec.
Context `{SL : StateLaws} (ctx : Context) (Hctx : ctx_ok ctx) (dmin : Z).
Local Notation exec_ok := (exec_ok ctx dmin).

(** ** Arithmetic *)

Lemma Exp_nonneg x y : 0 <= y → 0 <= Exp x y.
Proof. intros. rewrite Exp_correct by done. by apply encode_word. Qed.
Lemma Byte_nonneg x n : 0 <= Byte x 32 n.
Proof.
  unfold Byte, bigEndianByteAt. destruct (_ <=? _); [done|]. destruct (_ !! _); [|done].
  by apply Z.mod_pos_bound.
Qed.
Lemma flag_nonneg b : 0 <= flag b.
Proof. by destruct b. Qed.

Hint Resolve U256_nonneg Exp_nonneg Byte_nonneg flag_nonneg : core.
Ltac solve_nonneg := intros; cbv beta zeta; repeat case_match; auto with lia.

Lemma opAdd_ok : exec_ok opAdd 2 1 no_acc no_rb no_wr.
Proof. eapply binop_ok; [apply opAdd_fun|solve_nonneg]. Qed.
Lemma opSub_ok : exec_ok opSub 2 1 no_acc no_rb no_wr.
Proof. eapply binop_ok; [apply opSub_fun|solve_nonneg]. Qed.
Lemma opMul_ok : exec_ok opMul 2 1 no_acc no_rb no_wr.
Proof. eapply binop_ok; [apply opMul_fun|solve_nonneg]. Qed.
Lemma opDiv_ok : exec_ok opDiv 2 1 no_acc no_rb no_wr.
Proof. eapply binop_ok; [apply opDiv_fun|solve_nonneg]. Qed.
Lemma opSdiv_ok : exec_ok opSdiv 2 1 no_acc no_rb no_wr.
Proof. eapply binop_ok; [apply opSdiv_fun|solve_nonneg]. Qed.
Lemma opMod_ok : exec_ok opMod 2 1 no_acc no_rb no_wr.
Proof. eapply binop_ok; [apply opMod_fun|solve_nonneg]. Qed.
Lemma opSmod_ok : exec_ok opSmod 2 1 no_acc no_rb no_wr.
Proof. eapply binop_ok; [apply opSmod_fun|solve_nonneg]. Qed.
Lemma opExp_ok : exec_ok opExp 2 1 no_acc no_rb no_wr.
Proof. eapply binop_ok; [apply opExp_fun|solve_nonneg]. Qed.
Lemma opSignExtend_ok : exec_ok opSignExtend 2 1 no_acc no_rb no_wr.
Proof. eapply binop_ok; [apply opSignExtend_fun|solve_nonneg]. Qed.
Lemma opLt_ok : exec_ok opLt 2 1 no_acc no_rb no_wr.
Proof. eapply binop_ok; [apply opLt_fun|solve_nonneg]. Qed.
Lemma opGt_ok : exec_ok opGt 2 1 no_acc no_rb no_wr.
Proof. eapply binop_ok; [apply opGt_fun|solve_nonneg]. Qed.
Lemma opSlt_ok : exec_ok opSlt 2 1 no_acc no_rb no_wr.
Proof. eapply binop_ok; [apply opSlt_fun|solve_nonneg]. Qed.
Lemma opSgt_ok : exec_ok opSgt 2 1 no_acc no_rb no_wr.
Proof. eapply binop_ok; [apply opSgt_fun|solve_nonneg]. Qed.
Lemma opEq_ok : exec_ok opEq 2 1 no_acc no_rb no_wr.
Proof. eapply binop_ok; [apply opEq_fun|solve_nonneg]. Qed.
Lemma opAnd_ok : exec_ok opAnd 2 1 no_acc no_rb no_wr.
Proof. eapply binop_ok; [apply opAnd_fun|]. intros. apply Z.land_nonneg. auto. Qed.
Lemma opOr_ok : exec_ok opOr 2 1 no_acc no_rb no_wr.
Proof. eapply binop_ok; [apply opOr_fun|]. intros. apply Z.lor_nonneg. auto. Qed.
Lemma opXor_ok : exec_ok opXor 2 1 no_acc no_rb no_wr.
Proof. eapply binop_ok; [apply opXor_fun|]. intros. apply Z.lxor_nonneg. auto with lia. Qed.
Lemma opByte_ok : exec_ok opByte 2 1 no_acc no_rb no_wr.
Proof. eapply binop_ok; [apply opByte_fun|solve_nonneg]. Qed.
Lemma opSHL_ok : exec_ok opSHL 2 1 no_acc no_rb no_wr.
Proof. eapply binop_ok; [apply opSHL_fun|solve_nonneg]. Qed.
Lemma opSHR_ok : exec_ok opSHR 2 1 no_acc no_rb no_wr.
Proof. eapply binop_ok; [apply opSHR_fun|solve_nonneg]. Qed.
Lemma opSAR_ok : exec_ok opSAR 2 1 no_acc no_rb no_wr.
Proof. eapply binop_ok; [apply opSAR_fun|solve_nonneg]. Qed.
Lemma opNot_ok : exec_ok opNot 1 1 no_acc no_rb no_wr.
Proof. eapply unop_ok; [apply opNot_fun|solve_nonneg]. Qed.
Lemma opIszero_ok : exec_ok opIszero 1 1 no_acc no_rb no_wr.
Proof. eapply unop_ok; [apply opIszero_fun|solve_nonneg]. Qed.
Lemma opAddmod_ok : exec_ok opAddmod 3 1 no_acc no_rb no_wr.
Proof. eapply triop_ok; [apply opAddmod_fun|solve_nonneg]. Qed.
Lemma opMulmod_ok : exec_ok opMulmod 3 1 no_acc no_rb no_wr.
Proof. eapply triop_ok; [apply opMulmod_fun|solve_nonneg]. Qed.

(** ** The environment *)

Lemma opAddress_ok : exec_ok opAddress 0 1 no_acc no_rb no_wr.
Proof. eapply nullop_ok; [apply opAddress_fun|]. intros v Hv. apply (co_self _ _ (fo_contract _ Hv)). Qed.
Lemma opOrigin_ok : exec_ok (opOrigin ctx) 0 1 no_acc no_rb no_wr.
Proof. eapply nullop_ok; [apply opOrigin_fun|]. intros. apply Hctx. Qed.
Lemma opCaller_ok : exec_ok opCaller 0 1 no_acc no_rb no_wr.
Proof. eapply nullop_ok; [apply opCaller_fun|]. intros v Hv. apply (co_caller _ _ (fo_contract _ Hv)). Qed.
Lemma opCallDataSize_ok : exec_ok opCallDataSize 0 1 no_acc no_rb no_wr.
Proof. eapply nullop_ok; [apply opCallDataSize_fun|solve_nonneg]. Qed.
Lemma opCodeSize_ok : exec_ok opCodeSize 0 1 no_acc no_rb no_wr.
Proof. eapply nullop_ok; [apply opCodeSize_fun|solve_nonneg]. Qed.
Lemma opReturnDataSize_ok : exec_ok opReturnDataSize 0 1 no_acc no_rb no_wr.
Proof. eapply nullop_ok; [apply opReturnDataSize_fun|solve_nonneg]. Qed.
Lemma opGasprice_ok : exec_ok (opGasprice ctx) 0 1 no_acc no_rb no_wr.
Proof. eapply nullop_ok; [apply opGasprice_fun|]. intros. apply Hctx. Qed.
Lemma opCoinbase_ok : exec_ok (opCoinbase ctx) 0 1 no_acc no_rb no_wr.
Proof. eapply nullop_ok; [apply opCoinbase_fun|]. intros. apply Hctx. Qed.
Lemma opTimestamp_ok : exec_ok (opTimestamp ctx) 0 1 no_acc no_rb no_wr.
Proof. eapply nullop_ok; [apply opTimestamp_fun|solve_nonneg]. Qed.
Lemma opNumber_ok : exec_ok (opNumber ctx) 0 1 no_acc no_rb no_wr.
Proof. eapply nullop_ok; [apply opNumber_fun|solve_nonneg]. Qed.
Lemma opDifficulty_ok : exec_ok (opDifficulty ctx) 0 1 no_acc no_rb no_wr.
Proof. eapply nullop_ok; [apply opDifficulty_fun|solve_nonneg]. Qed.
Lemma opGasLimit_ok : exec_ok (opGasLimit ctx) 0 1 no_acc no_rb no_wr.
Proof. eapply nullop_ok; [apply opGasLimit_fun|solve_nonneg]. Qed.
Lemma opPc_ok : exec_ok opPc 0 1 no_acc no_rb no_wr.
Proof. eapply nullop_ok; [apply opPc_fun|]. intros v Hv. apply (fo_pc _ Hv). Qed.
Lemma opMsize_ok : exec_ok opMsize 0 1 no_acc no_rb no_wr.
Proof. eapply nullop_ok; [apply opMsize_fun|]. unfold mem_Len. solve_nonneg. Qed.
Lemma opGas_ok : exec_ok opGas 0 1 no_acc no_rb no_wr.
Proof. eapply nullop_ok; [apply opGas_fun|]. intros v Hv. apply (co_gas _ _ (fo_contract _ Hv)). Qed.
Lemma opBlockhash_ok : exec_ok (opBlockhash ctx) 1 1 no_acc no_rb no_wr.
Proof. eapply unop_ok; [apply opBlockhash_fun|]. intros x Hx. cbv beta. destruct (_ && _); [apply Hctx|done]. Qed.

Lemma opBalance_ok : exec_ok opBalance 1 1 no_acc no_rb no_wr.
Proof.
  exec_start. item x. unfold opBalance. wp_steps. apply (wpV_read ctx); [done|done|].
  intros r s Hext Hsame Hr Hb Hex. destruct (Hr eq_refl) as [-> Hnn]. wp_steps.
  eapply wpI_ptr; [reflexivity|]. wp_steps. exec_end.
Qed.
Lemma opCallValue_ok : exec_ok opCallValue 0 1 no_acc no_rb no_wr.
Proof.
  exec_start. unfold opCallValue. wp_steps. destruct (co_value _ _ Hc) as (x & Hx & Hnn).
  eapply wpI_ptr; [exact Hx|]. wp_steps. exec_end.
Qed.
Lemma opExtCodeSize_ok : exec_ok opExtCodeSize 1 1 no_acc no_rb no_wr.
Proof.
  exec_start. item x. unfold opExtCodeSize. wp_steps. apply (wpV_read ctx); [done|done|].
  intros r s Hext Hsame Hr Hb Hex. wp_steps. exec_end.
Qed.
Lemma opExtCodeHash_ok : exec_ok opExtCodeHash 1 1 no_acc no_rb no_wr.
Proof.
  exec_start. item x. unfold opExtCodeHash. wp_steps. apply (wpV_read ctx); [done|done|].
  intros r s Hext Hsame Hr Hb Hex. wp_steps. exec_end.
Qed.
Lemma opSload_ok : exec_ok opSload 1 1 no_acc no_rb no_wr.
Proof.
  exec_start. item x. unfold opSload. wp_steps. apply (wpV_read ctx); [done|done|].
  intros r s Hext Hsame Hr Hb Hex. wp_steps. exec_end.
Qed.
Lemma opPop_ok : exec_ok opPop 1 0 no_acc no_rb no_wr.
Proof. exec_start. item x. unfold opPop. wp_steps. exec_end. Qed.
Lemma opJumpdest_ok : exec_ok opJumpdest 0 0 no_acc no_rb no_wr.
Proof. exec_start. unfold opJumpdest. wp_steps. exec_end. Qed.
Lemma opStop_ok : exec_ok opStop 0 0 no_acc no_rb no_wr.
Proof. exec_start. unfold opStop. wp_steps. exec_end. Qed.

(** ** Memory *)

Lemma opSha3_ok : exec_ok (opSha3 ctx) 2 1 (acc_at 0 1) no_rb no_wr.
Proof.
  exec_start. item off. item len. access. unfold opSha3. do 5 wp_step.
  apply wpI_memory_Get; [done|done|done|exact Hacc|]. intros d Hd. wp_step. destruct (ctx_EnablePreimageRecording ctx).
  - wp_steps. apply (wpV_write ctx); [done|done|done|]. intros s Hext _. wp_steps. exec_end. apply keccak_nonneg.
  - wp_steps. exec_end. apply keccak_nonneg.
Qed.
Lemma opMload_ok : exec_ok opMload 1 1 (acc_fix 0 32) no_rb no_wr.
Proof.
  exec_start. item off. access. unfold opMload. do 3 wp_step.
  change 32 with (bigInt64 32). apply wpI_memory_Get; [done|done|done|exact Hacc|]. intros d Hd. wp_steps. exec_end.
  apply SetBytes_nonneg, Hd.
Qed.
Lemma opMstore_ok : exec_ok opMstore 2 0 (acc_fix 0 32) no_rb no_wr.
Proof.
  exec_start. item off. item val. access. unfold opMstore. do 5 wp_step.
  apply wpI_memory_Set32; [done|done|exact Hacc|]. intros m' Hm' Hlen. wp_steps. exec_end.
Qed.
Lemma opMstore8_ok : exec_ok opMstore8 2 0 (acc_fix 0 1) no_rb no_wr.
Proof.
  exec_start. item off. item val. access; apply fits_cases in Hacc as [|Hf]; [done|].
  pose proof (mem_len_bound m Hm). unfold opMstore8. wp_steps. rewrite (bigInt64_id off) by lia.
  destruct (Z.ltb_spec off 0), (Z.leb_spec (mem_Len m) off); try lia. simpl orb. cbv iota. wp_steps.
  assert (Hb : is_byte (Z.land (bigInt64 val) 255)).
  { change 255 with (Z.ones 8). rewrite Z.land_ones by lia. by apply Z.mod_pos_bound. }
  exec_end; unfold mem_Len; simpl; rewrite ?length_insert; try done.
  apply mem_ok_store; [done|apply Forall_insert; [apply Hm|done]|apply length_insert].
Qed.

Lemma opCallDataLoad_ok : exec_ok opCallDataLoad 1 1 no_acc no_rb no_wr.
Proof.
  exec_start. item x. unfold opCallDataLoad. do 5 wp_step.
  destruct (getDataBig_ok (ct_Input c) x 32) as (d & Hd & Hok & _); [apply Hc|done|lia|].
  wp_step. rewrite Hd. simpl ends_well. wp_steps. exec_end. apply SetBytes_nonneg, Hok.
Qed.

(** The copies. *)
Lemma copy_ok data memOff off len v (Q : bytes * option error → VM → Prop) :
  mem_ok (vm_mem v) → data_ok data → 0 <= memOff → 0 <= off → 0 <= len → fits (vm_mem v) (memOff, len) →
  (∀ m, mem_ok m → mem_Len m = mem_Len (vm_mem v) → Q ([], None) (set_mem m v)) →
  wpI st_codes (d ← i_lift (getDataBig data off len);
       _ ← memory_Set (bigUint64 memOff) (bigUint64 len) d; nothing) Q v.
Proof.
  intros Hm Hd Ho1 Ho2 Hlen Hf HQ. pose proof (fits_len _ _ _ Hm Ho1 Hlen Hf).
  destruct (getDataBig_ok data off len) as (d & Hr & [Hb _] & _); [done|done|lia|].
  apply wpI_bind, wpI_lift. rewrite Hr. simpl ends_well. apply wpI_bind, wpI_memory_Set; [done..|].
  intros m Hm' Hl'. apply wpI_ret. by apply HQ.
Qed.
Lemma opCallDataCopy_ok : exec_ok opCallDataCopy 3 0 (acc_at 0 2) no_rb no_wr.
Proof.
  exec_start. item a. item b. item n. access. unfold opCallDataCopy. do 8 wp_step.
  apply copy_ok; [done|apply Hc|done|done|done|exact Hacc|]. intros m' Hm' Hl'. exec_end.
Qed.
Lemma opCodeCopy_ok : exec_ok opCodeCopy 3 0 (acc_at 0 2) no_rb no_wr.
Proof.
  exec_start. item a. item b. item n. access. unfold opCodeCopy. do 8 wp_step.
  apply copy_ok; [done|apply Hc|done|done|done|exact Hacc|]. intros m' Hm' Hl'. exec_end.
Qed.
Lemma opExtCodeCopy_ok : exec_ok opExtCodeCopy 4 0 (acc_at 1 3) no_rb no_wr.
Proof.
  exec_start. item x. item a. item b. item n. access. unfold opExtCodeCopy. do 10 wp_step.
  apply (wpV_read ctx); [done|done|]. intros r s Hext Hsame [Hr _] Hb' Hex.
  apply copy_ok; [done|done|done|done|done|exact Hacc|]. intros m' Hm' Hl'. exec_end.
Qed.
Lemma opReturnDataCopy_ok : exec_ok opReturnDataCopy 3 0 (acc_at 0 2) no_rb no_wr.
Proof.
  exec_start. item a. item b. item n. access. unfold opReturnDataCopy. do 8 wp_step.
  pose proof (eg_return _ He) as [Hrb' Hrl]. pose proof (BitLen_le (b + n) 64 ltac:(lia) ltac:(lia)).
  destruct (Z.ltb_spec 64 (BitLen (b + n))); simpl orb; cbv iota; [wp_steps; exec_end; done|].
  destruct (Z.ltb_spec (Z.of_nat (length (in_returnData e))) (bigUint64 (b + n))) as [|Hin]; [wp_steps; exec_end; done|].
  rewrite bigUint64_id in Hin by (unfold is_u64, two64; lia). rewrite !(bigUint64_id b), (bigUint64_id (b + n)) by (unfold is_u64, two64; lia).
  destruct (slice_data_ok (in_returnData e) b (b + n)) as (d & Hd & [Hdb _] & _); [apply He|lia|done|].
  do 2 wp_step. rewrite Hd. simpl ends_well. wp_step.
  apply wpI_memory_Set; [done|done|done|done|exact Hacc|]. intros m' Hm' Hl'. wp_steps. exec_end.
Qed.

Lemma opSstore_ok : exec_ok opSstore 2 0 no_acc no_rb all_wr.
Proof.
  exec_start. item x. item y. unfold opSstore. wp_steps. apply (wpV_write ctx); [apply BigToHash_nonneg|done| |].
  - intros H1 H2. destruct (Hwr (conj H1 H2)). exact Logic.I.
  - intros s Hext _. wp_steps. exec_end.
Qed.

(** ** Control *)

Lemma evm_ext_jumpdests byz_ e d : evm_good e → jumpdests_ok st_codes d → evm_ext byz_ e (set_jumpdests d e).
Proof.
  intros He Hd. destruct He as [H1 H2 H3 H4 H5]. split; try done; simpl; [by apply law_ext_refl|].
  intros _ _. apply law_same_still, law_same_refl.
Qed.

Lemma jumpTo_ok pops pushes pos e pc c m st st0 :
  frame_ok (mkVM e pc c m st0) → 0 <= pos → Forall nonneg st → pc < Z.of_nat (length (ct_Code c)) →
  (length st + pops = length st0 + pushes)%nat →
  wpI st_codes (jumpTo pos) (exec_post ctx pops pushes no_rb (mkVM e pc c m st0)) (mkVM e pc c m st).
Proof.
  intros Hv Hpos Hst Hpc Hl. pose proof (fo_evm _ Hv) as He. pose proof (fo_contract _ Hv) as Hc.
  pose proof (fo_mem _ Hv) as Hm. pose proof (fo_pc _ Hv) as Hp. simpl in He, Hc, Hm, Hp.
  unfold jumpTo, validJump. do 7 wp_step.
  eapply ends_well_mono; [apply has_ends_well; [apply Hc|apply Hc|apply Hc|apply He|done]|].
  intros [b d] [Hd Hb]. cbn [fst snd] in *. wp_steps.
  destruct b; simpl negb; cbv iota; wp_steps; exec_end; try by apply evm_ext_jumpdests.
  specialize (Hb eq_refl). pose proof (co_code _ _ Hc) as [_ Hcl]. rewrite bigUint64_id by (unfold is_u64, two64; lia). lia.
Qed.

Lemma opJump_ok : exec_ok opJump 1 0 no_acc no_rb no_wr.
Proof. exec_start. item x. unfold opJump. do 2 wp_step. apply jumpTo_ok; simpl; try done; lia. Qed.
Lemma opJumpi_ok : exec_ok opJumpi 2 0 no_acc no_rb no_wr.
Proof.
  exec_start. item x. item y. unfold opJumpi. do 4 wp_step. pose proof (co_code _ _ Hc) as [_ Hcl].
  destruct (negb _); [apply jumpTo_ok; simpl; try done; lia|]. wp_steps. exec_end.
  rewrite u64_id by (unfold is_u64, two64; lia). lia.
Qed.

Lemma opReturn_ok : exec_ok opReturn 2 0 (acc_at 0 1) no_rb no_wr.
Proof.
  exec_start. item a. item n. access. unfold opReturn. do 5 wp_step.
  apply wpI_memory_GetPtr; [done|done|done|exact Hacc|]. intros d Hd. wp_steps. exec_end. done.
Qed.
Lemma opRevert_ok : exec_ok opRevert 2 0 (acc_at 0 1) no_rb no_wr.
Proof. apply opReturn_ok. Qed.
(** ** Families *)

Lemma makePush_ok n : 1 <= n <= 32 → exec_ok (makePush n n) 0 1 no_acc no_rb no_wr.
Proof.
  intros Hn. exec_start. pose proof (co_code _ _ Hc) as Hcode. pose proof Hcode as [_ Hcl].
  unfold makePush. do 4 wp_step. rewrite !u64_id by (unfold is_u64, two64; lia). rewrite i64_id by lia.
  set (lo := if _ <? _ then _ else _). set (hi := if _ <? _ then _ else _).
  assert (0 <= lo <= hi ∧ hi <= Z.of_nat (length (ct_Code c)) ∧ hi - lo <= n) as (H1 & H2 & H3).
  { unfold hi, lo. repeat case_match; rewrite ?Z.ltb_lt, ?Z.ltb_ge in *; lia. }
  destruct (slice_data_ok (ct_Code c) lo hi Hcode H1 H2) as (d & Hd & [Hdb _] & Hdl).
  do 2 wp_step. rewrite Hd. simpl ends_well. wp_steps. exec_end.
  apply SetBytes_nonneg, RightPadBytes_ok; [done|lia].
Qed.

Lemma makeDup_ok n : (1 <= n)%nat → exec_ok (makeDup n) n (n + 1) no_acc no_rb no_wr.
Proof.
  intros Hn. exec_start. destruct (lookup_lt_is_Some_2 st (n - 1)) as [x Hx]; [lia|].
  pose proof (Forall_lookup_1 _ _ _ _ Hst Hx) as Hx0. unfold makeDup, stack_dup. do 2 wp_step.
  eapply wpI_Back; [exact Hx|]. wp_steps. exec_end.
Qed.

Lemma makeSwap_ok n : (1 <= n)%nat → exec_ok (makeSwap n) (n + 1) (n + 1) no_acc no_rb no_wr.
Proof.
  intros Hn. exec_start. destruct (lookup_lt_is_Some_2 st n) as [y Hy]; [lia|].
  pose proof (Forall_lookup_1 _ _ _ _ Hst Hy) as Hy0. destruct st as [|x st]; [simpl in Hl; lia|].
  unfold makeSwap. wp_step. unfold wpI, stack_swap. cbn [vm_stack]. replace (n + 1 - 1)%nat with n by lia. rewrite Hy.
  cbn [ends_well fst snd]. wp_steps. exec_end.
  - apply Forall_insert; [apply Forall_insert; [done|]|done]. by apply Forall_cons in Hst as [Hx _].
  - by rewrite !length_insert.
Qed.

Lemma pop_topics_ok n st Q v :
  vm_stack v = st → (n <= length st)%nat → (∀ topics, Q topics (set_stack (drop n st) v)) →
  wpI st_codes (pop_topics n) Q v.
Proof.
  revert st Q v. induction n as [|n IH]; intros st Q v E Hl HQ; simpl.
  - apply wpI_ret. rewrite drop_0 in HQ. rewrite <- E in HQ. destruct v. apply HQ.
  - destruct st as [|x st]; [simpl in Hl; lia|]. apply wpI_bind. eapply wpI_pop; [exact E|].
    apply wpI_bind. apply (IH st); [done|simpl in Hl; lia|]. intros topics. apply wpI_ret. apply HQ.
Qed.

Lemma makeLog_ok n : exec_ok (makeLog ctx n) (n + 2) 0 (acc_at 0 1) no_rb all_wr.
Proof.
  exec_start. item a. item b. access. unfold makeLog. do 5 wp_step.
  apply (pop_topics_ok n st); [done|simpl in Hl; lia|]. intros topics. wp_step.
  apply wpI_memory_Get; [done|done|done|exact Hacc|]. intros d Hd. wp_steps. apply (wpV_write ctx); [done|done| |].
  - intros H1 H2. destruct (Hwr (conj H1 H2)). exact Logic.I.
  - intros s Hext _. wp_steps. exec_end; [by apply Forall_drop|]. rewrite length_drop. lia.
Qed.
End exec.

(** The instructions of the tables, by name. *)
Create HintDb evm discriminated.
#[export] Hint Constants Opaque : evm.
#[export] Hint Resolve opAdd_ok opSub_ok opMul_ok opDiv_ok opSdiv_ok opMod_ok opSmod_ok opExp_ok
  opSignExtend_ok opLt_ok opGt_ok opSlt_ok opSgt_ok opEq_ok opAnd_ok opOr_ok
  opXor_ok opByte_ok opSHL_ok opSHR_ok opSAR_ok opNot_ok opIszero_ok opAddmod_ok
  opMulmod_ok opAddress_ok opOrigin_ok opCaller_ok opCallDataSize_ok opCodeSize_ok opReturnDataSize_ok opGasprice_ok
  opCoinbase_ok opTimestamp_ok opNumber_ok opDifficulty_ok opGasLimit_ok opPc_ok opMsize_ok opGas_ok
  opBlockhash_ok opBalance_ok opCallValue_ok opExtCodeSize_ok opExtCodeHash_ok opSload_ok opPop_ok opJumpdest_ok
  opStop_ok opSha3_ok opMload_ok opMstore_ok opMstore8_ok opCallDataLoad_ok opCallDataCopy_ok opCodeCopy_ok
  opExtCodeCopy_ok opReturnDataCopy_ok opSstore_ok opJump_ok opJumpi_ok opReturn_ok opRevert_ok : evm.
