(* ===== verification/EvmPrice.v ===== *)
(** * The prices of the instructions are sound

    [gas_ok] for each gas function: it returns; a price is at least one unit,
    except for the instructions that halt; for a call it also pays for what the
    callee gets; and the memory that it was asked for is small enough. *)

From stdpp Require Import base list gmap strings.
From Stdlib Require Import ZArith Lia.
From S2P Require Import Prelude Bytes Keccak KeccakFacts FsnTypes StateDB StateInterface.
From S2P Require Import EvmWord EvmAnalysis ChainConfig EvmMachine EvmGas EvmCall EvmOps Evm EvmArith EvmLaws EvmSafe.

Section rules.
Context `{SL : StateLaws} (ctx : Context).
Local Notation wpG := (wpG st_codes).

Lemma wpG_add Q v x y : is_u64 x → is_u64 y → Q (inr errGasUintOverflow) v →
  (is_u64 (x + y) → Q (inl (x + y)) v) → wpG (g_add x y) Q v.
Proof.
  intros Hx Hy H1 H2. unfold g_add. rewrite SafeAdd_spec by done.
  destruct (Z.ltb_spec (x + y) two64); simpl; [|by apply wpG_fail].
  assert (is_u64 (x + y)) by (unfold is_u64 in *; lia). apply wpG_ret. rewrite u64_id by done. by apply H2.
Qed.
Lemma wpG_mul Q v x y : is_u64 x → is_u64 y → Q (inr errGasUintOverflow) v →
  (is_u64 (x * y) → Q (inl (x * y)) v) → wpG (g_mul x y) Q v.
Proof.
  intros Hx Hy H1 H2. unfold g_mul. rewrite SafeMul_spec by done.
  destruct (Z.ltb_spec (x * y) two64); simpl; [|by apply wpG_fail].
  assert (is_u64 (x * y)) by (unfold is_u64 in *; lia). apply wpG_ret. rewrite u64_id by done. by apply H2.
Qed.
Lemma bigUint64_u64 x : is_u64 (bigUint64 x).
Proof. apply Z.mod_pos_bound. done. Qed.
Lemma wpG_bigUint64 Q v x : Q (inr errGasUintOverflow) v → (∀ y, is_u64 y → Q (inl y) v) → wpG (g_bigUint64 x) Q v.
Proof.
  intros H1 H2. unfold g_bigUint64, vm_bigUint64. destruct (_ <? _); [by apply wpG_fail|].
  apply wpG_ret, H2, bigUint64_u64.
Qed.

Lemma toWordSize_spec x : is_u64 x → toWordSize x = (x + 31) / 32.
Proof.
  intros Hx. unfold toWordSize, max_u64. unfold is_u64, two64 in *. destruct (Z.ltb_spec (18446744073709551615 - 31) x).
  - change (18446744073709551615 / 32 + 1) with 576460752303423488.
    apply (Z.div_unique _ _ _ (x + 31 - 18446744073709551616)); lia.
  - by rewrite u64_id by (unfold is_u64, two64; lia).
Qed.
Lemma toWordSize_u64 x : is_u64 x → is_u64 (toWordSize x).
Proof.
  intros Hx. rewrite toWordSize_spec by done. unfold is_u64, two64 in *.
  split; [apply Z.div_pos; lia|]. apply Z.div_lt_upper_bound; lia.
Qed.

Lemma mem_Resize_ok m size : mem_ok m → (32 | size) → size <= 0xffffffffe0 → mem_ok (mem_Resize size m).
Proof.
  intros Hm Hd Hs. unfold mem_Resize. destruct (Z.ltb_spec (mem_Len m) size) as [Hlt|]; [|done].
  assert (mem_Len (mkMemory (mem_store m ++ replicate (Z.to_nat (size - mem_Len m)) 0) (lastGasCost m)) = size) as HL.
  { unfold mem_Len in *. simpl. rewrite length_app, length_replicate. lia. }
  split; rewrite ?HL; try done; simpl; [|apply Hm].
  apply Forall_app. split; [apply Hm|by apply Forall_replicate].
Qed.

(** Paying for memory: the price is whatever the machine computes, but the memory
    stays below the bound. *)
Lemma wpG_memory Q v size :
  mem_ok (vm_mem v) → is_u64 size → (32 | size) → Q (inr errGasUintOverflow) v →
  (∀ fee m, is_u64 fee → mem_store m = mem_store (vm_mem v) → mem_ok (mem_Resize size m) → Q (inl fee) (set_mem m v)) →
  wpG (memoryGasCost size) Q v.
Proof.
  intros Hm Hs Hd H1 H2. unfold EvmLaws.wpG, memoryGasCost.
  assert (∀ fee, is_u64 fee → mem_ok (mem_Resize size (vm_mem v)) → Q (inl fee) v) as H2'.
  { intros fee Hf Hr. destruct v. by apply (H2 fee _ Hf eq_refl). }
  destruct (Z.eqb_spec size 0) as [->|]; [apply H2'; [done|by apply mem_Resize_ok]|].
  destruct (Z.ltb_spec 0xffffffffe0 size); [done|]. destruct (_ <? _); simpl.
  - apply H2; [apply Z.mod_pos_bound; done|done|]. apply mem_Resize_ok; [|done|done].
    destruct Hm. split; try done. apply Z.mod_pos_bound. done.
  - apply H2'; [done|by apply mem_Resize_ok].
Qed.
End rules.

(** ** Tactics *)

Ltac gas_parts :=
  match goal with
  | Hv : frame_ok ?v |- _ =>
      is_var v; destruct v as [e pc c m st];
      pose proof (fo_stack _ Hv) as Hst; pose proof (fo_mem _ Hv) as Hm; pose proof (fo_evm _ Hv) as He;
      pose proof (fo_contract _ Hv) as Hc;
      cbv beta iota delta [vm_evm vm_pc vm_contract vm_mem vm_stack] in Hst, Hm, He, Hc
  end.
Ltac gas_start := intros v size Hv Hl Hs Hd Hwr; gas_parts; simpl in Hl.
Ltac gas_start_none := intros v Hv Hl Hwr; gas_parts; simpl in Hl.
(** Names the topmost item of the stack. *)
Ltac top x :=
  match goal with
  | H : Forall nonneg ?s |- _ =>
      is_var s; destruct s as [|x s]; [exfalso; simpl in *; lia|]; apply Forall_cons in H as [? H]
  end.

Definition rb_temp `{StateOps} (v : VM) : Z := callGasTemp (vm_evm v).
(** A call that transfers something gives its callee some gas. *)
Definition rb_call `{StateOps} (v : VM) : Z :=
  callGasTemp (vm_evm v) +
  match vm_stack v !! 2%nat with Some x => if x =? 0 then 0 else CallStipend | None => 0 end.

Section prices.
Context `{SL : StateLaws} (ctx : Context).
Local Notation wpG := (wpG st_codes).
Local Notation gas_ok := (gas_ok ctx).
Local Notation gas_ok_none := (gas_ok_none ctx).
Local Notation gas_post := (gas_post ctx).
Local Notation gt := (config_GasTable (ctx_chainConfig ctx) (ctx_BlockNumber ctx)).

Lemma gas_post_mk size free rb e pc c m st r e' m' :
  evm_ext (byz ctx) e e' → mem_store m' = mem_store m →
  (∀ cost, r = inl cost → is_u64 cost ∧ (free = false → rb (mkVM e' pc c m' st) + 1 <= cost) ∧ mem_ok (mem_Resize size m')) →
  gas_post size free rb (mkVM e pc c m st) r (mkVM e' pc c m' st).
Proof. by split. Qed.

Lemma gas_post_fail size free rb e pc c m st err e' m' :
  evm_ext (byz ctx) e e' → mem_store m' = mem_store m →
  gas_post size free rb (mkVM e pc c m st) (inr err) (mkVM e' pc c m' st).
Proof. intros H1 H2. by apply gas_post_mk. Qed.

(** *** Constant prices *)

Lemma const_ok g pops free rb wr : is_u64 g → (∀ v, rb v = 0) → (free = false → 1 <= g) →
  gas_ok_none (constGasFunc g) pops free rb wr.
Proof.
  intros Hg Hrb Hf. gas_start_none. apply wpG_ret. apply gas_post_mk; [by apply evm_ext_refl|done|].
  intros cost [= <-]. rewrite Hrb. split; [done|]. split; [intros; specialize (Hf ltac:(done)); lia|].
  apply mem_Resize_ok; [done|by exists 0|done].
Qed.

Lemma gasExp_ok wr : gas_ok_none (gasExp gt) 2 false no_rb wr.
Proof.
  gas_start_none. top x. top y. unfold gasExp. apply wpG_bind, wpG_lift. eapply wpI_Back; [reflexivity|].
  assert (is_u64 GasSlowStep) by done. pose proof (u64_range ((BitLen y + 7) / 8 * gt_ExpByte gt)) as Hu.
  apply wpG_add; [done|done|apply gas_post_fail; [by apply evm_ext_refl|done]|]. intros Hsum.
  apply gas_post_mk; [by apply evm_ext_refl|done|]. intros cost [= <-]. split; [done|].
  split; [|apply mem_Resize_ok; [done|by exists 0|done]]. unfold no_rb, GasSlowStep, is_u64 in *. lia.
Qed.

(** *** Memory *)

Lemma memory_free_ok pops wr : gas_ok memoryGasCost pops true no_rb wr.
Proof.
  gas_start. apply wpG_memory; [done..|apply gas_post_fail; [by apply evm_ext_refl|done]|].
  intros fee m' Hf Hst' Hm'. apply gas_post_mk; [by apply evm_ext_refl|done|]. intros cost [= <-]. by split.
Qed.

Lemma memoryAnd_ok base pops wr : is_u64 base → 1 <= base → gas_ok (memoryAnd base) pops false no_rb wr.
Proof.
  intros Hb Hb1. gas_start. unfold memoryAnd. apply wpG_bind.
  apply wpG_memory; [done..|apply gas_post_fail; [by apply evm_ext_refl|done]|].
  intros fee m' Hf Hst' Hm'. apply wpG_add; [done|done|apply gas_post_fail; [by apply evm_ext_refl|done]|]. intros Hsum.
  apply gas_post_mk; [by apply evm_ext_refl|done|]. intros cost [= <-]. split; [done|]. split; [|done].
  unfold no_rb, is_u64 in *. lia.
Qed.

(** A price for the memory, a fixed one and one for each unit of an item. *)
Lemma per_unit_ok (gas unit units : Z) size e pc c m st m' :
  is_u64 gas → is_u64 unit → is_u64 units → 1 <= gas → evm_good e → mem_store m' = mem_store m →
  mem_ok (mem_Resize size m') →
  wpG (w ← g_mul units unit; g_add gas w) (gas_post size false no_rb (mkVM e pc c m st)) (mkVM e pc c m' st).
Proof.
  intros Hg Hu Hn Hg1 He Hst Hm'. assert (evm_ext (byz ctx) e e) by by apply evm_ext_refl. apply wpG_bind.
  apply wpG_mul; [done|done|by apply gas_post_fail|]. intros Hw. apply wpG_add; [done|done|by apply gas_post_fail|].
  intros Hsum. apply gas_post_mk; [done|done|]. intros cost [= <-]. split; [done|]. split; [|done].
  unfold no_rb, is_u64 in *. lia.
Qed.
Ltac gas_fails := apply gas_post_fail; [first [assumption | by apply evm_ext_refl]|done].

(** The memory, and then a fixed price. *)
Lemma memory_then_ok (base size : Z) (k : Z → G Z) e pc c m st free rb :
  is_u64 base → 1 <= base → evm_good e → mem_ok m → is_u64 size → (32 | size) →
  (∀ gas m', is_u64 gas → base <= gas → mem_store m' = mem_store m → mem_ok (mem_Resize size m') →
     wpG (k gas) (gas_post size free rb (mkVM e pc c m st)) (mkVM e pc c m' st)) →
  wpG (gas ← memoryGasCost size; gas ← g_add gas base; k gas)
    (gas_post size free rb (mkVM e pc c m st)) (mkVM e pc c m st).
Proof.
  intros Hb Hb1 He Hm Hs Hd Hk. apply wpG_bind. apply wpG_memory; [done..|gas_fails|].
  intros fee m' Hf Hst' Hm'. apply wpG_bind. apply wpG_add; [done|done|gas_fails|]. intros Hsum.
  apply Hk; [done| |done|done]. unfold is_u64 in *. lia.
Qed.

Lemma copyGas_ok base back pops wr : is_u64 base → 1 <= base → (back < pops)%nat →
  gas_ok (copyGas base back) pops false no_rb wr.
Proof.
  intros Hb Hb1 Hback. gas_start. unfold copyGas. apply memory_then_ok; [done..|].
  intros gas m' Hg Hge Hst' Hm'. destruct (lookup_lt_is_Some_2 st back) as [x Hx]; [lia|].
  apply wpG_bind, wpG_lift. eapply wpI_Back; [exact Hx|]. apply wpG_bind. apply wpG_bigUint64; [gas_fails|].
  intros y Hy. apply per_unit_ok; [done|done|by apply toWordSize_u64|lia|done..].
Qed.

Lemma gasSha3_ok wr : gas_ok (gasSha3 gt) 2 false no_rb wr.
Proof.
  gas_start. top x. top y. unfold gasSha3. apply memory_then_ok; [done..|].
  intros gas m' Hg Hge Hst' Hm'. apply wpG_bind, wpG_lift. eapply wpI_Back; [reflexivity|].
  apply wpG_bind. apply wpG_bigUint64; [gas_fails|]. intros z Hz. unfold Sha3Gas in Hge.
  apply per_unit_ok; [done|done|by apply toWordSize_u64|lia|done..].
Qed.

Lemma makeGasLog_ok n wr : gas_ok (makeGasLog n gt) 2 false no_rb wr.
Proof.
  gas_start. top x. top y. unfold makeGasLog. apply wpG_bind, wpG_lift. eapply wpI_Back; [reflexivity|].
  apply wpG_bind. apply wpG_bigUint64; [gas_fails|]. intros z Hz. apply memory_then_ok; [done..|].
  intros gas m' Hg Hge Hst' Hm'. apply wpG_bind. pose proof (u64_range (n * LogTopicGas)) as Ht.
  apply wpG_add; [done|done|gas_fails|]. intros Hsum.
  apply per_unit_ok; [done..| |done|done|done]. unfold LogGas, is_u64 in *. lia.
Qed.

(** *** Storage *)

Lemma gasSStore_ok : IsConstantinople (ctx_chainConfig ctx) (ctx_BlockNumber ctx) = false →
  gas_ok_none (gasSStore ctx gt) 2 false no_rb all_wr.
Proof.
  intros Hno. gas_start_none. top x. top y. unfold gasSStore. rewrite Hno. simpl negb. cbv iota.
  do 2 (apply wpG_bind, wpG_lift; eapply wpI_Back; [reflexivity|]). apply wpG_bind, wpG_lift, wpI_gets.
  apply wpG_bind, wpG_lift, wpI_evm. apply (wpV_read ctx); [done|done|]. intros r s Hext _ _ _ _. cbn [vm_evm set_evm].
  assert (∀ g e', is_u64 g → 1 <= g → evm_ext (byz ctx) e e' →
    gas_post 0 false no_rb (mkVM e pc c m (x :: y :: st)) (inl g) (mkVM e' pc c m (x :: y :: st))) as Hend.
  { intros g e' Hg Hg1 He'. apply gas_post_mk; [done|done|]. intros cost [= <-]. unfold no_rb.
    split; [done|]. split; [lia|]. apply mem_Resize_ok; [done|by exists 0|done]. }
  unfold gasSStore_legacy. destruct (_ && _); [by apply wpG_ret, Hend|].
  destruct (_ && _); [|by apply wpG_ret, Hend]. apply wpG_bind, wpG_lift, wpI_evm.
  apply (wpV_write ctx); [done|apply Hext| |].
  - intros H1 H2. destruct (Hwr (conj H1 H2)). exact Logic.I.
  - intros s' Hext' _. apply wpG_ret, Hend; [done|done|]. by eapply evm_ext_trans.
Qed.
(** *** Calls *)

Lemma evm_ext_temp byz_ e e' t : evm_ext byz_ e e' → is_u64 t → evm_ext byz_ e (set_callGasTemp t e').
Proof. intros [[] ? ? ? ?] Ht. by split. Qed.

Lemma callGas_u64 available base cost temp : callGas gt available base cost = inl temp → is_u64 temp.
Proof.
  unfold callGas. repeat case_match; intros [= <-]; apply u64_range.
Qed.

Lemma withCallGas_ok gas rest (rb : VM → Z) size e pc c m st e' m' :
  is_u64 gas → rest + 1 <= gas → (∀ v, vm_stack v = st → rb v = callGasTemp (vm_evm v) + rest) →
  (1 <= length st)%nat → evm_ext (byz ctx) e e' →
  mem_store m' = mem_store m → mem_ok (mem_Resize size m') →
  wpG (withCallGas gt gas) (gas_post size false rb (mkVM e pc c m st)) (mkVM e' pc c m' st).
Proof.
  intros Hg Hrest Hrb Hl He Hst Hm. destruct st as [|x st]; [simpl in Hl; lia|]. unfold withCallGas.
  apply wpG_bind, wpG_lift, wpI_gets. apply wpG_bind, wpG_lift. eapply wpI_Back; [reflexivity|].
  apply wpG_bind, wpG_lift, wpI_evm, wpV_modify. apply wpG_bind, wpG_try. cbn [vm_contract vm_evm set_evm].
  destruct (callGas _ _ _ _) as [temp|err] eqn:Ec; [|apply gas_post_fail; [by apply evm_ext_temp|done]].
  apply callGas_u64 in Ec. assert (evm_ext (byz ctx) e (set_callGasTemp temp e')) by by apply evm_ext_temp.
  apply wpG_add; [done|done|by apply gas_post_fail|]. intros Hsum. apply gas_post_mk; [done|done|].
  intros cost [= <-]. split; [done|]. split; [|done]. intros _. rewrite Hrb by done. simpl. lia.
Qed.

(** The price of the memory is added to what the call costs. *)
Lemma call_price_ok gas rest (rb : VM → Z) size e pc c m st e' :
  is_u64 gas → rest + 1 <= gas → (∀ v, vm_stack v = st → rb v = callGasTemp (vm_evm v) + rest) →
  (1 <= length st)%nat → evm_ext (byz ctx) e e' → mem_ok m → is_u64 size → (32 | size) →
  wpG (memoryGas ← memoryGasCost size; gas ← g_add gas memoryGas; withCallGas gt gas)
    (gas_post size false rb (mkVM e pc c m st)) (mkVM e' pc c m st).
Proof.
  intros Hg Hrest Hrb Hl He Hm Hs Hd. apply wpG_bind. apply wpG_memory; [done..|by apply gas_post_fail|].
  intros fee m' Hf Hst' Hm'. apply wpG_bind. apply wpG_add; [done|done|by apply gas_post_fail|]. intros Hsum.
  apply (withCallGas_ok _ rest); try done. unfold is_u64 in *. lia.
Qed.

Lemma temp_price_ok pops wr : (1 <= pops)%nat →
  gas_ok (fun size => gas ← memoryGasCost size; gas ← g_add gas (gt_Calls gt); withCallGas gt gas) pops false rb_temp wr.
Proof.
  intros Hp. gas_start. pose proof (config_prices_ok (ctx_chainConfig ctx) (ctx_BlockNumber ctx)) as (_ & _ & _ & _ & _ & Hcalls & _).
  apply memory_then_ok; [unfold is_u64, two64; lia|lia|done..|]. intros gas m' Hg Hge Hst' Hm'.
  apply (withCallGas_ok _ 0); [done|lia| |lia|by apply evm_ext_refl|done|done]. intros. unfold rb_temp. lia.
Qed.
Lemma gasDelegateCall_ok wr : gas_ok (gasDelegateCall gt) 6 false rb_temp wr.
Proof. apply temp_price_ok. lia. Qed.
Lemma gasStaticCall_ok wr : gas_ok (gasStaticCall gt) 6 false rb_temp wr.
Proof. apply temp_price_ok. lia. Qed.

(** What a transfer adds to the price covers what it gives to the callee. *)
Lemma transfer_price (gas value : Z) : 40 <= gas <= 30000 →
  let rest := if value =? 0 then 0 else CallStipend in
  let gas' := if negb (bigSign value =? 0) then u64 (gas + CallValueTransferGas) else gas in
  is_u64 gas' ∧ rest + 1 <= gas'.
Proof.
  intros Hg. assert ((bigSign value =? 0) = (value =? 0)) as Hsgn by by destruct value.
  simpl. rewrite Hsgn. destruct (value =? 0); simpl; unfold is_u64, two64; [lia|].
  unfold CallValueTransferGas, CallStipend. rewrite u64_id by (unfold is_u64, two64; lia). lia.
Qed.

Lemma gasCallCode_ok wr : gas_ok (gasCallCode gt) 7 false rb_call wr.
Proof.
  gas_start. pose proof (config_prices_ok (ctx_chainConfig ctx) (ctx_BlockNumber ctx)) as (_ & _ & _ & _ & _ & Hcalls & _).
  top x. top y. top z. unfold gasCallCode. apply wpG_bind, wpG_lift. eapply wpI_Back; [reflexivity|].
  destruct (transfer_price (gt_Calls gt) z ltac:(lia)) as [HA HB].
  eapply call_price_ok; [exact HA|exact HB| |simpl; lia|by apply evm_ext_refl|done..].
  intros v' Hv'. unfold rb_call. by rewrite Hv'.
Qed.

Lemma gasCall_ok wr : gas_ok (gasCall ctx gt) 7 false rb_call wr.
Proof.
  gas_start. pose proof (config_prices_ok (ctx_chainConfig ctx) (ctx_BlockNumber ctx)) as (_ & _ & _ & _ & _ & Hcalls & _).
  top x. top y. top z. unfold gasCall. do 2 (apply wpG_bind, wpG_lift; eapply wpI_Back; [reflexivity|]).
  assert (∀ (b : bool) e', evm_ext (byz ctx) e e' →
    wpG (memoryGas ← memoryGasCost size;
         gas ← g_add (let gas := if b then u64 (gt_Calls gt + CallNewAccountGas) else gt_Calls gt in
                      if negb (bigSign z =? 0) then u64 (gas + CallValueTransferGas) else gas) memoryGas;
         withCallGas gt gas)
      (gas_post size false rb_call (mkVM e pc c m (x :: y :: z :: st))) (mkVM e' pc c m (x :: y :: z :: st))) as Hrest.
  { intros b e' He'. destruct (transfer_price (if b then u64 (gt_Calls gt + CallNewAccountGas) else gt_Calls gt) z) as [H1' H2'].
    { unfold CallNewAccountGas. destruct b; [rewrite u64_id by (unfold is_u64, two64; lia)|]; lia. }
    eapply call_price_ok; [exact H1'|exact H2'| |simpl; lia|done..]. intros v' Hv'. unfold rb_call. by rewrite Hv'. }
  apply wpG_bind, wpG_lift. destruct (IsEIP158 _ _).
  - destruct (negb (bigSign z =? 0)) eqn:Eb; [|by apply wpI_ret, (Hrest false), evm_ext_refl]. apply wpI_evm.
    apply (wpV_read ctx); [done|done|]. intros r s Hext _ _ _ _. by apply Hrest.
  - apply wpI_bind, wpI_evm. apply (wpV_read ctx); [done|done|]. intros r s Hext _ _ _ _. apply wpI_ret. by apply Hrest.
Qed.

(** *** SELFDESTRUCT *)

Lemma suicide_creates_ok a b (Q : bool → VM → Prop) v :
  evm_good (vm_evm v) → (∀ r e, evm_ext (byz ctx) (vm_evm v) e → Q r (set_evm e v)) →
  wpI st_codes (suicide_creates ctx a b) Q v.
Proof.
  intros He HQ. unfold suicide_creates. destruct (IsEIP158 _ _).
  - apply wpI_bind, wpI_evm. apply (wpV_read ctx); [done|done|]. intros r s Hext _ _ _ _.
    destruct r; [|by apply wpI_ret, HQ]. apply wpI_bind, wpI_evm. apply (wpV_read ctx); [done|apply Hext|].
    intros r s' Hext' _ Hr _ _. destruct (Hr eq_refl) as [-> _]. apply wpI_bind, wpI_ret, wpI_ret.
    destruct v. apply (HQ _ _). by eapply evm_ext_trans.
  - apply wpI_bind, wpI_evm. apply (wpV_read ctx); [done|done|]. intros r s Hext _ _ _ _. by apply wpI_ret, HQ.
Qed.

Lemma gasSuicide_ok : gas_ok_none (gasSuicide ctx gt) 1 true no_rb all_wr.
Proof.
  gas_start_none. top x. unfold gasSuicide. apply wpG_bind, wpG_lift, wpI_gets.
  pose proof (config_prices_ok (ctx_chainConfig ctx) (ctx_BlockNumber ctx)) as (_ & _ & _ & _ & _ & _ & Hsu & _ & Hcb).
  assert (∀ g e', is_u64 g → evm_ext (byz ctx) e e' →
    wpG (suicided ← g_lift (i_db (IHasSuicided (ct_self c)));
         _ ← g_lift (if suicided : bool then mret () else i_db (IAddRefund SuicideRefundGas)); mret g)
      (gas_post 0 true no_rb (mkVM e pc c m (x :: st))) (mkVM e' pc c m (x :: st))) as Hrest.
  { intros g e' Hg He'. apply wpG_bind, wpG_lift, wpI_evm. apply (wpV_read ctx); [done|apply He'|]. intros r s Hext _ _ _ _.
    assert (evm_ext (byz ctx) e (set_edb s e')) as Hx by by eapply evm_ext_trans.
    assert (∀ e', evm_ext (byz ctx) e e' → gas_post 0 true no_rb (mkVM e pc c m (x :: st)) (inl g) (mkVM e' pc c m (x :: st))) as Hend.
    { intros e2 He2. apply gas_post_mk; [done|done|]. intros cost [= <-]. split; [done|]. split; [done|].
      apply mem_Resize_ok; [done|by exists 0|done]. }
    apply wpG_bind, wpG_lift. destruct r; [by apply wpI_ret, wpG_ret, Hend|]. apply wpI_evm.
    apply (wpV_write ctx); [done|apply Hx| |].
    - intros H1 H2. destruct Hwr; [|exact Logic.I]. split; [done|]. simpl. by rewrite <- (ee_readOnly _ _ _ Hx).
    - intros s' Hext' _. apply wpG_ret, Hend. by eapply evm_ext_trans. }
  apply wpG_bind. destruct (IsEIP150 _ _); [|by apply wpG_ret, Hrest, evm_ext_refl].
  apply wpG_bind, wpG_lift. eapply wpI_Back; [reflexivity|]. apply wpG_bind, wpG_lift.
  apply suicide_creates_ok; [done|]. intros r e' He'. apply wpG_ret, Hrest; [|done].
  destruct r; [apply u64_range|]. unfold is_u64, two64. lia.
Qed.
End prices.
