(* ===== verification/EvmCallOk.v ===== *)
(** * Calls and creations are safe

    What [Call], [CallCode], [DelegateCall], [StaticCall] and [create] guarantee
    when the interpreter guarantees [run_ok]: they return, no more gas comes back
    than was given, and a call that fails leaves the state as it was. *)

From stdpp Require Import base list gmap strings.
From Stdlib Require Import ZArith Lia.
From S2P Require Import Prelude Bytes Keccak KeccakFacts FsnTypes StateDB StateInterface.
From S2P Require Import EvmWord EvmAnalysis ChainConfig EvmMachine EvmGas EvmCall EvmOps Evm EvmArith EvmLaws EvmSafe.

Section calls.
Context `{SL : StateLaws} `{PC : Precompiles} (ctx : Context) (dmin : Z).
Local Notation wpV := (wpV st_codes).
Local Notation byz := (byz ctx).
Local Notation evm_ext := (evm_ext byz).

(** ** What is relied on, and what is promised *)

(** The precompiled contracts have a price, and return when it is one that can be
    paid. *)
Definition precompiles_ok : Prop := ∀ a p, precompiles ctx a = Some p → ∀ input, data_ok input →
  ∃ g, RequiredGas p input = Done g ∧ 0 <= g ∧
    (g <= maxGas → ∃ r err, precompiled_Run p input = Done (r, err) ∧ data_ok r).

Record run_post (c : Contract) (readOnly : bool) (e : EVM) (r : ran) (e' : EVM) : Prop := {
  rp_ret : data_ok r.1.1;
  rp_gas : 0 <= r.2 <= ct_Gas c;
  rp_ext : evm_ext e e';
  rp_still : byz = true → readOnly = true → st_still (evm_db e) (evm_db e');
}.
(** The interpreter runs good contracts, from the depth [dmin] on. *)
Definition run_ok (R : Contract → bytes → bool → V ran) : Prop := ∀ c input readOnly e,
  contract_ok st_codes c → data_ok input → evm_good e → dmin <= evm_depth e <= CallCreateDepth →
  wpV (R c input readOnly) (run_post c readOnly e) e.

Record call_post (gas : Z) (e : EVM) (r : called) (e' : EVM) : Prop := {
  cp_ret : data_ok r.1.1;
  cp_gas : 0 <= r.1.2 <= gas;
  cp_ext : evm_ext e e';
  cp_same : r.2 ≠ None → st_same (evm_db e) (evm_db e');
}.

Definition caller_ok (caller : ContractRef) : Prop :=
  match caller with AccountRef a => 0 <= a | ContractOf c => contract_ok st_codes c end.

Lemma caller_nonneg caller : caller_ok caller → 0 <= ref_Address caller.
Proof. destruct caller; simpl; [done|]. by intros []. Qed.

(** ** The steps *)

Lemma evm_ext_db e s e' : evm_ext e e' → st_ok s → st_ext (evm_db e) s → st_same (evm_db e) s →
  evm_ext e (set_edb s e').
Proof. intros [[] X D R S] Hs Hx Hsame. split; try done. intros _ _. by apply law_same_still. Qed.

Lemma wpV_Snapshot Q e : evm_good e →
  (∀ id s, evm_ext e (set_edb s e) → st_same (evm_db e) s →
     (∀ a, st_bal s a = st_bal (evm_db e) a) → (∀ a, st_exists s a = st_exists (evm_db e) a) →
     (∀ e2 (Q' : unit → EVM → Prop), evm_ext (set_edb s e) e2 →
        (∀ s3, evm_ext e (set_edb s3 e2) → st_same (evm_db e) s3 → Q' tt (set_edb s3 e2)) →
        wpV (v_state (sdb_RevertToSnapshot id)) Q' e2) →
     Q id (set_edb s e)) →
  wpV (v_state sdb_Snapshot) Q e.
Proof.
  intros He HQ. destruct (law_snapshot (evm_db e)) as (id & s & Hr & Hok & Hx & Hs & Hb & Hex & Hrev); [apply He|].
  unfold EvmLaws.wpV, v_state. rewrite Hr. simpl.
  assert (evm_ext e (set_edb s e)) as Hext by (apply evm_ext_db; [by apply evm_ext_refl|done..]).
  apply HQ; [done..|]. intros e2 Q' He2 HQ'.
  destruct (Hrev (evm_db e2)) as (s3 & Hr3 & Hok3 & Hx3 & Hs3); [apply He2|apply He2|].
  unfold EvmLaws.wpV, v_state. rewrite Hr3. simpl. apply HQ'; [|done]. apply evm_ext_db; [|done..]. by eapply evm_ext_trans.
Qed.

Lemma wpV_withCode addr c Q e : evm_good e →
  (∀ s hash code, evm_ext e (set_edb s e) → st_same (evm_db e) s → data_ok code → st_codes code →
     code = [] ∨ hash = keccak code → Q (SetCallCode (Some addr) hash code c) (set_edb s e)) →
  wpV (withCode addr c) Q e.
Proof.
  intros He HQ. destruct (law_read (IGetCodeHash addr) (evm_db e) eq_refl) as (h & s1 & E1 & Hok1 & Hx1 & Hs1 & _); [apply He|].
  destruct (law_read (IGetCode addr) s1 eq_refl Hok1) as (code & s2 & E2 & Hok2 & Hx2 & Hs2 & [Hc1 Hc2] & _).
  pose proof (law_code_hash addr _ _ _ _ _ (eg_db _ He) E1 E2) as Hh.
  unfold withCode. apply wpV_bind. unfold EvmLaws.wpV, v_db, v_state. rewrite E1. simpl.
  apply (wpV_bind st_codes). unfold EvmLaws.wpV. cbn [evm_db set_edb]. rewrite E2. simpl. apply (HQ s2); [|by eapply law_same_trans|done..].
  apply evm_ext_db; [by apply evm_ext_refl|done|by eapply law_ext_trans|by eapply law_same_trans].
Qed.

Lemma wpV_newJumpdests caller Q e : evm_good e →
  (∀ d, jumpdests_ok st_codes d → Q tt (set_jumpdests d e)) → wpV (newJumpdests caller) Q e.
Proof.
  intros He HQ. destruct caller; simpl.
  - apply wpV_modify, HQ. intros h m Hm. by rewrite lookup_empty in Hm.
  - apply wpV_ret. destruct e. apply HQ, He.
Qed.

Lemma wpV_CanTransfer addr amount Q e : evm_good e →
  (∀ b s, evm_ext e (set_edb s e) → st_same (evm_db e) s → (∀ a, st_bal s a = st_bal (evm_db e) a) →
     (b = true → amount <= st_bal s addr) → Q b (set_edb s e)) →
  wpV (CanTransfer addr amount) Q e.
Proof.
  intros He HQ. apply wpV_bind. apply (wpV_read ctx); [done|done|]. intros r s Hext Hsame Hr Hb Hex.
  destruct (Hr eq_refl) as [-> Hpos]. apply wpV_bind, wpV_ret, wpV_ret. apply HQ; [done..|].
  rewrite Hb. intros Hle%Z.leb_le. pose proof (bigCmp_lt (st_bal (evm_db e) addr) amount). lia.
Qed.

Lemma wpV_Transfer a b amount Q e : evm_good e → 0 <= amount <= st_bal (evm_db e) a →
  (byz = true → in_readOnly e = true → amount = 0) →
  (∀ s, evm_ext e (set_edb s e) → Q tt (set_edb s e)) → wpV (Transfer a b amount) Q e.
Proof.
  intros He Ha Hro HQ. apply wpV_bind. apply (wpV_write ctx); [done|done|done|]. intros s Hext _.
  apply (wpV_write ctx); [split; [done|lia]|apply Hext|done|]. intros s' Hext' _. apply (HQ s'). by eapply evm_ext_trans.
Qed.

Lemma wpV_prepareAccount addr value Q e : evm_good e →
  (∀ b s, evm_ext e (set_edb s e) → (b = false → st_same (evm_db e) s) →
     (∀ a, st_bal s a = st_bal (evm_db e) a) → Q b (set_edb s e)) →
  wpV (prepareAccount ctx addr value) Q e.
Proof.
  intros He HQ. apply wpV_bind. apply (wpV_read ctx); [done|done|]. intros r s Hext Hsame Hr Hb Hex. simpl in Hr.
  destruct r; [by apply wpV_ret, HQ|]. destruct (_ && _); [by apply wpV_ret, HQ|].
  apply wpV_bind. apply (wpV_write ctx); [done|apply Hext| |].
  - intros _ _. simpl. by rewrite Hex.
  - intros s' Hext' Hb'. apply wpV_ret. apply (HQ true s'); [by eapply evm_ext_trans|done|].
    intros a. rewrite <- Hb. apply Hb'.
Qed.
(** ** Running a contract *)

Section with_interpreter.
Context (R : Contract → bytes → bool → V ran) (HR : run_ok R) (HP : precompiles_ok).

Lemma run_good c input readOnly e :
  contract_ok st_codes c → data_ok input → evm_good e → dmin <= evm_depth e <= CallCreateDepth →
  wpV (run ctx R c input readOnly) (run_post c readOnly e) e.
Proof.
  intros Hc Hi He Hd. unfold run. destruct (ct_CodeAddr c) as [a|]; [|by apply HR].
  destruct (precompiles ctx a) as [p|] eqn:Ep; [|by apply HR].
  destruct (HP a p Ep input Hi) as (g & Hgas & Hg & Hrun). pose proof (co_gas _ _ Hc) as Hcg. unfold gas_fits in Hcg.
  assert (evm_ext e e) by by apply evm_ext_refl.
  assert (st_still (evm_db e) (evm_db e)) as Hstill by apply law_same_still, law_same_refl.
  unfold RunPrecompiledContract. apply wpV_bind, wpV_lift. rewrite Hgas. simpl. unfold UseGas.
  destruct (Z.ltb_spec (ct_Gas c) g).
  - apply wpV_ret. split; simpl; auto; [apply data_ok_nil|]. lia.
  - destruct Hrun as (r & err & Hr & Hok); [lia|]. apply wpV_bind, wpV_lift. rewrite Hr. simpl. apply wpV_ret.
    split; simpl; auto. lia.
Qed.

(** Running and then keeping or dropping the changes. *)
Lemma run_finish_ok id c input readOnly gas e0 e :
  contract_ok st_codes c → data_ok input → ct_Gas c = gas → dmin <= evm_depth e0 <= CallCreateDepth →
  evm_ext e0 e →
  (∀ e2 (Q' : unit → EVM → Prop), evm_ext e e2 →
     (∀ s3, evm_ext e0 (set_edb s3 e2) → st_same (evm_db e0) s3 → Q' tt (set_edb s3 e2)) →
     wpV (v_state (sdb_RevertToSnapshot id)) Q' e2) →
  wpV (r ← run ctx R c input readOnly; finish id r)
    (fun r e' => call_post gas e0 r e' ∧
       (byz = true → readOnly = true → st_still (evm_db e0) (evm_db e) → st_still (evm_db e0) (evm_db e'))) e.
Proof.
  intros Hc Hi Hg Hd Hx Hrev. apply wpV_bind. eapply wpV_mono.
  { apply run_good; [done|done|apply Hx|]. by rewrite (ee_depth _ _ _ Hx). }
  intros [[ret err] left] e2 [Hret Hleft Hext Hstill]. simpl in *. subst gas. unfold finish.
  destruct err as [err|].
  - apply wpV_bind, Hrev; [done|]. intros s3 Hx3 Hs3. apply wpV_ret. split; [|intros; by apply law_same_still].
    split; simpl; auto. destruct (bool_decide _); lia.
  - apply wpV_ret. split; [|intros; eapply law_still_trans; eauto]. split; simpl; [done|done|by eapply evm_ext_trans|done].
Qed.

(** A call that ends before it runs anything. *)
Lemma called_early gas e (err : option error) e' :
  gas_fits gas → evm_ext e e' → st_same (evm_db e) (evm_db e') → call_post gas e ([], gas, err) e'.
Proof. intros Hg Hx Hs. split; simpl; [apply data_ok_nil|unfold gas_fits, is_u64 in *; lia|done|done]. Qed.
Lemma called_nothing gas e (err : option error) : gas_fits gas → evm_good e → call_post gas e ([], gas, err) e.
Proof. intros Hg He. apply called_early; [done|by apply evm_ext_refl|apply law_same_refl]. Qed.

Lemma contract_made caller object addr hash code value gas : caller_ok caller → 0 <= object → gas_fits gas →
  0 <= value → data_ok code → st_codes code → code = [] ∨ hash = keccak code →
  contract_ok st_codes (SetCallCode (Some addr) hash code (NewContract caller object (Some value) gas)).
Proof.
  intros Hc Ho Hg Hv H1 H2 H3. split; simpl; try done; [by exists value|by apply caller_nonneg].
Qed.

Lemma evm_ext_set_jumpdests e e' d : evm_ext e e' → jumpdests_ok st_codes d → evm_ext e (set_jumpdests d e').
Proof. intros [[] ? ? ? ?] Hd. by split. Qed.
(** ** The calls *)

(** The part after the account is there: the code is fetched and run. *)
Lemma run_code_ok id caller object addr input readOnly gas value e0 e :
  caller_ok caller → 0 <= object → data_ok input → gas_fits gas → 0 <= value →
  dmin <= evm_depth e0 <= CallCreateDepth → evm_ext e0 e →
  (∀ e2 (Q' : unit → EVM → Prop), evm_ext e e2 →
     (∀ s3, evm_ext e0 (set_edb s3 e2) → st_same (evm_db e0) s3 → Q' tt (set_edb s3 e2)) →
     wpV (v_state (sdb_RevertToSnapshot id)) Q' e2) →
  wpV (_ ← newJumpdests caller;
       c ← withCode addr (NewContract caller object (Some value) gas);
       r ← run ctx R c input readOnly; finish id r)
    (fun r e' => call_post gas e0 r e' ∧
       (byz = true → readOnly = true → st_still (evm_db e0) (evm_db e) → st_still (evm_db e0) (evm_db e'))) e.
Proof.
  intros Hcl Ho Hi Hg Hv Hd Hx Hrev. apply wpV_bind, wpV_newJumpdests; [apply Hx|]. intros d Hdok.
  pose proof (evm_ext_set_jumpdests e e d (evm_ext_refl _ _ (ee_good _ _ _ Hx)) Hdok) as Hx1.
  apply wpV_bind, wpV_withCode; [apply Hx1|]. intros s h code Hx2 Hs Hc1 Hc2 Hc3.
  assert (evm_ext e (set_edb s (set_jumpdests d e))) as Hx3 by by eapply evm_ext_trans.
  eapply wpV_mono; [apply (run_finish_ok id _ input readOnly gas e0)|].
  - by apply contract_made.
  - done.
  - done.
  - done.
  - by eapply evm_ext_trans.
  - intros e2 Q' He2 HQ'. apply Hrev; [by eapply evm_ext_trans|done].
  - intros r e' [Hp Hst]. split; [done|]. intros Hb Hr Hstill. apply Hst; [done|done|].
    eapply law_still_trans; [exact Hstill|]. by apply law_same_still.
Qed.

(** In read-only mode nothing may be transferred. *)
Lemma Call_ok caller addr input gas value e :
  caller_ok caller → 0 <= addr → data_ok input → gas_fits gas → 0 <= value → evm_good e → dmin <= evm_depth e →
  (byz = true → in_readOnly e = true → value = 0) →
  wpV (Call ctx R caller addr input gas value) (call_post gas e) e.
Proof.
  intros Hcl Ha Hi Hg Hv He Hd Hro. unfold Call. apply wpV_bind, wpV_gets.
  destruct (_ && _); [by apply wpV_ret, called_nothing|].
  destruct (Z.ltb_spec CallCreateDepth (evm_depth e)); [by apply wpV_ret, called_nothing|].
  apply wpV_bind, wpV_CanTransfer; [done|]. intros b s Hx Hs Hb Hle.
  destruct b; [|by apply wpV_ret, called_early]. specialize (Hle eq_refl). simpl negb. cbv iota.
  apply wpV_bind, wpV_Snapshot; [apply Hx|]. intros id s1 Hx1 Hs1 Hb1 _ Hrev.
  apply wpV_bind, wpV_prepareAccount; [apply Hx1|]. intros go s2 Hx2 Hs2 Hb2.
  destruct go; [|apply wpV_ret, called_early; [done| |]]; simpl negb; cbv iota.
  - apply wpV_bind, wpV_Transfer; [apply Hx2| |done|].
    { simpl in *. rewrite Hb2, Hb1. lia. }
    intros s3 Hx3. eapply wpV_mono; [apply (run_code_ok id caller addr addr input false gas value (set_edb s e))|].
    1-6: done.
    + eapply evm_ext_trans; [exact Hx1|]. by eapply evm_ext_trans.
    + intros e2 Q' He2 HQ'. apply Hrev; [|done]. eapply evm_ext_trans; [exact Hx2|]. by eapply evm_ext_trans.
    + intros r e' [[H1 H2 H3 H4] _]. split; [done|done|by eapply evm_ext_trans|].
      intros Hr. eapply law_same_trans; [exact Hs|]. by apply H4.
  - eapply evm_ext_trans; [exact Hx|]. by eapply evm_ext_trans.
  - eapply law_same_trans; [exact Hs|]. eapply law_same_trans; [exact Hs1|]. by apply Hs2.
Qed.

Lemma CallCode_ok caller addr input gas value e :
  caller_ok caller → data_ok input → gas_fits gas → 0 <= value → evm_good e → dmin <= evm_depth e →
  wpV (CallCode ctx R caller addr input gas value) (call_post gas e) e.
Proof.
  intros Hcl Hi Hg Hv He Hd. unfold CallCode. apply wpV_bind, wpV_gets.
  destruct (_ && _); [by apply wpV_ret, called_nothing|].
  destruct (Z.ltb_spec CallCreateDepth (evm_depth e)); [by apply wpV_ret, called_nothing|].
  apply wpV_bind, wpV_CanTransfer; [done|]. intros b s Hx Hs Hb Hle.
  destruct b; [|by apply wpV_ret, called_early]. simpl negb. cbv iota.
  apply wpV_bind, wpV_Snapshot; [apply Hx|]. intros id s1 Hx1 Hs1 Hb1 _ Hrev.
  eapply wpV_mono; [apply (run_code_ok id caller (ref_Address caller) addr input false gas value (set_edb s e))|];
    try done; [by apply caller_nonneg|].
  intros r e' [[H1 H2 H3 H4] _]. split; [done|done|by eapply evm_ext_trans|].
  intros Hr. eapply law_same_trans; [exact Hs|]. by apply H4.
Qed.

Lemma StaticCall_ok caller addr input gas e :
  caller_ok caller → 0 <= addr → data_ok input → gas_fits gas → evm_good e → dmin <= evm_depth e →
  wpV (StaticCall ctx R caller addr input gas)
    (fun r e' => call_post gas e r e' ∧ (byz = true → st_still (evm_db e) (evm_db e'))) e.
Proof.
  intros Hcl Ha Hi Hg He Hd. unfold StaticCall. apply wpV_bind, wpV_gets.
  assert (st_still (evm_db e) (evm_db e)) as Hrefl by apply law_same_still, law_same_refl.
  destruct (_ && _); [by apply wpV_ret; split; [apply called_nothing|]|].
  destruct (Z.ltb_spec CallCreateDepth (evm_depth e)); [by apply wpV_ret; split; [apply called_nothing|]|].
  apply wpV_bind, wpV_Snapshot; [done|]. intros id s1 Hx1 Hs1 Hb1 _ Hrev.
  eapply wpV_mono; [apply (run_code_ok id caller addr addr input true gas 0 e)|]; try done.
  intros r e' [Hp Hst]. split; [done|]. intros Hb. apply Hst; [done|done|]. by apply law_same_still.
Qed.

Lemma DelegateCall_ok parent addr input gas e :
  contract_ok st_codes parent → data_ok input → gas_fits gas → evm_good e → dmin <= evm_depth e →
  wpV (DelegateCall ctx R (ContractOf parent) addr input gas) (call_post gas e) e.
Proof.
  intros Hcl Hi Hg He Hd. unfold DelegateCall. apply wpV_bind, wpV_gets.
  destruct (_ && _); [by apply wpV_ret, called_nothing|].
  destruct (Z.ltb_spec CallCreateDepth (evm_depth e)); [by apply wpV_ret, called_nothing|].
  apply wpV_bind, wpV_Snapshot; [done|]. intros id s1 Hx1 Hs1 Hb1 _ Hrev. simpl newJumpdests.
  apply wpV_bind, wpV_ret. apply wpV_bind, wpV_lift. simpl ends_well.
  apply wpV_bind, wpV_withCode; [apply Hx1|]. intros s h code Hx2 Hs Hc1 Hc2 Hc3.
  eapply wpV_mono; [apply (run_finish_ok id _ input false gas e)|].
  - destruct Hcl. by split.
  - done.
  - done.
  - done.
  - by eapply evm_ext_trans.
  - intros e2 Q' He2 HQ'. apply Hrev; [by eapply evm_ext_trans|done].
  - by intros r e' [Hp _].
Qed.
(** ** Creations *)

Lemma CreateAddress_nonneg a n : 0 <= CreateAddress a n.
Proof. apply BytesToAddress_nonneg, Forall_drop, be_bytes_are_bytes. Qed.
Lemma CreateAddress2_nonneg a salt code : 0 <= CreateAddress2 a salt code.
Proof. apply BytesToAddress_nonneg, Forall_drop, be_bytes_are_bytes. Qed.

(** A creation is more than a call: the caller's nonce stays raised when it fails. *)
Record create_post (gas : Z) (e : EVM) (r : called * Address) (e' : EVM) : Prop := {
  kp_ret : data_ok r.1.1.1;
  kp_gas : 0 <= r.1.1.2 <= gas;
  kp_ext : evm_ext e e';
  kp_addr : 0 <= r.2;
}.

Section creations.
Context (Hall : ∀ c, data_ok c → st_codes c).

(** A write outside read-only mode. *)
Lemma wpV_write_free (op : iface unit) Q e :
  write_pre st_bal st_codes (evm_db e) op → evm_good e → (byz = true → in_readOnly e = false) →
  (∀ s, evm_ext e (set_edb s e) → write_bal st_bal (evm_db e) op s → Q tt (set_edb s e)) → wpV (v_db op) Q e.
Proof. intros Hop He Hro HQ. apply (wpV_write ctx); [done|done| |done]. intros Hb Hr. rewrite Hro in Hr; done. Qed.

Lemma storeCode_ok address ret gas Q e :
  data_ok ret → gas_fits gas → evm_good e → (byz = true → in_readOnly e = false) →
  (∀ err left e', evm_ext e e' → 0 <= left <= gas → Q (err, left) e') →
  wpV (storeCode address ret gas) Q e.
Proof.
  intros Hr Hg He Hro HQ. unfold storeCode. pose proof (u64_range (Z.of_nat (length ret) * CreateDataGas)) as Hu.
  destruct (Z.ltb_spec gas (u64 (Z.of_nat (length ret) * CreateDataGas))).
  - apply wpV_ret, HQ; [by apply evm_ext_refl|]. unfold gas_fits, is_u64 in *. lia.
  - apply wpV_bind, wpV_write_free; [split; [done|by apply Hall]|done|done|]. intros s Hx _.
    apply wpV_ret, HQ; [done|]. unfold gas_fits, is_u64 in *. lia.
Qed.

Lemma finishCreate_ok id address c gas e0 e1 e r : run_post c false e1 r e → ct_Gas c = gas → gas_fits gas →
  (byz = true → in_readOnly e0 = false) → evm_ext e0 e1 →
  (∀ e2 (Q' : unit → EVM → Prop), evm_ext e1 e2 →
     (∀ s3, evm_ext e0 (set_edb s3 e2) → Q' tt (set_edb s3 e2)) →
     wpV (v_state (sdb_RevertToSnapshot id)) Q' e2) →
  wpV (finishCreate ctx id address r)
    (fun r e' => data_ok r.1.1 ∧ 0 <= r.1.2 <= gas ∧ evm_ext e0 e') e.
Proof.
  intros [Hret Hleft Hx _] <- Hg Hro Hx0 Hrev. destruct r as [[ret err] left]. simpl in Hret, Hleft. unfold finishCreate.
  assert (evm_ext e0 e) as Hx' by by eapply evm_ext_trans.
  set (big := _ && (MaxCodeSize <? _)). clearbody big. apply wpV_bind.
  assert (∀ err left' e', evm_ext e e' → 0 <= left' <= left →
    wpV (if big || negb (no_err err) && (IsHomestead (ctx_chainConfig ctx) (ctx_BlockNumber ctx) || negb (is_err err ErrCodeStoreOutOfGas))
         then _ ← v_state (sdb_RevertToSnapshot id);
           mret (ret, if negb (is_err err errExecutionReverted) then 0 else left',
                 if big && no_err err then Some errMaxCodeSizeExceeded else err)
         else mret (ret, left', err))
      (fun r e' => data_ok r.1.1 ∧ 0 <= r.1.2 <= ct_Gas c ∧ evm_ext e0 e') e') as Hend.
  { intros err' left' e' He' Hl'. destruct (_ || _).
    - apply wpV_bind, Hrev; [by eapply evm_ext_trans|]. intros s3 Hx3. apply wpV_ret. split; [done|]. split; [|done].
      simpl. destruct (negb _); lia.
    - apply wpV_ret. split; [done|]. split; [simpl; lia|by eapply evm_ext_trans]. }
  destruct (_ && _).
  - apply storeCode_ok; [done|unfold gas_fits, is_u64 in *; lia|apply Hx| |].
    { intros Hb. rewrite (ee_readOnly _ _ _ Hx'). auto. }
    intros err' left' e' He' Hl'. by apply Hend.
  - apply wpV_ret. apply Hend; [apply evm_ext_refl, Hx|lia].
Qed.
(** Once the address is free: from the snapshot on. *)
Lemma create_at_ok caller code gas value address depth e :
  caller_ok caller → data_ok code → gas_fits gas → 0 <= address → evm_good e →
  0 <= value <= st_bal (evm_db e) (ref_Address caller) →
  dmin <= evm_depth e <= CallCreateDepth → (byz = true → in_readOnly e = false) →
  wpV (snapshot ← v_state sdb_Snapshot;
       _ ← v_db (ICreateAccount address);
       _ ← (if IsEIP158 (ctx_chainConfig ctx) (ctx_BlockNumber ctx) then v_db (ISetNonce address 1) else mret ());
       _ ← Transfer (ref_Address caller) address value;
       _ ← newJumpdests caller;
       let c := SetCallCode (Some address) (keccak code) code (NewContract caller address (Some value) gas) in
       if ctx_NoRecursion ctx && (0 <? depth) then mret ([], gas, None, address)
       else
         r ← run ctx R c [] false;
         res ← finishCreate ctx snapshot address r;
         mret (res, address)) (create_post gas e) e.
Proof.
  intros Hcl Hcode Hg Ha He Hv Hd Hro. apply wpV_bind, wpV_Snapshot; [done|]. intros id s1 Hx1 _ Hb1 _ Hrev.
  apply wpV_bind, wpV_write_free; [done|apply Hx1|done|]. intros s2 Hx2 Hb2. simpl in Hb2.
  assert (∀ s3, evm_ext (set_edb s1 e) (set_edb s3 e) → (∀ a, st_bal s3 a = st_bal s1 a) →
    wpV (_ ← Transfer (ref_Address caller) address value;
         _ ← newJumpdests caller;
         let c := SetCallCode (Some address) (keccak code) code (NewContract caller address (Some value) gas) in
         if ctx_NoRecursion ctx && (0 <? depth) then mret ([], gas, None, address)
         else r ← run ctx R c [] false; res ← finishCreate ctx id address r; mret (res, address))
      (create_post gas e) (set_edb s3 e)) as Hrest.
  { intros s3 Hx3 Hb3. apply wpV_bind, wpV_Transfer; [apply Hx3|simpl; by rewrite Hb3, Hb1| |].
    { intros Hb Hr. simpl in Hr. rewrite Hro in Hr; done. }
    intros s4 Hx4. apply wpV_bind, wpV_newJumpdests; [apply Hx4|]. intros d Hdok.
    assert (evm_ext (set_edb s1 e) (set_jumpdests d (set_edb s4 e))) as Hx5
      by (apply evm_ext_set_jumpdests; [by eapply evm_ext_trans|done]).
    cbv zeta. destruct (_ && _).
    - apply wpV_ret. split; simpl; [apply data_ok_nil|unfold gas_fits, is_u64 in *; lia|by eapply evm_ext_trans|done].
    - apply wpV_bind. eapply wpV_mono; [apply run_good|].
      + apply contract_made; try done; [lia|by apply Hall|by right].
      + apply data_ok_nil.
      + apply Hx5.
      + done.
      + intros r e2 Hrun. apply wpV_bind. eapply wpV_mono.
        { eapply (finishCreate_ok id address _ gas e); [exact Hrun|done|done|done|by eapply evm_ext_trans|].
          intros e3 Q' He3 HQ'. apply Hrev; [by eapply evm_ext_trans|]. auto. }
        intros res e' (H1 & H2 & H3). apply wpV_ret. by split. }
  apply wpV_bind. destruct (IsEIP158 _ _).
  - apply wpV_write_free; [done|apply Hx2|done|]. intros s3 Hx3 Hb3. simpl in Hb3.
    apply (Hrest s3); [by eapply evm_ext_trans|]. intros a. by rewrite Hb3, Hb2.
  - apply wpV_ret. by apply (Hrest s2).
Qed.

Lemma create_ok caller code gas value address e :
  caller_ok caller → data_ok code → gas_fits gas → 0 <= value → 0 <= address → evm_good e →
  dmin <= evm_depth e → (byz = true → in_readOnly e = false) →
  wpV (create ctx R caller code gas value address) (create_post gas e) e.
Proof.
  intros Hcl Hcode Hg Hv Ha He Hd Hro. unfold create. apply wpV_bind, wpV_gets.
  assert (∀ err left e', 0 <= left <= gas → evm_ext e e' → create_post gas e ([], left, err, 0) e') as Hend.
  { intros err left e' Hl Hx. split; simpl; [apply data_ok_nil|done|done|done]. }
  unfold gas_fits in Hg. destruct (Z.ltb_spec CallCreateDepth (evm_depth e)); [apply wpV_ret, Hend; [lia|by apply evm_ext_refl]|].
  apply wpV_bind, wpV_CanTransfer; [done|]. intros b s Hx _ Hb Hle.
  destruct b; [|apply wpV_ret, Hend; [lia|done]]. specialize (Hle eq_refl). simpl negb. cbv iota.
  apply wpV_bind. apply (wpV_read ctx); [done|apply Hx|]. intros n s1 Hx1 _ _ Hb1 _.
  apply wpV_bind, wpV_write_free; [apply u64_range|apply Hx1|done|]. intros s2 Hx2 Hb2.
  apply wpV_bind. apply (wpV_read ctx); [done|apply Hx2|]. intros h s3 Hx3 _ _ Hb3 _.
  apply wpV_bind. apply (wpV_read ctx); [done|apply Hx3|]. intros n' s4 Hx4 _ _ Hb4 _.
  assert (evm_ext e (set_edb s4 e)) as Hx'.
  { eapply evm_ext_trans; [exact Hx|]. eapply evm_ext_trans; [exact Hx1|]. eapply evm_ext_trans; [exact Hx2|]. by eapply evm_ext_trans. }
  destruct (_ || _); [apply wpV_ret, Hend; [lia|done]|].
  eapply wpV_mono; [apply create_at_ok; try done; [apply Hx4|]|].
  - simpl in *. rewrite Hb4, Hb3, Hb2, Hb1. lia.
  - intros r e' [H1 H2 H3 H4]. split; [done|done|by eapply evm_ext_trans|done].
Qed.

Lemma Create_ok caller code gas value e :
  caller_ok caller → data_ok code → gas_fits gas → 0 <= value → evm_good e →
  dmin <= evm_depth e → (byz = true → in_readOnly e = false) →
  wpV (Create ctx R caller code gas value) (create_post gas e) e.
Proof.
  intros Hcl Hcode Hg Hv He Hd Hro. apply wpV_bind. apply (wpV_read ctx); [done|done|]. intros n s Hx _ _ _ _.
  eapply wpV_mono; [apply create_ok; try done; [apply CreateAddress_nonneg|apply Hx]|].
  intros r e' [H1 H2 H3 H4]. split; [done|done|by eapply evm_ext_trans|done].
Qed.
End creations.
End with_interpreter.
End calls.
