(* ===== verification/EvmCallOps.v ===== *)
(** * The call instructions keep the invariant

    [exec_ok] for the instructions that call, create or destroy contracts, on what
    EvmCallOk says of the calls. *)

From stdpp Require Import base list gmap strings.
From Stdlib Require Import ZArith Lia.
From S2P Require Import Prelude Bytes Keccak KeccakFacts FsnTypes StateDB StateInterface.
From S2P Require Import EvmWord EvmAnalysis ChainConfig EvmMachine EvmGas EvmCall EvmOps Evm EvmArith EvmLaws EvmSafe.
From S2P Require Import EvmExec EvmPrice EvmCallOk.

(** The input and the place for the output. *)
Definition acc_call (s : list Z) : list (Z * Z) := acc_at 3 4 s ++ acc_at 5 6 s.
Definition acc_temp (s : list Z) : list (Z * Z) := acc_at 2 3 s ++ acc_at 4 5 s.

(** A call that transfers something writes. *)
Definition wr_call `{StateOps} (v : VM) : Prop := ∃ x, vm_stack v !! 2%nat = Some x ∧ x ≠ 0.

(** The state can undo what [Suicide] does. *)
Definition suicide_law `{StateLaws} : Prop := ∀ a s, st_ok s →
  ∃ b s', sdb_Suicide a s = Done (b, s') ∧ st_ok s' ∧ st_ext s s'.

Ltac access2 :=
  match goal with
  | H : Forall (fits _) _ |- _ =>
      unfold acc_call, acc_temp, acc_at in H; simpl in H; apply Forall_cons in H as [Hin H]; apply Forall_inv in H
  end.

Section call_ops.
Context `{SL : StateLaws} `{PC : Precompiles} (ctx : Context) (dmin : Z).
Context (R : Contract → bytes → bool → V ran) (HR : run_ok ctx dmin R) (HP : precompiles_ok ctx).
Local Notation exec_ok := (exec_ok ctx dmin).
Local Notation wpI := (wpI st_codes).

Lemma exec_post_gas pops pushes rb v r e' pc' m' s' g :
  0 <= g <= ct_Gas (vm_contract v) + rb v → data_ok r.1 → evm_ext (byz ctx) (vm_evm v) e' → mem_ok m' →
  mem_Len m' = mem_Len (vm_mem v) → Forall nonneg s' →
  (r.2 = None → (length s' + pops = length (vm_stack v) + pushes)%nat) → 0 <= pc' <= code_len v + 32 →
  exec_post ctx pops pushes rb v r (mkVM e' pc' (set_Gas g (vm_contract v)) m' s').
Proof. intros Hg Hd He Hm Hml Hs Hl Hpc. by split. Qed.

Lemma callResult_ok ro rs pops rb gas r e e' pc c m st st0 :
  frame_ok (mkVM e pc c m st0) → call_post ctx gas e r e' → 0 <= ro → 0 <= rs → fits m (ro, rs) →
  gas <= rb (mkVM e pc c m st0) → rb (mkVM e pc c m st0) + ct_Gas c <= maxGas → Forall nonneg st →
  (length st + pops = length st0)%nat → pc < Z.of_nat (length (ct_Code c)) →
  wpI (callResult ro rs r) (exec_post ctx pops 1 rb (mkVM e pc c m st0)) (mkVM e' pc c m st).
Proof.
  intros Hv [Hret Hgas Hext _] Hro Hrs Hf Hle Hlt Hst Hl Hpc. destruct r as [[ret left] err]. simpl in Hret, Hgas.
  pose proof (fo_mem _ Hv) as Hm. pose proof (fo_pc _ Hv) as Hp. pose proof (co_gas _ _ (fo_contract _ Hv)) as Hg.
  simpl in Hm, Hp, Hg. unfold gas_fits, maxGas in *.
  assert (∀ m', mem_ok m' → mem_Len m' = mem_Len m →
    wpI (_ ← contract_AddGas left; mret (ret, None)) (exec_post ctx pops 1 rb (mkVM e pc c m st0))
      (mkVM e' pc c m' ((if no_err err then 1 else 0) :: st))) as Hend.
  { intros m' Hm' Hml. unfold contract_AddGas. wp_steps. rewrite u64_id by (unfold is_u64, two64; lia).
    apply (exec_post_gas pops 1 rb (mkVM e pc c m st0)); simpl; try done; [lia| |lia|unfold code_len; simpl; lia].
    constructor; [by destruct (no_err err)|done]. }
  unfold callResult. do 3 wp_step. destruct (_ || _).
  - apply wpI_memory_Set; [done|apply Hret|done|done|exact Hf|]. intros m' Hm' Hml. by apply Hend.
  - wp_step. by apply Hend.
Qed.

Lemma temp_gas e pc c m st : evm_good e → contract_ok st_codes c → rb_temp (mkVM e pc c m st) + ct_Gas c <= maxGas →
  gas_fits (callGasTemp e).
Proof.
  intros He Hc Hrb. pose proof (eg_temp _ He). pose proof (co_gas _ _ Hc). unfold rb_temp, gas_fits, is_u64 in *. simpl in Hrb. lia.
Qed.

Lemma opStaticCall_ok : exec_ok (opStaticCall ctx R) 6 1 acc_temp rb_temp no_wr.
Proof.
  exec_start. item g. item a. item io. item il. item ro. item rs. access2. unfold opStaticCall, callTemp. do 15 wp_step.
  apply wpI_memory_Get; [done|done|done|exact Hin|]. intros d Hd. do 4 wp_step.
  eapply wpV_mono; [apply (StaticCall_ok ctx dmin R HR HP); [exact Hc|apply BigToAddress_nonneg|done|by eapply temp_gas|done|done]|].
  intros r e' [Hpost _]. eapply callResult_ok; try done; simpl; lia.
Qed.
Lemma opDelegateCall_ok : exec_ok (opDelegateCall ctx R) 6 1 acc_temp rb_temp no_wr.
Proof.
  exec_start. item g. item a. item io. item il. item ro. item rs. access2. unfold opDelegateCall, callTemp. do 15 wp_step.
  apply wpI_memory_Get; [done|done|done|exact Hin|]. intros d Hd. do 4 wp_step.
  eapply wpV_mono; [apply (DelegateCall_ok ctx dmin R HR HP); [exact Hc|done|by eapply temp_gas|done|done]|].
  intros r e' Hpost. eapply callResult_ok; try done; simpl; lia.
Qed.

(** What the callee gets: what was paid for, and the stipend if there is one. *)
Lemma stipend_gas e pc c m g a value st :
  evm_good e → 0 <= value → rb_call (mkVM e pc c m (g :: a :: value :: st)) + ct_Gas c <= maxGas → 0 <= ct_Gas c →
  let gas := if negb (bigSign (U256 value) =? 0) then u64 (callGasTemp e + CallStipend) else callGasTemp e in
  gas_fits gas ∧ gas <= rb_call (mkVM e pc c m (g :: a :: value :: st)).
Proof.
  intros He Hv Hrb Hg. pose proof (eg_temp _ He) as Ht. unfold rb_call in *. simpl in *.
  unfold gas_fits, maxGas, is_u64, two64 in *.
  destruct (Z.eqb_spec value 0) as [->|Hne]; [simpl; lia|].
  unfold CallStipend in *. destruct (negb _); [|lia]. rewrite u64_id by (unfold is_u64, two64; lia). lia.
Qed.

Lemma opCallCode_ok : exec_ok (opCallCode ctx R) 7 1 acc_call rb_call no_wr.
Proof.
  exec_start. item g. item a. item val. item io. item il. item ro. item rs. access2.
  unfold opCallCode, callTemp. do 17 wp_step.
  apply wpI_memory_Get; [done|done|done|exact Hin|]. intros d Hd.
  pose proof (co_gas _ _ Hc) as Hgc. destruct (stipend_gas e pc c m g a val _ He Hval Hrb) as [Hg1 Hg2]; [apply Hgc|].
  do 4 wp_step.
  eapply wpV_mono; [apply (CallCode_ok ctx dmin R HR HP); [exact Hc|done|exact Hg1|apply U256_nonneg|done|done]|].
  intros r e' Hpost. eapply callResult_ok; try done; simpl; lia.
Qed.

Lemma opCall_ok : exec_ok (opCall ctx R) 7 1 acc_call rb_call wr_call.
Proof.
  exec_start. item g. item a. item val. item io. item il. item ro. item rs. access2.
  unfold opCall, callTemp. do 17 wp_step.
  apply wpI_memory_Get; [done|done|done|exact Hin|]. intros d Hd.
  pose proof (co_gas _ _ Hc) as Hgc. destruct (stipend_gas e pc c m g a val _ He Hval Hrb) as [Hg1 Hg2]; [apply Hgc|].
  do 4 wp_step.
  eapply wpV_mono; [apply (Call_ok ctx dmin R HR HP); [exact Hc|apply BigToAddress_nonneg|done|exact Hg1|apply U256_nonneg|done|done|]|].
  - intros Hb Hr. destruct (decide (val = 0)) as [->|Hne]; [done|]. destruct (Hwr (conj Hb Hr)). by exists val.
  - intros r e' Hpost. eapply callResult_ok; try done; simpl; lia.
Qed.

(** ** Creation and destruction *)

Lemma wpI_use_gas gas Q e pc c m st : 0 <= gas <= ct_Gas c →
  Q tt (mkVM e pc (set_Gas (ct_Gas c - gas) c) m st) → wpI (use_gas gas) Q (mkVM e pc c m st).
Proof.
  intros Hg HQ. unfold use_gas. apply wpI_bind. unfold EvmLaws.wpI, contract_UseGas, UseGas. cbn [vm_contract].
  destruct (Z.ltb_spec (ct_Gas c) gas); [lia|]. exact HQ.
Qed.

Lemma contract_less_gas c g : contract_ok st_codes c → 0 <= g <= ct_Gas c → contract_ok st_codes (set_Gas (ct_Gas c - g) c).
Proof. intros [] Hg. split; try done. unfold gas_fits in *. simpl. lia. Qed.

Lemma opCreate_ok : (∀ c, data_ok c → st_codes c) → exec_ok (opCreate ctx R) 3 1 (acc_at 1 2) no_rb all_wr.
Proof.
  intros Hall. exec_start. item val. item off. item sz. access. unfold opCreate. do 7 wp_step.
  apply wpI_memory_Get; [done|done|done|exact Hacc|]. intros d Hd. do 2 wp_step.
  pose proof (co_gas _ _ Hc) as Hg. unfold gas_fits, maxGas in Hg. cbv zeta.
  set (gas := if IsEIP150 _ _ then _ else _).
  assert (0 <= gas <= ct_Gas c) as Hgas.
  { unfold gas. destruct (IsEIP150 _ _); [|lia]. pose proof (Z.div_pos (ct_Gas c) 64). pose proof (Z.div_le_upper_bound (ct_Gas c) 64 (ct_Gas c)).
    rewrite u64_id by (unfold is_u64, two64; lia). lia. }
  wp_step. apply wpI_use_gas; [done|]. do 4 wp_step. set (c1 := set_Gas (ct_Gas c - gas) c).
  eapply wpV_mono; [apply (Create_ok ctx dmin R HR HP Hall (ContractOf c1)); [by apply contract_less_gas|done|unfold gas_fits, maxGas; lia|done|done|done|]|].
  - intros Hb. destruct (in_readOnly e) eqn:Er; [|done]. destruct (Hwr (conj Hb Er)). exact Logic.I.
  - intros [[[ret left] err] addr] e' [H1 H2 H3 H4]. simpl in H1, H2, H4. unfold contract_AddGas. wp_steps.
    cbn [ct_Gas set_Gas c1]. rewrite u64_id by (unfold is_u64, two64; lia).
    apply (exec_post_gas 3 1 no_rb (mkVM e pc c m (val :: off :: sz :: st))); simpl; try done.
    + unfold no_rb. lia.
    + destruct (is_err err errExecutionReverted); [done|apply data_ok_nil].
    + constructor; [|done]. unfold nonneg. by repeat case_match.
    + lia.
    + unfold code_len. simpl. lia.
Qed.

Lemma opSuicide_ok : suicide_law → exec_ok opSuicide 1 0 no_acc no_rb all_wr.
Proof.
  intros Hlaw. exec_start. item z. unfold opSuicide. do 4 wp_step.
  assert (byz ctx = true → in_readOnly e = true → False) as Hno.
  { intros H1 H2. destruct (Hwr (conj H1 H2)). exact Logic.I. }
  apply (wpV_read ctx); [done|done|]. intros r s Hx _ Hr _ _. destruct (Hr eq_refl) as [-> Hpos]. wp_steps.
  eapply wpI_ptr; [reflexivity|]. wp_steps. apply (wpV_write ctx); [done|apply Hx| |].
  { intros H1 H2. destruct (Hno H1 H2). }
  intros s' Hx' _. do 2 wp_step. destruct (Hlaw (ct_self c) s') as (b & s2 & Hsu & Hok & Hx2); [apply Hx'|].
  unfold wpV, v_state. cbn [evm_db set_edb]. rewrite Hsu. simpl. wp_steps. exec_end.
  assert (evm_ext (byz ctx) e (set_edb s' e)) as [G1 X1 D1 R1 S1] by by eapply evm_ext_trans.
  split; simpl; try done; [by apply (evm_good_db (set_edb s' e))|by eapply law_ext_trans|].
  intros H1 H2. destruct (Hno H1 H2).
Qed.
End call_ops.
