(* ===== verification/EvmTable.v ===== *)
(** * The jump tables are sound

    Every entry of the tables keeps [op_ok]: the stack that is validated, the
    memory that is asked for and the price that is paid are what the instruction
    needs. *)

From stdpp Require Import base list gmap strings.
From Stdlib Require Import ZArith Lia.
From S2P Require Import Prelude Bytes Keccak KeccakFacts FsnTypes StateDB StateInterface.
From S2P Require Import EvmWord EvmAnalysis ChainConfig EvmMachine EvmGas EvmCall EvmOps Evm EvmArith EvmLaws EvmSafe.
From S2P Require Import EvmExec EvmPrice EvmCallOk EvmCallOps.

(** ** Memory *)

(** The memory function asks for enough. *)
Definition mem_covers `{StateOps} (f : I Z) (pops : nat) (acc : list Z → list (Z * Z)) : Prop :=
  (∀ v, (pops <= length (vm_stack v))%nat → Forall nonneg (vm_stack v) →
     ∃ n, f v = Done (n, v) ∧ 0 <= n ∧ Forall (fun a => calcMemSize a.1 a.2 <= n) (acc (vm_stack v))) ∧
  (∀ s, Forall nonneg s → Forall (fun a => 0 <= a.1 ∧ 0 <= a.2) (acc s)).

Lemma calcMemSize_nonneg a b : 0 <= a → 0 <= b → 0 <= calcMemSize a b.
Proof. intros. unfold calcMemSize. destruct (_ =? _); lia. Qed.

Lemma acc_at_nonneg i j s : Forall nonneg s → Forall (fun a => 0 <= a.1 ∧ 0 <= a.2) (acc_at i j s).
Proof.
  intros Hs. unfold acc_at. destruct (s !! i) eqn:Ei, (s !! j) eqn:Ej; repeat constructor; simpl;
    eapply (Forall_lookup_1 nonneg); eauto.
Qed.
Lemma acc_fix_nonneg i n s : 0 <= n → Forall nonneg s → Forall (fun a => 0 <= a.1 ∧ 0 <= a.2) (acc_fix i n s).
Proof.
  intros Hn Hs. unfold acc_fix. destruct (s !! i) eqn:Ei; repeat constructor; simpl; [|done].
  eapply (Forall_lookup_1 nonneg); eauto.
Qed.

(** The items that the function looks at. *)
Ltac mem_items :=
  let v := fresh "v" in
  intros v Hl Hs; destruct v as [e pc c m s]; simpl in Hl, Hs;
  do 7 (try (destruct s as [|? s]; [exfalso; simpl in Hl; lia|]; apply Forall_cons in Hs as [? Hs]));
  eexists; split; [reflexivity|].
Ltac mem_at :=
  split; [mem_items|apply acc_at_nonneg];
  split; [by apply calcMemSize_nonneg|unfold acc_at; simpl; repeat constructor; simpl; lia].
Ltac mem_fix :=
  split; [mem_items|intros s; by apply acc_fix_nonneg];
  split; [by apply calcMemSize_nonneg|unfold acc_fix; simpl; repeat constructor; simpl; lia].
Ltac mem_two :=
  split; [mem_items|intros s Hs; apply Forall_app; split; by apply acc_at_nonneg];
  rewrite BigMax_max; unfold acc_call, acc_temp, acc_at; simpl;
  split; [apply Z.max_le_iff; left; by apply calcMemSize_nonneg|repeat constructor; simpl; lia].

Section memory.
Context `{SO : StateOps}.

Lemma memorySha3_ok : mem_covers memorySha3 2 (acc_at 0 1).
Proof. mem_at. Qed.
Lemma memoryCallDataCopy_ok : mem_covers memoryCallDataCopy 3 (acc_at 0 2).
Proof. mem_at. Qed.
Lemma memoryExtCodeCopy_ok : mem_covers memoryExtCodeCopy 4 (acc_at 1 3).
Proof. mem_at. Qed.
Lemma memoryMLoad_ok : mem_covers memoryMLoad 1 (acc_fix 0 32).
Proof. mem_fix. Qed.
Lemma memoryMStore_ok : mem_covers memoryMStore 2 (acc_fix 0 32).
Proof. mem_fix. Qed.
Lemma memoryMStore8_ok : mem_covers memoryMStore8 2 (acc_fix 0 1).
Proof. mem_fix. Qed.
Lemma memoryCreate_ok : mem_covers memoryCreate 3 (acc_at 1 2).
Proof. mem_at. Qed.
Lemma memoryCall_ok : mem_covers memoryCall 7 acc_call.
Proof. mem_two. Qed.
Lemma memoryDelegateCall_ok : mem_covers memoryDelegateCall 6 acc_temp.
Proof. mem_two. Qed.
Lemma memoryReturn_ok : mem_covers memoryReturn 2 (acc_at 0 1).
Proof. mem_at. Qed.
Lemma memoryLog_ok n : mem_covers memoryLog (n + 2) (acc_at 0 1).
Proof. mem_at. Qed.
End memory.

(** ** Entries *)

Section entries.
Context `{SL : StateLaws} `{PC : Precompiles} (ctx : Context) (dmin : Z).
Local Notation exec_ok := (exec_ok ctx dmin).

Definition entry_ok (op : Z) (o : operation) : Prop :=
  ∃ pops pushes acc rb wr, op_ok ctx dmin op o pops pushes acc rb wr.

Lemma entry_none op e g pops pushes wr h j w r rt :
  exec_ok e pops pushes no_acc no_rb wr → gas_ok_none ctx g pops (h || r) no_rb wr → w = true ∨ (∀ v, ¬ wr v) →
  op ≠ OpCode.CALL → (∀ v v', vm_stack v' = vm_stack v → wr v' → wr v) → entry_ok op (mkOp e g (makeStackFunc pops pushes) None h j w r rt).
Proof.
  intros He Hg Hw Hop Hwr. exists pops, pushes, no_acc, no_rb, wr. split; try done; [destruct Hw; auto|by left].
Qed.
Lemma entry_mem op e g pops pushes f acc rb wr h j w r rt :
  exec_ok e pops pushes acc rb wr → gas_ok ctx g pops (h || r) rb wr → mem_covers f pops acc →
  w = true ∨ (∀ v, ¬ wr v) ∨ (op = OpCode.CALL ∧ ∀ v, wr v → wr_call v) →
  (op = OpCode.CALL → (3 <= pops)%nat) → (∀ v, rb v = 0) ∨ h || r = false →
  (∀ v c m, rb (mkVM (vm_evm v) (vm_pc v) c m (vm_stack v)) = rb v) →
  (∀ v v', vm_stack v' = vm_stack v → wr v' → wr v) →
  entry_ok op (mkOp e g (makeStackFunc pops pushes) (Some f) h j w r rt).
Proof. intros He Hg [Hf Ha] Hw Hop Hrb Hrb' Hwr. by exists pops, pushes, acc, rb, wr. Qed.

Lemma no_writes : ∀ v, ¬ no_wr v.
Proof. by intros v []. Qed.
Lemma entry_plain op e g pops pushes :
  exec_ok e pops pushes no_acc no_rb no_wr → gas_ok_none ctx g pops false no_rb no_wr →
  op ≠ OpCode.CALL → entry_ok op (plain e g pops pushes).
Proof. intros He Hg Hop. apply (entry_none _ _ _ _ _ no_wr); [done|done|right; apply no_writes|done|done]. Qed.
Lemma entry_onMemory op e g pops pushes f acc :
  exec_ok e pops pushes acc no_rb no_wr → gas_ok ctx g pops false no_rb no_wr → mem_covers f pops acc →
  op ≠ OpCode.CALL → entry_ok op (onMemory e g pops pushes f).
Proof.
  intros He Hg Hf Hop. eapply entry_mem; [done|done|done|right; left; apply no_writes|done|by left|done|done].
Qed.

Lemma gas_ok_mono g p p' free rb wr : gas_ok ctx g p free rb wr → (p <= p')%nat → gas_ok ctx g p' free rb wr.
Proof. intros H Hp v size Hv Hl. apply H; [done|lia]. Qed.
(** ** The tables *)

Section tables.
Context (Hctx : ctx_ok ctx) (allowed : Z → bool).
Context (R : Contract → bytes → bool → V ran) (HR : run_ok ctx dmin R) (HP : precompiles_ok ctx).
(** Creations need that all code is in play, destructions that they can be undone. *)
Context (Hcreate : allowed OpCode.CREATE = true → ∀ c, data_ok c → st_codes c).
Context (Hsuicide : allowed OpCode.SELFDESTRUCT = true → suicide_law).
Context (Hcon : IsConstantinople (ctx_chainConfig ctx) (ctx_BlockNumber ctx) = false).
Local Notation gt := (config_GasTable (ctx_chainConfig ctx) (ctx_BlockNumber ctx)).

Definition entries_ok (t : JumpTable) : Prop := Forall (fun e => allowed e.1 = true → entry_ok e.1 e.2) t.

Lemma prices : prices_ok gt.
Proof. apply config_prices_ok. Qed.

Lemma table_price (f : GasTable → Z) pops : 1 <= f gt <= 700 →
  gas_ok_none ctx (fun _ => mret (f gt)) pops false no_rb no_wr.
Proof. intros Hf. apply (const_ok ctx (f gt)); [unfold is_u64, two64; lia|done|lia]. Qed.

Lemma pushes_ok : entries_ok (pushes ctx).
Proof.
  apply Forall_fmap, Forall_forall. intros n [Hn1 Hn2]%elem_of_seq _. apply entry_plain; [apply makePush_ok; lia|by apply (const_ok ctx GasFastestStep)|].
  cbv beta iota delta [fst OpCode.PUSH1 OpCode.CALL]. lia.
Qed.
Lemma dups_ok : entries_ok (dups ctx).
Proof.
  apply Forall_fmap, Forall_forall. intros n [Hn1 Hn2]%elem_of_seq _.
  eapply entry_none; [by apply makeDup_ok|by apply (const_ok ctx GasFastestStep)|right; apply no_writes| |done].
  cbv beta iota delta [fst OpCode.DUP1 OpCode.CALL]. lia.
Qed.
Lemma swaps_ok : entries_ok (swaps ctx).
Proof.
  apply Forall_fmap, Forall_forall. intros n [Hn1 Hn2]%elem_of_seq _.
  eapply entry_none; [by apply makeSwap_ok|by apply (const_ok ctx GasFastestStep)|right; apply no_writes| |done].
  cbv beta iota delta [fst OpCode.SWAP1 OpCode.CALL]. lia.
Qed.
Lemma logs_ok : entries_ok (logs_ ctx).
Proof.
  apply Forall_fmap, Forall_forall. intros n [Hn1 Hn2]%elem_of_seq _.
  eapply entry_mem; [apply makeLog_ok| |apply memoryLog_ok|by left| |by left|done|done].
  - eapply gas_ok_mono; [apply makeGasLog_ok|lia].
  - cbv beta iota delta [fst OpCode.LOG0 OpCode.CALL]. lia.
Qed.

Lemma step_price g pops : 1 <= g <= 700 → gas_ok_none ctx (constGasFunc g) pops false no_rb no_wr.
Proof. intros Hg. apply const_ok; [unfold is_u64, two64; lia|done|lia]. Qed.

Ltac plain_entry :=
  intros _; cbn [fst snd]; apply entry_plain;
  [solve [auto with evm]
  |lazymatch goal with
   | |- EvmSafe.gas_ok_none _ (constGasFunc _) _ _ _ _ => apply step_price; done
   | |- EvmSafe.gas_ok_none _ (gasExp _) _ _ _ _ => apply gasExp_ok
   | |- EvmSafe.gas_ok_none _ (gasBalance _) _ _ _ _ => apply (table_price gt_Balance); pose proof prices as Hp; unfold prices_ok in Hp; lia
   | |- EvmSafe.gas_ok_none _ (gasExtCodeSize _) _ _ _ _ => apply (table_price gt_ExtcodeSize); pose proof prices as Hp; unfold prices_ok in Hp; lia
   | |- EvmSafe.gas_ok_none _ (gasSLoad _) _ _ _ _ => apply (table_price gt_SLoad); pose proof prices as Hp; unfold prices_ok in Hp; lia
   end
  |done].
Ltac table_entry :=
  lazymatch goal with
  | |- allowed (_, plain _ _ _ _).1 = true → _ => plain_entry
  | |- allowed (_, onMemory _ _ _ _ _).1 = true → _ =>
      intros _; cbn [fst snd]; eapply entry_onMemory; [solve [auto with evm]|auto with evm|auto with evm|done]
  | |- _ => intros Hallowed; cbn [fst snd] in *
  end.

(** The entries whose price depends on the memory. *)
Lemma fastest_memory pops : gas_ok ctx (memoryAnd GasFastestStep) pops false no_rb no_wr.
Proof. by apply memoryAnd_ok. Qed.
Lemma fastest_copy : gas_ok ctx (copyGas GasFastestStep 2) 3 false no_rb no_wr.
Proof. apply copyGas_ok; [done|done|lia]. Qed.
Lemma code_copy : gas_ok ctx (gasExtCodeCopy gt) 4 false no_rb no_wr.
Proof.
  pose proof prices as (_ & Hp & _). apply copyGas_ok; [unfold is_u64, two64; lia|lia|lia].
Qed.

Lemma frontier_ok : entries_ok (newFrontierInstructionSet ctx R).
Proof.
  unfold entries_ok, newFrontierInstructionSet. repeat apply Forall_app_2; [|apply pushes_ok|apply dups_ok|apply swaps_ok|apply logs_ok|].
  - repeat (apply Forall_cons; split); [table_entry..|by apply Forall_nil].
    + eapply entry_none; [apply opStop_ok|by apply const_ok|right; apply no_writes|done|done].
    + apply gasSha3_ok.
    + apply memorySha3_ok.
    + apply fastest_copy.
    + apply memoryCallDataCopy_ok.
    + apply fastest_copy.
    + apply memoryCallDataCopy_ok.
    + apply code_copy.
    + apply memoryExtCodeCopy_ok.
    + apply fastest_memory.
    + apply memoryMLoad_ok.
    + apply fastest_memory.
    + apply memoryMStore_ok.
    + apply fastest_memory.
    + apply memoryMStore8_ok.
    + eapply entry_none; [apply opSstore_ok|by apply gasSStore_ok|by left|done|done].
    + eapply entry_none; [apply opJump_ok|by apply step_price|right; apply no_writes|done|done].
    + eapply entry_none; [apply opJumpi_ok|by apply step_price|right; apply no_writes|done|done].
  - repeat (apply Forall_cons; split); [table_entry..|by apply Forall_nil].
    + eapply entry_mem; [apply opCreate_ok; [done|done|by apply Hcreate]|by apply memoryAnd_ok|apply memoryCreate_ok|by left|intros; lia|by left|done|done].
    + eapply entry_mem; [by apply opCall_ok|apply gasCall_ok|apply memoryCall_ok|by right; right|intros; lia|by right|done|intros v v' E; unfold wr_call; by rewrite E].
    + eapply entry_mem; [by apply opCallCode_ok|apply gasCallCode_ok|apply memoryCall_ok|right; left; apply no_writes|intros; lia|by right|done|done].
    + eapply entry_mem; [apply opReturn_ok|apply memory_free_ok|apply memoryReturn_ok|right; left; apply no_writes|done|by left|done|done].
    + eapply entry_none; [apply opSuicide_ok; by apply Hsuicide|apply gasSuicide_ok|by left|done|done].
Qed.

Lemma homestead_ok : entries_ok (newHomesteadInstructionSet ctx R).
Proof.
  apply Forall_cons. split; [|apply frontier_ok]. intros _.
  eapply entry_mem; [by apply opDelegateCall_ok|apply gasDelegateCall_ok|apply memoryDelegateCall_ok|right; left; apply no_writes|intros; lia|by right|done|done].
Qed.

Lemma byzantium_ok : entries_ok (newByzantiumInstructionSet ctx R).
Proof.
  apply Forall_app_2; [|apply homestead_ok]. repeat (apply Forall_cons; split); [table_entry..|by apply Forall_nil].
  - eapply entry_mem; [by apply opStaticCall_ok|apply gasStaticCall_ok|apply memoryDelegateCall_ok|right; left; apply no_writes|intros; lia|by right|done|done].
  - apply fastest_copy.
  - apply memoryCallDataCopy_ok.
  - eapply entry_mem; [apply opRevert_ok|apply memory_free_ok|apply memoryReturn_ok|right; left; apply no_writes|done|by left|done|done].
Qed.

Lemma table_get_elem (t : JumpTable) op o : table_get t op = Some o → (op, o) ∈ t.
Proof.
  induction t as [|[k o'] t IH]; simpl; [done|]. destruct (Z.eqb_spec k op) as [->|].
  - intros [= ->]. by left.
  - intros H. right. auto.
Qed.

(** Every instruction that the interpreter finds keeps its promises. *)
Lemma operation_at_ok op o : operation_at ctx allowed R op = Some o → entry_ok op o.
Proof.
  unfold operation_at. destruct (allowed op) eqn:Ea; [|done]. intros Hin%table_get_elem.
  assert (entries_ok (instructionSet ctx R)) as Hall.
  { unfold instructionSet. rewrite Hcon. destruct (IsByzantium _ _); [apply byzantium_ok|].
    destruct (IsHomestead _ _); [apply homestead_ok|apply frontier_ok]. }
  unfold entries_ok in Hall. rewrite Forall_forall in Hall. by apply (Hall _ Hin).
Qed.
End tables.
End entries.
