(* ===== verification/EvmTotal.v ===== *)
(** * The interpreter returns

    One round of the loop keeps the frame good and burns gas, or ends the run; so
    the gas bounds the loop, and the depth of the calls bounds the nesting. *)

From stdpp Require Import base list gmap strings.
From Stdlib Require Import ZArith Lia.
From S2P Require Import Prelude Bytes Keccak KeccakFacts FsnTypes StateDB StateInterface.
From S2P Require Import EvmWord EvmAnalysis ChainConfig EvmMachine EvmGas EvmCall EvmOps Evm EvmArith EvmLaws EvmSafe.
From S2P Require Import EvmExec EvmPrice EvmCallOk EvmCallOps EvmTable.

(** ** Memory *)

Lemma newSize_covers n : is_u64 n → let size := toWordSize n * 32 in n <= size ∧ (32 | size).
Proof.
  intros Hn. simpl. rewrite toWordSize_spec by done. split; [|by exists ((n + 31) / 32)].
  pose proof (Z.div_mod (n + 31) 32). pose proof (Z.mod_pos_bound (n + 31) 32). lia.
Qed.

Lemma mem_Resize_len size m : size <= mem_Len (mem_Resize size m).
Proof.
  unfold mem_Resize. destruct (Z.ltb_spec (mem_Len m) size); [|done]. unfold mem_Len in *. simpl.
  rewrite length_app, length_replicate. lia.
Qed.
Lemma mem_Resize_zero m : mem_Resize 0 m = m.
Proof. unfold mem_Resize, mem_Len. destruct (Z.ltb_spec (Z.of_nat (length (mem_store m))) 0); [lia|done]. Qed.

Lemma calcMemSize_fits m size a : calcMemSize a.1 a.2 <= size → size <= mem_Len m → fits m a.
Proof.
  destruct a as [off len]. unfold calcMemSize, fits. simpl. destruct (Z.eqb_spec (bigSign len) 0) as [H|H]; [|lia].
  left. unfold bigSign in H. lia.
Qed.

Section interpreter.
Context `{SL : StateLaws} `{PC : Precompiles} (ctx : Context) (dmin : Z) (allowed : Z → bool).
Local Notation wpI := (wpI st_codes).
Local Notation evm_ext := (evm_ext (byz ctx)).

Section round.
Context (op : Z) (o : operation) (pops pushes : nat) (acc : list Z → list (Z * Z)) (rb : VM → Z) (wr : VM → Prop).
Context (Ho : op_ok ctx dmin op o pops pushes acc rb wr).

Lemma validated s : validateStack o s = None → (pops <= length s)%nat.
Proof.
  rewrite (oo_stack _ _ _ _ _ _ _ _ _ Ho). unfold makeStackFunc, require.
  destruct (Nat.ltb_spec (length s) pops); [done|]. lia.
Qed.

Lemma enforce_ok v Q : (pops <= length (vm_stack v))%nat → Forall nonneg (vm_stack v) →
  (∀ err, Q (Some err) v) → ((protected ctx v → ¬ wr v) → Q None v) →
  wpI (enforceRestrictions ctx op o) Q v.
Proof.
  intros Hl Hs Herr Hok. unfold enforceRestrictions. apply wpI_bind, wpI_gets.
  destruct (IsByzantium _ _) eqn:Eb; simpl andb; cycle 1.
  { apply wpI_ret, Hok. intros [Hb _]. unfold byz in Hb. congruence. }
  destruct (in_readOnly (vm_evm v)) eqn:Er; cycle 1.
  { apply wpI_ret, Hok. intros [_ Hr]. congruence. }
  destruct (writes o) eqn:Ew; [apply wpI_ret, Herr|]. destruct (oo_writes _ _ _ _ _ _ _ _ _ Ho) as [|Hw]; [congruence|].
  destruct (Z.eqb_spec op OpCode.CALL) as [Hop|Hop].
  - pose proof (oo_call _ _ _ _ _ _ _ _ _ Ho Hop). destruct (lookup_lt_is_Some_2 (vm_stack v) 2) as [x Hx]; [lia|].
    apply wpI_bind. eapply wpI_Back; [exact Hx|]. apply wpI_ret. destruct (Z.ltb_spec 0 (BitLen x)) as [|Hz]; [apply Herr|].
    apply Hok. intros _ Hwr. destruct Hw as [Hw|[_ Hw]]; [by destruct (Hw v)|]. destruct (Hw v Hwr) as (y & Hy & Hne).
    assert (y = x) as -> by congruence. pose proof (Forall_lookup_1 _ _ _ _ Hs Hx) as Hpos. unfold nonneg in Hpos.
    unfold BitLen in Hz.
    destruct (Z.eqb_spec x 0); [done|]. pose proof (Z.log2_nonneg (Z.abs x)). lia.
  - apply wpI_ret, Hok. intros _. destruct Hw as [Hw|[Hw _]]; [apply Hw|done].
Qed.

Lemma newMemorySize_ok v Q : (pops <= length (vm_stack v))%nat → Forall nonneg (vm_stack v) →
  (∀ err, Q (inr err) v) →
  (∀ size, is_u64 size → (32 | size) → (memorySize o = None → size = 0) →
     Forall (fun a => calcMemSize a.1 a.2 <= size) (acc (vm_stack v)) → Q (inl size) v) →
  wpI (newMemorySize o) Q v.
Proof.
  intros Hl Hs Herr Hok. pose proof (oo_mem _ _ _ _ _ _ _ _ _ Ho) as Hm. unfold newMemorySize.
  destruct (memorySize o) as [f|] eqn:Ef.
  - destruct (Hm v Hl Hs) as (n & Hf & Hn & Ha). apply wpI_bind. unfold EvmLaws.wpI. rewrite Hf. simpl.
    destruct (Z.ltb_spec 64 (BitLen n)) as [|Hb]; [apply Herr|]. pose proof (BitLen_le n 64 ltac:(lia) Hn).
    assert (is_u64 n) as Hn64 by (unfold is_u64, two64; lia). rewrite bigUint64_id by done.
    destruct (newSize_covers n Hn64) as [Hcov Hdiv]. pose proof (toWordSize_u64 n Hn64).
    rewrite SafeMul_spec by done. destruct (Z.ltb_spec (toWordSize n * 32) two64); simpl; [|apply Herr].
    assert (is_u64 (toWordSize n * 32)) as Hu by (unfold is_u64 in *; lia). apply (wpI_ret st_codes). simpl. rewrite u64_id by done.
    apply Hok; [done|done|done|]. eapply Forall_impl; [exact Ha|]. simpl. intros a ?. lia.
  - apply wpI_ret, Hok; [done|by exists 0|done|]. rewrite Hm. constructor.
Qed.

Lemma pay_ok size v Q :
  frame_ok v → (pops <= length (vm_stack v))%nat → is_u64 size → (32 | size) → (memorySize o = None → size = 0) →
  (protected ctx v → ¬ wr v) →
  (∀ e m, evm_ext (vm_evm v) e → Q false (mkVM e (vm_pc v) (vm_contract v) m (vm_stack v))) →
  (∀ e m g, evm_ext (vm_evm v) e → mem_store m = mem_store (vm_mem v) → mem_ok (mem_Resize size m) →
     let v' := mkVM e (vm_pc v) (set_Gas g (vm_contract v)) m (vm_stack v) in
     0 <= g <= ct_Gas (vm_contract v) → rb v' + g <= ct_Gas (vm_contract v) →
     (halts o || reverts o = false → rb v' + g < ct_Gas (vm_contract v)) → Q true v') →
  wpI (pay o size) Q v.
Proof.
  intros Hv Hl Hs Hd Hmem Hwr Hno Hyes. apply wpI_bind.
  assert (EvmLaws.wpI st_codes (gasCost o size) (gas_post ctx size (halts o || reverts o) rb v) v) as Hgas.
  { pose proof (oo_gas _ _ _ _ _ _ _ _ _ Ho) as Hg. destruct (memorySize o); [by apply Hg|]. rewrite Hmem by done. by apply Hg. }
  eapply wpI_mono; [exact Hgas|]. intros r v1 [G1 G2 G3 G4 G5 G6].
  destruct v1 as [e1 pc1 c1 m1 s1]. simpl in G1, G2, G3, G4, G5. subst pc1 c1 s1.
  destruct r as [cost|err]; [|by apply wpI_ret, Hno]. destruct (G6 cost eq_refl) as (Hc & Hrb & Hok).
  unfold EvmLaws.wpI, contract_UseGas, UseGas. cbn [vm_contract]. unfold is_u64 in Hc.
  destruct (Z.ltb_spec (ct_Gas (vm_contract v)) cost); [by apply Hno|]. simpl.
  pose proof (oo_rb _ _ _ _ _ _ _ _ _ Ho (mkVM e1 (vm_pc v) (vm_contract v) m1 (vm_stack v))
    (set_Gas (ct_Gas (vm_contract v) - cost) (vm_contract v)) m1) as Hrb'. simpl in Hrb'.
  apply (Hyes e1 m1); [done|done|done|lia| |].
  - rewrite Hrb'. destruct (oo_free _ _ _ _ _ _ _ _ _ Ho) as [Hz|Hf]; [rewrite Hz; lia|]. specialize (Hrb Hf). lia.
  - intros Hf. rewrite Hrb'. specialize (Hrb Hf). lia.
Qed.

Lemma evm_good_returnData e d : evm_good e → data_ok d → evm_good (set_returnData d e).
Proof. intros [] Hd. by split. Qed.
Lemma evm_ext_returnData e e' d : evm_ext e e' → data_ok d → evm_ext e (set_returnData d e').
Proof. intros [[] ? ? ? ?] Hd. by split. Qed.

(** How a round ends: with the result of the run, or in a frame that goes on. *)
Record round_post (v : VM) (limit : Z) (r : option (bytes * option error)) (v' : VM) : Prop := {
  ro_ext : evm_ext (vm_evm v) (vm_evm v');
  ro_contract : same_contract (vm_contract v) (vm_contract v');
  ro_gas : 0 <= ct_Gas (vm_contract v') <= limit;
  ro_res : ∀ res err, r = Some (res, err) → data_ok res;
  ro_frame : r = None → halts o || reverts o = false ∧ frame_ok v';
}.

Lemma perform_op_ok v :
  frame_ok v → (pops <= length (vm_stack v))%nat → vm_pc v < code_len v → Forall (fits (vm_mem v)) (acc (vm_stack v)) →
  rb v + ct_Gas (vm_contract v) <= maxGas → (protected ctx v → ¬ wr v) → dmin <= evm_depth (vm_evm v) →
  wpI (perform_op o) (round_post v (ct_Gas (vm_contract v) + rb v)) v.
Proof.
  intros Hv Hl Hpc Hacc Hrb Hwr Hdm. apply wpI_bind.
  eapply wpI_mono; [by apply (oo_exec _ _ _ _ _ _ _ _ _ Ho)|]. intros [res err] v1 [X1 X2 X3 X4 X5 X6 X7 X8 X9]. simpl in X1, X8.
  apply wpI_bind.
  assert (∀ e2, evm_ext (vm_evm v) e2 →
    wpI (match err with
         | Some e => mret (Some ([], Some e))
         | None =>
             if reverts o then mret (Some (res, Some errExecutionReverted))
             else if halts o then mret (Some (res, None))
             else _ ← (if jumps o then mret () else i_modify (fun v => set_pc (u64 (vm_pc v + 1)) v)); mret None
         end) (round_post v (ct_Gas (vm_contract v) + rb v)) (set_evm e2 v1)) as Hend.
  { intros e2 He2. destruct err as [err|].
    { apply wpI_ret. split; try done; intros ? ? [= <- <-]; apply data_ok_nil. }
    destruct (reverts o) eqn:Er; [apply wpI_ret; split; try done; by intros ? ? [= <- <-]|].
    destruct (halts o) eqn:Eh; [apply wpI_ret; split; try done; by intros ? ? [= <- <-]|].
    pose proof (fo_contract _ Hv) as Hc. pose proof (co_code _ _ Hc) as [_ Hcl]. unfold code_len in *.
    assert (frame_ok (set_evm e2 v1)) as Hf1.
    { split; simpl; [apply He2| |done|done|].
      - eapply same_contract_ok; [done|done|]. unfold gas_fits. lia.
      - rewrite X3. simpl. lia. }
    apply wpI_bind. destruct (jumps o).
    - apply wpI_ret, wpI_ret. split; try done. intros _. split; [by rewrite Er, Eh|done].
    - apply wpI_modify, wpI_ret. split; try done. intros _. split; [by rewrite Er, Eh|].
      destruct Hf1 as [F1 F2 F3 F4 F5]. split; simpl in *; try done. rewrite u64_id by (unfold is_u64, two64; lia).
      rewrite X3. simpl. lia. }
  destruct (returns o).
  - apply wpI_evm, wpV_modify, Hend. by apply evm_ext_returnData.
  - apply wpI_ret. specialize (Hend (vm_evm v1) X2). by destruct v1.
Qed.
End round.

(** ** A round *)

Section steps.
Context (Hctx : ctx_ok ctx).
Context (R : Contract → bytes → bool → V ran) (HR : run_ok ctx dmin R) (HP : precompiles_ok ctx).
Context (Hcreate : allowed OpCode.CREATE = true → ∀ c, data_ok c → st_codes c).
Context (Hsuicide : allowed OpCode.SELFDESTRUCT = true → suicide_law).
Context (Hcon : IsConstantinople (ctx_chainConfig ctx) (ctx_BlockNumber ctx) = false).

Record step_post (v : VM) (r : option (bytes * option error)) (v' : VM) : Prop := {
  sp_ext : evm_ext (vm_evm v) (vm_evm v');
  sp_contract : same_contract (vm_contract v) (vm_contract v');
  sp_gas : 0 <= ct_Gas (vm_contract v') <= ct_Gas (vm_contract v);
  sp_res : ∀ res err, r = Some (res, err) → data_ok res;
  sp_frame : r = None → frame_ok v' ∧ ct_Gas (vm_contract v') < ct_Gas (vm_contract v);
}.

(** The run ends with an error before the instruction runs. *)
Lemma step_fails v err e m : frame_ok v → evm_ext (vm_evm v) e →
  step_post v (Some ([], Some err)) (mkVM e (vm_pc v) (vm_contract v) m (vm_stack v)).
Proof.
  intros Hv Hx. pose proof (co_gas _ _ (fo_contract _ Hv)) as Hg. unfold gas_fits in Hg.
  split; simpl; try done; [apply same_contract_refl|lia|]. intros ? ? [= <- <-]. apply data_ok_nil.
Qed.
Lemma step_fails_here v err : frame_ok v → step_post v (Some ([], Some err)) v.
Proof. intros Hv. destruct v. apply (step_fails _ err _ _ Hv). apply evm_ext_refl, Hv. Qed.

(** Beyond the code there are zeros, which stop. *)
Lemma stop_at o : operation_at ctx allowed R OpCode.STOP = Some o →
  o = mkOp opStop (constGasFunc 0) (makeStackFunc 0 0) None true false false false false.
Proof.
  unfold operation_at, instructionSet. rewrite Hcon. destruct (allowed OpCode.STOP); [|done].
  destruct (IsByzantium _ _); [|destruct (IsHomestead _ _)]; intros E; injection E as <-; reflexivity.
Qed.

Lemma GetOp_beyond v : frame_ok v → code_len v <= vm_pc v → GetOp (vm_contract v) (vm_pc v) = OpCode.STOP.
Proof.
  intros Hv Hpc. pose proof (fo_pc _ Hv). unfold GetOp, GetByte, code_len in *. by rewrite lookup_ge_None_2 by lia.
Qed.

(** An instruction that is in the code: it is paid for, and runs. *)
Lemma pay_and_perform_ok op o pops pushes acc rb wr size v :
  op_ok ctx dmin op o pops pushes acc rb wr → frame_ok v → (pops <= length (vm_stack v))%nat → vm_pc v < code_len v →
  is_u64 size → (32 | size) → (memorySize o = None → size = 0) →
  Forall (fun a => calcMemSize a.1 a.2 <= size) (acc (vm_stack v)) →
  (protected ctx v → ¬ wr v) → dmin <= evm_depth (vm_evm v) →
  wpI (paid ← pay o size;
       if negb paid then mret (Some ([], Some ErrOutOfGas))
       else _ ← (if 0 <? size then i_modify (fun v => set_mem (mem_Resize size (vm_mem v)) v) else mret ()); perform_op o)
    (step_post v) v.
Proof.
  intros Ho Hv Hl Hpc Hs Hd Hnone Hacc Hwr Hdm. apply wpI_bind. eapply pay_ok; [exact Ho|done..| |].
  { intros e m He. apply wpI_ret. by apply step_fails. }
  intros e m g He Hst Hm v1 Hg Hrb Hlt. simpl negb. cbv iota. apply wpI_bind.
  assert (wpI (perform_op o) (step_post v) (set_mem (mem_Resize size m) v1)) as Hrun; cycle 1.
  { destruct (Z.ltb_spec 0 size); [by apply wpI_modify|]. apply wpI_ret. unfold is_u64 in Hs.
    replace size with 0 in Hrun by lia. by rewrite mem_Resize_zero in Hrun. }
  pose proof (co_gas _ _ (fo_contract _ Hv)) as Hcg. unfold gas_fits in Hcg.
  assert (rb (set_mem (mem_Resize size m) v1) = rb v1) as Hrb' by apply (oo_rb _ _ _ _ _ _ _ _ _ Ho v1).
  assert (frame_ok (set_mem (mem_Resize size m) v1)) as Hv1.
  { destruct Hv as [F1 [] F3 F4 F5]. split; simpl; try done; [apply He|]. split; simpl; try done. unfold gas_fits. lia. }
  eapply wpI_mono; [eapply (perform_op_ok op o); [exact Ho|exact Hv1|done|done| | | |]|].
  - eapply Forall_impl; [exact Hacc|]. intros a Ha. eapply calcMemSize_fits; [exact Ha|apply mem_Resize_len].
  - rewrite Hrb'. simpl. lia.
  - intros [P1 P2] W. destruct Hwr.
    + split; [done|]. simpl in P2. by rewrite (ee_readOnly _ _ _ He) in P2.
    + eapply (oo_wr _ _ _ _ _ _ _ _ _ Ho); [|exact W]. done.
  - simpl. by rewrite (ee_depth _ _ _ He).
  - intros r v' [O1 O2 O3 O4 O5]. rewrite Hrb' in O3. simpl in O1, O2, O3.
    split; [by eapply evm_ext_trans|unfold same_contract in *; by rewrite O2 at 1|lia|done|].
    intros Hr. destruct (O5 Hr) as [Hf Hv']. split; [done|]. specialize (Hlt Hf). lia.
Qed.

Lemma step_stop v : frame_ok v →
  wpI (paid ← pay (mkOp opStop (constGasFunc 0) (makeStackFunc 0 0) None true false false false false) 0;
       if negb paid then mret (Some ([], Some ErrOutOfGas))
       else perform_op (mkOp opStop (constGasFunc 0) (makeStackFunc 0 0) None true false false false false))
    (step_post v) v.
Proof.
  intros Hv. pose proof (co_gas _ _ (fo_contract _ Hv)) as Hg. unfold gas_fits in Hg. apply wpI_bind, wpI_bind, wpI_ret.
  unfold EvmLaws.wpI at 1. cbn [fst snd]. unfold contract_UseGas, UseGas. destruct (Z.ltb_spec (ct_Gas (vm_contract v)) 0); [lia|].
  simpl. split; simpl; [apply evm_ext_refl, Hv|done|lia| |done]. intros ? ? [= <- <-]. apply data_ok_nil.
Qed.

Lemma step_ok v : frame_ok v → dmin <= evm_depth (vm_evm v) → wpI (step ctx allowed R) (step_post v) v.
Proof.
  intros Hv Hdm. unfold step. apply wpI_bind, wpI_gets, wpI_bind, wpI_gets.
  destruct (operation_at _ _ _ _) as [o|] eqn:Eo; [|by apply wpI_ret, step_fails_here].
  apply wpI_bind, wpI_gets. destruct (Z.lt_ge_cases (vm_pc v) (code_len v)) as [Hpc|Hpc].
  - destruct (operation_at_ok ctx dmin Hctx allowed R HR HP Hcreate Hsuicide Hcon _ _ Eo) as (pops & pushes & acc & rb & wr & Ho).
    destruct (validateStack o (vm_stack v)) eqn:Ev; [by apply wpI_ret, step_fails_here|].
    eapply validated in Ev; [|exact Ho]. pose proof (fo_stack _ Hv) as Hst. apply wpI_bind.
    eapply enforce_ok; [exact Ho|done|done|intros err; by apply wpI_ret, step_fails_here|]. intros Hwr.
    apply wpI_bind. eapply newMemorySize_ok; [exact Ho|done|done|intros err; by apply wpI_ret, step_fails_here|].
    intros size H1 H2 H3 H4. by eapply pay_and_perform_ok.
  - rewrite GetOp_beyond in * by done. apply stop_at in Eo as ->.
    destruct (validateStack _ _); [by apply wpI_ret, step_fails_here|]. apply wpI_bind, wpI_bind, wpI_gets.
    destruct (_ && _); apply wpI_ret, wpI_bind, wpI_ret; by apply step_stop.
Qed.

(** ** The loop *)

Record loop_post (v : VM) (r : bytes * option error) (v' : VM) : Prop := {
  lp_ext : evm_ext (vm_evm v) (vm_evm v');
  lp_gas : 0 <= ct_Gas (vm_contract v') <= ct_Gas (vm_contract v);
  lp_res : data_ok r.1;
}.

Lemma loop_ok fuel v : frame_ok v → dmin <= evm_depth (vm_evm v) → ct_Gas (vm_contract v) < Z.of_nat fuel →
  wpI (loop ctx allowed R fuel) (loop_post v) v.
Proof.
  revert v. induction fuel as [|fuel IH]; intros v Hv Hdm Hf.
  { pose proof (co_gas _ _ (fo_contract _ Hv)) as Hg. unfold gas_fits in Hg. lia. }
  simpl. apply wpI_bind. eapply wpI_mono; [by apply step_ok|]. intros r v1 [S1 S2 S3 S4 S5].
  destruct r as [[res err]|].
  - apply wpI_ret. split; [done|done|]. by eapply S4.
  - destruct (S5 eq_refl) as [Hv1 Hlt]. eapply wpI_mono.
    + apply IH; [done|by rewrite (ee_depth _ _ _ S1)|lia].
    + intros r v2 [L1 L2 L3]. split; [by eapply evm_ext_trans|lia|done].
Qed.

Lemma run_frame_ok c input e : contract_ok st_codes c → data_ok input → evm_good e → dmin <= evm_depth e →
  wpV st_codes (run_frame ctx allowed R c input)
    (fun r e' => data_ok r.1.1 ∧ 0 <= r.2 <= ct_Gas c ∧ evm_ext e e') e.
Proof.
  intros Hc Hi He Hdm. pose proof (co_gas _ _ Hc) as Hg. unfold gas_fits in Hg. apply ends_well_obind.
  eapply ends_well_mono.
  - apply (loop_ok (S (Z.to_nat (ct_Gas c))) (mkVM e 0 (set_Input input c) NewMemory [])); [|done|simpl; lia].
    split; simpl; [done| |split; [done|by exists 0|done|done]|done|lia]. by destruct Hc; split.
  - intros [[ret err] v'] [L1 L2 L3]. by simpl in *.
Qed.
End steps.

(** ** Nested runs *)

Section runs.
Context (Hctx : ctx_ok ctx) (HP : precompiles_ok ctx).
Context (Hcreate : allowed OpCode.CREATE = true → ∀ c, data_ok c → st_codes c).
Context (Hsuicide : allowed OpCode.SELFDESTRUCT = true → suicide_law).
Context (Hcon : IsConstantinople (ctx_chainConfig ctx) (ctx_BlockNumber ctx) = false).

(** The frame of a run: one level deeper, perhaps read-only. *)
Lemma evm_good_enter e ro : evm_good e → evm_depth e <= CallCreateDepth →
  evm_good (mkEVM (evm_db e) (evm_depth e + 1) (callGasTemp e) ro [] (evm_jumpdests e)).
Proof. intros [H1 H2 H3 H4 H5] Hd. split; simpl; try done. lia. Qed.

Lemma evm_ext_leave e e2 ro : evm_good e →
  evm_ext (mkEVM (evm_db e) (evm_depth e + 1) (callGasTemp e) ro [] (evm_jumpdests e)) e2 →
  (in_readOnly e = true → ro = true) →
  evm_ext e (set_readOnly (in_readOnly e) (set_depth (evm_depth e2 - 1) e2)).
Proof.
  intros He [[G1 G2 G3 G4 G5] X D Ro S] Hro. simpl in *. pose proof (eg_depth _ He).
  split; simpl; try done; [split; simpl; try done; lia|lia|]. intros Hb Hr. apply S; auto.
Qed.

(** The code of the contract, if there is any. *)
Lemma run_code_frame R c input e : run_ok ctx dmin R → contract_ok st_codes c → data_ok input → evm_good e →
  dmin <= evm_depth e →
  wpV st_codes (if (length (ct_Code c) =? 0)%nat then mret ([], None, ct_Gas c) else run_frame ctx allowed R c input)
    (fun r e' => data_ok r.1.1 ∧ 0 <= r.2 <= ct_Gas c ∧ evm_ext e e') e.
Proof.
  intros HR Hc Hi He Hd. pose proof (co_gas _ _ Hc) as Hg. unfold gas_fits in Hg. destruct (_ =? _)%nat.
  - apply wpV_ret. split; [apply data_ok_nil|]. split; [simpl; lia|by apply evm_ext_refl].
  - eapply run_frame_ok; eauto.
Qed.

Lemma Run_body_ok R readOnly c input e :
  run_ok ctx dmin R → contract_ok st_codes c → data_ok input → evm_good e → dmin <= evm_depth e + 1 <= CallCreateDepth + 1 →
  wpV st_codes (Run_body ctx allowed R c input readOnly) (run_post ctx c readOnly e) e.
Proof.
  intros HR Hc Hi He Hd. unfold Run_body. do 2 apply wpV_bind, wpV_gets. apply wpV_bind, wpV_modify. apply wpV_bind.
  destruct (readOnly && negb (in_readOnly e)) eqn:Ero.
  - apply andb_true_iff in Ero as [-> Hwas]. apply negb_true_iff in Hwas.
    apply wpV_modify, wpV_bind, wpV_modify, wpV_bind.
    eapply wpV_mono; [apply run_code_frame; [done..|apply (evm_good_enter e true); [done|lia]|simpl; lia]|].
    intros r e2 (H1 & H2 & H3). apply wpV_bind, wpV_modify, wpV_bind, wpV_modify, wpV_ret.
    split; [done|done| |].
    + rewrite <- Hwas. by apply (evm_ext_leave e e2 true).
    + intros Hb _. by apply (ee_still _ _ _ H3).
  - apply wpV_ret, wpV_bind, wpV_modify, wpV_bind.
    eapply wpV_mono; [apply run_code_frame; [done..|apply (evm_good_enter e (in_readOnly e)); [done|lia]|simpl; lia]|].
    intros r e2 (H1 & H2 & H3). apply wpV_bind, wpV_modify, wpV_bind, wpV_ret, wpV_ret.
    pose proof (ee_readOnly _ _ _ H3) as Hro. simpl in Hro.
    split; [done|done| |].
    + pose proof (evm_ext_leave e e2 (in_readOnly e) He H3 ltac:(done)) as Hx. rewrite <- Hro in Hx. by destruct e2.
    + intros Hb ->. apply (ee_still _ _ _ H3); [done|]. simpl. by destruct (in_readOnly e).
Qed.
End runs.
End interpreter.

Section evm.
Context `{SL : StateLaws} `{PC : Precompiles} (ctx : Context) (allowed : Z → bool).
Context (Hctx : ctx_ok ctx) (HP : precompiles_ok ctx).
Context (Hcreate : allowed OpCode.CREATE = true → ∀ c, data_ok c → st_codes c).
Context (Hsuicide : allowed OpCode.SELFDESTRUCT = true → suicide_law).
Context (Hcon : IsConstantinople (ctx_chainConfig ctx) (ctx_BlockNumber ctx) = false).

(** Runs that may nest [fuel] deep are enough for frames that are less than that
    away from the limit of the depth. *)
Lemma Run_nested_ok fuel : run_ok ctx (CallCreateDepth + 2 - Z.of_nat fuel) (Run_nested ctx allowed fuel).
Proof.
  induction fuel as [|fuel IH]; intros c input ro e Hc Hi He Hd; [lia|]. simpl.
  apply (Run_body_ok ctx (CallCreateDepth + 2 - Z.of_nat fuel) allowed); try done. lia.
Qed.
Lemma Run_ok : run_ok ctx 0 (Run ctx allowed).
Proof. apply (Run_nested_ok maxNesting). Qed.

Lemma newEVM_good s : st_ok s → evm_good (newEVM s).
Proof.
  intros Hs. split; simpl; [done|apply data_ok_nil|done|done|]. intros h m Hm. by rewrite lookup_empty in Hm.
Qed.
End evm.
