(* ===== verification/EvmPrecompiledOk.v ===== *)
(** * The precompiled contracts are safe

    Each has a price, and returns when it can be paid for; with more gas than
    [maxGas] the exponentiation can be made to panic. *)

From stdpp Require Import base list gmap strings.
From Stdlib Require Import ZArith Zpow_facts Lia.
From S2P Require Import Prelude Bytes Keccak KeccakFacts FsnTypes Rlp Codec Transaction StateDB StateInterface.
From S2P Require Import EvmWord EvmAnalysis ChainConfig EvmMachine EvmGas EvmCall EvmPrecompiled Evm EvmLaws EvmSafe EvmPrice EvmCallOk.

(** ** SHA-256 *)

Lemma round_length st kw : length st = 8%nat → length (Sha256.round st kw) = 8%nat.
Proof. intros Hl. do 9 (destruct st as [|? st]; try discriminate Hl). done. Qed.
Lemma rounds_length kws st : length st = 8%nat → length (fold_left Sha256.round kws st) = 8%nat.
Proof. revert st. induction kws as [|kw kws IH]; intros st Hl; simpl; [done|]. by apply IH, round_length. Qed.
Lemma blocks_length n st b : length st = 8%nat → length (Sha256.blocks n st b) = 8%nat.
Proof.
  revert st b. induction n as [|n IH]; intros st b Hl; simpl; [done|]. apply IH. unfold Sha256.block.
  rewrite length_zip_with, rounds_length by done. lia.
Qed.

Lemma words_bytes l : are_bytes (concat (map (be_bytes 4) l)) ∧ length (concat (map (be_bytes 4) l)) = (4 * length l)%nat.
Proof.
  induction l as [|x l [IH1 IH2]]; [by split; [constructor|]|]. cbn [map concat]. split.
  - apply Forall_app_2; [apply be_bytes_are_bytes|done].
  - rewrite length_app, length_be_bytes, IH2. simpl. lia.
Qed.

Lemma Sum256_ok m : are_bytes (Sha256.Sum256 m) ∧ length (Sha256.Sum256 m) = 32%nat.
Proof.
  unfold Sha256.Sum256. destruct (words_bytes (Sha256.blocks (length (Sha256.pad m) / 64) Sha256.initial (Sha256.pad m))) as [H1 H2].
  split; [done|]. by rewrite H2, blocks_length.
Qed.

(** ** Data *)

Lemma LeftPadBytes_ok d l : are_bytes d → are_bytes (LeftPadBytes d l) ∧
  length (LeftPadBytes d l) = Nat.max (Z.to_nat l) (length d).
Proof.
  intros Hd. unfold LeftPadBytes. destruct (Z.leb_spec l (Z.of_nat (length d))); [split; [done|lia]|]. split.
  - apply Forall_app_2; [by apply Forall_replicate|done].
  - rewrite length_app, length_replicate. lia.
Qed.

Lemma RightPadBytes_bytes d l : are_bytes d → are_bytes (RightPadBytes d l) ∧
  length (RightPadBytes d l) = Nat.max (Z.to_nat l) (length d).
Proof.
  intros Hd. unfold RightPadBytes. destruct (Z.leb_spec l (Z.of_nat (length d))); [split; [done|lia]|]. split.
  - apply Forall_app_2; [done|by apply Forall_replicate].
  - rewrite length_app, length_replicate. lia.
Qed.

Lemma getData_ok data start size : data_ok data → 0 <= start → 0 <= size →
  Z.of_nat (length data) + size < two64 →
  ∃ d, getData data start size = Done d ∧ are_bytes d ∧ (size < 2 ^ 40 → Z.of_nat (length d) = size).
Proof.
  intros Hd Hs Hz Hsum. unfold getData.
  set (lo := if _ <? start then _ else _). assert (0 <= lo <= Z.of_nat (length data)) as Hlo.
  { unfold lo. destruct (Z.ltb_spec (Z.of_nat (length data)) start); lia. }
  rewrite u64_id by (unfold is_u64; lia).
  set (hi := if _ <? lo + size then _ else _). assert (lo <= hi <= lo + size ∧ hi <= Z.of_nat (length data)) as [Hhi Hhi'].
  { unfold hi. destruct (Z.ltb_spec (Z.of_nat (length data)) (lo + size)); lia. }
  destruct (slice_data_ok data lo hi Hd) as (d & -> & [Hb _] & Hl); [lia|lia|]. simpl.
  destruct (RightPadBytes_bytes d (i64 size) Hb) as [Hb' Hl']. eexists. split; [done|]. split; [done|].
  intros Hsmall. rewrite Hl', i64_id by lia. lia.
Qed.

Lemma Int_Bytes_length x n : 0 <= x < 256 ^ Z.of_nat n → (length (Int_Bytes x) <= n)%nat.
Proof.
  intros Hx. unfold Int_Bytes. destruct (Z.eqb_spec x 0); [simpl; lia|]. rewrite length_be_bytes. unfold byte_len.
  assert (Z.log2 x < 8 * Z.of_nat n) as Hlog.
  { apply Z.log2_lt_pow2; [lia|]. rewrite Z.pow_mul_r by lia. apply Hx. }
  pose proof (Z.log2_nonneg x). assert ((Z.log2 x + 8) / 8 < Z.of_nat n + 1) by (apply Z.div_lt_upper_bound; lia). lia.
Qed.

(** ** The exponentiation *)

Lemma multComplexity_bounds x : 1 <= x → 1 <= multComplexity x ∧ (2 ^ 36 <= x → 2 ^ 68 <= multComplexity x).
Proof.
  intros Hx. unfold multComplexity. change (2 ^ 36) with 68719476736. change (2 ^ 68) with 295147905179352825856.
  destruct (Z.leb_spec x 64); [split; nia|]. destruct (Z.leb_spec x 1024).
  - pose proof (Z.div_pos (x * x) 4 ltac:(nia)). split; lia.
  - pose proof (Z.div_pos (x * x) 16 ltac:(nia)). split; [lia|]. intros Hbig.
    assert (295147905179352825856 <= x * x / 16); [|lia]. apply Z.div_le_lower_bound; nia.
Qed.

Lemma modExpLens_ok input : data_ok input →
  ∃ b e m, modExpLens input = Done (b, e, m) ∧ 0 <= b ∧ 0 <= e ∧ 0 <= m.
Proof.
  intros Hi. pose proof Hi as [_ Hl]. unfold modExpLens.
  destruct (getData_ok input 0 32 Hi) as (d1 & -> & H1 & _); [lia|lia|unfold two64; lia|].
  destruct (getData_ok input 32 32 Hi) as (d2 & Hr2 & H2 & _); [lia|lia|unfold two64; lia|].
  destruct (getData_ok input 64 32 Hi) as (d3 & Hr3 & H3 & _); [lia|lia|unfold two64; lia|].
  simpl. rewrite Hr2. simpl. rewrite Hr3. simpl. eexists _, _, _. split; [done|]. split_and!; by apply SetBytes_nonneg.
Qed.

Lemma afterHeader_ok input : data_ok input → data_ok (afterHeader input).
Proof.
  intros [Hb Hl]. unfold afterHeader. destruct (_ <? _); [|apply data_ok_nil]. split; [by apply Forall_drop|].
  rewrite length_drop. lia.
Qed.

(** What a price that can be paid says of the lengths. *)
Lemma modExp_paid b e m msb : 0 <= b → 0 <= e → 0 <= m → 0 <= msb → 1 <= BigMax m b →
  multComplexity (BigMax m b) * BigMax ((if 32 <? e then 8 * (e - 32) else 0) + msb) 1 / ModExpQuadCoeffDiv <= maxGas →
  b < 2 ^ 36 ∧ m < 2 ^ 36 ∧ e < 12000000000000000000.
Proof.
  intros Hb He Hm Hmsb H1 Hg. rewrite !BigMax_max in *. destruct (multComplexity_bounds _ H1) as [Hc1 Hc2].
  set (mc := multComplexity (m `max` b)) in *. set (adj := (if 32 <? e then 8 * (e - 32) else 0) + msb) in *.
  unfold ModExpQuadCoeffDiv, maxGas in Hg. change (2 ^ 62) with 4611686018427387904 in Hg.
  change (2 ^ 36) with 68719476736 in *. change (2 ^ 68) with 295147905179352825856 in *.
  assert (mc * (adj `max` 1) < 20 * 4611686018427387905) as Hlt.
  { pose proof (Z.div_mod (mc * (adj `max` 1)) 20). pose proof (Z.mod_pos_bound (mc * (adj `max` 1)) 20). lia. }
  assert (mc < 295147905179352825856) by nia. assert (adj < 20 * 4611686018427387905) as Hadj by nia.
  assert (m `max` b < 68719476736) by (destruct (Z.lt_ge_cases (m `max` b) 68719476736); [done|specialize (Hc2 ltac:(done)); lia]).
  split_and!; [lia|lia|]. unfold adj in Hadj. destruct (Z.ltb_spec 32 e); lia.
Qed.

Lemma bigModExp_Run_ok input b e m : data_ok input → modExpLens input = Done (b, e, m) →
  0 <= b → 0 <= e → 0 <= m → b = 0 ∧ m = 0 ∨ b < 2 ^ 36 ∧ m < 2 ^ 36 ∧ e < 12000000000000000000 →
  ∃ r err, bigModExp_Run input = Done (r, err) ∧ data_ok r.
Proof.
  intros Hi Hlens Hb He Hm Hcase. unfold bigModExp_Run. rewrite Hlens. simpl.
  destruct Hcase as [[-> ->]|(Hb' & Hm' & He')]; [by eexists [], None; split; [|apply data_ok_nil]|].
  change (2 ^ 36) with 68719476736 in *. rewrite !bigUint64_id by (unfold is_u64, two64; lia).
  destruct (_ && _); [by eexists [], None; split; [|apply data_ok_nil]|].
  pose proof (afterHeader_ok input Hi) as Hr. pose proof Hr as [_ Hrl]. change (2 ^ 62) with 4611686018427387904 in Hrl.
  destruct (getData_ok (afterHeader input) 0 b Hr) as (d1 & Hr1 & H1 & _); [lia|lia|unfold two64; lia|].
  destruct (getData_ok (afterHeader input) b e Hr) as (d2 & Hr2 & H2 & _); [lia|lia|unfold two64; lia|].
  destruct (getData_ok (afterHeader input) (u64 (b + e)) m Hr) as (d3 & Hr3 & H3 & Hl3); [apply u64_range|lia|unfold two64; lia|].
  rewrite Hr1. simpl. rewrite Hr2. simpl. rewrite Hr3. simpl. rewrite i64_id by lia.
  pose proof (SetBytes_range d3 H3) as Hrange. destruct (Z.eqb_spec (BitLen (SetBytes d3)) 0) as [Hz|Hz].
  - eexists _, None. split; [done|]. destruct (LeftPadBytes_ok [] m ltac:(constructor)) as [HA HB]. split; [done|].
    rewrite HB. simpl. change (2 ^ 62) with 4611686018427387904. lia.
  - eexists _, None. split; [done|].
    assert (0 < SetBytes d3) as Hpos by (destruct (decide (SetBytes d3 = 0)) as [E|]; [by rewrite E in Hz|lia]).
    set (x := Zpow_mod _ _ _). assert (0 <= x < SetBytes d3) as Hx.
    { unfold x. rewrite Zpow_mod_correct by lia. by apply Z.mod_pos_bound. }
    destruct (LeftPadBytes_ok (Int_Bytes x) m (Int_Bytes_are_bytes x)) as [HA HB]. split; [done|]. rewrite HB.
    pose proof (Int_Bytes_length x (length d3) ltac:(lia)). specialize (Hl3 ltac:(change (2 ^ 40) with 1099511627776; lia)).
    change (2 ^ 62) with 4611686018427387904. lia.
Qed.

Lemma bigModExp_ok input : data_ok input →
  ∃ g, bigModExp_RequiredGas input = Done g ∧ 0 <= g ∧
    (g <= maxGas → ∃ r err, bigModExp_Run input = Done (r, err) ∧ data_ok r).
Proof.
  intros Hi. destruct (modExpLens_ok input Hi) as (b & e & m & Hlens & Hb & He & Hm). unfold bigModExp_RequiredGas. rewrite Hlens.
  cbn [obind]. pose proof (afterHeader_ok input Hi) as Hr. pose proof Hr as [_ Hrl]. change (2 ^ 62) with 4611686018427387904 in Hrl.
  assert (∃ x, (if Z.of_nat (length (afterHeader input)) <=? b then Done 0
    else let? d := getData (afterHeader input) (bigUint64 b) (if 32 <? e then 32 else bigUint64 e) in Done (SetBytes d)) = Done x) as [x ->].
  { destruct (_ <=? _); [by eexists|]. set (n := if 32 <? e then _ else _). assert (0 <= n <= 32) as Hn.
    { unfold n. destruct (Z.ltb_spec 32 e); [lia|]. rewrite bigUint64_id by (unfold is_u64, two64; lia). lia. }
    destruct (getData_ok (afterHeader input) (bigUint64 b) n Hr) as (d & -> & _); [apply u64_range|lia|unfold two64; lia|]. by eexists. }
  cbn [obind]. set (msb := if 0 <? BitLen x then _ else _). assert (0 <= msb) as Hmsb by (unfold msb; destruct (Z.ltb_spec 0 (BitLen x)); lia).
  set (g := _ / ModExpQuadCoeffDiv). eexists. split; [done|]. split; [destruct (64 <? BitLen g); [done|apply u64_range]|].
  intros Hg. apply (bigModExp_Run_ok input b e m); try done.
  destruct (Z.lt_ge_cases (m `max` b) 1) as [Hzero|Hone]; [left; lia|]. right.
  rewrite <- BigMax_max in Hone. apply (modExp_paid b e m msb); try done. fold g.
  assert (0 <= g) as Hg0.
  { unfold g. apply Z.div_pos; [|done]. destruct (multComplexity_bounds (BigMax m b) Hone) as [Hc _]. rewrite (BigMax_max _ 1). nia. }
  destruct (Z.ltb_spec 64 (BitLen g)) as [|Hbl]; [by unfold maxGas, max_u64 in Hg|].
  pose proof (proj1 (BitLen_le g 64 ltac:(lia) Hg0) Hbl). rewrite bigUint64_id in Hg by (unfold is_u64, two64; lia). done.
Qed.

(** ** All of them *)

(** What the libraries promise: the sizes of what they return. *)
Record crypto_ok `{CU : Curve} `{HA : Hashing} `{BN : Bn256} : Prop := {
  cr_ecrecover : ∀ h sig pub, Ecrecover h sig = inl pub → length pub = 65%nat ∧ are_bytes pub;
  cr_ripemd : ∀ b, length (ripemd160 b) = 20%nat ∧ are_bytes (ripemd160 b);
  cr_marshal : ∀ p, length (G1_Marshal p) = 64%nat ∧ are_bytes (G1_Marshal p);
}.

Section contracts_ok.
Context `{CU : Curve} `{HA : Hashing} `{BN : Bn256} (Hcr : crypto_ok).

Definition contract_fine (p : PrecompiledContract) : Prop := ∀ input, data_ok input →
  ∃ g, RequiredGas p input = Done g ∧ 0 <= g ∧
    (g <= maxGas → ∃ r err, precompiled_Run p input = Done (r, err) ∧ data_ok r).

Lemma data_ok_short (b : bytes) n : are_bytes b → length b = n → (n <= 1000)%nat → data_ok b.
Proof. intros Hb Hl Hn. split; [done|]. change (2 ^ 62) with 4611686018427387904. lia. Qed.

Lemma contract_fine_always g run : (∀ input, data_ok input → ∃ c, g input = Done c ∧ 0 <= c) →
  (∀ input, data_ok input → ∃ r err, run input = Done (r, err) ∧ data_ok r) → contract_fine (mkPrecompiled g run).
Proof. intros Hg Hr input Hi. destruct (Hg input Hi) as (c & Hc & Hpos). exists c. auto. Qed.

Lemma fixedGas_ok gas : 0 <= gas → ∀ input, data_ok input → ∃ c, fixedGas gas input = Done c ∧ 0 <= c.
Proof. intros Hg input _. by exists gas. Qed.
Lemma wordGas_ok pw base : ∀ input, data_ok input → ∃ c, wordGas pw base input = Done c ∧ 0 <= c.
Proof. intros input _. eexists. split; [done|]. apply u64_range. Qed.

Lemma ecrecover_ok input : data_ok input →
  ∃ r err, (let? x := ecrecover_Run input in Done x.1) = Done (r, err) ∧ data_ok r.
Proof.
  intros Hi. unfold ecrecover_Run. destruct (_ || _); [by eexists [], None; split; [|apply data_ok_nil]|].
  destruct (Ecrecover _ _) as [pub|err] eqn:E; [|by eexists [], None; split; [|apply data_ok_nil]].
  destruct (cr_ecrecover Hcr _ _ _ E) as [Hl Hb]. destruct pub as [|x pub]; [done|]. eexists _, None. split; [done|].
  assert (are_bytes (drop 12 (Hash_Bytes (keccak pub)))) as Hk by apply Forall_drop, be_bytes_are_bytes.
  destruct (LeftPadBytes_ok _ 32 Hk) as [HA' HB']. eapply data_ok_short; [done|exact HB'|].
  rewrite length_drop. unfold Hash_Bytes. rewrite length_be_bytes. simpl. lia.
Qed.

Lemma bn256Add_ok input : data_ok input → ∃ r err, bn256Add_Run input = Done (r, err) ∧ data_ok r.
Proof.
  intros Hi. pose proof Hi as [_ Hl]. change (2 ^ 62) with 4611686018427387904 in Hl. unfold bn256Add_Run.
  destruct (getData_ok input 0 64 Hi) as (d1 & -> & _); [lia|lia|unfold two64; lia|]. simpl.
  destruct (G1_Unmarshal d1) as [x|err]; [|by eexists [], _; split; [|apply data_ok_nil]].
  destruct (getData_ok input 64 64 Hi) as (d2 & -> & _); [lia|lia|unfold two64; lia|]. simpl.
  destruct (G1_Unmarshal d2) as [y|err]; [|by eexists [], _; split; [|apply data_ok_nil]].
  eexists _, None. split; [done|]. destruct (cr_marshal Hcr (G1_Add x y)). eapply data_ok_short; [done..|lia].
Qed.

Lemma bn256ScalarMul_ok input : data_ok input → ∃ r err, bn256ScalarMul_Run input = Done (r, err) ∧ data_ok r.
Proof.
  intros Hi. pose proof Hi as [_ Hl]. change (2 ^ 62) with 4611686018427387904 in Hl. unfold bn256ScalarMul_Run.
  destruct (getData_ok input 0 64 Hi) as (d1 & -> & _); [lia|lia|unfold two64; lia|]. simpl.
  destruct (G1_Unmarshal d1) as [p|err]; [|by eexists [], _; split; [|apply data_ok_nil]].
  destruct (getData_ok input 64 32 Hi) as (d2 & -> & _); [lia|lia|unfold two64; lia|]. simpl.
  eexists _, None. split; [done|]. destruct (cr_marshal Hcr (G1_ScalarMult p (SetBytes d2))). eapply data_ok_short; [done..|lia].
Qed.

Lemma bn256Pairing_ok input : data_ok input → ∃ r err, bn256Pairing_Run input = Done (r, err) ∧ data_ok r.
Proof.
  intros _. unfold bn256Pairing_Run. destruct (_ <? _)%nat; [by eexists [], _; split; [|apply data_ok_nil]|].
  destruct (pairing_points _ _ _ _) as [[cs ts]|err]; [|by eexists [], _; split; [|apply data_ok_nil]].
  eexists _, None. split; [done|]. apply (data_ok_short _ 32); [|by destruct (PairingCheck cs ts)|lia].
  destruct (PairingCheck cs ts); apply be_bytes_are_bytes.
Qed.

Lemma contractsHomestead_fine a p : contractsHomestead a = Some p → contract_fine p.
Proof.
  unfold contractsHomestead. repeat case_match; intros [= <-]; apply contract_fine_always; try apply wordGas_ok.
  - by apply fixedGas_ok.
  - apply ecrecover_ok.
  - intros input _. eexists _, None. split; [done|]. destruct (Sum256_ok input). eapply data_ok_short; [done..|lia].
  - intros input _. eexists _, None. split; [done|]. destruct (cr_ripemd Hcr input) as [Hl Hb].
    destruct (LeftPadBytes_ok _ 32 Hb) as [HA1 HA2]. eapply data_ok_short; [done|exact HA2|]. rewrite Hl. simpl. lia.
  - intros input Hi. by eexists _, None.
Qed.
Lemma contractsByzantium_fine a p : contractsByzantium a = Some p → contract_fine p.
Proof.
  unfold contractsByzantium. destruct (a =? 5); [intros [= <-] input; apply bigModExp_ok|].
  destruct (a =? 6); [intros [= <-]; apply contract_fine_always; [by apply fixedGas_ok|apply bn256Add_ok]|].
  destruct (a =? 7); [intros [= <-]; apply contract_fine_always; [by apply fixedGas_ok|apply bn256ScalarMul_ok]|].
  destruct (a =? 8); [|apply contractsHomestead_fine].
  intros [= <-]. apply contract_fine_always; [|apply bn256Pairing_ok]. intros input _. eexists. split; [done|apply u64_range].
Qed.

(** The contract that the calls rely on. *)
Lemma contracts_ok ctx : precompiles_ok ctx.
Proof.
  intros a p. unfold precompiles. destruct (IsByzantium _ _); [apply contractsByzantium_fine|apply contractsHomestead_fine].
Qed.
End contracts_ok.

(** ** Lengths that wrap *)

(** The data of [getData] in the middle. *)
Lemma getData_mid pre d post : Z.of_nat (length (pre ++ d ++ post)) < 2 ^ 62 →
  getData (pre ++ d ++ post) (Z.of_nat (length pre)) (Z.of_nat (length d)) = Done d.
Proof.
  change (2 ^ 62) with 4611686018427387904. rewrite !length_app. intros Hl. unfold getData. rewrite !length_app.
  destruct (Z.ltb_spec (Z.of_nat (length pre + (length d + length post))) (Z.of_nat (length pre))); [lia|].
  rewrite u64_id by (unfold is_u64, two64; lia).
  destruct (Z.ltb_spec (Z.of_nat (length pre + (length d + length post))) (Z.of_nat (length pre) + Z.of_nat (length d))); [lia|].
  unfold slice. rewrite !length_app.
  destruct (Z.leb_spec 0 (Z.of_nat (length pre))), (Z.leb_spec (Z.of_nat (length pre)) (Z.of_nat (length pre) + Z.of_nat (length d))),
    (Z.leb_spec (Z.of_nat (length pre) + Z.of_nat (length d)) (Z.of_nat (length pre + (length d + length post)))); try lia.
  cbn [andb obind]. rewrite Nat2Z.id, drop_app_length.
  replace (Z.to_nat (_ - _)) with (length d) by lia. rewrite take_app_length. unfold RightPadBytes.
  rewrite i64_id by lia. by rewrite Z.leb_refl.
Qed.

(** An input of the exponentiation: the three lengths and the rest. *)
Definition modExpInput (b e m : Z) (rest : bytes) : bytes :=
  be_bytes 32 b ++ be_bytes 32 e ++ be_bytes 32 m ++ rest.

Lemma modExpInput_ok b e m rest : are_bytes rest → Z.of_nat (length rest) < 2 ^ 61 → data_ok (modExpInput b e m rest).
Proof.
  intros Hb Hl. unfold modExpInput. split; [rewrite !Forall_app; split_and!; try done; apply be_bytes_are_bytes|].
  rewrite !length_app, !length_be_bytes. change (2 ^ 61) with 2305843009213693952 in Hl. change (2 ^ 62) with 4611686018427387904. lia.
Qed.

Lemma modExpInput_lens b e m rest : are_bytes rest → Z.of_nat (length rest) < 2 ^ 61 → is_u64 b → is_u64 e → is_u64 m →
  modExpLens (modExpInput b e m rest) = Done (b, e, m).
Proof.
  intros Hb Hl Hb' He Hm. pose proof (modExpInput_ok b e m rest Hb Hl) as [_ Hlen]. unfold modExpInput in *.
  assert (Hval : ∀ x, is_u64 x → SetBytes (be_bytes 32 x) = x).
  { intros x [Hx0 Hx]. rewrite SetBytes_be_bytes. apply Z.mod_small. split; [done|]. eapply Z.lt_le_trans; [exact Hx|]. vm_compute. discriminate. }
  pose proof (getData_mid [] (be_bytes 32 b) _ Hlen) as H1.
  pose proof (getData_mid (be_bytes 32 b) (be_bytes 32 e) (be_bytes 32 m ++ rest) Hlen) as H2.
  pose proof (getData_mid (be_bytes 32 b ++ be_bytes 32 e) (be_bytes 32 m) rest) as H3.
  rewrite <- app_assoc in H3. specialize (H3 Hlen). rewrite length_app, !length_be_bytes in *.
  unfold modExpLens. cbn [app length] in H1. change (Z.of_nat 0) with 0 in H1. change (Z.of_nat 32) with 32 in *. change (Z.of_nat (32 + 32)) with 64 in H3.
  rewrite H1. cbn [obind]. rewrite H2. cbn [obind]. rewrite H3. cbn [obind]. by rewrite !Hval.
Qed.

Lemma modExpInput_rest b e m rest : rest ≠ [] → afterHeader (modExpInput b e m rest) = rest.
Proof.
  intros Hr. unfold afterHeader, modExpInput. rewrite !length_app, !length_be_bytes.
  destruct (Z.ltb_spec 96 (Z.of_nat (32 + (32 + (32 + length rest))))); [|destruct rest; [done|simpl in *; lia]].
  rewrite !app_assoc. apply drop_app_length'. by rewrite !length_app, !length_be_bytes.
Qed.

(** The slice of the exponent ends before it starts. *)
Lemma getData_wraps data start size : is_u64 size → is_u64 start → start <= Z.of_nat (length data) →
  two64 <= start + size → getData data start size = Panic "slice bounds out of range".
Proof.
  intros Hs Hst Hst' Hw. unfold is_u64 in *. unfold getData, slice. destruct (Z.ltb_spec (Z.of_nat (length data)) start); [lia|].
  assert (u64 (start + size) = start + size - two64) as ->.
  { unfold u64. symmetry. apply (Z.mod_unique _ _ 1); lia || (left; unfold two64 in *; lia). }
  destruct (Z.ltb_spec (Z.of_nat (length data)) (start + size - two64)); [lia|].
  destruct (Z.leb_spec start (start + size - two64)); [lia|]. by rewrite andb_false_r.
Qed.

Lemma modExpInput_panics b e m rest : are_bytes rest → 1 <= b <= Z.of_nat (length rest) → Z.of_nat (length rest) < 2 ^ 61 →
  is_u64 e → is_u64 m → two64 <= b + e → bigModExp_Run (modExpInput b e m rest) = Panic "slice bounds out of range".
Proof.
  intros Hb Hr Hl He Hm Hw. change (2 ^ 61) with 2305843009213693952 in Hl.
  assert (is_u64 b) by (unfold is_u64, two64; lia). unfold bigModExp_Run.
  rewrite modExpInput_lens by (done || (change (2 ^ 61) with 2305843009213693952; lia)). cbn [obind].
  rewrite !bigUint64_id by done. rewrite modExpInput_rest by (intros ->; simpl in Hr; lia).
  destruct (Z.eqb_spec b 0); [lia|]. cbn [andb].
  destruct (getData_ok rest 0 b) as (d & -> & _); [split; [done|change (2 ^ 62) with 4611686018427387904; lia]|lia|lia|unfold two64; lia|].
  cbn [obind]. rewrite getData_wraps; done || lia.
Qed.

(** C27: the exponentiation can be made to panic. Whenever the exponent is said to be
    so long that the place where it ends wraps around 2^64, for a base that the
    input has, the contract panics. The price is then more than 2^62 gas; for a
    base of one byte and a modulus of at most one byte, with an exponent said to
    have 2^64 - 1 bytes, it is less than 2^63, so it fits the gas of a call
    without a limit from the RPC interface. *)
Theorem modexp_panics (b e m : Z) (rest : bytes) :
  are_bytes rest → 1 <= b <= Z.of_nat (length rest) → Z.of_nat (length rest) < 2 ^ 61 →
  is_u64 e → is_u64 m → two64 <= b + e →
  let input := modExpInput b e m rest in
  bigModExp_Run input = Panic "slice bounds out of range" ∧
  ∃ price, bigModExp_RequiredGas input = Done price ∧ maxGas < price ∧
    (b = 1 → m <= 1 → e = two64 - 1 ∧ price < 2 ^ 63).
Proof.
  intros Hb Hr Hl He Hm Hw input. pose proof (modExpInput_panics b e m rest Hb Hr Hl He Hm Hw) as Hp. fold input in Hp.
  split; [done|]. assert (Hi : data_ok input) by by apply modExpInput_ok.
  destruct (bigModExp_ok input Hi) as (g & Hg & _ & Hrun). exists g. split; [done|]. split.
  { destruct (Z.lt_ge_cases maxGas g) as [|Hle]; [done|]. destruct (Hrun ltac:(lia)) as (r & err & E & _). congruence. }
  intros -> Hm1. assert (e = two64 - 1) as -> by (unfold is_u64 in He; lia). split; [done|].
  revert Hg. unfold bigModExp_RequiredGas, input.
  rewrite modExpInput_lens by (done || (unfold is_u64, two64; lia)). cbn [obind].
  rewrite modExpInput_rest by (intros ->; simpl in Hr; lia).
  set (x := if _ <=? 1 then _ else _). assert (∃ y, x = Done y ∧ 0 <= y < 256 ^ 32) as (y & -> & Hy).
  { unfold x. destruct (_ <=? _); [by exists 0|]. change (bigUint64 1) with 1. change (32 <? two64 - 1) with true. cbv iota.
    destruct (getData_ok rest 1 32) as (d & -> & Hd & Hdl); [split; [done|]|lia|lia|unfold two64; lia|].
    { change (2 ^ 61) with 2305843009213693952 in Hl. change (2 ^ 62) with 4611686018427387904. lia. }
    eexists. split; [done|]. pose proof (SetBytes_range d Hd) as Hrg.
    specialize (Hdl ltac:(change (2 ^ 40) with 1099511627776; lia)). split; [lia|]. eapply Z.lt_le_trans; [apply Hrg|].
    apply Z.pow_le_mono_r; lia. }
  cbn [obind]. assert (BigMax m 1 = 1) as -> by (rewrite BigMax_max; unfold is_u64 in Hm; lia).
  set (msb := if 0 <? BitLen y then _ else _). assert (0 <= msb <= 256) as Hmsb.
  { unfold msb. destruct (Z.ltb_spec 0 (BitLen y)); [|lia]. split; [lia|].
    assert (BitLen y <= 256); [|lia]. apply BitLen_le; [lia|lia|]. change (2 ^ 256) with (256 ^ 32). lia. }
  change (multComplexity 1) with 1. change (32 <? two64 - 1) with true. cbv iota. rewrite BigMax_max, Z.mul_1_l.
  set (g' := _ / ModExpQuadCoeffDiv). assert (0 <= g' < 2 ^ 63) as Hg'.
  { unfold g', ModExpQuadCoeffDiv. change (2 ^ 63) with 9223372036854775808. unfold two64.
    split; [apply Z.div_pos; lia|apply Z.div_lt_upper_bound; lia]. }
  destruct (Z.ltb_spec 64 (BitLen g')) as [Hbl|_].
  { pose proof (proj2 (BitLen_le g' 64 ltac:(lia) ltac:(lia))) as Hle.
    change (2 ^ 63) with 9223372036854775808 in Hg'. change (2 ^ 64) with 18446744073709551616 in Hle. lia. }
  rewrite bigUint64_id by (change (2 ^ 63) with 9223372036854775808 in Hg'; unfold is_u64, two64; lia). intros [= <-]. lia.
Qed.

Lemma modexp_panics_witness :
  bigModExp_Run (modExpInput 1 (two64 - 1) 1 [2; 3]) = Panic "slice bounds out of range" ∧
  ∃ price, bigModExp_RequiredGas (modExpInput 1 (two64 - 1) 1 [2; 3]) = Done price ∧ maxGas < price ∧
    (1 = 1 → 1 <= 1 → two64 - 1 = two64 - 1 ∧ price < 2 ^ 63).
Proof.
  apply (modexp_panics 1 (two64 - 1) 1 [2; 3]); [by repeat constructor|simpl; lia|done|done|done|done].
Defined.
