(* ===== verification/EvmState.v ===== *)
(** * The EVM on the state database

    The state database of core/state keeps the contract [StateLaws] of the state
    interface, so what EvmTotal shows of the EVM holds on it. [db_ok] is the
    invariant: the state database is well-formed and what accounts hold has the
    type it should have; [in_play] is the code that may be run. *)

From stdpp Require Import base list gmap strings.
From Stdlib Require Import ZArith Lia.
From S2P Require Import Prelude Bytes Keccak KeccakFacts TimeLock FsnTypes Codec StateDB StateFacts StateRevert.
From S2P Require Import StateInterface StateWorld.
From S2P Require Import EvmWord EvmAnalysis ChainConfig EvmMachine EvmGas EvmCall EvmOps Evm EvmLaws EvmSafe.
From S2P Require Import EvmCallOk EvmCallOps EvmTotal.

(** The methods of [vm.StateDB] are those of [state.StateDB]. *)
#[export] Instance db_ops `{SP : StateParams} : StateOps := {|
  sdb := StateDB;
  method A op := perform op;
  sdb_Suicide := Suicide;
  sdb_Snapshot := Snapshot;
  sdb_RevertToSnapshot := RevertToSnapshot;
|}.

(** The code of the accounts and what may be created. *)
Class CodeSet := { in_play : bytes → Prop; in_play_nil : in_play [] }.

(** ** The invariant *)

Section invariant.
Context `{CS : CodeSet}.

Record typed (v : oview) : Prop := {
  ty_bal : ∃ b, v_bal v SystemAssetID = Some b ∧ 0 <= b;
  ty_nonce : is_u64 (v_nonce v);
  ty_slot : ∀ k, 0 <= v_slot v k;
  ty_code : data_ok (default [] (v_code v)) ∧ in_play (default [] (v_code v));
  ty_hash : default [] (v_code v) = [] ∨ BytesToHash (v_codehash v) = keccak (default [] (v_code v));
  ty_hash_bytes : are_bytes (v_codehash v);
}.
#[export] Instance typed_proper : Proper ((≡) ==> iff) typed.
Proof.
  assert (∀ v w : oview, v ≡ w → typed v → typed w) as H.
  { intros v w [] []. split; [by rewrite <- ve_bal|by rewrite <- ve_nonce|intros k; by rewrite <- ve_slot
      |by rewrite <- ve_code|by rewrite <- ve_code, <- ve_codehash|by rewrite <- ve_codehash]. }
  intros v w Hvw. split; apply H; [done|by symmetry].
Qed.

Record db_ok (s : StateDB) : Prop := {
  do_wf : wf_db s;
  do_revs : wf_revs s;
  do_refund : is_u64 (refund s);
  do_typed : ∀ a, typed (world s a);
}.

Lemma empty_code : v_code emptyView = None.
Proof. cbn [v_code view emptyView]. unfold so_codeval. cbn [code newObject data]. by rewrite bool_decide_true. Qed.

Lemma typed_empty : typed emptyView.
Proof.
  split; rewrite ?empty_code; [by exists 0|done| |split; [apply data_ok_nil|apply in_play_nil]|by left|].
  - intros k. cbn [v_slot emptyView view]. unfold so_slot, so_cslot. simpl. by rewrite !lookup_empty.
  - apply emptyCodeHash_ok.
Qed.
End invariant.

#[export] Instance world_proper : Proper ((≡) ==> (≡)) world.
Proof.
  intros s t Hst a. unfold world. pose proof (se_view _ _ Hst a) as Hv. by destruct Hv.
Qed.

(** ** Reading *)

Section reads.
Context `{SP : StateParams} `{CS : CodeSet}.

Lemma put_same s a o o' : obj_at s a = Some o → deleted o' = false → view (db s) o' ≡ view (db s) o → put a o' s ≡ s.
Proof.
  intros Ho Hd Hv. split; try done. intros a'. rewrite put_view by done.
  destruct (Z.eqb_spec a a') as [<-|]; [|done]. unfold sview. rewrite Ho. by constructor.
Qed.

Lemma with_object_read {A} a (dflt : A) f m s : updates a id f m → wf_db s →
  ∃ s', with_object a dflt m s = Done (match sview s a with Some v => f v | None => dflt end, s') ∧ s' ≡ s.
Proof.
  intros Hm Hwf. unfold with_object, mbind, M_bind, sview. destruct (obj_at s a) as [p|] eqn:Ep.
  - rewrite (getStateObject_found s a p Ep). simpl. pose proof (obj_at_good s a p Hwf Ep) as Hg.
    destruct (Hm (put a p s) p) as (o' & Hr & Hg' & Hv); [by apply put_wf|apply live_put, Hg|].
    rewrite Hr, put_put. eexists. split; [done|]. eapply put_same; [done|apply Hg'|done].
  - rewrite (getStateObject_missing s a Ep). simpl. by eexists.
Qed.

(** Fields of the object. *)
Lemma deref_updates {A} a (f : stateObject → A) (g : oview → A) :
  (∀ d o, f o = g (view d o)) → updates a id g (c ← deref a; mret (f c)).
Proof.
  intros Hfg s o Hwf Hl. exists o. pose proof (live_good s a o Hwf Hl) as Hg. split_and!; [|done|done].
  unfold mbind, M_bind, deref. rewrite (proj1 Hl). simpl. rewrite (Hfg (db s)). unfold put. rewrite insert_id by apply Hl. by destruct s.
Qed.
Lemma getStateObject_read a s : wf_db s →
  ∃ s', getStateObject a s = Done (bool_decide (is_Some (sview s a)), s') ∧ s' ≡ s.
Proof.
  intros Hwf. unfold sview. destruct (obj_at s a) as [p|] eqn:Ep.
  - rewrite (getStateObject_found s a p Ep). eexists. split; [done|]. eapply put_same; [done| |done].
    by apply (obj_at_good s a p Hwf Ep).
  - rewrite (getStateObject_missing s a Ep). by eexists.
Qed.

Lemma GetCodeSize_read a s : wf_db s → ∃ n s', GetCodeSize a s = Done (n, s') ∧ 0 <= n ∧ s' ≡ s.
Proof.
  intros Hwf. unfold GetCodeSize, with_object, mbind, M_bind. destruct (obj_at s a) as [p|] eqn:Ep.
  - rewrite (getStateObject_found s a p Ep). pose proof (obj_at_good s a p Hwf Ep) as (_ & _ & Hd).
    assert (put a p s ≡ s) as Hsame by by eapply put_same.
    cbn [obind fst snd deref]. unfold deref. simpl. rewrite lookup_insert_eq. simpl.
    destruct (code p) as [b|]; [by eexists _, _; split_and!; [done|lia|]|]. simpl.
    destruct (db_code (db s) !! BytesToHash (CodeHash (data p))) as [b|]; [by eexists _, _; split_and!; [done|lia|]|].
    eexists _, _. split_and!; [done|done|]. simpl. destruct (dbErr s); [done|]. destruct Hsame. by split.
  - rewrite (getStateObject_missing s a Ep). by eexists _, _.
Qed.

Lemma Empty_read a s : wf_db s → ∃ b s', Empty a s = Done (b, s') ∧ s' ≡ s.
Proof.
  intros Hwf. unfold Empty, with_object, mbind, M_bind. destruct (obj_at s a) as [p|] eqn:Ep.
  - rewrite (getStateObject_found s a p Ep). pose proof (obj_at_good s a p Hwf Ep) as (_ & _ & Hd).
    cbn [obind fst snd]. unfold deref. simpl. rewrite lookup_insert_eq. eexists _, _. split; [done|]. by eapply put_same.
  - rewrite (getStateObject_missing s a Ep). by eexists _, _.
Qed.

Definition db_bal (s : StateDB) (a : Address) : Z := bal (world s) a SystemAssetID.
Definition db_exists (s : StateDB) (a : Address) : bool := bool_decide (is_Some (sview s a)).

Lemma typed_sview s a v : db_ok s → sview s a = Some v → typed v.
Proof. intros Hs Hv. pose proof (do_typed _ Hs a) as Ht. unfold world in Ht. by rewrite Hv in Ht. Qed.

(** Every method that only reads returns what it should, and leaves the accounts as
    they are. *)
Lemma db_read {A} (op : iface A) s : is_read op = true → db_ok s →
  ∃ r s', perform op s = Done (r, s') ∧ s' ≡ s ∧ read_ok db_bal db_exists in_play s op r.
Proof.
  intros Hop Hs. pose proof (do_wf _ Hs) as Hwf. destruct op; try discriminate Hop; cbn [perform read_ok].
  - destruct (with_object_read addr (Some 0) _ _ s (obj_Balance_updates addr assetID) Hwf) as (s' & Hr & He).
    eexists _, s'. split; [exact Hr|]. split; [done|]. intros ->. unfold db_bal, bal, world.
    destruct (sview s addr) as [v|] eqn:Ev; [|by split].
    destruct (ty_bal _ (typed_sview _ _ _ Hs Ev)) as (b & Hb & Hpos). simpl. by rewrite Hb.
  - destruct (with_object_read addr 0 _ _ s (deref_updates addr (fun c => Nonce (data c)) v_nonce ltac:(done)) Hwf) as (s' & Hr & He).
    eexists _, s'. split; [exact Hr|]. split; [done|]. destruct (sview s addr) as [v|] eqn:Ev; [|done].
    apply (ty_nonce _ (typed_sview _ _ _ Hs Ev)).
  - destruct (with_object_read addr 0 _ _ s (deref_updates addr (fun c => BytesToHash (CodeHash (data c))) (fun v => BytesToHash (v_codehash v)) ltac:(done)) Hwf) as (s' & Hr & He).
    eexists _, s'. split; [exact Hr|]. split; [done|]. destruct (sview s addr) as [v|] eqn:Ev; [|done].
    apply SetBytes_nonneg, Forall_drop, (ty_hash_bytes _ (typed_sview _ _ _ Hs Ev)).
  - destruct (with_object_read addr None _ _ s (obj_Code_updates addr) Hwf) as (s' & Hr & He).
    eexists _, s'. split; [exact Hr|]. split; [done|]. destruct (sview s addr) as [v|] eqn:Ev.
    + apply (ty_code _ (typed_sview _ _ _ Hs Ev)).
    + split; [apply data_ok_nil|apply in_play_nil].
  - destruct (GetCodeSize_read addr s Hwf) as (n & s' & Hr & Hn & He). by exists n, s'.
  - destruct (with_object_read addr 0 _ _ s (obj_GetState_updates addr key) Hwf) as (s' & Hr & He).
    eexists _, s'. split; [exact Hr|]. split; [done|]. destruct (sview s addr) as [v|] eqn:Ev; [|done].
    apply (ty_slot _ (typed_sview _ _ _ Hs Ev)).
  - destruct (with_object_read addr false _ _ s (deref_updates addr suicided v_suicided ltac:(done)) Hwf) as (s' & Hr & He).
    by eexists _, s'.
  - destruct (getStateObject_read addr s Hwf) as (s' & Hr & He). by eexists _, s'.
  - destruct (Empty_read addr s Hwf) as (b & s' & Hr & He). by exists b, s'.
Qed.
Lemma db_ok_same s s' : db_ok s → ext s s' → s' ≡ s → db_ok s'.
Proof.
  intros [W R F T] Hx He. split; [apply Hx|by apply (ext_revs _ _ Hx)|by rewrite (se_refund _ _ He)|].
  intros a. rewrite (world_proper _ _ He a). apply T.
Qed.
Lemma db_exists_same s s' a : s' ≡ s → db_exists s' a = db_exists s a.
Proof.
  intros He. apply bool_decide_ext. pose proof (se_view _ _ He a) as Hv. destruct Hv; by rewrite !is_Some_alt.
Qed.
Lemma db_bal_same s s' a : s' ≡ s → db_bal s' a = db_bal s a.
Proof. intros He. unfold db_bal, bal. by rewrite (ve_bal _ _ (world_proper _ _ He a)). Qed.

Lemma read_ext {A} (op : iface A) s r s' : is_read op = true → wf_db s → perform op s = Done (r, s') → ext s s'.
Proof. intros Hop Hwf Hr. apply (safe_perform [] op ltac:(by destruct op) s r s' Hwf ltac:(set_solver) Hr). Qed.

Lemma db_code_hash a s h s1 c s2 : db_ok s → perform (IGetCodeHash a) s = Done (h, s1) →
  perform (IGetCode a) s1 = Done (c, s2) → default [] c = [] ∨ h = keccak (default [] c).
Proof.
  intros Hs H1 H2. pose proof (do_wf _ Hs) as Hwf.
  destruct (with_object_read a 0 _ _ s (deref_updates a (fun c => BytesToHash (CodeHash (data c))) (fun v => BytesToHash (v_codehash v)) ltac:(done)) Hwf) as (s1' & Hr1 & He1).
  cbn [perform] in H1, H2. unfold GetCodeHash in H1. rewrite Hr1 in H1. injection H1 as <- ->.
  pose proof (read_ext (IGetCodeHash a) s _ s1 eq_refl Hwf Hr1) as Hx1.
  destruct (with_object_read a None _ _ s1 (obj_Code_updates a) (ext_wf _ _ Hx1)) as (s2' & Hr2 & He2).
  unfold GetCode in H2. rewrite Hr2 in H2. injection H2 as <- <-.
  pose proof (se_view _ _ He1 a) as Hv. destruct (sview s1 a) as [v1|] eqn:E1; [|by left].
  destruct (sview s a) as [v|] eqn:E2; [|inversion Hv]. apply Some_equiv_inj in Hv.
  rewrite (ve_code _ _ Hv). by apply (ty_hash v), (typed_sview s a).
Qed.
End reads.

(** ** Writing *)

(** Nothing that a contract can see has changed, but that accounts may be there
    that were not, with nothing in them. *)
Record db_still (s s' : StateDB) : Prop := {
  ds_world : world s' ≡ world s;
  ds_refund : refund s' = refund s;
  ds_logs : logs s' = logs s;
}.

Section writes.
Context `{SP : StateParams} `{CS : CodeSet}.

(** The result of writing to one account. *)
Lemma write_account a s s' v : db_ok s → ext s s' → at_obj a s s' v → typed v →
  db_ok s' ∧ (∀ a', a' ≠ a → db_bal s' a' = db_bal s a') ∧ v_bal (world s' a) SystemAssetID = v_bal v SystemAssetID ∧
  (v ≡ world s a → db_still s s').
Proof.
  intros Hs Hx Hat Hv. assert (rep s (world s)) as Hrep by (split; [apply Hs|done]).
  destruct (at_obj_rep a s s' v (world s) Hrep Hat) as [[Hwf Hw] Hf]. destruct Hat as (_ & o & _ & _ & Heq).
  assert (world s' a ≡ v) as Hwa by (rewrite (Hw a); unfold wset; by rewrite upd_eq).
  assert (∀ a', a' ≠ a → world s' a' ≡ world s a') as Hwo by (intros a' Ha; rewrite (Hw a'); unfold wset; by rewrite upd_ne).
  split; [|split; [|split]].
  - split; [done|by apply (ext_revs _ _ Hx), Hs|rewrite (fr_refund _ _ Hf); apply Hs|].
    intros a'. destruct (decide (a' = a)) as [->|Ha]; [by rewrite Hwa|]. rewrite (Hwo a' Ha). apply Hs.
  - intros a' Ha. unfold db_bal, bal. by rewrite (ve_bal _ _ (Hwo a' Ha)).
  - apply (ve_bal _ _ Hwa).
  - intros Hsame. split; [|apply Hf|by rewrite Heq]. intros a'.
    destruct (decide (a' = a)) as [->|Ha]; [by rewrite Hwa|by apply Hwo].
Qed.

(** A write that keeps the balance. *)
Lemma write_account_bal a s s' v : db_ok s → ext s s' → at_obj a s s' v → typed v →
  v_bal v SystemAssetID = v_bal (world s a) SystemAssetID →
  db_ok s' ∧ (∀ a', db_bal s' a' = db_bal s a') ∧ (v ≡ world s a → db_still s s').
Proof.
  intros Hs Hx Hat Hv Hb. destruct (write_account a s s' v Hs Hx Hat Hv) as (H1 & H2 & H3 & H4).
  split; [done|]. split; [|done]. intros a'. destruct (decide (a' = a)) as [->|]; [|by apply H2].
  unfold db_bal, bal. by rewrite H3, Hb.
Qed.

(** A write that does not touch the accounts. *)
Lemma write_other s s' : db_ok s → ext s s' → (∀ a, sview s' a = sview s a) → is_u64 (refund s') →
  db_ok s' ∧ ∀ a, db_bal s' a = db_bal s a.
Proof.
  intros Hs Hx Hv Hr. assert (∀ a, world s' a = world s a) as Hw by (intros a; unfold world; by rewrite Hv).
  split; [|intros a; unfold db_bal, bal; by rewrite Hw].
  split; [apply Hx|by apply (ext_revs _ _ Hx), Hs|done|]. intros a. rewrite Hw. apply Hs.
Qed.

Lemma write_ext {A} (op : iface A) s r s' : iface_ok op → wf_db s → perform op s = Done (r, s') → ext s s'.
Proof. intros Hop Hwf Hr. apply (safe_perform [] op Hop s r s' Hwf ltac:(set_solver) Hr). Qed.

Lemma wp_SetCode_at s a b Q : wf_db s →
  (∀ s', at_obj a s s' (vset_code (Hash_Bytes (keccak b)) (Some b) (world s a)) → Q tt s') → wp (SetCode a b) Q s.
Proof.
  intros Hwf HQ. assert (rep s (world s)) as Hrep by by split. apply (wp_GetOrNew a s (world s)); [done|]. intros s1 H1.
  apply wp_bind. apply (wp_updates a s s1 (world s a) id v_code); [done|apply obj_Code_updates|by intros ? ?|].
  intros s2 v0 _ H2. apply wp_bind, (wp_deref a s s2 (world s a)); [done|]. intros o _.
  apply (wp_write a s s2 (world s a) (vset_code (Hash_Bytes (keccak b)) (Some b))); [done|apply setCode_updates|apply _|done].
Qed.

Definition write_spec {A} (op : iface A) (s : StateDB) : Prop :=
  ∃ r s', perform op s = Done (r, s') ∧ db_ok s' ∧ ext s s' ∧ write_bal db_bal s op s' ∧
    (no_change db_exists s op → db_still s s').

Lemma write_spec_at {A} a v (op : iface A) s : db_ok s → iface_ok op →
  wp (perform op) (fun _ s' => at_obj a s s' v) s → typed v →
  v_bal v SystemAssetID = v_bal (world s a) SystemAssetID ∧
    (∀ s', (∀ a, db_bal s' a = db_bal s a) → write_bal db_bal s op s') ∨ (∀ s', write_bal db_bal s op s') →
  (no_change db_exists s op → v ≡ world s a) → write_spec op s.
Proof.
  intros Hs Hop (u & s' & Hr & Hat) Hv Hb Hno. pose proof (write_ext op s u s' Hop (do_wf _ Hs) Hr) as Hx.
  exists u, s'. split; [done|]. destruct Hb as [[Hb Hb']|Hb].
  - destruct (write_account_bal a s s' v Hs Hx Hat Hv Hb) as (H1 & H2 & H3). split_and!; auto.
  - destruct (write_account a s s' v Hs Hx Hat Hv) as (H1 & _ & _ & H4). split_and!; auto.
Qed.

Lemma write_spec_other {A} (op : iface A) s r s' : db_ok s → iface_ok op → perform op s = Done (r, s') →
  (∀ a, sview s' a = sview s a) → is_u64 (refund s') →
  ((∀ a, db_bal s' a = db_bal s a) → write_bal db_bal s op s') →
  (no_change db_exists s op → refund s' = refund s ∧ logs s' = logs s) → write_spec op s.
Proof.
  intros Hs Hop Hr Hv Hrf Hb Hno. pose proof (write_ext op s r s' Hop (do_wf _ Hs) Hr) as Hx.
  destruct (write_other s s' Hs Hx Hv Hrf) as [H1 H2]. exists r, s'. split_and!; auto.
  intros Hn. destruct (Hno Hn). split; [|done|done]. intros a. unfold world. by rewrite Hv.
Qed.

Lemma typed_vset_bal v b : typed v → 0 <= b → typed (vset_bal SystemAssetID (Some b) v).
Proof. intros [] Hb. split; try done. exists b. simpl. by rewrite upd_eq. Qed.
Lemma typed_vset_nonce v n : typed v → is_u64 n → typed (vset_nonce n v).
Proof. intros [] Hn. by split. Qed.
Lemma typed_vset_slot v k x : typed v → 0 <= x → typed (vset_slot k x v).
Proof. intros [] Hx. split; try done. intros k'. simpl. unfold upd. by destruct (k =? k'). Qed.
Lemma typed_vset_code v b : typed v → data_ok b → in_play b → typed (vset_code (Hash_Bytes (keccak b)) (Some b) v).
Proof.
  intros [] Hb Hp. split; try done; simpl; [right|apply Hash_Bytes_ok]. apply BytesToHash_Bytes, keccak_is_hash.
Qed.
Lemma typed_vcarry v : typed v → typed (vcarry v).
Proof. intros []. destruct typed_empty. by split. Qed.

Lemma world_bal s a : db_ok s → v_bal (world s a) SystemAssetID = Some (db_bal s a) ∧ 0 <= db_bal s a.
Proof.
  intros Hs. destruct (ty_bal _ (do_typed _ Hs a)) as (b & Hb & Hpos). unfold db_bal, bal. rewrite Hb. done.
Qed.

(** Every write of the EVM returns, can be undone and keeps the invariant. *)
Lemma db_write {A} (op : iface A) s : write_pre db_bal in_play s op → db_ok s → write_spec op s.
Proof.
  intros Hop Hs. pose proof (do_wf _ Hs) as Hwf. assert (rep s (world s)) as Hrep by by split.
  pose proof (do_typed _ Hs) as Ht.
  destruct op; simpl in Hop; try contradiction.
  - apply (write_spec_at addr (vcarry (world s addr))); [done|done| |by apply typed_vcarry|left; split; [done|auto]|].
    + destruct (CreateAccount_spec s addr Hwf) as (s1 & o & Hr & He & Hl & Hv & Hs1). exists tt, s1. split; [done|].
      split; [apply He|]. by exists o.
    + intros Hno%bool_decide_eq_false. unfold world. destruct (sview s addr); [by destruct Hno|]. simpl. by rewrite vcarry_empty.
  - destruct Hop as [-> Hle]. destruct (world_bal s addr Hs) as [Hb Hpos].
    apply (write_spec_at addr (vset_bal SystemAssetID (Some (db_bal s addr - amount)) (world s addr))); try done.
    + apply (wp_GetOrNew addr s (world s)); [done|]. intros s1 H1. by apply (wp_obj_SubBalance addr s s1 (world s addr) _ (db_bal s addr)).
    + apply typed_vset_bal; [done|lia].
    + by right.
    + intros ->. rewrite Z.sub_0_r. symmetry. by apply vset_bal_same.
  - destruct Hop as [-> Hle]. destruct (world_bal s addr Hs) as [Hb Hpos].
    apply (write_spec_at addr (vset_bal SystemAssetID (Some (db_bal s addr + amount)) (world s addr))); try done.
    + apply (wp_GetOrNew addr s (world s)); [done|]. intros s1 H1. by apply (wp_obj_AddBalance addr s s1 (world s addr) _ (db_bal s addr)).
    + apply typed_vset_bal; [done|lia].
    + by right.
    + intros ->. rewrite Z.add_0_r. symmetry. by apply vset_bal_same.
  - apply (write_spec_at addr (vset_nonce nonce (world s addr))); try done; [|by apply typed_vset_nonce|by left].
    apply (wp_GetOrNew addr s (world s)); [done|]. intros s1 H1. by apply (wp_obj_SetNonce addr s s1 (world s addr)).
  - apply (write_spec_at addr (vset_code (Hash_Bytes (keccak b)) (Some b) (world s addr))); try done; [|destruct Hop; by apply typed_vset_code|by left].
    by apply wp_SetCode_at.
  - eapply write_spec_other; [done|done|reflexivity|done|apply u64_range|done|done].
  - apply (write_spec_at addr (vset_slot key value (world s addr))); try done; [|by apply typed_vset_slot|by left].
    apply (wp_GetOrNew addr s (world s)); [done|]. intros s1 H1. by apply (wp_obj_SetState addr s s1 (world s addr)).
  - eapply write_spec_other; [done|done|cbn [perform]; unfold AddLog, mbind, M_bind; simpl; reflexivity|done|apply Hs|done|done].
  - destruct (preimages s !! hash) eqn:Ep.
    + apply (write_spec_other _ s tt s); try done; [|apply Hs]. cbn [perform]. unfold AddPreimage, mbind, M_bind, get. simpl. by rewrite Ep.
    + eapply write_spec_other; [done|done|cbn [perform]; unfold AddPreimage, mbind, M_bind, get; simpl; by rewrite Ep|done|apply Hs|done|done].
Qed.
End writes.

(** ** The instance *)

Section instance.
Context `{SP : StateParams} `{CS : CodeSet}.

Lemma db_snapshot s : db_ok s →
  ∃ id s1, Snapshot s = Done (id, s1) ∧ db_ok s1 ∧ ext s s1 ∧ s1 ≡ s ∧
    ∀ s2, db_ok s2 → ext s1 s2 → ∃ s3, RevertToSnapshot id s2 = Done (tt, s3) ∧ db_ok s3 ∧ ext s s3 ∧ s3 ≡ s.
Proof.
  intros Hs. pose proof (do_wf _ Hs) as Hwf.
  set (s1 := set_revisions (validRevisions s ++ [mkRevision (nextRevisionId s) (journal_length (jrnl s))]) (nextRevisionId s + 1) s).
  assert (Snapshot s = Done (nextRevisionId s, s1)) as Hr by done. exists (nextRevisionId s), s1. split; [done|].
  assert (ext s s1) as Hx by (apply (safe_Snapshot [] s (nextRevisionId s) s1); [done|set_solver|done]).
  assert (s1 ≡ s) as He by by split. split; [by apply (db_ok_same s)|]. split; [done|]. split; [done|].
  intros s2 Hs2 Hx2. destruct (RevertToSnapshot_ext s s1 s2 _ Hwf (do_revs _ Hs) Hr Hx2) as (s3 & Hr3 & Hw3 & He3 & Hj & Hv & Hn & _).
  assert (ext s s3) as Hx3.
  { apply (ext_reverted s s2 s3); try done. apply (ext_revs _ _ (ext_trans _ _ _ Hx Hx2)). }
  exists s3. split; [done|]. split; [by apply (db_ok_same s)|done].
Qed.

#[export] Instance db_laws : StateLaws.
Proof.
  refine {| st_ok := (db_ok : sdb → Prop); st_bal := (db_bal : sdb → Address → Z); st_exists := (db_exists : sdb → Address → bool);
            st_codes := in_play; st_ext := (ext : sdb → sdb → Prop);
            st_same := (fun s s' : sdb => (s' : StateDB) ≡ s); st_still := (db_still : sdb → sdb → Prop) |}.
  - intros s Hs. apply ext_refl, Hs.
  - apply ext_trans.
  - done.
  - intros s1 s2 s3 H1 H2. by rewrite H2.
  - intros s1 s2 s3 [W1 R1 L1] [W2 R2 L2]. split; [by rewrite W2|congruence|congruence].
  - intros s s' He. split; [by apply world_proper|apply He|apply He].
  - intros A op s Hop Hs. destruct (db_read op s Hop Hs) as (r & s' & Hr & He & Hok).
    pose proof (read_ext op s r s' Hop (do_wf _ Hs) Hr) as Hx. exists r, s'. split_and!; try done.
    + by apply (db_ok_same s).
    + intros a. by apply db_bal_same.
    + intros a. by apply db_exists_same.
  - intros op s Hop Hs. destruct (db_write op s Hop Hs) as ([] & s' & H). by exists s'.
  - apply db_code_hash.
  - intros s Hs. destruct (db_snapshot s Hs) as (id & s1 & Hr & Hok & Hx & He & Hrev). exists id, s1. split_and!; try done.
    + intros a. by apply db_bal_same.
    + intros a. by apply db_exists_same.
Defined.
End instance.
