(* ===== verification/EvmSpec.v ===== *)
(** * What the EVM guarantees

    On the state database: a call returns, its gas is accounted for and a failure
    leaves no trace; a static call changes nothing; a jump goes to the places that
    it should; memory is paid for exactly, up to the size where the price wraps. *)

From stdpp Require Import base list gmap strings.
From Stdlib Require Import ZArith Lia.
From S2P Require Import Prelude Bytes Keccak KeccakFacts FsnTypes Codec Transaction StateDB StateFacts StateRevert StateInterface StateWorld.
From S2P Require Import EvmWord EvmAnalysis ChainConfig EvmMachine EvmGas EvmCall EvmOps Evm EvmLaws EvmSafe.
From S2P Require Import EvmPrice EvmCallOk EvmCallOps EvmTotal EvmPrecompiled EvmPrecompiledOk EvmState.

(** What is relied on: the block is in order, the libraries return what they
    should, and the jump table leaves out SELFDESTRUCT, whose effect the state
    cannot undo. Code that is created must be in play as well, so with CREATE in
    the table all code is. *)
Record evm_env `{CS : CodeSet} `{CU : Curve} `{HA : Hashing} `{BN : Bn256} (ctx : Context) (allowed : Z → bool) : Prop := {
  ev_ctx : ctx_ok ctx;
  ev_crypto : crypto_ok;
  ev_fork : IsConstantinople (ctx_chainConfig ctx) (ctx_BlockNumber ctx) = false;
  ev_suicide : allowed OpCode.SELFDESTRUCT = false;
  ev_create : allowed OpCode.CREATE = true → ∀ c, data_ok c → in_play c;
}.

Section guarantees.
Context `{SP : StateParams} `{CS : CodeSet} `{CU : Curve} `{HA : Hashing} `{BN : Bn256} (ctx : Context) (allowed : Z → bool).
Context (He : evm_env ctx allowed).

Lemma db_Run_ok : run_ok ctx 0 (Run ctx allowed).
Proof. destruct He. apply Run_ok; try done; [by apply contracts_ok|congruence]. Qed.

Lemma db_call caller addr input gas value s :
  db_ok s → 0 <= caller → 0 <= addr → data_ok input → gas_fits gas → 0 <= value →
  ends_well in_play (evmCall ctx allowed caller addr input gas value s) (fun '(ret, gas', err, s') =>
    data_ok ret ∧ 0 <= gas' <= gas ∧ db_ok s' ∧ ext s s' ∧ (err ≠ None → s' ≡ s)).
Proof.
  intros Hs Hc Ha Hi Hg Hv. apply ends_well_obind. eapply ends_well_mono.
  - apply (Call_ok ctx 0 _ db_Run_ok (contracts_ok (ev_crypto _ _ He) ctx) (AccountRef caller) addr input gas value (newEVM (SO := db_ops) s)); try done.
  - intros [[[ret gas'] err] e'] [H1 H2 [H3 H4 _ _ _] H5]. simpl in *. split_and!; try done; [lia|lia|apply H3].
Qed.
End guarantees.

(** C2: a call of the EVM ends, whatever the code that it runs: the gas bounds the
    loop of every interpreter, and the depth of the calls their nesting, so neither
    bound of the model is ever reached. No more gas comes back than was given, the
    state is well-formed again and can be reverted to what it was, and a call that
    fails gives back every account with its balances, time locks, nonce, notation,
    code and storage, the refund counter, the logs and the preimages. Not given back
    are the error of the database and the entries of zero that reading a balance
    makes in an account, which [Empty] counts. With a jump table without CREATE nothing panics, unless two different
    pieces of code in play, a set that the accounts are from, have the same hash:
    the jump destinations are kept by hash. With CREATE the code that may be run is
    not known beforehand, and panics are not excluded. The rules are those before
    Constantinople, SELFDESTRUCT is not in the jump table, since its effect on the
    state database cannot be undone, and the gas is at most 2^62 ([evm_env],
    [gas_fits]). *)
Theorem evm_call_safe `{SP : StateParams} `{CS : CodeSet} `{CU : Curve} `{HA : Hashing} `{BN : Bn256} (ctx : Context) (allowed : Z → bool)
    (caller addr : Address) (input : bytes) (gas value : Z) (s : StateDB) :
  evm_env ctx allowed → db_ok s → 0 <= caller → 0 <= addr → data_ok input → gas_fits gas → 0 <= value →
  match evmCall ctx allowed caller addr input gas value s with
  | Done (ret, gas', err, s') =>
      data_ok ret ∧ 0 <= gas' <= gas ∧ db_ok s' ∧ ext s s' ∧ (err ≠ None → s' ≡ s)
  | Panic _ => allowed OpCode.CREATE = false → collision in_play
  | OutOfFuel => False
  end.
Proof.
  intros He Hs Hc Ha Hi Hg Hv. pose proof (db_call ctx allowed He caller addr input gas value s Hs Hc Ha Hi Hg Hv) as H.
  destruct (evmCall _ _ _ _ _ _ _ _) as [[[[ret gas'] err] s']| |]; [done|by intros _|done].
Qed.

(** C9: a static call changes nothing, under the rules of Byzantium and before those of
    Constantinople, with a jump table without SELFDESTRUCT. It ends, and when
    [StaticCall] returns, whatever the callee and the contracts that it called in
    turn did, every account has the balances, time locks, nonce, notation, code and
    storage that it had, and so are the refund counter and the logs. Not counted as
    a change are accounts with nothing in them that were created, and the entries of
    zero that reading a balance makes, by which an account stops being [Empty].
    Panics are excluded as for any call, by a jump table without CREATE and code in
    play without two pieces of the same hash. *)
Theorem static_call_changes_nothing `{SP : StateParams} `{CS : CodeSet} `{CU : Curve} `{HA : Hashing} `{BN : Bn256} (ctx : Context)
    (allowed : Z → bool) (caller : ContractRef) (addr : Address) (input : bytes) (gas : Z) (e : EVM) :
  evm_env ctx allowed → IsByzantium (ctx_chainConfig ctx) (ctx_BlockNumber ctx) = true →
  evm_good e → caller_ok caller → 0 <= addr → data_ok input → gas_fits gas →
  match StaticCall ctx (Run ctx allowed) caller addr input gas e with
  | Done (ret, gas', err, e') =>
      world (evm_db e') ≡ world (evm_db e) ∧ refund (evm_db e') = refund (evm_db e) ∧ logs (evm_db e') = logs (evm_db e)
  | Panic _ => allowed OpCode.CREATE = false → collision in_play
  | OutOfFuel => False
  end.
Proof.
  intros He Hb Hg Hc Ha Hi Hgas.
  pose proof (StaticCall_ok ctx 0 _ (db_Run_ok ctx allowed He) (contracts_ok (ev_crypto _ _ He) ctx) caller addr input gas e Hc Ha Hi Hgas Hg) as H.
  specialize (H (proj1 (eg_depth _ Hg))). unfold wpV, ends_well in H.
  destruct (StaticCall _ _ _ _ _ _ _) as [[[[ret gas'] err] e']| |]; [|by intros _|done].
  destruct H as [_ Hstill]. by destruct (Hstill Hb) as [W R L].
Qed.

(** C16: a jump goes through exactly at the bytes of the code that are JUMPDEST and
    not the data of a PUSH, as a scan of the code from its start finds them,
    although the vector of the destinations is built eight bits at a time and kept
    for later jumps. *)
Theorem jump_destinations_exact (d : destinations) (code : bytes) (dest : Z) :
  Z.of_nat (length code) < 2 ^ 62 → 0 <= dest < two64 → cache_ok d (keccak code) code →
  ∃ d', has d (keccak code) code dest = Done (jumpable code (Z.to_nat dest), d') ∧ cache_ok d' (keccak code) code.
Proof.
  intros Hl Hd Hc. destruct (has_ok d (keccak code) code dest Hl (proj1 Hd) Hc) as (d' & Hr & Hc' & _).
  exists d'. rewrite Hr, bool_decide_true by apply Hd. done.
Qed.

(** ** Memory *)

(** What memory of so many words costs, in all. *)
Definition mem_fee (words : Z) : Z := MemoryGas * words + words * words / QuadCoeffDiv.

Lemma mem_fee_bound words : 0 <= words < 2 ^ 32 → 0 <= mem_fee words < 2 ^ 63.
Proof.
  intros Hw. unfold mem_fee, MemoryGas, QuadCoeffDiv. assert (words * words < 2 ^ 32 * 2 ^ 32) by nia.
  pose proof (Z.div_pos (words * words) 512). pose proof (Z.div_le_upper_bound (words * words) 512 (2 ^ 55)).
  change (2 ^ 32 * 2 ^ 32) with 18446744073709551616 in *. change (2 ^ 55) with 36028797018963968 in *.
  change (2 ^ 32) with 4294967296 in *. change (2 ^ 63) with 9223372036854775808. lia.
Qed.

Lemma mem_fee_mono w1 w2 : 0 <= w1 <= w2 → mem_fee w1 <= mem_fee w2.
Proof.
  intros Hw. unfold mem_fee, MemoryGas, QuadCoeffDiv. assert (w1 * w1 <= w2 * w2) by nia.
  pose proof (Z.div_le_mono (w1 * w1) (w2 * w2) 512). lia.
Qed.

Lemma memoryGasCost_exact `{SO : StateOps} (v : VM) (words : Z) :
  0 < words < 2 ^ 32 → (32 | mem_Len (vm_mem v)) → mem_Len (vm_mem v) < 32 * words →
  lastGasCost (vm_mem v) = mem_fee (mem_Len (vm_mem v) / 32) →
  memoryGasCost (32 * words) v =
    Done (inl (mem_fee words - mem_fee (mem_Len (vm_mem v) / 32)), set_mem (mkMemory (mem_store (vm_mem v)) (mem_fee words)) v).
Proof.
  intros Hw [k Hk] Hlt Hfee. unfold memoryGasCost. change (2 ^ 32) with 4294967296 in Hw.
  assert (is_u64 (32 * words)) as Hu by (unfold is_u64, two64; lia).
  destruct (Z.eqb_spec (32 * words) 0); [lia|]. destruct (Z.ltb_spec 0xffffffffe0 (32 * words)); [lia|].
  assert (toWordSize (32 * words) = words) as ->.
  { rewrite toWordSize_spec by done. symmetry. apply (Z.div_unique _ _ _ 31); lia. }
  rewrite (u64_id (words * 32)) by (unfold is_u64, two64; lia).
  destruct (Z.ltb_spec (mem_Len (vm_mem v)) (words * 32)); [|lia].
  assert (is_u64 (words * words)) by (unfold is_u64, two64; nia).
  pose proof (mem_fee_bound words ltac:(lia)) as Hb. change (2 ^ 63) with 9223372036854775808 in Hb.
  assert (0 <= mem_Len (vm_mem v)) by (unfold mem_Len; lia).
  assert (mem_Len (vm_mem v) / 32 = k) as Hk' by (rewrite Hk; apply Z.div_mul; lia). rewrite Hk' in *.
  pose proof (mem_fee_mono k words ltac:(lia)). pose proof (mem_fee_bound k ltac:(lia)).
  rewrite (u64_id (words * words)) by done. rewrite (u64_id (words * MemoryGas)) by (unfold is_u64, two64, MemoryGas; lia).
  replace (words * MemoryGas + words * words / QuadCoeffDiv) with (mem_fee words) by (unfold mem_fee; lia).
  rewrite (u64_id (mem_fee words)) by (unfold is_u64, two64; lia). rewrite Hfee.
  by rewrite u64_id by (unfold is_u64, two64; lia).
Qed.

(** C28: memory is paid for by its length, three units of gas a word and a quadratic
    part: growing to less than 2^37 bytes costs the difference of the two prices.
    From 2^37 bytes on the square of the words does not fit, and the price wraps,
    although the code lets 0xffffffffe0 bytes pass as the largest size whose price
    does not overflow: new memory of 2^37 bytes loses the quadratic part, and is as
    cheap as if it were linear. *)
Theorem memory_fee_exact_then_wraps `{SO : StateOps} (v : VM) :
  (∀ words, 0 < words < 2 ^ 32 → (32 | mem_Len (vm_mem v)) → mem_Len (vm_mem v) < 32 * words →
     lastGasCost (vm_mem v) = mem_fee (mem_Len (vm_mem v) / 32) →
     memoryGasCost (32 * words) v =
       Done (inl (mem_fee words - mem_fee (mem_Len (vm_mem v) / 32)), set_mem (mkMemory (mem_store (vm_mem v)) (mem_fee words)) v)) ∧
  (vm_mem v = NewMemory →
     memoryGasCost (2 ^ 37) v = Done (inl (MemoryGas * 2 ^ 32), set_mem (mkMemory [] (MemoryGas * 2 ^ 32)) v) ∧
     mem_fee (2 ^ 32) = MemoryGas * 2 ^ 32 + 2 ^ 55).
Proof.
  split; [intros words; apply memoryGasCost_exact|]. intros Hnew. unfold memoryGasCost. rewrite Hnew. split; reflexivity.
Qed.

(** ** Examples *)

(** Libraries with one point and one key. *)
#[export] Instance ex_curve : Curve := toy_curve.
#[export] Instance ex_hashing : Hashing := {| ripemd160 _ := replicate 20 5 |}.
#[export] Instance ex_bn256 : Bn256 := {|
  G1 := unit; G2 := unit;
  G1_Unmarshal _ := inl tt; G2_Unmarshal _ := inl tt;
  G1_Add _ _ := tt; G1_ScalarMult _ _ := tt; G1_Marshal _ := replicate 64 1; PairingCheck _ _ := true;
|}.

(** A contract that jumps back to its start for ever. *)
Definition ex_loop : bytes := [0x5b; 0x60; 0; 0x56].
(** One that writes to its storage and then runs into an invalid instruction. *)
Definition ex_writer : bytes := [0x60; 1; 0x60; 2; 0x55; 0xfe].

#[export] Instance ex_codes : CodeSet.
Proof. refine {| in_play c := c = [] ∨ c = ex_loop ∨ c = ex_writer |}. by left. Defined.

Definition ex_block : Context :=
  mkContext (fun _ => 0) 1 1 2 8000000 5 6 7 MainnetChainConfig false false.
Definition ex_allowed (op : Z) : bool := negb (op =? OpCode.SELFDESTRUCT) && negb (op =? OpCode.CREATE).

Lemma ex_env : evm_env ex_block ex_allowed.
Proof.
  split; [by split| |done|done|done]. split.
  - intros h sig pub [= <-]. split; [done|]. by repeat constructor.
  - intros b. split; [done|by apply Forall_replicate].
  - intros p. split; [done|by apply Forall_replicate].
Qed.

(** The two contracts at the addresses 70 and 80. *)
Definition ex_setup (s : StateDB) : StateDB :=
  match perform (ISetCode 70 ex_loop) s with
  | Done (_, s) => match perform (ISetCode 80 ex_writer) s with Done (_, s) => s | _ => s end
  | _ => s
  end.
Definition ex_evm_state : StateDB := ex_setup ex_state.

Lemma ex_state_ok : db_ok ex_state.
Proof.
  split; [apply wf_ex_state|apply wf_ex_state|done|]. intros a. change (world ex_state a) with emptyView. apply typed_empty.
Qed.

Lemma ex_code_ok (c : bytes) : c = ex_loop ∨ c = ex_writer → data_ok c ∧ in_play c.
Proof. intros [-> | ->]; (split; [split; [by repeat constructor|done]|]); [right; by left|right; by right]. Qed.

Lemma ex_evm_state_ok : db_ok ex_evm_state.
Proof.
  unfold ex_evm_state, ex_setup. destruct (db_write (ISetCode 70 ex_loop) ex_state) as (r & s & -> & Hs & _).
  { apply ex_code_ok. by left. }
  { apply ex_state_ok. }
  destruct (db_write (ISetCode 80 ex_writer) s) as (r' & s' & -> & Hs' & _); [apply ex_code_ok; by right|done|done].
Qed.

(** The loop burns all its gas and ends. *)
Lemma evm_call_safe_witness :
  match evmCall ex_block ex_allowed 1 70 [] 1000 0 ex_evm_state with
  | Done ([], 0, Some err, s') => err = ErrOutOfGas ∧ s' ≡ ex_evm_state
  | _ => False
  end.
Proof.
  assert (0 <= 1) as A1 by done. assert (0 <= 70) as A2 by done. assert (gas_fits 1000) as A3 by done. assert (0 <= 0) as A4 by done.
  assert (match evmCall ex_block ex_allowed 1 70 [] 1000 0 ex_evm_state with
          | Done ([], 0, Some err, _) => err = ErrOutOfGas
          | _ => False
          end) as Hrun by (vm_compute; reflexivity).
  pose proof (evm_call_safe ex_block ex_allowed 1 70 [] 1000 0 ex_evm_state ex_env ex_evm_state_ok A1 A2 data_ok_nil A3 A4) as H.
  destruct (evmCall _ _ _ _ _ _ _ _) as [[[[[|] [| |]] [err|]] s']| |]; try contradiction.
  split; [exact Hrun|]. by apply H.
Defined.

(** In a static call the writer may not write. *)
Lemma static_call_changes_nothing_witness :
  match StaticCall ex_block (Run ex_block ex_allowed) (AccountRef 1) 80 [] 100000 (newEVM ex_evm_state) with
  | Done (_, _, Some err, e') => err = errWriteProtection ∧ world (evm_db e') ≡ world ex_evm_state
  | _ => False
  end.
Proof.
  assert (0 <= 80) as A1 by done. assert (gas_fits 100000) as A2 by done.
  assert (evm_good (newEVM ex_evm_state)) as A3 by (apply newEVM_good, ex_evm_state_ok). assert (caller_ok (AccountRef 1)) as A4 by done.
  assert (match StaticCall ex_block (Run ex_block ex_allowed) (AccountRef 1) 80 [] 100000 (newEVM ex_evm_state) with
          | Done (_, _, Some err, _) => err = errWriteProtection
          | _ => False
          end) as Hrun by (vm_compute; reflexivity).
  pose proof (static_call_changes_nothing ex_block ex_allowed (AccountRef 1) 80 [] 100000 (newEVM ex_evm_state) ex_env eq_refl A3 A4 A1
    data_ok_nil A2) as H.
  destruct (StaticCall _ _ _ _ _ _ _) as [[[[ret g] [err|]] e']| |]; try contradiction.
  split; [exact Hrun|]. apply H.
Defined.

(** In the code of a PUSH1 of a JUMPDEST and a JUMPDEST, only the second is one. *)
Lemma jump_destinations_exact_witness :
  (∃ d, has ∅ (keccak [0x60; 0x5b; 0x5b]) [0x60; 0x5b; 0x5b] 1 = Done (false, d)) ∧
  (∃ d, has ∅ (keccak [0x60; 0x5b; 0x5b]) [0x60; 0x5b; 0x5b] 2 = Done (true, d)).
Proof.
  split.
  - destruct (jump_destinations_exact ∅ [0x60; 0x5b; 0x5b] 1) as (d & H & _); [done|done|done|]. by exists d.
  - destruct (jump_destinations_exact ∅ [0x60; 0x5b; 0x5b] 2) as (d & H & _); [done|done|done|]. by exists d.
Defined.

Lemma memory_fee_exact_then_wraps_witness :
  let v := mkVM (newEVM ex_evm_state) 0 (NewContract (AccountRef 1) 7 (Some 0) 5) NewMemory [] in
  (∃ v', memoryGasCost (32 * 1024) v = Done (inl (3 * 1024 + 2048), v')) ∧
  (∃ v', memoryGasCost (2 ^ 37) v = Done (inl (3 * 2 ^ 32), v')).
Proof.
  intros v. destruct (memory_fee_exact_then_wraps v) as [H1 H2]. split.
  - eexists. exact (H1 1024 ltac:(done) ltac:(by exists 0) ltac:(done) ltac:(done)).
  - eexists. exact (proj1 (H2 eq_refl)).
Defined.
